(* ===== verification/_CoqProject ===== *)
-Q . S2P
Prelude.v
Programs.v
PyStr.v
PyObj.v
PyUrl.v
PyDatetime.v
PyJson.v
JsonProps.v
LogicalJat.v
LogicalJatProps.v
LogicalJatDemo.v
LogicalJatTheorems.v
Catalog.v
CatalogProps.v
CatalogOps.v
CatalogLogical.v
CatalogMade.v
Crypto.v
CryptoProps.v
CatalogFile.v
CatalogFileProps.v
CatalogDemo.v
CatalogTheorems.v
CatalogFileTheorems.v
References.v
ReferencesProps.v
ReferencesTheorems.v
Policy.v
PolicyProps.v
Base64.v
Bech32.v
Bech32Props.v
Bech32Errors.v
Bech32Canon.v
Bech32Theorems.v
Keyset.v
KeysetProps.v
KeysetTheorems.v
ControlStore.v
ControlProps.v
ControlTheorems.v
KeysetDemo.v
SnapshotPaths.v
SnapshotProps.v
SnapshotTheorems.v
WorkspacePolicy.v
WorkspacePolicyProps.v
WorkspacePolicyTheorems.v
SessionEvidence.v
SessionEvidenceProps.v
Replay.v
ReplayChain.v
ReplayProps.v
ReplayCursors.v
ReplayPages.v
ReplayTheorems.v
ReplayDemo.v
OutboxData.v
OutboxStore.v
PreparedOutbox.v
PccOutbox.v
RecordProps.v
OutboxLogic.v
QueueRecords.v
QueueModel.v
QueueSpec.v
QueueRefine.v
OutboxOps.v
OutboxDemo.v
OutboxProps.v
OutboxTheorems.v
EvidenceState.v
EvidenceStore.v
EvidencePublish.v
EvidenceStateProps.v
EvidenceRuns.v
EvidenceInvariant.v
EvidenceProps.v
EvidenceDemo.v
EvidenceTheorems.v
