(* ===== verification/Prelude.v ===== *)
(** * Josh Room: verification of the capture, delivery and catalog core

    Josh Room ([src/josh_room/]) captures the work done in a repository and keeps it, in
    encrypted form, where it can be restored.  A hook or a command asks the capture
    policy whether and where a trigger may be captured ([policy.py]); the trigger enters a
    durable queue, from which workers claim, prepare, upload and commit it
    ([pcc_outbox.py], [pcc_enqueue.py]); recovery points are described by logical
    descriptors ([logical_jat.py]) and indexed by an encrypted catalog ([catalog.py],
    [crypto.py]); and what the catalog and its descriptors refer to decides which
    snapshots of the shared repository may be deleted ([room_store_references.py]).
    The keys of a bucket are in a keyset, which the bucket itself holds and its clients
    share ([encryption_domain.py], [auth.py]).  What of a workspace is captured at all is
    decided by its own rules ([workspace_policy.py]), and the listing of a snapshot is
    checked before it is restored ([room_store_operations.py]).  The sessions the queue
    uploaded are documents of four kinds ([session_evidence.py]), which a reader lists,
    decrypts, checks and hands out page by page ([pcc_replay.py]).  Between the two stands
    the evidence namespace of the object store, which takes each ciphertext once, under
    the key of its digest, and drives a record of the queue to its commit ([r2.py]).
    These eleven parts are modelled, function by function and in the order of the code.

    ** The files

    Shared foundations:
    - [Prelude]: Python exceptions, the error monad with its loops, and the automation.
    - [Programs]: programs as trees of calls to services, with handlers and local
      variables, and the logic in which the clients of a shared service are proved.
    - [PyStr], [PyObj], [PyUrl], [PyDatetime], [PyJson], [Base64]: what the modelled code
      uses of Python's own library: strings and regular expressions, values and
      dictionaries, [json], [urlsplit], [datetime.fromisoformat], [base64].  [JsonProps]
      proves that [json.loads] reads back what [json.dumps] writes.

    Logical descriptors: [LogicalJat] is [logical_jat.py]; [LogicalJatProps] shows that
    its checks do not depend on the order of keys; [LogicalJatTheorems] has the
    properties and [LogicalJatDemo] a concrete descriptor.

    The catalog: [Catalog] is the pure part of [catalog.py], with [validate_encryption_domain_id];
    [CatalogProps], [CatalogOps], [CatalogLogical] and [CatalogMade] are lemmas on its
    checks, its operations, the records of descriptors, the catalogs that can be reached
    ([made]) and on sorting keys; [CatalogTheorems] has the properties.
    [Crypto] is [encrypt], [decrypt] and their file forms of [crypto.py]; [CatalogFile] is
    the class of that name, which stores the catalog through them; [CryptoProps],
    [CatalogFileProps] and [CatalogFileTheorems] reason about runs whose system calls may
    fail; [CatalogDemo] has concrete catalogs and a concrete host.

    The reference index: [References] is [room_store_references.py]; [ReferencesProps]
    follows its loop over the entries of a catalog;
    [ReferencesTheorems] has the properties.

    The policy: [Policy] is [policy.py] and [PolicyProps] its lemmas and properties.

    Keysets: [Bech32] has the validators of age recipients and identities; [Bech32Props],
    [Bech32Errors] and [Bech32Canon] are lemmas on the checksum as a linear map, the errors
    it detects and the regrouping of bits; [Bech32Theorems] has the properties.  [Keyset]
    is the rest of [encryption_domain.py], [KeysetProps] its lemmas and [KeysetTheorems]
    the properties of one keyset.  [ControlStore] has the programs of [auth.py], [r2.py]
    and [minio.py] that read, create and replace the keyset of a bucket; [ControlProps] has
    the object store, the systems of clients that share it and the clients in the logic of
    [Programs], and [ControlTheorems] their agreement.  [KeysetDemo] has a concrete keyset and run.

    Workspaces: [WorkspacePolicy] is [workspace_policy.py], with its lemmas in
    [WorkspacePolicyProps] and its properties in [WorkspacePolicyTheorems];
    [SnapshotPaths] has the checks of a snapshot's listing, [SnapshotProps] lemmas on its
    paths and on the walk through its links, and [SnapshotTheorems] the properties.

    Sessions: [SessionEvidence] is [session_evidence.py] and [SessionEvidenceProps] reads
    its checks backwards.  [Replay] is [pcc_replay.py] with the index keys of [r2.py];
    [ReplayChain] has what a sound session is, [ReplayProps] what a genuine index is,
    [ReplayCursors] the texts of cursors, [ReplayPages] what pages have in common, how they
    divide a bucket and the pages of a bucket that verifies; [ReplayTheorems] has the properties and [ReplayDemo] a concrete bucket.

    The outbox: [OutboxData] has the records and validators of [pcc_outbox.py],
    [OutboxStore] its files, lock and atomic publication, [PreparedOutbox] and [PccOutbox]
    its two classes, the second with [enqueue_trigger] of [pcc_enqueue.py].  [RecordProps],
    [OutboxLogic], [QueueRecords] and [QueueModel] are lemmas; [QueueSpec]
    is the abstract queue, a finite map changed by one update at a time, and [QueueRefine]
    shows that every operation implements it, and what of it remains when the process dies
    within a publication; [OutboxOps] has the runs, [OutboxProps] and [OutboxTheorems] the properties and
    [OutboxDemo] concrete queues.

    Evidence: [EvidenceState] has the errors of [r2.py], their classification, the keys and
    the two documents of a multipart upload; [EvidenceStore] its programs from a single
    request to a multipart upload that is taken up again, [EvidencePublish] the listing of
    indexes and [publish_outbox_evidence], which calls the outbox.  [EvidenceRuns] is what
    they run on: hosts with an outbox and a directory of upload states each, one bucket,
    and clients that take turns call by call.  [EvidenceStateProps] reads the documents
    back; [EvidenceInvariant] is the invariant of bucket, states and outboxes, which every
    request and every step of a system keeps, [EvidenceProps] has every program in the
    logic of [Programs], the assumptions and the systems that arise, [EvidenceTheorems]
    the properties and
    [EvidenceDemo] an executable bucket with a publication that is stopped and resumed.

    ** How state and operations correspond to the code

    A function that raises is a [result]; methods that only compute are functions of the
    fields of [self].  The outbox is a state and error monad over a [world]: its files,
    and how many clock readings, random names and outcomes of system calls were consumed.
    [Crypto] and [CatalogFile] use the same shape over one directory.  A client of the object
    store is a tree of typed calls ([prog]), since other clients act between two calls; the
    store answers by a relation ([serve]).  The calls of [EvidenceStore] are also those to
    local files and to the outbox, whose answers are those of [PccOutbox] and
    [PreparedOutbox] on the host's own world.  What was changed
    before an exception stays changed, and [finally] blocks run on every way out.  The
    critical sections of a lock are the steps that interleave.  Code outside the
    repository is a parameter: the environment and its failures ([Env], [Host]), SHA-256,
    float texts ([PyRuntime], [JsonRuntime]), two tables [urlsplit] consults ([UrlRuntime]),
    [ipaddress] ([IpRuntime]), Unicode folding of paths ([PathRuntime]), the entity tags of the
    object store ([etag_of]), the backend and decryptor of a reader (fields of
    [ReplayReader], and [ReplayRuntime]) and [age].
    Theorems hold for all of them; where one is about a call that succeeds, the
    hypothesis says so ([working], [age_decrypt] undoing [age_encrypt]).

    ** What the theorems show

    - Outbox: every orderly operation refines one step of the abstract queue, whatever
      fails; scans are total in every world orderly operations reach; leases are exclusive; a
      committed record has its evidence and never changes; [claim] takes the oldest;
      enqueueing is durable and idempotent and keeps the quotas; a process that dies at any
      call of a publication leaves the old or the new queue.  An operation is orderly
      ([OutboxOps.orderly]) unless it is a progress transition without the evidence its
      target needs, hands over a ciphertext source in the queue directory, or reconciles a
      claimed record that was already prepared, or one with an inline prepared ciphertext
      above the queue's limit; the code accepts those too, and what they do to the queue is shown.
    - Policy: when [decide] allows; denials take precedence; only an allowed request
      gets a destination, of its own scope; every loaded policy decides every request.
    - Descriptors: storage is lossless and canonical, one digest per meaning, and an
      accepted descriptor is bound to one repository; which errors are raised.
    - Catalog: the invariant of every reachable catalog, with its version, canonical ids and
      distinct keys; removals free exactly the objects nothing else names (from a room
      that says which snapshot is its latest, as every room of version 3 does); a logical
      snapshot is accepted and corroborates its descriptor; the stored file reads back, is
      published all or nothing, and loses no update, as long as each update stores a
      revision above the one it expected, which is its caller's to do.
    - Reference index: it is exact; the comparison with the repository splits used
      snapshots, orphans and missing ones; a removal plan forgets exactly what becomes
      unused, and its object keys are those the catalog frees; orphans are eligible after
      the grace period, not before, and then for good.
    - Keysets: the Bech32 checks accept exactly the encodings of 32 bytes and refuse every
      text with up to four wrong characters; a keyset reads back as itself or not
      at all, and for exactly the readers whose provider and bucket are its own and whose
      endpoint has the identity the code computes for its own; its secret is drawn once and its repository bound once; and clients
      that enroll, upgrade and bind at once, with calls lost before or after they take
      effect, end up with one keyset.
    - Workspaces: the patterns given to restic cover what the policy excludes, and an
      exclusion holds for everything below; exactly the listings are accepted
      that have directories, files and links at distinct portable paths below directories of
      their own and links that can be followed to their entries; links then stay inside, and
      the walk that checks them ends.
    - Sessions: a document is accepted exactly when it is well-formed for its kind, field by
      field; of validated evidence, a session is accepted whole, when its segments are linked
      and complete and their assets known, or reported; a reader hands out only what verifies
      in a bucket all of which verifies; the pages of a bucket that is within the reader's
      bounds on indexes and on the bytes of one scan, and whose records can all be
      normalised, hold every record once; its cursors are short and its own, and it raises
      only its own errors.
    - Evidence: whatever calls fail, before, after or long after they take effect, and
      wherever clients stop, as long as each host keeps the size of its multipart parts, and
      operations on its outbox outside publication are orderly and name neither an object
      nor an index ([EvidenceRuns.without_evidence]), what is under an evidence or index key is the ciphertext with
      that digest, for good; a receipt, a fetched body and a committed publication are
      true; a record any outbox holds as committed has its evidence and its index in the
      bucket; the multipart uploads of a key are one host's; an upload state survives its
      file.  When nothing disturbs the calls a small object is stored and read for sure.
    - Fourteen theorems exhibit where the guarantees end, mostly behaviour the code does not
      mean to have: an event enqueued
      twice can overwrite a live claim, a reconciled expired claim and a transition
      without evidence produce records the next scan quarantines, a record that is given an
      object key before its ciphertext is committed with an object it did not prepare, a
      queue file handed over as a ciphertext source is removed, a refused publication
      deletes the ciphertext of an earlier one, removing a snapshot from a room without a
      latest one raises [KeyError], removing a room's latest snapshot promotes the greatest id
      once the catalog has been stored, two updates that expect the same revision both
      succeed when the first keeps it, two buckets with IPv6
      hosts can have one identity, a link that is met twice on a walk is taken for a
      cycle, the patterns given to restic exclude Git storage that the policy keeps,
      a segment that says nothing of assets has its session refused, and an upload that is
      resumed with another part size stores something else under the key for good.

    ** Bounds and fuel

    Regular expressions are matched by derivatives, structurally in the text.
    [json.loads] recurses to [json_depth], the interpreter's recursion limit, beyond which
    it raises [RecursionError]; descriptors nest at most five deep, so theorems that read
    them back assume [5 <= json_depth], and upload states three; the members of an object are counted down from the
    length of the text, which each of them shortens.  The walk through links has as fuel the
    number of components of all their targets ([walk_bound]), which is proved to be enough;
    following cursors takes one page more than there are indexes, which is proved too.
    Attempts are counted down from the configured number and pages from the bound on them;
    the pieces of a body from its length.  All other recursion is structural.
    Integers are unbounded, as Python's; floats are IEEE binary64; the 64-bit and size limits are
    the code's own checks.

    ** What is left out

    Strings are of 8-bit characters: code points above 255 are read as 255, which no
    pattern admits.  [json.loads] of bytes takes them for UTF-8.  Queue files carry what
    [json.loads] makes of them beside their bytes; file modes are one bit; the two lock
    back ends are one lock.  Catalog entries whose keys are not strings, which only
    version 1 accepts, are outside the model.  Sets are iterated in the order they are
    written.  Object stores are taken to give different bodies different entity tags, and
    nobody but the programs modelled writes or deletes a keyset or anything in the evidence
    namespace; that a part size is positive and the same in every run of a host, that
    random fences differ, and that no two ciphertexts there are have one digest is assumed
    where it is used ([system_step], [setting]).  Removing the temporary file of a failed
    publication is taken to succeed, and the lock of the outbox does not create the root
    directory.  Sleeps, progress, latencies and the
    metadata sent along with an object are left out, a failed check of local files is the
    error the code makes of it, and the locks of a host are not relied on;
    [download_evidence_file] is not modelled.  Of [crypto.py] the generation of identities and the search for the
    executables are not modelled, nor is [canonical_source] of [pcc_enqueue.py].  Of
    [pcc_replay.py] the decryption with age and its temporary file are parameters.

    Not modelled: the adapters' streams and session normalizing ([adapter_contract.py],
    [session_normalizer.py], [codex_adapter.py]), encryption material on disk
    ([EncryptionMaterial], [material_security.py]), harvest, cancellation and scheduling,
    which can be added on the same foundations in this order; and the code that drives
    other programs or services: restic, docker, git, object stores, authentication, the
    command line, the editor extensions and the worker. *)

From stdpp Require Export base tactics list option gmap strings sorting.
From Stdlib Require Export ZArith Lia.
#[export] Set Warnings "-clear-no-such-hyp".

(** ** Python exceptions

    The exception classes the modelled modules raise.  [EPolicyConfig] and
    [EPolicyInput] are [ValueError] subclasses in [policy.py]; [EStorage],
    [ELeaseConflict] and [EInvalidTransition] are [OutboxError] subclasses in
    [pcc_outbox.py]; [EPublication] and its subclass [EConflict] are the errors of
    [r2.py], [EState] the [EncryptionStateError] of [auth.py], [EClient] and [EBoto] the
    [ClientError] and [BotoCoreError] of the object store's client library, [EReplay] the
    [ReplayError] of [pcc_replay.py], [EEvidence] the [R2EvidenceError] of [r2.py] and
    [EEnvelope] the [CryptoError] of [pcc_crypto.py]. *)
Inductive exn : Type :=
| EValue (msg : string)
| EType (msg : string)
| EKey
| EAttribute
| EOS
| ENotFound
| EPolicyConfig (reason_code : string)
| EPolicyInput (reason_code : string)
| EOutbox (msg : string)
| ELeaseConflict
| EInvalidTransition
| EStorage (code : string) (pending_preserved : option bool)
| ECatalogConflict (msg : string)
| ECrypto (msg : string)
| ERecursion
| EStopIteration
| ERuntime (msg : string)
| EPublication (msg : string) (published : bool)
| EConflict (msg : string)
| EState (error_code : string)
| EClient
| EBoto
| EReplay (code : string)
| EEvidence (code : string)
| EEnvelope (code : string).

#[export] Instance exn_eq_dec : EqDecision exn.
Proof. solve_decision. Defined.

(** [except ValueError] *)
Definition is_value_error (e : exn) : bool :=
  match e with EValue _ | EPolicyConfig _ | EPolicyInput _ => true | _ => false end.

(** [except (TypeError, ValueError)] *)
Definition is_type_or_value_error (e : exn) : bool :=
  match e with EType _ => true | _ => is_value_error e end.

(** [except OSError] ([FileNotFoundError] is a subclass). *)
Definition is_os_error (e : exn) : bool :=
  match e with EOS | ENotFound => true | _ => false end.

(** [except (BotoCoreError, OSError, RuntimeError, TypeError, ValueError)] *)
Definition is_store_error (e : exn) : bool :=
  match e with
  | EBoto | ERuntime _ | EPublication _ _ | EConflict _ | EState _ | ECrypto _ | ERecursion | EReplay _ | EEvidence _ | EEnvelope _ => true
  | _ => is_type_or_value_error e || is_os_error e
  end.

(** [except OutboxStorageError] *)
Definition is_storage_error (e : exn) : bool :=
  match e with EStorage _ _ => true | _ => false end.

(** ** The error monad: a Python call returns a value or raises *)
Inductive result (A : Type) : Type :=
| Ok (a : A)
| Raise (e : exn).
Arguments Ok {A} a.
Arguments Raise {A} e.

#[export] Instance result_ret : MRet result := @Ok.
#[export] Instance result_bind : MBind result :=
  fun A B f m => match m with Ok a => f a | Raise e => Raise e end.
#[export] Instance result_fmap : FMap result :=
  fun A B f m => match m with Ok a => Ok (f a) | Raise e => Raise e end.
#[export] Instance result_eq_dec {A} `{EqDecision A} : EqDecision (result A).
Proof. solve_decision. Defined.

(** [if b: raise e] *)
Definition raise_if (b : bool) (e : exn) : result unit := if b then Raise e else Ok tt.

Definition is_ok {A} (m : result A) : bool := match m with Ok _ => true | Raise _ => false end.

(** [try: m except <p>: raise e] *)
Definition reraise {A} (p : exn -> bool) (e : exn) (m : result A) : result A :=
  match m with
  | Ok a => Ok a
  | Raise e' => if p e' then Raise e else Raise e'
  end.

(** Sequential [for x in xs: f(x)]: the first exception stops the loop. *)
Fixpoint for_each {A} (f : A -> result unit) (l : list A) : result unit :=
  match l with
  | [] => Ok tt
  | x :: l => f x ;; for_each f l
  end.

(** [[f(x) for x in xs]] where [f] may raise. *)
Fixpoint map_result {A B} (f : A -> result B) (l : list A) : result (list B) :=
  match l with
  | [] => Ok []
  | x :: l => y ← f x; ys ← map_result f l; Ok (y :: ys)
  end.

(** ** Lemmas on the error monad *)
Lemma bind_Ok_inv {A B} (m : result A) (f : A -> result B) b :
  m ≫= f = Ok b -> exists a, m = Ok a /\ f a = Ok b.
Proof. destruct m; simpl; [eauto | done]. Qed.

Lemma bind_Ok {A B} (a : A) (f : A -> result B) : (Ok a : result A) ≫= f = f a.
Proof. done. Qed.

Lemma raise_if_Ok_inv b e u : raise_if b e = Ok u -> b = false.
Proof. by destruct b. Qed.

Lemma reraise_Ok_inv {A} p e (m : result A) a : reraise p e m = Ok a -> m = Ok a.
Proof. destruct m; simpl; [done | case_match; done]. Qed.

Lemma for_each_Ok {A} (f : A -> result unit) l :
  for_each f l = Ok tt <-> Forall (fun x => f x = Ok tt) l.
Proof.
  induction l as [|x l IH]; simpl; [split; [constructor | done] |].
  rewrite Forall_cons, <- IH. destruct (f x) as [[]|]; simpl; naive_solver.
Qed.

Lemma map_result_Ok {A B} (f : A -> result B) l ys :
  map_result f l = Ok ys <-> Forall2 (fun x y => f x = Ok y) l ys.
Proof.
  revert ys. induction l as [|x l IH]; intros ys; simpl.
  - split; [intros [= <-]; constructor | by inversion 1].
  - split.
    + intros (y & Hy & H)%bind_Ok_inv. apply bind_Ok_inv in H as (ys' & Hys & [= <-]).
      constructor; [done | by apply IH].
    + inversion 1 as [|? y ? ys' Hy Hys]; subst. rewrite Hy; simpl.
      apply IH in Hys. by rewrite Hys.
Qed.

(** ** Loops that test *)
Lemma forallb_elem {A} (f : A -> bool) l : forallb f l = true <-> forall x, x ∈ l -> f x = true.
Proof. rewrite forallb_forall. by setoid_rewrite list_elem_of_In. Qed.
Lemma existsb_elem {A} (f : A -> bool) l : existsb f l = true <-> exists x, x ∈ l /\ f x = true.
Proof. rewrite existsb_exists. by setoid_rewrite list_elem_of_In. Qed.
Lemma existsb_none {A} (f : A -> bool) l : existsb f l = false <-> forall x, x ∈ l -> f x = false.
Proof.
  rewrite <- not_true_iff_false, existsb_elem. split.
  - intros H x Hx. apply not_true_iff_false. intros ?. apply H. eauto.
  - intros H (x & Hx & Hf). rewrite (H x Hx) in Hf. done.
Qed.

(** ** Which exceptions a computation raises *)
Definition raises {A} (p : exn -> bool) (m : result A) : Prop := forall e, m = Raise e -> p e = true.

Lemma raises_Ok {A} p (a : A) : raises p (Ok a).
Proof. by intros e. Qed.
Lemma raises_Raise {A} (p : exn -> bool) e : p e = true -> raises p (Raise e : result A).
Proof. by intros Hp e' [= <-]. Qed.
Lemma raises_bind {A B} p (m : result A) (f : A -> result B) :
  raises p m -> (forall a, m = Ok a -> raises p (f a)) -> raises p (m ≫= f).
Proof. destruct m as [a|e]; simpl; intros Hm Hf; [by apply Hf |]. intros e' [= <-]. by apply Hm. Qed.
Lemma raises_if (p : exn -> bool) b e : p e = true -> raises p (raise_if b e).
Proof. destruct b; intros Hp e'; simpl; congruence. Qed.
Lemma raises_weaken {A} (p q : exn -> bool) (m : result A) :
  (forall e, p e = true -> q e = true) -> raises p m -> raises q m.
Proof. intros Hpq Hm e He. by apply Hpq, Hm. Qed.
Lemma raises_for_each {A} (p : exn -> bool) (f : A -> result unit) (l : list A) :
  (forall x, x ∈ l -> raises p (f x)) -> raises p (for_each f l).
Proof.
  induction l as [|x l IH]; intros Hf; simpl; [apply raises_Ok |].
  apply raises_bind; [apply Hf; left |]. intros _ _. apply IH. intros y Hy. apply Hf. by right.
Qed.
Lemma raises_reraise {A} (p q r : exn -> bool) e (m : result A) : raises r m -> p e = true ->
  (forall e', r e' = true -> q e' = false -> p e' = true) -> raises p (reraise q e m).
Proof.
  intros Hm He Hr e'. destruct m as [a|e0]; simpl; [done |]. specialize (Hm e0 eq_refl).
  destruct (q e0) eqn:Hq; intros [= <-]; [done | by apply Hr].
Qed.

(** ** Automation: inverting a computation that returned *)
Ltac inv_result :=
  repeat match goal with
  | H : _ ≫= _ = Ok _ |- _ => apply bind_Ok_inv in H as (? & ? & H)
  | H : raise_if _ _ = Ok _ |- _ => apply raise_if_Ok_inv in H
  | H : reraise _ _ _ = Ok _ |- _ => apply reraise_Ok_inv in H
  | H : Ok _ = Ok _ |- _ => injection H; clear H; intros; subst
  | H : Raise _ = Ok _ |- _ => discriminate H
  | H : Ok _ = Raise _ |- _ => discriminate H
  | u : unit |- _ => destruct u
  end.

(** The same, also through the case analyses of the computation. *)
Ltac inv_ok :=
  repeat (inv_result;
    try match goal with
    | H : match ?x with _ => _ end = Ok _ |- _ => destruct x eqn:?; try discriminate H
    end).

(** Rewriting with every equation of the context that a computation meets. *)
Ltac run_eqs :=
  repeat (match goal with
  | H : ?a = _ |- context [?a] => is_ground_or_app a; rewrite H
  end; simpl)
with is_ground_or_app a := lazymatch a with ?f _ => idtac end.

(** Boolean hypotheses to propositions. *)
Ltac bools :=
  repeat match goal with
  | H : _ && _ = true |- _ => apply andb_true_iff in H as [? ?]
  | H : _ || _ = false |- _ => apply orb_false_iff in H as [? ?]
  | H : negb _ = true |- _ => apply negb_true_iff in H
  | H : negb _ = false |- _ => apply negb_false_iff in H
  | H : bool_decide _ = true |- _ => apply bool_decide_eq_true in H
  | H : bool_decide _ = false |- _ => apply bool_decide_eq_false in H
  | H : (_ <? _)%Z = true |- _ => apply Z.ltb_lt in H
  | H : (_ <? _)%Z = false |- _ => apply Z.ltb_ge in H
  | H : (_ <=? _)%Z = true |- _ => apply Z.leb_le in H
  | H : (_ <=? _)%Z = false |- _ => apply Z.leb_gt in H
  end.

Create HintDb room discriminated.
#[export] Hint Resolve bind_Ok : room.
Create Rewrite HintDb room_rw.
#[export] Hint Rewrite @bind_Ok : room_rw.
