(* ===== verification/Programs.v ===== *)
(** * Programs that call services

    A program is a tree: it has returned or raised, or it makes a call and goes on with
    the answer, which may be a failure.  What the calls do is a relation of its own, so that several programs can
    take turns call by call on one state; the weakest precondition of a program holds
    whatever the others do between its calls. *)

From S2P Require Import Prelude.

(** ** Programs *)
Inductive prog (call : Type -> Type) (F E A : Type) : Type :=
| Done (r : A + E)
| Call {R : Type} (c : call R) (next : R + F -> prog call F E A).
Arguments Done {call F E A} r.
Arguments Call {call F E A R} c next.

Section programs.
Context {call : Type -> Type} {F E : Type}.

#[export] Instance prog_ret : MRet (prog call F E) := fun A a => Done (inl a).
Fixpoint prog_bind_def {A B} (f : A -> prog call F E B) (m : prog call F E A) : prog call F E B :=
  match m with
  | Done (inl a) => f a
  | Done (inr e) => Done (inr e)
  | Call c next => Call c (fun o => prog_bind_def f (next o))
  end.
#[export] Instance prog_bind : MBind (prog call F E) := @prog_bind_def.
Definition throw {A} (e : E) : prog call F E A := Done (inr e).
(** [try: m except: h(error) else: f(value)] and [try: m except: h(error)] *)
Fixpoint try_else {A B} (m : prog call F E A) (h : E -> prog call F E B) (f : A -> prog call F E B) : prog call F E B :=
  match m with
  | Done (inl a) => f a
  | Done (inr e) => h e
  | Call c next => Call c (fun o => try_else (next o) h f)
  end.
Definition try {A} (m : prog call F E A) (h : E -> prog call F E A) : prog call F E A := try_else m h mret.
(** [try: m finally: c] *)
Definition finally {A} (m : prog call F E A) (c : prog call F E unit) : prog call F E A :=
  try_else m (fun e => c ;; throw e) (fun a => c ;; mret a).

(** ** Programs with local variables

    Inside a function whose handlers read variables its body assigned, the variables are a
    record that is threaded through, also past an exception. *)
Section locals.
Context {V : Type}.
Definition local (A : Type) : Type := V -> prog call F E ((A + E) * V).

#[export] Instance local_ret : MRet local := fun A a v => mret (inl a, v).
#[export] Instance local_bind : MBind local := fun A B f m v =>
  '(r, v) ← m v; match r with inl a => f a v | inr e => mret (inr e, v) end.
Definition raising {A} (e : E) : local A := fun v => mret (inr e, v).
Definition lifted {A} (m : prog call F E A) : local A := fun v =>
  try_else m (fun e => mret (inr e, v)) (fun a => mret (inl a, v)).
Definition read {A} (f : V -> A) : local A := fun v => mret (inl (f v), v).
Definition assign (f : V -> V) : local unit := fun v => mret (inl tt, f v).
Definition catching_else {A B} (m : local A) (h : E -> local B) (f : A -> local B) : local B := fun v =>
  '(r, v) ← m v; match r with inl a => f a v | inr e => h e v end.
Definition catching {A} (m : local A) (h : E -> local A) : local A := catching_else m h mret.
(** The function itself: its variables start at [v] and are forgotten at its end. *)
Definition scoped {A} (v : V) (m : local A) : prog call F E A :=
  '(r, _) ← m v; Done r.
End locals.

(** ** What a program does on a shared state

    A service says how a call may be answered and what the state is then, which calls are
    allowed, how others may change the state meanwhile, and what holds of it at every call. *)
Record service (S : Type) := {
  answers : S -> forall R, call R -> R + F -> S -> Prop;
  allows : S -> forall R, call R -> Prop;
  moves : relation S;
  holds : S -> Prop;
  moves_preorder :: PreOrder moves;
}.
#[global] Arguments answers {S} _ _ {R} _ _ _.
#[global] Arguments allows {S} _ _ {R} _.
#[global] Arguments moves {S} _ _ _.
#[global] Arguments holds {S} _ _.

Section logic.
Context {S : Type} (K : service S).
Abbreviation evolves := (moves K).
Abbreviation good := (holds K).

(** [wp Q s m]: from [s] on, the program makes allowed calls only, and what it returns
    satisfies [Q] from then on. *)
Fixpoint wp {A} (Q : S -> A -> Prop) (s : S) (m : prog call F E A) : Prop :=
  match m with
  | Done (inl a) => forall s', evolves s s' -> Q s' a
  | Done (inr _) => True
  | Call c next => forall s', evolves s s' -> good s' -> allows K s' c /\
      forall o s'', answers K s' c o s'' -> evolves s' s'' -> good s'' -> wp Q s'' (next o)
  end.

Lemma wp_later {A} (Q : S -> A -> Prop) s s' m : wp Q s m -> evolves s s' -> wp Q s' m.
Proof.
  destruct m as [[a|e]|R c next]; simpl; [| done |].
  - intros HQ Hs s'' ?. apply HQ. by etrans.
  - intros Hc Hs s'' ?. apply Hc. by etrans.
Qed.
Lemma wp_ret {A} (Q : S -> A -> Prop) s a : (forall s', evolves s s' -> Q s' a) -> wp Q s (mret a).
Proof. done. Qed.
Lemma wp_throw {A} (Q : S -> A -> Prop) s e : wp Q s (throw e).
Proof. done. Qed.
Lemma wp_mono {A} (Q Q' : S -> A -> Prop) s m :
  wp Q s m -> (forall s' a, evolves s s' -> Q s' a -> Q' s' a) -> wp Q' s m.
Proof.
  revert s. induction m as [[a|e]|R c next IH]; intros s; simpl; [| done |].
  - intros HQ Hi s' Hs. apply Hi; [done | by apply HQ].
  - intros Hc Hi s' Hs Hg. destruct (Hc s' Hs Hg) as [Hp Hn]. split; [done |].
    intros o s'' Ho Hs' Hg'. apply IH; [by apply Hn |]. intros s3 a ?. apply Hi. by do 2 (etrans; [done |]).
Qed.
(** What a program returns stays true. *)
Lemma wp_stable {A} (Q : S -> A -> Prop) s m : wp Q s m -> wp (fun s' a => forall s'', evolves s' s'' -> Q s'' a) s m.
Proof.
  revert s. induction m as [[a|e]|R c next IH]; intros s; simpl; [| done |].
  - intros HQ s' Hs s'' ?. apply HQ. by etrans.
  - intros Hc s' Hs Hg. destruct (Hc s' Hs Hg) as [Hp Hn]. split; [done |]. intros o s'' ???. by apply IH, Hn.
Qed.
Lemma wp_try_else {A B} (Q : S -> B -> Prop) s (m : prog call F E A) h f :
  wp (fun s' a => wp Q s' (f a)) s m -> (forall e s', evolves s s' -> wp Q s' (h e)) -> wp Q s (try_else m h f).
Proof.
  revert s. induction m as [[a|e]|R c next IH]; intros s; simpl.
  - intros HQ _. by apply HQ.
  - intros _ Hh. by apply Hh.
  - intros Hc Hh s' Hs Hg'. destruct (Hc s' Hs Hg') as [Hp Hn]. split; [done |].
    intros o s'' Ho Hs' Hg''. apply IH; [by apply Hn |]. intros e s3 ?. apply Hh. by do 2 (etrans; [done |]).
Qed.
Lemma wp_try {A} (Q : S -> A -> Prop) s (m : prog call F E A) h :
  wp Q s m -> (forall e s', evolves s s' -> wp Q s' (h e)) -> wp Q s (try m h).
Proof. intros Hm Hh. apply wp_try_else; [by apply wp_stable | done]. Qed.
Lemma wp_bind {A B} (Q : S -> B -> Prop) s (m : prog call F E A) (f : A -> prog call F E B) :
  wp (fun s' a => wp Q s' (f a)) s m -> wp Q s (m ≫= f).
Proof.
  revert s. induction m as [[a|e]|R c next IH]; intros s; simpl; [intros HQ; by apply HQ | done |].
  intros Hc s' Hs Hg'. destruct (Hc s' Hs Hg') as [Hp Hn]. split; [done |]. intros o s'' Ho Hs' Hg''. apply IH. by apply Hn.
Qed.
Lemma wp_finally {A} (Q : S -> A -> Prop) s (m : prog call F E A) c :
  wp Q s m -> (forall s', evolves s s' -> wp (fun _ _ => True) s' c) -> wp Q s (finally m c).
Proof.
  intros Hm Hc. apply wp_try_else.
  - eapply wp_mono; [by apply wp_stable |]. intros s' a Hs HQ. apply wp_bind.
    eapply wp_mono; [by apply Hc |]. intros s'' _ Hs' _ s3 ?. apply HQ. by etrans.
  - intros e s' Hs. apply wp_bind. eapply wp_mono; [by apply Hc |]. done.
Qed.
Lemma wp_call {A R} (Q : S -> A -> Prop) s (c : call R) next :
  (forall s', evolves s s' -> good s' -> allows K s' c) ->
  (forall s' o s'', evolves s s' -> good s' -> answers K s' c o s'' -> evolves s' s'' -> good s'' -> wp Q s'' (next o)) ->
  wp Q s (Call c next).
Proof. intros Hp Hn s' Hs Hg. split; [by apply Hp |]. intros o s'' ???. by eapply Hn. Qed.

(** Programs with local variables: [J] holds of the variables also after an exception. *)
Section locals_logic.
Context {V : Type} (J : S -> V -> Prop).
Definition lwp {A} (Q : S -> A -> V -> Prop) (s : S) (v : V) (m : local A) : Prop :=
  wp (fun s' rv => J s' rv.2 /\ match rv.1 with inl a => Q s' a rv.2 | inr _ => True end) s (m v).

Lemma lwp_later {A} (Q : S -> A -> V -> Prop) s s' v (m : local A) : lwp Q s v m -> evolves s s' -> lwp Q s' v m.
Proof. apply wp_later. Qed.
Lemma lwp_mono {A} (Q Q' : S -> A -> V -> Prop) s v (m : local A) :
  lwp Q s v m -> (forall s' a v', evolves s s' -> J s' v' -> Q s' a v' -> Q' s' a v') -> lwp Q' s v m.
Proof.
  intros Hm HQ. eapply wp_mono; [exact Hm |]. intros s' [[a|e] v'] Hs [HJ ?]; simpl in *; split; auto.
Qed.
Lemma lwp_bind {A B} (Q : S -> B -> V -> Prop) s v (m : local A) (f : A -> local B) :
  lwp (fun s' a v' => lwp Q s' v' (f a)) s v m -> lwp Q s v (m ≫= f).
Proof.
  intros Hm. apply wp_bind. eapply wp_mono; [by apply wp_stable |].
  intros s' [[a|e] v'] Hs HQ; simpl in *; [by apply HQ |]. intros s'' Hs'. split; [by apply HQ | done].
Qed.
Lemma lwp_catching_else {A B} (Q : S -> B -> V -> Prop) s v (m : local A) h f :
  lwp (fun s' a v' => lwp Q s' v' (f a)) s v m ->
  (forall e s' v', evolves s s' -> J s' v' -> lwp Q s' v' (h e)) -> lwp Q s v (catching_else m h f).
Proof.
  intros Hm Hh. apply wp_bind. eapply wp_mono; [by apply wp_stable |].
  intros s' [[a|e] v'] Hs HQ; simpl in *; [by apply HQ |]. apply Hh; [done | by apply HQ].
Qed.
Lemma lwp_catching {A} (Q : S -> A -> V -> Prop) s v (m : local A) h :
  lwp Q s v m -> (forall e s' v', evolves s s' -> J s' v' -> lwp Q s' v' (h e)) -> lwp Q s v (catching m h).
Proof.
  intros Hm Hh. apply wp_bind. eapply wp_mono; [by apply wp_stable |].
  intros s' [[a|e] v'] Hs HQ; simpl in *; [exact HQ |]. apply Hh; [done | by apply HQ].
Qed.

Hypothesis J_later : forall s s' v, J s v -> evolves s s' -> J s' v.
Lemma lwp_ret {A} (Q : S -> A -> V -> Prop) s v a :
  J s v -> (forall s', evolves s s' -> Q s' a v) -> lwp Q s v (mret a).
Proof. intros HJ HQ s' Hs. split; [by eapply J_later | by apply HQ]. Qed.
Lemma lwp_raising {A} (Q : S -> A -> V -> Prop) s v e : J s v -> lwp Q s v (raising e).
Proof. intros HJ s' Hs. split; [by eapply J_later | done]. Qed.
Lemma lwp_lifted {A} (Q : S -> A -> V -> Prop) s v m :
  J s v -> wp (fun s' a => Q s' a v) s m -> lwp Q s v (lifted m).
Proof.
  intros HJ Hm. apply wp_try_else.
  - eapply wp_mono; [by apply wp_stable |]. intros s' a Hs HQ s'' Hs'. split; [| by apply HQ].
    eapply J_later; [done |]. by etrans.
  - intros e s' Hs s'' Hs'. split; [| done]. eapply J_later; [done |]. by etrans.
Qed.
Lemma lwp_read {A} (Q : S -> A -> V -> Prop) s v f :
  J s v -> (forall s', evolves s s' -> Q s' (f v) v) -> lwp Q s v (read f).
Proof. apply lwp_ret. Qed.
Lemma lwp_assign (Q : S -> unit -> V -> Prop) s v f :
  J s (f v) -> (forall s', evolves s s' -> Q s' tt (f v)) -> lwp Q s v (assign f).
Proof. intros HJ HQ s' Hs. split; [by eapply J_later | by apply HQ]. Qed.
Lemma wp_scoped {A} (Q : S -> A -> Prop) s v (m : local A) :
  lwp (fun s' a _ => Q s' a) s v m -> wp Q s (scoped v m).
Proof.
  intros Hm. apply wp_bind. eapply wp_mono; [by apply wp_stable |].
  intros s' [[a|e] v'] Hs HQ; simpl in *; [| done]. intros s'' Hs'. by apply HQ.
Qed.
End locals_logic.
End logic.
End programs.
#[global] Arguments service : clear implicits.

(** ** Calls whose failures are raised *)
Section raised.
Context {call : Type -> Type} {E : Type}.
Definition do_call {R} (c : call R) : prog call E E R := Call c (fun o => Done o).
Lemma wp_do_call {S R} (K : service call E S) (Q : S -> R -> Prop) s (c : call R) :
  (forall s', moves K s s' -> holds K s' -> allows K s' c) ->
  (forall s' a s'' s3, moves K s s' -> holds K s' -> answers K s' c (inl a) s'' -> moves K s' s'' -> holds K s'' ->
     moves K s'' s3 -> Q s3 a) ->
  wp K Q s (do_call c).
Proof. intros Hp HQ. apply wp_call; [done |]. intros s' [a|e] s'' ?????; simpl; [|done]. intros s3 ?. by eapply HQ. Qed.
End raised.

(** ** What a program does for sure

    With a service whose answers are all there is: it is always answered, and however that
    is, it ends with a result that satisfies [Q]. *)
Section sure.
Context {call : Type -> Type} {F E S : Type}.
Variable replies : S -> forall R, call R -> R + F -> S -> Prop.
Fixpoint sure {A} (Q : S -> A + E -> Prop) (s : S) (m : prog call F E A) : Prop :=
  match m with
  | Done r => Q s r
  | Call c next => (exists o s', replies s _ c o s') /\ forall o s', replies s _ c o s' -> sure Q s' (next o)
  end.

Lemma sure_call {A R} (Q : S -> A + E -> Prop) s (c : call R) next :
  (exists o s', replies s _ c o s') -> (forall o s', replies s _ c o s' -> sure Q s' (next o)) -> sure Q s (Call c next).
Proof. done. Qed.
Lemma sure_ret {A} (Q : S -> A + E -> Prop) s a : Q s (inl a) -> sure Q s (mret a).
Proof. done. Qed.
Lemma sure_try_else {A B} (Q : S -> B + E -> Prop) s (m : prog call F E A) h f :
  sure (fun s' r => match r with inl a => sure Q s' (f a) | inr e => sure Q s' (h e) end) s m -> sure Q s (try_else m h f).
Proof.
  revert s. induction m as [[a|e]|R c next IH]; intros s; simpl; [done.. |]. intros [Ho Hn]. split; [done |]. eauto.
Qed.
Lemma sure_bind {A B} (Q : S -> B + E -> Prop) s (m : prog call F E A) f :
  sure (fun s' r => match r with inl a => sure Q s' (f a) | inr e => Q s' (inr e) end) s m -> sure Q s (m ≫= f).
Proof.
  revert s. induction m as [[a|e]|R c next IH]; intros s; simpl; [done.. |]. intros [Ho Hn]. split; [done |].
  intros o s' Hr. by apply IH, Hn.
Qed.
Lemma sure_mono {A} (Q Q' : S -> A + E -> Prop) s (m : prog call F E A) :
  sure Q s m -> (forall s' r, Q s' r -> Q' s' r) -> sure Q' s m.
Proof.
  intros Hm HQ. revert s Hm. induction m as [r|R c next IH]; intros s; simpl; [by apply HQ |]. intros [Ho Hn]. split; [done |]. eauto.
Qed.
End sure.
