(* ===== verification/PyStr.v ===== *)
(** * Python strings and regular expressions

    A Python [str] is a [string] of 8-bit code points.  The file gives the
    [str] methods the modelled modules call and a matcher for [re] patterns by
    derivatives, with the language each pattern denotes. *)

From S2P Require Import Prelude.
From Stdlib Require Import Ascii.
From Stdlib Require String.

(** ** [str] methods *)
Abbreviation chars := String.list_ascii_of_string.
Abbreviation of_chars := String.string_of_list_ascii.

Definition py_len (s : string) : nat := String.length s.

Definition ord (c : ascii) : Z := Z.of_nat (nat_of_ascii c).

(** [s.startswith(p)] *)
Fixpoint startswith (p s : string) : bool :=
  match p, s with
  | String.EmptyString, _ => true
  | String.String _ _, String.EmptyString => false
  | String.String a p, String.String b s => bool_decide (a = b) && startswith p s
  end.

(** [s[n:]] *)
Fixpoint str_drop (n : nat) (s : string) : string :=
  match n, s with
  | O, _ => s
  | S _, String.EmptyString => s
  | S n, String.String _ s => str_drop n s
  end.

(** [s[:n]] *)
Fixpoint str_take (n : nat) (s : string) : string :=
  match n, s with
  | O, _ | _, String.EmptyString => String.EmptyString
  | S n, String.String c s => String.String c (str_take n s)
  end.

(** [s.endswith(p)] *)
Definition endswith (p s : string) : bool :=
  (py_len p <=? py_len s)%nat && bool_decide (str_drop (py_len s - py_len p) s = p).

(** [p in s] for strings *)
Fixpoint contains (p s : string) : bool :=
  startswith p s ||
  match s with
  | String.EmptyString => false
  | String.String _ s => contains p s
  end.

(** [s.removeprefix(p)] and [s.removesuffix(p)] *)
Definition removeprefix (p s : string) : string :=
  if startswith p s then str_drop (py_len p) s else s.
Definition removesuffix (p s : string) : string :=
  if endswith p s then str_take (py_len s - py_len p) s else s.

(** [s.split(c)] for a one-character separator: never empty. *)
Fixpoint split_chars (c : ascii) (s : list ascii) : list (list ascii) :=
  match s with
  | [] => [[]]
  | a :: s =>
      let rest := split_chars c s in
      if bool_decide (a = c) then [] :: rest
      else match rest with
           | [] => [[a]]
           | w :: ws => (a :: w) :: ws
           end
  end.
Definition py_split (c : ascii) (s : string) : list string :=
  of_chars <$> split_chars c (chars s).

(** [c.join(parts)] *)
Fixpoint py_join (sep : string) (l : list string) : string :=
  match l with
  | [] => String.EmptyString
  | [s] => s
  | s :: l => s +:+ sep +:+ py_join sep l
  end.

(** [s.rsplit(c, 1)[-1]]: the text after the last [c]. *)
Definition after_last (c : ascii) (s : string) : string :=
  default s (last (py_split c s)).

(** [any(f(c) for c in s)] *)
Definition str_any (f : ascii -> bool) (s : string) : bool := existsb f (chars s).
Definition str_all (f : ascii -> bool) (s : string) : bool := forallb f (chars s).

(** ** Character classes *)
Definition in_range (lo hi : ascii) (c : ascii) : bool :=
  ((ord lo <=? ord c) && (ord c <=? ord hi))%Z.
Definition is_lower (c : ascii) : bool := in_range "a" "z" c.
Definition is_upper (c : ascii) : bool := in_range "A" "Z" c.
Definition is_digit (c : ascii) : bool := in_range "0" "9" c.
Definition is_alnum (c : ascii) : bool := is_lower c || is_upper c || is_digit c.
Definition is_hex (c : ascii) : bool := is_digit c || in_range "a" "f" c.
(** [c in chars-of-set] *)
Definition one_of (set : string) (c : ascii) : bool := bool_decide (c ∈ chars set).
(** [ord(c) < 0x20] *)
Definition is_control (c : ascii) : bool := (ord c <? 32)%Z.

(** ** Regular expressions *)
Inductive re : Type :=
| RNone
| REps
| RCls (p : ascii -> bool)
| RCat (r1 r2 : re)
| RAlt (r1 r2 : re)
| RStar (r : re).

(** Derivatives use simplifying constructors so that they stay small. *)
Definition rcat (r1 r2 : re) : re :=
  match r1 with RNone => RNone | REps => r2 | _ => RCat r1 r2 end.
Definition ralt (r1 r2 : re) : re :=
  match r1, r2 with RNone, _ => r2 | _, RNone => r1 | _, _ => RAlt r1 r2 end.

(** [r{0,n}], [r{m,n}], [r{n}], [r+], [r?] and literal text *)
Fixpoint upto (n : nat) (r : re) : re :=
  match n with O => REps | S n => RAlt REps (RCat r (upto n r)) end.
Fixpoint exactly (n : nat) (r : re) : re :=
  match n with O => REps | S n => RCat r (exactly n r) end.
Definition between (m n : nat) (r : re) : re := RCat (exactly m r) (upto (n - m) r).
Definition plus (r : re) : re := RCat r (RStar r).
Definition opt (r : re) : re := RAlt REps r.
Definition chr (c : ascii) : re := RCls (fun x => bool_decide (x = c)).
Fixpoint lit (s : string) : re :=
  match s with
  | String.EmptyString => REps
  | String.String c s => RCat (chr c) (lit s)
  end.

Fixpoint nullable (r : re) : bool :=
  match r with
  | RNone | RCls _ => false
  | REps | RStar _ => true
  | RCat r1 r2 => nullable r1 && nullable r2
  | RAlt r1 r2 => nullable r1 || nullable r2
  end.

Fixpoint deriv (c : ascii) (r : re) : re :=
  match r with
  | RNone | REps => RNone
  | RCls p => if p c then REps else RNone
  | RCat r1 r2 =>
      let d := rcat (deriv c r1) r2 in
      if nullable r1 then ralt d (deriv c r2) else d
  | RAlt r1 r2 => ralt (deriv c r1) (deriv c r2)
  | RStar r => rcat (deriv c r) (RStar r)
  end.

Fixpoint re_run (r : re) (s : list ascii) : bool :=
  match s with [] => nullable r | c :: s => re_run (deriv c r) s end.

(** [pattern.fullmatch(s) is not None] *)
Definition fullmatch (r : re) (s : string) : bool := re_run r (chars s).

(** [pattern.match(s) is not None] for a pattern with no final [$] *)
Definition prefixmatch (r : re) (s : string) : bool :=
  fullmatch (RCat r (RStar (RCls (fun _ => true)))) s.

(** ** The language of a pattern *)
Inductive lang : re -> list ascii -> Prop :=
| lang_eps : lang REps []
| lang_cls p c : p c = true -> lang (RCls p) [c]
| lang_cat r1 r2 s1 s2 : lang r1 s1 -> lang r2 s2 -> lang (RCat r1 r2) (s1 ++ s2)
| lang_alt_l r1 r2 s : lang r1 s -> lang (RAlt r1 r2) s
| lang_alt_r r1 r2 s : lang r2 s -> lang (RAlt r1 r2) s
| lang_star_nil r : lang (RStar r) []
| lang_star_cons r c s1 s2 :
    lang r (c :: s1) -> lang (RStar r) s2 -> lang (RStar r) (c :: s1 ++ s2).

Lemma lang_none_inv s : ~ lang RNone s.
Proof. inversion 1. Qed.
Lemma lang_eps_inv s : lang REps s <-> s = [].
Proof. split; [by inversion 1 | intros ->; constructor]. Qed.
Lemma lang_cls_inv p s : lang (RCls p) s <-> exists c, s = [c] /\ p c = true.
Proof. split; [inversion 1; eauto | intros (c & -> & ?); by constructor]. Qed.
Lemma lang_cat_inv r1 r2 s :
  lang (RCat r1 r2) s <-> exists s1 s2, s = s1 ++ s2 /\ lang r1 s1 /\ lang r2 s2.
Proof. split; [inversion 1; eauto 6 | intros (? & ? & -> & ? & ?); by constructor]. Qed.
Lemma lang_alt_inv r1 r2 s : lang (RAlt r1 r2) s <-> lang r1 s \/ lang r2 s.
Proof. split; [inversion 1; auto | intros [?|?]; by constructor]. Qed.

Lemma lang_rcat r1 r2 s : lang (rcat r1 r2) s <-> lang (RCat r1 r2) s.
Proof.
  rewrite lang_cat_inv. destruct r1; simpl; rewrite ?lang_cat_inv; try done.
  - split; [by intros ?%lang_none_inv | by intros (? & ? & _ & ?%lang_none_inv & _)].
  - split; [intros; exists [], s; eauto using lang_eps |].
    by intros (? & ? & -> & ->%lang_eps_inv & ?).
Qed.

Lemma lang_ralt r1 r2 s : lang (ralt r1 r2) s <-> lang r1 s \/ lang r2 s.
Proof.
  destruct r1, r2; simpl; rewrite ?lang_alt_inv; try done;
    pose proof (lang_none_inv s); tauto.
Qed.

Lemma nullable_lang r : nullable r = true <-> lang r [].
Proof.
  induction r as [| |p|r1 IH1 r2 IH2|r1 IH1 r2 IH2|r IH]; simpl.
  - split; [done | by intros ?%lang_none_inv].
  - split; [constructor | done].
  - split; [done | intros (? & ? & ?)%lang_cls_inv; done].
  - rewrite andb_true_iff, IH1, IH2, lang_cat_inv. split.
    + intros []. exists [], []. done.
    + by intros (s1 & s2 & [-> ->]%eq_sym%app_nil & ? & ?).
  - by rewrite orb_true_iff, IH1, IH2, lang_alt_inv.
  - split; [constructor | done].
Qed.

Lemma lang_star_cons_inv r c s :
  lang (RStar r) (c :: s) <-> exists s1 s2, s = s1 ++ s2 /\ lang r (c :: s1) /\ lang (RStar r) s2.
Proof.
  split; [inversion 1; subst; eauto 6 | intros (s1 & s2 & -> & ? & ?); by constructor].
Qed.

Lemma deriv_lang r c s : lang (deriv c r) s <-> lang r (c :: s).
Proof.
  revert s. induction r as [| |p|r1 IH1 r2 IH2|r1 IH1 r2 IH2|r IH]; intros s; simpl.
  - split; by intros ?%lang_none_inv.
  - split; [by intros ?%lang_none_inv | by intros ?%lang_eps_inv].
  - rewrite (lang_cls_inv p (c :: s)). destruct (p c) eqn:Hp.
    + rewrite lang_eps_inv. split; [intros ->; eauto | by intros (c' & [= -> ->] & _)].
    + split; [by intros ?%lang_none_inv | intros (c' & [= <- _] & ?); congruence].
  - assert (lang (rcat (deriv c r1) r2) s <->
      exists s1 s2, s = s1 ++ s2 /\ lang r1 (c :: s1) /\ lang r2 s2) as Hd.
    { rewrite lang_rcat, lang_cat_inv. by setoid_rewrite IH1. }
    assert (lang (RCat r1 r2) (c :: s) <->
      (exists s1 s2, s = s1 ++ s2 /\ lang r1 (c :: s1) /\ lang r2 s2) \/
      (lang r1 [] /\ lang r2 (c :: s))) as Hc.
    { rewrite lang_cat_inv. split.
      - intros ([|c' s1] & s2 & Heq & ? & ?); simplify_eq/=; [by right | left; eauto].
      - intros [(s1 & s2 & -> & ? & ?)|[? ?]]; [by exists (c :: s1), s2 | by exists [], (c :: s)]. }
    rewrite Hc, <- nullable_lang. destruct (nullable r1).
    + rewrite lang_ralt, Hd, IH2. naive_solver.
    + rewrite Hd. naive_solver.
  - by rewrite lang_ralt, lang_alt_inv, IH1, IH2.
  - rewrite lang_rcat, lang_cat_inv, lang_star_cons_inv. by setoid_rewrite IH.
Qed.

Lemma re_run_lang r s : re_run r s = true <-> lang r s.
Proof.
  revert r. induction s as [|c s IH]; intros r; simpl; [apply nullable_lang |].
  by rewrite IH, deriv_lang.
Qed.

(** The matcher decides the language of the pattern. *)
Lemma fullmatch_lang r s : fullmatch r s = true <-> lang r (chars s).
Proof. apply re_run_lang. Qed.

(** ** Languages of the common pattern shapes *)
Lemma lang_upto_cls n p s :
  lang (upto n (RCls p)) s <-> length s <= n /\ Forall (fun c => p c = true) s.
Proof.
  revert s. induction n as [|n IH]; intros s; simpl.
  - rewrite lang_eps_inv. destruct s; simpl; [by split | split; [done | intros []; lia]].
  - rewrite lang_alt_inv, lang_eps_inv, lang_cat_inv. split.
    + intros [->|(s1 & s2 & -> & (c & -> & ?)%lang_cls_inv & [? ?]%IH)]; simpl.
      * split; [lia | constructor].
      * split; [lia | by constructor].
    + intros [Hl Hf]. destruct s as [|c s]; [by left |]. right.
      inversion Hf; subst. simpl in Hl. exists [c], s. split; [done |].
      rewrite lang_cls_inv, IH. split; [eauto | split; [lia | done]].
Qed.

Lemma lang_exactly_cls n p s :
  lang (exactly n (RCls p)) s <-> length s = n /\ Forall (fun c => p c = true) s.
Proof.
  revert s. induction n as [|n IH]; intros s; simpl.
  - rewrite lang_eps_inv. destruct s; simpl; naive_solver.
  - rewrite lang_cat_inv. split.
    + intros (s1 & s2 & -> & (c & -> & ?)%lang_cls_inv & [? ?]%IH); simpl.
      split; [lia | by constructor].
    + intros [Hl Hf]. destruct s as [|c s]; [done |]. inversion Hf; subst. simpl in Hl.
      exists [c], s. split; [done |]. rewrite lang_cls_inv, IH. split; [eauto | split; [lia | done]].
Qed.

Lemma lang_star_cls p s : lang (RStar (RCls p)) s <-> Forall (fun c => p c = true) s.
Proof.
  induction s as [|c s IH].
  - split; constructor.
  - rewrite lang_star_cons_inv, Forall_cons. split.
    + intros (s1 & s2 & -> & (c' & [= -> ->] & ?)%lang_cls_inv & ?); simpl in *. naive_solver.
    + intros [? ?]. exists [], s. rewrite lang_cls_inv. naive_solver.
Qed.

(** The identifier shape [[first][rest]{0,n}]. *)
Lemma lang_head_upto p q n s :
  lang (RCat (RCls p) (upto n (RCls q))) s <->
  exists c t, s = c :: t /\ p c = true /\ length t <= n /\ Forall (fun c => q c = true) t.
Proof.
  rewrite lang_cat_inv. setoid_rewrite lang_cls_inv. setoid_rewrite lang_upto_cls. split.
  - intros (s1 & s2 & -> & (c & -> & ?) & ? & ?). eauto 6.
  - intros (c & t & -> & ? & ? & ?). exists [c], t. eauto 6.
Qed.

Lemma length_chars s : length (chars s) = py_len s.
Proof. unfold py_len. induction s; simpl; congruence. Qed.

(** ** Case, partitions and stripping *)

(** [c.lower()] on Latin-1 code points *)
Definition lower_char (c : ascii) : ascii :=
  let n := nat_of_ascii c in
  if is_upper c || ((192 <=? n) && (n <=? 222) && negb (n =? 215))%nat
  then ascii_of_nat (n + 32) else c.
Definition py_lower (s : string) : string := of_chars (lower_char <$> chars s).

(** [c.isspace()] on Latin-1 code points *)
Definition is_space (c : ascii) : bool :=
  let n := nat_of_ascii c in
  (((9 <=? n) && (n <=? 13)) || ((28 <=? n) && (n <=? 32)) || (n =? 133) || (n =? 160))%nat.

(** [s.partition(c)]: the text before the first [c], and the rest if there is one. *)
Fixpoint partition_chars (c : ascii) (s : list ascii) : list ascii * option (list ascii) :=
  match s with
  | [] => ([], None)
  | a :: s =>
      if bool_decide (a = c) then ([], Some s)
      else let '(l, r) := partition_chars c s in (a :: l, r)
  end.
Definition py_partition (c : ascii) (s : string) : string * option string :=
  let '(l, r) := partition_chars c (chars s) in (of_chars l, of_chars <$> r).
(** [s.rpartition(c)]: the text before the last [c] if there is one, and the rest. *)
Definition py_rpartition (c : ascii) (s : string) : option string * string :=
  let '(l, r) := partition_chars c (reverse (chars s)) in
  (of_chars ∘ reverse <$> r, of_chars (reverse l)).

Fixpoint drop_while (p : ascii -> bool) (s : list ascii) : list ascii :=
  match s with [] => [] | c :: s' => if p c then drop_while p s' else s end.
Definition py_lstrip (p : ascii -> bool) (s : string) : string := of_chars (drop_while p (chars s)).
Definition py_rstrip (p : ascii -> bool) (s : string) : string :=
  of_chars (reverse (drop_while p (reverse (chars s)))).
Definition py_strip (p : ascii -> bool) (s : string) : string := py_rstrip p (py_lstrip p s).
(** [s.replace(a, b)] for single characters *)
Definition replace_char (a b : ascii) (s : string) : string :=
  of_chars ((fun c => if bool_decide (c = a) then b else c) <$> chars s).
(** [s.replace(a, "")] *)
Definition remove_chars (p : ascii -> bool) (s : string) : string :=
  of_chars (filter (fun c => p c = false) (chars s)).

(** [s.splitlines()] on Latin-1 code points; [\r\n] is one line break. *)
Definition is_line_break (c : ascii) : bool :=
  let n := nat_of_ascii c in (((10 <=? n) && (n <=? 13)) || ((28 <=? n) && (n <=? 30)) || (n =? 133))%nat.
Fixpoint line_chars (line s : list ascii) : list (list ascii) :=
  match s with
  | [] => match line with [] => [] | _ => [reverse line] end
  | c :: s' =>
      if is_line_break c then
        reverse line ::
          match s' with
          | d :: s'' => if Ascii.eqb c "013" && Ascii.eqb d "010" then line_chars [] s'' else line_chars [] s'
          | [] => []
          end
      else line_chars (c :: line) s'
  end.
Definition py_splitlines (s : string) : list string := of_chars <$> line_chars [] (chars s).

(** ** String lemmas *)
Lemma chars_app s t : chars (s +:+ t) = chars s ++ chars t.
Proof.
  induction s as [|c s IH]; [done |].
  change (String.String c s +:+ t) with (String.String c (s +:+ t)). simpl. by rewrite IH.
Qed.
Lemma py_len_app s t : py_len (s +:+ t) = py_len s + py_len t.
Proof. by rewrite <- !length_chars, chars_app, length_app. Qed.

Lemma chars_of_chars l : chars (of_chars l) = l.
Proof. apply String.list_ascii_of_string_of_list_ascii. Qed.
Lemma of_chars_chars s : of_chars (chars s) = s.
Proof. apply String.string_of_list_ascii_of_string. Qed.
#[export] Hint Rewrite chars_app chars_of_chars of_chars_chars : room_rw.

Lemma split_chars_nonempty c s : split_chars c s ≠ [].
Proof. destruct s; simpl; [done |]. repeat case_match; done. Qed.

Lemma split_chars_Forall c (P : ascii -> Prop) s :
  Forall (Forall P) (split_chars c s) -> Forall (fun a => P a \/ a = c) s.
Proof.
  induction s as [|a s IH]; simpl; [constructor |].
  case_bool_decide as Ha.
  - intros [_ H]%Forall_cons. constructor; [by right | by apply IH].
  - destruct (split_chars c s) as [|w ws] eqn:Hs; [by destruct (split_chars_nonempty c s) |].
    intros [[Ha' Hw]%Forall_cons Hws]%Forall_cons. constructor; [by left | apply IH; by constructor].
Qed.

Lemma py_split_Forall c (P : ascii -> Prop) s :
  Forall (fun w => Forall P (chars w)) (py_split c s) -> Forall (fun a => P a \/ a = c) (chars s).
Proof.
  unfold py_split. rewrite Forall_fmap. intros H. apply split_chars_Forall.
  eapply Forall_impl; [exact H |]. intros w Hw. unfold compose in Hw.
  rewrite chars_of_chars in Hw. done.
Qed.

Lemma lang_between_cls m n p s :
  lang (between m n (RCls p)) s <-> m <= length s <= m + (n - m) /\ Forall (fun c => p c = true) s.
Proof.
  unfold between. rewrite lang_cat_inv.
  setoid_rewrite lang_exactly_cls. setoid_rewrite lang_upto_cls. split.
  - intros (s1 & s2 & -> & [? ?] & [? ?]). rewrite length_app, Forall_app.
    split; [lia | by split].
  - intros [Hl Hf]. exists (take m s), (drop m s). rewrite take_drop, length_take, length_drop.
    split; [done |]. split; (split; [lia |]); [by apply Forall_take | by apply Forall_drop].
Qed.

(** [c{m,n}] accepts the strings of [m] to [n] characters of the class. *)
Lemma fullmatch_between m n p s :
  fullmatch (between m n (RCls p)) s = true <->
  m <= py_len s <= m + (n - m) /\ Forall (fun c => p c = true) (chars s).
Proof. by rewrite fullmatch_lang, lang_between_cls, length_chars. Qed.

Lemma fullmatch_head_upto p q n s :
  fullmatch (RCat (RCls p) (upto n (RCls q))) s = true <->
  exists c t, chars s = c :: t /\ p c = true /\ length t <= n /\ Forall (fun c => q c = true) t.
Proof. by rewrite fullmatch_lang, lang_head_upto. Qed.

(** ** Literal prefixes *)
Lemma lang_lit p s : lang (lit p) s <-> s = chars p.
Proof.
  revert s. induction p as [|c p IH]; intros s; simpl; [apply lang_eps_inv |].
  rewrite lang_cat_inv. unfold chr. split.
  - intros (s1 & s2 & -> & (x & -> & Hx)%lang_cls_inv & ->%IH). by apply bool_decide_eq_true in Hx as ->.
  - intros ->. exists [c], (chars p). split; [done |]. split; [|by apply IH].
    apply lang_cls_inv. exists c. by rewrite bool_decide_true.
Qed.

Lemma startswith_app p s : startswith p (p +:+ s) = true.
Proof. induction p as [|c p IH]; simpl; [done |]. by rewrite bool_decide_true. Qed.

Lemma str_drop_app p s : str_drop (py_len p) (p +:+ s) = s.
Proof. induction p as [|c p IH]; simpl; done. Qed.

Lemma removeprefix_app p s : removeprefix p (p +:+ s) = s.
Proof. unfold removeprefix. by rewrite startswith_app, str_drop_app. Qed.

(** A match of a literal followed by [r] is the literal followed by a match of [r]. *)
Lemma fullmatch_lit_cat p r s :
  fullmatch (RCat (lit p) r) s = true <-> exists t, s = p +:+ t /\ fullmatch r t = true.
Proof.
  rewrite fullmatch_lang, lang_cat_inv. split.
  - intros (s1 & s2 & Hs & ->%lang_lit & Hr). exists (of_chars s2).
    rewrite fullmatch_lang, chars_of_chars. split; [|done].
    by rewrite <- (of_chars_chars s), Hs, <- (chars_of_chars s2), <- chars_app, of_chars_chars, !chars_of_chars.
  - intros (t & -> & Ht%fullmatch_lang). exists (chars p), (chars t). rewrite chars_app. repeat split; [|done].
    by apply lang_lit.
Qed.

Lemma str_take_drop n s : s = str_take n s +:+ str_drop n s.
Proof. revert s. induction n as [|n IH]; intros [|c s]; simpl; try done. exact (f_equal (String.String c) (IH s)). Qed.

Lemma endswith_split p s : endswith p s = true -> exists t, s = t +:+ p.
Proof.
  unfold endswith. rewrite andb_true_iff, bool_decide_eq_true. intros [_ E].
  exists (str_take (py_len s - py_len p) s). rewrite <- E at 2. apply str_take_drop.
Qed.
