(* ===== verification/PyObj.v ===== *)
(** * Python objects, dictionaries and JSON text

    The values that cross the modelled boundaries ([json.loads] results and
    arguments annotated [object]) are one inductive type; dictionaries keep
    their insertion order.  Floats are IEEE binary64 ([spec_float] at precision
    53, exponent 1024), so lease arithmetic rounds as the program's does. *)

From S2P Require Import Prelude PyStr.
From stdpp Require Import pretty.
From Stdlib Require Import Ascii SpecFloat.

(** ** Floats *)
Abbreviation flt := spec_float.
Definition fadd : flt -> flt -> flt := SFadd 53 1024.
Definition f_of_Z (z : Z) : flt := binary_normalize 53 1024 z 0 false.
Definition f_zero : flt := S754_zero false.
Definition f_is_finite (f : flt) : bool :=
  match f with S754_zero _ | S754_finite _ _ _ => true | _ => false end.
(** Exact comparison [z == f] of an integer with a float. *)
Definition f_eq_Z (z : Z) (f : flt) : bool :=
  match f with
  | S754_zero _ => (z =? 0)%Z
  | S754_finite s m e =>
      let m := if s then Z.neg m else Z.pos m in
      if (0 <=? e)%Z then (z =? m * 2 ^ e)%Z else (z * 2 ^ (- e) =? m)%Z
  | _ => false
  end.

#[export] Instance spec_float_eq_dec : EqDecision spec_float.
Proof. solve_decision. Defined.

(** ** Objects *)
#[warnings="-register-all"]
Inductive pyobj : Type :=
| PNone
| PBool (b : bool)
| PInt (z : Z)
| PFloat (f : flt)
| PStr (s : string)
| PList (l : list pyobj)
| PDict (d : list (string * pyobj)).

Abbreviation dict := (list (string * pyobj)).

(** [isinstance(v, str)] and so on, as partial projections. *)
Definition as_str (v : pyobj) : option string := match v with PStr s => Some s | _ => None end.
Definition as_bool (v : pyobj) : option bool := match v with PBool b => Some b | _ => None end.
Definition as_list (v : pyobj) : option (list pyobj) := match v with PList l => Some l | _ => None end.
Definition as_dict (v : pyobj) : option dict := match v with PDict d => Some d | _ => None end.
(** [type(v) is int]: a bool is not one. *)
Definition as_int (v : pyobj) : option Z := match v with PInt z => Some z | _ => None end.
Definition is_none (v : pyobj) : bool := match v with PNone => true | _ => false end.
Definition opt_str (o : option string) : pyobj := match o with Some s => PStr s | None => PNone end.
Definition opt_int (o : option Z) : pyobj := match o with Some z => PInt z | None => PNone end.
(** Lists and dicts cannot be members of a Python set. *)
Definition hashable (v : pyobj) : bool := match v with PList _ | PDict _ => false | _ => true end.
Definition is_str_in (set : list string) (v : pyobj) : bool :=
  match v with PStr s => bool_decide (s ∈ set) | _ => false end.

(** ** Dictionaries *)
Fixpoint dict_get {V} (k : string) (d : list (string * V)) : option V :=
  match d with
  | [] => None
  | (k', v) :: d => if bool_decide (k = k') then Some v else dict_get k d
  end.
(** [d[k]] *)
Definition get_item {V} (k : string) (d : list (string * V)) : result V :=
  match dict_get k d with Some v => Ok v | None => Raise EKey end.
(** [d.get(k)] *)
Definition get_or_none (k : string) (d : dict) : pyobj := default PNone (dict_get k d).
Definition has_key {V} (k : string) (d : list (string * V)) : bool := bool_decide (k ∈ d.*1).
(** [d[k] = v]: in place when the key is there, appended otherwise. *)
Fixpoint dict_set {V} (k : string) (v : V) (d : list (string * V)) : list (string * V) :=
  match d with
  | [] => [(k, v)]
  | (k', v') :: d => if bool_decide (k = k') then (k', v) :: d else (k', v') :: dict_set k v d
  end.
(** [d.pop(k)] *)
Definition dict_del {V} (k : string) (d : list (string * V)) : list (string * V) := filter (fun kv => kv.1 ≠ k) d.
Definition setdefault {V} (k : string) (v : V) (d : list (string * V)) : list (string * V) :=
  if has_key k d then d else dict_set k v d.
(** [set(d) <= ks], [ks <= set(d)] and [set(d) == ks] *)
Definition keys_within {V} (ks : list string) (d : list (string * V)) : bool :=
  forallb (fun k => bool_decide (k ∈ ks)) d.*1.
Definition has_keys {V} (ks : list string) (d : list (string * V)) : bool :=
  forallb (fun k => has_key k d) ks.
Definition keys_are {V} (ks : list string) (d : list (string * V)) : bool :=
  keys_within ks d && has_keys ks d.

(** ** Numbers *)
(** The value of a Python [bool] or [int] as an integer. *)
Definition int_value (v : pyobj) : option Z :=
  match v with PBool b => Some (if b then 1 else 0)%Z | PInt z => Some z | _ => None end.

(** [==] *)
Fixpoint py_eq (a b : pyobj) {struct a} : bool :=
  match a, b with
  | PNone, PNone => true
  | PStr s, PStr t => bool_decide (s = t)
  | PFloat f, PFloat g => SFeqb f g
  | PFloat f, (PBool _ | PInt _) => match int_value b with Some z => f_eq_Z z f | None => false end
  | (PBool _ | PInt _), PFloat g => match int_value a with Some z => f_eq_Z z g | None => false end
  | (PBool _ | PInt _), (PBool _ | PInt _) => bool_decide (int_value a = int_value b)
  | PList l1, PList l2 =>
      (fix go (l1 l2 : list pyobj) : bool :=
         match l1, l2 with
         | [], [] => true
         | x :: l1, y :: l2 => py_eq x y && go l1 l2
         | _, _ => false
         end) l1 l2
  | PDict d1, PDict d2 =>
      (length d1 =? length d2)%nat &&
      (fix go (d1 : dict) : bool :=
         match d1 with
         | [] => true
         | (k, x) :: d1 =>
             match dict_get k d2 with Some y => py_eq x y | None => false end && go d1
         end) d1
  | _, _ => false
  end.

(** [math.isfinite(float(v))] for [v] an [int] or a [float], with the
    conversion's [OverflowError] caught. *)
Definition to_float (v : pyobj) : flt :=
  match v with PInt z => f_of_Z z | PFloat f => f | _ => S754_nan end.
Definition finite_number (v : pyobj) : bool :=
  match v with PInt _ | PFloat _ => f_is_finite (to_float v) | _ => false end.
(** [v < z] and [v <= z] for a number [v] and an integer literal [z]. *)
Definition num_ltb (v : pyobj) (z : Z) : bool :=
  match v with PInt n => (n <? z)%Z | PFloat f => SFltb f (f_of_Z z) | _ => false end.
Definition num_leb (v : pyobj) (z : Z) : bool :=
  match v with PInt n => (n <=? z)%Z | PFloat f => SFleb f (f_of_Z z) | _ => false end.
(** [z < v] *)
Definition num_gtb (v : pyobj) (z : Z) : bool :=
  match v with PInt n => (z <? n)%Z | PFloat f => SFltb (f_of_Z z) f | _ => false end.

(** ** JSON text

    [json.dumps(v, sort_keys=True, separators=("," + sp, ":" + sp))].  The decimal text of
    a float is the runtime's shortest [repr], a parameter. *)
Class PyRuntime := {
  float_repr : flt -> string;
  sha256 : string -> string;
}.

Section dumps.
Context `{PyRuntime}.

Definition hex_digit (n : nat) : ascii :=
  ascii_of_nat (if (n <? 10)%nat then 48 + n else 87 + n).
Definition unicode_escape (c : ascii) : string :=
  let n := nat_of_ascii c in
  "\u00" +:+ of_chars [hex_digit (n / 16); hex_digit (n mod 16)].
Definition escape_char (ascii_only : bool) (c : ascii) : string :=
  let n := nat_of_ascii c in
  if (n =? 34)%nat then of_chars ["\"; "034"]%char
  else if (n =? 92)%nat then "\\"
  else if (n =? 10)%nat then "\n"
  else if (n =? 13)%nat then "\r"
  else if (n =? 9)%nat then "\t"
  else if (n =? 12)%nat then "\f"
  else if (n =? 8)%nat then "\b"
  else if (n <? 32)%nat || (ascii_only && (126 <? n)%nat) then unicode_escape c
  else of_chars [c].
Definition dquote : string := of_chars ["034"%char].
Definition json_string (ascii_only : bool) (s : string) : string :=
  dquote +:+ foldr (fun c t => escape_char ascii_only c +:+ t) dquote (chars s).
Definition json_float (f : flt) : string :=
  match f with
  | S754_nan => "NaN"
  | S754_infinity false => "Infinity"
  | S754_infinity true => "-Infinity"
  | _ => float_repr f
  end.

Definition key_le (a b : string * string) : Prop := String.le a.1 b.1.
#[export] Instance key_le_dec : RelDecision key_le.
Proof. intros a b. unfold key_le. apply _. Defined.

Fixpoint dumps_sep (sp : string) (ascii_only : bool) (v : pyobj) : string :=
  match v with
  | PNone => "null"
  | PBool b => if b then "true" else "false"
  | PInt z => pretty z
  | PFloat f => json_float f
  | PStr s => json_string ascii_only s
  | PList l => "[" +:+ py_join ("," +:+ sp) (dumps_sep sp ascii_only <$> l) +:+ "]"
  | PDict d =>
      "{" +:+ py_join ("," +:+ sp) ((fun kv => json_string ascii_only kv.1 +:+ (":" +:+ sp) +:+ kv.2) <$>
        merge_sort key_le ((fun kv => (kv.1, dumps_sep sp ascii_only kv.2)) <$> d)) +:+ "}"
  end.
End dumps.
(** [separators=(",", ":")] *)
Abbreviation dumps := (dumps_sep "").

(** ** Dictionary lemmas *)
Lemma dict_get_set {V} (k : string) (k' : string) (v : V) (d : list (string * V)) :
  dict_get k (dict_set k' v d) = if bool_decide (k = k') then Some v else dict_get k d.
Proof.
  induction d as [|[k1 v1] d IH]; simpl.
  - done.
  - destruct (decide (k' = k1)) as [->|]; simpl.
    + rewrite bool_decide_true by done; simpl. by case_bool_decide.
    + rewrite (bool_decide_false (k' = k1)) by done; simpl. rewrite IH.
      repeat case_bool_decide; congruence.
Qed.

Lemma has_key_spec {V} (k : string) (d : list (string * V)) : has_key k d = true <-> is_Some (dict_get k d).
Proof.
  unfold has_key. rewrite bool_decide_eq_true. induction d as [|[k' v] d IH]; simpl.
  - split; [by intros ?%not_elem_of_nil | by intros []].
  - rewrite elem_of_cons, IH. case_bool_decide; [naive_solver |].
    split; [intros [->|?]; done | auto].
Qed.

Lemma dict_get_None {V} (k : string) (d : list (string * V)) : dict_get k d = None <-> k ∉ d.*1.
Proof.
  induction d as [|[k' v] d IH]; simpl.
  - split; [intros _; apply not_elem_of_nil | done].
  - rewrite not_elem_of_cons. case_bool_decide; naive_solver.
Qed.

Lemma dict_get_elem {V} (k : string) (v : V) (d : list (string * V)) : dict_get k d = Some v -> (k, v) ∈ d.
Proof.
  induction d as [|[k' v'] d IH]; simpl; [done |].
  case_bool_decide; [intros [= ->]; subst; left | right; auto].
Qed.

Lemma dict_get_NoDup {V} (k : string) (v : V) (d : list (string * V)) : NoDup d.*1 -> (k, v) ∈ d -> dict_get k d = Some v.
Proof.
  induction d as [|[k' v'] d IH]; simpl; [by intros _ ?%not_elem_of_nil |].
  intros [Hk Hd]%NoDup_cons [[= -> ->]|Hin]%elem_of_cons.
  - by rewrite bool_decide_true.
  - rewrite bool_decide_false; [by apply IH |]. intros ->. apply Hk.
    apply list_elem_of_fmap. by exists (k', v).
Qed.

Lemma dict_set_keys {V} (k : string) (v : V) (d : list (string * V)) :
  (dict_set k v d).*1 = if has_key k d then d.*1 else d.*1 ++ [k].
Proof.
  unfold has_key. induction d as [|[k' v'] d IH]; csimpl; [done |].
  destruct (decide (k = k')) as [->|Hk].
  - rewrite !bool_decide_true by (done || left). done.
  - rewrite (bool_decide_false (k = k')) by done. csimpl. rewrite IH.
    rewrite (bool_decide_ext (k ∈ k' :: d.*1) (k ∈ d.*1)) by (rewrite elem_of_cons; tauto).
    by case_bool_decide.
Qed.

Lemma keys_are_get {V} (ks : list string) (d : list (string * V)) (k : string) : keys_are ks d = true -> k ∈ ks -> is_Some (dict_get k d).
Proof.
  unfold keys_are, has_keys. rewrite andb_true_iff, (forallb_forall _ ks).
  intros [_ H] Hk. apply has_key_spec, H. by apply list_elem_of_In.
Qed.

Lemma get_item_Ok {V} (k : string) (d : list (string * V)) (v : V) : get_item k d = Ok v <-> dict_get k d = Some v.
Proof. unfold get_item. case_match; naive_solver. Qed.
