(* ===== verification/PyUrl.v ===== *)
(** * URL splitting and path normalisation of the Python standard library

    [urllib.parse.urlsplit] with its [SplitResult] accessors, [urlunsplit], [unquote] and
    [posixpath.normpath], as far as the modelled modules use them.  The two checks that
    consult the [ipaddress] and [unicodedata] tables are parameters. *)

From S2P Require Import Prelude PyStr.
From Stdlib Require Import Ascii.

(** [_check_bracketed_netloc] and [_checknetloc]: [false] is a [ValueError]. *)
Class UrlRuntime := {
  bracketed_ok : string -> bool;
  netloc_ok : string -> bool;
}.

Record split_result := SplitResult {
  url_scheme : string;
  url_netloc : string;
  url_path : string;
  url_query : string;
  url_fragment : string;
}.

Definition is_scheme_char (c : ascii) : bool := is_alnum c || one_of "+-." c.
Definition is_alpha (c : ascii) : bool := is_lower c || is_upper c.

(** The scheme prefix, lowered, and the rest of the URL. *)
Definition split_scheme (url : string) : string * string :=
  match py_partition ":" url with
  | (String.String c w as scheme, Some rest) =>
      if is_alpha c && str_all is_scheme_char scheme then (py_lower scheme, rest) else ("", url)
  | _ => ("", url)
  end.

(** [_splitnetloc(url, 2)]: the authority ends at the first of [/?#]. *)
Fixpoint split_netloc (s : list ascii) : list ascii * list ascii :=
  match s with
  | [] => ([], [])
  | c :: s' =>
      if one_of "/?#" c then ([], s)
      else let '(l, r) := split_netloc s' in (c :: l, r)
  end.

Section urlsplit.
Context `{UrlRuntime}.

Definition has_char (c : ascii) (s : string) : bool := bool_decide (c ∈ chars s).

Definition urlsplit (url : string) : result split_result :=
  let url := py_lstrip (fun c => is_control c || bool_decide (c = " "%char)) url in
  let url := remove_chars (one_of (of_chars ["009"; "010"; "013"]%char)) url in
  let '(scheme, url) := split_scheme url in
  let '(netloc, url) :=
    if startswith "//" url then
      let '(l, r) := split_netloc (chars (str_drop 2 url)) in (of_chars l, of_chars r)
    else ("", url) in
  raise_if (xorb (has_char "[" netloc) (has_char "]" netloc)) (EValue "Invalid IPv6 URL") ;;
  raise_if (has_char "[" netloc && negb (bracketed_ok netloc)) (EValue "Invalid IPv6 URL") ;;
  let '(url, fragment) := py_partition "#" url in
  let '(url, query) := py_partition "?" url in
  raise_if (negb (netloc_ok netloc)) (EValue "netloc contains invalid characters under NFKC normalization") ;;
  Ok (SplitResult scheme netloc url (default "" query) (default "" fragment)).
End urlsplit.

(** [parsed.username] and [parsed.password] *)
Definition url_userinfo (u : split_result) : option string * option string :=
  match py_rpartition "@" (url_netloc u) with
  | (Some info, _) => let '(name, password) := py_partition ":" info in (Some name, password)
  | (None, _) => (None, None)
  end.

(** [parsed.hostname] *)
Definition url_hostname (u : split_result) : option string :=
  let '(_, hostinfo) := py_rpartition "@" (url_netloc u) in
  let host :=
    match py_partition "[" hostinfo with
    | (_, Some bracketed) => fst (py_partition "]" bracketed)
    | (_, None) => fst (py_partition ":" hostinfo)
    end in
  if bool_decide (host = "") then None
  else match py_partition "%" host with
       | (name, None) => Some (py_lower name)
       | (name, Some zone) => Some (py_lower name +:+ "%" +:+ zone)
       end.

(** [parsed.port] *)
Definition decimal_value (s : list ascii) : Z := foldl (fun n c => 10 * n + (ord c - 48))%Z 0%Z s.
Definition url_port (u : split_result) : result (option Z) :=
  let '(_, hostinfo) := py_rpartition "@" (url_netloc u) in
  let port :=
    match py_partition "[" hostinfo with
    | (_, Some bracketed) => default "" (snd (py_partition ":" (default "" (snd (py_partition "]" bracketed)))))
    | (_, None) => default "" (snd (py_partition ":" hostinfo))
    end in
  if bool_decide (port = "") then Ok None
  else
    raise_if (negb (str_all is_digit port)) (EValue "Port could not be cast to integer value") ;;
    raise_if (4300 <? py_len port)%nat (EValue "int digits") ;;
    let port := decimal_value (chars port) in
    raise_if (65535 <? port)%Z (EValue "Port out of range 0-65535") ;;
    Ok (Some port).

(** [urlunsplit((scheme, netloc, path, "", ""))] for a scheme and an authority that are not empty. *)
Definition urlunsplit (scheme netloc path : string) : string :=
  let path := if bool_decide (path ≠ "") && negb (startswith "/" path) then "/" +:+ path else path in
  scheme +:+ ":" +:+ "//" +:+ netloc +:+ path.

(** [unquote(s)].  A percent escape of a byte above 127 decodes to some
    character outside ASCII; the model keeps the byte, which is outside every
    class the callers accept. *)
Definition hex_value (c : ascii) : option nat :=
  let n := nat_of_ascii c in
  if is_digit c then Some (n - 48)
  else if in_range "a" "f" c then Some (n - 87)
  else if in_range "A" "F" c then Some (n - 55)
  else None.
Fixpoint unquote_chars (s : list ascii) : list ascii :=
  match s with
  | "%"%char :: ((a :: b :: s'') as s') =>
      match hex_value a, hex_value b with
      | Some x, Some y => ascii_of_nat (16 * x + y) :: unquote_chars s''
      | _, _ => "%"%char :: unquote_chars s'
      end
  | c :: s' => c :: unquote_chars s'
  | [] => []
  end.
Definition unquote (s : string) : string := of_chars (unquote_chars (chars s)).

(** [posixpath.normpath] *)
Definition norm_step (rooted : bool) (acc : list string) (comp : string) : list string :=
  if bool_decide (comp = "") || bool_decide (comp = ".") then acc
  else if bool_decide (comp ≠ "..")
          || (negb rooted && match acc with [] => true | _ => false end)
          || bool_decide (last acc = Some "..")
  then acc ++ [comp]
  else take (length acc - 1) acc.
Definition norm_components (rooted : bool) (comps : list string) : list string :=
  foldl (norm_step rooted) [] comps.
Definition normpath (path : string) : string :=
  if bool_decide (path = "") then "."
  else
    let rooted := startswith "/" path in
    let slashes :=
      if startswith "//" path && negb (startswith "///" path) then "//"
      else if rooted then "/" else "" in
    let path := slashes +:+ py_join "/" (norm_components rooted (py_split "/" path)) in
    if bool_decide (path = "") then "." else path.

Definition rooted_ok (rooted : bool) (acc : list string) : Prop :=
  rooted = true -> Forall (fun c => c ≠ ".." /\ c ≠ "." /\ c ≠ "") acc.

Lemma norm_step_rooted rooted acc comp :
  rooted_ok rooted acc -> rooted_ok rooted (norm_step rooted acc comp).
Proof.
  unfold rooted_ok, norm_step. intros Hacc ->. specialize (Hacc eq_refl).
  destruct (bool_decide (comp = "") || bool_decide (comp = ".")) eqn:Hskip; [done |].
  apply orb_false_iff in Hskip as [H1 H2]. bools. simpl.
  destruct (decide (comp = "..")) as [->|Hne].
  - rewrite (bool_decide_false (".." ≠ "..")) by auto. simpl.
    rewrite bool_decide_false; [by apply Forall_take |].
    intros Hl%last_Some_elem_of. rewrite Forall_forall in Hacc. by destruct (Hacc _ Hl).
  - rewrite bool_decide_true by done. simpl. apply Forall_app; split; [done |]. by repeat constructor.
Qed.

(** A rooted path normalises to components that are neither empty, [.] nor [..]. *)
Lemma norm_components_rooted comps :
  Forall (fun c => c ≠ ".." /\ c ≠ "." /\ c ≠ "") (norm_components true comps).
Proof.
  unfold norm_components.
  cut (rooted_ok true (foldl (norm_step true) [] comps)); [by intros H; apply H |].
  cut (rooted_ok true []); [|intros _; constructor].
  generalize (@nil string). induction comps as [|c comps IH]; intros acc Hacc; simpl; [done |].
  apply IH. by apply norm_step_rooted.
Qed.
