(* ===== verification/PyDatetime.v ===== *)
(** * Date and time text

    [datetime.fromisoformat] as CPython 3.11 reads it, up to whether it returns or
    raises [ValueError]: extended and basic dates, week dates, any one-character
    separator, a time of day and an offset. *)

From S2P Require Import Prelude PyStr.
From Stdlib Require Import Ascii.

(** ** Text as bytes *)

(** The UTF-8 encoding of a string of code points below 256. *)
Definition utf8_char (c : ascii) : list ascii :=
  let n := nat_of_ascii c in
  if (n <? 128)%nat then [c]
  else [ascii_of_nat (192 + n / 64); ascii_of_nat (128 + n mod 64)].
Definition utf8_bytes (s : string) : list ascii := chars s ≫= utf8_char.

Definition digit (c : ascii) : option Z := if is_digit c then Some (ord c - 48)%Z else None.
(** [parse_digits]: exactly [n] digits and what follows. *)
Fixpoint take_digits (n : nat) (acc : Z) (s : list ascii) : option (Z * list ascii) :=
  match n, s with
  | O, _ => Some (acc, s)
  | S n, c :: s => d ← digit c; take_digits n (10 * acc + d)%Z s
  | S _, [] => None
  end.

(** ** Calendar *)
Open Scope Z_scope.

Definition is_leap (y : Z) : bool := (y mod 4 =? 0) && (negb (y mod 100 =? 0) || (y mod 400 =? 0)).
Definition days_in_month (y m : Z) : Z :=
  if m =? 2 then (if is_leap y then 29 else 28)
  else if bool_decide (m ∈ [4; 6; 9; 11]) then 30 else 31.
Definition days_before_year (y : Z) : Z :=
  let y := y - 1 in y * 365 + y / 4 - y / 100 + y / 400.
(** The weekday, Monday being 0, of January 1st. *)
Definition first_weekday (y : Z) : Z := days_before_year y mod 7.
Definition iso_week_ok (y week : Z) : bool :=
  ((0 <? week) && (week <? 53))
  || ((week =? 53) && ((first_weekday y =? 3) || ((first_weekday y =? 2) && is_leap y))).
(** The ordinal of the first day of ISO week 1. *)
Definition week1_monday (y : Z) : Z :=
  let first := days_before_year y + 1 in
  let w := first_weekday y in
  if 3 <? w then first - w + 7 else first - w.
Definition max_ordinal : Z := days_before_year 10000.

Definition date_ok (y m d : Z) : bool :=
  (1 <=? y) && (y <=? 9999) && (1 <=? m) && (m <=? 12) && (1 <=? d) && (d <=? days_in_month y m).
Definition week_date_ok (y week day : Z) : bool :=
  (1 <=? y) && iso_week_ok y week && (1 <=? day) && (day <=? 7)
  && (let n := week1_monday y + (week - 1) * 7 + (day - 1) in (1 <=? n) && (n <=? max_ordinal)).

Close Scope Z_scope.

(** ** The date part *)
Definition char_at (n : nat) (s : list ascii) : ascii := default "000"%char (s !! n).
Fixpoint count_digits (s : list ascii) : nat :=
  match s with c :: s => if is_digit c then S (count_digits s) else 0 | [] => 0 end.

(** [_find_isoformat_datetime_separator]: the length of the date part. *)
Definition date_length (s : list ascii) : option nat :=
  let len := length s in
  if (len =? 7)%nat then Some 7
  else if Ascii.eqb (char_at 4 s) "-" then
    if Ascii.eqb (char_at 5 s) "W" then
      if (8 <? len)%nat && Ascii.eqb (char_at 8 s) "-" then
        if (len =? 9)%nat then None
        else if (10 <? len)%nat && is_digit (char_at 10 s) then Some 8 else Some 10
      else Some 8
    else Some 10
  else if Ascii.eqb (char_at 4 s) "W" then
    let idx := 7 + count_digits (drop 7 s) in
    if (idx <? 9)%nat then Some idx else if Nat.even idx then Some 7 else Some 8
  else Some 8.

(** [parse_isoformat_date] and the range checks of the date. *)
Definition skip_dash (sep : bool) (s : list ascii) : option (list ascii) :=
  if sep then match s with c :: s => if Ascii.eqb c "-" then Some s else None | [] => None end else Some s.
Definition parse_date (len : nat) (s : list ascii) : bool :=
  default false (
    '(y, rest) ← take_digits 4 0 s;
    let sep := Ascii.eqb (char_at 0 rest) "-" in
    let rest := if sep then drop 1 rest else rest in
    if Ascii.eqb (char_at 0 rest) "W" then
      '(week, rest) ← take_digits 2 0 (drop 1 rest);
      if (length s - length rest <? len)%nat then
        rest ← skip_dash sep rest;
        '(day, _) ← take_digits 1 0 rest;
        Some (week_date_ok y week day)
      else Some (week_date_ok y week 1)
    else
      '(m, rest) ← take_digits 2 0 rest;
      rest ← skip_dash sep rest;
      '(d, _) ← take_digits 2 0 rest;
      Some (date_ok y m d)).

(** ** The time part *)

(** Hours, minutes, seconds and the fraction; [clean] when nothing was left over. *)
Record time_of_day := { hour : Z; minute : Z; second : Z; micro_zero : bool; clean : bool }.

Definition fraction (h m s : Z) (rest : list ascii) : option time_of_day :=
  '(us, after) ← take_digits (min 6 (length rest)) 0 rest;
  Some {| hour := h; minute := m; second := s; micro_zero := (us =? 0)%Z;
          clean := bool_decide (drop (count_digits after) after = []) |}.
(** What follows two digits: the end, one stray character, the next component or the fraction. *)
Definition whole (h m s : Z) (ok : bool) : option time_of_day :=
  Some {| hour := h; minute := m; second := s; micro_zero := true; clean := ok |}.
Definition component (h m s : Z) (sep : bool) (rest : list ascii)
    (next : list ascii -> option time_of_day) : option time_of_day :=
  match rest with
  | [] => whole h m s true
  | [_] => whole h m s false
  | c :: after =>
      if sep && Ascii.eqb c ":" then next after
      else if one_of ".," c then fraction h m s after
      else if sep then None else next rest
  end.
Definition parse_hh_mm_ss_ff (s : list ascii) : option time_of_day :=
  '(h, rest) ← take_digits 2 0 s;
  let sep := Ascii.eqb (char_at 0 rest) ":" in
  component h 0 0 sep rest (fun s =>
    '(m, rest) ← take_digits 2 0 s;
    component h m 0 sep rest (fun s =>
      '(sec, rest) ← take_digits 2 0 s;
      component h m sec sep rest (fraction h m sec))).

Definition time_ok (t : time_of_day) : bool := ((hour t <=? 23) && (minute t <=? 59) && (second t <=? 59))%Z.
Definition offset_ok (t : time_of_day) : bool :=
  (hour t * 3600 + minute t * 60 + second t <? 86400)%Z.

(** The text before the first sign or [Z], and from there on. *)
Fixpoint split_zone (s : list ascii) : list ascii * list ascii :=
  match s with
  | [] => ([], [])
  | c :: s' => if one_of "+-Z" c then ([], s) else let '(a, b) := split_zone s' in (c :: a, b)
  end.
(** [parse_isoformat_time]; the offset must be less than a day. *)
Definition parse_time (s : list ascii) : bool :=
  let '(before, zone) := split_zone s in
  match parse_hh_mm_ss_ff before with
  | None => false
  | Some t =>
      time_ok t &&
      match zone with
      | [] => clean t
      | c :: zone =>
          if Ascii.eqb c "Z" then bool_decide (zone = [])
          else match parse_hh_mm_ss_ff zone with
               | Some o => clean o && offset_ok o
               | None => false
               end
      end
  end.

(** [datetime.fromisoformat(s)] returns. *)
Definition fromisoformat (s : string) : bool :=
  let b := utf8_bytes s in
  if (length b <? 7)%nat then false
  else match date_length b with
  | None => false
  | Some n =>
      parse_date n b &&
      (if (0 <? length b - n)%nat then
         let sep := char_at n b in
         parse_time (drop (n + (if (nat_of_ascii sep <? 128)%nat then 1 else 2)) b)
       else true)
  end.
