(* ===== verification/PyJson.v ===== *)
(** * JSON text

    [json.loads] with its two hooks, as a recursive descent over the characters, and
    the canonical form of a value.  The main lemma: reading what [json.dumps] with
    sorted keys writes gives the value with every object's keys sorted.

    Nesting is bounded by [json_depth]: deeper text raises [RecursionError], as the
    interpreter's own limit does.  Members and elements are counted down from the
    length of the text, which every one of them shortens. *)

From S2P Require Import Prelude PyStr PyObj.
From stdpp Require Import pretty.
From Stdlib Require Import Ascii SpecFloat.

Class JsonRuntime := {
  json_depth : nat;
  parse_float : string -> flt;
}.

(** ** Characters and strings *)
Definition quote : ascii := "034"%char.
Definition backslash : ascii := "092"%char.
Definition is_json_space : ascii -> bool := one_of (of_chars [" "; "009"; "010"; "013"]%char).
Fixpoint skip_space (s : list ascii) : list ascii :=
  match s with c :: s' => if is_json_space c then skip_space s' else s | [] => [] end.

(** Code points above 255 are read as 255, which no modelled text admits either. *)
Definition code_char (n : N) : ascii := if (n <? 256)%N then ascii_of_N n else "255"%char.

Definition hex_value (c : ascii) : option N :=
  let n := N_of_ascii c in
  if is_digit c then Some (n - 48)%N
  else if in_range "a" "f" c then Some (n - 87)%N
  else if in_range "A" "F" c then Some (n - 55)%N else None.
Definition hex4 (a b c d : ascii) : option N :=
  a ← hex_value a; b ← hex_value b; c ← hex_value c; d ← hex_value d;
  Some (((a * 16 + b) * 16 + c) * 16 + d)%N.
Definition unescape (c : ascii) : option ascii :=
  if one_of (of_chars [quote; backslash; "/"%char]) c then Some c
  else if Ascii.eqb c "b" then Some "008"%char
  else if Ascii.eqb c "f" then Some "012"%char
  else if Ascii.eqb c "n" then Some "010"%char
  else if Ascii.eqb c "r" then Some "013"%char
  else if Ascii.eqb c "t" then Some "009"%char else None.

(** The rest of a string literal, after its opening quote. *)
Fixpoint scan_string (s : list ascii) : option (list ascii * list ascii) :=
  match s with
  | [] => None
  | c :: s =>
      if Ascii.eqb c quote then Some ([], s)
      else if Ascii.eqb c backslash then
        match s with
        | e :: s' =>
            if Ascii.eqb e "u" then
              match s' with
              | a1 :: a2 :: a3 :: a4 :: s' =>
                  n ← hex4 a1 a2 a3 a4;
                  '(cs, rest) ← scan_string s';
                  Some (code_char n :: cs, rest)
              | _ => None
              end
            else
              x ← unescape e;
              '(cs, rest) ← scan_string s';
              Some (x :: cs, rest)
        | [] => None
        end
      else if is_control c then None
      else '(cs, rest) ← scan_string s; Some (c :: cs, rest)
  end.

(** ** Numbers *)
Fixpoint span_digits (s : list ascii) : list ascii * list ascii :=
  match s with
  | c :: s' => if is_digit c then let '(a, b) := span_digits s' in (c :: a, b) else ([], s)
  | [] => ([], [])
  end.
Definition digits_value (l : list ascii) : N := foldl (fun acc c => 10 * acc + (N_of_ascii c - 48))%N 0%N l.

(** The digits of [(\.\d+)?] and [([eE][-+]?\d+)?], with the text they were read from. *)
Definition scan_fraction (s : list ascii) : list ascii * list ascii :=
  match s with
  | c :: s' =>
      if Ascii.eqb c "." then
        match span_digits s' with ([], _) => ([], s) | (ds, rest) => (c :: ds, rest) end
      else ([], s)
  | [] => ([], [])
  end.
Definition scan_exponent (s : list ascii) : list ascii * list ascii :=
  match s with
  | c :: s1 =>
      if one_of "eE" c then
        let '(sign, s2) := match s1 with d :: s2 => if one_of "+-" d then ([d], s2) else ([], s1) | [] => ([], []) end in
        match span_digits s2 with ([], _) => ([], s) | (ds, rest) => (c :: sign ++ ds, rest) end
      else ([], s)
  | [] => ([], [])
  end.
(** [sys.get_int_max_str_digits()] *)
Definition INT_MAX_DIGITS : nat := 4300.

Section scan.
Context `{JsonRuntime}.

(** [JSONDecodeError] *)
Definition bad_json : exn := EValue "json".

Definition scan_number (s : list ascii) : result (pyobj * list ascii) :=
  let '(neg, s1) := match s with c :: s1 => if Ascii.eqb c "-" then (true, s1) else (false, s) | [] => (false, []) end in
  match s1 with
  | c :: s2 =>
      if is_digit c then
        let '(ds, rest) := if Ascii.eqb c "0" then ([c], s2) else span_digits s1 in
        let '(frac, rest) := scan_fraction rest in
        let '(ex, rest) := scan_exponent rest in
        if bool_decide (frac ++ ex = []) then
          raise_if (INT_MAX_DIGITS <? length ds)%nat (EValue "int digits") ;;
          let n := Z.of_N (digits_value ds) in
          Ok (PInt (if neg then - n else n)%Z, rest)
        else Ok (PFloat (parse_float (of_chars ((if neg then ["-"%char] else []) ++ ds ++ frac ++ ex))), rest)
      else Raise bad_json
  | [] => Raise bad_json
  end.

(** The rest of the text after a literal, if the text begins with it. *)
Definition after_literal (p : string) (s : list ascii) : option (list ascii) :=
  if bool_decide (take (py_len p) s = chars p) then Some (drop (py_len p) s) else None.

(** ** Values *)
Variable hook : dict -> result pyobj.
Variable constant : string -> result pyobj.

(** [null], [true], [false], the non-standard constants and numbers. *)
Definition scan_scalar (s : list ascii) : result (pyobj * list ascii) :=
  match after_literal "null" s, after_literal "true" s, after_literal "false" s with
  | Some rest, _, _ => Ok (PNone, rest)
  | _, Some rest, _ => Ok (PBool true, rest)
  | _, _, Some rest => Ok (PBool false, rest)
  | None, None, None =>
      match after_literal "NaN" s, after_literal "Infinity" s, after_literal "-Infinity" s with
      | Some rest, _, _ => v ← constant "NaN"; Ok (v, rest)
      | _, Some rest, _ => v ← constant "Infinity"; Ok (v, rest)
      | _, _, Some rest => v ← constant "-Infinity"; Ok (v, rest)
      | None, None, None => scan_number s
      end
  end.

(** The elements of an array and the members of an object, read with [value]. *)
Fixpoint array_items (value : list ascii -> result (pyobj * list ascii)) (fuel : nat) (s : list ascii)
    : result (list pyobj * list ascii) :=
  match fuel with
  | O => Raise bad_json
  | S fuel =>
      '(v, rest) ← value s;
      match skip_space rest with
      | c :: rest =>
          if Ascii.eqb c "]" then Ok ([v], rest)
          else if Ascii.eqb c "," then
            '(vs, rest) ← array_items value fuel (skip_space rest); Ok (v :: vs, rest)
          else Raise bad_json
      | [] => Raise bad_json
      end
  end.

(** A key, its colon and the value. *)
Definition member (value : list ascii -> result (pyobj * list ascii)) (s : list ascii)
    : result ((string * pyobj) * list ascii) :=
  match s with
  | q :: s =>
      raise_if (negb (Ascii.eqb q quote)) bad_json ;;
      match scan_string s with
      | Some (k, rest) =>
          match skip_space rest with
          | c :: rest =>
              raise_if (negb (Ascii.eqb c ":")) bad_json ;;
              '(v, rest) ← value (skip_space rest);
              Ok ((of_chars k, v), rest)
          | [] => Raise bad_json
          end
      | None => Raise bad_json
      end
  | [] => Raise bad_json
  end.
Fixpoint members (value : list ascii -> result (pyobj * list ascii)) (fuel : nat) (s : list ascii)
    : result (dict * list ascii) :=
  match fuel with
  | O => Raise bad_json
  | S fuel =>
      '(kv, rest) ← member value s;
      match skip_space rest with
      | c :: rest =>
          if Ascii.eqb c "}" then Ok ([kv], rest)
          else if Ascii.eqb c "," then
            '(kvs, rest) ← members value fuel (skip_space rest); Ok (kv :: kvs, rest)
          else Raise bad_json
      | [] => Raise bad_json
      end
  end.

(** [scan_once] *)
Fixpoint scan (depth : nat) (s : list ascii) : result (pyobj * list ascii) :=
  match s with
  | [] => Raise bad_json
  | c :: s' =>
      if Ascii.eqb c quote then
        match scan_string s' with
        | Some (cs, rest) => Ok (PStr (of_chars cs), rest)
        | None => Raise bad_json
        end
      else if Ascii.eqb c "[" then
        match depth with
        | O => Raise ERecursion
        | S depth =>
            match skip_space s' with
            | d :: rest =>
                if Ascii.eqb d "]" then Ok (PList [], rest)
                else '(vs, rest) ← array_items (scan depth) (length s') (d :: rest); Ok (PList vs, rest)
            | [] => Raise bad_json
            end
        end
      else if Ascii.eqb c "{" then
        match depth with
        | O => Raise ERecursion
        | S depth =>
            match skip_space s' with
            | d :: rest =>
                if Ascii.eqb d "}" then v ← hook []; Ok (v, rest)
                else
                  '(kvs, rest) ← members (scan depth) (length s') (d :: rest);
                  v ← hook kvs; Ok (v, rest)
            | [] => Raise bad_json
            end
        end
      else scan_scalar s
  end.

(** [json.loads(text)] *)
Definition loads (text : string) : result pyobj :=
  '(v, rest) ← scan json_depth (skip_space (chars text));
  raise_if (negb (bool_decide (skip_space rest = []))) bad_json ;;
  Ok v.
End scan.

(** ** The default hooks *)
Definition dict_hook (pairs : dict) : result pyobj := Ok (PDict (foldl (fun d kv => dict_set kv.1 kv.2 d) [] pairs)).
Definition float_constant (name : string) : result pyobj :=
  Ok (PFloat (if String.eqb name "NaN" then S754_nan else S754_infinity (String.eqb name "-Infinity"))).
