(* ===== verification/JsonProps.v ===== *)
(** * Reading what was written

    [loads (dumps v)] is the canonical form of [v], for values without floats, whose
    objects have distinct keys, whose integers fit 64 bits and whose nesting stays
    within the reader's bound. *)

From S2P Require Import Prelude PyStr PyObj PyJson.
From stdpp Require Import pretty.
From Stdlib Require Import Ascii.

(** ** Canonical form: the keys of every object in order *)
Definition item_le {V} (a b : string * V) : Prop := String.le a.1 b.1.
#[export] Instance item_le_dec {V} : RelDecision (@item_le V).
Proof. intros a b. unfold item_le. apply _. Defined.
#[export] Instance item_le_total {V} : Total (@item_le V).
Proof. intros a b. unfold item_le. apply String.le_total. Qed.

Fixpoint canon (v : pyobj) : pyobj :=
  match v with
  | PList l => PList (canon <$> l)
  | PDict d => PDict (merge_sort item_le ((fun kv => (kv.1, canon kv.2)) <$> d))
  | _ => v
  end.
Definition canon_dict (d : dict) : dict := merge_sort item_le ((fun kv => (kv.1, canon kv.2)) <$> d).

(** Values JSON text represents exactly, nested at most [n] deep. *)
Fixpoint plain (n : nat) (v : pyobj) : Prop :=
  match v with
  | PNone | PBool _ | PStr _ => True
  | PInt z => (- 2 ^ 63 <= z < 2 ^ 63)%Z
  | PFloat _ => False
  | PList l => match n with O => False | S n => Forall (plain n) l end
  | PDict d => match n with O => False | S n => NoDup d.*1 /\ Forall (fun kv => plain n kv.2) d end
  end.

(** ** Sorting mapped lists *)
Section sorting.
Context {A B : Type} (f : A -> B) (R : relation A) (Q : relation B).
Context `{forall x y, Decision (R x y), forall x y, Decision (Q x y)}.
Hypothesis Hf : forall x y, Q (f x) (f y) <-> R x y.

Lemma list_merge_fmap l1 l2 : list_merge Q (f <$> l1) (f <$> l2) = f <$> list_merge R l1 l2.
Proof.
  revert l2. induction l1 as [|x l1 IH]; intros l2; [by destruct l2 |].
  induction l2 as [|y l2 IH2]; [done |].
  csimpl. rewrite (decide_ext (Q (f x) (f y)) (R x y)) by apply Hf. case_decide; csimpl; f_equal.
  - apply (IH (y :: l2)).
  - apply IH2.
Qed.

Definition fmap_stack (st : list (option (list A))) : list (option (list B)) := option_map (fmap (M := list) f) <$> st.

Lemma merge_list_to_stack_fmap st l :
  merge_list_to_stack Q (fmap_stack st) (f <$> l) = fmap_stack (merge_list_to_stack R st l).
Proof.
  revert l. induction st as [|[l'|] st IH]; intros l; csimpl; [done | | done].
  f_equal. rewrite list_merge_fmap. apply IH.
Qed.

Lemma merge_stack_fmap st : merge_stack Q (fmap_stack st) = f <$> merge_stack R st.
Proof. induction st as [|[l|] st IH]; csimpl; [done | | done]. by rewrite IH, list_merge_fmap. Qed.

Lemma merge_sort_aux_fmap st l : merge_sort_aux Q (fmap_stack st) (f <$> l) = f <$> merge_sort_aux R st l.
Proof.
  revert st. induction l as [|x l IH]; intros st; csimpl; [apply merge_stack_fmap |].
  rewrite <- IH. f_equal. apply (merge_list_to_stack_fmap st [x]).
Qed.

Lemma merge_sort_fmap l : merge_sort Q (f <$> l) = f <$> merge_sort R l.
Proof. apply (merge_sort_aux_fmap []). Qed.
End sorting.

Lemma canon_dict_sorted d : canon_dict d = (fun kv => (kv.1, canon kv.2)) <$> merge_sort item_le d.
Proof. unfold canon_dict. by apply merge_sort_fmap. Qed.

Lemma canon_dict_keys d : (canon_dict d).*1 ≡ₚ d.*1.
Proof. unfold canon_dict. rewrite merge_sort_Permutation, <- list_fmap_compose. done. Qed.

Lemma dict_get_perm {V} (d d' : list (string * V)) k : NoDup d.*1 -> d ≡ₚ d' -> dict_get k d' = dict_get k d.
Proof.
  intros Hd Hp. destruct (dict_get k d) as [v|] eqn:E.
  - apply dict_get_NoDup; [by rewrite <- Hp | rewrite <- Hp; by apply dict_get_elem].
  - apply dict_get_None. rewrite <- Hp. by apply dict_get_None.
Qed.

Lemma dict_get_canon d k : NoDup d.*1 -> dict_get k (canon_dict d) = canon <$> dict_get k d.
Proof.
  intros Hd. rewrite canon_dict_sorted.
  rewrite <- (dict_get_perm d (merge_sort item_le d)) by (rewrite ?merge_sort_Permutation; done).
  induction (merge_sort item_le d) as [|[k' v] l IH]; csimpl; [done |]. by case_bool_decide.
Qed.

(** ** Strings *)
Lemma scan_escape a c s :
  scan_string (chars (escape_char a c) ++ s) = '(cs, rest) ← scan_string s; Some (c :: cs, rest).
Proof. destruct a, c as [[] [] [] [] [] [] [] []]; reflexivity. Qed.

Lemma scan_json_string a t rest :
  exists body, chars (json_string a t) = quote :: body /\ scan_string (body ++ rest) = Some (chars t, rest).
Proof.
  unfold json_string. exists (chars (foldr (fun c t => escape_char a c +:+ t) dquote (chars t))).
  split; [done |]. induction (chars t) as [|c l IH]; [done |].
  simpl foldr. rewrite chars_app, <- app_assoc, scan_escape, IH. done.
Qed.

(** ** Numbers *)
Lemma pretty_char_digit n : (n < 10)%N -> is_digit (pretty_N_char n) = true /\ N_of_ascii (pretty_N_char n) = (n + 48)%N.
Proof.
  intros Hn. destruct n as [|p]; [done |]. do 4 (destruct p as [p|p|]; try done); exfalso; lia.
Qed.

Lemma digits_value_snoc l c : digits_value (l ++ [c]) = (10 * digits_value l + (N_of_ascii c - 48))%N.
Proof. unfold digits_value. by rewrite foldl_snoc. Qed.

Record decimal (n : N) (ds : list ascii) : Prop := {
  dec_digits : Forall (fun c => is_digit c = true) ds;
  dec_value : digits_value ds = n;
  dec_length : forall k, (n < 10 ^ N.of_nat k)%N -> length ds <= k;
  dec_head : forall c t, ds = c :: t -> c ≠ "0"%char;
}.

Lemma pretty_go n s : exists ds, chars (pretty_N_go n s) = ds ++ chars s /\ decimal n ds /\ (n ≠ 0%N -> ds ≠ []).
Proof.
  revert s. induction (N.lt_wf_0 n) as [n _ IH]. intros s. destruct (base.decide (n = 0%N)) as [->|Hn].
  - exists []. rewrite pretty_N_go_0. by repeat split; try done; simpl; try lia.
  - rewrite pretty_N_go_step by lia.
    pose proof (N.mod_lt n 10 ltac:(done)) as Hm. pose proof (N.div_mod n 10 ltac:(done)) as Hdm.
    destruct (pretty_char_digit (n mod 10)) as [Hc Hv]; [lia |].
    destruct (IH (n / 10)%N) with (s := String.String (pretty_N_char (n mod 10)) s) as (ds & Hds & [D1 D2 D3 D4] & Hnz).
    { apply N.div_lt; lia. }
    exists (ds ++ [pretty_N_char (n mod 10)]). split; [rewrite Hds; by rewrite <- app_assoc |]. split; [|by destruct ds].
    split.
    + apply Forall_app. by split; [|repeat constructor].
    + rewrite digits_value_snoc, D2, Hv, N.add_sub. by symmetry.
    + intros [|k] Hk; [simpl in Hk; lia |]. rewrite length_app. simpl.
      assert (length ds <= k); [|lia]. apply D3.
      replace (N.of_nat (S k)) with (N.succ (N.of_nat k)) in Hk by lia. rewrite N.pow_succ_r' in Hk.
      apply N.Div0.div_lt_upper_bound. lia.
    + intros c t E. destruct ds as [|c' ds]; simpl in E.
      * injection E as <- _. intros Hz. rewrite Hz in Hv. change (N_of_ascii "0"%char) with 48%N in Hv.
        destruct (base.decide (n `div` 10 = 0)%N) as [H0|H0]; [|by apply Hnz in H0].
        rewrite H0 in Hdm. lia.
      * injection E as <- _. by eapply D4.
Qed.

Lemma pretty_N_decimal n : exists c ds,
  chars (pretty n) = c :: ds /\ Forall (fun c => is_digit c = true) (c :: ds) /\ digits_value (c :: ds) = n
  /\ (c = "0"%char -> ds = []) /\ ((n < 10 ^ 19)%N -> length (c :: ds) <= 19).
Proof.
  unfold pretty, pretty_N. case_decide as Hn.
  - exists "0"%char, []. subst n. repeat split; [by repeat constructor | simpl; lia].
  - destruct (pretty_go n "") as (ds & Hds & [D1 D2 D3 D4] & Hnz). rewrite app_nil_r in Hds.
    destruct ds as [|c ds]; [by apply Hnz in Hn |]. exists c, ds. repeat split; [done.. | |].
    + intros ->. by destruct (D4 _ _ eq_refl).
    + apply (D3 19).
Qed.

(** What may follow a number without being read as part of it. *)
Definition ends_number (rest : list ascii) : Prop :=
  match rest with [] => True | c :: _ => is_digit c = false /\ one_of ".eE" c = false end.

Lemma span_digits_app ds rest :
  Forall (fun c => is_digit c = true) ds -> ends_number rest -> span_digits (ds ++ rest) = (ds, rest).
Proof.
  induction 1 as [|c ds Hc _ IH]; intros Hr; simpl.
  - destruct rest as [|c rest]; [done |]. destruct Hr as [Hd _]. simpl. by rewrite Hd.
  - by rewrite Hc, IH.
Qed.

Lemma no_fraction rest : ends_number rest -> scan_fraction rest = ([], rest) /\ scan_exponent rest = ([], rest).
Proof.
  destruct rest as [|c rest]; [done |]. intros [_ Hc]. unfold scan_fraction, scan_exponent.
  destruct (Ascii.eqb_spec c ".") as [->|]; [done |]. split; [done |].
  assert (one_of "eE" c = false) as ->; [|done].
  revert Hc. unfold one_of. rewrite !bool_decide_eq_false. simpl. set_solver.
Qed.

Section reading.
Context `{JsonRuntime}.
Variable hook : dict -> result pyobj.
Variable constant : string -> result pyobj.
Hypothesis Hhook : forall d, NoDup d.*1 -> hook d = Ok (PDict d).

Lemma after_literal_app p rest : after_literal p (chars p ++ rest) = Some rest.
Proof.
  unfold after_literal. rewrite <- length_chars, take_app_length, drop_app_length.
  by rewrite bool_decide_true.
Qed.
Lemma after_literal_ne p c s : head (chars p) ≠ Some c -> p ≠ "" -> after_literal p (c :: s) = None.
Proof.
  intros Hc Hp. unfold after_literal. rewrite bool_decide_false; [done |].
  destruct p as [|d p]; [done |]. simpl. intros [= -> _]. done.
Qed.

Lemma digit_not_letter c p : is_digit c = true -> head (chars p) = Some c ->
  p ∈ ["null"; "true"; "false"; "NaN"; "Infinity"; "-Infinity"] -> False.
Proof.
  intros Hd Hp Hin. repeat (apply elem_of_cons in Hin as [-> | Hin]; [simpl in Hp; by injection Hp as <- |]).
  by apply not_elem_of_nil in Hin.
Qed.

Lemma scan_number_digits neg n rest :
  ends_number rest -> (n <= 2 ^ 63)%N ->
  scan_number ((if neg : bool then ["-"%char] else []) ++ chars (pretty n) ++ rest)
  = Ok (PInt (if neg then - Z.of_N n else Z.of_N n)%Z, rest).
Proof.
  intros Hr Hn. destruct (pretty_N_decimal n) as (c & ds & Hcs & Hd & Hv & Hz & Hl).
  apply Forall_cons in Hd as Hd'. destruct Hd' as [Hc Hds].
  assert (c ≠ "-"%char) as Hminus by (intros ->; done).
  assert ((let '(ds', rest') := if Ascii.eqb c "0" then ([c], ds ++ rest) else span_digits ((c :: ds) ++ rest) in (ds', rest'))
    = (c :: ds, rest)) as Hspan.
  { destruct (Ascii.eqb_spec c "0") as [E|]; [by rewrite (Hz E) |]. by rewrite span_digits_app. }
  rewrite Hcs. unfold scan_number. destruct (no_fraction rest Hr) as [Hf He].
  assert ((INT_MAX_DIGITS <? length (c :: ds))%nat = false) as Hlen.
  { apply Nat.ltb_ge. unfold INT_MAX_DIGITS. enough (length (c :: ds) <= 19) by lia. apply Hl. lia. }
  destruct neg; cbn [app].
  - cbn [Ascii.eqb Bool.eqb]. rewrite Hc. change (c :: ds ++ rest) with ((c :: ds) ++ rest).
    destruct (if Ascii.eqb c "0" then _ else _) as [ds' rest']. injection Hspan as -> ->.
    rewrite Hf, He, bool_decide_true, Hlen, Hv by done. done.
  - destruct (Ascii.eqb_spec c "-") as [|_]; [done |]. rewrite Hc. change (c :: ds ++ rest) with ((c :: ds) ++ rest).
    destruct (if Ascii.eqb c "0" then _ else _) as [ds' rest']. injection Hspan as -> ->.
    rewrite Hf, He, bool_decide_true, Hlen, Hv by done. done.
Qed.

Context `{PyRuntime}.
(** The separators' spaces and whether other characters than ASCII are escaped. *)
Context (sp : string) (a : bool).
Hypothesis Hsp : forall c, c ∈ chars sp -> is_json_space c = true.

Lemma skip_sp s : skip_space (chars sp ++ s) = skip_space s.
Proof.
  induction (chars sp) as [|c l IH]; [done |]. simpl. rewrite Hsp by left. apply IH. intros c' Hc'. apply Hsp. by right.
Qed.

Lemma scan_int z rest : ends_number rest -> (- 2 ^ 63 <= z < 2 ^ 63)%Z ->
  scan_scalar constant (chars (pretty z) ++ rest) = Ok (PInt z, rest).
Proof.
  intros Hr Hz.
  assert (exists neg n, chars (pretty z) = (if neg : bool then ["-"%char] else []) ++ chars (pretty n)
    /\ (n <= 2 ^ 63)%N /\ z = (if neg then - Z.of_N n else Z.of_N n)%Z) as (neg & n & Ht & Hn & ->).
  { destruct z as [|p|p].
    - by exists false, 0%N.
    - exists false, (N.pos p). repeat split. lia.
    - exists true, (N.pos p). repeat split. lia. }
  rewrite Ht, <- app_assoc. destruct (pretty_N_decimal n) as (c & ds & Hcs & [Hc _]%Forall_cons & _).
  rewrite <- (scan_number_digits neg n rest Hr Hn).
  assert (forall p, p ∈ ["null"; "true"; "false"; "NaN"; "Infinity"; "-Infinity"] ->
    after_literal p ((if neg then ["-"%char] else []) ++ chars (pretty n) ++ rest) = None) as Hlit.
  { intros p Hp. rewrite Hcs. destruct neg; cbn [app].
    - repeat (apply elem_of_cons in Hp as [-> | Hp]; [try (by apply after_literal_ne) |]).
      + unfold after_literal. rewrite bool_decide_false; [done |]. simpl. intros [= -> _]. done.
      + by apply not_elem_of_nil in Hp.
    - apply after_literal_ne; [intros E; by eapply digit_not_letter | by intros ->; set_solver]. }
  unfold scan_scalar. by rewrite !Hlit by set_solver.
Qed.

(** ** Texts a reader reads *)
Definition reads (value : list ascii -> result (pyobj * list ascii)) (v : pyobj) : Prop :=
  forall rest, ends_number rest -> value (chars (dumps_sep sp a v) ++ rest) = Ok (canon v, rest).

(** The first character of a value's text ends no array or object and is no space. *)
Definition starts_value (c : ascii) : Prop := is_json_space c = false /\ c ≠ "]"%char /\ c ≠ "}"%char.

Lemma digit_starts c : is_digit c = true -> starts_value c.
Proof.
  intros Hc. split; [|split; by intros ->].
  unfold is_json_space, one_of. apply bool_decide_eq_false. intros Hin. simpl in Hin.
  repeat (apply elem_of_cons in Hin as [-> | Hin]; [done |]). by apply not_elem_of_nil in Hin.
Qed.

Lemma dumps_starts n v : plain n v -> exists c s, chars (dumps_sep sp a v) = c :: s /\ starts_value c.
Proof.
  intros Hv. destruct v as [|[]|z|f|t|l|d].
  1-3: by eexists _, _.
  - destruct z as [|p|p]; [by eexists _, _ | | by eexists _, _].
    destruct (pretty_N_decimal (N.pos p)) as (c & ds & Hcs & [Hc _]%Forall_cons & _).
    exists c, ds. split; [exact Hcs | by apply digit_starts].
  - by destruct n.
  - destruct (scan_json_string a t []) as (body & Hb & _). exists quote, body. by split.
  - simpl. rewrite chars_app. by eexists _, _.
  - simpl. rewrite chars_app. by eexists _, _.
Qed.

Lemma skip_value c s rest : starts_value c -> skip_space ((c :: s) ++ rest) = (c :: s) ++ rest.
Proof. intros [Hc _]. simpl. by rewrite Hc. Qed.

Ltac comma :=
  change (chars ",") with [","%char]; cbn [mbind result_bind app];
  match goal with |- context [skip_space (","%char :: ?t)] =>
    change (skip_space (","%char :: t)) with (","%char :: t) end;
  cbn -[array_items members py_join fmap chars app].

Lemma elements_join n value l fuel rest : l ≠ [] -> length l <= fuel -> Forall (plain n) l -> Forall (reads value) l ->
  array_items value fuel (chars (py_join ("," +:+ sp) (dumps_sep sp a <$> l)) ++ "]"%char :: rest) = Ok (canon <$> l, rest).
Proof.
  revert fuel. induction l as [|v l IH]; intros fuel Hne Hf; [done |].
  intros [Hp Hps]%Forall_cons [Hv Hvs]%Forall_cons. destruct fuel as [|fuel]; [simpl in Hf; lia |].
  destruct l as [|w l].
  - simpl. by rewrite Hv.
  - change (py_join ("," +:+ sp) (dumps_sep sp a <$> v :: w :: l))
      with (dumps_sep sp a v +:+ ("," +:+ sp) +:+ py_join ("," +:+ sp) (dumps_sep sp a <$> w :: l)).
    rewrite !chars_app, <- !app_assoc. cbn [array_items]. rewrite Hv by done. comma.
    assert (forall t, skip_space (chars (py_join ("," +:+ sp) (dumps_sep sp a <$> w :: l)) ++ t)
      = chars (py_join ("," +:+ sp) (dumps_sep sp a <$> w :: l)) ++ t) as Hskip.
    { intros t. apply Forall_cons in Hps as [Hw _]. destruct (dumps_starts n w Hw) as (c & s & Hcs & Hc).
      csimpl. destruct (dumps_sep sp a <$> l); rewrite ?chars_app, Hcs; rewrite <- ?app_assoc; by apply skip_value. }
    rewrite skip_sp, Hskip, IH by (done || simpl in *; lia). done.
Qed.

(** A member's text. *)
Definition member_text (kv : string * pyobj) : string := json_string a kv.1 +:+ (":" +:+ sp) +:+ dumps_sep sp a kv.2.

Lemma member_reads n value kv rest : plain n kv.2 -> reads value kv.2 -> ends_number rest ->
  member value (chars (member_text kv) ++ rest) = Ok ((kv.1, canon kv.2), rest).
Proof.
  intros Hp Hv Hr. unfold member_text. destruct (scan_json_string a kv.1
    (chars ":" ++ chars sp ++ chars (dumps_sep sp a kv.2) ++ rest)) as (body & Hb & Hscan).
  rewrite !chars_app, Hb, <- !app_assoc. cbn [member app]. rewrite Hscan.
  change (chars ":") with [":"%char]. cbn [app].
  match goal with |- context [skip_space (":"%char :: ?t)] =>
    change (skip_space (":"%char :: t)) with (":"%char :: t) end.
  destruct (dumps_starts n _ Hp) as (c & s & Hcs & Hc). rewrite skip_sp, Hcs, skip_value, <- Hcs by done.
  cbn -[chars dumps_sep app]. rewrite Hv by done. cbn. by rewrite of_chars_chars.
Qed.

Lemma members_join n value d fuel rest : d ≠ [] -> length d <= fuel ->
  Forall (fun kv => plain n kv.2) d -> Forall (fun kv => reads value kv.2) d ->
  members value fuel (chars (py_join ("," +:+ sp) (member_text <$> d)) ++ "}"%char :: rest)
  = Ok ((fun kv => (kv.1, canon kv.2)) <$> d, rest).
Proof.
  revert fuel. induction d as [|v d IH]; intros fuel Hne Hf; [done |].
  intros [Hp Hps]%Forall_cons [Hv Hvs]%Forall_cons. destruct fuel as [|fuel]; [simpl in Hf; lia |].
  destruct d as [|w d].
  - change (py_join ("," +:+ sp) (member_text <$> [v])) with (member_text v). cbn [members].
    by rewrite (member_reads n) by done.
  - change (py_join ("," +:+ sp) (member_text <$> v :: w :: d))
      with (member_text v +:+ ("," +:+ sp) +:+ py_join ("," +:+ sp) (member_text <$> w :: d)).
    rewrite !chars_app, <- !app_assoc. cbn [members]. rewrite (member_reads n) by done. comma.
    assert (forall t, skip_space (chars (py_join ("," +:+ sp) (member_text <$> w :: d)) ++ t)
      = chars (py_join ("," +:+ sp) (member_text <$> w :: d)) ++ t) as Hskip.
    { intros t. destruct (scan_json_string a w.1 []) as (body & Hb & _).
      assert (exists s, chars (member_text w) = quote :: s) as [s Hs].
      { unfold member_text. rewrite chars_app, Hb. by eexists. }
      csimpl. destruct (member_text <$> d); rewrite ?chars_app, Hs; done. }
    rewrite skip_sp, Hskip, IH by (done || simpl in *; lia). done.
Qed.

Lemma join_length (texts : list string) : Forall (fun t => chars t ≠ []) texts ->
  length texts <= length (chars (py_join ("," +:+ sp) texts)).
Proof.
  induction 1 as [|t l Ht Hl IH]; simpl; [lia |].
  assert (1 <= length (chars t)) by (destruct (chars t); [done | simpl; lia]).
  destruct l as [|u l]; [simpl; lia |]. rewrite !chars_app, !length_app. simpl in *. lia.
Qed.

Lemma dumps_dict d : dumps_sep sp a (PDict d) = "{" +:+ py_join ("," +:+ sp) (member_text <$> merge_sort item_le d) +:+ "}".
Proof.
  simpl. erewrite (merge_sort_fmap (fun kv : string * pyobj => (kv.1, dumps_sep sp a kv.2)) item_le key_le)
    by done. by rewrite <- list_fmap_compose.
Qed.

(** Reading a value's text, whatever follows, gives its canonical form. *)
Lemma scan_dumps n v : plain n v -> reads (scan hook constant n) v.
Proof.
  revert v. induction n as [n IH] using lt_wf_ind. intros v Hv rest Hr.
  destruct v as [|b|z|f|t|l|d].
  - by destruct n.
  - by destruct n, b.
  - assert (exists c s, chars (pretty z) = c :: s /\ c ≠ quote /\ c ≠ "["%char /\ c ≠ "{"%char) as (c & s & Hcs & H1 & H2 & H3).
    { destruct z as [|p|p]; [by eexists _, _ | | by eexists _, _].
      destruct (pretty_N_decimal (N.pos p)) as (c & ds & Hcs & [Hc _]%Forall_cons & _).
      exists c, ds. repeat split; [exact Hcs | by intros ->..]. }
    change (dumps_sep sp a (PInt z)) with (pretty z). pose proof (scan_int z rest Hr) as Hint. rewrite Hcs in *.
    destruct n; cbn [scan app]; rewrite !(proj2 (Ascii.eqb_neq _ _)) by done; apply Hint; by destruct Hv.
  - by destruct n.
  - destruct (scan_json_string a t rest) as (body & Hb & Hscan). simpl dumps_sep. rewrite Hb.
    destruct n; simpl; rewrite Hscan; by rewrite of_chars_chars.
  - destruct n as [|n]; [done |]. simpl in Hv. change (dumps_sep sp a (PList l)) with ("[" +:+ py_join ("," +:+ sp) (dumps_sep sp a <$> l) +:+ "]").
    rewrite !chars_app, <- !app_assoc. destruct l as [|v l]; [done |].
    pose proof (elements_join n (scan hook constant n) (v :: l)
      (length (chars (py_join ("," +:+ sp) (dumps_sep sp a <$> v :: l)) ++ "]"%char :: rest)) rest) as He.
    apply Forall_cons in Hv as Hv'. destruct Hv' as [Hv' _]. destruct (dumps_starts n v Hv') as (c & s & Hcs & Hc & H1 & H2).
    assert (exists s', chars (py_join ("," +:+ sp) (dumps_sep sp a <$> v :: l)) = c :: s') as [s' Hs'].
    { csimpl. destruct (dumps_sep sp a <$> l); rewrite ?chars_app, Hcs; by eexists. }
    cbn [String.list_ascii_of_string app] in *. cbn [scan Ascii.eqb Bool.eqb]. rewrite Hs' in *. cbn [app skip_space] in *.
    rewrite Hc, (proj2 (Ascii.eqb_neq _ _)) by done. rewrite He; [done | done | | done |].
    + pose proof (join_length (dumps_sep sp a <$> v :: l)) as Hlen. rewrite Hs', length_fmap in Hlen.
      change (c :: s' ++ "]"%char :: rest) with ((c :: s') ++ "]"%char :: rest). rewrite length_app.
      enough (length (v :: l) <= length (c :: s')) by lia. apply Hlen.
      apply Forall_fmap. eapply Forall_impl; [exact Hv |]. intros x Hx. unfold compose.
      destruct (dumps_starts n x Hx) as (? & ? & -> & _). done.
    + eapply Forall_impl; [exact Hv |]. intros x Hx. apply IH; [lia | done].
  - destruct n as [|n]; [done |]. simpl in Hv. destruct Hv as [Hnd Hv]. rewrite dumps_dict.
    rewrite !chars_app, <- !app_assoc. change (canon (PDict d)) with (PDict (canon_dict d)).
    assert (NoDup (canon_dict d).*1) as Hc by (by rewrite canon_dict_keys).
    rewrite canon_dict_sorted in *. pose proof (merge_sort_Permutation item_le d) as Hperm.
    rewrite <- Hperm in Hv. revert Hv Hc. clear Hnd Hperm. generalize (merge_sort item_le d). clear d. intros d Hv Hc.
    destruct d as [|kv d]; [cbn; by rewrite (Hhook []) by constructor |].
    pose proof (members_join n (scan hook constant n) (kv :: d)
      (length (chars (py_join ("," +:+ sp) (member_text <$> kv :: d)) ++ "}"%char :: rest)) rest) as He.
    assert (exists s', chars (py_join ("," +:+ sp) (member_text <$> kv :: d)) = quote :: s') as [s' Hs'].
    { destruct (scan_json_string a kv.1 []) as (body & Hb & _). csimpl.
      destruct (member_text <$> d); unfold member_text; rewrite ?chars_app, Hb; by eexists. }
    cbn [String.list_ascii_of_string app] in *. cbn [scan Ascii.eqb Bool.eqb]. rewrite Hs' in *. cbn [app skip_space] in *.
    cbn [is_json_space]. change (is_json_space quote) with false. cbn [Ascii.eqb Bool.eqb].
    rewrite He; [| done | | done |].
    + cbn. by rewrite Hhook.
    + pose proof (join_length (member_text <$> kv :: d)) as Hlen. rewrite Hs', length_fmap in Hlen.
      change (quote :: s' ++ "}"%char :: rest) with ((quote :: s') ++ "}"%char :: rest). rewrite length_app.
      enough (length (kv :: d) <= length (quote :: s')) by lia. apply Hlen.
      apply Forall_fmap, Forall_true. intros x. unfold compose, member_text.
      destruct (scan_json_string a x.1 []) as (body & Hb & _). by rewrite chars_app, Hb.
    + eapply Forall_impl; [exact Hv |]. intros x Hx. apply IH; [lia | done].
Qed.

Lemma loads_dumps v : plain json_depth v -> loads hook constant (dumps_sep sp a v) = Ok (canon v).
Proof.
  intros Hv. unfold loads. destruct (dumps_starts _ _ Hv) as (c & s & Hcs & Hc).
  pose proof (skip_value c s [] Hc) as Hskip. rewrite app_nil_r in Hskip.
  rewrite Hcs, Hskip, <- Hcs, <- (app_nil_r (chars _)), scan_dumps by done. done.
Qed.
End reading.

(** [separators=(",", ":"), ensure_ascii=False] and the defaults *)
Section styles.
Context `{JsonRuntime, PyRuntime}.
Variable hook : dict -> result pyobj.
Variable constant : string -> result pyobj.
Hypothesis Hhook : forall d, NoDup d.*1 -> hook d = Ok (PDict d).

Lemma loads_compact v : plain json_depth v -> loads hook constant (dumps false v) = Ok (canon v).
Proof. apply loads_dumps; [done |]. by intros c ?%not_elem_of_nil. Qed.
Lemma loads_spaced v : plain json_depth v -> loads hook constant (dumps_sep " " true v) = Ok (canon v).
Proof. apply loads_dumps; [done |]. by intros c ->%list_elem_of_singleton. Qed.
End styles.
