(* ===== verification/LogicalJat.v ===== *)
(** * Logical descriptors ([src/josh_room/logical_jat.py])

    A recovery point's descriptor: the validator with every check in the order of the
    code, the canonical JSON it is stored as, and reading it back. *)

From S2P Require Import Prelude PyStr PyObj PyDatetime PyJson.
From Stdlib Require Import Ascii.

Definition MAX_LOGICAL_JAT_BYTES : Z := 65536.

(** ** Patterns *)
Definition is_id_char (c : ascii) : bool := is_alnum c || one_of "._-" c.
Definition _ID : re := RCat (RCls is_alnum) (upto 127 (RCls is_id_char)).
Definition _SHA256 : re := exactly 64 (RCls is_hex).
Definition digits (n : nat) : re := exactly n (RCls is_digit).
Definition seq_re (rs : list re) : re := foldr RCat REps rs.
Definition _RFC3339 : re :=
  seq_re [digits 4; lit "-"; digits 2; lit "-"; digits 2; lit "T"; digits 2; lit ":"; digits 2; lit ":"; digits 2;
          opt (RCat (lit ".") (between 1 9 (RCls is_digit)));
          RAlt (lit "Z") (seq_re [RCls (one_of "+-"); digits 2; lit ":"; digits 2])].
Definition VERSION_RE : re := RCat (RCls is_alnum) (RStar (RCls (fun c => is_id_char c || Ascii.eqb c "+"))).
Definition DIGEST_RE : re := RCat (lit "sha256:") _SHA256.
Definition ROBOT_PATH_RE : re := plus (RCls (fun c => is_id_char c || Ascii.eqb c "/")).
Definition media_part : re :=
  RCat (RCls (fun c => is_lower c || is_digit c))
    (upto 63 (RCls (fun c => is_lower c || is_digit c || one_of "!#$&^_.+-" c))).
Definition MEDIA_RE : re := seq_re [media_part; lit "/"; media_part].
Definition GIT_RE : re := RAlt (exactly 40 (RCls is_hex)) (exactly 64 (RCls is_hex)).

(** ** Field names *)
Definition _TOP_LEVEL : list string :=
  ["format_version"; "payload_kind"; "logical_jat_id"; "dimension_id"; "encryption_domain_id"; "room_id"; "created_at";
   "parent_logical_jat_id"; "origin_room_id"; "capture_policy_sha256"; "capture_mode"; "workspace"; "components";
   "source"; "producer"].
Definition OPTIONAL_TOP : list string := ["parent_logical_jat_id"; "origin_room_id"; "capture_mode"].
Definition _WORKSPACE : list string :=
  ["engine"; "repository_id"; "repository_format"; "snapshot_id"; "tree_id"; "parent_snapshot_id"; "source_path";
   "logical_bytes"; "data_added"; "data_added_packed"].
Definition _COMPONENTS : list string := ["rcc_environment"; "homebrew_recovery"; "hauler_content"].
(** [a - b] for sets of names *)
Definition without (a b : list string) : list string := filter (fun k => k ∉ b) a.

(** ** Checks of one value *)
Section checks.

Definition invalid (name : string) : exn := EValue ("logical JAT " +:+ name +:+ " is invalid").
Definition least (l : list string) : string := default "" (head (merge_sort String.le l)).

Definition _object (value : pyobj) (name : string) (required optional : list string) : result dict :=
  match value with
  | PDict d =>
      let unknown := without d.*1 (required ++ optional) in
      raise_if (negb (bool_decide (unknown = [])))
        (EValue ("unknown logical JAT " +:+ name +:+ " field: " +:+ least unknown)) ;;
      let missing := without required d.*1 in
      raise_if (negb (bool_decide (missing = [])))
        (EValue ("missing logical JAT " +:+ name +:+ " field: " +:+ least missing)) ;;
      Ok d
  | _ => Raise (EType ("logical JAT " +:+ name +:+ " must be an object"))
  end.

(** A string that a pattern matches. *)
Definition _matches (r : re) (name : string) (value : pyobj) : result unit :=
  match value with PStr s => raise_if (negb (fullmatch r s)) (invalid name) | _ => Raise (invalid name) end.

Definition _id (value : pyobj) (name : string) : result unit := _matches _ID name value.
Definition _sha256 (value : pyobj) (name : string) : result unit := _matches _SHA256 name value.

Definition max_int63 : Z := 2 ^ 63 - 1.
Definition _integer (value : pyobj) (name : string) (minimum maximum : Z) : result unit :=
  let bad := EValue ("logical JAT " +:+ name +:+ " must be an integer in range") in
  match value with
  | PInt z => raise_if (negb ((minimum <=? z) && (z <=? maximum))%Z) bad
  | _ => Raise bad
  end.

Definition _version (value : pyobj) (name : string) : result unit :=
  match value with
  | PStr s => raise_if (String.eqb s "" || (64 <? py_len s)%nat || negb (fullmatch VERSION_RE s)) (invalid name)
  | _ => Raise (invalid name)
  end.

Definition _content_digest (value : pyobj) (name : string) : result unit := _matches DIGEST_RE name value.

(** [if value != expected: raise] *)
Definition _equals (expected : string) (e : exn) (value : pyobj) : result unit :=
  raise_if (negb (py_eq value (PStr expected))) e.

(** [if value not in choices: raise] *)
Definition _member (choices : list string) (e : exn) (value : pyobj) : result unit :=
  raise_if (negb (hashable value)) (EType "unhashable type") ;;
  raise_if (negb (is_str_in choices value)) e.

(** [check(d[k])], and the same when the key is there. *)
Definition field (k : string) (d : dict) (check : pyobj -> result unit) : result unit :=
  v ← get_item k d; check v.
Definition optional_field (k : string) (d : dict) (check : pyobj -> result unit) : result unit :=
  match dict_get k d with Some v => check v | None => Ok tt end.

(** ** Components *)
Definition of_component (name what : string) : string := "component " +:+ name +:+ " " +:+ what.

Definition _archive (value : dict) (name member_basename : string) : result unit :=
  field "archive_sha256" value (fun v => _sha256 v (of_component name "archive digest")) ;;
  field "archive_size" value (fun v => _integer v (of_component name "archive size") 1 max_int63) ;;
  field "member_basename" value (_equals member_basename (invalid (of_component name "member basename"))).

(** A relative path without empty, [.] or [..] parts. *)
Definition robot_path (name : string) (value : pyobj) : result unit :=
  let bad := invalid (of_component name "robot relative path") in
  match value with
  | PStr s =>
      raise_if ((256 <? py_len s)%nat || startswith "/" s || str_any (Ascii.eqb "092") s
                || existsb (fun p => bool_decide (p ∈ [""; "."; ".."])) (py_split "/" s)
                || negb (fullmatch ROBOT_PATH_RE s)) bad
  | _ => Raise bad
  end.

Definition kind_is (name kind : string) (component : dict) : result unit :=
  field "kind" component (_equals kind (EValue ("logical JAT component " +:+ name +:+ " kind mismatch"))).

Definition ARCHIVE_FIELDS : list string := ["kind"; "snapshot"; "archive_sha256"; "archive_size"; "member_basename"].

Definition rcc_component (value : pyobj) (name : string) : result dict :=
  component ← _object value ("component " +:+ name)
    (ARCHIVE_FIELDS ++ ["artifact_digest"; "specification_digest"; "platform"; "rcc_version"; "robot_relative_path"])
    ["source_input_sha256"];
  kind_is name "rcca" component ;;
  _archive component name "rcc-environment.rcca" ;;
  optional_field "source_input_sha256" component (fun v => _sha256 v (of_component name "source input digest")) ;;
  field "artifact_digest" component (fun v => _content_digest v (of_component name "artifact digest")) ;;
  field "specification_digest" component (fun v => _content_digest v (of_component name "specification digest")) ;;
  field "platform" component (fun v => _id v (of_component name "platform")) ;;
  field "rcc_version" component (fun v => _version v (of_component name "RCC version")) ;;
  field "robot_relative_path" component (robot_path name) ;;
  Ok component.

Definition homebrew_component (value : pyobj) (name : string) : result dict :=
  component ← _object value ("component " +:+ name) ARCHIVE_FIELDS [];
  kind_is name "homebrew-recovery" component ;;
  _archive component name "homebrew-recovery.tar.zst" ;;
  Ok component.

Definition REFERENCE_OPTIONAL : list string := ["kind"; "media_type"; "reference_sha256"; "platform_sha256"].
Definition get_str (k : string) (d : dict) : option string := dict_get k d ≫= as_str.

(** The checks of one Hauler reference, and its identity among the references. *)
Definition reference_fields (reference_value : pyobj) : result dict :=
  reference ← _object reference_value "Hauler reference" ["digest"] REFERENCE_OPTIONAL;
  field "digest" reference (fun v => _content_digest v "Hauler reference digest") ;;
  optional_field "media_type" reference (_matches MEDIA_RE "Hauler reference media type") ;;
  optional_field "kind" reference (_member ["image"; "chart"; "file"] (invalid "Hauler reference kind")) ;;
  raise_if (negb (has_key "kind" reference) && negb (has_key "media_type" reference))
    (EValue "logical JAT Hauler reference needs kind or media type") ;;
  optional_field "reference_sha256" reference (fun v => _sha256 v "logical JAT Hauler reference_sha256") ;;
  optional_field "platform_sha256" reference (fun v => _sha256 v "logical JAT Hauler platform_sha256") ;;
  Ok reference.
Definition reference_key (reference : dict) : list (option string) :=
  (fun k => get_str k reference) <$> ["digest"; "kind"; "media_type"; "reference_sha256"; "platform_sha256"].
Fixpoint hauler_references (seen : list (list (option string))) (references : list pyobj) : result unit :=
  match references with
  | [] => Ok tt
  | v :: references =>
      reference ← reference_fields v;
      raise_if (bool_decide (reference_key reference ∈ seen)) (EValue "logical JAT Hauler references must be unique") ;;
      hauler_references (reference_key reference :: seen) references
  end.
Definition reference_list (value : pyobj) : result unit :=
  let bad := EValue "logical JAT Hauler references are invalid" in
  match value with
  | PList l =>
      raise_if (negb ((1 <=? Z.of_nat (length l)) && (Z.of_nat (length l) <=? 4096))%Z) bad ;;
      hauler_references [] l
  | _ => Raise bad
  end.

Definition hauler_component (value : pyobj) (name : string) : result dict :=
  component ← _object value ("component " +:+ name) (ARCHIVE_FIELDS ++ ["references"])
    ["source_input_sha256"; "hauler_version"];
  kind_is name "hauler-content" component ;;
  _archive component name "hauler-content.tar.zst" ;;
  optional_field "source_input_sha256" component (fun v => _sha256 v (of_component name "source input digest")) ;;
  optional_field "hauler_version" component (fun v => _version v (of_component name "Hauler version")) ;;
  field "references" component reference_list ;;
  Ok component.

(** The snapshot of a component, bound to the workspace's repository. *)
Definition SNAPSHOT_FIELDS : list string := ["repository_id"; "repository_format"; "snapshot_id"; "tree_id"].
Definition component_snapshot (name : string) (workspace : dict) (value : pyobj) : result unit :=
  snapshot ← _object value (of_component name "snapshot") SNAPSHOT_FIELDS [];
  field "repository_id" snapshot (fun v => _sha256 v (of_component name "repository id")) ;;
  field "repository_format" snapshot (fun v => _integer v (of_component name "repository format") 2 2) ;;
  field "snapshot_id" snapshot (fun v => _sha256 v (of_component name "snapshot id")) ;;
  field "tree_id" snapshot (fun v => _sha256 v (of_component name "tree id")) ;;
  id ← get_item "repository_id" snapshot; workspace_id ← get_item "repository_id" workspace;
  format ← get_item "repository_format" snapshot; workspace_format ← get_item "repository_format" workspace;
  raise_if (negb (py_eq id workspace_id) || negb (py_eq format workspace_format))
    (EValue ("logical JAT component " +:+ name +:+ " repository binding mismatch")).

Definition _validate_component (value : pyobj) (name : string) (workspace : dict) : result unit :=
  if is_none value then Ok tt
  else
    component ← (if String.eqb name "rcc_environment" then rcc_component value name
                 else if String.eqb name "homebrew_recovery" then homebrew_component value name
                 else hauler_component value name);
    field "snapshot" component (component_snapshot name workspace).

(** ** The descriptor *)
Definition created_at (value : pyobj) : result unit :=
  let bad := EValue "logical JAT created_at must be RFC3339" in
  match value with
  | PStr s => raise_if (negb (fullmatch _RFC3339 s)) bad ;; raise_if (negb (fromisoformat s)) bad
  | _ => Raise bad
  end.

Definition _workspace (value : pyobj) : result dict :=
  workspace ← _object value "workspace" (without _WORKSPACE ["parent_snapshot_id"]) ["parent_snapshot_id"];
  field "engine" workspace (_equals "restic" (EValue "unsupported logical JAT workspace engine")) ;;
  field "repository_id" workspace (fun v => _sha256 v "workspace repository id") ;;
  field "repository_format" workspace (fun v => _integer v "workspace repository format" 2 2) ;;
  field "snapshot_id" workspace (fun v => _sha256 v "workspace snapshot id") ;;
  field "tree_id" workspace (fun v => _sha256 v "workspace tree id") ;;
  optional_field "parent_snapshot_id" workspace (fun v => _sha256 v "workspace parent snapshot id") ;;
  field "source_path" workspace (_equals "." (EValue "logical JAT workspace source path must be the relative root")) ;;
  for_each (fun name => field name workspace (fun v => _integer v ("workspace " +:+ name) 0 max_int63))
    ["logical_bytes"; "data_added"; "data_added_packed"] ;;
  Ok workspace.

Definition boolean (value : pyobj) : result unit :=
  match value with PBool _ => Ok tt | _ => Raise (EValue "logical JAT source dirty marker must be a boolean") end.
Definition _source (value : pyobj) : result unit :=
  source ← _object value "source" [] ["git_commit"; "dirty"];
  optional_field "git_commit" source (_matches GIT_RE "source git commit") ;;
  optional_field "dirty" source boolean.

Definition supported_platforms : list string := ["linux-x64"; "win32-x64"].
(** A non-empty list of distinct supported platforms with the source platform. *)
Definition restore_platforms (source_platform : pyobj) (value : pyobj) : result unit :=
  let bad := EValue "logical JAT restore platforms are invalid" in
  match value with
  | PList l =>
      raise_if (bool_decide (l = []) || existsb (fun p => negb (is_str_in supported_platforms p)) l
                || negb (bool_decide (NoDup (as_str <$> l)))
                || negb (existsb (py_eq source_platform) l)) bad
  | _ => Raise bad
  end.
Definition _producer (value : pyobj) : result unit :=
  producer ← _object value "producer" ["josh_room_version"; "restic_version"; "source_platform"; "restore_platforms"] [];
  field "josh_room_version" producer (fun v => _version v "Josh Room version") ;;
  field "restic_version" producer (fun v => _version v "restic version") ;;
  platform ← get_item "source_platform" producer;
  raise_if (negb (is_str_in supported_platforms platform)) (invalid "source platform") ;;
  field "restore_platforms" producer (restore_platforms platform).

Definition _identity (descriptor : dict) : result unit :=
  for_each (fun name => field name descriptor (fun v => _id v name))
    ["logical_jat_id"; "dimension_id"; "encryption_domain_id"; "room_id"] ;;
  optional_field "origin_room_id" descriptor (fun origin =>
    _id origin "origin room id" ;;
    room ← get_item "room_id" descriptor;
    raise_if (py_eq origin room) (EValue "logical JAT origin room must differ from the copied Room")) ;;
  optional_field "parent_logical_jat_id" descriptor (fun v => _id v "parent logical JAT id").

Definition _validate (body : pyobj) : result dict :=
  descriptor ← _object body "descriptor" (without _TOP_LEVEL OPTIONAL_TOP) OPTIONAL_TOP;
  _member ["full-repository"; "source-only"] (EValue "unsupported workspace capture mode")
    (default (PStr "full-repository") (dict_get "capture_mode" descriptor)) ;;
  field "format_version" descriptor (fun v => _integer v "format version" 1 1) ;;
  field "payload_kind" descriptor (_equals "room-store-v1" (EValue "unsupported logical JAT payload kind")) ;;
  _identity descriptor ;;
  field "created_at" descriptor created_at ;;
  field "capture_policy_sha256" descriptor (fun v => _sha256 v "capture policy digest") ;;
  value ← get_item "workspace" descriptor;
  workspace ← _workspace value;
  value ← get_item "components" descriptor;
  components ← _object value "components" _COMPONENTS [];
  for_each (fun name => field name components (fun v => _validate_component v name workspace)) _COMPONENTS ;;
  field "source" descriptor _source ;;
  field "producer" descriptor _producer ;;
  Ok descriptor.
End checks.

(** ** Storage *)
Record LogicalJat := { _canonical_json : string; jat_sha256 : string }.

(** The argument of [from_json]. *)
Inductive json_source := SrcBytes (b : list ascii) | SrcStr (s : string) | SrcOther.

(** Decoding UTF-8; a code point above 255 is read as 255 (see [code_char]). *)
Definition is_tail (c : ascii) : bool := (128 <=? N_of_ascii c)%N && (N_of_ascii c <? 192)%N.
Fixpoint utf8_decode (b : list ascii) : option (list ascii) :=
  match b with
  | [] => Some []
  | c :: b1 =>
      let n := N_of_ascii c in
      if (n <? 128)%N then cons c <$> utf8_decode b1
      else match b1 with
      | t1 :: b2 =>
          let n1 := N_of_ascii t1 in
          if negb (is_tail t1) then None
          else if (194 <=? n)%N && (n <? 224)%N then
            cons (code_char ((n - 192) * 64 + (n1 - 128))) <$> utf8_decode b2
          else match b2 with
          | t2 :: b3 =>
              if negb (is_tail t2) then None
              else if (224 <=? n)%N && (n <? 240)%N then
                if ((n =? 224) && (n1 <? 160) || (n =? 237) && (160 <=? n1))%N then None
                else cons (code_char 256) <$> utf8_decode b3
              else match b3 with
              | t3 :: b4 =>
                  if negb (is_tail t3) then None
                  else if (240 <=? n)%N && (n <? 245)%N then
                    if ((n =? 240) && (n1 <? 144) || (n =? 244) && (144 <=? n1))%N then None
                    else cons (code_char 256) <$> utf8_decode b4
                  else None
              | [] => None
              end
          | [] => None
          end
      | [] => None
      end
  end.

(** The dictionary of the pairs, which are inserted one by one. *)
Fixpoint insert_new (built pairs : dict) : result dict :=
  match pairs with
  | [] => Ok built
  | (key, value) :: pairs =>
      raise_if (has_key key built) (EValue ("duplicate JSON key: " +:+ key)) ;; insert_new (dict_set key value built) pairs
  end.
Definition _reject_duplicate_keys (pairs : dict) : result pyobj := PDict <$> insert_new [] pairs.
Definition _reject_non_json_constant (value : string) : result pyobj :=
  Raise (EValue ("invalid JSON number: " +:+ value)).

Section storage.
Context `{PyRuntime, JsonRuntime}.

Definition too_large (size : nat) : result unit :=
  raise_if (MAX_LOGICAL_JAT_BYTES <? Z.of_nat size)%Z (EValue "logical JAT descriptor exceeds the 65536-byte size limit").

Definition from_dict (body : pyobj) : result LogicalJat :=
  descriptor ← _validate body;
  let canonical := dumps false (PDict descriptor) in
  let encoded := utf8_bytes canonical in
  too_large (length encoded) ;;
  Ok {| _canonical_json := canonical; jat_sha256 := sha256 (of_chars encoded) |}.

(** [except (json.JSONDecodeError, RecursionError)] *)
Definition is_decode_error (e : exn) : bool := bool_decide (e = bad_json \/ e = ERecursion).

Definition from_json (value : json_source) : result LogicalJat :=
  text ← match value with
         | SrcBytes b =>
             too_large (length b) ;;
             match utf8_decode b with
             | Some cs => Ok (of_chars cs)
             | None => Raise (EValue "logical JAT descriptor must be UTF-8 JSON")
             end
         | SrcStr s => too_large (length (utf8_bytes s)) ;; Ok s
         | SrcOther => Raise (EType "logical JAT descriptor JSON must be str or bytes")
         end;
  body ← reraise is_decode_error (EValue "logical JAT descriptor is invalid JSON")
           (loads _reject_duplicate_keys _reject_non_json_constant text);
  from_dict body.

Definition to_json (jat : LogicalJat) : string := _canonical_json jat.
Definition to_dict (jat : LogicalJat) : result pyobj := loads dict_hook float_constant (_canonical_json jat).
End storage.
