(* ===== verification/LogicalJatProps.v ===== *)
(** * Canonical descriptors

    Validation does not depend on the order of an object's keys and admits only values
    JSON text represents exactly, so an accepted descriptor can be read back. *)

From S2P Require Import Prelude PyStr PyObj PyDatetime PyJson JsonProps LogicalJat.
From Stdlib Require Import Ascii.

(** Every object in the value has distinct keys, as Python dictionaries do. *)
Fixpoint distinct (v : pyobj) : Prop :=
  match v with
  | PList l => foldr (fun P Q => P /\ Q) True (distinct <$> l)
  | PDict d => NoDup d.*1 /\ foldr (fun P Q => P /\ Q) True ((fun kv => distinct kv.2) <$> d)
  | _ => True
  end.

Lemma foldr_and {A} (P : A -> Prop) l : foldr (fun P Q => P /\ Q) True (P <$> l) <-> Forall P l.
Proof. induction l as [|x l IH]; csimpl; [split; [constructor | done] |]. by rewrite Forall_cons, IH. Qed.

Lemma distinct_get d k v : distinct (PDict d) -> dict_get k d = Some v -> distinct v.
Proof.
  simpl. intros [_ Hd] Hk%dict_get_elem. apply (foldr_and (fun kv => distinct kv.2)) in Hd.
  rewrite Forall_forall in Hd. by apply (Hd (k, v)).
Qed.
Lemma distinct_keys d : distinct (PDict d) -> NoDup d.*1.
Proof. by intros [? _]. Qed.

(** ** Checks and the order of keys *)

(** A check that only looks at leaves, and accepts only them. *)
Class LeafCheck (check : pyobj -> result unit) : Prop := {
  leaf_canon v : check (canon v) = check v;
  leaf_plain v n : check v = Ok tt -> plain n v;
}.

Ltac leaf_check := constructor;
  [ by intros [] | intros [] [] ?; simpl in *; try done; inv_ok; bools; repeat split; done || lia ].

#[export] Instance matches_leaf r name : LeafCheck (_matches r name).
Proof. leaf_check. Qed.
#[export] Instance id_leaf name : LeafCheck (fun v => _id v name).
Proof. apply matches_leaf. Qed.
#[export] Instance sha256_leaf name : LeafCheck (fun v => _sha256 v name).
Proof. apply matches_leaf. Qed.
#[export] Instance digest_leaf name : LeafCheck (fun v => _content_digest v name).
Proof. apply matches_leaf. Qed.
#[export] Instance version_leaf name : LeafCheck (fun v => _version v name).
Proof. leaf_check. Qed.
#[export] Instance created_leaf : LeafCheck created_at.
Proof. leaf_check. Qed.
#[export] Instance robot_leaf name : LeafCheck (robot_path name).
Proof. leaf_check. Qed.
#[export] Instance boolean_leaf : LeafCheck boolean.
Proof. leaf_check. Qed.
#[export] Instance equals_leaf s e : LeafCheck (_equals s e).
Proof. constructor; [by intros [] | by intros [] [] ?; simpl in *; inv_ok]. Qed.
#[export] Instance member_leaf l e : LeafCheck (_member l e).
Proof. constructor; [by intros [] | by intros [] [] ?; simpl in *; inv_ok]. Qed.

Lemma integer_leaf name lo hi : (- 2 ^ 63 <= lo)%Z -> (hi < 2 ^ 63)%Z -> LeafCheck (fun v => _integer v name lo hi).
Proof.
  intros Hlo Hhi. constructor; [by intros [] |]. intros v n Hv. destruct v; try done.
  simpl in Hv. inv_ok. bools. destruct n; simpl; lia.
Qed.
#[export] Hint Extern 1 (LeafCheck (fun v => _integer v _ _ _)) => (apply integer_leaf; unfold max_int63; lia) : typeclass_instances.

Lemma get_item_canon d k : NoDup d.*1 -> get_item k (canon_dict d) = canon <$> get_item k d.
Proof. intros Hd. unfold get_item. rewrite dict_get_canon by done. by destruct (dict_get k d). Qed.

Lemma field_canon k d check : NoDup d.*1 -> LeafCheck check -> field k (canon_dict d) check = field k d check.
Proof.
  intros Hd [Hc _]. unfold field. rewrite get_item_canon by done. destruct (get_item k d); simpl; [apply Hc | done].
Qed.
Lemma optional_field_canon k d check : NoDup d.*1 -> LeafCheck check ->
  optional_field k (canon_dict d) check = optional_field k d check.
Proof.
  intros Hd [Hc _]. unfold optional_field. rewrite dict_get_canon by done. destruct (dict_get k d); simpl; [apply Hc | done].
Qed.

Lemma without_nil a b : without a b = [] <-> forall k, k ∈ a -> k ∈ b.
Proof.
  unfold without. split.
  - intros H k Hk. destruct (base.decide (k ∈ b)) as [|Hn]; [done |]. by destruct (filter_nil_not_elem_of _ _ _ H Hn).
  - intros H. destruct (filter _ a) as [|k l] eqn:E; [done |].
    assert (k ∈ k :: l) as Hk by left. rewrite <- E in Hk. apply list_elem_of_filter in Hk as [Hn Ha]. destruct (Hn (H k Ha)).
Qed.

Lemma object_inv v name required optional d : _object v name required optional = Ok d ->
  v = PDict d /\ (forall k, k ∈ d.*1 -> k ∈ required ++ optional) /\ (forall k, k ∈ required -> is_Some (dict_get k d)).
Proof.
  destruct v; try done. simpl. intros H. inv_result. bools. split; [done |]. split.
  - by apply without_nil.
  - intros k Hk. apply has_key_spec. apply bool_decide_eq_true. rewrite without_nil in *. auto.
Qed.
Lemma object_canon d name required optional : _object (PDict d) name required optional = Ok d ->
  _object (canon (PDict d)) name required optional = Ok (canon_dict d).
Proof.
  intros (_ & Hw & Hr)%object_inv. change (canon (PDict d)) with (PDict (canon_dict d)). simpl.
  rewrite (bool_decide_true (without (canon_dict d).*1 _ = [])), bool_decide_true; [done | |]; apply without_nil.
  - intros k Hk. rewrite canon_dict_keys. apply Hr in Hk. by apply has_key_spec, bool_decide_eq_true in Hk.
  - intros k. rewrite canon_dict_keys. apply Hw.
Qed.

(** A checked object is plain when each of its possible fields is. *)
Lemma object_plain d name required optional n : _object (PDict d) name required optional = Ok d -> distinct (PDict d) ->
  (forall k v, k ∈ required ++ optional -> dict_get k d = Some v -> plain n v) -> plain (S n) (PDict d).
Proof.
  intros (_ & Hw & _)%object_inv Hd Hf. pose proof (distinct_keys d Hd) as Hk. split; [done |].
  apply Forall_forall. intros [k v] Hin. apply (Hf k).
  - apply Hw, list_elem_of_fmap. by exists (k, v).
  - by apply dict_get_NoDup.
Qed.

Lemma field_plain k d check v n : LeafCheck check -> field k d check = Ok tt -> dict_get k d = Some v -> plain n v.
Proof. intros [_ Hp] Hf Hv. unfold field, get_item in Hf. rewrite Hv in Hf. by apply Hp. Qed.
Lemma optional_field_plain k d check v n : LeafCheck check ->
  optional_field k d check = Ok tt -> dict_get k d = Some v -> plain n v.
Proof. intros [_ Hp] Hf Hv. unfold optional_field in Hf. rewrite Hv in Hf. by apply Hp. Qed.

(** ** Objects *)

(** A check of a possibly nested value: it accepts the canonical form of what it accepts,
    and only plain values of depth [n]. *)
Definition canonical_check (n : nat) (check : pyobj -> result unit) : Prop :=
  forall v, distinct v -> check v = Ok tt -> check (canon v) = Ok tt /\ plain n v.

Lemma plain_le n m v : n <= m -> plain n v -> plain m v.
Proof.
  revert m v. induction n as [n IH] using lt_wf_ind. intros m v Hle Hv.
  destruct v as [| | | | |l|d]; try by destruct n, m.
  - destruct n as [|n], m as [|m]; try done; [lia |]. simpl in *.
    eapply Forall_impl; [exact Hv |]. intros x. apply IH; lia.
  - destruct n as [|n], m as [|m]; try done; [lia |]. simpl in *. destruct Hv as [? Hv]. split; [done |].
    eapply Forall_impl; [exact Hv |]. intros x. apply IH; lia.
Qed.

Lemma leaf_check_canonical n check : LeafCheck check -> canonical_check n check.
Proof. intros [Hc Hp] v _ Hv. rewrite Hc. auto. Qed.

Lemma field_canonical n k d check v : canonical_check n check -> distinct (PDict d) ->
  field k d check = Ok tt -> dict_get k d = Some v -> field k (canon_dict d) check = Ok tt /\ plain n v.
Proof.
  intros Hc Hd Hf Hv. unfold field in *. rewrite get_item_canon by by apply distinct_keys.
  unfold get_item in *. rewrite Hv in *. simpl in *. apply Hc; [by eapply distinct_get | done].
Qed.

Lemma py_eq_canon x y : (forall l, x ≠ PList l) -> (forall d, x ≠ PDict d) -> py_eq x (canon y) = py_eq x y.
Proof. intros Hl Hd. destruct x, y; try done; by destruct (Hl _ eq_refl) || destruct (Hd _ eq_refl). Qed.

Lemma matches_str r name v : _matches r name v = Ok tt -> exists s, v = PStr s /\ fullmatch r s = true.
Proof. destruct v; try done. simpl. intros H. inv_result. bools. eauto. Qed.
Lemma integer_int v name lo hi : _integer v name lo hi = Ok tt -> exists z, v = PInt z /\ (lo <= z <= hi)%Z.
Proof. destruct v; try done. simpl. intros H. inv_result. bools. eauto. Qed.
Lemma field_inv k d check : field k d check = Ok tt -> exists v, dict_get k d = Some v /\ check v = Ok tt.
Proof. unfold field, get_item. destruct (dict_get k d); [eauto | done]. Qed.

Lemma field_item k d check v : field k d check = Ok tt -> get_item k d = Ok v -> check v = Ok tt.
Proof. unfold field. intros H E. by rewrite E in H. Qed.

(** Walking through the fields of an object that was checked. *)
Ltac fields := repeat first
  [ rewrite field_canon by (assumption || apply _)
  | rewrite optional_field_canon by (assumption || apply _) ].
Ltac field_cases :=
  let k := fresh "k" in let x := fresh "x" in let Hin := fresh "Hin" in let Hx := fresh "Hx" in
  intros k x Hin Hx; repeat (apply elem_of_cons in Hin as [-> | Hin]); try by apply not_elem_of_nil in Hin.
Ltac leaf_field := match goal with
  | H : field ?k ?d ?c = Ok tt, Hv : dict_get ?k ?d = Some _ |- _ => apply (field_plain k d c _ _ _ H Hv)
  | H : optional_field ?k ?d ?c = Ok tt, Hv : dict_get ?k ?d = Some _ |- _ => apply (optional_field_plain k d c _ _ _ H Hv)
  end.

Lemma snapshot_canonical name workspace : NoDup workspace.*1 ->
  forall v, distinct v -> component_snapshot name workspace v = Ok tt ->
  component_snapshot name (canon_dict workspace) (canon v) = Ok tt /\ plain 1 v.
Proof.
  intros Hw v Hd H. unfold component_snapshot in H. apply bind_Ok_inv in H as (d & Ho & H).
  pose proof (object_inv _ _ _ _ _ Ho) as (-> & _). pose proof (distinct_keys d Hd) as Hk.
  inv_result. split.
  - unfold component_snapshot. rewrite (object_canon _ _ _ _ Ho). cbn [mbind result_bind].
    fields. run_eqs. cbn [mbind result_bind]. rewrite !get_item_canon by done. run_eqs.
    match goal with A : field "repository_id" _ _ = _, B : get_item "repository_id" d = _ |- _ =>
      destruct (matches_str _ _ _ (field_item _ _ _ _ A B)) as (s & -> & _) end.
    match goal with A : field "repository_format" _ _ = _, B : get_item "repository_format" d = _ |- _ =>
      destruct (integer_int _ _ _ _ (field_item _ _ _ _ A B)) as (z & -> & _) end.
    cbn [canon]. rewrite !py_eq_canon by done. by run_eqs.
  - eapply object_plain; [done.. |]. unfold SNAPSHOT_FIELDS. field_cases; leaf_field.
Qed.

(** ** Components *)
Lemma archive_canon d name base : NoDup d.*1 -> _archive (canon_dict d) name base = _archive d name base.
Proof. intros Hd. unfold _archive. by fields. Qed.
Lemma kind_canon d name kind : NoDup d.*1 -> kind_is name kind (canon_dict d) = kind_is name kind d.
Proof. intros Hd. unfold kind_is. by fields. Qed.

(** The result of a check that returns the object it checked. *)
Definition canonical_object (n : nat) (check : pyobj -> result dict) (skip : list string) : Prop :=
  forall v d, distinct v -> check v = Ok d ->
    v = PDict d /\ check (canon v) = Ok (canon_dict d)
    /\ ((forall k x, k ∈ skip -> dict_get k d = Some x -> plain 1 x) -> plain (S n) v).
Lemma canonical_object_le n m check skip : n <= m -> canonical_object n check skip -> canonical_object m check skip.
Proof.
  intros Hle Hc v d Hd H. destruct (Hc v d Hd H) as (-> & ? & Hp). split; [done |]. split; [done |].
  intros Hs. apply (plain_le (S n)); [lia | auto].
Qed.

Ltac check_object H d Ho Hk :=
  apply bind_Ok_inv in H as (d & Ho & H); pose proof (object_inv _ _ _ _ _ Ho) as (-> & _);
  match goal with Hd : distinct (PDict d) |- _ => pose proof (distinct_keys d Hd) as Hk end;
  unfold kind_is, _archive in H; inv_result.
Ltac known_fields := repeat match goal with H : field _ (canon_dict _) _ = _ |- _ => rewrite H; clear H end.
Ltac object_again Ho :=
  rewrite (object_canon _ _ _ _ Ho); cbn [mbind result_bind];
  unfold kind_is, _archive; known_fields; fields; run_eqs; done.

Lemma rcc_canonical name : canonical_object 1 (fun v => rcc_component v name) ["snapshot"].
Proof.
  intros v d Hd H. unfold rcc_component in *. check_object H d' Ho Hk. split; [done |]. split; [object_again Ho |].
  intros Hs. eapply object_plain; [done.. |]. field_cases; try leaf_field. by eapply Hs; [left |].
Qed.
Lemma homebrew_canonical name : canonical_object 1 (fun v => homebrew_component v name) ["snapshot"].
Proof.
  intros v d Hd H. unfold homebrew_component in *. check_object H d' Ho Hk. split; [done |]. split; [object_again Ho |].
  intros Hs. eapply object_plain; [done.. |]. field_cases; try leaf_field. by eapply Hs; [left |].
Qed.

Lemma reference_canonical : canonical_object 0 reference_fields [].
Proof.
  intros v d Hd H. unfold reference_fields in *. check_object H d' Ho Hk. split; [done |]. split.
  - rewrite (object_canon _ _ _ _ Ho). cbn [mbind result_bind]. fields. run_eqs.
    assert (forall k, has_key k (canon_dict d) = has_key k d) as Hkey.
    { intros k. unfold has_key. apply bool_decide_ext. by rewrite canon_dict_keys. }
    rewrite !Hkey. by run_eqs.
  - intros _. eapply object_plain; [done.. |]. unfold REFERENCE_OPTIONAL. field_cases; leaf_field.
Qed.

Lemma reference_key_canon d : NoDup d.*1 -> reference_key (canon_dict d) = reference_key d.
Proof.
  intros Hd. unfold reference_key. csimpl. unfold get_str. rewrite !dict_get_canon by done.
  assert (forall o : option pyobj, (canon <$> o) ≫= as_str = o ≫= as_str) as Ho by (intros [[]|]; done).
  by rewrite !Ho.
Qed.

Lemma references_canonical seen l : Forall distinct l -> hauler_references seen l = Ok tt ->
  hauler_references seen (canon <$> l) = Ok tt /\ Forall (plain 1) l.
Proof.
  revert seen. induction l as [|v l IH]; intros seen; [by repeat constructor |].
  intros [Hv Hl]%Forall_cons H. simpl in H. apply bind_Ok_inv in H as (d & Hd & H). inv_result.
  destruct (reference_canonical v d Hv Hd) as (-> & Hc & Hp).
  destruct (IH _ Hl H) as [IH1 IH2]. split.
  - change (canon <$> PDict d :: l) with (canon (PDict d) :: (canon <$> l)). cbn [hauler_references].
    rewrite Hc. cbn [mbind result_bind]. rewrite reference_key_canon by by apply distinct_keys. by run_eqs.
  - constructor; [|done]. apply Hp. by intros k x ?%not_elem_of_nil.
Qed.

Lemma reference_list_canonical : canonical_check 2 reference_list.
Proof.
  intros [] Hd H; try done. simpl in *. inv_result. apply foldr_and in Hd.
  destruct (references_canonical [] l Hd H) as [H1 H2]. rewrite length_fmap. by run_eqs.
Qed.

Lemma hauler_canonical name : canonical_object 2 (fun v => hauler_component v name) ["snapshot"].
Proof.
  intros v d Hd H. unfold hauler_component in *. check_object H d' Ho Hk. split; [done |].
  match goal with A : field "references" _ _ = _ |- _ => pose proof A as Href; apply field_inv in A as (refs & Hr & _) end.
  destruct (field_canonical 2 _ _ _ _ reference_list_canonical Hd Href Hr) as [Hc Hp]. split.
  - object_again Ho.
  - intros Hs. eapply object_plain; [done.. |]. field_cases; try leaf_field.
    + apply (plain_le 1); [lia |]. by eapply Hs; [left |].
    + congruence.
Qed.

(** ** The parts of a descriptor *)
Lemma workspace_canonical : canonical_object 0 _workspace [].
Proof.
  intros v d Hd H. unfold _workspace in *. cbn [for_each] in H. check_object H d' Ho Hk. split; [done |].
  split.
  - cbn [for_each]. object_again Ho.
  - intros _. eapply object_plain; [done.. |]. field_cases; leaf_field.
Qed.

Lemma source_canonical : canonical_check 1 _source.
Proof.
  intros v Hd H. unfold _source in *. check_object H d' Ho Hk. split; [object_again Ho |].
  eapply object_plain; [done.. |]. field_cases; leaf_field.
Qed.

Lemma strings_canon l : existsb (fun p => negb (is_str_in supported_platforms p)) l = false ->
  canon <$> l = l /\ Forall (plain 0) l.
Proof.
  induction l as [|p l IH]; csimpl; [by repeat constructor |]. intros H. apply orb_false_iff in H as [Hp Hl].
  destruct (IH Hl) as [-> ?]. destruct p; try done. split; [done | by constructor].
Qed.
Lemma platforms_canonical p : canonical_check 1 (restore_platforms p).
Proof.
  intros [] _ H; try done. pose proof H as H0. simpl in H. inv_result. bools.
  destruct (strings_canon l) as [Hl Hp]; [done |]. change (canon (PList l)) with (PList (canon <$> l)). by rewrite Hl.
Qed.

Lemma producer_canonical : canonical_check 2 _producer.
Proof.
  intros v Hd H. unfold _producer in *. check_object H d Ho Hk.
  pose proof H as Href. apply field_inv in H as (ps & Hr & _).
  match goal with A : get_item "source_platform" d = Ok ?x |- _ =>
    rename x into platform; rename A into Hplat end.
  destruct (field_canonical 1 _ _ _ _ (platforms_canonical platform) Hd Href Hr) as [Hc Hp].
  destruct platform; try done. split.
  - rewrite (object_canon _ _ _ _ Ho); cbn [mbind result_bind]. rewrite get_item_canon, Hplat by done.
    cbn [fmap result_fmap mbind result_bind canon]. rewrite Hc. fields. by run_eqs.
  - eapply object_plain; [done.. |]. field_cases; try leaf_field.
    + apply get_item_Ok in Hplat. simplify_eq/=. done.
    + simplify_eq. done.
Qed.

Lemma identity_canon d : NoDup d.*1 -> _identity d = Ok tt -> _identity (canon_dict d) = Ok tt.
Proof.
  intros Hd H. unfold _identity in *. cbn [for_each] in *. inv_result.
  fields. run_eqs. cbn [mbind result_bind].
  match goal with A : optional_field "origin_room_id" _ _ = _ |- _ => rename A into Horigin end.
  unfold optional_field in Horigin |- *. rewrite dict_get_canon by done.
  destruct (dict_get "origin_room_id" d) as [origin|]; [|done]. cbn [fmap option_fmap option_map].
  apply bind_Ok_inv in Horigin as ([] & Hid & Horigin). pose proof (matches_str _ _ _ Hid) as (s & -> & _).
  apply bind_Ok_inv in Horigin as (room & Hroom & Horigin). cbn [canon].
  rewrite Hid. cbn [mbind result_bind]. rewrite get_item_canon, Hroom by done. cbn [fmap result_fmap mbind result_bind].
  rewrite py_eq_canon by done. by rewrite Horigin.
Qed.

Lemma is_none_canon v : is_none (canon v) = is_none v.
Proof. by destruct v. Qed.

Lemma component_canonical workspace name v : NoDup workspace.*1 -> distinct v ->
  _validate_component v name workspace = Ok tt ->
  _validate_component (canon v) name (canon_dict workspace) = Ok tt /\ plain 3 v.
Proof.
  intros Hw Hd H. unfold _validate_component in *. rewrite is_none_canon.
  destruct (is_none v) eqn:Hnone; [by destruct v |]. apply bind_Ok_inv in H as (d & Ho & H).
  set (check := fun v => if String.eqb name "rcc_environment" then rcc_component v name
    else if String.eqb name "homebrew_recovery" then homebrew_component v name else hauler_component v name) in *.
  assert (canonical_object 2 check ["snapshot"]) as Hcheck.
  { unfold check. destruct (String.eqb name _); [|destruct (String.eqb name _)].
    - eapply canonical_object_le; [|apply rcc_canonical]. lia.
    - eapply canonical_object_le; [|apply homebrew_canonical]. lia.
    - apply hauler_canonical. }
  destruct (Hcheck v d Hd Ho) as (-> & Hc & Hp). pose proof H as Hsnap. apply field_inv in H as (s & Hs & _).
  unfold field in Hsnap. unfold get_item in Hsnap. rewrite Hs in Hsnap. cbn [mbind result_bind] in Hsnap.
  destruct (snapshot_canonical name workspace Hw s) as [Hs1 Hs2]; [by eapply distinct_get | done |]. split.
  - fold (check (canon (PDict d))). rewrite Hc. cbn [mbind result_bind]. unfold field.
    rewrite get_item_canon by by apply distinct_keys. unfold get_item. by rewrite Hs.
  - apply Hp. intros k x ->%list_elem_of_singleton Hx. by simplify_eq.
Qed.

Lemma origin_plain d x n : _identity d = Ok tt -> dict_get "origin_room_id" d = Some x -> plain n x.
Proof.
  intros H Hx. unfold _identity in H. inv_result. unfold optional_field in *. rewrite Hx in *. inv_result.
  match goal with A : _id x _ = _ |- _ => apply matches_str in A as (s & -> & _) end. by destruct n.
Qed.

(** What validation accepts, it accepts in canonical form, and it is plain. *)
Lemma validate_canonical v d : distinct v -> _validate v = Ok d ->
  v = PDict d /\ _validate (canon v) = Ok (canon_dict d) /\ plain 5 v.
Proof.
  intros Hd H. unfold _validate in *. check_object H d' Ho Hk. split; [done |].
  match goal with A : get_item "workspace" d = Ok ?x, B : _workspace ?x = Ok ?w |- _ =>
    rename x into wv; rename w into workspace; rename A into Hwv; rename B into Hw end.
  match goal with A : get_item "components" d = Ok ?x, B : _object ?x "components" _ _ = Ok ?w |- _ =>
    rename x into cv; rename w into components; rename A into Hcv; rename B into Hco end.
  apply get_item_Ok in Hwv, Hcv.
  destruct (workspace_canonical wv workspace (distinct_get _ _ _ Hd Hwv) Hw) as (-> & Hw' & Hwp).
  pose proof (distinct_keys _ (distinct_get _ _ _ Hd Hwv)) as Hwk.
  pose proof (object_inv _ _ _ _ _ Hco) as (-> & _ & _). pose proof (distinct_get _ _ _ Hd Hcv) as Hcd.
  assert (forall name, name ∈ _COMPONENTS ->
    field name (canon_dict components) (fun v => _validate_component v name (canon_dict workspace)) = Ok tt
    /\ (forall x, dict_get name components = Some x -> plain 3 x)) as Hcomp.
  { intros name Hname. match goal with A : for_each _ _COMPONENTS = _ |- _ =>
      apply for_each_Ok in A; rewrite Forall_forall in A; specialize (A name Hname) end.
    match goal with A : field name _ _ = _ |- _ => apply field_inv in A as (x & Hx & Hok) end.
    destruct (component_canonical workspace name x Hwk (distinct_get _ _ _ Hcd Hx) Hok) as [Hc Hp]. split.
    - unfold field. rewrite get_item_canon by by apply distinct_keys. unfold get_item. by rewrite Hx.
    - intros y Hy. by simplify_eq. }
  match goal with A : field "source" d _ = _, B : field "producer" d _ = _ |- _ =>
    pose proof (field_inv _ _ _ A) as (sv & Hsv & _); pose proof (field_inv _ _ _ B) as (pv & Hpv & _);
    destruct (field_canonical _ _ _ _ _ source_canonical Hd A Hsv) as [Hs1 Hs2];
    destruct (field_canonical _ _ _ _ _ producer_canonical Hd B Hpv) as [Hp1 Hp2] end.
  match goal with A : _identity d = _ |- _ => pose proof (identity_canon d Hk A) as Hid end.
  split.
  - rewrite (object_canon _ _ _ _ Ho). cbn [mbind result_bind].
    assert (default (PStr "full-repository") (dict_get "capture_mode" (canon_dict d))
      = canon (default (PStr "full-repository") (dict_get "capture_mode" d))) as ->.
    { rewrite dict_get_canon by done. by destruct (dict_get "capture_mode" d). }
    rewrite leaf_canon, Hid, Hs1, Hp1. fields. run_eqs. cbn [mbind result_bind].
    rewrite !get_item_canon by done. unfold get_item. rewrite Hwv, Hcv. cbn [fmap result_fmap mbind result_bind].
    rewrite Hw'. cbn [mbind result_bind]. rewrite (object_canon _ _ _ _ Hco). cbn [mbind result_bind].
    assert (forall name, name ∈ _COMPONENTS -> field name (canon_dict components)
      (fun v => _validate_component v name (canon_dict workspace)) = Ok tt) as Hfield by (intros; by apply Hcomp).
    rewrite !Hfield by (unfold _COMPONENTS; rewrite !elem_of_cons; auto). done.
  - assert (plain 4 (PDict workspace)) as P1.
    { apply (plain_le 1); [lia |]. apply Hwp. by intros k x ?%not_elem_of_nil. }
    assert (plain 4 (PDict components)) as P2.
    { eapply object_plain; [done.. |]. intros k x Hin Hx. rewrite app_nil_r in Hin. by apply (Hcomp k Hin). }
    assert (plain 4 sv /\ plain 4 pv) as [P3 P4] by (split; (eapply plain_le; [|eassumption]; lia)).
    assert (forall x, dict_get "origin_room_id" d = Some x -> plain 4 x) as P5.
    { intros x Hx. match goal with A : _identity d = _ |- _ => exact (origin_plain d x 4 A Hx) end. }
    assert (forall x, dict_get "capture_mode" d = Some x -> plain 4 x) as P6.
    { intros x Hx. rewrite Hx in *. match goal with A : _member ?l ?e _ = _ |- _ => exact (@leaf_plain _ (member_leaf l e) x 4 A) end. }
    clear Hid Hcomp. unfold _identity in *. cbn [for_each] in *. inv_result.
    eapply object_plain; [done.. |]. field_cases; first [leaf_field | by simplify_eq | auto].
Qed.
