(* ===== verification/LogicalJatDemo.v ===== *)
(** * A concrete logical descriptor

    The runtime and the descriptor the witnesses of the descriptor and catalog theorems
    run on: a workspace with one component. *)

From S2P Require Import Prelude PyStr PyObj PyJson LogicalJat.
From Stdlib Require Import SpecFloat.

Definition digest_a : string := "aaaaaaaaaaaaaaaaaaaaaaaaaaaaaaaaaaaaaaaaaaaaaaaaaaaaaaaaaaaaaaaa".
Definition digest_b : string := "bbbbbbbbbbbbbbbbbbbbbbbbbbbbbbbbbbbbbbbbbbbbbbbbbbbbbbbbbbbbbbbb".
Definition digest_c : string := "cccccccccccccccccccccccccccccccccccccccccccccccccccccccccccccccc".
Definition demo_domain : string := "01234567-89ab-4def-8123-456789abcdef".

Definition jat_runtime : PyRuntime := {| float_repr _ := "1.0"; sha256 _ := digest_a |}.
Definition jat_json : JsonRuntime := {| json_depth := 16; parse_float _ := S754_zero false |}.

Definition demo_archive (repository : string) : pyobj :=
  PDict [("kind", PStr "homebrew-recovery"); ("archive_sha256", PStr digest_a); ("archive_size", PInt 7);
         ("member_basename", PStr "homebrew-recovery.tar.zst");
         ("snapshot", PDict [("repository_id", PStr repository); ("repository_format", PInt 2);
                             ("snapshot_id", PStr digest_b); ("tree_id", PStr digest_c)])].
Definition demo_descriptor (id : string) (archive : pyobj) : pyobj :=
  PDict
    [("format_version", PInt 1); ("payload_kind", PStr "room-store-v1"); ("logical_jat_id", PStr id);
     ("dimension_id", PStr "home"); ("encryption_domain_id", PStr demo_domain); ("room_id", PStr "room");
     ("created_at", PStr "2024-01-02T03:04:05Z"); ("capture_policy_sha256", PStr digest_c);
     ("workspace", PDict
        [("engine", PStr "restic"); ("repository_id", PStr digest_a); ("repository_format", PInt 2);
         ("snapshot_id", PStr digest_a); ("tree_id", PStr digest_b); ("source_path", PStr ".");
         ("logical_bytes", PInt 10); ("data_added", PInt 5); ("data_added_packed", PInt 3)]);
     ("components", PDict
        [("rcc_environment", PNone); ("homebrew_recovery", archive); ("hauler_content", PNone)]);
     ("source", PDict [("dirty", PBool true)]);
     ("producer", PDict
        [("josh_room_version", PStr "1.2.3"); ("restic_version", PStr "0.17.0"); ("source_platform", PStr "linux-x64");
         ("restore_platforms", PList [PStr "linux-x64"])])].
Definition demo_body : pyobj := demo_descriptor "jat-1" (demo_archive digest_a).

Definition demo_jat : LogicalJat :=
  let text := @dumps_sep jat_runtime "" false demo_body in {| _canonical_json := text; jat_sha256 := digest_a |}.
