(* ===== verification/LogicalJatTheorems.v ===== *)
(** * Logical descriptors: property theorems

    Storage is canonical and lossless, an accepted descriptor is bound to one
    repository, and nothing but [TypeError] and [ValueError] is raised. *)

From S2P Require Import Prelude PyStr PyObj PyDatetime PyJson JsonProps LogicalJat LogicalJatProps LogicalJatDemo.
From Stdlib Require Import Ascii.

(** ** Sorting twice *)
Lemma merge_sort_twice {V} (d : list (string * V)) : NoDup d.*1 -> merge_sort item_le (merge_sort item_le d) = merge_sort item_le d.
Proof.
  intros Hd. apply StronglySorted_unique_strong with (R := item_le).
  - intros [k1 v1] [k2 v2] H1 H2 Hle1 Hle2. rewrite !merge_sort_Permutation in *.
    assert (k1 = k2) as -> by (by apply (anti_symm String.le)). f_equal.
    apply dict_get_NoDup in H1, H2; congruence.
  - apply StronglySorted_merge_sort; [|apply _]. intros a b c. unfold item_le. apply transitivity.
  - apply StronglySorted_merge_sort; [|apply _]. intros a b c. unfold item_le. apply transitivity.
  - apply merge_sort_Permutation.
Qed.

(** ** Exceptions of the validator *)
Create HintDb raising.
Abbreviation value_errors := (raises is_type_or_value_error).

Lemma raises_matches r name v : value_errors (_matches r name v).
Proof. destruct v; simpl; by (apply raises_Raise || apply raises_if). Qed.
Lemma raises_integer v name lo hi : value_errors (_integer v name lo hi).
Proof. destruct v; simpl; by (apply raises_Raise || apply raises_if). Qed.
Lemma raises_version v name : value_errors (_version v name).
Proof. destruct v; simpl; by (apply raises_Raise || apply raises_if). Qed.
Lemma raises_robot name v : value_errors (robot_path name v).
Proof. destruct v; simpl; by (apply raises_Raise || apply raises_if). Qed.
Lemma raises_boolean v : value_errors (boolean v).
Proof. destruct v; simpl; by (apply raises_Raise || apply raises_Ok). Qed.
Lemma raises_equals s e v : is_type_or_value_error e = true -> value_errors (_equals s e v).
Proof. apply raises_if. Qed.
Lemma raises_member l e v : is_type_or_value_error e = true -> value_errors (_member l e v).
Proof. intros He. apply raises_bind; [by apply raises_if | intros _ _; by apply raises_if]. Qed.
Lemma raises_created v : value_errors (created_at v).
Proof. destruct v; simpl; try by apply raises_Raise. apply raises_bind; [by apply raises_if | intros _ _; by apply raises_if]. Qed.
Lemma raises_object v name r o : value_errors (_object v name r o).
Proof.
  destruct v; simpl; try by apply raises_Raise.
  apply raises_bind; [by apply raises_if | intros _ _]. apply raises_bind; [by apply raises_if | intros _ _; apply raises_Ok].
Qed.
#[local] Hint Resolve raises_matches raises_integer raises_version raises_robot raises_boolean raises_created raises_object
  raises_Ok : raising.
#[local] Hint Extern 1 (raises _ (_sha256 _ _)) => (apply raises_matches) : raising.
#[local] Hint Extern 1 (raises _ (_id _ _)) => (apply raises_matches) : raising.
#[local] Hint Extern 1 (raises _ (_content_digest _ _)) => (apply raises_matches) : raising.
#[local] Hint Extern 1 (raises _ (_equals _ _ _)) => (apply raises_equals; reflexivity) : raising.
#[local] Hint Extern 1 (raises _ (_member _ _ _)) => (apply raises_member; reflexivity) : raising.
#[local] Hint Extern 1 (raises _ (raise_if _ _)) => (apply raises_if; reflexivity) : raising.

Lemma raises_get k (d : dict) : is_Some (dict_get k d) -> value_errors (get_item k d).
Proof. intros [v Hv]. unfold get_item. rewrite Hv. apply raises_Ok. Qed.
Lemma raises_field k d check : is_Some (dict_get k d) -> (forall v, value_errors (check v)) -> value_errors (field k d check).
Proof. intros Hk Hc. apply raises_bind; [by apply raises_get | auto]. Qed.
Lemma raises_optional k d check : (forall v, value_errors (check v)) -> value_errors (optional_field k d check).
Proof. intros Hc. unfold optional_field. destruct (dict_get k d); [auto | apply raises_Ok]. Qed.

(** Every field that is read is a required one. *)
Ltac has_key := match goal with
  | H : forall k, k ∈ _ -> is_Some (dict_get k ?d) |- is_Some (dict_get ?k ?d) =>
      apply H, (bool_decide_eq_true_1 (k ∈ _)); vm_compute; reflexivity
  end.
Ltac raising := repeat first
  [ apply raises_field; [has_key | intros ?]
  | apply raises_optional; intros ?
  | apply raises_get; has_key
  | solve [auto with raising]
  | apply raises_bind; [|intros ? ?]
  | match goal with H : _object _ _ _ _ = Ok _ |- _ => apply object_inv in H as (_ & _ & H) end ].

Lemma raises_snapshot name w v : (forall k, k ∈ without _WORKSPACE ["parent_snapshot_id"] -> is_Some (dict_get k w)) ->
  value_errors (component_snapshot name w v).
Proof. intros Hw. unfold component_snapshot. raising. Qed.
Lemma raises_rcc v name : value_errors (rcc_component v name).
Proof. unfold rcc_component, kind_is, _archive. raising. Qed.
Lemma raises_homebrew v name : value_errors (homebrew_component v name).
Proof. unfold homebrew_component, kind_is, _archive. raising. Qed.
Lemma raises_reference v : value_errors (reference_fields v).
Proof. unfold reference_fields. raising. Qed.
Lemma raises_references seen l : value_errors (hauler_references seen l).
Proof.
  revert seen. induction l as [|v l IH]; intros seen; simpl; [apply raises_Ok |].
  apply raises_bind; [apply raises_reference | intros d _]. apply raises_bind; [by apply raises_if | auto].
Qed.
Lemma raises_reference_list v : value_errors (reference_list v).
Proof.
  destruct v; simpl; try by apply raises_Raise.
  apply raises_bind; [by apply raises_if | intros; apply raises_references].
Qed.
#[local] Hint Resolve raises_rcc raises_homebrew raises_reference_list : raising.
Lemma raises_hauler v name : value_errors (hauler_component v name).
Proof. unfold hauler_component, kind_is, _archive. raising. Qed.
#[local] Hint Resolve raises_hauler : raising.

Lemma raises_component name v w : (forall k, k ∈ without _WORKSPACE ["parent_snapshot_id"] -> is_Some (dict_get k w)) ->
  value_errors (_validate_component v name w).
Proof.
  intros Hw. unfold _validate_component. destruct (is_none v); [apply raises_Ok |].
  apply raises_bind; [repeat case_match; auto with raising |]. intros d Hd.
  apply raises_field; [|intros; by apply raises_snapshot].
  assert (exists r o, _object v ("component " +:+ name) (ARCHIVE_FIELDS ++ r) o = Ok d) as (r & o & (_ & _ & Hr)%object_inv).
  { unfold rcc_component, homebrew_component, hauler_component in Hd. repeat case_match; inv_result; eauto.
    exists [], []. by rewrite app_nil_r. }
  apply Hr, elem_of_app. left. unfold ARCHIVE_FIELDS. rewrite !elem_of_cons. auto.
Qed.

Lemma raises_platforms p v : value_errors (restore_platforms p v).
Proof. destruct v; simpl; by (apply raises_Raise || apply raises_if). Qed.
#[local] Hint Resolve raises_platforms : raising.
Lemma raises_workspace v : value_errors (_workspace v).
Proof. unfold _workspace. cbn [for_each]. raising. Qed.
Lemma raises_source v : value_errors (_source v).
Proof. unfold _source. raising. Qed.
Lemma raises_producer v : value_errors (_producer v).
Proof. unfold _producer. raising. Qed.
#[local] Hint Resolve raises_workspace raises_source raises_producer : raising.

Lemma raises_validate v : value_errors (_validate v).
Proof.
  unfold _validate, _identity. cbn [for_each].
  apply raises_bind; [auto with raising | intros d (_ & _ & Hd)%object_inv].
  do 3 (apply raises_bind; [raising | intros _ _]).
  apply raises_bind; [raising | intros _ _].
  do 2 (apply raises_bind; [raising | intros _ _]).
  apply raises_bind; [raising | intros wv _]. apply raises_bind; [raising | intros w Hw].
  unfold _workspace in Hw. inv_result. match goal with A : _object _ "workspace" _ _ = _ |- _ => apply object_inv in A as (_ & _ & A) end.
  apply raises_bind; [raising | intros cv _]. apply raises_bind; [auto with raising | intros c (_ & _ & Hc)%object_inv].
  apply raises_bind.
  { apply raises_for_each. intros name Hname. apply raises_field; [auto |]. intros x. by apply raises_component. }
  intros _ _. raising.
Qed.

(** ** The repository a descriptor is bound to *)
Lemma optional_field_inv k d check v : optional_field k d check = Ok tt -> dict_get k d = Some v -> check v = Ok tt.
Proof. unfold optional_field. intros H Hv. by rewrite Hv in H. Qed.
Lemma py_eq_str v s : py_eq v (PStr s) = true -> v = PStr s.
Proof. destruct v; try done. simpl. intros H. by bools; subst. Qed.
Lemma py_eq_str_l v s : py_eq (PStr s) v = true -> v = PStr s.
Proof. destruct v; try done. simpl. intros H. by bools; subst. Qed.


(** A component names the workspace's repository: its id and its format. *)
Definition bound_to (workspace : dict) (component : pyobj) : Prop :=
  component = PNone \/ exists c s, component = PDict c /\ dict_get "snapshot" c = Some (PDict s)
    /\ dict_get "repository_id" s = dict_get "repository_id" workspace
    /\ dict_get "repository_format" s = dict_get "repository_format" workspace.

Lemma component_bound v name w : (exists id, dict_get "repository_id" w = Some (PStr id)) ->
  (exists z, dict_get "repository_format" w = Some (PInt z)) -> _validate_component v name w = Ok tt -> bound_to w v.
Proof.
  intros (wid & Hwid) (wf & Hwf). unfold _validate_component. destruct (is_none v) eqn:Hn; [by left; destruct v |].
  intros (d & Hd & H)%bind_Ok_inv. right.
  assert (v = PDict d) as ->.
  { unfold rcc_component, homebrew_component, hauler_component in Hd.
    repeat case_match; inv_result; match goal with A : _object _ _ _ _ = _ |- _ => by apply object_inv in A as (-> & _) end. }
  apply field_inv in H as (sv & Hs & H). unfold component_snapshot in H. inv_result.
  match goal with A : _object _ _ _ _ = _ |- _ => apply object_inv in A as (-> & _) end.
  repeat match goal with A : get_item _ _ = Ok _ |- _ => apply get_item_Ok in A end. simplify_eq.
  repeat match goal with A : field _ _ _ = _ |- _ => apply field_inv in A as (? & ? & A) end.
  repeat match goal with A : _sha256 _ _ = _ |- _ => apply matches_str in A as (? & -> & _)
    | A : _integer _ _ _ _ = _ |- _ => apply integer_int in A as (? & -> & _) end.
  simplify_eq. bools. eexists _, _. split; [done |]. split; [done |].
  simpl in *. bools. split; congruence.
Qed.

(** ** What an accepted descriptor is bound to *)
Lemma supported_strings l : existsb (fun p => negb (is_str_in supported_platforms p)) l = false ->
  exists ps, l = PStr <$> ps /\ Forall (fun p => p ∈ supported_platforms) ps.
Proof.
  induction l as [|x l IH]; [by exists [] |]. cbn [existsb]. intros [Hx (ps & -> & Hps)%IH]%orb_false_iff.
  destruct x as [| | | |s| |]; try done. simpl in Hx. bools. exists (s :: ps). split; [done |]. by constructor.
Qed.
Lemma existsb_str s ps : existsb (py_eq (PStr s)) (PStr <$> ps) = true -> s ∈ ps.
Proof.
  induction ps as [|p ps IH]; csimpl; [done |]. intros [Hp|Hp]%orb_true_iff; [bools; subst; left | right; auto].
Qed.
Lemma platforms_inv p v : is_str_in supported_platforms p = true -> restore_platforms p v = Ok tt ->
  exists s ps, p = PStr s /\ v = PList (PStr <$> ps) /\ s ∈ ps /\ NoDup ps /\ Forall (fun p => p ∈ supported_platforms) ps.
Proof.
  destruct p as [| | | |s| |]; try done. intros _ H. destruct v; try done. unfold restore_platforms in H. inv_result. bools.
  destruct (supported_strings l) as (ps & -> & Hps); [done |].
  match goal with A : existsb (py_eq _) _ = _ |- _ => apply existsb_str in A end.
  match goal with A : NoDup _ |- _ => rewrite <- list_fmap_compose in A; apply NoDup_fmap_1 in A end. eauto 10.
Qed.
Lemma field_dict k d name required optional check : field k d check = Ok tt ->
  (forall v, check v = Ok tt -> exists o, _object v name required optional = Ok o) ->
  exists o, dict_get k d = Some (PDict o) /\ check (PDict o) = Ok tt.
Proof.
  intros (v & Hv & Hc)%field_inv Ho. destruct (Ho v Hc) as (o & (-> & _)%object_inv). eauto.
Qed.
Lemma workspace_inv v w : _workspace v = Ok w -> v = PDict w
  /\ (exists id, dict_get "repository_id" w = Some (PStr id)) /\ (exists z, dict_get "repository_format" w = Some (PInt z)).
Proof.
  intros H. unfold _workspace in H. inv_result.
  match goal with A : _object _ _ _ _ = _ |- _ => apply object_inv in A as (-> & _) end. split; [done |].
  repeat match goal with A : field _ _ _ = _ |- _ => apply field_inv in A as (? & ? & A) end.
  split; [match goal with A : _sha256 _ "workspace repository id" = _ |- _ => apply matches_str in A as (? & -> & _) end
         | match goal with A : _integer _ "workspace repository format" _ _ = _ |- _ => apply integer_int in A as (? & -> & _) end]; eauto.
Qed.
Lemma identity_inv d o : _identity d = Ok tt -> dict_get "origin_room_id" d = Some o -> dict_get "room_id" d <> Some o.
Proof.
  intros H Ho Hr. unfold _identity in H. inv_result. unfold optional_field in *. rewrite Ho in *. inv_result.
  match goal with A : _id o _ = _ |- _ => apply matches_str in A as (s & -> & _) end.
  match goal with A : get_item _ _ = Ok _ |- _ => apply get_item_Ok in A end. simplify_eq. simpl in *. bools. done.
Qed.

Section storage.
Context `{PyRuntime, JsonRuntime}.

Lemma dumps_canon n v : plain n v -> dumps false (canon v) = dumps false v.
Proof.
  revert v. induction n as [n IH] using lt_wf_ind. intros v Hv.
  destruct v as [| | | | |l|d]; try done; (destruct n as [|n]; [done |]); simpl in Hv.
  - simpl. do 3 f_equal. rewrite <- list_fmap_compose. apply list_fmap_ext. intros i v Hi.
    apply (IH n); [lia |]. rewrite Forall_lookup in Hv. eauto.
  - destruct Hv as [Hd Hv]. change (canon (PDict d)) with (PDict (canon_dict d)). rewrite !dumps_dict. do 3 f_equal.
    rewrite canon_dict_sorted, (merge_sort_fmap (fun kv => (kv.1, canon kv.2)) item_le item_le) by done.
    rewrite merge_sort_twice, <- list_fmap_compose by done. apply list_fmap_ext. intros i [k v] Hi.
    unfold member_text. simpl. do 2 f_equal. apply (IH n); [lia |].
    rewrite <- (merge_sort_Permutation item_le d), Forall_lookup in Hv. by apply (Hv i (k, v)).
Qed.

Lemma canon_twice n v : plain n v -> canon (canon v) = canon v.
Proof.
  revert v. induction n as [n IH] using lt_wf_ind. intros v Hv.
  destruct v as [| | | | |l|d]; try done; (destruct n as [|n]; [done |]); simpl in Hv.
  - simpl. f_equal. rewrite <- list_fmap_compose. apply list_fmap_ext. intros i v Hi.
    apply (IH n); [lia |]. rewrite Forall_lookup in Hv. eauto.
  - destruct Hv as [Hd Hv]. change (canon (PDict d)) with (PDict (canon_dict d)).
    change (canon (PDict (canon_dict d))) with (PDict (canon_dict (canon_dict d))). f_equal.
    rewrite canon_dict_sorted. rewrite canon_dict_sorted, (merge_sort_fmap (fun kv => (kv.1, canon kv.2)) item_le item_le) by done.
    rewrite merge_sort_twice, <- list_fmap_compose by done. apply list_fmap_ext. intros i [k v] Hi. simpl. f_equal.
    apply (IH n); [lia |]. rewrite <- (merge_sort_Permutation item_le d), Forall_lookup in Hv. by apply (Hv i (k, v)).
Qed.

Lemma plain_canon n v : plain n v -> plain n (canon v).
Proof.
  revert v. induction n as [n IH] using lt_wf_ind. intros v Hv.
  destruct v as [| | | | |l|d]; try by destruct n.
  - destruct n as [|n]; [done |]. simpl in *. apply Forall_fmap. eapply Forall_impl; [exact Hv |]. intros x. apply IH. lia.
  - destruct n as [|n]; [done |]. change (canon (PDict d)) with (PDict (canon_dict d)). destruct Hv as [Hd Hv]. split.
    + by rewrite canon_dict_keys.
    + unfold canon_dict. rewrite merge_sort_Permutation, Forall_fmap. eapply Forall_impl; [exact Hv |].
      intros x. apply IH. lia.
Qed.

Lemma plain_distinct n v : plain n v -> distinct v.
Proof.
  revert v. induction n as [n IH] using lt_wf_ind. intros v Hv.
  destruct v as [| | | | |l|d]; try done; (destruct n as [|n]; [done |]); simpl in Hv.
  - apply foldr_and. eapply Forall_impl; [exact Hv |]. intros x. apply IH. lia.
  - destruct Hv as [Hd Hv]. split; [done |]. apply (foldr_and (fun kv : string * pyobj => distinct kv.2)).
    eapply Forall_impl; [exact Hv |]. intros x. apply IH. lia.
Qed.

Lemma dict_set_new {V} (k : string) (v : V) d : k ∉ d.*1 -> dict_set k v d = d ++ [(k, v)].
Proof.
  induction d as [|[k' v'] d IH]; csimpl; [done |]. intros [Hk Hd]%not_elem_of_cons.
  rewrite bool_decide_false by done. by rewrite IH.
Qed.
Lemma insert_new_distinct built pairs : NoDup (built ++ pairs).*1 -> insert_new built pairs = Ok (built ++ pairs).
Proof.
  revert built. induction pairs as [|[k v] pairs IH]; intros built Hd; simpl; [by rewrite app_nil_r |].
  rewrite fmap_app in Hd. csimpl in Hd. apply NoDup_app in Hd as Hd'. destruct Hd' as (_ & Hacc & _).
  assert (k ∉ built.*1) as Hk by (intros Hin; apply (Hacc k Hin); left).
  unfold has_key. rewrite bool_decide_false by done. cbn [raise_if mbind result_bind]. rewrite dict_set_new by done.
  rewrite IH, <- app_assoc; [done |]. by rewrite !fmap_app, <- app_assoc.
Qed.
Lemma hook_distinct d : NoDup d.*1 -> _reject_duplicate_keys d = Ok (PDict d).
Proof. intros Hd. unfold _reject_duplicate_keys. by rewrite insert_new_distinct. Qed.
Lemma raises_insert (p : exn -> bool) built pairs : (forall k, p (EValue ("duplicate JSON key: " +:+ k)) = true) ->
  raises p (insert_new built pairs).
Proof.
  intros Hp. revert built. induction pairs as [|[k v] pairs IH]; intros built; simpl; [apply raises_Ok |].
  apply raises_bind; [by apply raises_if | auto].
Qed.
Lemma dict_hook_distinct d : NoDup d.*1 -> dict_hook d = Ok (PDict d).
Proof.
  intros Hd. unfold dict_hook. do 2 f_equal. change (foldl (fun d kv => dict_set kv.1 kv.2 d) [] d = [] ++ d).
  revert Hd. rewrite <- (app_nil_l d) at 1. generalize ([] : dict) as acc. induction d as [|[k v] d IH]; intros acc Hd; simpl.
  - by rewrite app_nil_r.
  - rewrite fmap_app in Hd. csimpl in Hd. apply NoDup_app in Hd as Hd'. destruct Hd' as (_ & Hacc & _).
    assert (k ∉ acc.*1) as Hk by (intros Hin; apply (Hacc k Hin); left).
    rewrite dict_set_new by done. change ((k, v) :: d) with ([(k, v)] ++ d). rewrite app_assoc. apply IH.
    rewrite !fmap_app, <- app_assoc. exact Hd.
Qed.

Lemma utf8_decode_char c l : utf8_decode (utf8_char c ++ l) = cons c <$> utf8_decode l.
Proof. destruct c as [[] [] [] [] [] [] [] []]; reflexivity. Qed.
Lemma utf8_roundtrip s : utf8_decode (utf8_bytes s) = Some (chars s).
Proof.
  unfold utf8_bytes. induction (chars s) as [|c l IH]; [done |].
  change ((c :: l) ≫= utf8_char) with (utf8_char c ++ (l ≫= utf8_char)). by rewrite utf8_decode_char, IH.
Qed.

Lemma from_dict_inv body jat : distinct body -> from_dict body = Ok jat ->
  plain 5 body /\ from_dict (canon body) = Ok jat /\ _canonical_json jat = dumps false body
  /\ (Z.of_nat (length (utf8_bytes (_canonical_json jat))) <= MAX_LOGICAL_JAT_BYTES)%Z.
Proof.
  intros Hd Hf. unfold from_dict in *. inv_result.
  match goal with A : _validate body = Ok ?x |- _ =>
    destruct (validate_canonical body x Hd A) as (-> & Hc & Hp); rename x into d; clear A end.
  split; [done |]. rewrite Hc. cbn [mbind result_bind]. change (PDict (canon_dict d)) with (canon (PDict d)). rewrite (dumps_canon 5) by done. unfold too_large in *. inv_result. bools.
  rewrite (proj2 (Z.ltb_ge _ _)) by done. done.
Qed.

(** The reader raises only what [except (json.JSONDecodeError, RecursionError)] and the
    hooks account for. *)
Definition is_reader_error (e : exn) : bool := is_value_error e || is_decode_error e.
Lemma raises_reader hook constant : (forall d, raises is_reader_error (hook d)) ->
  (forall s, raises is_reader_error (constant s)) -> forall text, raises is_reader_error (loads hook constant text).
Proof.
  intros Hh Hk text.
  assert (forall value, (forall s, raises is_reader_error (value s)) ->
    (forall n s, raises is_reader_error (array_items value n s)) /\ (forall n s, raises is_reader_error (members value n s))) as Hitems.
  { intros value Hv. split; induction n as [|n IH]; intros s; simpl; try by apply raises_Raise.
    - apply raises_bind; [done |]. intros [v rest] _. destruct (skip_space rest) as [|c r]; [by apply raises_Raise |].
      repeat case_match; try (by apply raises_Raise); try apply raises_Ok.
      apply raises_bind; [done |]. intros [vs ?] _. apply raises_Ok.
    - apply raises_bind.
      + unfold member. destruct s as [|q s]; [by apply raises_Raise |]. apply raises_bind; [by apply raises_if | intros _ _].
        destruct (scan_string s) as [[k rest]|]; [|by apply raises_Raise].
        destruct (skip_space rest); [by apply raises_Raise |]. apply raises_bind; [by apply raises_if | intros _ _].
        apply raises_bind; [done |]. intros [v ?] _. apply raises_Ok.
      + intros [v rest] _. destruct (skip_space rest) as [|c r]; [by apply raises_Raise |].
        repeat case_match; try (by apply raises_Raise); try apply raises_Ok.
        apply raises_bind; [done |]. intros [vs ?] _. apply raises_Ok. }
  assert (forall s, raises is_reader_error (scan_scalar constant s)) as Hscalar.
  { intros s. unfold scan_scalar, scan_number. repeat case_match; try apply raises_Ok; try (by apply raises_Raise);
      apply raises_bind; intros; try apply raises_Ok; try by apply raises_if. all: apply Hk. }
  assert (forall n s, raises is_reader_error (scan hook constant n s)) as Hscan.
  { induction n as [|n IH]; intros [|c s]; simpl; try (by apply raises_Raise);
      destruct (Ascii.eqb c quote); try (destruct (scan_string s) as [[]|]; [apply raises_Ok | by apply raises_Raise]);
      destruct (Ascii.eqb c "["); try (by apply raises_Raise); [.. |].
    - destruct (Ascii.eqb c "{"); [by apply raises_Raise | apply Hscalar].
    - destruct (skip_space s) as [|d rest]; [by apply raises_Raise |]. destruct (Ascii.eqb d "]"); [apply raises_Ok |].
      apply raises_bind; [by apply Hitems | intros [vs ?] _; apply raises_Ok].
    - destruct (Ascii.eqb c "{"); [|apply Hscalar]. destruct (skip_space s) as [|d rest]; [by apply raises_Raise |].
      destruct (Ascii.eqb d "}"); [apply raises_bind; [apply Hh | intros; apply raises_Ok] |].
      apply raises_bind; [by apply Hitems | intros [kvs ?] _]. apply raises_bind; [apply Hh | intros; apply raises_Ok]. }
  unfold loads. apply raises_bind; [apply Hscan | intros [v rest] _].
  apply raises_bind; [by apply raises_if | intros; apply raises_Ok].
Qed.

(** Nothing but [TypeError] and [ValueError] leaves the reader of descriptors: for
    every text, bytes or other argument [from_json] returns a descriptor or raises one
    of them.  In particular no field is ever read that is not there, and exceeding the
    nesting bound is reported as invalid JSON. *)
Theorem from_json_errors value e : from_json value = Raise e -> is_type_or_value_error e = true.
Proof.
  revert e. change (value_errors (from_json value)). unfold from_json. apply raises_bind.
  - destruct value as [b|s|]; [..| by apply raises_Raise].
    + apply raises_bind; [by apply raises_if |]. intros _ _. case_match; [apply raises_Ok | by apply raises_Raise].
    + apply raises_bind; [by apply raises_if |]. intros _ _. apply raises_Ok.
  - intros text _. apply raises_bind.
    + eapply raises_reraise; [apply raises_reader | done |].
      * intros d. unfold _reject_duplicate_keys. destruct (insert_new [] d) eqn:Hi; [apply raises_Ok |].
        apply raises_Raise. by eapply (raises_insert is_reader_error [] d).
      * intros s. by apply raises_Raise.
      * intros e'. unfold is_reader_error, is_type_or_value_error. destruct e'; try done; simpl; intros H1 H2; congruence.
    + intros body _. unfold from_dict. apply raises_bind; [apply raises_validate | intros d _].
      apply raises_bind; [by apply raises_if | intros; apply raises_Ok].
Qed.

(** C38: storage is lossless and canonical.  A descriptor accepted from a dictionary is
    read back from its JSON text, given as text or as UTF-8 bytes, as the same stored
    descriptor, its dictionary form is the given one with every object's keys in order,
    and that form is accepted again as the same descriptor; the text keeps within the
    size limit. *)
Theorem logical_jat_roundtrip body jat : 5 <= json_depth -> distinct body -> from_dict body = Ok jat ->
  to_dict jat = Ok (canon body) /\ from_dict (canon body) = Ok jat
  /\ from_json (SrcStr (to_json jat)) = Ok jat /\ from_json (SrcBytes (utf8_bytes (to_json jat))) = Ok jat
  /\ (Z.of_nat (length (utf8_bytes (to_json jat))) <= MAX_LOGICAL_JAT_BYTES)%Z.
Proof.
  intros Hdepth Hd Hf. destruct (from_dict_inv body jat Hd Hf) as (Hp & Hc & Hj & Hsize).
  assert (forall hook constant, (forall d, NoDup d.*1 -> hook d = Ok (PDict d)) ->
    loads hook constant (_canonical_json jat) = Ok (canon body)) as Hloads.
  { intros hook constant Hh. rewrite Hj. apply loads_compact; [done | by eapply plain_le]. }
  assert (too_large (length (utf8_bytes (_canonical_json jat))) = Ok tt) as Hlarge.
  { unfold too_large. by rewrite (proj2 (Z.ltb_ge _ _)). }
  assert (from_json (SrcStr (to_json jat)) = Ok jat) as Hstr.
  { unfold from_json, to_json. rewrite Hlarge. cbn [mbind result_bind].
    rewrite Hloads by apply hook_distinct. exact Hc. }
  split; [apply Hloads, dict_hook_distinct |]. split; [done |]. split; [done |]. split; [|done].
  revert Hstr. unfold from_json, to_json. rewrite Hlarge. cbn [mbind result_bind].
  by rewrite utf8_roundtrip, of_chars_chars.
Qed.

(** The stored text identifies the descriptor up to the order of keys: two accepted
    dictionaries have the same stored descriptor, digest included, exactly when they are
    equal after sorting every object's keys. *)
Theorem logical_jat_identity body1 body2 jat1 jat2 : 5 <= json_depth -> distinct body1 -> distinct body2 ->
  from_dict body1 = Ok jat1 -> from_dict body2 = Ok jat2 ->
  (to_json jat1 = to_json jat2 <-> canon body1 = canon body2) /\ (to_json jat1 = to_json jat2 <-> jat1 = jat2).
Proof.
  intros Hdepth Hd1 Hd2 H1 H2.
  destruct (from_dict_inv _ _ Hd1 H1) as (Hp1 & Hc1 & Hj1 & _), (from_dict_inv _ _ Hd2 H2) as (Hp2 & Hc2 & Hj2 & _).
  assert (to_json jat1 = to_json jat2 <-> canon body1 = canon body2) as Hiff.
  { unfold to_json. split; intros E.
    - assert (loads dict_hook float_constant (_canonical_json jat1) = Ok (canon body1)) as L1
        by (rewrite Hj1; apply loads_compact; [apply dict_hook_distinct | by eapply plain_le]).
      assert (loads dict_hook float_constant (_canonical_json jat2) = Ok (canon body2)) as L2
        by (rewrite Hj2; apply loads_compact; [apply dict_hook_distinct | by eapply plain_le]).
      rewrite E in L1. congruence.
    - rewrite E in Hc1. congruence. }
  split; [exact Hiff |]. rewrite Hiff. split; [|by intros ->; apply Hiff].
  intros E. rewrite E in Hc1. congruence.
Qed.
(** The components of an accepted descriptor. *)
Lemma accepted_components body jat : from_dict body = Ok jat -> exists d w cs, body = PDict d
  /\ dict_get "workspace" d = Some (PDict w) /\ dict_get "components" d = Some (PDict cs)
  /\ (forall name, is_Some (dict_get name cs) <-> name ∈ _COMPONENTS) /\ (forall name c, dict_get name cs = Some c -> bound_to w c).
Proof.
  intros Hf. unfold from_dict in Hf. apply bind_Ok_inv in Hf as (d & Hf & _). unfold _validate in Hf. inv_result.
  match goal with A : _object body _ _ _ = _ |- _ => apply object_inv in A as (-> & _) end.
  repeat match goal with A : get_item _ _ = Ok _ |- _ => apply get_item_Ok in A end.
  match goal with A : _workspace _ = _ |- _ => apply workspace_inv in A as (-> & Hid & Hformat) end.
  match goal with A : _object _ "components" _ _ = _ |- _ => apply object_inv in A as (-> & Hwithin & Hall) end.
  match goal with A : for_each _ _COMPONENTS = _ |- _ => rewrite for_each_Ok, Forall_forall in A; rename A into Hcomp end.
  rewrite app_nil_r in Hwithin. eexists _, _, _. split; [done |]. split; [done |]. split; [done |]. split.
  { intros name. split; [|apply Hall]. intros Hk%has_key_spec. apply Hwithin. by apply bool_decide_eq_true in Hk. }
  intros name c Hc. apply component_bound with (name := name); [done..|].
  assert (name ∈ _COMPONENTS) as Hn.
  { apply Hwithin, list_elem_of_fmap. exists (name, c). split; [done | by apply dict_get_elem]. }
  apply Hcomp in Hn. apply field_inv in Hn as (c' & Hc' & Hn). congruence.
Qed.

(** An accepted descriptor hangs together.  Its components object has exactly the
    three known components, and each of them that is there names the workspace's
    repository, id and format; the room it was copied from differs from its room; and
    the platform it was captured on is one of its restore platforms, which are pairwise
    distinct and supported. *)
Theorem descriptor_bound body jat : from_dict body = Ok jat ->
  exists d w cs p s ps, body = PDict d
  /\ dict_get "workspace" d = Some (PDict w) /\ dict_get "components" d = Some (PDict cs)
  /\ (forall name, is_Some (dict_get name cs) <-> name ∈ _COMPONENTS)
  /\ (forall name c, dict_get name cs = Some c -> bound_to w c)
  /\ (forall o, dict_get "origin_room_id" d = Some o -> dict_get "room_id" d <> Some o)
  /\ dict_get "producer" d = Some (PDict p) /\ dict_get "source_platform" p = Some (PStr s)
  /\ dict_get "restore_platforms" p = Some (PList (PStr <$> ps))
  /\ s ∈ ps /\ NoDup ps /\ Forall (fun p => p ∈ supported_platforms) ps.
Proof.
  intros Hf. destruct (accepted_components body jat Hf) as (d & w & cs & -> & Hw & Hcs & Hnames & Hbound).
  unfold from_dict in Hf. apply bind_Ok_inv in Hf as (d' & Hf & _). unfold _validate in Hf. inv_result.
  match goal with A : _object (PDict d) _ _ _ = _ |- _ => apply object_inv in A as ([= ->] & _) end.
  match goal with A : field "producer" _ _ = _ |- _ => apply field_inv in A as (pv & Hpv & Hp) end.
  unfold _producer in Hp. inv_result.
  match goal with A : _object _ "producer" _ _ = _ |- _ => apply object_inv in A as (-> & _) end. bools.
  repeat match goal with A : get_item _ _ = Ok _ |- _ => apply get_item_Ok in A end.
  match goal with A : field "restore_platforms" _ _ = _ |- _ => apply field_inv in A as (v & Hv & A); eapply platforms_inv in A as (s & ps & -> & -> & ?); [|done] end.
  eexists _, w, cs, _, s, ps. split; [done |]. split; [done |]. split; [done |]. split; [done |]. split; [done |].
  split; [intros; by eapply identity_inv | done].
Qed.
End storage.

(** ** Witnesses *)
#[local] Existing Instance jat_runtime.
#[local] Existing Instance jat_json.

Definition sorted_body : pyobj := canon demo_body.
Lemma demo_accepted : from_dict demo_body = Ok demo_jat.
Proof. vm_compute. reflexivity. Qed.
Lemma sorted_accepted : from_dict sorted_body = Ok demo_jat.
Proof. vm_compute. reflexivity. Qed.
Lemma demo_plain : plain 5 demo_body.
Proof.
  repeat match goal with
  | |- _ /\ _ => split | |- NoDup _ => apply (bool_decide_eq_true_1 _); vm_compute; reflexivity
  | |- Forall _ _ => constructor | |- True => done | |- _ => lia | |- _ => progress simpl end.
Qed.
Lemma demo_distinct : distinct demo_body.
Proof. apply (plain_distinct 5), demo_plain. Qed.
Lemma sorted_distinct : distinct sorted_body.
Proof. apply (plain_distinct 5), plain_canon, demo_plain. Qed.

Lemma from_json_errors_witness : is_type_or_value_error (EValue "logical JAT descriptor is invalid JSON") = true.
Proof. apply (from_json_errors (SrcStr "[[")). vm_compute. reflexivity. Defined.
Lemma logical_jat_roundtrip_witness : to_dict demo_jat = Ok sorted_body /\ from_json (SrcStr (to_json demo_jat)) = Ok demo_jat.
Proof.
  destruct (logical_jat_roundtrip demo_body demo_jat) as (H1 & _ & H2 & _);
    [cbn; lia | exact demo_distinct | exact demo_accepted | by split].
Defined.
Lemma logical_jat_identity_witness : demo_body <> sorted_body /\ canon demo_body = canon sorted_body.
Proof.
  split; [by vm_compute |].
  apply (logical_jat_identity demo_body sorted_body demo_jat demo_jat);
    [cbn; lia | exact demo_distinct | exact sorted_distinct | exact demo_accepted | exact sorted_accepted | reflexivity].
Defined.
Lemma descriptor_bound_witness : exists d cs w, demo_body = PDict d /\ dict_get "components" d = Some (PDict cs)
  /\ dict_get "workspace" d = Some (PDict w) /\ forall name c, dict_get name cs = Some c -> bound_to w c.
Proof.
  destruct (descriptor_bound demo_body demo_jat demo_accepted) as (d & w & cs & p & s & ps & ? & ? & ? & ? & ? & _). eauto 10.
Defined.
