(* ===== verification/Catalog.v ===== *)
(** * The room catalog ([src/josh_room/catalog.py])

    The catalog of a Dimension: rooms, their snapshots and each room's latest one.  Every
    operation builds a new body and hands it to the constructor, which checks all of it.

    A body is a JSON value with string keys.  [json.loads(json.dumps(body))] is the
    program's deep copy; values of the model are never shared, so it is the value. *)

From S2P Require Import Prelude PyStr PyObj PyDatetime PyJson LogicalJat.
From Stdlib Require Import Ascii.

(** ** Patterns and field names *)
Definition OBJECT_KEY : re := RCat (lit "objects/sha256/") (exactly 64 (RCls is_hex)).
Definition _IDENTIFIER : re := RCat (RCls is_alnum) (RStar (RCls is_id_char)).
Definition _LOGICAL_IDENTIFIER : re := RCat (RCls is_alnum) (upto 127 (RCls is_id_char)).
Definition _SHA256 : re := exactly 64 (RCls is_hex).
Definition _RFC3339 : re := LogicalJat._RFC3339.
Definition _LOGICAL_FIELDS : list string :=
  ["snapshot_id"; "payload_kind"; "dimension_id"; "encryption_domain_id"; "room_id"; "origin_room_id"; "object_key";
   "ciphertext_sha256"; "ciphertext_size"; "created_at"; "repository_id"; "repository_format"; "workspace_snapshot_id";
   "tree_id"; "capture_policy_sha256"; "workspace_signature"; "signature_algorithm"; "logical_bytes"; "data_added";
   "data_added_packed"; "component_refs"].
Definition _COMPONENT_NAMES : list string := ["rcc_environment"; "homebrew_recovery"; "hauler_content"].

(** ** Encryption domains: [validate_encryption_domain_id] *)

(** [s.replace(p, "")] *)
Fixpoint delete_text (p : list ascii) (skip : nat) (s : list ascii) : list ascii :=
  match s, skip with
  | [], _ => []
  | _ :: s, S skip => delete_text p skip s
  | c :: s', O =>
      if bool_decide (take (length p) s = p) then delete_text p (length p - 1) s' else c :: delete_text p 0 s'
  end.
Definition remove_text (p s : string) : string := of_chars (delete_text (chars p) 0 (chars s)).

(** The texts [int(s, 16)] reads. *)
Definition is_hex_digit (c : ascii) : bool := is_hex c || in_range "A" "F" c.
Definition HEX_INT_RE : re :=
  seq_re [RStar (RCls is_space); opt (RCls (one_of "+-"));
          opt (seq_re [lit "0"; RCls (one_of "xX"); opt (lit "_")]);
          RCls is_hex_digit; RStar (RCat (opt (lit "_")) (RCls is_hex_digit)); RStar (RCls is_space)].
(** [uuid.UUID(s)] does not raise. *)
Definition uuid_reads (s : string) : bool :=
  let hex := remove_text "-" (py_strip (one_of "{}") (remove_text "uuid:" (remove_text "urn:" s))) in
  (py_len hex =? 32)%nat && fullmatch HEX_INT_RE hex.
(** The canonical texts of version 4 UUIDs: those [str(uuid.UUID(s))] leaves as they are. *)
Definition hex_run (n : nat) : re := exactly n (RCls is_hex).
Definition UUID4_RE : re :=
  seq_re [hex_run 8; lit "-"; hex_run 4; lit "-4"; hex_run 3; lit "-"; RCls (one_of "89ab"); hex_run 3; lit "-"; hex_run 12].
Definition validate_encryption_domain_id (value : pyobj) : result unit :=
  match value with
  | PStr s =>
      raise_if (negb (uuid_reads s)) (EValue "encryption domain id is invalid") ;;
      raise_if (negb (fullmatch UUID4_RE s)) (EValue "encryption domain id must be canonical UUID4")
  | _ => Raise (EType "encryption domain id is invalid")
  end.

(** ** Checks of one value *)
Definition catalog_invalid (what : string) : exn := EValue ("catalog " +:+ what +:+ " is invalid").
Definition _validate_logical_identifier (label : string) (value : pyobj) : result unit :=
  match value with
  | PStr s => raise_if (negb (fullmatch _LOGICAL_IDENTIFIER s)) (catalog_invalid ("logical " +:+ label))
  | _ => Raise (catalog_invalid ("logical " +:+ label))
  end.
Definition _validate_digest (label : string) (value : pyobj) : result unit :=
  match value with
  | PStr s => raise_if (negb (fullmatch _SHA256 s)) (catalog_invalid label)
  | _ => Raise (catalog_invalid label)
  end.
Definition _validate_identifier (label : string) (value : pyobj) : result unit :=
  match value with
  | PStr s => raise_if (negb (fullmatch _IDENTIFIER s)) (catalog_invalid label)
  | _ => Raise (catalog_invalid label)
  end.

(** [type(value) is int and lo <= value <= hi] *)
Definition int_between (lo hi : Z) (value : pyobj) : bool :=
  match value with PInt z => (lo <=? z)%Z && (z <=? hi)%Z | _ => false end.
Definition positive_int (value : pyobj) : bool := match value with PInt z => (1 <=? z)%Z | _ => false end.
Definition nonempty_str (value : pyobj) : bool := match value with PStr s => negb (String.eqb s "") | _ => false end.

(** [OBJECT_KEY.fullmatch(snapshot.get("object_key", ""))], and the digest at the end of it. *)
Definition object_key_of (snapshot : dict) : result string :=
  match default (PStr "") (dict_get "object_key" snapshot) with
  | PStr key => raise_if (negb (fullmatch OBJECT_KEY key)) (EValue "catalog contains an invalid object key") ;; Ok key
  | _ => Raise (EType "expected string or bytes-like object")
  end.
Definition key_digest (key : string) : string := (py_rpartition "/" key).2.
Definition check_object (snapshot : dict) : result unit :=
  key ← object_key_of snapshot;
  raise_if (negb (py_eq (get_or_none "ciphertext_sha256" snapshot) (PStr (key_digest key))))
    (EValue "catalog object digest mismatch").

(** ** Snapshots *)
Definition component_ref (ref : pyobj) : result unit :=
  match ref with
  | PNone => Ok tt
  | PDict r =>
      raise_if (negb (keys_are ["snapshot_id"; "tree_id"] r)) (EValue "catalog logical component ref is invalid") ;;
      _validate_digest "component snapshot id" (get_or_none "snapshot_id" r) ;;
      _validate_digest "component tree id" (get_or_none "tree_id" r)
  | _ => Raise (EValue "catalog logical component ref is invalid")
  end.
Definition component_refs (value : pyobj) : result unit :=
  match value with
  | PDict refs =>
      raise_if (negb (keys_are _COMPONENT_NAMES refs)) (EValue "catalog logical component refs are invalid") ;;
      for_each component_ref refs.*2
  | _ => Raise (EValue "catalog logical component refs are invalid")
  end.
Definition logical_created_at (value : pyobj) : result unit :=
  let bad := EValue "catalog logical created_at is invalid" in
  match value with
  | PStr s => raise_if (negb (fullmatch _RFC3339 s)) bad ;; raise_if (negb (fromisoformat s)) bad
  | _ => Raise bad
  end.

Definition _validate_logical_snapshot (snapshot : dict) : result unit :=
  raise_if (negb (keys_within _LOGICAL_FIELDS snapshot) || negb (has_keys (without _LOGICAL_FIELDS ["origin_room_id"]) snapshot))
    (EValue "catalog logical snapshot fields are invalid") ;;
  for_each (fun name => _validate_logical_identifier name (get_or_none name snapshot)) ["snapshot_id"; "dimension_id"; "room_id"] ;;
  raise_if (negb (py_eq (get_or_none "payload_kind" snapshot) (PStr "room-store-v1")))
    (EValue "catalog logical payload kind is invalid") ;;
  validate_encryption_domain_id (get_or_none "encryption_domain_id" snapshot) ;;
  (let origin := get_or_none "origin_room_id" snapshot in
   if is_none origin then Ok tt
   else
     _validate_logical_identifier "origin room" origin ;;
     room ← get_item "room_id" snapshot;
     raise_if (py_eq origin room) (EValue "catalog logical origin room must differ from the copied Room")) ;;
  check_object snapshot ;;
  raise_if (negb (positive_int (get_or_none "ciphertext_size" snapshot))) (EValue "catalog logical ciphertext size is invalid") ;;
  logical_created_at (get_or_none "created_at" snapshot) ;;
  for_each (fun name => _validate_digest name (get_or_none name snapshot))
    ["repository_id"; "workspace_snapshot_id"; "tree_id"; "capture_policy_sha256"; "workspace_signature"] ;;
  raise_if (negb (int_between 2 2 (get_or_none "repository_format" snapshot)))
    (EValue "catalog logical repository format is invalid") ;;
  raise_if (negb (py_eq (get_or_none "signature_algorithm" snapshot) (PStr "josh-room-stat-v1")))
    (EValue "catalog logical signature algorithm is invalid") ;;
  for_each (fun name => raise_if (negb (int_between 0 max_int63 (get_or_none name snapshot))) (catalog_invalid ("logical " +:+ name)))
    ["logical_bytes"; "data_added"; "data_added_packed"] ;;
  component_refs (get_or_none "component_refs" snapshot).

Definition fingerprint_ok (value : pyobj) : bool := match value with PStr s => fullmatch _SHA256 s | _ => false end.
Definition _validate_v2_snapshot (snapshot : dict) : result unit :=
  for_each (fun name => raise_if (negb (nonempty_str (get_or_none name snapshot)))
              (EValue ("catalog snapshot " +:+ name +:+ " is invalid"))) ["snapshot_id"; "created_at"] ;;
  id ← get_item "snapshot_id" snapshot;
  _validate_identifier "snapshot" id ;;
  created ← get_item "created_at" snapshot;
  raise_if (negb (match created with PStr s => fromisoformat s | _ => false end)) (EValue "catalog snapshot created_at is invalid") ;;
  raise_if (negb (fingerprint_ok (get_or_none "workspace_fingerprint" snapshot)))
    (EValue "catalog snapshot workspace fingerprint is invalid") ;;
  (let origin := get_or_none "origin_project_id" snapshot in
   if is_none origin then Ok tt else _validate_identifier "origin project" origin) ;;
  raise_if (negb (positive_int (get_or_none "ciphertext_size" snapshot))) (EValue "catalog snapshot ciphertext size is invalid").

(** ** The constructor *)
Record Catalog := { body : dict; encryption_domain_id : pyobj }.

Definition is_version (version : pyobj) : bool := int_between 1 3 version.
Definition is_v (n : Z) (version : pyobj) : bool := int_between n n version.
Definition v2_or_v3 (version : pyobj) : bool := int_between 2 3 version.

(** The domain of the body and the one given: they agree, and both places hold it. *)
Definition bind_domain (b : dict) (domain : pyobj) : result Catalog :=
  let body_domain := get_or_none "encryption_domain_id" b in
  (if is_none body_domain then Ok tt else validate_encryption_domain_id body_domain) ;;
  if is_none domain then
    Ok {| body := b; encryption_domain_id := if is_none body_domain then PNone else body_domain |}
  else
    validate_encryption_domain_id domain ;;
    raise_if (negb (is_none body_domain) && negb (py_eq body_domain domain)) (EValue "catalog encryption domain mismatch") ;;
    Ok {| body := if is_none body_domain then dict_set "encryption_domain_id" domain b else b; encryption_domain_id := domain |}.

(** The checks of one snapshot of a room. *)
Definition check_snapshot (version dimension domain : pyobj) (project_id snapshot_id : string) (value : pyobj) : result unit :=
  (if v2_or_v3 version then _validate_identifier "snapshot" (PStr snapshot_id) else Ok tt) ;;
  match value with
  | PDict snapshot =>
      check_object snapshot ;;
      if is_v 2 version then _validate_v2_snapshot snapshot
      else if is_v 3 version then
        if has_key "payload_kind" snapshot then
          _validate_logical_snapshot snapshot ;;
          id ← get_item "snapshot_id" snapshot;
          raise_if (negb (py_eq id (PStr snapshot_id))) (EValue "catalog logical snapshot id mismatch") ;;
          d ← get_item "dimension_id" snapshot; e ← get_item "encryption_domain_id" snapshot;
          raise_if (negb (py_eq d dimension) || negb (py_eq e domain)) (EValue "catalog logical Dimension binding mismatch") ;;
          room ← get_item "room_id" snapshot;
          raise_if (negb (py_eq room (PStr project_id))) (EValue "catalog logical Room binding mismatch")
        else _validate_v2_snapshot snapshot
      else Ok tt
  | _ => Raise (EValue "catalog contains an invalid object key")
  end.

(** The room fields of version 3: its latest snapshot is one of its snapshots. *)
Definition latest_ok (latest : pyobj) (snapshots : dict) : bool :=
  if bool_decide (snapshots = []) then is_none latest
  else match latest with PStr l => has_key l snapshots | _ => false end.
Definition check_v3_room (project snapshots : dict) : result unit :=
  raise_if (negb (keys_are ["display_name"; "latest"; "snapshots"] project) || negb (nonempty_str (get_or_none "display_name" project)))
    (EValue "catalog v3 room fields are invalid") ;;
  raise_if (negb (latest_ok (get_or_none "latest" project) snapshots)) (EValue "catalog v3 latest snapshot is invalid").

Definition check_project (version dimension domain : pyobj) (project_id : string) (value : pyobj) : result unit :=
  (if v2_or_v3 version then _validate_identifier "project" (PStr project_id) else Ok tt) ;;
  match value with
  | PDict project =>
      match get_or_none "snapshots" project with
      | PDict snapshots =>
          (if is_v 3 version then check_v3_room project snapshots else Ok tt) ;;
          for_each (fun '(id, snapshot) => check_snapshot version dimension domain project_id id snapshot) snapshots
      | _ => Raise (EType "catalog room is invalid")
      end
  | _ => Raise (EType "catalog room is invalid")
  end.

Definition V3_FIELDS : list string := ["format_version"; "dimension_id"; "encryption_domain_id"; "revision"; "projects"].
Definition check_body (b : dict) : result unit :=
  let version := get_or_none "format_version" b in
  let revision := get_or_none "revision" b in
  raise_if (negb (is_version version) || negb (match revision with PInt r => (0 <=? r)%Z | _ => false end))
    (EValue "unsupported catalog format") ;;
  match get_or_none "projects" b with
  | PDict projects =>
      (if v2_or_v3 version then _validate_identifier "dimension" (get_or_none "dimension_id" b) else Ok tt) ;;
      (if is_v 3 version then
         raise_if (negb (keys_are V3_FIELDS b)) (EValue "catalog v3 fields are invalid") ;;
         validate_encryption_domain_id (get_or_none "encryption_domain_id" b)
       else Ok tt) ;;
      for_each (fun '(id, project) =>
        check_project version (get_or_none "dimension_id" b) (get_or_none "encryption_domain_id" b) id project) projects
  | _ => Raise (EType "catalog projects are invalid")
  end.

Definition Catalog_init (b : dict) (domain : pyobj) : result Catalog :=
  catalog ← bind_domain b domain; check_body (body catalog) ;; Ok catalog.

(** ** Reading and replacing parts of a body

    [d[k]] where the result is subscripted in turn; on the bodies the constructor
    accepts the value is always an object. *)
Definition not_subscriptable : exn := EType "object is not subscriptable".
Definition as_object (v : pyobj) : result dict := match v with PDict d => Ok d | _ => Raise not_subscriptable end.
Definition get_object (k : string) (d : dict) : result dict := v ← get_item k d; as_object v.
(** [d[key]] for a key of any type *)
Definition subscript (d : dict) (key : pyobj) : result pyobj :=
  match key with
  | PStr s => get_item s d
  | PList _ | PDict _ => Raise (EType "unhashable type")
  | _ => Raise EKey
  end.
(** The key of a new entry.  Keys that are not strings, which only version 1 would
    accept, are outside the model. *)
Definition entry_key (key : pyobj) : result string := match key with PStr s => Ok s | _ => Raise (EType "unhashable type") end.
Definition next_revision (b : dict) : result dict :=
  r ← get_item "revision" b;
  match r with PInt r => Ok (dict_set "revision" (PInt (r + 1)) b) | _ => Raise (EType "unsupported operand") end.

(** ** Building catalogs *)
Definition catalog_empty (dimension domain : pyobj) : result Catalog :=
  let v1 := [("format_version", PInt 1); ("revision", PInt 0); ("projects", PDict [])] in
  let v2 := [("format_version", PInt 2); ("dimension_id", dimension); ("revision", PInt 0); ("projects", PDict [])] in
  (if is_none domain then Ok tt else validate_encryption_domain_id domain) ;;
  if is_none dimension then Catalog_init v1 domain
  else _validate_identifier "dimension" dimension ;; Catalog_init v2 domain.

(** What the upgrade to version 2 adds to a snapshot. *)
Definition zero_digest : string := of_chars (replicate 64 "0"%char).
Definition upgrade_snapshot (value : pyobj) : result pyobj :=
  match value with
  | PDict s => Ok (PDict (setdefault "workspace_fingerprint" (PStr zero_digest)
                            (setdefault "created_at" (PStr "1970-01-01T00:00:00+00:00") s)))
  | _ => Raise EAttribute
  end.
(** [for value in d.get(k, {}).values(): f(value)], changing the values in place *)
Definition change_values (k : string) (f : pyobj -> result pyobj) (d : dict) : result dict :=
  match dict_get k d with
  | None => Ok d
  | Some (PDict entries) =>
      entries ← map_result (fun '(id, v) => v ← f v; Ok (id, v)) entries; Ok (dict_set k (PDict entries) d)
  | Some _ => Raise EAttribute
  end.
Definition upgrade_project (value : pyobj) : result pyobj :=
  match value with
  | PDict project => project ← change_values "snapshots" upgrade_snapshot project; Ok (PDict project)
  | _ => Raise EAttribute
  end.

Definition dimension_id (self : Catalog) : pyobj := get_or_none "dimension_id" (body self).

Definition from_body (value : pyobj) (dimension domain : pyobj) : result Catalog :=
  match value with
  | PDict value =>
      raise_if (py_eq (get_or_none "format_version" value) (PInt 3) && negb (has_key "encryption_domain_id" value))
        (EValue "catalog v3 encryption domain is required") ;;
      value ← (if is_none domain then Ok value
               else
                 validate_encryption_domain_id domain ;;
                 let existing := get_or_none "encryption_domain_id" value in
                 raise_if (negb (is_none existing) && negb (py_eq existing domain)) (EValue "catalog encryption domain mismatch") ;;
                 Ok (dict_set "encryption_domain_id" domain value));
      value ← (if is_v 1 (get_or_none "format_version" value) && negb (is_none dimension) then
                 _validate_identifier "dimension" dimension ;;
                 change_values "projects" upgrade_project
                   (dict_set "dimension_id" dimension (dict_set "format_version" (PInt 2) value))
               else Ok value);
      catalog ← Catalog_init value PNone;
      raise_if (negb (is_none dimension) && negb (py_eq (dimension_id catalog) dimension)) (EValue "catalog Dimension mismatch") ;;
      Ok catalog
  | _ => Raise EAttribute
  end.

(** ** Adding snapshots *)
Definition new_project (display_name : string) : pyobj :=
  PDict [("display_name", PStr display_name); ("latest", PNone); ("snapshots", PDict [])].
Definition with_snapshot (display_name id : string) (snapshot : dict) (project : dict) : result dict :=
  snapshots ← get_object "snapshots" project;
  Ok (dict_set "latest" (PStr id)
        (dict_set "snapshots" (PDict (dict_set id (PDict snapshot) snapshots))
           (dict_set "display_name" (PStr display_name) project))).
(** The snapshot becomes the latest one of its room, which is made if it is not there. *)
Definition insert_snapshot (b : dict) (project_id display_name : string) (snapshot : dict) : result Catalog :=
  projects ← get_object "projects" b;
  project ← as_object (default (new_project display_name) (dict_get project_id projects));
  id ← get_item "snapshot_id" snapshot;
  id ← entry_key id;
  project ← with_snapshot display_name id snapshot project;
  b ← next_revision (dict_set "projects" (PDict (dict_set project_id (PDict project) projects)) b);
  Catalog_init b PNone.

Definition add_snapshot (self : Catalog) (project_id display_name : string) (snapshot : dict) : result Catalog :=
  check_object snapshot ;;
  version ← get_item "format_version" (body self);
  (if v2_or_v3 version then _validate_identifier "project" (PStr project_id) ;; _validate_v2_snapshot snapshot else Ok tt) ;;
  insert_snapshot (body self) project_id display_name
    (if v2_or_v3 version then setdefault "origin_project_id" (PStr project_id) snapshot else snapshot).

(** ** Logical snapshots *)
Record ObjectRef := { key : pyobj; object_sha256 : pyobj; size : pyobj }.

Definition object_ref_ok (ref : ObjectRef) : bool :=
  match key ref with
  | PStr k => fullmatch OBJECT_KEY k && py_eq (object_sha256 ref) (PStr (key_digest k)) && positive_int (size ref)
  | _ => false
  end.

Definition record_component_ref (component : pyobj) : result pyobj :=
  if is_none component then Ok PNone
  else
    component ← as_object component;
    snapshot ← get_object "snapshot" component;
    id ← get_item "snapshot_id" snapshot; tree ← get_item "tree_id" snapshot;
    Ok (PDict [("snapshot_id", id); ("tree_id", tree)]).

(** [{new: d[old] for new, old in ...}] *)
Definition copy_fields (names : list (string * string)) (d : dict) : result dict :=
  map_result (fun '(new, old) => v ← get_item old d; Ok (new, v)) names.
Definition RECORD_IDENTITY : list (string * string) :=
  [("snapshot_id", "logical_jat_id"); ("payload_kind", "payload_kind"); ("dimension_id", "dimension_id");
   ("encryption_domain_id", "encryption_domain_id"); ("room_id", "room_id")].
Definition RECORD_WORKSPACE : list (string * string) :=
  [("repository_id", "repository_id"); ("repository_format", "repository_format");
   ("workspace_snapshot_id", "snapshot_id"); ("tree_id", "tree_id")].
Definition RECORD_SIZES : list (string * string) :=
  [("logical_bytes", "logical_bytes"); ("data_added", "data_added"); ("data_added_packed", "data_added_packed")].

Section logical.
Context `{PyRuntime, JsonRuntime}.

(** The record of a descriptor's dictionary form. *)
Definition record_fields (b : dict) (object_ref : ObjectRef) (workspace_signature : pyobj) : result dict :=
  workspace ← get_object "workspace" b;
  components ← get_object "components" b;
  identity ← copy_fields RECORD_IDENTITY b;
  created ← get_item "created_at" b;
  repository ← copy_fields RECORD_WORKSPACE workspace;
  policy ← get_item "capture_policy_sha256" b;
  sizes ← copy_fields RECORD_SIZES workspace;
  refs ← map_result (fun '(name, component) => ref ← record_component_ref component; Ok (name, ref)) components;
  Ok (identity
      ++ [("object_key", key object_ref); ("ciphertext_sha256", object_sha256 object_ref);
          ("ciphertext_size", size object_ref); ("created_at", created)]
      ++ repository
      ++ [("capture_policy_sha256", policy); ("workspace_signature", workspace_signature);
          ("signature_algorithm", PStr "josh-room-stat-v1")]
      ++ sizes
      ++ [("component_refs", PDict refs)]
      ++ match dict_get "origin_room_id" b with Some origin => [("origin_room_id", origin)] | None => [] end).

Definition _logical_snapshot_record (project_id : string) (descriptor : LogicalJat) (object_ref : ObjectRef)
    (workspace_signature : pyobj) : result dict :=
  b ← to_dict descriptor; b ← as_object b;
  _validate_logical_identifier "project" (PStr project_id) ;;
  room ← get_item "room_id" b;
  raise_if (negb (py_eq room (PStr project_id))) (EValue "logical descriptor Room does not match the catalog project") ;;
  raise_if (negb (object_ref_ok object_ref)) (EValue "logical descriptor object reference is invalid") ;;
  _validate_digest "workspace signature" workspace_signature ;;
  record ← record_fields b object_ref workspace_signature;
  _validate_logical_snapshot record ;;
  Ok record.

Definition corroborate_logical_snapshot (project_id : string) (value : pyobj) (descriptor : LogicalJat) : result LogicalJat :=
  match value with
  | PDict snapshot =>
      let object_ref := {| key := get_or_none "object_key" snapshot; object_sha256 := get_or_none "ciphertext_sha256" snapshot;
                           size := get_or_none "ciphertext_size" snapshot |} in
      expected ← _logical_snapshot_record project_id descriptor object_ref (get_or_none "workspace_signature" snapshot);
      raise_if (negb (py_eq value (PDict expected))) (EValue "catalog logical snapshot does not match its descriptor") ;;
      Ok descriptor
  | _ => Raise (EType "catalog logical snapshot is invalid")
  end.

Definition add_logical_snapshot (self : Catalog) (project_id display_name : string) (descriptor : LogicalJat)
    (object_ref : ObjectRef) (workspace_signature : pyobj) : result Catalog :=
  version ← get_item "format_version" (body self);
  raise_if (negb (v2_or_v3 version)) (EValue "logical snapshots require a Dimension catalog") ;;
  raise_if (is_none (dimension_id self) || is_none (encryption_domain_id self))
    (EValue "logical snapshots require an encryption domain binding") ;;
  record ← _logical_snapshot_record project_id descriptor object_ref workspace_signature;
  d ← get_item "dimension_id" record;
  raise_if (negb (py_eq d (dimension_id self))) (EValue "logical descriptor Dimension does not match the catalog") ;;
  e ← get_item "encryption_domain_id" record;
  raise_if (negb (py_eq e (encryption_domain_id self))) (EValue "logical descriptor encryption domain does not match the catalog") ;;
  insert_snapshot (dict_set "encryption_domain_id" (encryption_domain_id self) (dict_set "format_version" (PInt 3) (body self)))
    project_id display_name record.
End logical.

(** ** Lookups *)
Definition latest (self : Catalog) (project_id : string) : result pyobj :=
  projects ← get_object "projects" (body self);
  project ← get_object project_id projects;
  snapshots ← get_object "snapshots" project;
  l ← get_item "latest" project;
  subscript snapshots l.

Definition is_key_error (e : exn) : bool := match e with EKey => true | _ => false end.
Definition resolve_snapshot (self : Catalog) (project_id snapshot_id : string) : result pyobj :=
  projects ← get_object "projects" (body self);
  project ← get_object project_id projects;
  resolved ← (if String.eqb snapshot_id "latest" then get_item "latest" project else Ok (PStr snapshot_id));
  reraise is_key_error (EValue "snapshot is not present in the encrypted catalog")
    (snapshots ← get_object "snapshots" project; subscript snapshots resolved).

(** ** Removals *)
Definition snapshot_key (value : pyobj) : result string :=
  s ← as_object value; k ← get_item "object_key" s; entry_key k.
(** The object keys of the snapshots of a room, and of all rooms. *)
Definition room_keys (value : pyobj) : result (list string) :=
  project ← as_object value; snapshots ← get_object "snapshots" project; map_result snapshot_key snapshots.*2.
Definition referenced_keys (projects : dict) : result (list string) := ls ← map_result room_keys projects.*2; Ok (concat ls).
(** [sorted(set(a) - set(b))] *)
Definition set_difference (a b : list string) : list string :=
  merge_sort String.le (remove_dups (filter (fun k => k ∉ b) a)).

Definition remove_project (self : Catalog) (project_id : string) : result (Catalog * list string * nat) :=
  projects ← get_object "projects" (body self);
  raise_if (negb (has_key project_id projects)) (EValue "room is not present in the encrypted catalog") ;;
  removed ← get_item project_id projects;
  let remaining := dict_del project_id projects in
  referenced ← referenced_keys remaining;
  keys ← room_keys removed;
  b ← next_revision (dict_set "projects" (PDict remaining) (body self));
  catalog ← Catalog_init b PNone;
  removed ← as_object removed; snapshots ← get_object "snapshots" removed;
  Ok (catalog, set_difference keys referenced, length snapshots).

(** [[] if key in referenced else [key]] *)
Definition unless_referenced (k : string) (referenced : list string) : list string :=
  if bool_decide (k ∈ referenced) then [] else [k].
(** The new latest snapshot of a room when the latest one was removed: the last key. *)
Definition with_latest (snapshot_id : string) (snapshots : dict) (project : dict) : result dict :=
  l ← get_item "latest" project;
  if py_eq l (PStr snapshot_id) then
    match last snapshots.*1 with Some k => Ok (dict_set "latest" (PStr k) project) | None => Raise EStopIteration end
  else Ok project.

Definition remove_snapshot (self : Catalog) (project_id snapshot_id : string) : result (Catalog * list string * bool) :=
  projects ← get_object "projects" (body self);
  raise_if (negb (has_key project_id projects)) (EValue "room is not present in the encrypted catalog") ;;
  project ← get_object project_id projects;
  snapshots ← get_object "snapshots" project;
  raise_if (negb (has_key snapshot_id snapshots)) (EValue "snapshot is not present in the encrypted catalog") ;;
  removed ← get_item snapshot_id snapshots;
  if (length snapshots =? 1)%nat then
    let remaining := dict_del project_id projects in
    referenced ← referenced_keys remaining;
    k ← snapshot_key removed;
    b ← next_revision (dict_set "projects" (PDict remaining) (body self));
    catalog ← Catalog_init b PNone;
    Ok (catalog, unless_referenced k referenced, true)
  else
    let kept := dict_del snapshot_id snapshots in
    changed ← with_latest snapshot_id kept (dict_set "snapshots" (PDict kept) project);
    let remaining := dict_set project_id (PDict changed) projects in
    referenced ← referenced_keys remaining;
    k ← snapshot_key removed;
    b ← next_revision (dict_set "projects" (PDict remaining) (body self));
    catalog ← Catalog_init b PNone;
    Ok (catalog, unless_referenced k referenced, false).

(** ** Optimistic concurrency *)
Definition stale : exn := ECatalogConflict "stale catalog revision".
Definition is_revision (expected : pyobj) : bool := match expected with PInt r => (0 <=? r)%Z | _ => false end.
Definition update_if_revision (self : Catalog) (expected_revision : pyobj) (value : pyobj) : result Catalog :=
  raise_if (negb (is_revision expected_revision)) stale ;;
  revision ← get_item "revision" (body self);
  raise_if (negb (py_eq revision expected_revision)) stale ;;
  from_body value (dimension_id self) (encryption_domain_id self).
