(* ===== verification/CatalogProps.v ===== *)
(** * The room catalog: lemmas

    Inversions and introductions of the constructor's checks, and what the operations
    do to the entries of a body. *)

From S2P Require Import Prelude PyStr PyObj PyDatetime PyJson LogicalJat Catalog.
From Stdlib Require Import Ascii.

(** ** Entries of a dictionary *)
Definition entries_ok {V} (P : string -> V -> Prop) (d : list (string * V)) : Prop := Forall (fun kv => P kv.1 kv.2) d.

Lemma entries_get {V} (P : string -> V -> Prop) d k v : entries_ok P d -> dict_get k d = Some v -> P k v.
Proof. intros Hd Hk%dict_get_elem. unfold entries_ok in Hd. rewrite Forall_forall in Hd. exact (Hd _ Hk). Qed.
Lemma entries_set {V} (P : string -> V -> Prop) d k v : entries_ok P d -> P k v -> entries_ok P (dict_set k v d).
Proof.
  intros Hd Hv. induction d as [|[k' v'] d IH]; simpl; [by constructor |].
  apply Forall_cons in Hd as [Hk Hd]. case_bool_decide as Hkk; subst; (constructor; [done | by try apply IH]).
Qed.
Lemma entries_del {V} (P : string -> V -> Prop) d k : entries_ok P d -> entries_ok P (dict_del k d).
Proof. intros Hd. unfold entries_ok, dict_del in *. rewrite Forall_forall in *. intros x [_ Hx]%list_elem_of_filter. by apply Hd. Qed.
Lemma entries_impl {V} (P Q : string -> V -> Prop) d : (forall k v, P k v -> Q k v) -> entries_ok P d -> entries_ok Q d.
Proof. intros Hpq Hd. eapply Forall_impl; [exact Hd |]. intros [k v]. apply Hpq. Qed.
Lemma entries_default {V} (P : string -> V -> Prop) d k v : entries_ok P d -> P k v -> P k (default v (dict_get k d)).
Proof. intros Hd Hv. destruct (dict_get k d) eqn:Hk; [by eapply entries_get | done]. Qed.
Lemma for_each_entries (f : string -> pyobj -> result unit) d :
  for_each (fun '(k, v) => f k v) d = Ok tt <-> entries_ok (fun k v => f k v = Ok tt) d.
Proof. rewrite for_each_Ok. unfold entries_ok. apply Forall_iff. by intros [k v]. Qed.

Lemma dict_get_del {V} (k k' : string) (d : list (string * V)) :
  dict_get k (dict_del k' d) = if bool_decide (k = k') then None else dict_get k d.
Proof.
  unfold dict_del. induction d as [|[k1 v1] d IH]; [simpl; by case_bool_decide |].
  rewrite filter_cons. cbn [fst]. destruct (decide (k1 ≠ k')) as [Hk1|Hk1]; cbn [dict_get].
  - rewrite IH. repeat case_bool_decide; subst; done.
  - apply dec_stable in Hk1 as ->. rewrite IH. repeat case_bool_decide; done.
Qed.
Lemma get_or_none_set k k' v d : get_or_none k (dict_set k' v d) = if bool_decide (k = k') then v else get_or_none k d.
Proof. unfold get_or_none. rewrite dict_get_set. by case_bool_decide. Qed.
Lemma get_or_none_get k d v : get_or_none k d = v -> v <> PNone -> dict_get k d = Some v.
Proof. unfold get_or_none. destruct (dict_get k d); simpl; congruence. Qed.
Lemma get_or_none_eq k d v : dict_get k d = Some v -> get_or_none k d = v.
Proof. unfold get_or_none. by intros ->. Qed.
Lemma dict_set_set {V} k (v w : V) d : dict_set k v (dict_set k w d) = dict_set k v d.
Proof.
  induction d as [|[k' v'] d IH]; simpl; [by rewrite bool_decide_true |].
  destruct (bool_decide (k = k')) eqn:Hk; simpl; rewrite Hk; [done | by rewrite IH].
Qed.
Lemma has_key_get {V} k (d : list (string * V)) v : dict_get k d = Some v -> has_key k d = true.
Proof. intros Hk. apply has_key_spec. eauto. Qed.
Lemma has_key_set {V} k k' (v : V) d : has_key k (dict_set k' v d) = bool_decide (k = k') || has_key k d.
Proof.
  apply eq_true_iff_eq. rewrite orb_true_iff, !has_key_spec, dict_get_set.
  case_bool_decide; naive_solver.
Qed.

(** ** The constructor, read backwards *)
Definition id_matches (r : re) (s : string) : Prop := fullmatch r s = true.

Lemma identifier_Ok label s : _validate_identifier label (PStr s) = Ok tt <-> fullmatch _IDENTIFIER s = true.
Proof. unfold _validate_identifier. by destruct (fullmatch _IDENTIFIER s). Qed.
Lemma domain_Ok v : validate_encryption_domain_id v = Ok tt -> exists s, v = PStr s /\ fullmatch UUID4_RE s = true.
Proof. destruct v; try done. unfold validate_encryption_domain_id. intros Hv. inv_result. bools. eauto. Qed.

(** The object a snapshot names. *)
Definition names_object (s : dict) (k : string) : Prop :=
  dict_get "object_key" s = Some (PStr k) /\ fullmatch OBJECT_KEY k = true
  /\ dict_get "ciphertext_sha256" s = Some (PStr (key_digest k)).
Lemma py_eq_PStr v s : py_eq v (PStr s) = true <-> v = PStr s.
Proof. split; [|intros ->; simpl; by rewrite bool_decide_true]. destruct v; try done. simpl. intros H. by bools; subst. Qed.
Lemma empty_object_key : fullmatch OBJECT_KEY "" = false.
Proof. by vm_compute. Qed.
Lemma check_object_Ok s : check_object s = Ok tt <-> exists k, names_object s k.
Proof.
  unfold check_object, object_key_of, names_object. split.
  - destruct (dict_get "object_key" s) as [v|]; cbn [from_option id].
    + destruct v as [| | | |k| |]; try done. cbn [from_option id]. intros H. inv_result. bools. apply py_eq_PStr in H.
      eexists. split; [reflexivity |]. split; [done |]. by apply get_or_none_get.
    + intros H. inv_result. bools. exfalso. pose proof empty_object_key. congruence.
  - intros (k & -> & Hk & Hd). cbn [from_option id]. rewrite Hk. cbn [negb raise_if mbind result_bind].
    unfold get_or_none. rewrite Hd. cbn [from_option id]. by rewrite (proj2 (py_eq_PStr _ _)).
Qed.

(** ** What the constructor checks, as one proposition per level *)
Section checked.
Context (v : Z) (dimension domain : pyobj).

Definition logical_at (project_id snapshot_id : string) (s : dict) : Prop :=
  _validate_logical_snapshot s = Ok tt /\ dict_get "snapshot_id" s = Some (PStr snapshot_id)
  /\ dict_get "room_id" s = Some (PStr project_id)
  /\ (exists d, dict_get "dimension_id" s = Some d /\ py_eq d dimension = true)
  /\ (exists e, dict_get "encryption_domain_id" s = Some e /\ py_eq e domain = true).
Definition snapshot_at (project_id snapshot_id : string) (value : pyobj) : Prop :=
  ((2 <= v)%Z -> fullmatch _IDENTIFIER snapshot_id = true)
  /\ exists s, value = PDict s /\ (exists k, names_object s k)
     /\ (v = 2%Z -> _validate_v2_snapshot s = Ok tt)
     /\ (v = 3%Z -> if has_key "payload_kind" s then logical_at project_id snapshot_id s else _validate_v2_snapshot s = Ok tt).
Definition room_at (project_id : string) (value : pyobj) : Prop :=
  ((2 <= v)%Z -> fullmatch _IDENTIFIER project_id = true)
  /\ exists p ss, value = PDict p /\ dict_get "snapshots" p = Some (PDict ss)
     /\ (v = 3%Z -> check_v3_room p ss = Ok tt) /\ entries_ok (snapshot_at project_id) ss.

Lemma is_v_PInt n m : is_v n (PInt m) = (n =? m)%Z.
Proof. unfold is_v, int_between. destruct (n =? m)%Z eqn:E; lia. Qed.

Hypothesis Hv : (1 <= v <= 3)%Z.
Lemma v2_or_v3_PInt : v2_or_v3 (PInt v) = (2 <=? v)%Z.
Proof. unfold v2_or_v3, int_between. lia. Qed.

Lemma check_snapshot_Ok pid sid value :
  check_snapshot (PInt v) dimension domain pid sid value = Ok tt <-> snapshot_at pid sid value.
Proof.
  unfold check_snapshot, snapshot_at. rewrite v2_or_v3_PInt, !is_v_PInt. split.
  - intros H. inv_result. split.
    { intros H2. match goal with A : (if _ then _ else _) = _ |- _ => rewrite (proj2 (Z.leb_le 2 v)) in A by lia; by apply identifier_Ok in A end. }
    destruct value; try done. inv_result. exists d. split; [done |].
    split; [by apply check_object_Ok |]. split.
    + intros ->. done.
    + intros ->. cbn in H. destruct (has_key "payload_kind" d); [|done]. inv_result. bools.
      repeat match goal with A : get_item _ _ = _ |- _ => apply get_item_Ok in A | A : py_eq _ (PStr _) = true |- _ => apply py_eq_PStr in A as -> end.
      unfold logical_at. eauto 10.
  - intros (Hid & s & -> & Hobj%check_object_Ok & H2 & H3).
    assert ((if (2 <=? v)%Z then _validate_identifier "snapshot" (PStr sid) else Ok ()) = Ok tt) as ->.
    { destruct (2 <=? v)%Z eqn:E; [|done]. apply identifier_Ok, Hid. lia. }
    cbn [mbind result_bind]. rewrite Hobj. cbn [mbind result_bind].
    destruct (2 =? v)%Z eqn:E2; [apply H2; lia |]. destruct (3 =? v)%Z eqn:E3; [|done]. specialize (H3 ltac:(lia)).
    destruct (has_key "payload_kind" s); [|done]. destruct H3 as (Hl & Hs & Hr & (d & Hd & Hdd) & (e & He & Hee)).
    rewrite Hl. cbn [mbind result_bind]. unfold get_item. rewrite Hs, Hr, Hd, He. cbn [mbind result_bind].
    rewrite !(proj2 (py_eq_PStr (PStr _) _)), Hdd, Hee by done. done.
Qed.

Lemma check_project_Ok pid value : check_project (PInt v) dimension domain pid value = Ok tt <-> room_at pid value.
Proof.
  unfold check_project, room_at. rewrite v2_or_v3_PInt, is_v_PInt. split.
  - intros H. inv_result. split.
    { intros H2. match goal with A : (if _ then _ else _) = _ |- _ => rewrite (proj2 (Z.leb_le 2 v)) in A by lia; by apply identifier_Ok in A end. }
    destruct value as [| | | | | |p]; try done. destruct (get_or_none "snapshots" p) as [| | | | | |ss] eqn:Hss; try done. inv_result.
    apply get_or_none_get in Hss; [|done]. exists p, ss. split; [done |]. split; [done |]. split.
    + intros ->. done.
    + apply for_each_entries in H. eapply entries_impl; [|exact H]. intros sid s. apply check_snapshot_Ok.
  - intros (Hid & p & ss & -> & Hss & H3 & Hall).
    assert ((if (2 <=? v)%Z then _validate_identifier "project" (PStr pid) else Ok ()) = Ok tt) as ->.
    { destruct (2 <=? v)%Z eqn:E; [|done]. apply identifier_Ok, Hid. lia. }
    cbn [mbind result_bind]. unfold get_or_none at 1. rewrite Hss. cbn [from_option id].
    assert ((if (3 =? v)%Z then check_v3_room p ss else Ok ()) = Ok tt) as ->.
    { destruct (3 =? v)%Z eqn:E; [apply H3; lia | done]. }
    cbn [mbind result_bind]. apply for_each_entries. eapply entries_impl; [|exact Hall]. intros sid s. apply check_snapshot_Ok.
Qed.
End checked.

(** A body the constructor accepts: its version, revision and rooms. *)
Definition checked_body (b : dict) (v r : Z) (projects : dict) : Prop :=
  (1 <= v <= 3)%Z /\ (0 <= r)%Z
  /\ dict_get "format_version" b = Some (PInt v) /\ dict_get "revision" b = Some (PInt r)
  /\ dict_get "projects" b = Some (PDict projects)
  /\ ((2 <= v)%Z -> exists d, dict_get "dimension_id" b = Some (PStr d) /\ fullmatch _IDENTIFIER d = true)
  /\ (v = 3%Z -> keys_are V3_FIELDS b = true /\ exists e, dict_get "encryption_domain_id" b = Some (PStr e)
                /\ validate_encryption_domain_id (PStr e) = Ok tt)
  /\ entries_ok (room_at v (get_or_none "dimension_id" b) (get_or_none "encryption_domain_id" b)) projects.

Lemma check_body_Ok b : check_body b = Ok tt <-> exists v r projects, checked_body b v r projects.
Proof.
  unfold check_body, checked_body. split.
  - intros H. inv_result. bools.
    destruct (get_or_none "format_version" b) as [| |v| | | |] eqn:Hv; try done.
    destruct (get_or_none "revision" b) as [| |r| | | |] eqn:Hr; try done.
    destruct (get_or_none "projects" b) as [| | | | | |projects] eqn:Hp; try done. inv_result.
    assert (1 <= v <= 3)%Z as Hrange by (match goal with A : is_version _ = _ |- _ => unfold is_version, int_between in A; lia end).
    apply get_or_none_get in Hv, Hr, Hp; try done. exists v, r, projects. split; [done |]. split; [lia |].
    split; [done |]. split; [done |]. split; [done |].
    rewrite v2_or_v3_PInt, is_v_PInt in * by done. split; [|split].
    + intros Hge. match goal with A : (if (2 <=? v)%Z then _ else _) = _ |- _ => rewrite (proj2 (Z.leb_le 2 v)) in A by lia end.
      destruct (get_or_none "dimension_id" b) as [| | | |d| |] eqn:Hd; try done. exists d.
      split; [by apply get_or_none_get in Hd | by eapply identifier_Ok].
    + intros ->. change (3 =? 3)%Z with true in *. cbn iota in *. inv_result. bools.
      match goal with A : keys_are _ _ = true |- _ => split; [exact A |] end.
      match goal with A : validate_encryption_domain_id _ = _ |- _ => pose proof A as Hval; apply domain_Ok in A as (e & He & _) end.
      exists e. rewrite He in Hval. split; [by apply get_or_none_get in He | done].
    + apply for_each_entries in H. eapply entries_impl; [|exact H]. intros pid p. by apply check_project_Ok.
  - intros (v & r & projects & Hrange & Hr0 & Hv & Hr & Hp & H2 & H3 & Hall).
    rewrite (get_or_none_eq _ _ _ Hv), (get_or_none_eq _ _ _ Hr), (get_or_none_eq _ _ _ Hp).
    assert (is_version (PInt v) = true) as -> by (unfold is_version, int_between; lia).
    rewrite (proj2 (Z.leb_le 0 r)) by done. cbn [negb orb raise_if mbind result_bind].
    rewrite v2_or_v3_PInt, is_v_PInt by done.
    assert ((if (2 <=? v)%Z then _validate_identifier "dimension" (get_or_none "dimension_id" b) else Ok ()) = Ok tt) as ->.
    { destruct (2 <=? v)%Z eqn:E; [|done]. destruct H2 as (d & Hd & Hm); [lia |]. unfold get_or_none. rewrite Hd. by apply identifier_Ok. }
    cbn [mbind result_bind].
    assert ((if (3 =? v)%Z then raise_if (negb (keys_are V3_FIELDS b)) (EValue "catalog v3 fields are invalid") ;;
              validate_encryption_domain_id (get_or_none "encryption_domain_id" b) else Ok ()) = Ok tt) as ->.
    { destruct (3 =? v)%Z eqn:E; [|done]. destruct H3 as (-> & e & He & Hval); [lia |]. unfold get_or_none. by rewrite He. }
    cbn [mbind result_bind]. apply for_each_entries. eapply entries_impl; [|exact Hall]. intros pid p. by apply check_project_Ok.
Qed.

(** ** Sound catalogs *)
Definition domain_ok (e : pyobj) : Prop := e = PNone \/ exists s, e = PStr s /\ validate_encryption_domain_id e = Ok tt.
(** The catalog's domain is the one of its body. *)
Definition sound (c : Catalog) : Prop :=
  (exists v r projects, checked_body (body c) v r projects)
  /\ encryption_domain_id c = get_or_none "encryption_domain_id" (body c) /\ domain_ok (encryption_domain_id c).

Lemma domain_ok_check v : validate_encryption_domain_id v = Ok tt -> domain_ok v.
Proof. intros Hv. right. pose proof Hv as (s & -> & _)%domain_Ok. eauto. Qed.
Lemma bind_domain_inv b e c : bind_domain b e = Ok c ->
  encryption_domain_id c = get_or_none "encryption_domain_id" (body c) /\ domain_ok (encryption_domain_id c)
  /\ (e = PNone -> body c = b) /\ (forall k, k <> "encryption_domain_id" -> dict_get k (body c) = dict_get k b).
Proof.
  unfold bind_domain. intros H. inv_result. destruct (is_none e) eqn:He.
  - inv_result. cbn [body encryption_domain_id]. assert ((if is_none (get_or_none "encryption_domain_id" b) then PNone
      else get_or_none "encryption_domain_id" b) = get_or_none "encryption_domain_id" b) as -> by by destruct (get_or_none _ b).
    destruct (get_or_none "encryption_domain_id" b) eqn:Hg; try (split; [done |]; split; [|done]; by apply domain_ok_check).
    split; [done |]. split; [by left | done].
  - inv_result. cbn [body encryption_domain_id]. destruct (is_none (get_or_none "encryption_domain_id" b)) eqn:Hn.
    + rewrite get_or_none_set, bool_decide_true by done. split; [done |]. split; [by apply domain_ok_check |].
      split; [by intros -> |]. intros k Hk. by rewrite dict_get_set, bool_decide_false.
    + cbn [negb andb] in *. match goal with A : negb (py_eq _ _) = false |- _ => apply negb_false_iff in A; rename A into Heq end.
      match goal with A : validate_encryption_domain_id e = _ |- _ => pose proof (domain_ok_check _ A); apply domain_Ok in A as (s & -> & _) end.
      apply py_eq_PStr in Heq. done.
Qed.
Lemma bind_domain_None b : domain_ok (get_or_none "encryption_domain_id" b) ->
  bind_domain b PNone = Ok {| body := b; encryption_domain_id := get_or_none "encryption_domain_id" b |}.
Proof.
  unfold bind_domain. intros [->|(s & Hs & Hval)]; [done |]. rewrite Hs in *. cbn [is_none]. by rewrite Hval.
Qed.

Lemma init_sound b e c : Catalog_init b e = Ok c -> sound c /\ (e = PNone -> body c = b)
  /\ (forall k, k <> "encryption_domain_id" -> dict_get k (body c) = dict_get k b).
Proof.
  unfold Catalog_init. intros H. inv_result.
  match goal with A : bind_domain _ _ = _ |- _ => apply bind_domain_inv in A as (? & ? & ? & ?) end.
  match goal with A : check_body _ = _ |- _ => apply check_body_Ok in A end. done.
Qed.
Lemma init_Ok b v r projects : checked_body b v r projects -> domain_ok (get_or_none "encryption_domain_id" b) ->
  Catalog_init b PNone = Ok {| body := b; encryption_domain_id := get_or_none "encryption_domain_id" b |}.
Proof.
  intros Hb Hd. unfold Catalog_init. rewrite bind_domain_None by done. cbn [mbind result_bind body].
  assert (check_body b = Ok tt) as -> by (apply check_body_Ok; eauto). done.
Qed.

(** ** Replacing the rooms of a body *)
Definition with_projects (projects : dict) (r : Z) (b : dict) : dict :=
  dict_set "revision" (PInt r) (dict_set "projects" (PDict projects) b).

Lemma next_revision_projects b r projects : dict_get "revision" b = Some (PInt r) ->
  next_revision (dict_set "projects" (PDict projects) b) = Ok (with_projects projects (r + 1) b).
Proof. intros Hr. unfold next_revision, get_item. rewrite dict_get_set, bool_decide_false, Hr by done. done. Qed.
Lemma keys_within_Ok {V} ks (d : list (string * V)) : keys_within ks d = true <-> forall k, has_key k d = true -> k ∈ ks.
Proof.
  unfold keys_within, has_key. rewrite forallb_forall. split.
  - intros Hk k Hin%bool_decide_eq_true. apply list_elem_of_In, Hk, bool_decide_eq_true in Hin. done.
  - intros Hk k Hin%list_elem_of_In. apply bool_decide_eq_true, Hk. by apply bool_decide_eq_true.
Qed.
Lemma has_keys_Ok {V} ks (d : list (string * V)) : has_keys ks d = true <-> forall k, k ∈ ks -> has_key k d = true.
Proof. unfold has_keys. rewrite forallb_forall. by setoid_rewrite list_elem_of_In. Qed.
Lemma keys_are_Ok {V} ks (d : list (string * V)) : keys_are ks d = true <-> forall k, has_key k d = true <-> k ∈ ks.
Proof.
  unfold keys_are. rewrite andb_true_iff, keys_within_Ok, has_keys_Ok. naive_solver.
Qed.
Lemma keys_are_set {V} ks k (v : V) d : k ∈ ks -> keys_are ks d = true -> keys_are ks (dict_set k v d) = true.
Proof.
  intros Hk. rewrite !keys_are_Ok. intros Hd k'. rewrite has_key_set, orb_true_iff, bool_decide_eq_true, Hd. naive_solver.
Qed.
(** Membership of a literal in a literal list. *)
Ltac literal := apply (bool_decide_eq_true_1 (_ ∈ _)); vm_compute; reflexivity.

Lemma with_projects_other projects r b k : k <> "revision" -> k <> "projects" -> dict_get k (with_projects projects r b) = dict_get k b.
Proof. intros. unfold with_projects. by rewrite !dict_get_set, !bool_decide_false. Qed.
Lemma with_projects_revision projects r b : dict_get "revision" (with_projects projects r b) = Some (PInt r).
Proof. unfold with_projects. by rewrite dict_get_set, bool_decide_true. Qed.
Lemma with_projects_projects projects r b : dict_get "projects" (with_projects projects r b) = Some (PDict projects).
Proof. unfold with_projects. by rewrite !dict_get_set. Qed.

Lemma checked_with_projects b v r projects projects' : checked_body b v r projects ->
  entries_ok (room_at v (get_or_none "dimension_id" b) (get_or_none "encryption_domain_id" b)) projects' ->
  checked_body (with_projects projects' (r + 1) b) v (r + 1) projects'.
Proof.
  intros (Hv & Hr & Hgv & Hgr & Hgp & H2 & H3 & Hall) Hall'. unfold checked_body.
  unfold get_or_none. rewrite with_projects_revision, with_projects_projects.
  rewrite (with_projects_other _ _ _ "format_version"), (with_projects_other _ _ _ "dimension_id"),
    (with_projects_other _ _ _ "encryption_domain_id") by done.
  split; [done |]. split; [lia |]. split; [done |]. split; [done |]. split; [done |]. split; [done |]. split; [|done].
  intros Hv3. destruct (H3 Hv3) as [Hk He]. split; [|done]. unfold with_projects. by do 2 (apply keys_are_set; [literal |]).
Qed.

(** ** The catalog as a map: rooms, their snapshots and the objects they name *)
Definition rooms (b : dict) : dict := default [] (as_dict (get_or_none "projects" b)).
Definition snapshots_of (room : pyobj) : dict := default [] (p ← as_dict room; dict_get "snapshots" p ≫= as_dict).
Definition find (b : dict) (pid sid : string) : option pyobj := room ← dict_get pid (rooms b); dict_get sid (snapshots_of room).
Definition latest_of (b : dict) (pid : string) : option pyobj := room ← dict_get pid (rooms b) ≫= as_dict; dict_get "latest" room.
Definition revision (c : Catalog) : Z := match get_or_none "revision" (body c) with PInt r => r | _ => 0 end.

(** ** The objects rooms refer to *)
Definition room_refers (room : pyobj) (k : string) : Prop :=
  exists sid s, (sid, PDict s) ∈ snapshots_of room /\ dict_get "object_key" s = Some (PStr k).
Definition refers (projects : dict) (k : string) : Prop := exists pid room, (pid, room) ∈ projects /\ room_refers room k.

Lemma map_result_total {A B} (f : A -> result B) (R : A -> B -> Prop) l :
  Forall (fun x => exists y, f x = Ok y /\ R x y) l -> exists ys, map_result f l = Ok ys /\ Forall2 R l ys.
Proof.
  induction 1 as [|x l (y & Hy & Hr) _ (ys & Hys & IH)]; [by exists [] |].
  exists (y :: ys). simpl. rewrite Hy. cbn [mbind result_bind]. rewrite Hys. split; [done | by constructor].
Qed.
Lemma Forall_snd {V} (P : V -> Prop) (d : list (string * V)) : Forall P d.*2 <-> entries_ok (fun _ => P) d.
Proof. unfold entries_ok. by rewrite Forall_fmap. Qed.

Lemma snapshots_of_PDict p ss : dict_get "snapshots" p = Some (PDict ss) -> snapshots_of (PDict p) = ss.
Proof. intros Hs. unfold snapshots_of. simpl. by rewrite Hs. Qed.
Lemma rooms_eq b projects : dict_get "projects" b = Some (PDict projects) -> rooms b = projects.
Proof. intros Hp. unfold rooms. by rewrite (get_or_none_eq _ _ _ Hp). Qed.
Lemma rooms_with projects r b : rooms (with_projects projects r b) = projects.
Proof. apply rooms_eq, with_projects_projects. Qed.

Section keys.
Context (v : Z) (d e : pyobj).
Lemma snapshot_key_Ok pid sid s : snapshot_at v d e pid sid s ->
  exists k s', s = PDict s' /\ dict_get "object_key" s' = Some (PStr k) /\ snapshot_key s = Ok k.
Proof.
  intros (_ & s' & -> & (k & Hk & _) & _). exists k, s'. split; [done |]. split; [done |].
  unfold snapshot_key, get_item. cbn [as_object mbind result_bind]. by rewrite Hk.
Qed.
Lemma room_keys_Ok pid room : room_at v d e pid room -> exists ks, room_keys room = Ok ks /\ forall k, k ∈ ks <-> room_refers room k.
Proof.
  intros (_ & p & ss & -> & Hss & _ & Hall). unfold room_keys, get_object, get_item. cbn [as_object mbind result_bind].
  rewrite Hss. cbn [mbind result_bind].
  destruct (map_result_total snapshot_key (fun s k => exists s', s = PDict s' /\ dict_get "object_key" s' = Some (PStr k)) ss.*2)
    as (ks & Hks & Hr).
  { apply Forall_snd. eapply entries_impl; [|exact Hall]. intros sid s (k & s' & ? & ? & ?)%snapshot_key_Ok. eauto. }
  exists ks. cbn [as_object mbind result_bind]. rewrite Hks. split; [done |]. intros k. unfold room_refers. rewrite (snapshots_of_PDict _ _ Hss). split.
  - intros (i & Hi)%list_elem_of_lookup. destruct (Forall2_lookup_r _ _ _ _ _ Hr Hi) as (s & Hs & s' & -> & Hk).
    rewrite list_lookup_fmap in Hs. destruct (ss !! i) as [[sid s]|] eqn:Hss'; [|done]. simpl in Hs. simplify_eq.
    exists sid, s'. split; [by eapply list_elem_of_lookup_2 | done].
  - intros (sid & s & (i & Hi)%list_elem_of_lookup & Hk).
    destruct (Forall2_lookup_l _ _ _ i (PDict s) Hr) as (k' & Hk' & s' & [= <-] & ?); [by rewrite list_lookup_fmap, Hi |].
    simplify_eq. by eapply list_elem_of_lookup_2.
Qed.
Lemma referenced_Ok projects : entries_ok (room_at v d e) projects ->
  exists ks, referenced_keys projects = Ok ks /\ forall k, k ∈ ks <-> refers projects k.
Proof.
  intros Hall. unfold referenced_keys.
  destruct (map_result_total room_keys (fun room ks => forall k, k ∈ ks <-> room_refers room k) projects.*2) as (ls & Hls & Hr).
  { apply Forall_snd. eapply entries_impl; [|exact Hall]. intros pid room. apply room_keys_Ok. }
  exists (concat ls). rewrite Hls. split; [done |]. intros k. rewrite list_elem_of_In, in_concat. split.
  - intros (ks & Hks & Hk). apply list_elem_of_In, list_elem_of_lookup in Hks as (i & Hi). apply list_elem_of_In in Hk.
    destruct (Forall2_lookup_r _ _ _ _ _ Hr Hi) as (room & Hroom & Hk').
    rewrite list_lookup_fmap in Hroom. destruct (projects !! i) as [[pid room']|] eqn:Hp; [|done]. simpl in Hroom. simplify_eq.
    exists pid, room. split; [by eapply list_elem_of_lookup_2 | by apply Hk'].
  - intros (pid & room & (i & Hi)%list_elem_of_lookup & Hk).
    destruct (Forall2_lookup_l _ _ _ i room Hr) as (ks & Hks & Hk'); [by rewrite list_lookup_fmap, Hi |].
    exists ks. rewrite <- !list_elem_of_In. split; [by eapply list_elem_of_lookup_2 | by apply Hk'].
Qed.
End keys.

Lemma set_difference_Ok a b k : k ∈ set_difference a b <-> k ∈ a /\ k ∉ b.
Proof. unfold set_difference. rewrite merge_sort_Permutation, elem_of_remove_dups, list_elem_of_filter. tauto. Qed.
Lemma unless_referenced_Ok k ks k' : k' ∈ unless_referenced k ks <-> k' = k /\ k ∉ ks.
Proof.
  unfold unless_referenced. case_bool_decide; [split; [by intros ?%not_elem_of_nil | naive_solver] |].
  rewrite list_elem_of_singleton. naive_solver.
Qed.
