(* ===== verification/CatalogOps.v ===== *)
(** * The room catalog: what its operations do

    Removals never fail on a sound catalog and an insertion into version 3 accepts
    every well-formed room; both leave a sound catalog with the next revision. *)

From S2P Require Import Prelude PyStr PyObj PyDatetime PyJson JsonProps LogicalJat LogicalJatProps Catalog CatalogProps.
From Stdlib Require Import Ascii.

(** ** Publishing a new body *)
Definition same_identity (c c' : Catalog) : Prop :=
  forall k, k <> "projects" -> k <> "revision" -> dict_get k (body c') = dict_get k (body c).

Lemma publish_projects c v r projects projects' : sound c -> checked_body (body c) v r projects ->
  entries_ok (room_at v (get_or_none "dimension_id" (body c)) (get_or_none "encryption_domain_id" (body c))) projects' ->
  exists b' c', next_revision (dict_set "projects" (PDict projects') (body c)) = Ok b' /\ Catalog_init b' PNone = Ok c'
    /\ sound c' /\ checked_body (body c') v (r + 1) projects' /\ same_identity c c' /\ b' = with_projects projects' (r + 1) (body c)
    /\ body c' = b'.
Proof.
  intros (_ & Hdom & Hok) Hc Hall. pose proof (checked_with_projects _ _ _ _ _ Hc Hall) as Hc'.
  destruct Hc as (_ & _ & _ & Hr & _).
  assert (get_or_none "encryption_domain_id" (with_projects projects' (r + 1) (body c)) = encryption_domain_id c) as Hd.
  { rewrite Hdom. unfold get_or_none. by rewrite with_projects_other. }
  eexists _, _. split; [by apply next_revision_projects |]. split; [by eapply init_Ok; [exact Hc' | rewrite Hd] |].
  split. { split; [eauto |]. split; [done |]. cbn [body encryption_domain_id]. by rewrite Hd. }
  split; [done |]. split; [|done]. intros k Hk1 Hk2. by apply with_projects_other.
Qed.

Lemma sound_checked c : sound c -> exists v projects, checked_body (body c) v (revision c) projects /\ rooms (body c) = projects.
Proof.
  intros ((v & r & projects & Hc) & _). exists v, projects. pose proof Hc as (_ & _ & _ & Hr & Hp & _).
  unfold revision. rewrite (get_or_none_eq _ _ _ Hr). split; [done | by apply rooms_eq].
Qed.
Lemma checked_revision c v r projects : checked_body (body c) v r projects -> revision c = r /\ rooms (body c) = projects.
Proof.
  intros (_ & _ & _ & Hr & Hp & _). unfold revision. rewrite (get_or_none_eq _ _ _ Hr). split; [done | by apply rooms_eq].
Qed.
Lemma get_object_Ok k d o : dict_get k d = Some (PDict o) -> get_object k d = Ok o.
Proof. intros Hk. unfold get_object, get_item. by rewrite Hk. Qed.

(** ** Removing a room *)
Lemma remove_project_total c pid room : sound c -> dict_get pid (rooms (body c)) = Some room ->
  exists c' keys, remove_project c pid = Ok (c', keys, length (snapshots_of room)) /\ sound c' /\ same_identity c c'
    /\ revision c' = (revision c + 1)%Z /\ rooms (body c') = dict_del pid (rooms (body c))
    /\ forall k, k ∈ keys <-> room_refers room k /\ ~ refers (rooms (body c')) k.
Proof.
  intros Hs Hroom. destruct (sound_checked c Hs) as (v & projects & Hc & Hrooms). rewrite Hrooms in *.
  pose proof Hc as (_ & _ & _ & _ & Hp & _ & _ & Hall).
  pose proof (entries_del _ _ pid Hall) as Hall'.
  destruct (publish_projects c v _ _ _ Hs Hc Hall') as (b' & c' & Hnext & Hinit & Hs' & Hc' & Hsame & Hb' & Hbody).
  destruct (checked_revision _ _ _ _ Hc') as [Hr' Hrooms'].
  destruct (referenced_Ok _ _ _ _ Hall') as (ks & Hks & Hrefs).
  pose proof (entries_get _ _ _ _ Hall Hroom) as Hat. destruct (room_keys_Ok _ _ _ _ _ Hat) as (rks & Hrks & Hrrefs).
  destruct Hat as (_ & p & ss & -> & Hss & _).
  exists c', (set_difference rks ks). rewrite (snapshots_of_PDict _ _ Hss). split; [|split; [done |]].
  - unfold remove_project. rewrite (get_object_Ok _ _ _ Hp). cbn [mbind result_bind].
    rewrite (has_key_get _ _ _ Hroom). cbn [negb raise_if mbind result_bind]. unfold get_item at 1. rewrite Hroom.
    cbn [mbind result_bind]. rewrite Hks. cbn [mbind result_bind]. rewrite Hrks. cbn [mbind result_bind].
    rewrite Hnext. cbn [mbind result_bind]. rewrite Hinit. cbn [mbind result_bind as_object].
    by rewrite (get_object_Ok _ _ _ Hss).
  - split; [done |]. split; [done |]. split; [done |]. intros k. by rewrite set_difference_Ok, Hrrefs, Hrefs, Hrooms'.
Qed.

(** ** Removing a snapshot *)
Lemma with_latest_Ok sid snapshots p : snapshots <> [] -> has_key "latest" p = true ->
  exists p', with_latest sid snapshots p = Ok p' /\ (forall k, k <> "latest" -> dict_get k p' = dict_get k p)
  /\ (forall ks, "latest" ∈ ks -> keys_are ks p = true -> keys_are ks p' = true)
  /\ exists l, dict_get "latest" p' = Some l
     /\ ((dict_get "latest" p = Some l /\ py_eq l (PStr sid) = false) \/ exists k, l = PStr k /\ last snapshots.*1 = Some k).
Proof.
  intros Hne (l & Hl)%has_key_spec. unfold with_latest, get_item. rewrite Hl. cbn [mbind result_bind].
  destruct (py_eq l (PStr sid)) eqn:He; [|exists p; eauto 10].
  destruct (last snapshots.*1) as [k|] eqn:Hk.
  - eexists. split; [done |]. split; [intros k' Hk'; by rewrite dict_get_set, bool_decide_false |].
    split; [intros; by apply keys_are_set |]. exists (PStr k). rewrite dict_get_set, bool_decide_true by done. eauto.
  - apply last_None, fmap_nil_inv in Hk. done.
Qed.
Lemma last_has_key {V} (d : list (string * V)) k : last d.*1 = Some k -> has_key k d = true.
Proof. intros (l & Hl)%last_Some. unfold has_key. rewrite bool_decide_eq_true, Hl. set_solver. Qed.

Lemma dict_del_nonempty {V} sid (d : list (string * V)) : NoDup d.*1 -> length d <> 1 -> has_key sid d = true -> dict_del sid d <> [].
Proof.
  intros Hd Hl Hk Hnil. assert (forall k, k ∈ d.*1 -> k = sid) as Hall.
  { intros k (kv & -> & Hkv)%list_elem_of_fmap. destruct (decide (kv.1 = sid)); [done |].
    exfalso. assert (kv ∈ dict_del sid d) as Hin by (unfold dict_del; by apply list_elem_of_filter). rewrite Hnil in Hin. by apply not_elem_of_nil in Hin. }
  destruct d as [|[k1 v1] [|[k2 v2] d]]; [by vm_compute in Hk | done |]. csimpl in *.
  apply NoDup_cons in Hd as [Hd _]. apply Hd.
  rewrite (Hall k1), <- (Hall k2); [left | right; left | left].
Qed.

(** The room without one of its snapshots. *)
Definition without_snapshot (sid : string) (room room' : pyobj) : Prop :=
  snapshots_of room' = dict_del sid (snapshots_of room)
  /\ exists p p', room = PDict p /\ room' = PDict p' /\ (forall k, k <> "latest" -> k <> "snapshots" -> dict_get k p' = dict_get k p).

Lemma room_without v d e pid p ss sid : room_at v d e pid (PDict p) -> dict_get "snapshots" p = Some (PDict ss) ->
  has_key "latest" p = true -> dict_del sid ss <> [] ->
  exists p', with_latest sid (dict_del sid ss) (dict_set "snapshots" (PDict (dict_del sid ss)) p) = Ok p'
    /\ room_at v d e pid (PDict p') /\ without_snapshot sid (PDict p) (PDict p').
Proof.
  intros (Hid & p0 & ss0 & [= <-] & Hss0 & H3 & Hall) Hss Hl Hne. rewrite Hss in Hss0. injection Hss0 as <-.
  destruct (with_latest_Ok sid (dict_del sid ss) (dict_set "snapshots" (PDict (dict_del sid ss)) p)) as (p' & Hp' & Hsame & Hkeys & l & Hl' & Hlatest);
    [done | by rewrite has_key_set, Hl, orb_true_r |].
  assert (dict_get "snapshots" p' = Some (PDict (dict_del sid ss))) as Hss' by (rewrite Hsame, dict_get_set, bool_decide_true; done).
  exists p'. split; [done |]. split; [split; [done |]; exists p', (dict_del sid ss); split; [done |]; split; [done |]; split |].
  - intros Hv. specialize (H3 Hv). unfold check_v3_room in *. inv_result. bools.
    rewrite Hkeys; [|literal | apply keys_are_set; [literal | done]].
    assert (get_or_none "display_name" p' = get_or_none "display_name" p) as ->.
    { unfold get_or_none. by rewrite Hsame, dict_get_set, bool_decide_false. }
    match goal with A : nonempty_str _ = true |- _ => rewrite A end. cbn [negb orb raise_if mbind result_bind].
    assert (latest_ok (get_or_none "latest" p') (dict_del sid ss) = true) as ->; [|done].
    rewrite (get_or_none_eq _ _ _ Hl'). unfold latest_ok in *. rewrite bool_decide_false by done.
    destruct Hlatest as [[Hlp Heq]|(k & -> & Hk)]; [|by apply last_has_key].
    rewrite dict_get_set, bool_decide_false in Hlp by done. rewrite (get_or_none_eq _ _ _ Hlp) in *.
    rewrite bool_decide_false in * by (intros ->; done). destruct l as [| | | |l| |]; try done.
    match goal with A : has_key l ss = true |- _ => apply has_key_spec in A as [x Hx] end. simpl in Heq. bools.
    apply has_key_spec. rewrite dict_get_del, bool_decide_false by done. eauto.
  - by apply entries_del.
  - split; [by rewrite (snapshots_of_PDict _ _ Hss), (snapshots_of_PDict _ _ Hss') |].
    exists p, p'. split; [done |]. split; [done |]. intros k Hk1 Hk2. by rewrite Hsame, dict_get_set, bool_decide_false.
Qed.

Definition snapshot_refers (s : pyobj) (k : string) : Prop := exists s', s = PDict s' /\ dict_get "object_key" s' = Some (PStr k).
Lemma snapshot_key_refers v d e pid sid s : snapshot_at v d e pid sid s ->
  exists k, snapshot_key s = Ok k /\ forall k', k' = k <-> snapshot_refers s k'.
Proof.
  intros (k & s' & -> & Hk & Hs)%snapshot_key_Ok. exists k. split; [done |]. intros k'. split.
  - intros ->. exists s'. done.
  - intros (? & [= <-] & ?). congruence.
Qed.

Lemma remove_snapshot_total c pid sid room s : sound c -> distinct (PDict (body c)) ->
  dict_get pid (rooms (body c)) = Some room -> dict_get sid (snapshots_of room) = Some s -> is_Some (latest_of (body c) pid) ->
  exists c' keys emptied, remove_snapshot c pid sid = Ok (c', keys, emptied) /\ sound c' /\ same_identity c c'
    /\ revision c' = (revision c + 1)%Z
    /\ (if emptied then rooms (body c') = dict_del pid (rooms (body c)) /\ (snapshots_of room).*1 = [sid]
        else exists room', rooms (body c') = dict_set pid room' (rooms (body c)) /\ without_snapshot sid room room')
    /\ forall k, k ∈ keys <-> snapshot_refers s k /\ ~ refers (rooms (body c')) k.
Proof.
  intros Hs Hdist Hroom Hsid [l Hl]. destruct (sound_checked c Hs) as (v & projects & Hc & Hrooms).
  unfold latest_of in Hl. rewrite Hrooms in *. rewrite Hroom in Hl. simpl in Hl.
  pose proof Hc as (_ & _ & _ & _ & Hp & _ & _ & Hall).
  pose proof (entries_get _ _ _ _ Hall Hroom) as Hat. pose proof Hat as (_ & p & ss & -> & Hss & _ & Hsnaps).
  rewrite (snapshots_of_PDict _ _ Hss) in *. simpl in Hl.
  destruct (snapshot_key_refers _ _ _ _ _ _ (entries_get _ _ _ _ Hsnaps Hsid)) as (k & Hk & Hkrefs).
  assert (distinct (PDict ss)) as Hdss by (eapply distinct_get, Hss; eapply distinct_get, Hroom; by eapply distinct_get, Hp).
  assert (forall ps', entries_ok (room_at v (get_or_none "dimension_id" (body c)) (get_or_none "encryption_domain_id" (body c))) ps' ->
    exists c' keys, (forall emptied : bool, (referenced ← referenced_keys ps'; k ← snapshot_key s;
        b ← next_revision (dict_set "projects" (PDict ps') (body c)); catalog ← Catalog_init b PNone;
        Ok (catalog, unless_referenced k referenced, emptied)) = Ok (c', keys, emptied))
      /\ sound c' /\ same_identity c c' /\ revision c' = (revision c + 1)%Z /\ rooms (body c') = ps'
      /\ forall k, k ∈ keys <-> snapshot_refers s k /\ ~ refers (rooms (body c')) k) as Hpublish.
  { intros ps' Hall'. destruct (publish_projects c v _ _ _ Hs Hc Hall') as (b' & c' & Hnext & Hinit & Hs' & Hc' & Hsame & _).
    destruct (checked_revision _ _ _ _ Hc') as [Hr' Hrooms']. destruct (referenced_Ok _ _ _ _ Hall') as (ks & Hks & Hrefs).
    exists c', (unless_referenced k ks). split; [|split; [done |]; split; [done |]; split; [done |]; split; [done |]].
    - intros emptied. rewrite Hks, Hk. cbn [mbind result_bind]. rewrite Hnext. cbn [mbind result_bind]. by rewrite Hinit.
    - intros k'. rewrite unless_referenced_Ok, Hrefs, Hrooms', <- Hkrefs. naive_solver. }
  unfold remove_snapshot. rewrite (get_object_Ok _ _ _ Hp). cbn [mbind result_bind].
  rewrite (has_key_get _ _ _ Hroom), (get_object_Ok _ _ _ Hroom). cbn [negb raise_if mbind result_bind].
  rewrite (get_object_Ok _ _ _ Hss). cbn [mbind result_bind]. rewrite (has_key_get _ _ _ Hsid). cbn [negb raise_if mbind result_bind].
  unfold get_item at 1. rewrite Hsid. cbn [mbind result_bind]. destruct (length ss =? 1)%nat eqn:Hlen.
  - destruct (Hpublish (dict_del pid projects)) as (c' & keys & Hrun & ?); [by apply entries_del |].
    exists c', keys, true. rewrite Hrun. destruct ss as [|[k1 s1] [|]]; try done. apply has_key_get in Hsid.
    apply bool_decide_eq_true in Hsid. csimpl in Hsid. apply list_elem_of_singleton in Hsid as ->. naive_solver.
  - apply Nat.eqb_neq in Hlen. apply has_key_get in Hsid as Hkey.
    destruct (room_without v _ _ pid p ss sid Hat Hss) as (p' & Hp' & Hat' & Hwithout);
      [by eapply has_key_get | by apply dict_del_nonempty; [apply distinct_keys | ..] |].
    destruct (Hpublish (dict_set pid (PDict p') projects)) as (c' & keys & Hrun & ?); [by apply entries_set |].
    exists c', keys, false. rewrite Hp'. cbn [mbind result_bind]. rewrite Hrun. naive_solver.
Qed.

(** ** Adding a snapshot *)
Definition insertion (b b' : dict) (pid name id : string) (s : dict) : Prop :=
  exists r, dict_get "revision" b = Some (PInt r) /\ dict_get "revision" b' = Some (PInt (r + 1))
  /\ (forall k, k <> "projects" -> k <> "revision" -> dict_get k b' = dict_get k b)
  /\ dict_get "snapshot_id" s = Some (PStr id)
  /\ (forall pid', pid' <> pid -> dict_get pid' (rooms b') = dict_get pid' (rooms b))
  /\ (forall pid' sid, find b' pid' sid = if bool_decide (pid' = pid /\ sid = id) then Some (PDict s) else find b pid' sid)
  /\ latest_of b' pid = Some (PStr id)
  /\ exists p', dict_get pid (rooms b') = Some (PDict p') /\ dict_get "display_name" p' = Some (PStr name).

Lemma with_snapshot_Ok name id s p ss : dict_get "snapshots" p = Some (PDict ss) ->
  with_snapshot name id s p = Ok (dict_set "latest" (PStr id)
    (dict_set "snapshots" (PDict (dict_set id (PDict s) ss)) (dict_set "display_name" (PStr name) p))).
Proof. intros Hss. unfold with_snapshot. by rewrite (get_object_Ok _ _ _ Hss). Qed.
Lemma as_object_inv v d : as_object v = Ok d -> v = PDict d.
Proof. destruct v; try done. by intros [= ->]. Qed.
Lemma get_object_inv k d o : get_object k d = Ok o -> dict_get k d = Some (PDict o).
Proof. unfold get_object. intros (v & Hv%get_item_Ok & ->%as_object_inv)%bind_Ok_inv. done. Qed.
Lemma get_item_inv {V} k (d : list (string * V)) v : get_item k d = Ok v -> dict_get k d = Some v.
Proof. apply get_item_Ok. Qed.
Lemma next_revision_inv b b' : next_revision b = Ok b' ->
  exists r, dict_get "revision" b = Some (PInt r) /\ b' = dict_set "revision" (PInt (r + 1)) b.
Proof. unfold next_revision. intros (v & Hv%get_item_Ok & H)%bind_Ok_inv. destruct v; try done. injection H as <-. eauto. Qed.

Lemma insert_inv b pid name s c' : insert_snapshot b pid name s = Ok c' ->
  sound c' /\ exists id, insertion b (body c') pid name id s.
Proof.
  unfold insert_snapshot. intros (projects & Hp%get_object_inv & H)%bind_Ok_inv.
  apply bind_Ok_inv in H as (p & Hroom%as_object_inv & H). apply bind_Ok_inv in H as (idv & Hid%get_item_Ok & H).
  apply bind_Ok_inv in H as (id & Hkey & H). destruct idv; try done. injection Hkey as <-.
  apply bind_Ok_inv in H as (p' & Hp' & H). apply bind_Ok_inv in Hp' as (ss & Hss%get_object_inv & [= <-]).
  apply bind_Ok_inv in H as (b' & (r & Hr & ->)%next_revision_inv & H).
  apply init_sound in H as (Hs & Hbody & _). rewrite Hbody by done. split; [done |]. exists s0.
  rewrite dict_get_set, bool_decide_false in Hr by done.
  match goal with |- context [dict_set pid (PDict ?x) projects] => set (room := x) end.
  change (insertion b (with_projects (dict_set pid (PDict room) projects) (r + 1) b) pid name s0 s).
  assert (dict_get "snapshots" room = Some (PDict (dict_set s0 (PDict s) ss))) as Hss'.
  { unfold room. rewrite dict_get_set, bool_decide_false by done. by rewrite dict_get_set, bool_decide_true. }
  unfold insertion. rewrite rooms_with, (rooms_eq _ _ Hp). exists r. split; [done |]. split; [apply with_projects_revision |].
  split; [by intros; apply with_projects_other |]. split; [done |].
  split; [by intros; rewrite dict_get_set, bool_decide_false |]. split; [|split].
  - intros pid' sid. unfold find. rewrite rooms_with, (rooms_eq _ _ Hp), dict_get_set.
    destruct (decide (pid' = pid)) as [->|Hne].
    + rewrite (bool_decide_true (pid = pid)) by done. cbn [mbind option_bind].
      rewrite (snapshots_of_PDict _ _ Hss'), dict_get_set.
      rewrite (bool_decide_ext (pid = pid /\ sid = s0) (sid = s0)) by tauto. case_bool_decide; [done |].
      destruct (dict_get pid projects) as [v|]; cbn [from_option id] in Hroom; subst.
      * cbn [mbind option_bind]. by rewrite (snapshots_of_PDict _ _ Hss).
      * injection Hroom as <-. vm_compute in Hss. by injection Hss as <-.
    + rewrite !bool_decide_false by tauto. done.
  - unfold latest_of. rewrite rooms_with, dict_get_set, bool_decide_true by done. simpl. unfold room.
    by rewrite dict_get_set, bool_decide_true.
  - exists room. rewrite dict_get_set, bool_decide_true by done. split; [done |]. unfold room.
    rewrite dict_get_set, bool_decide_false by done. rewrite dict_get_set, bool_decide_false by done.
    by rewrite dict_get_set, bool_decide_true.
Qed.

(** In version 3 a well-formed snapshot under a non-empty room name is always accepted. *)
Lemma room_insert d e pid name id s p ss : fullmatch _IDENTIFIER pid = true -> name <> "" ->
  snapshot_at 3 d e pid id (PDict s) ->
  (room_at 3 d e pid (PDict p) \/ new_project name = PDict p) -> dict_get "snapshots" p = Some (PDict ss) ->
  room_at 3 d e pid (PDict (dict_set "latest" (PStr id)
    (dict_set "snapshots" (PDict (dict_set id (PDict s) ss)) (dict_set "display_name" (PStr name) p)))).
Proof.
  intros Hpid Hname Hsnap Hp Hss.
  assert (keys_are ["display_name"; "latest"; "snapshots"] p = true /\ entries_ok (snapshot_at 3 d e pid) ss) as [Hkeys Hall].
  { destruct Hp as [(_ & p0 & ss0 & [= <-] & Hss0 & H3 & Hall)|[= <-]].
    - rewrite Hss in Hss0. injection Hss0 as <-. split; [|done]. specialize (H3 eq_refl). unfold check_v3_room in H3. inv_result. by bools.
    - split; [by vm_compute |]. vm_compute in Hss. injection Hss as <-. constructor. }
  split; [done |]. eexists _, _. split; [done |]. split.
  { rewrite dict_get_set, bool_decide_false by done. by rewrite dict_get_set, bool_decide_true. }
  split; [intros _ | by apply entries_set].
  unfold check_v3_room.
  match goal with |- context [keys_are ?ks ?d] => assert (keys_are ks d = true) as -> by by do 3 (apply keys_are_set; [literal |]) end.
  assert (forall q, get_or_none "display_name" (dict_set "latest" (PStr id) (dict_set "snapshots" q
    (dict_set "display_name" (PStr name) p))) = PStr name) as ->.
  { intros q. rewrite !get_or_none_set. by vm_compute. }
  rewrite get_or_none_set, bool_decide_true by done. unfold nonempty_str, latest_ok.
  rewrite (proj2 (String.eqb_neq _ _) Hname). cbn [negb orb raise_if mbind result_bind].
  rewrite bool_decide_false, has_key_set, bool_decide_true; [done.. |].
  intros Hnil. assert (has_key id (dict_set id (PDict s) ss) = true) as Hk by (by rewrite has_key_set, bool_decide_true).
  by rewrite Hnil in Hk.
Qed.

Lemma insert_v3_total c pid name id s : sound c -> dict_get "format_version" (body c) = Some (PInt 3) ->
  fullmatch _IDENTIFIER pid = true -> name <> "" -> dict_get "snapshot_id" s = Some (PStr id) ->
  snapshot_at 3 (get_or_none "dimension_id" (body c)) (get_or_none "encryption_domain_id" (body c)) pid id (PDict s) ->
  exists c', insert_snapshot (body c) pid name s = Ok c'.
Proof.
  intros Hs Hv3 Hpid Hname Hid Hsnap. destruct (sound_checked c Hs) as (v & projects & Hc & Hrooms).
  pose proof Hc as (_ & _ & Hv & _ & Hp & _ & _ & Hall). rewrite Hv3 in Hv. injection Hv as <-.
  assert (exists p ss, default (new_project name) (dict_get pid projects) = PDict p /\ dict_get "snapshots" p = Some (PDict ss)
    /\ (room_at 3 (get_or_none "dimension_id" (body c)) (get_or_none "encryption_domain_id" (body c)) pid (PDict p)
        \/ new_project name = PDict p)) as (p & ss & Hd & Hss & Hat).
  { destruct (dict_get pid projects) as [room|] eqn:Hroom; cbn.
    - pose proof (entries_get _ _ _ _ Hall Hroom) as Hat. pose proof Hat as (_ & p & ss & -> & Hss & _). eauto 10.
    - eexists _, _. split; [done |]. split; [done | by right]. }
  pose proof (room_insert _ _ _ _ _ _ _ _ Hpid Hname Hsnap Hat Hss) as Hroom'.
  destruct (publish_projects c 3 _ _ _ Hs Hc (entries_set _ _ pid _ Hall Hroom')) as (b' & c' & Hnext & Hinit & _).
  exists c'. unfold insert_snapshot. rewrite (get_object_Ok _ _ _ Hp). cbn [mbind result_bind]. rewrite Hd.
  cbn [mbind result_bind as_object]. unfold get_item. rewrite Hid. cbn [mbind result_bind entry_key].
  rewrite (with_snapshot_Ok _ _ _ _ _ Hss). cbn [mbind result_bind]. rewrite Hnext. cbn [mbind result_bind]. done.
Qed.
