(* ===== verification/CatalogLogical.v ===== *)
(** * The room catalog: records of logical descriptors

    Every field a catalog record copies from an accepted descriptor passes the catalog's
    own checks, so the record of an accepted descriptor is always valid. *)

From S2P Require Import Prelude PyStr PyObj PyDatetime PyJson JsonProps LogicalJat LogicalJatProps LogicalJatDemo LogicalJatTheorems.
From S2P Require Import Catalog CatalogProps CatalogOps.
From Stdlib Require Import Ascii.

(** ** The fields of an accepted descriptor *)
Definition str_field (r : re) (d : dict) (k s : string) : Prop := dict_get k d = Some (PStr s) /\ fullmatch r s = true.
Definition int_field (lo hi : Z) (d : dict) (k : string) (z : Z) : Prop := dict_get k d = Some (PInt z) /\ (lo <= z <= hi)%Z.
Definition component_view (component : pyobj) : Prop :=
  component = PNone \/ exists c s id tree, component = PDict c /\ dict_get "snapshot" c = Some (PDict s)
    /\ str_field LogicalJat._SHA256 s "snapshot_id" id /\ str_field LogicalJat._SHA256 s "tree_id" tree.
Record workspace_view (w : dict) := {
  wv_repository : exists s, str_field LogicalJat._SHA256 w "repository_id" s;
  wv_snapshot : exists s, str_field LogicalJat._SHA256 w "snapshot_id" s;
  wv_tree : exists s, str_field LogicalJat._SHA256 w "tree_id" s;
  wv_format : exists z, int_field 2 2 w "repository_format" z;
  wv_sizes : forall k, k ∈ ["logical_bytes"; "data_added"; "data_added_packed"] -> exists z, int_field 0 max_int63 w k z;
}.
Record descriptor_view (d w cs : dict) := {
  dv_ids : forall k, k ∈ ["logical_jat_id"; "dimension_id"; "encryption_domain_id"; "room_id"] -> exists s, str_field _ID d k s;
  dv_kind : dict_get "payload_kind" d = Some (PStr "room-store-v1");
  dv_created : exists s, str_field LogicalJat._RFC3339 d "created_at" s /\ fromisoformat s = true;
  dv_policy : exists s, str_field LogicalJat._SHA256 d "capture_policy_sha256" s;
  dv_origin : dict_get "origin_room_id" d = None
    \/ exists o, str_field _ID d "origin_room_id" o /\ dict_get "room_id" d <> Some (PStr o);
  dv_workspace : dict_get "workspace" d = Some (PDict w);
  dv_workspace_view : workspace_view w;
  dv_components : dict_get "components" d = Some (PDict cs);
  dv_names : keys_are _COMPONENTS cs = true;
  dv_component_views : forall k c, dict_get k cs = Some c -> component_view c;
}.

Lemma field_str (check : pyobj -> result unit) r name k d : (forall v, check v = _matches r name v) -> field k d check = Ok tt ->
  exists s, str_field r d k s.
Proof. intros Hc (v & Hv & H)%field_inv. rewrite Hc in H. apply matches_str in H as (s & -> & ?). by exists s. Qed.
Lemma field_int k d name lo hi : field k d (fun v => _integer v name lo hi) = Ok tt -> exists z, int_field lo hi d k z.
Proof. intros (v & Hv & H)%field_inv. apply integer_int in H as (z & -> & ?). by exists z. Qed.
Lemma for_each_elem {A} (f : A -> result unit) l x : for_each f l = Ok tt -> x ∈ l -> f x = Ok tt.
Proof. rewrite for_each_Ok, Forall_forall. auto. Qed.

Lemma workspace_fields v w : _workspace v = Ok w -> v = PDict w /\ workspace_view w.
Proof.
  intros H. pose proof (workspace_inv _ _ H) as (-> & _). split; [done |]. unfold _workspace in H. inv_result. constructor.
  1-3: by eapply field_str; [|eassumption].
  - by eapply field_int.
  - intros k Hk. match goal with A : for_each _ _ = _ |- _ => pose proof (for_each_elem _ _ k A Hk) as Hf end. exact (field_int _ _ _ _ _ Hf).
Qed.
Lemma component_fields v name w : _validate_component v name w = Ok tt -> component_view v.
Proof.
  unfold _validate_component. destruct (is_none v) eqn:Hn; [by left; destruct v |]. intros (d & Hd & H)%bind_Ok_inv. right.
  assert (v = PDict d) as ->.
  { unfold rcc_component, homebrew_component, hauler_component in Hd.
    repeat case_match; inv_result; match goal with A : _object _ _ _ _ = _ |- _ => by apply object_inv in A as (-> & _) end. }
  apply field_inv in H as (sv & Hs & H). unfold component_snapshot in H. inv_result.
  match goal with A : _object _ _ _ _ = _ |- _ => apply object_inv in A as (-> & _) end.
  match goal with A : field "snapshot_id" _ _ = _ |- _ => eapply field_str in A as (id & Hid); [|intros; reflexivity] end.
  match goal with A : field "tree_id" _ _ = _ |- _ => eapply field_str in A as (tree & Htree); [|intros; reflexivity] end.
  eauto 10.
Qed.
Lemma optional_origin d : _identity d = Ok tt -> dict_get "origin_room_id" d = None
    \/ exists o, str_field _ID d "origin_room_id" o /\ dict_get "room_id" d <> Some (PStr o).
Proof.
  intros H. destruct (dict_get "origin_room_id" d) as [o|] eqn:Ho; [right | by left].
  pose proof (identity_inv _ _ H Ho). unfold _identity in H. inv_result. unfold optional_field in *. rewrite Ho in *. inv_result.
  match goal with A : _id o _ = _ |- _ => apply matches_str in A as (s & -> & ?) end. by exists s.
Qed.

Lemma validate_view v d : _validate v = Ok d -> v = PDict d /\ exists w cs, descriptor_view d w cs.
Proof.
  intros H. unfold _validate in H. inv_result.
  match goal with A : _object v _ _ _ = _ |- _ => apply object_inv in A as (-> & _) end. split; [done |].
  repeat match goal with A : get_item _ _ = Ok _ |- _ => apply get_item_Ok in A end.
  match goal with A : _workspace _ = _ |- _ => apply workspace_fields in A as (-> & Hw) end.
  match goal with A : _object _ "components" _ _ = _ |- _ => apply object_inv in A as (-> & Hwithin & Hall) end.
  match goal with A : for_each _ _COMPONENTS = _ |- _ => rename A into Hcomp end.
  match goal with A : _identity _ = _ |- _ => pose proof (optional_origin _ A); unfold _identity in A; inv_result end.
  rewrite app_nil_r in Hwithin. eexists _, _.
  assert (keys_are _COMPONENTS x9 = true) as Hnames.
  { apply keys_are_Ok. intros k. split; [intros Hk; apply Hwithin; by apply bool_decide_eq_true in Hk | intros Hk; by apply has_key_spec, Hall]. }
  econstructor; try eassumption.
  - intros k Hk. match goal with A : for_each _ ("logical_jat_id" :: _) = _ |- _ => pose proof (for_each_elem _ _ k A Hk) as Hf end.
    eapply field_str; [|exact Hf]. intros. reflexivity.
  - match goal with A : field "payload_kind" _ _ = _ |- _ => apply field_inv in A as (kv & Hkv & A); unfold _equals in A; inv_result; bools; apply py_eq_PStr in A as -> end. done.
  - match goal with A : field "created_at" _ _ = _ |- _ => apply field_inv in A as (cv & Hcv & A) end.
    destruct cv as [| | | |s| |]; try done. simpl in *. inv_result. bools. by exists s.
  - by eapply field_str; [|eassumption].
  - intros k c Hk. eapply component_fields.
    assert (k ∈ _COMPONENTS) as Hk' by (apply (proj1 (keys_are_Ok _ _) Hnames); by eapply has_key_get).
    pose proof (for_each_elem _ _ k Hcomp Hk') as Hf. apply field_inv in Hf as (c' & Hc' & Hf). assert (c' = c) as -> by congruence. done.
Qed.

(** ** The record of a descriptor *)
Lemma digest_Ok label s : fullmatch LogicalJat._SHA256 s = true -> _validate_digest label (PStr s) = Ok tt.
Proof. intros Hs. unfold _validate_digest. change _SHA256 with LogicalJat._SHA256. by rewrite Hs. Qed.
Lemma component_record c : component_view c -> exists ref, record_component_ref c = Ok ref /\ component_ref ref = Ok tt /\ plain 1 ref.
Proof.
  intros [->|(cd & s & id & tree & -> & Hs & [Hid Hidr] & [Htree Htreer])]; [by exists PNone |].
  eexists. split.
  { unfold record_component_ref. cbn [is_none as_object mbind result_bind]. rewrite (get_object_Ok _ _ _ Hs).
    cbn [mbind result_bind]. unfold get_item. rewrite Hid, Htree. reflexivity. }
  split.
  - change (component_ref (PDict [("snapshot_id", PStr id); ("tree_id", PStr tree)]) = Ok tt). unfold component_ref.
    change (keys_are ["snapshot_id"; "tree_id"] [("snapshot_id", PStr id); ("tree_id", PStr tree)]) with true.
    change (get_or_none "snapshot_id" _) with (PStr id). change (get_or_none "tree_id" _) with (PStr tree).
    rewrite !digest_Ok by done. done.
  - split; [apply (bool_decide_eq_true_1 _); vm_compute; reflexivity |]. by repeat constructor.
Qed.
Definition refs_of (cs : dict) : result dict :=
  map_result (fun '(name, component) => ref ← record_component_ref component; Ok (name, ref)) cs.
Lemma refs_record cs : NoDup cs.*1 -> keys_are _COMPONENTS cs = true -> (forall k c, dict_get k cs = Some c -> component_view c) ->
  exists refs, refs_of cs = Ok refs /\ component_refs (PDict refs) = Ok tt /\ plain 2 (PDict refs).
Proof.
  intros Hd Hnames Hviews.
  destruct (map_result_total (fun '(name, component) => ref ← record_component_ref component; Ok (name, ref))
    (fun kc kr => kc.1 = kr.1 /\ component_ref kr.2 = Ok tt /\ plain 1 kr.2) cs) as (refs & Hrefs & Hr).
  { apply Forall_forall. intros [k c] Hk. destruct (component_record c) as (ref & Href & ? & ?).
    { eapply Hviews. by apply dict_get_NoDup. }
    exists (k, ref). by rewrite Href. }
  assert (refs.*1 = cs.*1) as Hkeys.
  { clear -Hr. induction Hr as [|? ? ? ? [? _]]; csimpl; congruence. }
  exists refs. split; [done |]. split.
  - unfold component_refs.
    assert (keys_are _COMPONENT_NAMES refs = true) as ->.
    { apply keys_are_Ok. intros k. unfold has_key. rewrite Hkeys. apply (proj1 (keys_are_Ok _COMPONENTS cs) Hnames). }
    cbn [negb raise_if mbind result_bind]. apply for_each_Ok. rewrite Forall_fmap. clear -Hr.
    induction Hr as [|? ? ? ? (_ & ? & _)]; constructor; done.
  - split; [by rewrite Hkeys |]. clear -Hr. induction Hr as [|? ? ? ? (_ & _ & ?)]; constructor; done.
Qed.

(** The entries of a record, in the order the program writes them. *)
Definition record_entries (id dim dom room created rep snap tree policy : string) (lb da dap : Z) (ref : ObjectRef) (sig : pyobj)
    (refs : dict) (origin : option pyobj) : dict :=
  [("snapshot_id", PStr id); ("payload_kind", PStr "room-store-v1"); ("dimension_id", PStr dim);
   ("encryption_domain_id", PStr dom); ("room_id", PStr room); ("object_key", key ref);
   ("ciphertext_sha256", object_sha256 ref); ("ciphertext_size", size ref); ("created_at", PStr created);
   ("repository_id", PStr rep); ("repository_format", PInt 2); ("workspace_snapshot_id", PStr snap);
   ("tree_id", PStr tree); ("capture_policy_sha256", PStr policy); ("workspace_signature", sig);
   ("signature_algorithm", PStr "josh-room-stat-v1"); ("logical_bytes", PInt lb); ("data_added", PInt da);
   ("data_added_packed", PInt dap); ("component_refs", PDict refs)]
  ++ match origin with Some origin => [("origin_room_id", origin)] | None => [] end.

Lemma record_view d w cs ref sig : descriptor_view d w cs -> NoDup cs.*1 ->
  exists id dim dom room created rep snap tree policy lb da dap refs,
    record_fields d ref sig = Ok (record_entries id dim dom room created rep snap tree policy lb da dap ref sig refs (dict_get "origin_room_id" d))
    /\ str_field _ID d "logical_jat_id" id /\ str_field _ID d "dimension_id" dim /\ str_field _ID d "encryption_domain_id" dom
    /\ str_field _ID d "room_id" room
    /\ (fullmatch LogicalJat._RFC3339 created = true /\ fromisoformat created = true)
    /\ Forall (fun s => fullmatch LogicalJat._SHA256 s = true) [rep; snap; tree; policy]
    /\ Forall (fun z => 0 <= z <= max_int63)%Z [lb; da; dap]
    /\ component_refs (PDict refs) = Ok tt /\ plain 2 (PDict refs).
Proof.
  intros Hd Hcs. destruct (refs_record cs Hcs) as (refs & Hrefs & Hrok & Hplain); [apply Hd..|].
  destruct (dv_ids _ _ _ Hd "logical_jat_id") as (id & Hid); [literal |].
  destruct (dv_ids _ _ _ Hd "dimension_id") as (dim & Hdim); [literal |].
  destruct (dv_ids _ _ _ Hd "encryption_domain_id") as (dom & Hdom); [literal |].
  destruct (dv_ids _ _ _ Hd "room_id") as (room & Hroom); [literal |].
  destruct (dv_created _ _ _ Hd) as (created & [Hc Hc1] & Hc2), (dv_policy _ _ _ Hd) as (policy & [Hp Hp1]).
  pose proof (dv_workspace_view _ _ _ Hd) as Hw.
  destruct (wv_repository _ Hw) as (rep & [Hrep ?]), (wv_snapshot _ Hw) as (snap & [Hsnap ?]), (wv_tree _ Hw) as (tree & [Htree ?]).
  destruct (wv_format _ Hw) as (f & [Hf ?]). assert (f = 2%Z) as -> by lia.
  destruct (wv_sizes _ Hw "logical_bytes") as (lb & [Hlb ?]); [literal |].
  destruct (wv_sizes _ Hw "data_added") as (da & [Hda ?]); [literal |].
  destruct (wv_sizes _ Hw "data_added_packed") as (dap & [Hdap ?]); [literal |].
  exists id, dim, dom, room, created, rep, snap, tree, policy, lb, da, dap, refs. split.
  - unfold record_fields, copy_fields. rewrite (get_object_Ok _ _ _ (dv_workspace _ _ _ Hd)), (get_object_Ok _ _ _ (dv_components _ _ _ Hd)).
    cbn [mbind result_bind map_result RECORD_IDENTITY RECORD_WORKSPACE RECORD_SIZES]. fold (refs_of cs). unfold get_item.
    rewrite (proj1 Hid), (proj1 Hdim), (proj1 Hdom), (proj1 Hroom), (dv_kind _ _ _ Hd), Hc, Hp, Hrep, Hf, Hsnap, Htree, Hlb, Hda, Hdap, Hrefs.
    reflexivity.
  - do 5 (split; [done |]). rewrite !Forall_cons, !Forall_nil. done.
Qed.

(** ** The catalog accepts the record *)
Lemma logical_identifier_Ok label s : fullmatch _ID s = true -> _validate_logical_identifier label (PStr s) = Ok tt.
Proof. intros Hs. unfold _validate_logical_identifier. change _LOGICAL_IDENTIFIER with _ID. by rewrite Hs. Qed.
Lemma object_ref_inv ref : object_ref_ok ref = true ->
  exists k n, ref = {| key := PStr k; object_sha256 := PStr (key_digest k); size := PInt n |} /\ fullmatch OBJECT_KEY k = true /\ (1 <= n)%Z.
Proof.
  destruct ref as [rk rs rn]. unfold object_ref_ok. cbn [key object_sha256 size]. destruct rk; try done. intros H. bools.
  match goal with A : py_eq _ _ = true |- _ => apply py_eq_PStr in A as -> end.
  destruct rn; try done. simpl in *. bools. eauto 10.
Qed.
Lemma size_Ok e z : (0 <= z <= max_int63)%Z -> raise_if (negb (int_between 0 max_int63 (PInt z))) e = Ok tt.
Proof. intros Hz. unfold int_between. by rewrite (proj2 (Z.leb_le _ _) (proj1 Hz)), (proj2 (Z.leb_le _ _) (proj2 Hz)). Qed.

Definition origin_ok (room : string) (origin : option pyobj) : Prop :=
  origin = None \/ exists o, origin = Some (PStr o) /\ fullmatch _ID o = true /\ o <> room.
Lemma record_valid id dim dom room created rep snap tree policy lb da dap k n sig refs origin :
  Forall (fun s => fullmatch _ID s = true) [id; dim; room] -> validate_encryption_domain_id (PStr dom) = Ok tt ->
  fullmatch LogicalJat._RFC3339 created = true -> fromisoformat created = true ->
  Forall (fun s => fullmatch LogicalJat._SHA256 s = true) [rep; snap; tree; policy; sig] ->
  Forall (fun z => 0 <= z <= max_int63)%Z [lb; da; dap] -> component_refs (PDict refs) = Ok tt ->
  fullmatch OBJECT_KEY k = true -> (1 <= n)%Z -> origin_ok room origin ->
  _validate_logical_snapshot (record_entries id dim dom room created rep snap tree policy lb da dap
    {| key := PStr k; object_sha256 := PStr (key_digest k); size := PInt n |} (PStr sig) refs origin) = Ok tt.
Proof.
  intros Hids Hdom Hc1 Hc2 Hdigests Hsizes Hrefs Hk Hn Horigin.
  rewrite !Forall_cons in Hids. rewrite !Forall_cons in Hdigests. rewrite !Forall_cons in Hsizes. destruct Hids as (Hid & Hdim & Hroom & _), Hdigests as (H1 & H2 & H3 & H4 & H5 & _), Hsizes as (Hlb & Hda & Hdap & _).
  match goal with |- _validate_logical_snapshot ?e = _ => set (E := e) end.
  assert (keys_within _LOGICAL_FIELDS E = true /\ has_keys (without _LOGICAL_FIELDS ["origin_room_id"]) E = true) as [Hwithin Hhas].
  { unfold E. by destruct Horigin as [->|(o & -> & _)]; vm_compute. }
  assert (get_or_none "origin_room_id" E = default PNone origin) as Ho.
  { unfold E. by destruct Horigin as [->|(o & -> & _)]. }
  assert (check_object E = Ok tt) as Hobject by (apply check_object_Ok; exists k; split; [reflexivity | split; [exact Hk | reflexivity]]).
  assert (get_item "room_id" E = Ok (PStr room)) as Hitem by done.
  unfold _validate_logical_snapshot. rewrite Hwithin, Hhas, Ho, Hobject, Hitem. cbn [for_each negb orb raise_if mbind result_bind].
  change (get_or_none "snapshot_id" E) with (PStr id).
  change (get_or_none "dimension_id" E) with (PStr dim).
  change (get_or_none "room_id" E) with (PStr room).
  change (get_or_none "payload_kind" E) with (PStr "room-store-v1").
  change (get_or_none "encryption_domain_id" E) with (PStr dom).
  change (get_or_none "ciphertext_size" E) with (PInt n).
  change (get_or_none "created_at" E) with (PStr created).
  change (get_or_none "repository_id" E) with (PStr rep).
  change (get_or_none "workspace_snapshot_id" E) with (PStr snap).
  change (get_or_none "tree_id" E) with (PStr tree).
  change (get_or_none "capture_policy_sha256" E) with (PStr policy).
  change (get_or_none "workspace_signature" E) with (PStr sig).
  change (get_or_none "repository_format" E) with (PInt 2).
  change (get_or_none "signature_algorithm" E) with (PStr "josh-room-stat-v1").
  change (get_or_none "logical_bytes" E) with (PInt lb).
  change (get_or_none "data_added" E) with (PInt da).
  change (get_or_none "data_added_packed" E) with (PInt dap).
  change (get_or_none "component_refs" E) with (PDict refs).
  rewrite !logical_identifier_Ok, Hdom by done. rewrite !digest_Ok by done.
  unfold logical_created_at. change _RFC3339 with LogicalJat._RFC3339. rewrite Hc1, Hc2. unfold positive_int.
  rewrite (proj2 (Z.leb_le _ _) Hn), !(proj2 (py_eq_PStr _ _) eq_refl), !size_Ok by done.
  assert ((if is_none (default PNone origin) then Ok ()
           else _validate_logical_identifier "origin room" (default PNone origin) ;; room' ← Ok (PStr room);
                raise_if (py_eq (default PNone origin) room') (EValue "catalog logical origin room must differ from the copied Room")) = Ok tt) as Horig.
  { destruct Horigin as [->|(o & -> & Hom & Hne)]; [done |]. cbn [from_option is_none]. change (Datatypes.id (PStr o)) with (PStr o). cbn [is_none].
    rewrite logical_identifier_Ok by done. cbn [mbind result_bind py_eq]. by rewrite bool_decide_false. }
  cbn [for_each negb orb raise_if mbind result_bind] in *. rewrite Horig. cbn [mbind result_bind]. exact Hrefs.
Qed.

(** ** Equality of values without floats *)
Definition eq_items := fix go (d1 d2 : dict) {struct d1} : bool :=
  match d1 with
  | [] => true
  | (k, x) :: d1 => match dict_get k d2 with Some y => py_eq x y | None => false end && go d1 d2
  end.
Lemma py_eq_dict d1 d2 : py_eq (PDict d1) (PDict d2) = (length d1 =? length d2)%nat && eq_items d1 d2.
Proof. simpl. f_equal. induction d1 as [|[k x] d1 IH]; simpl; [done | by rewrite IH]. Qed.
Lemma eq_items_refl (d1 d2 : dict) : (forall k x, (k, x) ∈ d1 -> dict_get k d2 = Some x /\ py_eq x x = true) -> eq_items d1 d2 = true.
Proof.
  induction d1 as [|[k x] d1 IH]; intros Hd; simpl; [done |].
  destruct (Hd k x) as [-> ->]; [left |]. apply IH. intros k' x' Hin. apply Hd. by right.
Qed.
Lemma py_eq_refl n v : plain n v -> py_eq v v = true.
Proof.
  revert v. induction n as [n IH] using lt_wf_ind. intros v Hv.
  destruct v as [|b|z|f|s|l|d]; try done; simpl; try by rewrite bool_decide_true.
  - by destruct n.
  - destruct n as [|n]; [done |]. simpl in Hv. clear -IH Hv. induction Hv as [|x l Hx _ IHl]; simpl; [done |].
    rewrite (IH n) by (lia || done). exact IHl.
  - destruct n as [|n]; [done |]. destruct Hv as [Hd Hv]. change (py_eq (PDict d) (PDict d) = true).
    rewrite py_eq_dict, Nat.eqb_refl. apply eq_items_refl. intros k x Hin. split; [by apply dict_get_NoDup |].
    apply (IH n); [lia |]. rewrite Forall_forall in Hv. by apply (Hv (k, x)).
Qed.

(** ** Inclusion of the identifier patterns *)
Lemma id_identifier s : fullmatch _ID s = true -> fullmatch _IDENTIFIER s = true.
Proof.
  rewrite !fullmatch_lang. unfold _ID, _IDENTIFIER. rewrite lang_head_upto, lang_cat_inv.
  intros (c & t & -> & Hc & _ & Ht). exists [c], t. rewrite lang_cls_inv, lang_star_cls. eauto.
Qed.

Lemma entries_eq_refl id dim dom room created rep snap tree policy lb da dap k n sig refs origin :
  (origin = None \/ exists o, origin = Some (PStr o)) -> plain 2 (PDict refs) ->
  let record := record_entries id dim dom room created rep snap tree policy lb da dap
    {| key := PStr k; object_sha256 := PStr (key_digest k); size := PInt n |} (PStr sig) refs origin in
  py_eq (PDict record) (PDict record) = true /\ distinct (PDict record).
Proof.
  intros Horigin Hrefs record.
  assert (NoDup record.*1) as Hd.
  { apply (bool_decide_eq_true_1 _). by destruct Horigin as [->|(o & ->)]; vm_compute. }
  assert (Forall (fun kv : string * pyobj => py_eq kv.2 kv.2 = true) record) as Hall.
  { unfold record, record_entries. apply Forall_app. split.
    - repeat (apply Forall_cons; split; [try (simpl; by rewrite bool_decide_true); try by apply (py_eq_refl 2) |]). apply Forall_nil; done.
    - destruct Horigin as [->|(o & ->)]; repeat constructor. simpl. by rewrite bool_decide_true. }
  split; [|split; [done |]].
  - rewrite py_eq_dict, Nat.eqb_refl. apply eq_items_refl. intros k' x Hin.
    rewrite Forall_forall in Hall. split; [by apply dict_get_NoDup | by apply (Hall (k', x))].
  - apply (foldr_and (fun kv : string * pyobj => distinct kv.2)). unfold record, record_entries. apply Forall_app.
    apply (plain_distinct 2) in Hrefs. split.
    + repeat (apply Forall_cons; split; [try exact I; try exact Hrefs |]). by apply Forall_nil.
    + by destruct Horigin as [->|(o & ->)]; repeat constructor.
Qed.

Section descriptors.
Context `{PyRuntime, JsonRuntime}.

Lemma accepted_view value jat : 5 <= json_depth -> distinct value -> from_dict value = Ok jat ->
  exists d b w cs, value = PDict d /\ to_dict jat = Ok (PDict b) /\ descriptor_view b w cs /\ NoDup cs.*1
    /\ (forall k s, dict_get k d = Some (PStr s) <-> dict_get k b = Some (PStr s)).
Proof.
  intros Hdepth Hd Hf. destruct (from_dict_inv value jat Hd Hf) as (Hp & Hc & Hj & Hsize).
  destruct (validate_view value) with (d := default [] (as_dict value)) as [Hv _].
  { unfold from_dict in Hf. inv_result. match goal with A : _validate _ = Ok ?x |- _ => pose proof A as Hval; apply validate_view in A as (-> & _) end. done. }
  destruct value as [| | | | | |d]; try done. clear Hv.
  assert (to_dict jat = Ok (PDict (canon_dict d))) as Hto.
  { unfold to_dict. rewrite Hj. apply loads_compact; [apply dict_hook_distinct | by eapply plain_le]. }
  exists d, (canon_dict d).
  assert (exists b, _validate (PDict (canon_dict d)) = Ok b) as (b & Hb).
  { unfold from_dict in Hc. change (canon (PDict d)) with (PDict (canon_dict d)) in Hc. inv_result. eauto. }
  destruct (validate_view _ _ Hb) as ([= <-] & w & cs & Hview). exists w, cs.
  split; [done |]. split; [done |]. split; [done |]. split.
  - apply (distinct_keys cs). eapply distinct_get; [|exact (dv_components _ _ _ Hview)].
    apply (plain_distinct 5). by apply (plain_canon 5 (PDict d)).
  - intros k s. rewrite dict_get_canon by by apply distinct_keys. destruct (dict_get k d) as [v|]; [|done].
    destruct v; cbn; (split; intros [= E]; by rewrite ?E).
Qed.

(** The conditions on a descriptor's place in a catalog. *)
Definition placed_at (d : dict) (pid dim dom id : string) : Prop :=
  dict_get "room_id" d = Some (PStr pid) /\ dict_get "dimension_id" d = Some (PStr dim)
  /\ dict_get "encryption_domain_id" d = Some (PStr dom) /\ dict_get "logical_jat_id" d = Some (PStr id).

(** What the catalog reads from a descriptor's record. *)
Definition record_at (record : dict) (pid dim dom id : string) (ref : ObjectRef) (sig : string) : Prop :=
  dict_get "snapshot_id" record = Some (PStr id) /\ dict_get "room_id" record = Some (PStr pid)
  /\ dict_get "dimension_id" record = Some (PStr dim) /\ dict_get "encryption_domain_id" record = Some (PStr dom)
  /\ {| key := get_or_none "object_key" record; object_sha256 := get_or_none "ciphertext_sha256" record;
        size := get_or_none "ciphertext_size" record |} = ref
  /\ get_or_none "workspace_signature" record = PStr sig /\ has_key "payload_kind" record = true.

Lemma record_Ok d jat pid dim dom id ref sig : 5 <= json_depth -> distinct (PDict d) -> from_dict (PDict d) = Ok jat ->
  placed_at d pid dim dom id -> validate_encryption_domain_id (PStr dom) = Ok tt -> object_ref_ok ref = true ->
  fullmatch LogicalJat._SHA256 sig = true ->
  exists record, _logical_snapshot_record pid jat ref (PStr sig) = Ok record
    /\ (py_eq (PDict record) (PDict record) = true /\ distinct (PDict record))
    /\ _validate_logical_snapshot record = Ok tt /\ record_at record pid dim dom id ref sig
    /\ fullmatch _IDENTIFIER pid = true /\ fullmatch _IDENTIFIER id = true.
Proof.
  intros Hdepth Hd Hf (Hpid & Hdim & Hdom & Hid) Hval Href Hsig.
  destruct (accepted_view _ _ Hdepth Hd Hf) as (d0 & b & w & cs & [= <-] & Hto & Hview & Hcs & Hsame).
  apply Hsame in Hpid, Hdim, Hdom, Hid.
  destruct (record_view b w cs ref (PStr sig) Hview Hcs)
    as (id' & dim' & dom' & room & created & rep & snap & tree & policy & lb & da & dap & refs & Hrec & [? ?] & [? ?] & [? ?] & [? ?]
        & [Hc1 Hc2] & Hdig & Hsz & Hrefs & Hplain). simplify_eq.
  assert (origin_ok pid (dict_get "origin_room_id" b)) as Horigin.
  { destruct (dv_origin _ _ _ Hview) as [->|(o & [-> Ho] & Hne)]; [by left | right]. exists o. split; [done |]. split; [done |]. congruence. }
  pose proof (object_ref_inv _ Href) as (k & n & -> & Hk & Hn).
  match type of Hrec with _ = Ok ?r => exists r; assert (_validate_logical_snapshot r = Ok tt) as Hr end.
  { inversion_clear Hdig as [|? ? ? Hdig1]. inversion_clear Hdig1 as [|? ? ? Hdig2].
    inversion_clear Hdig2 as [|? ? ? Hdig3]. inversion_clear Hdig3.
    apply record_valid; [by repeat constructor | exact Hval | exact Hc1 | exact Hc2 | by repeat constructor | exact Hsz | exact Hrefs
      | exact Hk | exact Hn | exact Horigin]. }
  split; [|split; [|split; [done |]]].
  - unfold _logical_snapshot_record. rewrite Hto. cbn [mbind result_bind as_object].
    rewrite logical_identifier_Ok by done. unfold get_item. rewrite Hpid. cbn [mbind result_bind].
    rewrite (proj2 (py_eq_PStr _ _) eq_refl), Href. cbn [negb raise_if mbind result_bind].
    rewrite digest_Ok by done. cbn [mbind result_bind]. rewrite Hrec. cbn [mbind result_bind]. by rewrite Hr.
  - apply entries_eq_refl; [|exact Hplain]. destruct Horigin as [->|(o & -> & _)]; eauto.
  - split; [by unfold record_at; do 4 (split; [done |]) |]. by split; apply id_identifier.
Qed.

(** The same from a record that was made: its descriptor is in the right room. *)
Lemma record_inv value jat pid ref sig record : 5 <= json_depth -> distinct value -> from_dict value = Ok jat ->
  _logical_snapshot_record pid jat ref sig = Ok record ->
  exists d dim dom id s, value = PDict d /\ sig = PStr s /\ placed_at d pid dim dom id /\ object_ref_ok ref = true
    /\ fullmatch LogicalJat._SHA256 s = true /\ validate_encryption_domain_id (PStr dom) = Ok tt
    /\ (py_eq (PDict record) (PDict record) = true /\ distinct (PDict record))
    /\ _validate_logical_snapshot record = Ok tt /\ record_at record pid dim dom id ref s.
Proof.
  intros Hdepth Hd Hf Hrec. destruct (accepted_view _ _ Hdepth Hd Hf) as (d & b & w & cs & -> & Hto & Hview & Hcs & Hsame).
  destruct (record_view b w cs ref sig Hview Hcs) as (id & dim & dom & room & rest). pose proof rest as rest'.
  destruct rest' as (created & rep & snap & tree & policy & lb & da & dap & refs & Hfields & [Hid ?] & [Hdim ?] & [Hdom ?] & [Hroom ?] & _).
  pose proof Hrec as Hrun. unfold _logical_snapshot_record in Hrun. rewrite Hto in Hrun. cbn [mbind result_bind as_object] in Hrun.
  inv_result. bools.
  match goal with A : get_item "room_id" _ = _ |- _ => apply get_item_Ok in A; rewrite Hroom in A; injection A as <- end.
  match goal with A : py_eq _ _ = true |- _ => apply py_eq_PStr in A; injection A as -> end.
  match goal with A : _validate_digest _ sig = _ |- _ => destruct sig as [| | | |s| |]; try done; unfold _validate_digest in A; inv_result; bools end.
  match goal with A : record_fields _ _ _ = _ |- _ => rewrite Hfields in A; injection A as <- end.
  assert (validate_encryption_domain_id (PStr dom) = Ok tt) as Hval.
  { match goal with A : _validate_logical_snapshot _ = _ |- _ => unfold _validate_logical_snapshot in A; inv_result end.
    match goal with A : validate_encryption_domain_id _ = _ |- _ => exact A end. }
  destruct (record_Ok d jat pid dim dom id ref s Hdepth Hd Hf) as (record & Hrec' & Heq & Hvalid & Hat & _);
    [by unfold placed_at; rewrite !Hsame | done..|].
  rewrite Hrec' in Hrec. injection Hrec as <-. exists d, dim, dom, id, s. unfold placed_at. rewrite !Hsame.
  do 2 (split; [reflexivity |]). split; [by split_and! |]. do 5 (split; [assumption |]). assumption.
Qed.
End descriptors.
