(* ===== verification/CatalogMade.v ===== *)
(** * The room catalog: the catalogs a program can make, and sorting their keys

    [made] holds of the catalogs the operations produce from values with distinct keys;
    its invariant is what the rest of the program relies on.  The stored text has every
    object's keys in order: none of the constructor's checks looks at the order of keys,
    so what is read back passes them again. *)

From Stdlib Require Import Ascii.
From S2P Require Import Prelude PyStr PyObj PyDatetime PyJson JsonProps LogicalJat LogicalJatProps LogicalJatDemo LogicalJatTheorems Catalog CatalogProps.
From S2P Require Import CatalogOps CatalogLogical.

(** ** Distinct keys *)
Lemma distinct_PDict d : distinct (PDict d) <-> NoDup d.*1 /\ entries_ok (fun _ => distinct) d.
Proof. simpl. by rewrite (foldr_and (fun kv : string * pyobj => distinct kv.2)). Qed.
Lemma NoDup_set {V} k (v : V) d : NoDup d.*1 -> NoDup (dict_set k v d).*1.
Proof.
  intros Hd. rewrite dict_set_keys. destruct (has_key k d) eqn:Hk; [done |].
  apply bool_decide_eq_false in Hk. apply NoDup_app. split; [done |]. split; [|apply NoDup_singleton].
  intros x Hx ->%list_elem_of_singleton. done.
Qed.
Lemma NoDup_del {V} k (d : list (string * V)) : NoDup d.*1 -> NoDup (dict_del k d).*1.
Proof.
  intros Hd. induction d as [|[k' v] d IH]; [done |]. csimpl in Hd. apply NoDup_cons in Hd as [Hk Hd].
  unfold dict_del. rewrite filter_cons. case_decide; [|by apply IH]. csimpl. apply NoDup_cons. split; [|by apply IH].
  contradict Hk. apply list_elem_of_fmap in Hk as (kv & Hkv & [_ Hin]%list_elem_of_filter). simpl in Hkv. subst. by apply list_elem_of_fmap_2.
Qed.
Lemma distinct_set k v d : distinct v -> distinct (PDict d) -> distinct (PDict (dict_set k v d)).
Proof. rewrite !distinct_PDict. intros Hv [? ?]. split; [by apply NoDup_set | by apply entries_set]. Qed.
Lemma distinct_del k d : distinct (PDict d) -> distinct (PDict (dict_del k d)).
Proof. rewrite !distinct_PDict. intros [? ?]. split; [by apply NoDup_del | by apply entries_del]. Qed.
Lemma distinct_setdefault k v d : distinct v -> distinct (PDict d) -> distinct (PDict (setdefault k v d)).
Proof. intros. unfold setdefault. destruct (has_key k d); [done | by apply distinct_set]. Qed.
Lemma distinct_object k d o : distinct (PDict d) -> get_object k d = Ok o -> distinct (PDict o).
Proof. intros Hd Ho%get_object_inv. by eapply distinct_get. Qed.

Create HintDb distinct.
#[export] Hint Resolve distinct_set distinct_del distinct_setdefault : distinct.
#[export] Hint Extern 1 (distinct (PStr _)) => exact I : distinct.
#[export] Hint Extern 1 (distinct (PInt _)) => exact I : distinct.

Lemma distinct_change k f d d' : (forall v v', distinct v -> f v = Ok v' -> distinct v') -> distinct (PDict d) ->
  change_values k f d = Ok d' -> distinct (PDict d').
Proof.
  intros Hf Hd H. unfold change_values in H. destruct (dict_get k d) as [v|] eqn:Hv; [|by injection H as <-].
  destruct v as [| | | | | |es]; try done. apply bind_Ok_inv in H as (es' & Hes & [= <-]). apply distinct_set; [|done].
  pose proof (distinct_get _ _ _ Hd Hv) as Hes'. rewrite distinct_PDict in *. destruct Hes' as [Hnd Hall]. apply map_result_Ok in Hes.
  split.
  - replace es'.*1 with es.*1; [done |]. clear -Hes. induction Hes as [|[] ? ? ? (? & _ & [= <-])%bind_Ok_inv]; csimpl; congruence.
  - clear -Hf Hes Hall. unfold entries_ok in *. induction Hes as [|[k v] ? ? ? (v' & Hv & [= <-])%bind_Ok_inv]; [done |].
    apply Forall_cons in Hall as [Hx Hall]. constructor; [by eapply Hf | auto].
Qed.
Lemma distinct_upgrade v v' : distinct v -> upgrade_project v = Ok v' -> distinct v'.
Proof.
  intros Hd H. destruct v as [| | | | | |p]; try done. apply bind_Ok_inv in H as (p' & Hp & [= <-]).
  eapply distinct_change; [|exact Hd | exact Hp]. clear. intros v v' Hd H. destruct v as [| | | | | |s]; try done. injection H as <-. auto with distinct.
Qed.
Lemma distinct_next b b' : distinct (PDict b) -> next_revision b = Ok b' -> distinct (PDict b').
Proof. intros Hb (r & _ & ->)%next_revision_inv. auto with distinct. Qed.
Lemma distinct_init b e c : distinct (PDict b) -> distinct e -> Catalog_init b e = Ok c -> distinct (PDict (body c)).
Proof.
  intros Hb He H. unfold Catalog_init, bind_domain in H. inv_result.
  destruct (is_none e); inv_result; [done |]. cbn [body]. destruct (is_none _); auto with distinct.
Qed.
Lemma distinct_insert b pid name s c : distinct (PDict b) -> distinct (PDict s) -> insert_snapshot b pid name s = Ok c -> distinct (PDict (body c)).
Proof.
  intros Hb Hs H. unfold insert_snapshot in H.
  apply bind_Ok_inv in H as (projects & Hp & H). apply bind_Ok_inv in H as (p & Hroom%as_object_inv & H).
  apply bind_Ok_inv in H as (? & _ & H). apply bind_Ok_inv in H as (id & _ & H). apply bind_Ok_inv in H as (p' & Hp' & H).
  apply bind_Ok_inv in H as (b' & Hb' & H). apply bind_Ok_inv in Hp' as (ss & Hss & [= <-]).
  pose proof (distinct_object _ _ _ Hb Hp) as Hdp.
  assert (distinct (PDict p)) as Hdroom.
  { rewrite <- Hroom. destruct (dict_get pid projects) eqn:Hpid; simpl; [by eapply distinct_get |].
    split; [apply (bool_decide_eq_true_1 _); by vm_compute | by repeat constructor]. }
  pose proof (distinct_object _ _ _ Hdroom Hss) as Hdss.
  eapply (distinct_init _ PNone); [|exact I | exact H]. eapply distinct_next; [|exact Hb']. auto 10 with distinct.
Qed.

(** ** Reachable catalogs *)
Section made.
Context `{PyRuntime, JsonRuntime} (Hdepth : 5 <= json_depth).
Definition accepted (jat : LogicalJat) : Prop := exists value, distinct value /\ from_dict value = Ok jat.

Inductive made : Catalog -> Prop :=
| made_empty dimension domain c : catalog_empty dimension domain = Ok c -> made c
| made_read value dimension domain c : distinct value -> from_body value dimension domain = Ok c -> made c
| made_add c pid name s c' : made c -> distinct (PDict s) -> add_snapshot c pid name s = Ok c' -> made c'
| made_logical c pid name jat ref sig c' : made c -> accepted jat -> add_logical_snapshot c pid name jat ref sig = Ok c' -> made c'
| made_remove_project c pid c' keys n : made c -> remove_project c pid = Ok (c', keys, n) -> made c'
| made_remove_snapshot c pid sid c' keys emptied : made c -> remove_snapshot c pid sid = Ok (c', keys, emptied) -> made c'
| made_update c expected value c' : made c -> distinct value -> update_if_revision c expected value = Ok c' -> made c'.

Definition made_ok (c : Catalog) : Prop := sound c /\ distinct (PDict (body c)).

Lemma scalar_distinct_domain v : validate_encryption_domain_id v = Ok tt -> distinct v.
Proof. by intros (s & -> & _)%domain_Ok. Qed.
Lemma identifier_inv label v : _validate_identifier label v = Ok tt -> exists s, v = PStr s /\ fullmatch _IDENTIFIER s = true.
Proof. destruct v; try done. intros Hv%identifier_Ok. eauto. Qed.

Lemma init_made b e c : distinct (PDict b) -> distinct e -> Catalog_init b e = Ok c -> made_ok c.
Proof. intros Hb He Hc. split; [by eapply init_sound | by eapply distinct_init]. Qed.
Lemma empty_made dimension domain c : catalog_empty dimension domain = Ok c -> made_ok c.
Proof.
  unfold catalog_empty. intros H1. apply bind_Ok_inv in H1 as ([] & Hd & H1).
  assert (distinct domain) as Hdd by (destruct (is_none domain) eqn:E; [by destruct domain | by apply scalar_distinct_domain]).
  destruct (is_none dimension).
  - eapply init_made; [|exact Hdd | exact H1]. split;
    [apply (bool_decide_eq_true_1 _); by vm_compute | by repeat constructor].
  - apply bind_Ok_inv in H1 as ([] & (s & -> & _)%identifier_inv & H1). eapply init_made; [|exact Hdd | exact H1]. split;
    [apply (bool_decide_eq_true_1 _); by vm_compute | by repeat constructor].
Qed.
Lemma from_body_made value dimension domain c : distinct value -> from_body value dimension domain = Ok c -> made_ok c.
Proof.
  intros Hv H1. destruct value as [| | | | | |d]; try done. cbn [from_body] in H1.
  apply bind_Ok_inv in H1 as ([] & _ & H1). apply bind_Ok_inv in H1 as (d1 & Hd1 & H1).
  apply bind_Ok_inv in H1 as (d2 & Hd2 & H1). apply bind_Ok_inv in H1 as (c1 & Hc1 & H1). inv_result.
  assert (distinct (PDict d1)) as Hx.
  { destruct (is_none domain); inv_result; [done |]. apply distinct_set; [by apply scalar_distinct_domain | done]. }
  eapply (init_made _ PNone); [|exact I | exact Hc1]. destruct (is_v 1 _ && _); inv_result; [|done].
  match goal with A : _validate_identifier _ _ = _ |- _ => apply identifier_inv in A as (s & -> & _) end.
  eapply distinct_change; [exact distinct_upgrade | | eassumption]. auto with distinct.
Qed.
Lemma insert_made b pid name s c : distinct (PDict b) -> distinct (PDict s) -> insert_snapshot b pid name s = Ok c -> made_ok c.
Proof. intros Hb Hs H1. split; [by apply (insert_inv _ _ _ _ _ H1) | exact (distinct_insert _ _ _ _ _ Hb Hs H1)]. Qed.
Lemma remove_project_made c pid c' keys n : made_ok c -> remove_project c pid = Ok (c', keys, n) -> made_ok c'.
Proof.
  intros [Hs Hd] H1. unfold remove_project in H1. inv_result. simplify_eq.
  eapply (init_made _ PNone); [|exact I | eassumption]. eapply distinct_next; [|eassumption].
  match goal with A : get_object "projects" _ = _ |- _ => pose proof (distinct_object _ _ _ Hd A) end. auto with distinct.
Qed.
Lemma remove_snapshot_made c pid sid c' keys emptied : made_ok c -> remove_snapshot c pid sid = Ok (c', keys, emptied) -> made_ok c'.
Proof.
  intros [Hs Hd] H1. unfold remove_snapshot in H1.
  apply bind_Ok_inv in H1 as (projects & Hp & H1). apply bind_Ok_inv in H1 as ([] & _ & H1).
  apply bind_Ok_inv in H1 as (p & Hpid & H1). apply bind_Ok_inv in H1 as (ss & Hss & H1).
  apply bind_Ok_inv in H1 as ([] & _ & H1). apply bind_Ok_inv in H1 as (s & _ & H1).
  pose proof (distinct_object _ _ _ Hd Hp) as Hdp. pose proof (distinct_object _ _ _ Hdp Hpid) as Hdr.
  pose proof (distinct_object _ _ _ Hdr Hss) as Hds.
  destruct (length ss =? 1)%nat; inv_result; simplify_eq; (eapply (init_made _ PNone); [|exact I | eassumption]); (eapply distinct_next; [|eassumption]).
  - auto with distinct.
  - assert (distinct (PDict x)); [|auto with distinct].
    match goal with A : with_latest _ _ _ = _ |- _ => unfold with_latest in A; inv_result; rename A into Hl end.
    destruct (py_eq _ _); [|injection Hl as <-; auto with distinct]. destruct (last _); [|done]. injection Hl as <-. auto 10 with distinct.
Qed.
Lemma logical_made c pid name jat ref sig c' : made_ok c -> accepted jat -> add_logical_snapshot c pid name jat ref sig = Ok c' -> made_ok c'.
Proof.
  intros [Hs Hd] (value & Hv & Hf) H1. unfold add_logical_snapshot in H1. inv_result.
  match goal with A : _logical_snapshot_record _ _ _ _ = _ |- _ =>
    destruct (record_inv _ _ _ _ _ _ Hdepth Hv Hf A) as (d & dim & dom & id & s & -> & -> & _ & _ & _ & _ & [_ Hr] & _) end.
  eapply insert_made; [|exact Hr | exact H1]. apply distinct_set; [|auto with distinct].
  destruct Hs as (_ & -> & _). unfold get_or_none. destruct (dict_get _ (body c)) eqn:E; [exact (distinct_get _ _ _ Hd E) | done].
Qed.

(** Every reachable catalog passes the constructor's checks and has distinct keys. *)
Theorem made_sound c : made c -> made_ok c.
Proof.
  induction 1 as [? ? ? Hc|? ? ? ? Hv Hc|c pid name s c' _ IH Hs Hc|? ? ? ? ? ? ? _ IH Ha Hc|? ? ? ? ? _ IH Hc|? ? ? ? ? ? _ IH Hc|c e v c' _ IH Hv Hc].
  - by eapply empty_made.
  - by eapply from_body_made.
  - unfold add_snapshot in Hc. inv_result. eapply insert_made; [apply IH | | exact Hc]. destruct (v2_or_v3 _); auto with distinct.
  - by eapply logical_made.
  - by eapply remove_project_made.
  - by eapply remove_snapshot_made.
  - unfold update_if_revision in Hc. inv_result. by eapply from_body_made.
Qed.
End made.

(** ** Checks of one value *)
Lemma get_or_none_canon k d : NoDup d.*1 -> get_or_none k (canon_dict d) = canon (get_or_none k d).
Proof. intros Hd. unfold get_or_none. rewrite dict_get_canon by done. by destruct (dict_get k d). Qed.
Lemma has_key_canon k d : has_key k (canon_dict d) = has_key k d.
Proof. unfold has_key. apply bool_decide_ext. by rewrite canon_dict_keys. Qed.
Lemma keys_within_canon ks d : keys_within ks (canon_dict d) = keys_within ks d.
Proof. apply eq_true_iff_eq. rewrite !keys_within_Ok. by setoid_rewrite has_key_canon. Qed.
Lemma has_keys_canon ks d : has_keys ks (canon_dict d) = has_keys ks d.
Proof. apply eq_true_iff_eq. rewrite !has_keys_Ok. by setoid_rewrite has_key_canon. Qed.
Lemma keys_are_canon ks d : keys_are ks (canon_dict d) = keys_are ks d.
Proof. unfold keys_are. by rewrite keys_within_canon, has_keys_canon. Qed.
Lemma py_eq_str_canon v s : py_eq (canon v) (PStr s) = py_eq v (PStr s).
Proof. by destruct v. Qed.
Lemma str_canon k d s : NoDup d.*1 -> dict_get k d = Some (PStr s) -> dict_get k (canon_dict d) = Some (PStr s).
Proof. intros Hd Hk. by rewrite dict_get_canon, Hk. Qed.

(** Checks that look only at strings and numbers. *)
Class FlatCheck (check : pyobj -> result unit) : Prop := flat_canon v : check (canon v) = check v.
#[export] Instance identifier_flat label : FlatCheck (_validate_identifier label).
Proof. by intros []. Qed.
#[export] Instance logical_identifier_flat label : FlatCheck (_validate_logical_identifier label).
Proof. by intros []. Qed.
#[export] Instance digest_flat label : FlatCheck (_validate_digest label).
Proof. by intros []. Qed.
#[export] Instance domain_flat : FlatCheck validate_encryption_domain_id.
Proof. by intros []. Qed.
#[export] Instance created_flat : FlatCheck logical_created_at.
Proof. by intros []. Qed.
#[export] Instance positive_flat e : FlatCheck (fun v => raise_if (negb (positive_int v)) e).
Proof. by intros []. Qed.
#[export] Instance between_flat lo hi e : FlatCheck (fun v => raise_if (negb (int_between lo hi v)) e).
Proof. by intros []. Qed.
#[export] Instance nonempty_flat e : FlatCheck (fun v => raise_if (negb (nonempty_str v)) e).
Proof. by intros []. Qed.
#[export] Instance fingerprint_flat e : FlatCheck (fun v => raise_if (negb (fingerprint_ok v)) e).
Proof. by intros []. Qed.
#[export] Instance equal_flat s e : FlatCheck (fun v => raise_if (negb (py_eq v (PStr s))) e).
Proof. by intros []. Qed.

Section flat.
Context (d : dict) (Hd : NoDup d.*1).
Lemma flat_get k check : FlatCheck check -> check (get_or_none k (canon_dict d)) = check (get_or_none k d).
Proof. intros Hc. by rewrite get_or_none_canon, Hc. Qed.
Lemma flat_each check (ks : list string) : (forall k, FlatCheck (check k)) ->
  for_each (fun k => check k (get_or_none k (canon_dict d))) ks = for_each (fun k => check k (get_or_none k d)) ks.
Proof. intros Hc. induction ks as [|k ks IH]; simpl; [done |]. by rewrite flat_get, IH. Qed.
Lemma is_none_get_canon k : is_none (get_or_none k (canon_dict d)) = is_none (get_or_none k d).
Proof. rewrite get_or_none_canon by done. by destruct (get_or_none k d). Qed.
End flat.

(** ** Snapshots *)
Lemma names_canon s k : NoDup s.*1 -> names_object s k -> names_object (canon_dict s) k.
Proof. intros Hd (H1 & H2 & H3). split; [by apply str_canon |]. split; [done | by apply str_canon]. Qed.
Lemma check_object_canon s : NoDup s.*1 -> check_object s = Ok tt -> check_object (canon_dict s) = Ok tt.
Proof. rewrite !check_object_Ok. intros Hd (k & Hk). exists k. by apply names_canon. Qed.
Lemma component_ref_canon ref : distinct ref -> component_ref ref = Ok tt -> component_ref (canon ref) = Ok tt.
Proof.
  destruct ref as [| | | | | |r]; try done. intros Hd%distinct_keys. change (canon (PDict r)) with (PDict (canon_dict r)).
  unfold component_ref. rewrite keys_are_canon. intros H. inv_result.
  match goal with A : negb _ = false |- _ => rewrite A end. cbn [raise_if mbind result_bind].
  rewrite !(flat_get _ Hd _ (_validate_digest _)) by apply _.
  match goal with A : _validate_digest "component snapshot id" _ = _ |- _ => rewrite A end. done.
Qed.
Lemma component_refs_canon v : distinct v -> component_refs v = Ok tt -> component_refs (canon v) = Ok tt.
Proof.
  destruct v as [| | | | | |refs]; try done. intros Hd. change (canon (PDict refs)) with (PDict (canon_dict refs)).
  unfold component_refs. rewrite keys_are_canon. intros H. inv_result.
  match goal with A : negb _ = false |- _ => rewrite A end. cbn [raise_if mbind result_bind].
  rewrite for_each_Ok in *. unfold canon_dict. rewrite merge_sort_Permutation, <- list_fmap_compose, Forall_fmap.
  rewrite Forall_fmap in H. destruct Hd as [_ Hd].
  apply (foldr_and (fun kv : string * pyobj => distinct kv.2)) in Hd.
  eapply Forall_impl; [apply Forall_and; split; [exact Hd | exact H] |]. intros [k x] [? ?]. by apply component_ref_canon.
Qed.
Lemma distinct_or_none d k : distinct (PDict d) -> distinct (get_or_none k d).
Proof. intros Hd. unfold get_or_none. destruct (dict_get k d) eqn:E; [exact (distinct_get _ _ _ Hd E) | done]. Qed.


(** A sequence of checks passes again when each of them does. *)
Lemma seq_mono (m m' f f' : result unit) : (m = Ok tt -> m' = Ok tt) -> (f = Ok tt -> f' = Ok tt) -> (m ;; f) = Ok tt -> (m' ;; f') = Ok tt.
Proof. intros Hm Hf ([] & H1%Hm & H2%Hf)%bind_Ok_inv. by rewrite H1. Qed.
Lemma get_item_canon_str k d s (f : pyobj -> result unit) : NoDup d.*1 -> FlatCheck f ->
  (v ← get_item k d; f v) = Ok s -> (v ← get_item k (canon_dict d); f v) = Ok s.
Proof.
  intros Hd Hf. unfold get_item. rewrite dict_get_canon by done. destruct (dict_get k d) as [v|]; [|done]. simpl. by rewrite Hf.
Qed.
#[export] Instance fromiso_flat e : FlatCheck (fun v => raise_if (negb (match v with PStr s => fromisoformat s | _ => false end)) e).
Proof. by intros []. Qed.
#[export] Instance not_equal_flat o e : (exists s, o = PStr s) -> FlatCheck (fun v => raise_if (py_eq o v) e).
Proof. intros (s & ->) v. by destruct v. Qed.

Lemma origin_canon (f : pyobj -> result unit) k d : NoDup d.*1 -> FlatCheck f ->
  (let v := get_or_none k d in if is_none v then Ok tt else f v) = Ok tt ->
  (let v := get_or_none k (canon_dict d) in if is_none v then Ok tt else f v) = Ok tt.
Proof. intros Hd Hf. cbv zeta. rewrite is_none_get_canon, flat_get by done. done. Qed.

Ltac flat Hd := intros A; first
  [ rewrite (flat_get _ Hd _ (fun v => raise_if (negb (py_eq v (PStr _))) _)) by apply _; exact A
  | rewrite (flat_get _ Hd _ (fun v => raise_if (negb (int_between _ _ v)) _)) by apply _; exact A
  | rewrite (flat_get _ Hd _ (fun v => raise_if (negb (positive_int v)) _)) by apply _; exact A
  | rewrite (flat_get _ Hd _ (fun v => raise_if (negb (fingerprint_ok v)) _)) by apply _; exact A
  | rewrite flat_get by (done || apply _); exact A ].

Lemma logical_snapshot_canon s : distinct (PDict s) -> _validate_logical_snapshot s = Ok tt -> _validate_logical_snapshot (canon_dict s) = Ok tt.
Proof.
  intros Hdist. pose proof (distinct_keys _ Hdist) as Hd. unfold _validate_logical_snapshot.
  rewrite keys_within_canon, has_keys_canon. apply seq_mono; [done |].
  apply seq_mono; [by rewrite (flat_each _ Hd (fun name => _validate_logical_identifier name)) by apply _ |].
  apply seq_mono; [flat Hd |]. apply seq_mono; [flat Hd |].
  apply seq_mono.
  { cbv zeta. rewrite is_none_get_canon by done. destruct (get_or_none "origin_room_id" s) as [| | | |o| |] eqn:Ho; try done.
    rewrite get_or_none_canon, Ho by done. intros A. cbn [is_none canon] in *. inv_result.
    match goal with B : _validate_logical_identifier _ _ = _ |- _ => rewrite B end. cbn [mbind result_bind].
    unfold get_item in *. rewrite dict_get_canon by done. destruct (dict_get "room_id" s) as [room|]; [|done]. inv_result. cbn [fmap option_fmap option_map mbind result_bind].
    rewrite py_eq_canon by done. match goal with B : py_eq _ _ = false |- _ => by rewrite B end. }
  apply seq_mono; [by apply check_object_canon |]. apply seq_mono; [flat Hd |]. apply seq_mono; [flat Hd |].
  apply seq_mono; [by rewrite (flat_each _ Hd (fun name => _validate_digest name)) by apply _ |].
  apply seq_mono; [flat Hd |]. apply seq_mono; [flat Hd |].
  apply seq_mono; [by rewrite (flat_each _ Hd (fun name v => raise_if (negb (int_between 0 max_int63 v)) (catalog_invalid ("logical " +:+ name)))) by apply _ |].
  rewrite get_or_none_canon by done. apply component_refs_canon. by apply distinct_or_none.
Qed.

Lemma v2_snapshot_canon s : distinct (PDict s) -> _validate_v2_snapshot s = Ok tt -> _validate_v2_snapshot (canon_dict s) = Ok tt.
Proof.
  intros Hdist. pose proof (distinct_keys _ Hdist) as Hd. unfold _validate_v2_snapshot.
  apply seq_mono; [by rewrite (flat_each _ Hd (fun name v => raise_if (negb (nonempty_str v)) (EValue ("catalog snapshot " +:+ name +:+ " is invalid")))) by apply _ |].
  unfold get_item. rewrite !dict_get_canon by done.
  destruct (dict_get "snapshot_id" s) as [id|]; [|done]. destruct (dict_get "created_at" s) as [created|]; cbn [mbind result_bind fmap option_fmap option_map];
    [|by intros (? & _ & ?)%bind_Ok_inv].
  apply seq_mono; [by destruct id |]. apply seq_mono; [by destruct created |].
  apply seq_mono; [flat Hd |].
  apply seq_mono; [by apply (origin_canon (_validate_identifier "origin project")); [|apply _] | flat Hd].
Qed.

(** ** Rooms and bodies *)
Lemma check_v3_room_canon p ss : NoDup p.*1 -> check_v3_room p ss = Ok tt -> check_v3_room (canon_dict p) (canon_dict ss) = Ok tt.
Proof.
  intros Hd. unfold check_v3_room. rewrite keys_are_canon, !get_or_none_canon by done.
  assert (forall v, nonempty_str (canon v) = nonempty_str v) as -> by (by intros []).
  assert (latest_ok (canon (get_or_none "latest" p)) (canon_dict ss) = latest_ok (get_or_none "latest" p) ss) as ->; [|done].
  unfold latest_ok. assert (bool_decide (canon_dict ss = []) = bool_decide (ss = [])) as ->.
  { apply bool_decide_ext. rewrite <- !length_zero_iff_nil. unfold canon_dict. by rewrite merge_sort_Permutation, length_fmap. }
  destruct (get_or_none "latest" p); cbn [canon is_none]; rewrite ?has_key_canon; done.
Qed.

Lemma entries_canon (P Q : string -> pyobj -> Prop) d : distinct (PDict d) ->
  (forall k v, distinct v -> P k v -> Q k (canon v)) -> entries_ok P d -> entries_ok Q (canon_dict d).
Proof.
  intros [_ Hd]%id Hpq Hp. apply (foldr_and (fun kv : string * pyobj => distinct kv.2)) in Hd. unfold entries_ok, canon_dict in *.
  rewrite merge_sort_Permutation, Forall_fmap. eapply Forall_impl; [apply Forall_and; split; [exact Hd | exact Hp] |].
  intros [k v] [? ?]. by apply Hpq.
Qed.

Section canon.
Context (v : Z) (dimension domain : pyobj).
Lemma snapshot_at_canon pid sid value : distinct value -> snapshot_at v dimension domain pid sid value ->
  snapshot_at v (canon dimension) (canon domain) pid sid (canon value).
Proof.
  intros Hdist (Hid & s & -> & (k & Hk) & H2 & H3). pose proof (distinct_keys _ Hdist) as Hd. split; [done |].
  exists (canon_dict s). split; [done |]. split; [exists k; by apply names_canon |].
  split; [intros Hv; by apply v2_snapshot_canon, H2 |]. intros Hv. specialize (H3 Hv). rewrite has_key_canon.
  destruct (has_key "payload_kind" s); [|by apply v2_snapshot_canon].
  destruct H3 as (Hl & Hs & Hr & (d & Hdm & Hdd) & (e & He & Hee)).
  assert (exists ds, d = PStr ds) as (ds & ->).
  { unfold _validate_logical_snapshot in Hl. inv_result. cbn [for_each] in *. inv_result.
    match goal with A : _validate_logical_identifier "dimension_id" _ = _ |- _ => rewrite (get_or_none_eq _ _ _ Hdm) in A; destruct d; try done; eauto end. }
  assert (exists es, e = PStr es) as (es & ->).
  { unfold _validate_logical_snapshot in Hl. inv_result.
    match goal with A : validate_encryption_domain_id _ = _ |- _ => rewrite (get_or_none_eq _ _ _ He) in A; destruct e; try done; eauto end. }
  split; [by apply logical_snapshot_canon |]. split; [by apply str_canon |]. split; [by apply str_canon |].
  split; eexists; (split; [by apply str_canon | by rewrite py_eq_canon]).
Qed.
Lemma room_at_canon pid value : distinct value -> room_at v dimension domain pid value -> room_at v (canon dimension) (canon domain) pid (canon value).
Proof.
  intros Hdist (Hid & p & ss & -> & Hss & H3 & Hall). pose proof (distinct_keys _ Hdist) as Hd.
  split; [done |]. exists (canon_dict p), (canon_dict ss). split; [done |].
  split; [by rewrite dict_get_canon, Hss |]. split; [intros Hv; by apply check_v3_room_canon, H3 |].
  eapply entries_canon; [exact (distinct_get _ _ _ Hdist Hss) | | exact Hall]. intros sid s. apply snapshot_at_canon.
Qed.
End canon.

Lemma checked_body_canon b v r projects : distinct (PDict b) -> checked_body b v r projects ->
  checked_body (canon_dict b) v r (canon_dict projects).
Proof.
  intros Hdist (Hv & Hr & Hgv & Hgr & Hgp & H2 & H3 & Hall). pose proof (distinct_keys _ Hdist) as Hd.
  unfold checked_body. rewrite !dict_get_canon by done. rewrite Hgv, Hgr, Hgp, keys_are_canon, !get_or_none_canon by done.
  split; [done |]. split; [done |]. split; [done |]. split; [done |]. split; [done |].
  split; [intros Hv2; destruct (H2 Hv2) as (d & -> & ?); by exists d |].
  split; [intros Hv3; destruct (H3 Hv3) as (? & e & -> & ?); split; [done | by exists e] |].
  eapply entries_canon; [exact (distinct_get _ _ _ Hdist Hgp) | | exact Hall].
  intros pid p Hp Hat. by apply room_at_canon.
Qed.
