(* ===== verification/Crypto.v ===== *)
(** * Encrypting and decrypting files ([src/josh_room/crypto.py])

    [encrypt] and [decrypt] run the [age] program over temporary files of one directory.
    Any system call may fail; what was done before stays done, and [finally] blocks run
    on every way out.  The state is the directory's files by name.

    The [age] program and the operating system's choices are the [Host]: which call
    fails, the names [mkstemp] picks, what a failed write leaves in a temporary file, and
    what the program computes. *)

From S2P Require Import Prelude PyStr PyObj.

(** ** Files of the directory *)
Abbreviation store := (gmap string string).
Record disk := { files : store; calls : nat }.

Class Host := {
  call_ok : nat -> bool;
  torn : nat -> string;
  temp_name : string -> store -> string;
  temp_prefix prefix st : startswith prefix (temp_name prefix st) = true;
  temp_fresh prefix st : st !! temp_name prefix st = None;
  age_available : bool;
  (** [Path.is_file], [Path.is_symlink], the permission bits and the platform *)
  is_file : string -> bool;
  is_symlink : string -> bool;
  file_mode : string -> Z;
  windows : bool;
  (** [age -r ... -o temp source] and [age --decrypt -i ... -o temp path]; [None] is a
      non-zero exit status *)
  age_encrypt : list string -> string -> option string;
  age_decrypt : list string -> string -> option string;
}.

(** ** Computations *)
Definition F (A : Type) : Type := disk -> result A * disk.
#[export] Instance F_ret : MRet F := fun A a d => (Ok a, d).
#[export] Instance F_bind : MBind F := fun A B f m d =>
  match m d with (Ok a, d) => f a d | (Raise e, d) => (Raise e, d) end.
Definition liftF {A} (r : result A) : F A := fun d => (r, d).
Definition get_files : F store := fun d => (Ok (files d), d).
Definition put_file (name text : string) : F unit := fun d => (Ok tt, {| files := <[name := text]> (files d); calls := calls d |}).
Definition drop_file (name : string) : F unit := fun d => (Ok tt, {| files := delete name (files d); calls := calls d |}).
(** [try: m finally: h] *)
Definition finally {A} (m : F A) (h : F unit) : F A := fun d =>
  let '(r, d) := m d in
  match h d with (Ok _, d) => (r, d) | (Raise e, d) => (Raise e, d) end.

Section crypto.
Context `{Host, PyRuntime}.

(** A system call that may raise [OSError]. *)
Definition call : F unit := fun d =>
  (if call_ok (calls d) then Ok tt else Raise EOS, {| files := files d; calls := S (calls d) |}).
Definition mkdir : F unit := call.
Definition mkstemp (prefix : string) : F string :=
  call ;; st ← get_files; let name := temp_name prefix st in put_file name "" ;; mret name.
Definition unlink (name : string) : F unit := call ;; drop_file name.
(** Writing and flushing a temporary file; a failure leaves anything in it. *)
Definition write_temp (name text : string) : F unit := fun d =>
  if call_ok (calls d) then (Ok tt, {| files := <[name := text]> (files d); calls := S (calls d) |})
  else (Raise EOS, {| files := <[name := torn (calls d)]> (files d); calls := S (calls d) |}).
Definition fsync : F unit := call.
Definition chmod : F unit := call.
Definition read_file (name : string) : F string :=
  call ;; st ← get_files; match st !! name with Some text => mret text | None => liftF (Raise ENotFound) end.
Definition replace (source target : string) : F unit :=
  call ;; st ← get_files;
  match st !! source with
  | Some text => drop_file source ;; put_file target text
  | None => liftF (Raise ENotFound)
  end.

(** The program's own run: its output file, or a failure that may leave part of one. *)
Definition run_age (output : string) (result : option string) : F unit :=
  call ;;
  match result with
  | Some text => put_file output text
  | None => fun d => (Raise (ECrypto "age failed"), {| files := <[output := torn (calls d)]> (files d); calls := calls d |})
  end.

Definition _managed_executable : F unit :=
  liftF (raise_if (negb age_available) (ECrypto "age executable is unavailable")).
(** The identity of one path; the arguments it returns are the path. *)
Definition _identity (path : string) : result unit :=
  raise_if (negb (is_file path) || is_symlink path) (ECrypto ("identity must be a regular file: " +:+ path)) ;;
  raise_if (negb windows && negb (Z.land (file_mode path) 63 =? 0)%Z) (ECrypto ("identity permissions must be private: " +:+ path)).
Fixpoint identities (paths : list string) : F unit :=
  match paths with [] => mret tt | path :: paths => liftF (_identity path) ;; identities paths end.

(** ** Operations *)
Definition encrypt_file (source : string) (recipients : list string) (output : string) : F unit :=
  liftF (raise_if (length recipients <? 2)%nat (ECrypto "production snapshots require two recipients")) ;;
  mkdir ;;
  _managed_executable ;;
  temp ← mkstemp ("." +:+ output +:+ ".");
  finally (text ← read_file source; run_age temp (age_encrypt recipients text) ;; fsync ;; chmod ;; replace temp output)
    (unlink temp).

Definition encrypt (data : string) (recipients : list string) (output : string) : F unit :=
  mkdir ;;
  source ← mkstemp ".age-source.";
  finally (write_temp source data ;; fsync ;; encrypt_file source recipients output) (unlink source).

Definition MAX_DECRYPTED_SIZE : Z := 8 * 1024 * 1024 * 1024 + 2 * 1024 * 1024.

Definition decrypt_file (path : string) (identity_paths : list string) (output : string) (max_bytes : Z) : F (nat * string) :=
  identities identity_paths ;;
  _managed_executable ;;
  mkdir ;;
  temp ← mkstemp ("." +:+ output +:+ ".");
  finally (cipher ← read_file path; run_age temp (age_decrypt identity_paths cipher) ;;
           text ← read_file temp;
           liftF (raise_if (max_bytes <? Z.of_nat (py_len text))%Z (ECrypto "decrypted data exceeds maximum size")) ;;
           chmod ;; replace temp output ;; mret (py_len text, sha256 text))
    (unlink temp).

Definition decrypt (path : string) (identity_paths : list string) (max_bytes : Z) : F string :=
  output ← mkstemp ".age-compat.";
  finally (decrypt_file path identity_paths output max_bytes ;; read_file output) (unlink output).
End crypto.
