(* ===== verification/CryptoProps.v ===== *)
(** * Encrypted files: what a run leaves behind

    [keeps P st0 m] says that [m] leaves the files named by [P] as they are in [st0],
    however it ends; temporary files lie outside [P].  The runs that return are inverted
    to the exact files they leave. *)

From S2P Require Import Prelude PyStr PyObj Crypto.
From Stdlib Require Import Ascii.

(** ** Runs that return *)
Lemma bindF_Ok {A B} (m : F A) (f : A -> F B) d b d' : (m ≫= f) d = (Ok b, d') ->
  exists a d1, m d = (Ok a, d1) /\ f a d1 = (Ok b, d').
Proof. unfold mbind, F_bind. destruct (m d) as [[a|e] d1]; [eauto | done]. Qed.
Lemma liftF_Ok {A} (r : result A) d a d' : liftF r d = (Ok a, d') -> r = Ok a /\ d' = d.
Proof. unfold liftF. by intros [= -> ->]. Qed.
Lemma retF_Ok {A} (x : A) d a d' : (mret x : F A) d = (Ok a, d') -> a = x /\ d' = d.
Proof. by intros [= -> ->]. Qed.
Lemma finally_Ok {A} (m : F A) h d a d' : finally m h d = (Ok a, d') -> exists d1, m d = (Ok a, d1) /\ h d1 = (Ok tt, d').
Proof. unfold finally. destruct (m d) as [r d1]. destruct (h d1) as [[[]|e] d2] eqn:Hh; [|done]. intros [= -> ->]. eauto. Qed.
Lemma put_Ok name text d u d' : put_file name text d = (Ok u, d') -> files d' = <[name := text]> (files d).
Proof. by intros [= _ <-]. Qed.
Lemma drop_Ok name d u d' : drop_file name d = (Ok u, d') -> files d' = delete name (files d).
Proof. by intros [= _ <-]. Qed.
Lemma get_Ok d st d' : get_files d = (Ok st, d') -> st = files d /\ d' = d.
Proof. by intros [= -> ->]. Qed.

Section props.
Context `{Host, PyRuntime}.

Lemma call_Ok d u d' : call d = (Ok u, d') -> files d' = files d.
Proof. unfold call. by intros [= _ <-]. Qed.
Lemma write_temp_Ok name text d u d' : write_temp name text d = (Ok u, d') -> files d' = <[name := text]> (files d).
Proof. unfold write_temp. destruct (call_ok (calls d)); [by intros [= _ <-] | done]. Qed.
Lemma mkstemp_Ok prefix d name d' : mkstemp prefix d = (Ok name, d') ->
  files d !! name = None /\ startswith prefix name = true /\ files d' = <[name := ""]> (files d).
Proof.
  intros (? & d1 & Hc%call_Ok & (st & d2 & [-> ->]%get_Ok & (? & d3 & Hp%put_Ok & [-> ->]%retF_Ok)%bindF_Ok)%bindF_Ok)%bindF_Ok.
  rewrite <- Hc. split; [apply temp_fresh |]. split; [apply temp_prefix |]. by rewrite Hp.
Qed.
Lemma unlink_Ok name d u d' : unlink name d = (Ok u, d') -> files d' = delete name (files d).
Proof. intros (? & d1 & Hc%call_Ok & Hd%drop_Ok)%bindF_Ok. by rewrite Hd, Hc. Qed.
Lemma read_file_Ok name d text d' : read_file name d = (Ok text, d') -> files d !! name = Some text /\ files d' = files d.
Proof.
  intros (? & d1 & Hc%call_Ok & (st & d2 & [-> ->]%get_Ok & Hr)%bindF_Ok)%bindF_Ok. rewrite <- Hc.
  destruct (files d1 !! name); [by apply retF_Ok in Hr as [-> ->] | by apply liftF_Ok in Hr as [? _]].
Qed.
Lemma replace_Ok source target d u d' : replace source target d = (Ok u, d') ->
  exists text, files d !! source = Some text /\ files d' = <[target := text]> (delete source (files d)).
Proof.
  intros (? & d1 & Hc%call_Ok & (st & d2 & [-> ->]%get_Ok & Hr)%bindF_Ok)%bindF_Ok. rewrite <- Hc.
  destruct (files d1 !! source) as [text|]; [|by apply liftF_Ok in Hr as [? _]].
  apply bindF_Ok in Hr as (? & d3 & Hdrop%drop_Ok & Hput%put_Ok). exists text. by rewrite Hput, Hdrop.
Qed.
Lemma run_age_Ok output r d u d' : run_age output r d = (Ok u, d') -> exists text, r = Some text /\ files d' = <[output := text]> (files d).
Proof.
  intros (? & d1 & Hc%call_Ok & Hr)%bindF_Ok. destruct r as [text|]; [|done]. apply put_Ok in Hr. exists text. by rewrite Hr, Hc.
Qed.

Lemma encrypt_file_Ok source recipients output data d u d' : files d !! source = Some data -> is_Some (files d !! output) ->
  encrypt_file source recipients output d = (Ok u, d') ->
  exists cipher, age_encrypt recipients data = Some cipher /\ files d' = <[output := cipher]> (files d).
Proof.
  intros Hs Ho. unfold encrypt_file.
  intros (? & d1 & [_ ->]%liftF_Ok & (? & d2 & Hd2%call_Ok & (? & d3 & [_ ->]%liftF_Ok & (temp & d4 & (Hfresh & _ & Hd4)%mkstemp_Ok & Hrun)%bindF_Ok)%bindF_Ok)%bindF_Ok)%bindF_Ok.
  apply finally_Ok in Hrun as (d9 & Hrun & Hd'%unlink_Ok).
  apply bindF_Ok in Hrun as (text & d5 & [Htext Hd5]%read_file_Ok & Hrun).
  apply bindF_Ok in Hrun as (? & d6 & (cipher & Hcipher & Hd6)%run_age_Ok & Hrun).
  apply bindF_Ok in Hrun as (? & d7 & Hd7%call_Ok & Hrun). apply bindF_Ok in Hrun as (? & d8 & Hd8%call_Ok & (c & Hc & Hd9)%replace_Ok).
  rewrite Hd2 in *. assert (temp <> source /\ temp <> output) as [Hts Hto] by (split; intros ->; destruct Ho; congruence).
  rewrite Hd4, lookup_insert_ne, Hs in Htext by done. injection Htext as <-.
  rewrite Hd8, Hd7, Hd6, lookup_insert_eq in Hc. injection Hc as <-. exists cipher. split; [done |].
  rewrite Hd', Hd9, Hd8, Hd7, Hd6, Hd5, Hd4. apply map_eq. intros n.
  destruct (decide (n = temp)) as [->|]; [|destruct (decide (n = output)) as [->|]]; by simplify_map_eq.
Qed.
Lemma encrypt_Ok data recipients output d u d' : is_Some (files d !! output) -> encrypt data recipients output d = (Ok u, d') ->
  exists cipher, age_encrypt recipients data = Some cipher /\ files d' = <[output := cipher]> (files d).
Proof.
  intros Ho. unfold encrypt. intros (? & d1 & Hd1%call_Ok & (source & d2 & (Hfresh & _ & Hd2)%mkstemp_Ok & Hrun)%bindF_Ok)%bindF_Ok.
  apply finally_Ok in Hrun as (d5 & Hrun & Hd'%unlink_Ok).
  apply bindF_Ok in Hrun as (? & d3 & Hd3%write_temp_Ok & Hrun). apply bindF_Ok in Hrun as (? & d4 & Hd4%call_Ok & Hrun).
  rewrite Hd1 in *. assert (source <> output) as Hne by (intros ->; destruct Ho; congruence).
  assert (files d4 = <[source := data]> (files d)) as Hf by (rewrite Hd4, Hd3, Hd2; by rewrite insert_insert_eq).
  apply encrypt_file_Ok with (data := data) in Hrun as (cipher & Hcipher & Hd5); [|by rewrite Hf, lookup_insert_eq | by rewrite Hf, lookup_insert_ne].
  exists cipher. split; [done |]. rewrite Hd', Hd5, Hf. apply map_eq. intros n.
  destruct (decide (n = source)) as [->|]; [|destruct (decide (n = output)) as [->|]]; by simplify_map_eq.
Qed.
Lemma identities_Ok paths d u d' : identities paths d = (Ok u, d') -> files d' = files d.
Proof.
  revert d. induction paths as [|p paths IH]; intros d; cbn [identities]; [by intros [_ ->]%retF_Ok |].
  intros (? & d1 & [_ ->]%liftF_Ok & Hr)%bindF_Ok. by apply IH.
Qed.
Lemma decrypt_Ok path ids n d text d' : is_Some (files d !! path) -> decrypt path ids n d = (Ok text, d') ->
  exists cipher, files d !! path = Some cipher /\ age_decrypt ids cipher = Some text /\ files d' = files d.
Proof.
  intros Hpath. unfold decrypt. intros (output & d1 & (Hfresh & _ & Hd1)%mkstemp_Ok & Hrun)%bindF_Ok.
  apply finally_Ok in Hrun as (d3 & Hrun & Hd'%unlink_Ok). apply bindF_Ok in Hrun as (? & d2 & Hrun & [Htext Hd3]%read_file_Ok).
  unfold decrypt_file in Hrun. apply bindF_Ok in Hrun as (? & e1 & He1%identities_Ok & Hrun).
  apply bindF_Ok in Hrun as (? & e2 & [_ ->]%liftF_Ok & Hrun). apply bindF_Ok in Hrun as (? & e3 & He3%call_Ok & Hrun).
  apply bindF_Ok in Hrun as (temp & e4 & (Hft & _ & He4)%mkstemp_Ok & Hrun). apply finally_Ok in Hrun as (e5 & Hrun & Hd2%unlink_Ok).
  apply bindF_Ok in Hrun as (cipher & e6 & [Hcipher He6]%read_file_Ok & Hrun).
  apply bindF_Ok in Hrun as (? & e7 & (plain & Hplain & He7)%run_age_Ok & Hrun).
  apply bindF_Ok in Hrun as (plain' & e8 & [Hplain' He8]%read_file_Ok & Hrun).
  apply bindF_Ok in Hrun as (? & e9 & [_ ->]%liftF_Ok & Hrun). apply bindF_Ok in Hrun as (? & e10 & He10%call_Ok & Hrun).
  apply bindF_Ok in Hrun as (? & e11 & (c & Hc & He11)%replace_Ok & [_ ->]%retF_Ok).
  rewrite He3, He1 in *. assert (files d !! temp = None /\ temp <> output) as [Hdt Hne].
  { rewrite Hd1 in Hft. apply lookup_insert_None in Hft as [? ?]. done. }
  rewrite He7, lookup_insert_eq in Hplain'. injection Hplain' as <-. rewrite He10, He8, He7, lookup_insert_eq in Hc. injection Hc as <-.
  rewrite Hd2, He11, He10, He8, He7, He6, He4, Hd1 in *.
  rewrite lookup_delete_ne, lookup_insert_eq in Htext by done. injection Htext as <-.
  assert (temp <> path /\ output <> path) as [Htp Hop] by (destruct Hpath; split; congruence).
  rewrite !lookup_insert_ne in Hcipher by done. exists cipher. split; [done |]. split; [done |].
  rewrite Hd', Hd3. apply map_eq. intros k.
  destruct (decide (k = temp)) as [->|]; [|destruct (decide (k = output)) as [->|]]; by simplify_map_eq.
Qed.
End props.

(** ** Runs that may fail *)
Section keeps.
Context `{Host, PyRuntime} (P : string -> Prop) (st0 : store).
Definition agrees (st : store) : Prop := forall name, P name -> st !! name = st0 !! name.
Definition keeps {A} (m : F A) (Q : A -> Prop) : Prop :=
  forall d r d', agrees (files d) -> m d = (r, d') -> agrees (files d') /\ forall a, r = Ok a -> Q a.
(** Names of temporary files are never protected. *)
Hypothesis Hfresh : forall st name, agrees st -> startswith "." name = true -> st !! name = None -> ~ P name.

Lemma agrees_insert st name text : ~ P name -> agrees st -> agrees (<[name := text]> st).
Proof. intros Hn Ha k Hk. rewrite lookup_insert_ne by (by intros <-). by apply Ha. Qed.
Lemma agrees_delete st name : ~ P name -> agrees st -> agrees (delete name st).
Proof. intros Hn Ha k Hk. rewrite lookup_delete_ne by (by intros <-). by apply Ha. Qed.

Lemma keeps_bind {A B} (m : F A) (f : A -> F B) Q R : keeps m Q -> (forall a, Q a -> keeps (f a) R) -> keeps (m ≫= f) R.
Proof.
  intros Hm Hf d r d' Ha. unfold mbind, F_bind. destruct (m d) as [[a|e] d1] eqn:Hmd.
  - destruct (Hm _ _ _ Ha Hmd) as [Ha1 HQ]. intros Hr. by apply (Hf a (HQ a eq_refl) _ _ _ Ha1).
  - destruct (Hm _ _ _ Ha Hmd) as [Ha1 _]. by intros [= <- <-].
Qed.
Lemma keeps_finally {A} (m : F A) h Q : keeps m Q -> keeps h (fun _ => True) -> keeps (finally m h) Q.
Proof.
  intros Hm Hh d r d' Ha. unfold finally. destruct (m d) as [r1 d1] eqn:Hmd. destruct (Hm _ _ _ Ha Hmd) as [Ha1 HQ].
  destruct (h d1) as [rh d2] eqn:Hhd. destruct (Hh _ _ _ Ha1 Hhd) as [Ha2 _]. destruct rh; by intros [= <- <-].
Qed.
Lemma keeps_weaken {A} (m : F A) (Q R : A -> Prop) : (forall a, Q a -> R a) -> keeps m Q -> keeps m R.
Proof. intros Hqr Hm d r d' Ha Hd. destruct (Hm _ _ _ Ha Hd). naive_solver. Qed.
Lemma keeps_lift {A} (r : result A) : keeps (liftF r) (fun _ => True).
Proof. intros d r' d' Ha [= <- <-]. done. Qed.
Lemma keeps_ret {A} (a : A) (Q : A -> Prop) : Q a -> keeps (mret a) Q.
Proof. intros HQ d r d' Ha [= <- <-]. naive_solver. Qed.
Lemma keeps_get : keeps get_files (fun _ => True).
Proof. intros d r d' Ha [= <- <-]. done. Qed.
Lemma keeps_call : keeps call (fun _ => True).
Proof. intros d r d' Ha [= <- <-]. done. Qed.
Lemma keeps_put name text : ~ P name -> keeps (put_file name text) (fun _ => True).
Proof. intros Hn d r d' Ha [= <- <-]. split; [by apply agrees_insert | done]. Qed.
Lemma keeps_drop name : ~ P name -> keeps (drop_file name) (fun _ => True).
Proof. intros Hn d r d' Ha [= <- <-]. split; [by apply agrees_delete | done]. Qed.
Lemma keeps_write name text : ~ P name -> keeps (write_temp name text) (fun _ => True).
Proof.
  intros Hn d r d' Ha. unfold write_temp. destruct (call_ok (calls d)); intros [= <- <-]; (split; [by apply agrees_insert | done]).
Qed.
Lemma keeps_run_age name r : ~ P name -> keeps (run_age name r) (fun _ => True).
Proof.
  intros Hn. eapply keeps_bind; [apply keeps_call | intros _ _]. destruct r; [by apply keeps_put |].
  intros d r d' Ha [= <- <-]. split; [by apply agrees_insert | done].
Qed.
Lemma startswith_trans p q s : startswith (p +:+ q) s = true -> startswith p s = true.
Proof.
  revert s. induction p as [|c p IH]; intros s; [done |]. destruct s as [|c' s]; [done |].
  change (String.String c p +:+ q) with (String.String c (p +:+ q)). cbn [startswith]. rewrite !andb_true_iff. intros [? ?]. auto.
Qed.
Lemma keeps_mkstemp prefix : startswith "." prefix = true -> keeps (mkstemp prefix) (fun name => ~ P name).
Proof.
  intros Hp. eapply keeps_bind; [apply keeps_call | intros _ _]. intros d r d' Ha.
  unfold mbind, F_bind, get_files, put_file, mret, F_ret. intros [= <- <-].
  assert (~ P (temp_name prefix (files d))) as Hn.
  { apply (Hfresh (files d)); [done | | apply temp_fresh]. destruct prefix as [|c prefix]; [done |].
    pose proof (temp_prefix (String.String c prefix) (files d)) as Ht. cbn [startswith] in Hp. rewrite andb_true_r in Hp.
    apply bool_decide_eq_true in Hp as <-. change (String.String "."%char prefix) with ("." +:+ prefix) in Ht.
    by apply startswith_trans in Ht. }
  split; [by apply agrees_insert | by intros a [= <-]].
Qed.
Lemma keeps_unlink name : ~ P name -> keeps (unlink name) (fun _ => True).
Proof. intros Hn. eapply keeps_bind; [apply keeps_call | intros _ _; by apply keeps_drop]. Qed.
Lemma keeps_read name : keeps (read_file name) (fun _ => True).
Proof.
  eapply keeps_bind; [apply keeps_call | intros _ _]. eapply keeps_bind; [apply keeps_get | intros st _].
  destruct (st !! name); [by apply keeps_ret | apply keeps_lift].
Qed.
Lemma keeps_replace source target : ~ P source -> ~ P target -> keeps (replace source target) (fun _ => True).
Proof.
  intros Hs Ht. eapply keeps_bind; [apply keeps_call | intros _ _]. eapply keeps_bind; [apply keeps_get | intros st _].
  destruct (st !! source); [|apply keeps_lift]. eapply keeps_bind; [by apply keeps_drop | intros _ _; by apply keeps_put].
Qed.
Lemma keeps_identities paths : keeps (identities paths) (fun _ => True).
Proof. induction paths as [|p paths IH]; [by apply keeps_ret |]. eapply keeps_bind; [apply keeps_lift | auto]. Qed.
End keeps.

Create HintDb keeping.
#[export] Hint Resolve keeps_lift keeps_get keeps_call keeps_put keeps_drop keeps_write keeps_run_age keeps_unlink keeps_read
  keeps_replace keeps_identities : keeping.
(** One step of a run after the other. *)
Ltac keep := repeat first
  [ solve [auto with keeping] | apply keeps_finally
  | eapply keeps_bind; [solve [auto with keeping | apply keeps_mkstemp; auto] | intros ? ?]
  | apply keeps_ret; exact I
  | eapply keeps_bind; [|intros ? ?] ].

Section operations.
Context `{Host, PyRuntime} (P : string -> Prop) (st0 : store).
Hypothesis Hfresh : forall st name, agrees P st0 st -> startswith "." name = true -> st !! name = None -> ~ P name.

Lemma keeps_encrypt_file source recipients output : ~ P output -> keeps P st0 (encrypt_file source recipients output) (fun _ => True).
Proof. intros Ho. unfold encrypt_file, mkdir, fsync, chmod, _managed_executable. keep. Qed.
Lemma keeps_encrypt data recipients output : ~ P output -> keeps P st0 (encrypt data recipients output) (fun _ => True).
Proof. intros Ho. unfold encrypt, mkdir, fsync. pose proof keeps_encrypt_file. keep. Qed.
Lemma keeps_decrypt_file path ids output n : ~ P output -> keeps P st0 (decrypt_file path ids output n) (fun _ => True).
Proof. intros Ho. unfold decrypt_file, mkdir, chmod, _managed_executable. keep. Qed.
Lemma keeps_decrypt path ids n : keeps P st0 (decrypt path ids n) (fun _ => True).
Proof. unfold decrypt. pose proof keeps_decrypt_file. keep. Qed.
End operations.

(** ** Runs of a host whose calls succeed *)
Section working.
Context `{Host, PyRuntime}.
Definition working : Prop := (forall n, call_ok n = true) /\ age_available = true.
Definition runs {A} (m : F A) (st : store) (Q : A -> store -> Prop) : Prop :=
  forall d, files d = st -> exists a d', m d = (Ok a, d') /\ Q a (files d').
Hypothesis Hwork : working.

Lemma runs_bind {A B} (m : F A) (f : A -> F B) st Q R : runs m st Q -> (forall a st1, Q a st1 -> runs (f a) st1 R) -> runs (m ≫= f) st R.
Proof.
  intros Hm Hf d Hd. destruct (Hm d Hd) as (a & d1 & Hmd & HQ). unfold mbind, F_bind. rewrite Hmd. by apply (Hf a _ HQ).
Qed.
Lemma runs_finally {A} (m : F A) h st (Q : A -> store -> Prop) (R : A -> store -> Prop) : runs m st Q ->
  (forall a st1, Q a st1 -> runs h st1 (fun _ => R a)) -> runs (finally m h) st R.
Proof.
  intros Hm Hh d Hd. destruct (Hm d Hd) as (a & d1 & Hmd & HQ). destruct (Hh a _ HQ d1 eq_refl) as ([] & d2 & Hhd & HR).
  unfold finally. rewrite Hmd, Hhd. eauto.
Qed.
Lemma runs_step {A} (m : F A) st a st' : (forall d, files d = st -> exists d', m d = (Ok a, d') /\ files d' = st') ->
  runs m st (fun b s => b = a /\ s = st').
Proof. intros Hm d Hd. destruct (Hm d Hd) as (d' & ? & ?). eauto. Qed.
Lemma runs_ret {A} (a : A) st : runs (mret a) st (fun b s => b = a /\ s = st).
Proof. apply runs_step. intros d Hd. by exists d. Qed.
Lemma runs_lift {A} (a : A) st : runs (liftF (Ok a)) st (fun b s => b = a /\ s = st).
Proof. apply runs_step. intros d Hd. by exists d. Qed.
Lemma runs_get st : runs get_files st (fun b s => b = st /\ s = st).
Proof. intros d <-. by exists (files d), d. Qed.
Lemma runs_call st : runs call st (fun _ s => s = st).
Proof. intros d <-. unfold call. rewrite (proj1 Hwork). by eexists _, _. Qed.
Lemma runs_put name text st : runs (put_file name text) st (fun _ s => s = <[name := text]> st).
Proof. intros d <-. by eexists _, _. Qed.
Lemma runs_drop name st : runs (drop_file name) st (fun _ s => s = delete name st).
Proof. intros d <-. by eexists _, _. Qed.
Lemma runs_write name text st : runs (write_temp name text) st (fun _ s => s = <[name := text]> st).
Proof. intros d <-. unfold write_temp. rewrite (proj1 Hwork). by eexists _, _. Qed.
Lemma runs_mkstemp prefix st : runs (mkstemp prefix) st (fun name s => st !! name = None /\ startswith prefix name = true /\ s = <[name := ""]> st).
Proof.
  eapply runs_bind; [apply runs_call | intros _ ? ->]. eapply runs_bind; [apply runs_get | intros ? ? [-> ->]].
  eapply runs_bind; [apply runs_put | intros _ ? ->]. intros d Hd. eexists _, d. split; [done |].
  split; [apply temp_fresh |]. split; [apply temp_prefix | done].
Qed.
Lemma runs_unlink name st : runs (unlink name) st (fun _ s => s = delete name st).
Proof. eapply runs_bind; [apply runs_call | intros _ ? ->; apply runs_drop]. Qed.
Lemma runs_read name text st : st !! name = Some text -> runs (read_file name) st (fun b s => b = text /\ s = st).
Proof.
  intros Hn. eapply runs_bind; [apply runs_call | intros _ ? ->]. eapply runs_bind; [apply runs_get | intros ? ? [-> ->]].
  rewrite Hn. apply runs_ret.
Qed.
Lemma runs_replace source target text st : st !! source = Some text ->
  runs (replace source target) st (fun _ s => s = <[target := text]> (delete source st)).
Proof.
  intros Hs. eapply runs_bind; [apply runs_call | intros _ ? ->]. eapply runs_bind; [apply runs_get | intros ? ? [-> ->]].
  rewrite Hs. eapply runs_bind; [apply runs_drop | intros _ ? ->; apply runs_put].
Qed.
Lemma runs_age output text st : runs (run_age output (Some text)) st (fun _ s => s = <[output := text]> st).
Proof. eapply runs_bind; [apply runs_call | intros _ ? ->; apply runs_put]. Qed.

Lemma runs_weaken {A} (m : F A) st (Q R : A -> store -> Prop) : runs m st Q -> (forall a s, Q a s -> R a s) -> runs m st R.
Proof. intros Hm HQR d Hd. destruct (Hm d Hd) as (a & d' & ? & ?). eauto. Qed.
Lemma runs_cleanup {A} (m : F A) name st (Q : A -> store -> Prop) : runs m st Q ->
  runs (finally m (unlink name)) st (fun a s => exists s', Q a s' /\ s = delete name s').
Proof.
  intros Hm. eapply runs_finally; [exact Hm |]. intros a s HQ. eapply runs_weaken; [apply runs_unlink |].
  intros _ s' ->. eauto.
Qed.

Lemma runs_encrypt_file source recipients output data cipher st : 2 <= length recipients -> st !! source = Some data ->
  age_encrypt recipients data = Some cipher -> is_Some (st !! output) -> runs (encrypt_file source recipients output) st (fun _ _ => True).
Proof.
  intros Hlen Hs Hage Ho. unfold encrypt_file, _managed_executable. rewrite (proj2 (Nat.ltb_ge _ _) Hlen), (proj2 Hwork).
  eapply runs_bind; [apply runs_lift | intros _ ? [_ ->]]. eapply runs_bind; [apply runs_call | intros _ ? ->].
  eapply runs_bind; [apply runs_lift | intros _ ? [_ ->]]. eapply runs_bind; [apply runs_mkstemp | intros temp ? (Hfresh & _ & ->)].
  assert (temp <> source) as Hne by congruence. eapply runs_weaken; [apply runs_cleanup with (Q := fun _ _ => True) | done].
  eapply runs_bind; [apply runs_read; rewrite lookup_insert_ne; [exact Hs | done] | intros ? ? [-> ->]]. rewrite Hage.
  eapply runs_bind; [apply runs_age | intros _ ? ->]. eapply runs_bind; [apply runs_call | intros _ ? ->].
  eapply runs_bind; [apply runs_call | intros _ ? ->]. eapply runs_weaken; [eapply runs_replace, lookup_insert_eq | done].
Qed.
Lemma runs_encrypt data recipients output cipher st : 2 <= length recipients -> age_encrypt recipients data = Some cipher ->
  is_Some (st !! output) -> runs (encrypt data recipients output) st (fun _ _ => True).
Proof.
  intros Hlen Hage Ho. unfold encrypt. eapply runs_bind; [apply runs_call | intros _ ? ->].
  eapply runs_bind; [apply runs_mkstemp | intros source ? (Hfresh & _ & ->)].
  assert (source <> output) as Hne by (intros ->; destruct Ho; congruence).
  eapply runs_weaken; [apply runs_cleanup with (Q := fun _ _ => True) | done].
  eapply runs_bind; [apply runs_write | intros _ ? ->]. eapply runs_bind; [apply runs_call | intros _ ? ->].
  eapply runs_encrypt_file; [done | apply lookup_insert_eq | done |]. by rewrite !lookup_insert_ne.
Qed.

Lemma runs_identities paths st : Forall (fun p => _identity p = Ok tt) paths -> runs (identities paths) st (fun _ s => s = st).
Proof.
  induction 1 as [|p paths Hp _ IH]; [intros d <-; by eexists _, _ |]. cbn [identities]. rewrite Hp.
  eapply runs_bind; [apply runs_lift | intros _ ? [_ ->]; exact IH].
Qed.
Lemma runs_decrypt path ids cipher text max st : Forall (fun p => _identity p = Ok tt) ids -> st !! path = Some cipher ->
  age_decrypt ids cipher = Some text -> (Z.of_nat (py_len text) <= max)%Z ->
  runs (decrypt path ids max) st (fun _ _ => True).
Proof.
  intros Hids Hpath Hage Hsize. unfold decrypt, decrypt_file, _managed_executable. rewrite (proj2 Hwork).
  eapply runs_bind; [apply runs_mkstemp | intros output ? (Hfo & _ & ->)].
  eapply runs_weaken; [apply runs_cleanup with (Q := fun _ _ => True) | done].
  eapply runs_bind; [|intros ? s Hs; eapply runs_weaken; [eapply runs_read; exact Hs | done]].
  eapply runs_bind; [by apply runs_identities | intros _ ? ->]. eapply runs_bind; [apply runs_lift | intros _ ? [_ ->]].
  eapply runs_bind; [apply runs_call | intros _ ? ->]. eapply runs_bind; [apply runs_mkstemp | intros temp ? (Hft & _ & ->)].
  assert (output <> path) as Hop by congruence.
  apply lookup_insert_None in Hft as [Hft Hto]. assert (temp <> path) as Htp by congruence.
  eapply runs_weaken; [apply runs_cleanup with (Q := fun _ s => s !! output = Some text) |].
  - eapply runs_bind; [apply runs_read; rewrite !lookup_insert_ne by done; exact Hpath | intros ? ? [-> ->]]. rewrite Hage.
    eapply runs_bind; [apply runs_age | intros _ ? ->]. eapply runs_bind; [apply runs_read, lookup_insert_eq | intros ? ? [-> ->]].
    rewrite (proj2 (Z.ltb_ge _ _) Hsize). eapply runs_bind; [apply runs_lift | intros _ ? [_ ->]].
    eapply runs_bind; [apply runs_call | intros _ ? ->]. eapply runs_bind; [eapply runs_replace, lookup_insert_eq | intros _ ? ->].
    eapply runs_weaken; [apply runs_ret |]. intros _ ? [_ ->]. apply lookup_insert_eq.
  - intros _ ? (s' & Hs' & ->). by rewrite lookup_delete_ne.
Qed.
End working.
