(* ===== verification/CatalogFile.v ===== *)
(** * The catalog's file ([src/josh_room/catalog.py], [CatalogFile])

    The catalog is stored encrypted; an update reads it, compares revisions and publishes
    under a lock. *)

From S2P Require Import Prelude PyStr PyObj PyDatetime PyJson LogicalJat Catalog Crypto.
From Stdlib Require Import Ascii.

Record CatalogFile := { path : string; identity : option string; file_dimension : pyobj }.
Definition lock_path : string := ".catalog.jroom.lock".

Section files.
Context `{PyRuntime, JsonRuntime, Host}.

(** [json.loads(bytes)] for bytes in UTF-8; texts with a byte order mark or null bytes,
    which Python takes for other encodings, are not told apart. *)
Definition loads_bytes (text : string) : result pyobj :=
  match utf8_decode (chars text) with
  | Some cs => loads dict_hook float_constant (of_chars cs)
  | None => Raise (EValue "utf-8")
  end.
(** [json.dumps(body, sort_keys=True).encode()] *)
Definition encoded (b : dict) : string := of_chars (utf8_bytes (dumps_sep " " true (PDict b))).

Definition read (self : CatalogFile) : F Catalog :=
  st ← get_files;
  match st !! path self with
  | None => liftF (catalog_empty (file_dimension self) PNone)
  | Some _ =>
      match identity self with
      | None => liftF (Raise (EValue "catalog identity is required"))
      | Some identity =>
          text ← decrypt (path self) [identity] MAX_DECRYPTED_SIZE;
          value ← liftF (loads_bytes text);
          liftF (from_body value (file_dimension self) PNone)
      end
  end.

Definition _publish (self : CatalogFile) (catalog : Catalog) (recipients : list string) : F unit :=
  mkdir ;;
  temp ← mkstemp ".catalog.jroom.";
  finally (encrypt (encoded (body catalog)) recipients temp ;; replace temp (path self)) (unlink temp).

Definition write (self : CatalogFile) (catalog : Catalog) (recipients : list string) : F unit :=
  _publish self catalog recipients.

(** Opening the lock file creates it; waiting for the lock ends when its holder's
    critical section does, so the critical sections are steps of the model. *)
Definition _exclusive_file_lock : F unit :=
  call ;; st ← get_files; match st !! lock_path with Some _ => mret tt | None => put_file lock_path "" end.

Definition file_update_if_revision (self : CatalogFile) (expected_revision : pyobj) (catalog : Catalog) (recipients : list string)
    : F Catalog :=
  liftF (raise_if (negb (is_revision expected_revision)) stale) ;;
  mkdir ;;
  _exclusive_file_lock ;;
  current ← read self;
  revision ← liftF (get_item "revision" (body current));
  liftF (raise_if (negb (py_eq revision expected_revision)) stale) ;;
  _publish self catalog recipients ;;
  mret catalog.
End files.
