(* ===== verification/CatalogFileProps.v ===== *)
(** * The catalog's file: lemmas

    What is read after a publication, what a failing publication leaves, and the runs of
    a host whose calls all succeed. *)

From S2P Require Import Prelude PyStr PyObj PyDatetime PyJson JsonProps LogicalJat LogicalJatProps LogicalJatDemo LogicalJatTheorems.
From S2P Require Import Catalog CatalogProps CatalogOps CatalogMade CatalogLogical Crypto CryptoProps CatalogFile.
From Stdlib Require Import Ascii.

(** ** Reading back the stored text *)
(** The catalog with every object's keys in order. *)
Definition sorted_catalog (c : Catalog) : Catalog :=
  {| body := canon_dict (body c); encryption_domain_id := encryption_domain_id c |}.
(** The file is read for the Dimension of the catalog, or for none. *)
Definition read_for (self : CatalogFile) (c : Catalog) : Prop :=
  file_dimension self = PNone \/ (file_dimension self = dimension_id c /\ get_or_none "format_version" (body c) <> PInt 1).

Section text.
Context `{PyRuntime, JsonRuntime}.
Definition parse (self : CatalogFile) (text : string) : result Catalog :=
  value ← loads_bytes text; from_body value (file_dimension self) PNone.

Lemma loads_encoded b : plain json_depth (PDict b) -> loads_bytes (encoded b) = Ok (PDict (canon_dict b)).
Proof.
  intros Hp. unfold loads_bytes, encoded. rewrite chars_of_chars, utf8_roundtrip, of_chars_chars.
  by apply (loads_spaced dict_hook float_constant dict_hook_distinct (PDict b)).
Qed.
Lemma parse_encoded self c : made_ok c -> plain json_depth (PDict (body c)) -> read_for self c ->
  parse self (encoded (body c)) = Ok (sorted_catalog c).
Proof.
  intros [((v & r & projects & Hc) & Hdom & Hok) Hd] Hp Hself. unfold parse. rewrite loads_encoded by done. cbn [mbind result_bind from_body].
  pose proof (distinct_keys _ Hd) as Hnd. pose proof Hc as (Hv & Hr & Hgv & _ & _ & H2 & H3 & _).
  pose proof (checked_body_canon _ _ _ _ Hd Hc) as Hcanon.
  assert (get_or_none "encryption_domain_id" (canon_dict (body c)) = encryption_domain_id c) as Hdc.
  { rewrite get_or_none_canon, Hdom by done. by destruct Hok as [E|(s & E & _)]; rewrite Hdom in E; rewrite E. }
  assert (get_or_none "format_version" (canon_dict (body c)) = PInt v) as Hvc by (by rewrite get_or_none_canon, (get_or_none_eq _ _ _ Hgv)).
  assert (py_eq (PInt v) (PInt 3) && negb (has_key "encryption_domain_id" (canon_dict (body c))) = false) as Hguard.
  { rewrite has_key_canon. destruct (decide (v = 3%Z)) as [Hv3|Hv3].
    - destruct (H3 Hv3) as (_ & e & He & _). by rewrite (has_key_get _ _ _ He), andb_false_r.
    - assert (py_eq (PInt v) (PInt 3) = false) as ->; [|done]. simpl. apply bool_decide_eq_false. congruence. }
  rewrite Hvc, Hguard. cbn [raise_if is_none mbind result_bind]. rewrite Hvc.
  assert (is_v 1 (PInt v) && negb (is_none (file_dimension self)) = false) as ->.
  { rewrite is_v_PInt. destruct Hself as [->|[_ Hv1]]; [by rewrite andb_false_r |].
    rewrite (get_or_none_eq _ _ _ Hgv) in Hv1. destruct (Z.eqb_spec 1 v); [congruence | done]. }
  cbn [mbind result_bind]. rewrite (init_Ok _ _ _ _ Hcanon) by by rewrite Hdc. cbn [mbind result_bind]. rewrite Hdc.
  assert (negb (is_none (file_dimension self)) && negb (py_eq (dimension_id (sorted_catalog c)) (file_dimension self)) = false) as Hmatch.
  { destruct Hself as [->|[Hdim Hv1]]; [done |]. rewrite (get_or_none_eq _ _ _ Hgv) in Hv1.
    destruct H2 as (s & Hs & _); [destruct (decide (v = 1%Z)); [congruence | lia] |].
    assert (dimension_id c = PStr s) as Hdim' by by apply get_or_none_eq.
    assert (dimension_id (sorted_catalog c) = PStr s) as -> by (unfold dimension_id; cbn [sorted_catalog body]; by apply get_or_none_eq, str_canon).
    rewrite Hdim, Hdim', (proj2 (py_eq_PStr _ _) eq_refl). done. }
  unfold sorted_catalog in *. by rewrite Hmatch.
Qed.
Lemma revision_sorted c : distinct (PDict (body c)) -> revision (sorted_catalog c) = revision c.
Proof.
  intros Hd%distinct_keys. unfold revision, sorted_catalog. cbn [body]. rewrite get_or_none_canon by done.
  by destruct (get_or_none "revision" (body c)).
Qed.
End text.

(** ** Publication *)
Section file.
Context `{PyRuntime, JsonRuntime, Host}.
(** What a file holds that must survive: files that exist and names without a dot. *)
Definition protected (st : store) (name : string) : Prop := is_Some (st !! name) \/ startswith "." name = false.
Lemma protected_fresh (P : string -> Prop) st0 : (forall n, P n -> protected st0 n) ->
  forall st name, agrees P st0 st -> startswith "." name = true -> st !! name = None -> ~ P name.
Proof.
  intros HP st name Ha Hdot Hnone Hn. destruct (HP name Hn) as [[x Hx]|]; [|congruence]. rewrite (Ha name Hn) in Hnone. congruence.
Qed.

Definition unprotected_path (self : CatalogFile) (st : store) (name : string) : Prop := name <> path self /\ protected st name.
Lemma keeps_publish self c recipients st0 : keeps (unprotected_path self st0) st0 (_publish self c recipients) (fun _ => True).
Proof.
  pose proof (protected_fresh (unprotected_path self st0) st0 (fun n h => proj2 h)) as Hfresh.
  assert (~ unprotected_path self st0 (path self)) as Hpath by (by intros []).
  pose proof (keeps_encrypt (unprotected_path self st0) st0 Hfresh). unfold _publish, mkdir. keep.
Qed.

Lemma unlink_cases name d r d' : unlink name d = (r, d') -> files d' = files d \/ files d' = delete name (files d).
Proof.
  unfold unlink, mbind, F_bind. destruct (call d) as [[u|e] d1] eqn:Hc; unfold call in Hc; injection Hc as <- <- || injection Hc as _ <-; intros [= _ <-]; auto.
Qed.
Lemma replace_cases source target d r d' : replace source target d = (r, d') ->
  files d' = files d \/ exists text, files d !! source = Some text /\ files d' = <[target := text]> (delete source (files d)).
Proof.
  unfold replace, mbind, F_bind. destruct (call d) as [[u|e] d1] eqn:Hc; unfold call in Hc; injection Hc as _ <-; [|by intros [= _ <-]; left].
  unfold get_files. cbn [files]. destruct (files d !! source) as [text|] eqn:Hs; [|by intros [= _ <-]; left]. intros [= _ <-]. cbn [files].
  right. by exists text.
Qed.

(** The path after the critical part of a publication, whether it returned or not. *)
Lemma finish_path self c recipients temp d r d' : temp <> path self -> is_Some (files d !! temp) ->
  finally (encrypt (encoded (body c)) recipients temp ;; replace temp (path self)) (unlink temp) d = (r, d') ->
  (forall st name, agrees (fun n => n = path self) (files d) st -> startswith "." name = true -> st !! name = None -> name <> path self) ->
  files d' !! path self = files d !! path self
  \/ exists cipher, age_encrypt recipients (encoded (body c)) = Some cipher /\ files d' !! path self = Some cipher.
Proof.
  intros Hne Hsome Hrun Hfresh. unfold finally in Hrun.
  destruct ((encrypt (encoded (body c)) recipients temp ;; replace temp (path self)) d) as [r1 d1] eqn:Hm.
  destruct (unlink temp d1) as [r2 d2] eqn:Hu. assert (d' = d2) as -> by (by destruct r2; injection Hrun as _ <-).
  assert (files d2 !! path self = files d1 !! path self) as ->.
  { destruct (unlink_cases _ _ _ _ Hu) as [->| ->]; [done | by rewrite lookup_delete_ne]. }
  unfold mbind, F_bind in Hm. destruct (encrypt _ _ _ d) as [[[]|e] d0] eqn:He.
  - apply encrypt_Ok in He as (cipher & Hcipher & Hd0); [|done].
    destruct (replace_cases _ _ _ _ _ Hm) as [->|(text & Htext & ->)].
    + left. by rewrite Hd0, lookup_insert_ne.
    + right. exists cipher. split; [done |]. rewrite Hd0, lookup_insert_eq in Htext. by rewrite lookup_insert_eq.
  - injection Hm as _ <-. left.
    assert (keeps (fun n => n = path self) (files d) (encrypt (encoded (body c)) recipients temp) (fun _ => True)) as Hk.
    { apply keeps_encrypt; [|exact Hne]. intros st name Ha Hdot Hnone. by apply (Hfresh st name). }
    destruct (Hk _ _ _ (fun n _ => eq_refl) He) as [Ha _]. by apply Ha.
Qed.

Lemma publish_path self c recipients d r d' : startswith "." (path self) = false -> _publish self c recipients d = (r, d') ->
  files d' !! path self = files d !! path self
  \/ exists cipher, age_encrypt recipients (encoded (body c)) = Some cipher /\ files d' !! path self = Some cipher.
Proof.
  intros Hdot Hrun. unfold _publish, mkdir in Hrun. unfold mbind at 1, F_bind at 1 in Hrun.
  destruct (call d) as [[u|e] d1] eqn:Hc; unfold call in Hc; injection Hc as _ <-; [|injection Hrun as _ <-; by left].
  unfold mbind at 1, F_bind at 1 in Hrun. destruct (mkstemp _ _) as [[temp|e] d2] eqn:Hm.
  - apply mkstemp_Ok in Hm as (Hnone & Hprefix & Hd2). cbn [files] in *.
    assert (temp <> path self) as Hne.
    { intros ->. change ".catalog.jroom." with ("." +:+ "catalog.jroom.") in Hprefix. apply startswith_trans in Hprefix. congruence. }
    apply finish_path in Hrun; [|done | by rewrite Hd2, lookup_insert_eq | by intros st name _ Hd _ ->; congruence].
    rewrite Hd2, lookup_insert_ne in Hrun by done. exact Hrun.
  - left. assert (keeps (fun n => n = path self) (files d) (mkstemp ".catalog.jroom.") (fun name => name <> path self)) as Hk.
    { apply keeps_mkstemp; [|done]. intros st name _ Hd _ ->. congruence. }
    injection Hrun as _ <-. match type of Hm with _ ?d1 = _ => destruct (Hk d1 _ _ (fun n _ => eq_refl) Hm) as [Ha _] end. by apply Ha.
Qed.
Lemma publish_Ok self c recipients d u d' : startswith "." (path self) = false -> _publish self c recipients d = (Ok u, d') ->
  exists cipher, age_encrypt recipients (encoded (body c)) = Some cipher /\ files d' = <[path self := cipher]> (files d).
Proof.
  intros Hdot (? & d1 & Hd1%call_Ok & (temp & d2 & (Hnone & Hprefix & Hd2)%mkstemp_Ok & Hrun)%bindF_Ok)%bindF_Ok.
  apply finally_Ok in Hrun as (d4 & Hrun & Hd'%unlink_Ok). apply bindF_Ok in Hrun as (? & d3 & Hrun & (text & Htext & Hd4)%replace_Ok).
  apply encrypt_Ok in Hrun as (cipher & Hcipher & Hd3); [|by rewrite Hd2, lookup_insert_eq].
  rewrite Hd3, lookup_insert_eq in Htext. injection Htext as <-. exists cipher. split; [done |].
  assert (temp <> path self) as Hne.
  { intros ->. change ".catalog.jroom." with ("." +:+ "catalog.jroom.") in Hprefix. apply startswith_trans in Hprefix. congruence. }
  rewrite Hd1 in *. rewrite Hd', Hd4, Hd3, Hd2. apply map_eq. intros n.
  destruct (decide (n = temp)) as [->|]; [|destruct (decide (n = path self)) as [->|]]; by simplify_map_eq.
Qed.

(** ** Reading *)
Definition to_option {A} (r : result A) : option A := match r with Ok a => Some a | Raise _ => None end.
(** The catalog a store holds for a reader: what [read] returns when no call fails. *)
Definition contents (self : CatalogFile) (st : store) : option Catalog :=
  match st !! path self with
  | None => to_option (catalog_empty (file_dimension self) PNone)
  | Some cipher => ident ← identity self; text ← age_decrypt [ident] cipher; to_option (parse self text)
  end.
Lemma read_Ok self d c d' : read self d = (Ok c, d') -> contents self (files d) = Some c /\ files d' = files d.
Proof.
  unfold read, contents. intros (st & d1 & [-> ->]%get_Ok & Hr)%bindF_Ok.
  destruct (files d !! path self) as [cipher|] eqn:Hp; [|by apply liftF_Ok in Hr as [-> ->]].
  destruct (identity self) as [ident|]; [|by apply liftF_Ok in Hr as [? _]].
  apply bindF_Ok in Hr as (text & d2 & Hdec & Hr). apply decrypt_Ok in Hdec as (cipher' & Hc & Ht & Hd2); [|by rewrite Hp].
  rewrite Hp in Hc. injection Hc as <-. apply bindF_Ok in Hr as (value & d3 & [Hv ->]%liftF_Ok & [Hb ->]%liftF_Ok).
  cbn [mbind option_bind]. rewrite Ht. cbn [mbind option_bind]. unfold parse. rewrite Hv. cbn [mbind result_bind]. by rewrite Hb.
Qed.
Lemma keeps_read_catalog P st0 self :
  (forall st name, agrees P st0 st -> startswith "." name = true -> st !! name = None -> ~ P name) ->
  keeps P st0 (read self) (fun _ => True).
Proof.
  intros Hfresh. pose proof (keeps_decrypt P st0 Hfresh). unfold read. eapply keeps_bind; [apply keeps_get | intros st _].
  destruct (st !! path self); [|apply keeps_lift]. destruct (identity self); [|apply keeps_lift].
  eapply keeps_bind; [eauto | intros text _]. eapply keeps_bind; apply keeps_lift || intros; apply keeps_lift.
Qed.

Definition path_only (self : CatalogFile) (n : string) : Prop := n = path self.
Lemma path_fresh self st0 : startswith "." (path self) = false ->
  forall st name, agrees (path_only self) st0 st -> startswith "." name = true -> st !! name = None -> ~ path_only self name.
Proof. intros Hdot st name _ Hn _ ->. congruence. Qed.

Lemma contents_sound self st c : contents self st = Some c -> sound c.
Proof.
  unfold contents. destruct (st !! path self) as [cipher|].
  - destruct (identity self) as [ident|]; [|done]. cbn [mbind option_bind]. destruct (age_decrypt [ident] cipher) as [text|]; [|done].
    cbn [mbind option_bind]. destruct (parse self text) as [c'|] eqn:Hc; [|done]. intros [= <-].
    apply bind_Ok_inv in Hc as (value & _ & Hc). destruct value as [| | | | | |b]; try done. cbn [from_body] in Hc. inv_result.
    match goal with A : Catalog_init _ _ = _ |- _ => by apply init_sound in A as [? _] end.
  - destruct (catalog_empty (file_dimension self) PNone) as [c'|] eqn:Hc; [|done]. intros [= <-]. unfold catalog_empty in Hc.
    apply bind_Ok_inv in Hc as ([] & _ & Hc). destruct (is_none (file_dimension self)); [|apply bind_Ok_inv in Hc as ([] & _ & Hc)];
      by apply init_sound in Hc as [? _].
Qed.
Lemma bindF_cases {A B} (m : F A) (f : A -> F B) d r d' : (m ≫= f) d = (r, d') ->
  (exists e d1, m d = (Raise e, d1) /\ r = Raise e /\ d' = d1) \/ exists a d1, m d = (Ok a, d1) /\ f a d1 = (r, d').
Proof. unfold mbind, F_bind. destruct (m d) as [[a|e] d1]; [right; eauto | intros [= <- <-]; left; eauto]. Qed.

(** An update that does not get to its publication leaves the catalog; one that does has
    read the expected revision. *)
Lemma update_cases self e c recipients d r d' : startswith "." (path self) = false ->
  file_update_if_revision self (PInt e) c recipients d = (r, d') ->
  (files d' !! path self = files d !! path self /\ is_ok r = false)
  \/ exists current, contents self (files d) = Some current /\ dict_get "revision" (body current) = Some (PInt e)
     /\ (files d' !! path self = files d !! path self /\ is_ok r = false
         \/ exists cipher, age_encrypt recipients (encoded (body c)) = Some cipher /\ files d' !! path self = Some cipher).
Proof.
  intros Hdot Hrun. pose proof (path_fresh self (files d) Hdot) as Hfresh.
  assert (agrees (path_only self) (files d) (files d)) as Ha by done.
  assert (keeps (path_only self) (files d) _exclusive_file_lock (fun _ => True)) as Hlock.
  { unfold _exclusive_file_lock.
    eapply keeps_bind; [apply keeps_call | intros _ _]. eapply keeps_bind; [apply keeps_get | intros st _].
    destruct (st !! lock_path); [by apply keeps_ret | apply keeps_put]. intros E. rewrite <- E in Hdot. by vm_compute in Hdot. }
  pose proof (keeps_read_catalog (path_only self) (files d) self Hfresh) as Hread.
  assert (forall B (e : exn) d1, agrees (path_only self) (files d) (files d1) -> r = Raise e -> d' = d1 ->
    (files d' !! path self = files d !! path self /\ is_ok r = false) \/ B) as Hstop.
  { intros B err d1 Ha1 -> ->. left. split; [by apply Ha1 | done]. }
  unfold file_update_if_revision in Hrun.
  apply bindF_cases in Hrun as [(err & d1 & Hs & Hr & Hd)|([] & d1 & [_ ->]%liftF_Ok & Hrun)]; [injection Hs as _ <-; eapply Hstop; eassumption |].
  apply bindF_cases in Hrun as [(err & d1 & Hs & Hr & Hd)|([] & d1 & Hs & Hrun)];
    destruct (keeps_call _ _ _ _ _ Ha Hs) as [Ha1 _]; [eapply Hstop; eassumption |].
  apply bindF_cases in Hrun as [(err & d2 & Hs2 & Hr & Hd)|([] & d2 & Hs2 & Hrun)];
    destruct (Hlock _ _ _ Ha1 Hs2) as [Ha2 _]; [eapply Hstop; eassumption |].
  apply bindF_cases in Hrun as [(err & d3 & Hs3 & Hr & Hd)|(current & d3 & Hs3 & Hrun)];
    destruct (Hread _ _ _ Ha2 Hs3) as [Ha3 _]; [eapply Hstop; eassumption |].
  apply bindF_cases in Hrun as [(err & d4 & Hs4 & Hr & Hd)|(rev & d4 & [Hrev ->]%liftF_Ok & Hrun)]; [injection Hs4 as _ <-; eapply Hstop; eassumption |].
  apply bindF_cases in Hrun as [(err & d5 & Hs5 & Hr & Hd)|([] & d5 & [Heq ->]%liftF_Ok & Hrun)]; [injection Hs5 as _ <-; eapply Hstop; eassumption |].
  right. exists current. apply read_Ok in Hs3 as [Hcontents _].
  assert (contents self (files d) = Some current) as Hc by (unfold contents in *; by rewrite (Ha2 (path self) eq_refl) in Hcontents).
  split; [done |]. inv_result. bools. apply get_item_Ok in Hrev.
  assert (dict_get "revision" (body current) = Some (PInt e)) as Hcur.
  { destruct (contents_sound _ _ _ Hc) as ((v & rr & ps & (_ & _ & _ & Hrr & _)) & _). rewrite Hrev in Hrr. injection Hrr as ->. simpl in Heq. bools. congruence. }
  split; [done |].
  apply bindF_cases in Hrun as [(err & d6 & Hs6 & -> & ->)|([] & d6 & Hs6 & [= <- <-])].
  - destruct (publish_path _ _ _ _ _ _ Hdot Hs6) as [Hsame|(cipher & ? & ?)]; [|right; eauto]. left. rewrite Hsame. split; [by apply Ha3 | done].
  - destruct (publish_Ok _ _ _ _ _ _ Hdot Hs6) as (cipher & ? & ->). right. exists cipher. by rewrite lookup_insert_eq.
Qed.
End file.
