(* ===== verification/CatalogDemo.v ===== *)
(** * A concrete catalog

    A host that encrypts with the identity and never fails, and the catalogs the witnesses
    of the catalog theorems run on. *)

From S2P Require Import Prelude PyStr PyObj PyDatetime PyJson JsonProps LogicalJat LogicalJatProps LogicalJatDemo LogicalJatTheorems.
From S2P Require Import Catalog CatalogProps CatalogOps CatalogLogical CatalogMade Crypto CatalogFile CatalogFileProps.
From Stdlib Require Import Ascii.

#[export] Existing Instance jat_runtime.
#[export] Existing Instance jat_json.

(** ** A host *)
(** A name longer than every name in use. *)
Definition longest (st : store) : nat := max_list (py_len <$> (map_to_list st).*1).
Definition padding (n : nat) : string := of_chars (replicate n "x"%char).
Definition long_name (prefix : string) (st : store) : string := prefix +:+ padding (S (longest st)).

Lemma long_fresh prefix st : st !! long_name prefix st = None.
Proof.
  destruct (st !! long_name prefix st) as [x|] eqn:Hx; [|done]. exfalso.
  assert (py_len (long_name prefix st) <= longest st).
  { apply max_list_elem_of_le, list_elem_of_fmap. exists (long_name prefix st). split; [done |].
    apply list_elem_of_fmap. exists (long_name prefix st, x). split; [done |]. by apply elem_of_map_to_list. }
  unfold long_name, padding in *. rewrite py_len_app in *. rewrite <- (length_chars (of_chars _)), chars_of_chars, length_replicate in *. lia.
Qed.
#[export] Instance demo_host : Host := {|
  call_ok _ := true; torn _ := ""; temp_name := long_name; temp_prefix prefix st := startswith_app prefix _;
  temp_fresh := long_fresh; age_available := true; is_file _ := true; is_symlink _ := false; file_mode _ := 256%Z; windows := false;
  age_encrypt _ text := Some text; age_decrypt _ text := Some text;
|}.

(** ** Catalogs *)
Definition key_of (digest : string) : string := "objects/sha256/" +:+ digest.
Definition demo_snapshot (id digest : string) : dict :=
  [("snapshot_id", PStr id); ("created_at", PStr "2024-01-02T03:04:05+00:00"); ("workspace_fingerprint", PStr digest_c);
   ("ciphertext_size", PInt 9); ("object_key", PStr (key_of digest)); ("ciphertext_sha256", PStr digest)].
Definition get_ok (r : result Catalog) : Catalog := match r with Ok c => c | Raise _ => {| body := []; encryption_domain_id := PNone |} end.

Definition demo_empty : Catalog := get_ok (catalog_empty (PStr "home") (PStr demo_domain)).
(** Snapshots [zulu], [alpha] and [mike], added in this order. *)
Definition demo_one : Catalog := get_ok (add_snapshot demo_empty "room" "Room" (demo_snapshot "zulu" digest_a)).
Definition demo_two : Catalog := get_ok (add_snapshot demo_one "room" "Room" (demo_snapshot "alpha" digest_b)).
Definition demo_three : Catalog := get_ok (add_snapshot demo_two "room" "Room" (demo_snapshot "mike" digest_a)).

Definition demo_ref : ObjectRef := {| key := PStr (key_of digest_b); object_sha256 := PStr digest_b; size := PInt 4 |}.
(** The same with a logical snapshot, which makes it a version 3 catalog. *)
Definition demo_logical : Catalog := get_ok (add_logical_snapshot demo_three "room" "Room" demo_jat demo_ref (PStr digest_c)).

Lemma demo_depth : 5 <= @json_depth jat_json.
Proof. cbn. lia. Qed.
Lemma demo_plain_body : plain 5 demo_body.
Proof. exact demo_plain. Qed.
Lemma demo_jat_accepted : accepted demo_jat.
Proof. exists demo_body. split; [exact demo_distinct | exact demo_accepted]. Qed.

(** A body of a few levels is plain. *)
Ltac plain_body := repeat match goal with
  | |- _ /\ _ => split | |- NoDup _ => apply (bool_decide_eq_true_1 _); vm_compute; reflexivity
  | |- Forall _ _ => constructor | |- True => done | |- _ => lia | |- _ => progress simpl end.
Lemma demo_snapshot_distinct id digest : distinct (PDict (demo_snapshot id digest)).
Proof. apply (plain_distinct 1). plain_body. Qed.

Lemma demo_empty_made : made demo_empty.
Proof. apply (made_empty (PStr "home") (PStr demo_domain)). vm_compute. reflexivity. Qed.
Lemma demo_one_made : made demo_one.
Proof. apply (made_add demo_empty "room" "Room" (demo_snapshot "zulu" digest_a)); [exact demo_empty_made | apply demo_snapshot_distinct | vm_compute; reflexivity]. Qed.
Lemma demo_two_made : made demo_two.
Proof. apply (made_add demo_one "room" "Room" (demo_snapshot "alpha" digest_b)); [exact demo_one_made | apply demo_snapshot_distinct | vm_compute; reflexivity]. Qed.
Lemma demo_three_made : made demo_three.
Proof. apply (made_add demo_two "room" "Room" (demo_snapshot "mike" digest_a)); [exact demo_two_made | apply demo_snapshot_distinct | vm_compute; reflexivity]. Qed.
Lemma demo_logical_made : made demo_logical.
Proof. apply (made_logical demo_three "room" "Room" demo_jat demo_ref (PStr digest_c)); [exact demo_three_made | exact demo_jat_accepted | vm_compute; reflexivity]. Qed.

Definition demo_file : CatalogFile := {| path := "catalog.jroom.age"; identity := Some "identity"; file_dimension := PStr "home" |}.
Definition demo_disk : disk := {| files := ∅; calls := 0 |}.
Definition demo_recipients : list string := ["age1a"; "age1b"].
Lemma demo_two_plain : plain json_depth (PDict (body demo_two)).
Proof.
  apply (plain_le 5); [cbn; lia |]. let b := eval vm_compute in (body demo_two) in change (body demo_two) with b. plain_body.
Qed.
