(* ===== verification/CatalogTheorems.v ===== *)
(** * The room catalog: property theorems

    What every reachable catalog satisfies, what a removal and an insertion do to it, and
    why the storage order of the snapshots matters. *)

From S2P Require Import Prelude PyStr PyObj PyDatetime PyJson JsonProps LogicalJat LogicalJatProps LogicalJatDemo LogicalJatTheorems.
From S2P Require Import Catalog CatalogProps CatalogOps CatalogLogical CatalogMade Crypto CatalogFile CatalogFileProps CatalogDemo.
From Stdlib Require Import Ascii.

(** ** Objects by room and snapshot *)
Definition names (b : dict) (pid sid k : string) : Prop :=
  exists s, find b pid sid = Some (PDict s) /\ dict_get "object_key" s = Some (PStr k).
Definition version_of (c : Catalog) : pyobj := get_or_none "format_version" (body c).

(** What holds of every catalog a program can reach. *)
Record wf_catalog (c : Catalog) : Prop := {
  wf_version : exists v, version_of c = PInt v /\ (1 <= v <= 3)%Z;
  wf_revision : exists r, dict_get "revision" (body c) = Some (PInt r) /\ (0 <= r)%Z;
  wf_domain : encryption_domain_id c = get_or_none "encryption_domain_id" (body c)
    /\ (encryption_domain_id c = PNone \/ exists s, encryption_domain_id c = PStr s /\ fullmatch UUID4_RE s = true);
  wf_distinct : distinct (PDict (body c));
  wf_dimension : version_of c <> PInt 1 ->
    exists d, dict_get "dimension_id" (body c) = Some (PStr d) /\ fullmatch _IDENTIFIER d = true;
  wf_room_ids pid room : version_of c <> PInt 1 -> dict_get pid (rooms (body c)) = Some room -> fullmatch _IDENTIFIER pid = true;
  wf_snapshot_ids pid sid value : version_of c <> PInt 1 -> find (body c) pid sid = Some value -> fullmatch _IDENTIFIER sid = true;
  wf_fields : version_of c = PInt 3 -> forall k, has_key k (body c) = true <-> k ∈ V3_FIELDS;
  wf_rooms pid room : version_of c = PInt 3 -> dict_get pid (rooms (body c)) = Some room ->
    exists p name, room = PDict p /\ (forall k, has_key k p = true <-> k ∈ ["display_name"; "latest"; "snapshots"])
      /\ dict_get "display_name" p = Some (PStr name) /\ name <> "";
  wf_objects pid sid value : find (body c) pid sid = Some value -> exists s k, value = PDict s /\ names_object s k;
  wf_latest pid room : version_of c = PInt 3 -> dict_get pid (rooms (body c)) = Some room ->
    (latest_of (body c) pid = Some PNone /\ snapshots_of room = [])
    \/ exists sid value, latest_of (body c) pid = Some (PStr sid) /\ find (body c) pid sid = Some value
       /\ latest c pid = Ok value /\ resolve_snapshot c pid "latest" = Ok value;
  wf_bound pid sid s : version_of c = PInt 3 -> find (body c) pid sid = Some (PDict s) -> has_key "payload_kind" s = true ->
    dict_get "snapshot_id" s = Some (PStr sid) /\ dict_get "room_id" s = Some (PStr pid)
    /\ dict_get "dimension_id" s = Some (dimension_id c) /\ dict_get "encryption_domain_id" s = Some (encryption_domain_id c);
  wf_plain pid sid s : version_of c <> PInt 1 -> find (body c) pid sid = Some (PDict s) ->
    version_of c = PInt 2 \/ has_key "payload_kind" s = false ->
    exists id print n, dict_get "snapshot_id" s = Some (PStr id) /\ fullmatch _IDENTIFIER id = true
      /\ dict_get "workspace_fingerprint" s = Some (PStr print) /\ fullmatch _SHA256 print = true
      /\ dict_get "ciphertext_size" s = Some (PInt n) /\ (1 <= n)%Z;
}.

Lemma find_inv b pid sid value : find b pid sid = Some value ->
  exists room, dict_get pid (rooms b) = Some room /\ dict_get sid (snapshots_of room) = Some value.
Proof. unfold find. destruct (dict_get pid (rooms b)) as [room|]; [|done]. intros Hf. by exists room. Qed.

Lemma latest_found c pid p ss sid value projects : dict_get "projects" (body c) = Some (PDict projects) ->
  dict_get pid projects = Some (PDict p) -> dict_get "snapshots" p = Some (PDict ss) -> dict_get "latest" p = Some (PStr sid) ->
  dict_get sid ss = Some value -> latest c pid = Ok value /\ resolve_snapshot c pid "latest" = Ok value.
Proof.
  intros Hp Hpid Hss Hl Hsid. unfold latest, resolve_snapshot.
  rewrite (get_object_Ok _ _ _ Hp). cbn [mbind result_bind]. rewrite (get_object_Ok _ _ _ Hpid). cbn [mbind result_bind].
  rewrite (get_object_Ok _ _ _ Hss), String.eqb_refl. unfold get_item. rewrite Hl. cbn [mbind result_bind subscript reraise].
  unfold get_item. by rewrite Hsid.
Qed.

Lemma plain_snapshot s : _validate_v2_snapshot s = Ok tt ->
  exists id print n, dict_get "snapshot_id" s = Some (PStr id) /\ fullmatch _IDENTIFIER id = true
    /\ dict_get "workspace_fingerprint" s = Some (PStr print) /\ fullmatch _SHA256 print = true
    /\ dict_get "ciphertext_size" s = Some (PInt n) /\ (1 <= n)%Z.
Proof.
  unfold _validate_v2_snapshot. intros Hs. inv_result. bools.
  match goal with A : get_item "snapshot_id" s = Ok _, B : _validate_identifier "snapshot" _ = Ok _ |- _ =>
    apply get_item_Ok in A; apply identifier_inv in B as (id & -> & Hid) end.
  destruct (get_or_none "workspace_fingerprint" s) as [| | | |print| |] eqn:Hp; try done.
  destruct (get_or_none "ciphertext_size" s) as [| |n| | | |] eqn:Hn; try done.
  apply get_or_none_get in Hp, Hn; [|done..]. exists id, print, n. unfold fingerprint_ok, positive_int in *. bools.
  split_and!; try done; lia.
Qed.

Section sound.
Context (c : Catalog) (v r : Z) (projects : dict) (Hc : checked_body (body c) v r projects).
Lemma checked_version : version_of c = PInt v.
Proof. destruct Hc as (_ & _ & Hv & _). unfold version_of. by apply get_or_none_eq. Qed.
Lemma checked_room pid room : dict_get pid (rooms (body c)) = Some room ->
  room_at v (get_or_none "dimension_id" (body c)) (get_or_none "encryption_domain_id" (body c)) pid room.
Proof. destruct Hc as (_ & _ & _ & _ & Hp & _ & _ & Hall). rewrite (rooms_eq _ _ Hp). apply (entries_get _ _ _ _ Hall). Qed.
Lemma checked_snapshot pid sid value : find (body c) pid sid = Some value ->
  snapshot_at v (get_or_none "dimension_id" (body c)) (get_or_none "encryption_domain_id" (body c)) pid sid value.
Proof.
  intros (room & Hroom & Hsid)%find_inv. apply checked_room in Hroom as (_ & p & ss & -> & Hss & _ & Hsnaps).
  rewrite (snapshots_of_PDict _ _ Hss) in Hsid. apply (entries_get _ _ _ _ Hsnaps Hsid).
Qed.
Lemma checked_v3_room pid room : version_of c = PInt 3 -> dict_get pid (rooms (body c)) = Some room ->
  exists p ss name l, room = PDict p /\ dict_get "snapshots" p = Some (PDict ss)
    /\ (forall k, has_key k p = true <-> k ∈ ["display_name"; "latest"; "snapshots"])
    /\ dict_get "display_name" p = Some (PStr name) /\ name <> "" /\ dict_get "latest" p = Some l /\ latest_ok l ss = true.
Proof.
  rewrite checked_version. intros [= Hv3] Hroom. apply checked_room in Hroom as (_ & p & ss & -> & Hss & Hc3 & _).
  specialize (Hc3 Hv3). unfold check_v3_room in Hc3. inv_result. bools.
  match goal with A : keys_are _ p = true |- _ => pose proof A as Hkeys; destruct (keys_are_get _ _ "latest" A) as [l Hl]; [literal |] end.
  rewrite (get_or_none_eq _ _ _ Hl) in *.
  destruct (get_or_none "display_name" p) as [| | | |name| |] eqn:Hn; try done. apply get_or_none_get in Hn; [|done].
  exists p, ss, name, l. split; [done |]. split; [done |]. split; [by apply keys_are_Ok |]. split; [done |].
  split; [|done]. intros ->. done.
Qed.
End sound.

Lemma sound_wf c : sound c -> distinct (PDict (body c)) -> wf_catalog c.
Proof.
  intros ((v & r & projects & Hc) & Hdom & Hok) Hdistinct. pose proof Hc as (Hv & Hr & Hgv & Hgr & Hp & H2 & H3 & Hall).
  pose proof (checked_version c v r projects Hc) as Hver.
  assert (version_of c <> PInt 1 -> (2 <= v)%Z) as Hge2 by (rewrite Hver; intros Hne; destruct (decide (v = 1%Z)); [by subst | lia]).
  constructor.
  - eauto.
  - eauto.
  - split; [done |]. destruct Hok as [|(s & Hs & Hval)]; [by left | right]. rewrite Hs in *. apply domain_Ok in Hval as (s' & [= <-] & ?). eauto.
  - done.
  - intros Hne. by apply H2, Hge2.
  - intros pid room Hne Hroom. by apply (checked_room c v r projects Hc) in Hroom as [Hid _]; auto.
  - intros pid sid value Hne Hf. by apply (checked_snapshot c v r projects Hc) in Hf as [Hid _]; auto.
  - rewrite Hver. intros [= ->]. by apply keys_are_Ok, H3.
  - intros pid room Hv3 Hroom. destruct (checked_v3_room c v r projects Hc pid room Hv3 Hroom) as (p & ss & name & l & -> & _ & ? & ? & ? & _).
    by exists p, name.
  - intros pid sid value Hf. destruct (checked_snapshot c v r projects Hc _ _ _ Hf) as (_ & s & -> & (k & ?) & _). eauto.
  - intros pid room Hv3 Hroom.
    destruct (checked_v3_room c v r projects Hc pid room Hv3 Hroom) as (p & ss & name & l & -> & Hss & _ & _ & _ & Hl & Hlatest).
    rewrite (snapshots_of_PDict _ _ Hss). unfold latest_of. rewrite Hroom. cbn [mbind option_bind as_dict].
    unfold latest_ok in Hlatest. destruct (bool_decide (ss = [])) eqn:Hnil.
    + left. bools. destruct l; try done.
    + right. destruct l as [| | | |sid| |]; try done. apply has_key_spec in Hlatest as [value Hvalue].
      exists sid, value. split; [done |]. rewrite (rooms_eq _ _ Hp) in Hroom. split; [|by eapply latest_found].
      unfold find. rewrite (rooms_eq _ _ Hp), Hroom. cbn [mbind option_bind]. by rewrite (snapshots_of_PDict _ _ Hss).
  - intros pid sid s Hv3 Hf Hk. rewrite Hver in Hv3. injection Hv3 as ->.
    destruct (checked_snapshot c 3 r projects Hc _ _ _ Hf) as (_ & s' & [= <-] & _ & _ & Hl). specialize (Hl eq_refl). rewrite Hk in Hl.
    destruct Hl as (_ & Hsid & Hroom & (d & Hd & Hdd) & (e & He & Hee)). split; [done |]. split; [done |].
    destruct H2 as (ds & Hds & _); [done |]. destruct H3 as (_ & es & Hes & _); [done |].
    unfold dimension_id in *. rewrite Hdom in *. rewrite (get_or_none_eq _ _ _ Hds) in *. rewrite (get_or_none_eq _ _ _ Hes) in *.
    apply py_eq_PStr in Hdd, Hee. subst. done.
  - intros pid sid s Hne Hf Hplain. destruct (checked_snapshot c v r projects Hc _ _ _ Hf) as (_ & s' & [= <-] & _ & Hs2 & Hs3).
    apply plain_snapshot. rewrite Hver in Hne, Hplain. destruct Hplain as [[= ->] | Hk]; [by apply Hs2 |].
    destruct (decide (v = 2%Z)) as [->|Hn2]; [by apply Hs2 |]. assert (v = 3%Z) as -> by (specialize (Hge2 ltac:(by rewrite Hver)); lia).
    specialize (Hs3 eq_refl). by rewrite Hk in Hs3.
Qed.

(** ** Removals *)
Inductive target := WholeRoom (pid : string) | OneSnapshot (pid sid : string).
Definition removes (t : target) (pid sid : string) : bool :=
  match t with WholeRoom p => bool_decide (pid = p) | OneSnapshot p s => bool_decide (pid = p /\ sid = s) end.
Definition remove (c : Catalog) (t : target) : result (Catalog * list string) :=
  match t with
  | WholeRoom pid => '(c', keys, _) ← remove_project c pid; Ok (c', keys)
  | OneSnapshot pid sid => '(c', keys, _) ← remove_snapshot c pid sid; Ok (c', keys)
  end.
(** The target is there. *)
Definition present (b : dict) (t : target) : Prop :=
  match t with
  | WholeRoom pid => is_Some (dict_get pid (rooms b))
  | OneSnapshot pid sid => is_Some (find b pid sid)
  end.
(** The room has the entry [latest], which catalogs of versions 1 and 2 may lack. *)
Definition has_latest (b : dict) (pid : string) : Prop := is_Some (latest_of b pid).

Lemma dict_get_iff {V} (d : list (string * V)) k v : NoDup d.*1 -> dict_get k d = Some v <-> (k, v) ∈ d.
Proof. intros Hd. split; [apply dict_get_elem | by apply dict_get_NoDup]. Qed.
Lemma distinct_rooms b : distinct (PDict b) -> distinct (PDict (rooms b)).
Proof.
  intros Hd. unfold rooms, get_or_none. destruct (dict_get "projects" b) as [v|] eqn:Hp; [|by split; [apply NoDup_nil_2 |]].
  apply (distinct_get _ _ _ Hd) in Hp. destruct v; try by (split; [apply NoDup_nil_2 |]). done.
Qed.
Lemma distinct_snapshots room : distinct room -> distinct (PDict (snapshots_of room)).
Proof.
  intros Hd. unfold snapshots_of. destruct room as [| | | | | |p]; try by (split; [apply NoDup_nil_2 |]).
  cbn [as_dict mbind option_bind]. destruct (dict_get "snapshots" p) as [v|] eqn:Hp; [|by split; [apply NoDup_nil_2 |]].
  apply (distinct_get _ _ _ Hd) in Hp. destruct v; try by (split; [apply NoDup_nil_2 |]). done.
Qed.
Lemma room_refers_names b pid room k : distinct (PDict b) -> dict_get pid (rooms b) = Some room ->
  room_refers room k <-> exists sid, names b pid sid k.
Proof.
  intros Hd Hroom. pose proof (distinct_get _ _ _ (distinct_rooms _ Hd) Hroom) as Hdr. apply distinct_snapshots, distinct_keys in Hdr.
  unfold room_refers, names, find. rewrite Hroom. cbn [mbind option_bind].
  split; intros (sid & s & Hin & Hk); exists sid, s; (split; [|done]); by apply dict_get_iff.
Qed.
Lemma refers_names b k : distinct (PDict b) -> refers (rooms b) k <-> exists pid sid, names b pid sid k.
Proof.
  intros Hd. pose proof (distinct_keys _ (distinct_rooms _ Hd)) as Hnd. unfold refers. split.
  - intros (pid & room & Hin & Hk). exists pid. apply (room_refers_names _ _ room); [done | by apply dict_get_NoDup | done].
  - intros (pid & sid & s & Hf & Hk). destruct (find_inv _ _ _ _ Hf) as (room & Hroom & Hsid).
    exists pid, room. split; [by apply dict_get_elem |]. exists sid, s. split; [by apply dict_get_elem | done].
Qed.

(** ** Logical snapshots *)
Lemma dict_set_same {V} k (v : V) d : dict_get k d = Some v -> dict_set k v d = d.
Proof.
  induction d as [|[k' v'] d IH]; simpl; [done |]. case_bool_decide as Hk; [by intros [= ->]; subst |]. intros Hd. by rewrite IH.
Qed.
Lemma latest_inserted c' pid id s : find (body c') pid id = Some (PDict s) -> latest_of (body c') pid = Some (PStr id) ->
  sound c' -> latest c' pid = Ok (PDict s).
Proof.
  intros Hf Hl Hs. destruct (sound_checked c' Hs) as (v & projects & (_ & _ & _ & _ & Hp & _ & _ & Hall) & Hrooms).
  destruct (find_inv _ _ _ _ Hf) as (room & Hroom & Hid). unfold latest_of in Hl. rewrite Hrooms in *. rewrite Hroom in Hl.
  pose proof (entries_get _ _ _ _ Hall Hroom) as (_ & p & ss & -> & Hss & _). simpl in Hl.
  rewrite (snapshots_of_PDict _ _ Hss) in Hid. by eapply latest_found.
Qed.

Section catalogs.
Context `{PyRuntime, JsonRuntime} (Hdepth : 5 <= json_depth).

(** C39: every catalog a program reaches with the catalog's operations is well formed.
    Its version is 1, 2 or 3, its revision is a natural number, no object in it has a key
    twice, its domain is the one of its body and canonical, every snapshot names an object
    by its digest.  From version 2 on its Dimension and the ids of rooms and snapshots are
    canonical and a plain snapshot has an id, a fingerprint and a positive size.  In
    version 3 the catalog and its rooms have exactly the known fields, rooms have a name,
    the latest snapshot of a room is one of its snapshots, which [latest] and
    [resolve_snapshot] return, and every logical snapshot is stored under its own id,
    room, Dimension and domain. *)
Theorem catalog_invariant c : made c -> wf_catalog c.
Proof. intros Hc. destruct (made_sound Hdepth c Hc). by apply sound_wf. Qed.

(** C14: removing a room that is there, or a snapshot of a room that has the entry
    [latest], never fails; in version 3 every room has that entry.  It leaves a well-formed
    catalog with the next revision that lacks exactly what was removed, and returns
    exactly the object keys that only the removed snapshots named: an object that any
    remaining snapshot names is never returned for deletion. *)
Theorem removal_is_safe c t : made c -> present (body c) t ->
  (forall pid sid, t = OneSnapshot pid sid -> version_of c = PInt 3 \/ has_latest (body c) pid) ->
  exists c' keys, remove c t = Ok (c', keys) /\ wf_catalog c' /\ revision c' = (revision c + 1)%Z
  /\ (forall pid sid, find (body c') pid sid = if removes t pid sid then None else find (body c) pid sid)
  /\ (forall k, k ∈ keys <-> (exists pid sid, removes t pid sid = true /\ names (body c) pid sid k)
                             /\ ~ exists pid sid, names (body c') pid sid k).
Proof.
  intros Hmade Hpresent Hlatest. destruct (made_sound Hdepth c Hmade) as [Hs Hd]. destruct t as [pid|pid sid]; simpl in Hpresent.
  - destruct Hpresent as [room Hroom]. destruct (remove_project_total c pid room Hs Hroom) as (c' & keys & Hrun & Hs' & _ & Hr & Hrooms & Hkeys).
    destruct (remove_project_made c pid c' keys _ (conj Hs Hd) Hrun) as [_ Hd'].
    exists c', keys. unfold remove. rewrite Hrun. split; [done |]. split; [by apply sound_wf |]. split; [done |]. split.
    + intros pid' sid'. unfold find. rewrite Hrooms, dict_get_del. simpl. by case_bool_decide.
    + intros k. rewrite Hkeys, (refers_names _ _ Hd'), (room_refers_names _ _ _ _ Hd Hroom). simpl.
      split; intros [Hn ?]; (split; [|done]).
      * destruct Hn as [sid Hn]. exists pid, sid. by rewrite bool_decide_true.
      * destruct Hn as (pid' & sid & Hp & Hn). bools. subst. by exists sid.
  - destruct Hpresent as [s Hf]. destruct (find_inv _ _ _ _ Hf) as (room & Hroom & Hsid).
    assert (has_latest (body c) pid) as Hl.
    { destruct (Hlatest pid sid eq_refl) as [Hv3|]; [|done]. unfold has_latest.
      destruct (wf_latest _ (sound_wf c Hs Hd) pid room Hv3 Hroom) as [[-> _]|(? & ? & -> & _)]; by eexists. }
    destruct (remove_snapshot_total c pid sid room s Hs Hd Hroom Hsid Hl) as (c' & keys & emptied & Hrun & Hs' & _ & Hr & Hrooms & Hkeys).
    destruct (remove_snapshot_made c pid sid c' keys _ (conj Hs Hd) Hrun) as [_ Hd'].
    exists c', keys. unfold remove. rewrite Hrun. split; [done |]. split; [by apply sound_wf |]. split; [done |]. split.
    + intros pid' sid'. unfold find, removes. destruct emptied.
      * destruct Hrooms as [-> Hone]. rewrite dict_get_del. destruct (decide (pid' = pid)) as [->|Hne].
        -- rewrite bool_decide_true by done. rewrite Hroom. cbn [mbind option_bind]. case_bool_decide; [done |].
           symmetry. apply dict_get_None. rewrite Hone, list_elem_of_singleton. tauto.
        -- by rewrite !bool_decide_false by tauto.
      * destruct Hrooms as (room' & -> & Hsnaps & _). rewrite dict_get_set. destruct (decide (pid' = pid)) as [->|Hne].
        -- rewrite (bool_decide_true (pid = pid)) by done. cbn [mbind option_bind]. rewrite Hroom. cbn [mbind option_bind].
           rewrite Hsnaps, dict_get_del. rewrite (bool_decide_ext (pid = pid /\ sid' = sid) (sid' = sid)) by tauto. done.
        -- by rewrite !bool_decide_false by tauto.
    + intros k. rewrite Hkeys, (refers_names _ _ Hd'). simpl. split; intros [Hn ?]; (split; [|done]).
      * destruct Hn as (s' & -> & Hk). exists pid, sid. rewrite bool_decide_true by done. split; [done |]. by exists s'.
      * destruct Hn as (pid' & sid' & [-> ->]%bool_decide_eq_true & s' & Hf' & Hk). exists s'. split; congruence.
Qed.

(** A catalog of version 3 accepts every descriptor of its Dimension and domain with
    a valid object reference.  The new catalog is well formed, has the next revision,
    differs only in the descriptor's snapshot, which is the latest of its room, and that
    snapshot corroborates the descriptor. *)
Theorem add_logical_snapshot_spec c pid name d jat dim dom id ref sig :
  made c -> version_of c = PInt 3 -> dimension_id c = PStr dim -> encryption_domain_id c = PStr dom ->
  distinct (PDict d) -> from_dict (PDict d) = Ok jat -> placed_at d pid dim dom id ->
  object_ref_ok ref = true -> fullmatch LogicalJat._SHA256 sig = true -> name <> "" ->
  exists c' record, add_logical_snapshot c pid name jat ref (PStr sig) = Ok c' /\ wf_catalog c'
  /\ revision c' = (revision c + 1)%Z
  /\ (forall pid' sid, find (body c') pid' sid = if bool_decide (pid' = pid /\ sid = id) then Some (PDict record) else find (body c) pid' sid)
  /\ latest c' pid = Ok (PDict record)
  /\ corroborate_logical_snapshot pid (PDict record) jat = Ok jat.
Proof.
  intros Hmade Hv Hdim Hdom Hd Hf Hplaced Href Hsig Hname. destruct (made_sound Hdepth c Hmade) as [Hs _].
  pose proof Hs as (_ & Hcd & Hok).
  assert (validate_encryption_domain_id (PStr dom) = Ok tt) as Hval by (rewrite Hdom in Hok; destruct Hok as [|(? & [= <-] & ?)]; done).
  destruct (record_Ok d jat pid dim dom id ref sig Hdepth Hd Hf Hplaced Hval Href Hsig)
    as (record & Hrec & [Heq _] & Hvalid & Hat & Hpid & Hid).
  pose proof Hat as (Hrid & Hrpid & Hrdim & Hrdom & Hrref & Hrsig & Hkind).
  assert (dict_get "format_version" (body c) = Some (PInt 3)) as Hv3 by (by apply get_or_none_get).
  assert (dict_get "encryption_domain_id" (body c) = Some (PStr dom)) as Hbd by (apply get_or_none_get; congruence).
  destruct (insert_v3_total c pid name id record Hs Hv3 Hpid Hname Hrid) as (c' & Hinsert).
  { split; [done |]. exists record. split; [done |]. split; [|split; [done | intros _]].
    - pose proof Hvalid as Hobj. unfold _validate_logical_snapshot in Hobj. inv_result. by apply check_object_Ok.
    - rewrite Hkind. split; [done |]. split; [done |]. split; [done |]. fold (dimension_id c). rewrite Hdim, <- Hcd, Hdom.
      split; eexists; (split; [eassumption | by apply py_eq_PStr]). }
  destruct (insert_inv _ _ _ _ _ Hinsert) as [Hs' (id' & r & Hr & Hr' & _ & Hid' & _ & Hfind & Hlatest & _)].
  rewrite Hrid in Hid'. injection Hid' as <-.
  assert (add_logical_snapshot c pid name jat ref (PStr sig) = Ok c') as Hadd.
  { unfold add_logical_snapshot, get_item. rewrite Hv3, Hdim, Hdom, Hrec. cbn [mbind result_bind is_none orb raise_if].
    rewrite Hrdim, Hrdom. cbn [mbind result_bind]. rewrite !(proj2 (py_eq_PStr _ _) eq_refl). cbn [negb raise_if mbind result_bind].
    rewrite (dict_set_same "format_version"), dict_set_same by done. exact Hinsert. }
  assert (wf_catalog c') as Hwf'.
  { apply catalog_invariant, (made_logical c pid name jat ref (PStr sig) c' Hmade); [by eexists | done]. }
  exists c', record. split; [done |]. split; [done |].
  - split; [unfold revision; by rewrite (get_or_none_eq _ _ _ Hr), (get_or_none_eq _ _ _ Hr') |]. split; [done |].
    split; [by apply (latest_inserted _ _ id); [rewrite Hfind, bool_decide_true | ..] |].
    unfold corroborate_logical_snapshot. rewrite Hrref, Hrsig, Hrec. cbn [mbind result_bind]. by rewrite Heq.
Qed.
End catalogs.

(** ** The storage order of snapshots *)

(** Removing the latest snapshot of a room makes another one the latest: the last
    key of the snapshots.  In the catalog at hand that is the one added last of the rest;
    in the same catalog read back from its file, whose keys are sorted, it is the one with
    the greatest id, here the oldest snapshot of the room. *)
Theorem latest_after_storage : made demo_three
  /\ parse demo_file (encoded (body demo_three)) = Ok (sorted_catalog demo_three)
  /\ latest_of (body demo_three) "room" = Some (PStr "mike")
  /\ (exists c keys, remove demo_three (OneSnapshot "room" "mike") = Ok (c, keys) /\ latest_of (body c) "room" = Some (PStr "alpha"))
  /\ (exists c keys, remove (sorted_catalog demo_three) (OneSnapshot "room" "mike") = Ok (c, keys)
                    /\ latest_of (body c) "room" = Some (PStr "zulu")).
Proof.
  split; [exact demo_three_made |]. split; [vm_compute; reflexivity |]. split; [vm_compute; reflexivity |].
  split; eexists _, _; (split; vm_compute; reflexivity).
Qed.

(** A room without the entry [latest], which the constructor accepts in versions 1 and 2. *)
Definition unlatest_body : pyobj :=
  PDict [("format_version", PInt 2); ("dimension_id", PStr "home"); ("revision", PInt 0);
         ("projects", PDict [("room", PDict [("snapshots", PDict [("zulu", PDict (demo_snapshot "zulu" digest_a)); ("alpha", PDict (demo_snapshot "alpha" digest_b))])])])].
Definition unlatest : Catalog := get_ok (from_body unlatest_body PNone PNone).
(** The proviso of [removal_is_safe] is needed: of such a room no snapshot can be removed,
    as long as it has two. *)
Theorem removal_needs_latest : made unlatest /\ present (body unlatest) (OneSnapshot "room" "alpha")
  /\ remove unlatest (OneSnapshot "room" "alpha") = Raise EKey.
Proof.
  split; [|split; [by eexists; vm_compute | by vm_compute]].
  apply (made_read unlatest_body PNone PNone); [|vm_compute; reflexivity].
  apply (plain_distinct 5). unfold unlatest_body, demo_snapshot. plain_body.
Qed.

(** ** Witnesses *)
Lemma catalog_invariant_witness : wf_catalog demo_logical.
Proof. apply (catalog_invariant demo_depth demo_logical demo_logical_made). Defined.
Lemma removal_is_safe_witness : exists c' keys, remove demo_logical (OneSnapshot "room" "mike") = Ok (c', keys)
  /\ wf_catalog c' /\ forall k, k ∈ keys <-> (exists pid sid, removes (OneSnapshot "room" "mike") pid sid = true /\ names (body demo_logical) pid sid k)
                             /\ ~ exists pid sid, names (body c') pid sid k.
Proof.
  destruct (removal_is_safe demo_depth demo_logical (OneSnapshot "room" "mike") demo_logical_made) as (c' & keys & H1 & H2 & _ & _ & H3).
  - eexists. vm_compute. reflexivity.
  - intros pid sid _. left. vm_compute. reflexivity.
  - exists c', keys. split; [exact H1 |]. split; [exact H2 | exact H3].
Defined.
Definition demo_body_dict : dict := match demo_body with PDict d => d | _ => [] end.
Definition demo_next : Catalog := get_ok (remove_snapshot demo_logical "room" "jat-1" ≫= (fun '(c, _, _) => Ok c)).
Lemma demo_next_made : made demo_next.
Proof. apply (made_remove_snapshot demo_logical "room" "jat-1" demo_next [] false demo_logical_made). vm_compute. reflexivity. Qed.
Lemma add_logical_snapshot_spec_witness : exists c' record,
  add_logical_snapshot demo_next "room" "Room" demo_jat demo_ref (PStr digest_c) = Ok c' /\ latest c' "room" = Ok (PDict record)
  /\ corroborate_logical_snapshot "room" (PDict record) demo_jat = Ok demo_jat.
Proof.
  destruct (add_logical_snapshot_spec demo_depth demo_next "room" "Room" demo_body_dict demo_jat "home" demo_domain "jat-1" demo_ref digest_c)
    as (c' & record & H1 & _ & _ & _ & H2 & H3).
  - exact demo_next_made.
  - vm_compute. reflexivity.
  - vm_compute. reflexivity.
  - vm_compute. reflexivity.
  - exact demo_distinct.
  - exact demo_accepted.
  - split_and!; vm_compute; reflexivity.
  - vm_compute. reflexivity.
  - vm_compute. reflexivity.
  - discriminate.
  - exists c', record. split; [exact H1 |]. split; [exact H2 | exact H3].
Defined.
