(* ===== verification/CatalogFileTheorems.v ===== *)
(** * The catalog's file: property theorems

    Storing a catalog is lossless, a publication is all or nothing whatever system call
    fails, and of several updates that expect the same revision at most one wins. *)

From S2P Require Import Prelude PyStr PyObj PyDatetime PyJson JsonProps LogicalJat LogicalJatProps LogicalJatDemo LogicalJatTheorems.
From S2P Require Import Catalog CatalogProps CatalogOps CatalogMade CatalogLogical CatalogTheorems.
From S2P Require Import Crypto CryptoProps CatalogFile CatalogFileProps CatalogDemo.
From Stdlib Require Import Ascii Sorted.

(** ** The map of a sorted catalog *)
Lemma rooms_canon b : distinct (PDict b) -> rooms (canon_dict b) = canon_dict (rooms b).
Proof.
  intros Hd%distinct_keys. unfold rooms. rewrite get_or_none_canon by done. by destruct (get_or_none "projects" b).
Qed.
Lemma snapshots_canon room : distinct room -> snapshots_of (canon room) = canon_dict (snapshots_of room).
Proof.
  intros Hd. unfold snapshots_of. destruct room as [| | | | | |p]; try done. change (canon (PDict p)) with (PDict (canon_dict p)).
  cbn [as_dict mbind option_bind]. rewrite dict_get_canon by by apply distinct_keys. by destruct (dict_get "snapshots" p) as [[]|].
Qed.
Lemma find_canon b pid sid : distinct (PDict b) -> find (canon_dict b) pid sid = canon <$> find b pid sid.
Proof.
  intros Hd. unfold find. rewrite rooms_canon by done. pose proof (distinct_rooms _ Hd) as Hdr.
  rewrite dict_get_canon by by apply distinct_keys. destruct (dict_get pid (rooms b)) as [room|] eqn:Hroom; [|done].
  cbn [fmap option_fmap option_map mbind option_bind]. pose proof (distinct_get _ _ _ Hdr Hroom) as Hroomd.
  rewrite snapshots_canon by done. by rewrite dict_get_canon by by apply distinct_keys, distinct_snapshots.
Qed.

Section files.
Context `{PyRuntime, JsonRuntime, Host} (Hdepth : 5 <= json_depth) (self : CatalogFile) (Hdot : startswith "." (path self) = false).

(** Storing a catalog is lossless.  On a host whose calls succeed, [write] followed by
    [read] gives the catalog back with the keys of every object in order, the same
    revision and the same snapshots, and leaves no temporary file behind. *)
Theorem catalog_file_roundtrip c recipients ident cipher d : made c -> plain json_depth (PDict (body c)) -> read_for self c ->
  working -> identity self = Some ident -> _identity ident = Ok tt -> 2 <= length recipients ->
  age_encrypt recipients (encoded (body c)) = Some cipher -> age_decrypt [ident] cipher = Some (encoded (body c)) ->
  (Z.of_nat (py_len (encoded (body c))) <= MAX_DECRYPTED_SIZE)%Z ->
  exists d1 d2, write self c recipients d = (Ok tt, d1) /\ files d1 = <[path self := cipher]> (files d)
  /\ read self d1 = (Ok (sorted_catalog c), d2) /\ files d2 = files d1
  /\ revision (sorted_catalog c) = revision c
  /\ forall pid sid, find (body (sorted_catalog c)) pid sid = canon <$> find (body c) pid sid.
Proof.
  intros Hmade Hplain Hself Hwork Hident Hidok Hlen Henc Hdec Hsize. destruct (made_sound Hdepth c Hmade) as [Hs Hd].
  pose proof (parse_encoded self c (conj Hs Hd) Hplain Hself) as Hparse.
  assert (runs (write self c recipients) (files d) (fun _ _ => True)) as Hwrite.
  { unfold write, _publish. eapply runs_bind; [by apply runs_call | intros _ ? ->].
    eapply runs_bind; [by apply runs_mkstemp | intros temp ? (Hnone & _ & ->)].
    eapply runs_weaken; [apply runs_cleanup with (Q := fun _ _ => True); [done |] | done]. intros d0 Hd0.
    destruct (runs_encrypt Hwork (encoded (body c)) recipients temp cipher _ Hlen Henc (ex_intro _ _ (lookup_insert_eq _ _ _)) d0 Hd0)
      as ([] & d1 & Hrun & _). apply encrypt_Ok in Hrun as Hrun'; [|by rewrite Hd0, lookup_insert_eq].
    destruct Hrun' as (ci & _ & Hd1).
    destruct (runs_replace Hwork temp (path self) ci (files d1)) with (d := d1) as ([] & d2 & Hrep & _); [by rewrite Hd1, lookup_insert_eq | done |].
    exists tt, d2. unfold mbind, F_bind. by rewrite Hrun. }
  destruct (Hwrite d eq_refl) as ([] & d1 & Hw & _). apply publish_Ok in Hw as Hf; [|done]. destruct Hf as (ci & Hci & Hd1).
  rewrite Henc in Hci. injection Hci as <-. exists d1.
  assert (files d1 !! path self = Some cipher) as Hpath by (by rewrite Hd1, lookup_insert_eq).
  destruct (runs_decrypt Hwork (path self) [ident] cipher _ MAX_DECRYPTED_SIZE (files d1) ltac:(by repeat constructor) Hpath Hdec Hsize d1 eq_refl)
    as (text & d2 & Hrun & _). apply decrypt_Ok in Hrun as Htext; [|by rewrite Hpath]. destruct Htext as (ci & Hci & Htext & Hd2).
  rewrite Hpath in Hci. injection Hci as <-. rewrite Hdec in Htext. injection Htext as <-.
  exists d2. split; [done |]. split; [done |]. split.
  - unfold read, mbind, F_bind, get_files. rewrite Hpath, Hident, Hrun. unfold parse in Hparse.
    apply bind_Ok_inv in Hparse as (v & Hv & Hb). unfold liftF. by rewrite Hv, Hb.
  - split; [done |]. split; [by apply revision_sorted | intros; by apply find_canon].
Qed.

(** C16: a publication is all or nothing, whichever system call fails.  Every file that
    was there, the catalog apart, is unchanged; the catalog file is unchanged or holds the
    whole encrypted text; and when [write] returns, it does and no other file was added. *)
Theorem catalog_publication_atomic c recipients d r d' : write self c recipients d = (r, d') ->
  (forall name, name <> path self -> is_Some (files d !! name) -> files d' !! name = files d !! name)
  /\ (files d' !! path self = files d !! path self
      \/ exists cipher, age_encrypt recipients (encoded (body c)) = Some cipher /\ files d' !! path self = Some cipher)
  /\ (r = Ok tt -> exists cipher, age_encrypt recipients (encoded (body c)) = Some cipher
                   /\ files d' = <[path self := cipher]> (files d)).
Proof.
  intros Hw. split; [|split].
  - intros name Hne Hsome. destruct (keeps_publish self c recipients (files d) d r d' (fun n _ => eq_refl) Hw) as [Ha _].
    apply Ha. split; [done | by left].
  - by eapply publish_path.
  - intros ->. by eapply publish_Ok.
Qed.

(** ** Updates by several clients *)

(** A catalog that is stored for a reader with this identity. *)
Definition storable (c : Catalog) : Prop := made c /\ plain json_depth (PDict (body c)) /\ read_for self c.
Definition readable (recipients : list string) : Prop := exists ident, identity self = Some ident
  /\ forall text cipher, age_encrypt recipients text = Some cipher -> age_decrypt [ident] cipher = Some text.

(** An update took effect: it returned, or it raised and the catalog file is another. *)
Definition took_effect (r : result Catalog) (d d' : disk) : bool :=
  is_ok r || bool_decide (files d' !! path self <> files d !! path self).

(** The updates of the catalog file, in the order of their critical sections, with the
    revision each expected and whether it took effect.  Each stores a catalog whose
    revision is above the one it expects, as the operations of [Catalog] make it.  Between
    the updates anything may happen to the other files. *)
Inductive updates : disk -> list (Z * bool) -> disk -> Prop :=
| updates_nil d d' : files d' !! path self = files d !! path self -> updates d [] d'
| updates_cons d e c recipients r d0 d1 log d2 : files d0 !! path self = files d !! path self ->
    storable c -> readable recipients -> (e < revision c)%Z ->
    file_update_if_revision self (PInt e) c recipients d0 = (r, d1) ->
    updates d1 log d2 -> updates d ((e, took_effect r d0 d1) :: log) d2.

Definition winners (log : list (Z * bool)) : list Z := (filter (fun x => x.2 = true) log).*1.
Definition holds (st : store) (r : Z) : Prop := exists c, contents self st = Some c /\ revision c = r.

Lemma contents_path st st' : st' !! path self = st !! path self -> contents self st' = contents self st.
Proof. unfold contents. by intros ->. Qed.
Lemma stored_contents c recipients cipher st : storable c -> readable recipients ->
  age_encrypt recipients (encoded (body c)) = Some cipher -> st !! path self = Some cipher -> holds st (revision c).
Proof.
  intros (Hmade & Hplain & Hself) (ident & Hident & Hlaw) Henc Hst. destruct (made_sound Hdepth c Hmade) as [Hs Hd].
  exists (sorted_catalog c). split; [|by apply revision_sorted]. unfold contents. rewrite Hst, Hident. cbn [mbind option_bind].
  rewrite (Hlaw _ _ Henc). cbn [mbind option_bind]. by rewrite (parse_encoded self c (conj Hs Hd) Hplain Hself).
Qed.
Lemma revision_eq c r : dict_get "revision" (body c) = Some (PInt r) -> revision c = r.
Proof. intros Hr. unfold revision. by rewrite (get_or_none_eq _ _ _ Hr). Qed.

Lemma unchanged_effect r d0 d1 : files d1 = files d0 -> is_ok r = false -> took_effect r d0 d1 = false.
Proof. intros Hd Hr. unfold took_effect. rewrite Hd, Hr. by rewrite bool_decide_false by tauto. Qed.

(** One update: nothing, or the stored catalog with the expected revision is replaced. *)
Lemma update_effect e c recipients d0 r d1 : storable c -> readable recipients ->
  file_update_if_revision self (PInt e) c recipients d0 = (r, d1) ->
  (contents self (files d1) = contents self (files d0) /\ took_effect r d0 d1 = false)
  \/ (exists cur, contents self (files d0) = Some cur /\ revision cur = e) /\ holds (files d1) (revision c).
Proof.
  intros Hc Hrec Hrun.
  destruct (update_cases self e c recipients d0 r d1 Hdot Hrun) as [[Hd1 Hno]|(cur & Hcur & Hrev & [[Hd1 Hno]|(cipher & Henc & Hd1)])].
  - left. split; [by apply contents_path |]. unfold took_effect. rewrite Hno, Hd1. by rewrite bool_decide_false by tauto.
  - left. split; [by apply contents_path |]. unfold took_effect. rewrite Hno, Hd1. by rewrite bool_decide_false by tauto.
  - right. split; [|by eapply stored_contents]. exists cur. split; [done |]. by apply revision_eq.
Qed.

Lemma winners_between d log d' : updates d log d' -> forall r, holds (files d) r ->
  exists r', holds (files d') r' /\ (r <= r')%Z /\ Forall (fun e => r <= e < r')%Z (winners log) /\ StronglySorted Z.lt (winners log).
Proof.
  induction 1 as [d d' Hsame|d e c recipients r d0 d1 log d2 Hsame Hc Hrec Hlt Hrun _ IH]; intros r0 (c0 & Hc0 & Hr0).
  { exists r0. split; [by exists c0; rewrite (contents_path _ _ Hsame) |]. split; [lia |]. split; constructor. }
  rewrite <- (contents_path _ _ Hsame) in Hc0. unfold winners. rewrite filter_cons.
  destruct (update_effect e c recipients d0 r d1 Hc Hrec Hrun) as [[Hd1 ->]|[(cur & Hcur & Hrev) Hnew]].
  - simpl. apply IH. exists c0. by rewrite Hd1.
  - rewrite Hc0 in Hcur. injection Hcur as <-. assert (r0 = e) as -> by congruence.
    destruct (IH (revision c) Hnew) as (r' & Hr' & Hle & Hall & Hsorted). exists r'. split; [done |]. split; [lia |].
    assert (Forall (fun x => e < x < r')%Z (winners log)) as Hlow by (eapply Forall_impl; [exact Hall | simpl; lia]).
    assert (Forall (fun x => e <= x < r')%Z (winners log)) by (eapply Forall_impl; [exact Hlow | simpl; lia]).
    destruct (took_effect r d0 d1); simpl; [|done]. split; constructor; [lia | done | done |].
    eapply Forall_impl; [exact Hlow | simpl; lia].
Qed.

(** C15: no update is lost.  Take any sequence of updates of the catalog file by any
    clients, whatever system calls fail, in which every update stores a catalog whose
    revision is above the one it expects.  The revisions expected by the updates that took
    effect are strictly increasing, so of several that expect the same revision at most
    one takes effect, and when one did, the catalog stored at the end has a revision above
    all of them. *)
Theorem catalog_updates_serialize d log d' : updates d log d' ->
  StronglySorted Z.lt (winners log)
  /\ (winners log <> [] -> exists r, holds (files d') r /\ Forall (fun e => e < r)%Z (winners log)).
Proof.
  induction 1 as [d d' Hsame|d e c recipients r d0 d1 log d2 Hsame Hc Hrec Hlt Hrun Hlog IH]; [split; [constructor | done] |].
  unfold winners. rewrite filter_cons.
  destruct (update_effect e c recipients d0 r d1 Hc Hrec Hrun) as [[_ ->]|[_ Hnew]]; [exact IH |].
  destruct (took_effect r d0 d1); simpl; [|exact IH].
  destruct (winners_between _ _ _ Hlog (revision c) Hnew) as (r' & Hr' & Hle & Hall & Hsorted). split.
  - constructor; [done |]. eapply Forall_impl; [exact Hall | simpl; lia].
  - intros _. exists r'. split; [done |]. constructor; [lia |]. eapply Forall_impl; [exact Hall | simpl; lia].
Qed.
End files.

(** ** Witnesses *)
Lemma demo_working : working.
Proof. by split. Qed.
Lemma demo_two_read : read_for demo_file demo_two.
Proof. right. by vm_compute. Qed.
Lemma catalog_file_roundtrip_witness : exists d1 d2, write demo_file demo_two demo_recipients demo_disk = (Ok tt, d1)
  /\ read demo_file d1 = (Ok (sorted_catalog demo_two), d2).
Proof.
  destruct (catalog_file_roundtrip demo_depth demo_file eq_refl demo_two demo_recipients "identity" (encoded (body demo_two)) demo_disk)
    as (d1 & d2 & H1 & _ & H2 & _).
  - exact demo_two_made.
  - exact demo_two_plain.
  - exact demo_two_read.
  - exact demo_working.
  - reflexivity.
  - reflexivity.
  - cbn. lia.
  - reflexivity.
  - reflexivity.
  - apply Z.leb_le. vm_compute. reflexivity.
  - exists d1, d2. split; [exact H1 | exact H2].
Defined.
Lemma catalog_publication_atomic_witness :
  let d' := snd (write demo_file demo_two demo_recipients demo_disk) in
  files d' !! path demo_file = files demo_disk !! path demo_file
  \/ exists cipher, age_encrypt demo_recipients (encoded (body demo_two)) = Some cipher /\ files d' !! path demo_file = Some cipher.
Proof.
  apply (catalog_publication_atomic demo_file eq_refl demo_two demo_recipients demo_disk
    (fst (write demo_file demo_two demo_recipients demo_disk))). apply surjective_pairing.
Defined.
Definition demo_update (c : Catalog) (d : disk) : result Catalog * disk :=
  file_update_if_revision demo_file (PInt 0) c demo_recipients d.
Lemma demo_identity : readable demo_file demo_recipients.
Proof. exists "identity". split; [reflexivity |]. intros text cipher [= <-]. reflexivity. Qed.
(** Two updates that expect the first revision: the second is refused. *)
Lemma catalog_updates_serialize_witness :
  let (r, d) := demo_update demo_two demo_disk in let (r', d') := demo_update demo_two d in
  winners [(0%Z, took_effect demo_file r demo_disk d); (0%Z, took_effect demo_file r' d d')] = [0%Z]
  /\ StronglySorted Z.lt [0%Z] /\ exists n, holds demo_file (files d') n /\ Forall (fun e => e < n)%Z [0%Z].
Proof.
  assert (forall d r d1 log d2, demo_update demo_two d = (r, d1) -> updates demo_file d1 log d2 ->
    updates demo_file d ((0%Z, took_effect demo_file r d d1) :: log) d2) as Hcons.
  { intros d r d1 log d2 Hrun Hlog. apply (updates_cons demo_file d 0 demo_two demo_recipients r d d1).
    - reflexivity.
    - split; [exact demo_two_made |]. split; [exact demo_two_plain | exact demo_two_read].
    - exact demo_identity.
    - vm_compute. reflexivity.
    - exact Hrun.
    - exact Hlog. }
  destruct (demo_update demo_two demo_disk) as [r d] eqn:E. destruct (demo_update demo_two d) as [r' d'] eqn:E'.
  assert (winners [(0%Z, took_effect demo_file r demo_disk d); (0%Z, took_effect demo_file r' d d')] = [0%Z]) as Hw.
  { vm_compute in E. injection E as <- <-. vm_compute in E'. injection E' as <- <-. vm_compute. reflexivity. }
  destruct (catalog_updates_serialize demo_depth demo_file eq_refl demo_disk
    [(0%Z, took_effect demo_file r demo_disk d); (0%Z, took_effect demo_file r' d d')] d') as [Hs Hr].
  - apply Hcons; [exact E |]. apply Hcons; [exact E' |]. apply updates_nil. reflexivity.
  - split; [exact Hw |]. rewrite Hw in Hs, Hr. split; [exact Hs |]. apply Hr. discriminate.
Defined.

(** The condition on the revisions is the callers': an update is not refused a catalog with
    the revision it expects, and then the next one that expects it succeeds, too. *)
Theorem update_keeps_revision :
  let (r, d) := demo_update demo_empty demo_disk in let (r', _) := demo_update demo_two d in
  revision demo_empty = 0%Z /\ is_ok r = true /\ is_ok r' = true.
Proof. vm_compute. repeat split. Qed.
