(* ===== verification/References.v ===== *)
(** * The Room Store's reference index ([src/josh_room/room_store_references.py])

    [build_reference_index] indexes the restic snapshots that a version 3 catalog refers to,
    [compare_restic_inventory] compares them with the snapshots of the repository, and
    [plan_catalog_record_removal] and [plan_orphan_cleanup] say what may be deleted.

    The frozen sets and mappings are finite sets and maps: the order they are iterated in
    decides nothing but which of several errors is raised, and the components are taken in
    the order they are written.  Fields whose type the code checks ([repository_format],
    the ids of an inventory, the observation counts and times) are of any type here; for
    the others, and for the arguments themselves, the type is the check.  Descriptors are
    looked up by [LogicalJatIdentity], which is the pair of the program's keys. *)

From S2P Require Import Prelude PyStr PyObj PyJson LogicalJat Catalog.

Definition _SHA256 : re := exactly 64 (RCls is_hex).
Definition _COMPONENTS : list string := ["rcc_environment"; "homebrew_recovery"; "hauler_content"].

(** ** Identities, as keys of maps *)
Record LogicalJatIdentity := { room_id : string; logical_jat_id : string }.
Record ResticSnapshotRef := { repository_id : string; snapshot_id : string }.
#[export] Instance LogicalJatIdentity_eq_dec : EqDecision LogicalJatIdentity.
Proof. solve_decision. Defined.
#[export] Instance ResticSnapshotRef_eq_dec : EqDecision ResticSnapshotRef.
Proof. solve_decision. Defined.
#[export] Program Instance LogicalJatIdentity_countable : Countable LogicalJatIdentity :=
  inj_countable' (fun i => (room_id i, logical_jat_id i)) (fun p => {| room_id := p.1; logical_jat_id := p.2 |}) _.
Next Obligation. by intros []. Qed.
#[export] Program Instance ResticSnapshotRef_countable : Countable ResticSnapshotRef :=
  inj_countable' (fun r => (repository_id r, snapshot_id r)) (fun p => {| repository_id := p.1; snapshot_id := p.2 |}) _.
Next Obligation. by intros []. Qed.

(** The order of pairs of strings, which is the dataclasses' own. *)
Definition pair_le (a b : string * string) : Prop := String.le a.1 b.1 /\ (a.1 = b.1 -> String.le a.2 b.2).
#[export] Instance pair_le_dec : RelDecision pair_le.
Proof. intros a b. unfold pair_le. apply _. Defined.
Definition identity_pair (i : LogicalJatIdentity) : string * string := (room_id i, logical_jat_id i).
Definition ref_pair (r : ResticSnapshotRef) : string * string := (repository_id r, snapshot_id r).
Definition sorted_pairs (l : list (string * string)) : list (string * string) := merge_sort pair_le l.

(** ** The index *)
Record SnapshotReferences := {
  catalog_records : gset LogicalJatIdentity;
  descriptor_records : gset LogicalJatIdentity;
  roles : gset string;
  tree_id : string;
}.
Record CatalogRecordReferences := {
  identity : LogicalJatIdentity;
  payload_kind : string;
  object_key : string;
  restic_snapshots : gset ResticSnapshotRef;
}.
Record ReferenceIndex := {
  index_dimension_id : string;
  index_encryption_domain_id : string;
  index_catalog_revision : pyobj;
  index_repository_id : option string;
  fingerprint : string;
  records : gmap LogicalJatIdentity CatalogRecordReferences;
  references : gmap ResticSnapshotRef SnapshotReferences;
  legacy_objects : gset string;
}.
Definition catalog_referenced (self : ReferenceIndex) : gset ResticSnapshotRef :=
  dom (filter (fun kv => catalog_records kv.2 <> ∅) (references self)).
Definition descriptor_referenced (self : ReferenceIndex) : gset ResticSnapshotRef :=
  dom (filter (fun kv => descriptor_records kv.2 <> ∅) (references self)).

Definition _valid_digest (value : pyobj) : bool := match value with PStr s => fullmatch _SHA256 s | _ => false end.

(** ** Building the index *)
(** The local variables of the loop over the catalog. *)
Record building := {
  building_records : gmap LogicalJatIdentity CatalogRecordReferences;
  catalog_records_by_snapshot : gmap ResticSnapshotRef (gset LogicalJatIdentity);
  descriptor_records_by_snapshot : gmap ResticSnapshotRef (gset LogicalJatIdentity);
  roles_by_snapshot : gmap ResticSnapshotRef (gset string);
  trees_by_snapshot : gmap ResticSnapshotRef string;
  repository_ids : gset string;
  building_legacy : gset string;
}.
Definition building_nothing : building :=
  {| building_records := ∅; catalog_records_by_snapshot := ∅; descriptor_records_by_snapshot := ∅; roles_by_snapshot := ∅;
     trees_by_snapshot := ∅; repository_ids := ∅; building_legacy := ∅ |}.

(** [d.setdefault(k, set()).add(x)] *)
Definition add_to {K A} `{Countable K, Countable A} (k : K) (x : A) (d : gmap K (gset A)) : gmap K (gset A) :=
  <[k := {[x]} ∪ default ∅ (d !! k)]> d.

Definition add_reference (reference : ResticSnapshotRef) (tree : string) (id : LogicalJatIdentity) (role : string)
    (b : building) : result building :=
  raise_if (negb (bool_decide (default tree (trees_by_snapshot b !! reference) = tree)))
    (EValue "Room Store snapshot tree binding mismatch") ;;
  Ok {| building_records := building_records b;
        catalog_records_by_snapshot := add_to reference id (catalog_records_by_snapshot b);
        descriptor_records_by_snapshot := add_to reference id (descriptor_records_by_snapshot b);
        roles_by_snapshot := add_to reference role (roles_by_snapshot b);
        trees_by_snapshot := <[reference := tree]> (trees_by_snapshot b);
        repository_ids := repository_ids b;
        building_legacy := building_legacy b |}.
Definition add_repository (repository : string) (b : building) : building :=
  {| building_records := building_records b; catalog_records_by_snapshot := catalog_records_by_snapshot b;
     descriptor_records_by_snapshot := descriptor_records_by_snapshot b; roles_by_snapshot := roles_by_snapshot b;
     trees_by_snapshot := trees_by_snapshot b; repository_ids := {[repository]} ∪ repository_ids b;
     building_legacy := building_legacy b |}.
Definition add_record (record : CatalogRecordReferences) (legacy : gset string) (b : building) : building :=
  {| building_records := <[identity record := record]> (building_records b);
     catalog_records_by_snapshot := catalog_records_by_snapshot b;
     descriptor_records_by_snapshot := descriptor_records_by_snapshot b; roles_by_snapshot := roles_by_snapshot b;
     trees_by_snapshot := trees_by_snapshot b; repository_ids := repository_ids b;
     building_legacy := legacy ∪ building_legacy b |}.

(** [for x in xs: state = f(state, x)] *)
Fixpoint fold_result {A B} (f : B -> A -> result B) (b : B) (l : list A) : result B :=
  match l with [] => Ok b | x :: l => b ← f b x; fold_result f b l end.

(** [d[k]], used as a string: every descriptor's ids and digests are strings. *)
Definition get_str (k : string) (d : dict) : result string := v ← get_item k d; entry_key v.

Definition add_component (id : LogicalJatIdentity) (components : dict) (state : building * gset ResticSnapshotRef) (name : string)
    : result (building * gset ResticSnapshotRef) :=
  component ← get_item name components;
  if is_none component then Ok state
  else
    component ← as_object component;
    snapshot ← get_object "snapshot" component;
    repository ← get_str "repository_id" snapshot;
    snapshot_id ← get_str "snapshot_id" snapshot;
    let component_ref := {| repository_id := repository; snapshot_id := snapshot_id |} in
    tree ← get_str "tree_id" snapshot;
    b ← add_reference component_ref tree id name state.1;
    Ok (b, {[component_ref]} ∪ state.2).

(** Every snapshot of the catalog, by room and snapshot id; both loops of the program
    visit them in this order. *)
Definition room_entries (room : string * pyobj) : result (list (LogicalJatIdentity * pyobj)) :=
  project ← as_object room.2;
  snapshots ← get_object "snapshots" project;
  Ok (map (fun '(snapshot, value) => ({| room_id := room.1; logical_jat_id := snapshot |}, value)) snapshots).
Definition catalog_entries (b : dict) : result (list (LogicalJatIdentity * pyobj)) :=
  projects ← get_object "projects" b;
  entries ← map_result room_entries projects;
  Ok (concat entries).

(** The keys of the descriptors that have to be supplied. *)
Definition expected_key (keys : gset LogicalJatIdentity) (entry : LogicalJatIdentity * pyobj) : result (gset LogicalJatIdentity) :=
  snapshot ← as_object entry.2;
  match dict_get "payload_kind" snapshot with
  | None => Ok keys
  | Some kind =>
      raise_if (negb (py_eq kind (PStr "room-store-v1"))) (EValue "catalog contains an unsupported payload kind") ;;
      Ok ({[entry.1]} ∪ keys)
  end.

Section build.
Context `{PyRuntime, JsonRuntime}.

Definition _mutable_catalog (catalog : Catalog) : result Catalog :=
  reraise is_type_or_value_error (EValue "Dimension catalog is invalid")
    (from_body (PDict (body catalog)) (dimension_id catalog) (encryption_domain_id catalog)).

Section index.
Context (dimension domain : string) (descriptors : gmap LogicalJatIdentity LogicalJat).

Definition index_logical (id : LogicalJatIdentity) (value : pyobj) (key : string) (b : building) : result building :=
  descriptor ← match descriptors !! id with Some d => Ok d | None => Raise EKey end;
  reraise is_type_or_value_error (EValue "logical descriptor does not corroborate the catalog")
    (corroborate_logical_snapshot (room_id id) value descriptor) ;;
  body ← to_dict descriptor; body ← as_object body;
  dim ← get_item "dimension_id" body;
  dd ← get_item "encryption_domain_id" body;
  raise_if (negb (py_eq dim (PStr dimension)) || negb (py_eq dd (PStr domain)))
    (EValue "logical descriptor Dimension binding mismatch") ;;
  workspace ← get_object "workspace" body;
  repository ← get_item "repository_id" workspace;
  raise_if (negb (_valid_digest repository)) (EValue "logical descriptor repository binding is invalid") ;;
  repository ← entry_key repository;
  snapshot_id ← get_str "snapshot_id" workspace;
  let workspace_ref := {| repository_id := repository; snapshot_id := snapshot_id |} in
  tree ← get_str "tree_id" workspace;
  b ← add_reference workspace_ref tree id "workspace" (add_repository repository b);
  components ← get_object "components" body;
  '(b, refs) ← fold_result (add_component id components) (b, {[workspace_ref]}) _COMPONENTS;
  Ok (add_record {| identity := id; payload_kind := "room-store-v1"; object_key := key; restic_snapshots := refs |} ∅ b).

Definition index_entry (b : building) (entry : LogicalJatIdentity * pyobj) : result building :=
  record ← as_object entry.2;
  key ← get_str "object_key" record;
  if has_key "payload_kind" record then index_logical entry.1 entry.2 key b
  else Ok (add_record {| identity := entry.1; payload_kind := "legacy-jat-hauler-v1"; object_key := key; restic_snapshots := ∅ |}
             {[key]} b).
End index.

(** [next(iter(repository_ids), None)] *)
Definition any_repository (ids : gset string) : option string := head (elements ids).

Definition identities_json (ids : gset LogicalJatIdentity) : pyobj :=
  PList ((fun p => PList [PStr p.1; PStr p.2]) <$> sorted_pairs (identity_pair <$> elements ids)).
Definition refs_json (refs : gset ResticSnapshotRef) : pyobj :=
  PList ((fun p => PList [PStr p.1; PStr p.2]) <$> sorted_pairs (ref_pair <$> elements refs)).
Definition strings_json (l : gset string) : pyobj := PList (PStr <$> merge_sort String.le (elements l)).
Definition record_json (b : building) (p : string * string) : pyobj :=
  match building_records b !! {| room_id := p.1; logical_jat_id := p.2 |} with
  | Some record =>
      PDict [("room_id", PStr p.1); ("logical_jat_id", PStr p.2); ("payload_kind", PStr (payload_kind record));
             ("object_key", PStr (object_key record)); ("restic_snapshots", refs_json (restic_snapshots record))]
  | None => PNone
  end.
Definition reference_json (b : building) (p : string * string) : pyobj :=
  let reference := {| repository_id := p.1; snapshot_id := p.2 |} in
  PDict [("repository_id", PStr p.1); ("snapshot_id", PStr p.2); ("tree_id", opt_str (trees_by_snapshot b !! reference));
         ("roles", strings_json (default ∅ (roles_by_snapshot b !! reference)));
         ("catalog_records", identities_json (default ∅ (catalog_records_by_snapshot b !! reference)));
         ("descriptor_records", identities_json (default ∅ (descriptor_records_by_snapshot b !! reference)))].
Definition fingerprint_body (dimension domain : string) (revision : pyobj) (b : building) : pyobj :=
  PDict [("dimension_id", PStr dimension); ("encryption_domain_id", PStr domain); ("catalog_revision", revision);
         ("repository_id", opt_str (any_repository (repository_ids b)));
         ("records", PList (record_json b <$> sorted_pairs (identity_pair <$> elements (dom (building_records b)))));
         ("references", PList (reference_json b <$> sorted_pairs (ref_pair <$> elements (dom (trees_by_snapshot b)))));
         ("legacy_objects", strings_json (building_legacy b))].

(** [{reference: SnapshotReferences(...) for reference in trees_by_snapshot}] *)
Definition snapshot_references (b : building) : gmap ResticSnapshotRef SnapshotReferences :=
  map_imap (fun reference tree => Some {|
    catalog_records := default ∅ (catalog_records_by_snapshot b !! reference);
    descriptor_records := default ∅ (descriptor_records_by_snapshot b !! reference);
    roles := default ∅ (roles_by_snapshot b !! reference);
    tree_id := tree |}) (trees_by_snapshot b).

Definition build_reference_index (catalog : Catalog) (descriptors : gmap LogicalJatIdentity LogicalJat) : result ReferenceIndex :=
  catalog ← _mutable_catalog catalog;
  version ← get_item "format_version" (body catalog);
  raise_if (negb (py_eq version (PInt 3))) (EValue "Room Store reference index requires catalog v3") ;;
  match dimension_id catalog, encryption_domain_id catalog with
  | PStr dimension, PStr domain =>
      entries ← catalog_entries (body catalog);
      expected ← fold_result expected_key ∅ entries;
      raise_if (negb (bool_decide (dom descriptors = expected)))
        (EValue "logical descriptor set is incomplete or contains unknown entries") ;;
      b ← fold_result (index_entry dimension domain descriptors) building_nothing entries;
      raise_if (1 <? base.size (repository_ids b))%nat (EValue "logical descriptors use different Room Store repository bindings") ;;
      revision ← get_item "revision" (body catalog);
      Ok {| index_dimension_id := dimension; index_encryption_domain_id := domain; index_catalog_revision := revision;
            index_repository_id := any_repository (repository_ids b);
            fingerprint := sha256 (dumps true (fingerprint_body dimension domain revision b));
            records := building_records b; references := snapshot_references b; legacy_objects := building_legacy b |}
  | _, _ => Raise (EType "Room Store Dimension and encryption-domain bindings are invalid")
  end.
End build.

(** ** The repository's snapshots *)
Record RepositoryInfo := { info_repository_id : pyobj; repository_format : pyobj }.
(** [SnapshotInfo] and [SnapshotInventoryItem]: the fields that are used. *)
Record SnapshotItem := { item_snapshot_id : pyobj; item_tree_id : pyobj }.
Record ResticReachabilityReport := {
  report_repository_id : string;
  report_catalog_revision : pyobj;
  reference_index_fingerprint : string;
  report_catalog_referenced : gset ResticSnapshotRef;
  report_descriptor_referenced : gset ResticSnapshotRef;
  inventory_snapshot_ids : gset ResticSnapshotRef;
  restic_only_orphans : gset ResticSnapshotRef;
  missing_from_restic : gset ResticSnapshotRef;
  component_only : gset ResticSnapshotRef;
  report_legacy_objects : gset string;
}.

Definition inventory_entry (repository : string) (trees : gmap ResticSnapshotRef string) (item : SnapshotItem)
    : result (gmap ResticSnapshotRef string) :=
  raise_if (negb (_valid_digest (item_snapshot_id item)) || negb (_valid_digest (item_tree_id item)))
    (EValue "Restic snapshot inventory identity is invalid") ;;
  id ← entry_key (item_snapshot_id item);
  tree ← entry_key (item_tree_id item);
  let reference := {| repository_id := repository; snapshot_id := id |} in
  raise_if (bool_decide (reference ∈ dom trees)) (EValue "Restic snapshot inventory contains duplicate IDs") ;;
  Ok (<[reference := tree]> trees).
Definition tree_matches (trees : gmap ResticSnapshotRef string) (entry : ResticSnapshotRef * SnapshotReferences) : result unit :=
  raise_if (negb (bool_decide (default (tree_id entry.2) (trees !! entry.1) = tree_id entry.2)))
    (EValue "Restic snapshot tree does not match the logical descriptor").
Definition is_component_only (v : SnapshotReferences) : Prop :=
  ~ ("workspace" ∈ roles v) /\ (roles v ∩ list_to_set _COMPONENTS) <> ∅.
#[export] Instance is_component_only_dec v : Decision (is_component_only v).
Proof. unfold is_component_only. apply _. Defined.

Definition compare_restic_inventory (index : ReferenceIndex) (repository : RepositoryInfo) (inventory : list SnapshotItem)
    : result ResticReachabilityReport :=
  raise_if (negb (_valid_digest (info_repository_id repository))) (EValue "Restic repository identity is invalid") ;;
  raise_if (negb (is_v 2 (repository_format repository))) (EValue "Restic repository format is unsupported") ;;
  repository ← entry_key (info_repository_id repository);
  raise_if (negb (bool_decide (default repository (index_repository_id index) = repository)))
    (EValue "Restic inventory belongs to another Room Store repository") ;;
  trees ← fold_result (inventory_entry repository) ∅ inventory;
  for_each (tree_matches trees) (map_to_list (references index)) ;;
  let referenced := catalog_referenced index ∪ descriptor_referenced index in
  Ok {| report_repository_id := repository; report_catalog_revision := index_catalog_revision index;
        reference_index_fingerprint := fingerprint index; report_catalog_referenced := catalog_referenced index;
        report_descriptor_referenced := descriptor_referenced index; inventory_snapshot_ids := dom trees;
        restic_only_orphans := dom trees ∖ referenced; missing_from_restic := referenced ∖ dom trees;
        component_only := dom (filter (fun kv => is_component_only kv.2) (references index));
        report_legacy_objects := legacy_objects index |}.

(** ** Removing a catalog record *)
Record CatalogRecordRemovalPlan := {
  catalog_reference_to_remove : LogicalJatIdentity;
  expected_catalog_revision : pyobj;
  order : string * string * string;
  object_keys_to_delete : gset string;
  snapshot_ids_to_forget : gset ResticSnapshotRef;
  missing_snapshot_ids : gset ResticSnapshotRef;
  never_prune : bool;
  never_unlock : bool;
}.
(** [index.repository_id or report.repository_id] *)
Definition repository_or (id : option string) (other : string) : string :=
  match id with Some r => if bool_decide (r = "") then other else r | None => other end.

Definition plan_catalog_record_removal (index : ReferenceIndex) (report : ResticReachabilityReport) (id : LogicalJatIdentity)
    : result CatalogRecordRemovalPlan :=
  raise_if (negb (py_eq (report_catalog_revision report) (index_catalog_revision index))
            || negb (bool_decide (reference_index_fingerprint report = fingerprint index)))
    (EValue "Restic reachability report belongs to another catalog index") ;;
  match records index !! id with
  | None => Raise (EValue "catalog record is not present in the reference index")
  | Some target =>
      raise_if (negb (bool_decide (report_repository_id report = repository_or (index_repository_id index) (report_repository_id report))))
        (EValue "Restic inventory belongs to another Room Store repository") ;;
      let remaining := delete id (records index) in
      let remaining_snapshots := ⋃ ((fun kv => restic_snapshots kv.2) <$> map_to_list remaining) in
      let unreachable := restic_snapshots target ∖ remaining_snapshots in
      let still_referenced := existsb (fun kv => bool_decide (object_key kv.2 = object_key target)) (map_to_list remaining) in
      Ok {| catalog_reference_to_remove := id; expected_catalog_revision := index_catalog_revision index;
            order := ("remove-catalog-reference", "delete-unreferenced-catalog-objects", "forget-unreachable-restic-snapshots");
            object_keys_to_delete := if still_referenced then ∅ else {[object_key target]};
            snapshot_ids_to_forget := unreachable ∩ inventory_snapshot_ids report;
            missing_snapshot_ids := unreachable ∖ inventory_snapshot_ids report;
            never_prune := true; never_unlock := true |}
  end.

(** ** Cleaning up orphans *)
(** A [datetime]: its wall-clock time in microseconds, its [tzinfo] object, if it has one,
    and what [utcoffset()] gives. *)
Record datetime := { wall : Z; zone : option nat; offset : option Z }.
Definition aware (t : datetime) : bool := bool_decide (is_Some (zone t)) && bool_decide (is_Some (offset t)).
(** [a - b] for aware times: by the wall clock when they share their [tzinfo]. *)
Definition elapsed (a b : datetime) : Z :=
  if bool_decide (zone a = zone b) then (wall a - wall b)%Z
  else ((wall a - default 0 (offset a)) - (wall b - default 0 (offset b)))%Z.
Definition not_after (a b : datetime) : bool := (elapsed a b <=? 0)%Z.

(** A time of evidence is [None] when it is not a [datetime]. *)
Record GracePeriodEvidence := {
  evidence_repository_id : string;
  evidence_snapshot_id : string;
  first_observed_at : option datetime;
  last_observed_at : option datetime;
  observation_count : pyobj;
}.
Record OrphanCleanupPlan := {
  eligible_snapshot_ids : gset ResticSnapshotRef;
  missing_evidence : gset ResticSnapshotRef;
  plan_evidence : gmap ResticSnapshotRef GracePeriodEvidence;
  grace_period : Z;
  cleanup_never_prune : bool;
  cleanup_never_unlock : bool;
}.
Definition qualified (report : ResticReachabilityReport) (now : datetime) (grace : Z) (reference : ResticSnapshotRef)
    (item : GracePeriodEvidence) : bool :=
  match first_observed_at item, last_observed_at item with
  | Some first, Some last =>
      aware first && aware last && bool_decide (evidence_repository_id item = report_repository_id report)
      && bool_decide (evidence_snapshot_id item = snapshot_id reference)
      && match observation_count item with PInt n => (2 <=? n)%Z | _ => false end
      && not_after first last && not_after last now && (grace <=? elapsed now first)%Z
  | _, _ => false
  end.

Definition is_eligible (report : ResticReachabilityReport) (evidence : gmap ResticSnapshotRef GracePeriodEvidence)
    (now : datetime) (grace : Z) (reference : ResticSnapshotRef) : bool :=
  match evidence !! reference with Some item => qualified report now grace reference item | None => false end.

Definition plan_orphan_cleanup (report : ResticReachabilityReport) (evidence : gmap ResticSnapshotRef GracePeriodEvidence)
    (now : datetime) (grace : Z) : result OrphanCleanupPlan :=
  raise_if (negb (aware now)) (EValue "orphan cleanup time must include a timezone") ;;
  raise_if (grace <=? 0)%Z (EValue "orphan cleanup requires a positive grace period") ;;
  raise_if (negb (bool_decide (dom evidence ⊆ restic_only_orphans report)))
    (EValue "grace-period evidence names a non-orphan snapshot") ;;
  let eligible := filter (fun reference => is_eligible report evidence now grace reference = true) (restic_only_orphans report) in
  Ok {| eligible_snapshot_ids := eligible;
        missing_evidence := filter (fun reference => is_eligible report evidence now grace reference = false) (restic_only_orphans report);
        plan_evidence := filter (fun kv => kv.1 ∈ eligible) evidence;
        grace_period := grace; cleanup_never_prune := true; cleanup_never_unlock := true |}.
