(* ===== verification/ReferencesProps.v ===== *)
(** * The reference index: lemmas

    What the loop over the catalog has gathered after any number of entries: [built]
    relates its local variables to the entries, and shows that a loop over fewer entries
    does not fail.  Then the entries of a catalog as a list, the runs of
    [build_reference_index] as that loop over them, and what removing a snapshot does. *)

From S2P Require Import Prelude PyStr PyObj PyJson LogicalJat Catalog CatalogProps CatalogOps References JsonProps LogicalJatProps CatalogMade.
From S2P Require Import CatalogTheorems.

(** ** What a descriptor refers to *)
Definition link (d : dict) (r : ResticSnapshotRef) (tree : string) : Prop :=
  dict_get "repository_id" d = Some (PStr (repository_id r)) /\ dict_get "snapshot_id" d = Some (PStr (snapshot_id r))
  /\ dict_get "tree_id" d = Some (PStr tree).
Definition component_uses (cs : dict) (name : string) (r : ResticSnapshotRef) (tree : string) : Prop :=
  exists component s, dict_get name cs = Some (PDict component) /\ dict_get "snapshot" component = Some (PDict s) /\ link s r tree.
(** The descriptor names the snapshot, with its tree, in a role. *)
Definition uses (b : dict) (r : ResticSnapshotRef) (tree role : string) : Prop :=
  (role = "workspace" /\ exists w, dict_get "workspace" b = Some (PDict w) /\ link w r tree)
  \/ (role ∈ _COMPONENTS /\ exists cs, dict_get "components" b = Some (PDict cs) /\ component_uses cs role r tree).

Lemma link_fun d r t r' t' : link d r t -> link d r' t' -> r = r' /\ t = t'.
Proof. destruct r, r'. unfold link. simpl. intros (? & ? & ?) (? & ? & ?). split; congruence. Qed.
Lemma component_uses_fun cs name r t r' t' : component_uses cs name r t -> component_uses cs name r' t' -> r = r' /\ t = t'.
Proof.
  intros (c & s & Hc & Hs & Hl) (c' & s' & Hc' & Hs' & Hl'). rewrite Hc in Hc'. injection Hc' as <-. rewrite Hs in Hs'. injection Hs' as <-.
  by eapply link_fun.
Qed.

(** ** Loops *)
Lemma fold_app {A B} (f : B -> A -> result B) b l l' : fold_result f b (l ++ l') = (b ← fold_result f b l; fold_result f b l').
Proof. revert b. induction l as [|x l IH]; intros b; [done |]. simpl. destruct (f b x); [apply IH | done]. Qed.
(** An invariant of the elements gone through. *)
Lemma fold_inv {A B} (f : B -> A -> result B) (I : list A -> B -> Prop) b l b' :
  (forall done x b b', I done b -> done ++ [x] `prefix_of` l -> f b x = Ok b' -> I (done ++ [x]) b') ->
  I [] b -> fold_result f b l = Ok b' -> I l b'.
Proof.
  intros Hf. cut (forall done rest b, done ++ rest = l -> I done b -> fold_result f b rest = Ok b' -> I l b').
  { intros Hcut Hb. by apply (Hcut []). }
  intros done rest. revert done. induction rest as [|x rest IH]; intros done b0 Hl Hi; simpl.
  - intros [= <-]. by rewrite app_nil_r in Hl; subst.
  - intros (b1 & Hx & Hr)%bind_Ok_inv. apply (IH (done ++ [x]) b1); [by rewrite <- app_assoc | | done].
    apply (Hf done x b0); [done | | done]. exists rest. by rewrite <- app_assoc.
Qed.
(** The loop over some of the elements, from a smaller state, does not fail either. *)
Lemma fold_sublist {A B} (f : B -> A -> result B) (R : B -> B -> Prop) l l' b b' c :
  (forall b x b' c, R c b -> f b x = Ok b' -> R c b') ->
  (forall b x b' c, R c b -> f b x = Ok b' -> exists c', f c x = Ok c' /\ R c' b') ->
  sublist l' l -> R c b -> fold_result f b l = Ok b' -> exists c', fold_result f c l' = Ok c' /\ R c' b'.
Proof.
  intros Hskip Hstep Hl. revert b c. induction Hl as [|x l1 l2 _ IH|x l1 l2 _ IH]; intros b c HR; simpl.
  - intros [= <-]. eauto.
  - intros (b1 & Hx & Hr)%bind_Ok_inv. destruct (Hstep _ _ _ _ HR Hx) as (c1 & Hc & HR1). rewrite Hc. by apply (IH b1).
  - intros (b1 & Hx & Hr)%bind_Ok_inv. apply (IH b1); [by eapply Hskip | done].
Qed.

(** ** What one entry adds *)
Section adds.
Context (id : LogicalJatIdentity).
Record adds (b b' : building) (P : ResticSnapshotRef -> string -> string -> Prop) : Prop := {
  adds_trees r t : trees_by_snapshot b' !! r = Some t <-> trees_by_snapshot b !! r = Some t \/ exists role, P r t role;
  adds_records r x : x ∈ default ∅ (catalog_records_by_snapshot b' !! r)
    <-> x ∈ default ∅ (catalog_records_by_snapshot b !! r) \/ (x = id /\ exists t role, P r t role);
  adds_roles r role : role ∈ default ∅ (roles_by_snapshot b' !! r) <-> role ∈ default ∅ (roles_by_snapshot b !! r) \/ exists t, P r t role;
  adds_descriptors : descriptor_records_by_snapshot b = catalog_records_by_snapshot b ->
    descriptor_records_by_snapshot b' = catalog_records_by_snapshot b';
  adds_rest : building_records b' = building_records b /\ repository_ids b' = repository_ids b /\ building_legacy b' = building_legacy b;
}.

Lemma adds_none b P : (forall r t role, ~ P r t role) -> adds b b P.
Proof. intros HP. split; [..|done]; naive_solver. Qed.
Lemma adds_trans b b1 b2 P Q R : adds b b1 P -> adds b1 b2 Q -> (forall r t role, R r t role <-> P r t role \/ Q r t role) -> adds b b2 R.
Proof.
  intros [Ht Hr Ho Hd (E1 & E2 & E3)] [Ht' Hr' Ho' Hd' (E1' & E2' & E3')] HR. split.
  - intros r t. rewrite Ht', Ht. setoid_rewrite HR. naive_solver.
  - intros r x. rewrite Hr', Hr. setoid_rewrite HR. naive_solver.
  - intros r role. rewrite Ho', Ho. setoid_rewrite HR. naive_solver.
  - auto.
  - split; [congruence |]. split; congruence.
Qed.

Lemma add_to_Ok {K A} `{Countable K, Countable A} (k k' : K) (x y : A) d :
  y ∈ default ∅ (add_to k x d !! k') <-> y ∈ default ∅ (d !! k') \/ (y = x /\ k' = k).
Proof.
  unfold add_to. destruct (decide (k = k')) as [->|Hk].
  - rewrite lookup_insert_eq. cbn [from_option Datatypes.id]. set_solver.
  - rewrite lookup_insert_ne by done. naive_solver.
Qed.
Lemma add_reference_Ok r t role b b' : add_reference r t id role b = Ok b' ->
  adds b b' (fun r' t' role' => r' = r /\ t' = t /\ role' = role) /\ (forall t', trees_by_snapshot b !! r = Some t' -> t' = t).
Proof.
  unfold add_reference. intros H. inv_result. bools.
  assert (forall t', trees_by_snapshot b !! r = Some t' -> t' = t) as Hsame.
  { intros t' Ht'. by rewrite Ht' in *. }
  split; [|exact Hsame]. split; simpl.
  - intros r' t'. destruct (decide (r = r')) as [<-|Hr].
    + rewrite lookup_insert_eq. naive_solver.
    + rewrite lookup_insert_ne by done. naive_solver.
  - intros r' x. rewrite add_to_Ok. naive_solver.
  - intros r' x. rewrite add_to_Ok. naive_solver.
  - by intros ->.
  - done.
Qed.
Lemma add_reference_total r t role b : (forall t', trees_by_snapshot b !! r = Some t' -> t' = t) ->
  exists b', add_reference r t id role b = Ok b' /\ repository_ids b' = repository_ids b.
Proof.
  intros Ht. unfold add_reference. rewrite bool_decide_true; [by eexists |]. destruct (trees_by_snapshot b !! r); [|done]. by apply Ht.
Qed.
End adds.

Lemma get_str_Ok k d s : get_str k d = Ok s <-> dict_get k d = Some (PStr s).
Proof.
  unfold get_str, get_item, entry_key. destruct (dict_get k d) as [v|]; [|done]. cbn [mbind result_bind].
  destruct v; naive_solver.
Qed.
Lemma get_item_Some {V} k (d : list (string * V)) v : get_item k d = Ok v <-> dict_get k d = Some v.
Proof. unfold get_item. destruct (dict_get k d); naive_solver. Qed.

(** ** The components of a descriptor *)
Section components.
Context (id : LogicalJatIdentity) (cs : dict).

(** What [add_component] does: nothing, or one reference. *)
Lemma add_component_cases st name st' : add_component id cs st name = Ok st' ->
  (dict_get name cs = Some PNone /\ st' = st)
  \/ exists component s r t b', dict_get name cs = Some (PDict component) /\ dict_get "snapshot" component = Some (PDict s)
     /\ link s r t /\ add_reference r t id name st.1 = Ok b' /\ st' = (b', {[r]} ∪ st.2).
Proof.
  unfold add_component. intros (c & Hc%get_item_Some & H)%bind_Ok_inv. destruct (is_none c) eqn:Hn.
  - left. destruct c; try done. by injection H.
  - right. apply bind_Ok_inv in H as (component & ->%as_object_inv & H).
    apply bind_Ok_inv in H as (s & Hs%get_object_inv & H).
    apply bind_Ok_inv in H as (rep & Hrep%get_str_Ok & H). apply bind_Ok_inv in H as (sid & Hsid%get_str_Ok & H).
    apply bind_Ok_inv in H as (t & Ht%get_str_Ok & H). apply bind_Ok_inv in H as (b' & Hb & H). injection H as <-.
    exists component, s, {| repository_id := rep; snapshot_id := sid |}, t, b'. done.
Qed.
Lemma add_component_run st name component s r t b' : dict_get name cs = Some (PDict component) ->
  dict_get "snapshot" component = Some (PDict s) -> link s r t -> add_reference r t id name st.1 = Ok b' ->
  add_component id cs st name = Ok (b', {[r]} ∪ st.2).
Proof.
  intros Hc Hs (Hrep & Hsid & Ht) Hb. destruct r as [rep sid]. unfold add_component. rewrite (proj2 (get_item_Some _ _ _) Hc).
  cbn [mbind result_bind is_none as_object]. rewrite (get_object_Ok _ _ _ Hs). cbn [mbind result_bind].
  rewrite (proj2 (get_str_Ok _ _ _) Hrep), (proj2 (get_str_Ok _ _ _) Hsid), (proj2 (get_str_Ok _ _ _) Ht).
  cbn [mbind result_bind]. simpl in *. by rewrite Hb.
Qed.

Lemma add_components_Ok b refs names b' refs' : fold_result (add_component id cs) (b, refs) names = Ok (b', refs') ->
  adds id b b' (fun r t role => role ∈ names /\ component_uses cs role r t)
  /\ forall r, r ∈ refs' <-> r ∈ refs \/ exists t role, role ∈ names /\ component_uses cs role r t.
Proof.
  revert b refs. induction names as [|name names IH]; intros b refs; simpl.
  - intros [= <- <-]. split; [apply adds_none; intros ??? [Hn _]; by apply not_elem_of_nil in Hn |].
    intros r. split; [by left |]. intros [?|(? & ? & Hn & _)]; [done | by apply not_elem_of_nil in Hn].
  - intros ([b1 refs1] & [[Hnone [= -> ->]]|(c & s & r0 & t0 & b1' & Hc & Hs & Hl & Hb & [= -> ->])]%add_component_cases & Hr)%bind_Ok_inv.
    + destruct (IH _ _ Hr) as [Ha Hrefs].
      assert (forall r t, ~ component_uses cs name r t) as Hno by (intros r t (c & s & Hc & _); congruence).
      split.
      * eapply adds_trans; [apply (adds_none _ b (fun _ _ _ => False)); by intros ??? [] | exact Ha |].
        intros r t role. split; [intros [[->|?]%elem_of_cons Hu]; [by apply Hno in Hu | by right] | intros [[]|[? ?]]; split; [by right | done]].
      * intros r. rewrite Hrefs. split; (intros [?|(t & role & Hin & Hu)]; [by left | right; exists t, role]); [split; [by right | done] |].
        apply elem_of_cons in Hin as [->|]; [by apply Hno in Hu | done].
    + destruct (IH _ _ Hr) as [Ha Hrefs]. apply add_reference_Ok in Hb as [Hadd _].
      assert (component_uses cs name r0 t0) as Hu by (exists c, s; done).
      assert (forall r t, component_uses cs name r t -> r = r0 /\ t = t0) as Hone by (intros; by eapply component_uses_fun).
      split.
      * eapply adds_trans; [exact Hadd | exact Ha |]. intros r t role. split.
        -- intros [[->|?]%elem_of_cons Hu0]; [left; split_and!; [by eapply Hone | by eapply Hone | done] | by right].
        -- intros [(-> & -> & ->)|[? ?]]; (split; [by constructor | done]).
      * intros r. rewrite Hrefs. simpl. rewrite elem_of_union, elem_of_singleton. split.
        -- intros [[->|?]|(t & role & Hin & Hu')]; [right; exists t0, name | by left | right; exists t, role]; (split; [by constructor | done]).
        -- intros [?|(t & role & [->|Hin]%elem_of_cons & Hu')]; [by left; right | left; left; by eapply Hone | right; eauto].
Qed.

(** With fewer references gathered before, the same calls succeed. *)
Definition smaller (b0 b : building) : Prop :=
  trees_by_snapshot b0 ⊆ trees_by_snapshot b /\ repository_ids b0 ⊆ repository_ids b.
Lemma adds_smaller b0 b b0' b' P : adds id b0 b0' P -> adds id b b' P -> smaller b0 b -> smaller b0' b'.
Proof.
  intros H0 H1 [Ht Hr]. split.
  - apply map_subseteq_spec. intros r t. rewrite (adds_trees _ _ _ _ H0), (adds_trees _ _ _ _ H1).
    intros [Hb|?]; [left; by eapply lookup_weaken | by right].
  - destruct (adds_rest _ _ _ _ H0) as (_ & -> & _). by destruct (adds_rest _ _ _ _ H1) as (_ & -> & _).
Qed.
Lemma add_reference_smaller r t role b0 b b' : smaller b0 b -> add_reference r t id role b = Ok b' ->
  exists b0', add_reference r t id role b0 = Ok b0' /\ smaller b0' b'.
Proof.
  intros Hs Hb. apply add_reference_Ok in Hb as [Ha Hsame].
  destruct (add_reference_total id r t role b0) as (b0' & Hb0 & _).
  { intros t' Ht'. apply Hsame. eapply lookup_weaken; [exact Ht' | apply Hs]. }
  exists b0'. split; [done |]. apply add_reference_Ok in Hb0 as [Ha0 _]. by eapply adds_smaller.
Qed.
Lemma add_components_smaller names b0 b refs0 refs b' refs' : smaller b0 b ->
  fold_result (add_component id cs) (b, refs) names = Ok (b', refs') ->
  exists b0' refs0', fold_result (add_component id cs) (b0, refs0) names = Ok (b0', refs0') /\ smaller b0' b'.
Proof.
  revert b0 b refs0 refs. induction names as [|name names IH]; intros b0 b refs0 refs Hs; simpl.
  - intros [= <- <-]. eauto.
  - intros ([b1 refs1] & Hc & Hr)%bind_Ok_inv. pose proof Hc as [[Hnone [= -> ->]]|(c & s & r & t & b1' & Hn & Hsn & Hl & Hb & [= -> ->])]%add_component_cases.
    + assert (add_component id cs (b0, refs0) name = Ok (b0, refs0)) as -> by (unfold add_component, get_item; by rewrite Hnone).
      by apply (IH _ b refs0 refs).
    + destruct (add_reference_smaller _ _ _ _ _ _ Hs Hb) as (b0' & Hb0 & Hs').
      rewrite (add_component_run (b0, refs0) _ _ _ _ _ _ Hn Hsn Hl Hb0). by apply (IH _ b1' _ _ Hs' Hr).
Qed.
End components.

(** ** One entry of the catalog *)
Section entries.
Context `{PyRuntime, JsonRuntime} (dimension domain : string) (descriptors : gmap LogicalJatIdentity LogicalJat).

(** The dictionary form of an entry's descriptor, which corroborates the entry. *)
Definition descriptor_of (id : LogicalJatIdentity) (value : pyobj) (b : dict) : Prop :=
  exists jat, descriptors !! id = Some jat /\ corroborate_logical_snapshot (room_id id) value jat = Ok jat /\ to_dict jat = Ok (PDict b).
Definition is_logical (value : pyobj) : Prop := exists s, value = PDict s /\ has_key "payload_kind" s = true.
Definition links (id : LogicalJatIdentity) (value : pyobj) (r : ResticSnapshotRef) (tree role : string) : Prop :=
  is_logical value /\ exists b, descriptor_of id value b /\ uses b r tree role.
Definition repository_of (id : LogicalJatIdentity) (value : pyobj) (repository : string) : Prop :=
  is_logical value /\ exists b w, descriptor_of id value b /\ dict_get "workspace" b = Some (PDict w)
    /\ dict_get "repository_id" w = Some (PStr repository).
(** The record of an entry. *)
Definition record_of (id : LogicalJatIdentity) (value : pyobj) (record : CatalogRecordReferences) : Prop :=
  identity record = id
  /\ (exists s, value = PDict s /\ dict_get "object_key" s = Some (PStr (object_key record))
      /\ payload_kind record = if has_key "payload_kind" s then "room-store-v1" else "legacy-jat-hauler-v1")
  /\ (forall r, r ∈ restic_snapshots record <-> exists tree role, links id value r tree role).

Lemma descriptor_fun id value b b' : descriptor_of id value b -> descriptor_of id value b' -> b = b'.
Proof. intros (j & Hj & _ & Hb) (j' & Hj' & _ & Hb'). congruence. Qed.
Lemma corroborate_same pid value jat jat' : corroborate_logical_snapshot pid value jat = Ok jat' -> jat' = jat.
Proof. unfold corroborate_logical_snapshot. destruct value; try done. intros Hc. inv_result. done. Qed.

Record entered (id : LogicalJatIdentity) (value : pyobj) (b b' : building) : Prop := {
  entered_record : exists record, record_of id value record /\ building_records b' = <[id := record]> (building_records b);
  entered_trees r t : trees_by_snapshot b' !! r = Some t <-> trees_by_snapshot b !! r = Some t \/ exists role, links id value r t role;
  entered_records r x : x ∈ default ∅ (catalog_records_by_snapshot b' !! r)
    <-> x ∈ default ∅ (catalog_records_by_snapshot b !! r) \/ (x = id /\ exists t role, links id value r t role);
  entered_roles r role : role ∈ default ∅ (roles_by_snapshot b' !! r)
    <-> role ∈ default ∅ (roles_by_snapshot b !! r) \/ exists t, links id value r t role;
  entered_descriptors : descriptor_records_by_snapshot b = catalog_records_by_snapshot b ->
    descriptor_records_by_snapshot b' = catalog_records_by_snapshot b';
  entered_repositories x : x ∈ repository_ids b' <-> x ∈ repository_ids b \/ repository_of id value x;
  entered_legacy k : k ∈ building_legacy b' <-> k ∈ building_legacy b
    \/ (~ is_logical value /\ exists s, value = PDict s /\ dict_get "object_key" s = Some (PStr k));
}.

(** The steps of [index_logical], read backwards. *)
Lemma index_logical_inv id value key b b' : index_logical dimension domain descriptors id value key b = Ok b' ->
  exists d w cs r t b1 b2 refs, descriptor_of id value d /\ dict_get "workspace" d = Some (PDict w) /\ link w r t
  /\ dict_get "components" d = Some (PDict cs)
  /\ add_reference r t id "workspace" (add_repository (repository_id r) b) = Ok b1
  /\ fold_result (add_component id cs) (b1, {[r]}) _COMPONENTS = Ok (b2, refs)
  /\ b' = add_record {| identity := id; payload_kind := "room-store-v1"; object_key := key; restic_snapshots := refs |} ∅ b2.
Proof.
  unfold index_logical. intros (jat & Hj & H1)%bind_Ok_inv. destruct (descriptors !! id) as [j|] eqn:Hid; [|done]. injection Hj as ->.
  apply bind_Ok_inv in H1 as (j & Hc%reraise_Ok_inv & H1). pose proof (corroborate_same _ _ _ _ Hc) as ->.
  apply bind_Ok_inv in H1 as (v & Hv & H1). apply bind_Ok_inv in H1 as (d & ->%as_object_inv & H1).
  apply bind_Ok_inv in H1 as (? & _ & H1). apply bind_Ok_inv in H1 as (? & _ & H1). apply bind_Ok_inv in H1 as ([] & _ & H1).
  apply bind_Ok_inv in H1 as (w & Hw%get_object_inv & H1). apply bind_Ok_inv in H1 as (rep & Hrep%get_item_Some & H1).
  apply bind_Ok_inv in H1 as ([] & _ & H1). apply bind_Ok_inv in H1 as (rid & Hrid & H1).
  destruct rep; try discriminate Hrid. injection Hrid as ->.
  apply bind_Ok_inv in H1 as (sid & Hsid%get_str_Ok & H1). apply bind_Ok_inv in H1 as (t & Ht%get_str_Ok & H1).
  apply bind_Ok_inv in H1 as (b1 & Hb1 & H1). apply bind_Ok_inv in H1 as (cs & Hcs%get_object_inv & H1).
  apply bind_Ok_inv in H1 as ([b2 refs] & Hb2 & H1). injection H1 as <-.
  exists d, w, cs, {| repository_id := rid; snapshot_id := sid |}, t, b1, b2, refs.
  split; [by exists jat |]. done.
Qed.

Lemma links_cases id value d w cs r t : is_logical value -> descriptor_of id value d -> dict_get "workspace" d = Some (PDict w) ->
  dict_get "components" d = Some (PDict cs) -> link w r t ->
  forall r' t' role, links id value r' t' role <-> (r' = r /\ t' = t /\ role = "workspace") \/ (role ∈ _COMPONENTS /\ component_uses cs role r' t').
Proof.
  intros Hlog Hd Hw Hcs Hl r' t' role. split.
  - intros (_ & d' & Hd' & Hu). rewrite (descriptor_fun _ _ _ _ Hd' Hd) in Hu.
    destruct Hu as [[-> (w' & Hw' & Hl')]|[Hr (cs' & Hcs' & Hu)]].
    + rewrite Hw in Hw'. injection Hw' as <-. destruct (link_fun _ _ _ _ _ Hl' Hl). by left.
    + rewrite Hcs in Hcs'. injection Hcs' as <-. by right.
  - intros Hu. split; [done |]. exists d. split; [done |]. destruct Hu as [(-> & -> & ->)|[Hr Hu]]; [left | right]; eauto.
Qed.

Lemma index_logical_Ok id s key b b' : has_key "payload_kind" s = true -> dict_get "object_key" s = Some (PStr key) ->
  index_logical dimension domain descriptors id (PDict s) key b = Ok b' -> entered id (PDict s) b b'.
Proof.
  intros Hkind Hkey Hi. destruct (index_logical_inv _ _ _ _ _ Hi) as (d & w & cs & r & t & b1 & b2 & refs & Hd & Hw & Hl & Hcs & Hb1 & Hb2 & ->).
  assert (is_logical (PDict s)) as Hlog by (by exists s).
  pose proof (links_cases _ _ _ _ _ _ _ Hlog Hd Hw Hcs Hl) as Hlinks.
  apply add_reference_Ok in Hb1 as [Ha1 _]. apply add_components_Ok in Hb2 as [Ha2 Hrefs].
  pose proof (adds_trans _ _ _ _ _ _ _ Ha1 Ha2 Hlinks) as [Ht Hr Ho Hde (Er & Ep & El)]. simpl in *. split; simpl; try done.
  - eexists. rewrite Er. split; [|done]. split; [done |]. split; [exists s; by rewrite Hkind |]. simpl.
    intros r'. rewrite Hrefs, elem_of_singleton. setoid_rewrite Hlinks. naive_solver.
  - intros x. rewrite Ep. split.
    + intros [->%elem_of_singleton|?]%elem_of_union; [|by left]. right. split; [done |]. exists d, w. split; [done |]. split; [done |]. apply Hl.
    + intros [?|(_ & d' & w' & Hd' & Hw' & Hx)]; [by apply elem_of_union_r |]. apply elem_of_union_l, elem_of_singleton.
      rewrite (descriptor_fun _ _ _ _ Hd' Hd) in Hw'. destruct Hl as [Hl _]. congruence.
  - intros k. rewrite El. split; [set_solver |]. intros [?|[Hn _]]; [set_solver | by apply Hn in Hlog].
Qed.

Lemma links_logical id value r t role : links id value r t role -> is_logical value.
Proof. by intros []. Qed.
Lemma not_logical s : has_key "payload_kind" s = false -> ~ is_logical (PDict s).
Proof. intros Hk (s' & [= <-] & Hk'). congruence. Qed.

Lemma index_entry_Ok b id value b' : index_entry dimension domain descriptors b (id, value) = Ok b' -> entered id value b b'.
Proof.
  unfold index_entry. cbn [fst snd]. intros (s & ->%as_object_inv & H1)%bind_Ok_inv. apply bind_Ok_inv in H1 as (key & Hkey%get_str_Ok & H1).
  destruct (has_key "payload_kind" s) eqn:Hkind; [by eapply index_logical_Ok|]. injection H1 as <-.
  pose proof (not_logical _ Hkind) as Hn. assert (forall r t role, ~ links id (PDict s) r t role) as Hno by (by intros ??? ?%links_logical).
  split; simpl; try naive_solver.
  - eexists. split; [|done]. split; [done |]. split; [exists s; by rewrite Hkind |]. simpl. set_solver.
  - intros x. split; [by left |]. by intros [?|[? _]].
  - intros k. rewrite elem_of_union, elem_of_singleton. split; [intros [->|?]; [right; split; [done | by exists s] | by left] |].
    intros [?|[_ (s' & [= <-] & Hk)]]; [by right | left; congruence].
Qed.

(** From a smaller state the same entry is indexed too. *)
Lemma entered_smaller b b' c c' id value : entered id value b b' -> entered id value c c' -> smaller c b -> smaller c' b'.
Proof.
  intros Hb Hc [Ht Hr]. split.
  - apply map_subseteq_spec. intros r t. rewrite (entered_trees _ _ _ _ Hb), (entered_trees _ _ _ _ Hc).
    intros [Hx|?]; [left; by eapply lookup_weaken | by right].
  - intros x. rewrite (entered_repositories _ _ _ _ Hb), (entered_repositories _ _ _ _ Hc). set_solver.
Qed.
Lemma index_entry_grows b id value b' c : smaller c b -> index_entry dimension domain descriptors b (id, value) = Ok b' -> smaller c b'.
Proof.
  intros [Ht Hr] He%index_entry_Ok. split.
  - apply map_subseteq_spec. intros r t Hx. apply (entered_trees _ _ _ _ He). left. by eapply lookup_weaken.
  - intros x Hx. apply (entered_repositories _ _ _ _ He). set_solver.
Qed.
Lemma index_entry_smaller b id value b' c : smaller c b -> index_entry dimension domain descriptors b (id, value) = Ok b' ->
  exists c', index_entry dimension domain descriptors c (id, value) = Ok c' /\ smaller c' b'.
Proof.
  intros Hs Hb. cut (exists c', index_entry dimension domain descriptors c (id, value) = Ok c').
  { intros [c' Hc]. exists c'. split; [done |]. apply index_entry_Ok in Hb, Hc. by eapply entered_smaller. }
  revert Hb. unfold index_entry. cbn [fst snd]. intros (s & -> & H1)%bind_Ok_inv. cbn [mbind result_bind].
  apply bind_Ok_inv in H1 as (key & -> & H1). cbn [mbind result_bind].
  destruct (has_key "payload_kind" s); [|eauto]. revert H1. unfold index_logical.
  do 13 (intros (? & -> & H1)%bind_Ok_inv; revert H1; cbn [mbind result_bind]).
  intros (b1 & Hb1 & H1)%bind_Ok_inv.
  match type of Hb1 with add_reference ?r ?tree _ _ (add_repository ?rep _) = _ =>
    assert (smaller (add_repository rep c) (add_repository rep b)) as Hs0 by (split; [exact (proj1 Hs) | simpl; pose proof (proj2 Hs); set_solver]) end.
  destruct (add_reference_smaller id _ _ _ _ _ _ Hs0 Hb1) as (c1 & -> & Hs1).
  revert H1. cbn [mbind result_bind]. intros (cs & -> & H1)%bind_Ok_inv. apply bind_Ok_inv in H1 as ([b2 refs] & Hb2 & _). cbn [mbind result_bind].
  destruct (add_components_smaller id cs _COMPONENTS c1 b1 {[{| repository_id := x9; snapshot_id := x10 |}]} _ b2 refs Hs1 Hb2) as (c2 & refs' & -> & _).
  eauto.
Qed.

(** ** The whole loop *)
Record built (done : list (LogicalJatIdentity * pyobj)) (b : building) : Prop := {
  built_record id value : (id, value) ∈ done -> exists record, building_records b !! id = Some record /\ record_of id value record;
  built_domain id : is_Some (building_records b !! id) <-> id ∈ done.*1;
  built_trees r t : trees_by_snapshot b !! r = Some t <-> exists id value role, (id, value) ∈ done /\ links id value r t role;
  built_records r x : x ∈ default ∅ (catalog_records_by_snapshot b !! r) <-> exists value t role, (x, value) ∈ done /\ links x value r t role;
  built_roles r role : role ∈ default ∅ (roles_by_snapshot b !! r) <-> exists id value t, (id, value) ∈ done /\ links id value r t role;
  built_descriptors : descriptor_records_by_snapshot b = catalog_records_by_snapshot b;
  built_repositories x : x ∈ repository_ids b <-> exists id value, (id, value) ∈ done /\ repository_of id value x;
  built_legacy k : k ∈ building_legacy b <-> exists id s, (id, PDict s) ∈ done /\ ~ is_logical (PDict s) /\ dict_get "object_key" s = Some (PStr k);
}.

Lemma built_nothing : built [] building_nothing.
Proof.
  split; simpl; intros; rewrite ?lookup_empty; simpl; try done; try set_solver; (split; [try done; by intros [] | set_solver]).
Qed.
Lemma built_step done id value b b' : id ∉ done.*1 -> built done b -> entered id value b b' -> built (done ++ [(id, value)]) b'.
Proof.
  intros Hnew [] [(record & Hrec & Hset) Ht Hr Ho Hde Hp Hl].
  assert (forall x v, (x, v) ∈ done ++ [(id, value)] <-> (x, v) ∈ done \/ (x = id /\ v = value)) as Hin.
  { intros x v. rewrite elem_of_app, list_elem_of_singleton. naive_solver. }
  split.
  - intros x v [Hx|[-> ->]]%Hin; rewrite Hset.
    + rewrite lookup_insert_ne; [auto |]. intros <-. apply Hnew, list_elem_of_fmap. by exists (id, v).
    + rewrite lookup_insert_eq. eauto.
  - intros x. rewrite Hset, fmap_app, elem_of_app. simpl. rewrite list_elem_of_singleton. destruct (decide (id = x)) as [<-|Hx].
    + rewrite lookup_insert_eq. naive_solver.
    + rewrite lookup_insert_ne, built_domain0 by done. naive_solver.
  - intros r t. rewrite Ht, built_trees0. setoid_rewrite Hin. naive_solver.
  - intros r x. rewrite Hr, built_records0. setoid_rewrite Hin. naive_solver.
  - intros r role. rewrite Ho, built_roles0. setoid_rewrite Hin. naive_solver.
  - auto.
  - intros x. rewrite Hp, built_repositories0. setoid_rewrite Hin. naive_solver.
  - intros k. rewrite Hl, built_legacy0. setoid_rewrite Hin. naive_solver.
Qed.
End entries.

(** ** The entries of a body *)
Definition room_list (room : string * pyobj) : list (LogicalJatIdentity * pyobj) :=
  map (fun '(sid, value) => ({| room_id := room.1; logical_jat_id := sid |}, value)) (snapshots_of room.2).
Definition all_entries (b : dict) : list (LogicalJatIdentity * pyobj) := concat (map room_list (rooms b)).

Lemma elem_of_room_list room id value :
  (id, value) ∈ room_list room <-> room_id id = room.1 /\ (logical_jat_id id, value) ∈ snapshots_of room.2.
Proof.
  unfold room_list. rewrite list_elem_of_In, in_map_iff. setoid_rewrite <- list_elem_of_In. split.
  - intros ([sid v] & [= <- <-] & Hin). done.
  - intros [Hr Hin]. exists (logical_jat_id id, value). destruct id. simpl in *. subst. done.
Qed.
Lemma elem_of_all_entries b id value : distinct (PDict b) ->
  (id, value) ∈ all_entries b <-> find b (room_id id) (logical_jat_id id) = Some value.
Proof.
  intros Hd. unfold all_entries, find. pose proof (distinct_rooms _ Hd) as Hdr. pose proof (distinct_keys _ Hdr) as Hnd.
  rewrite list_elem_of_In, in_concat. split.
  - intros (l & Hl & Hin). apply in_map_iff in Hl as ([pid room] & <- & Hroom). apply list_elem_of_In in Hroom, Hin.
    apply elem_of_room_list in Hin as [-> Hin]. cbn [fst snd] in *. apply dict_get_iff in Hroom; [|done]. rewrite Hroom. cbn [mbind option_bind].
    apply dict_get_iff; [|done]. by apply distinct_keys, distinct_snapshots, (distinct_get _ _ _ Hdr Hroom).
  - destruct (dict_get (room_id id) (rooms b)) as [room|] eqn:Hroom; [|done]. cbn [mbind option_bind]. intros Hv%dict_get_elem.
    exists (room_list (room_id id, room)). split; [apply in_map, list_elem_of_In; by apply dict_get_elem |].
    apply list_elem_of_In, elem_of_room_list. done.
Qed.
Lemma room_list_keys room : (room_list room).*1 = (fun sid => {| room_id := room.1; logical_jat_id := sid |}) <$> (snapshots_of room.2).*1.
Proof. unfold room_list. induction (snapshots_of room.2) as [|[sid v] l IH]; [done |]. csimpl. by rewrite IH. Qed.
Lemma NoDup_all_entries b : distinct (PDict b) -> NoDup (all_entries b).*1.
Proof.
  intros Hd%distinct_rooms. unfold all_entries. pose proof (distinct_keys _ Hd) as Hnd.
  assert (forall room, room ∈ rooms b -> NoDup (snapshots_of room.2).*1) as Hss.
  { intros [pid room] Hin. apply dict_get_iff in Hin; [|done]. by apply distinct_keys, distinct_snapshots, (distinct_get _ _ _ Hd Hin). }
  clear Hd. induction (rooms b) as [|[pid room] l IH]; [apply NoDup_nil_2 |]. csimpl in *. apply NoDup_cons in Hnd as [Hpid Hnd].
  rewrite fmap_app. apply NoDup_app. split; [|split; [|apply IH; [done | intros; apply Hss; by right]]].
  - rewrite room_list_keys. apply NoDup_fmap_2; [by intros ?? [=] | apply (Hss (pid, room)); left].
  - intros x Hx Hx'. apply list_elem_of_fmap in Hx as ([id v] & -> & [Hid _]%elem_of_room_list).
    apply list_elem_of_fmap in Hx' as ([id' v'] & Heq & Hin). simpl in *. subst id'.
    apply list_elem_of_In, in_concat in Hin as (l' & Hl' & Hin). apply in_map_iff in Hl' as ([pid' room'] & <- & Hroom').
    apply list_elem_of_In, elem_of_room_list in Hin as [Hid' _]. apply Hpid, list_elem_of_fmap. exists (pid', room'). simpl in *.
    split; [congruence | by apply list_elem_of_In].
Qed.

Section checked.
Context (v : Z) (d e : pyobj).
Lemma room_entries_Ok pid room : room_at v d e pid room -> room_entries (pid, room) = Ok (room_list (pid, room)).
Proof.
  intros (_ & p & ss & -> & Hss & _). unfold room_entries, room_list. cbn [fst snd as_object mbind result_bind].
  rewrite (get_object_Ok _ _ _ Hss). cbn [mbind result_bind]. by rewrite (snapshots_of_PDict _ _ Hss).
Qed.
Lemma rooms_entries_Ok projects : entries_ok (room_at v d e) projects -> map_result room_entries projects = Ok (map room_list projects).
Proof.
  intros Hall. apply map_result_Ok. induction Hall as [|[pid room] l Hx _ IH]; constructor; [|exact IH]. by apply room_entries_Ok.
Qed.
End checked.
Lemma catalog_entries_Ok c : sound c -> catalog_entries (body c) = Ok (all_entries (body c)).
Proof.
  intros Hs. destruct (sound_checked c Hs) as (v & projects & Hc & Hrooms). pose proof Hc as (_ & _ & _ & _ & Hp & _ & _ & Hall).
  unfold catalog_entries, all_entries. rewrite (get_object_Ok _ _ _ Hp). cbn [mbind result_bind].
  rewrite (rooms_entries_Ok _ _ _ _ Hall). cbn [mbind result_bind]. by rewrite Hrooms.
Qed.

(** ** Removing a snapshot *)
Lemma sublist_del {V} k (d : list (string * V)) : sublist (dict_del k d) d.
Proof. apply sublist_filter. Qed.
Lemma room_list_del pid sid room room' : snapshots_of room' = dict_del sid (snapshots_of room) ->
  sublist (room_list (pid, room')) (room_list (pid, room)).
Proof. intros Hs. unfold room_list. cbn [fst snd]. rewrite Hs. apply (fmap_sublist _ (dict_del sid _)), sublist_del. Qed.
Lemma concat_map_sublist {A B} (f : A -> list B) l' l : sublist l' l -> sublist (concat (map f l')) (concat (map f l)).
Proof.
  induction 1; simpl; [done | by apply sublist_app | by apply sublist_inserts_l].
Qed.
Lemma rooms_set_sublist pid room room' projects : dict_get pid projects = Some room ->
  sublist (room_list (pid, room')) (room_list (pid, room)) ->
  sublist (concat (map room_list (dict_set pid room' projects))) (concat (map room_list projects)).
Proof.
  intros Hp Hl. induction projects as [|[k x] l IH]; [done |]. simpl in *. case_bool_decide as Hk; subst; simpl.
  - injection Hp as ->. by apply sublist_app.
  - apply sublist_app; [done | by apply IH].
Qed.

(** The room of a version 3 catalog has a latest snapshot. *)
Lemma v3_latest c pid room : sound c -> version_of c = PInt 3 -> dict_get pid (rooms (body c)) = Some room -> is_Some (latest_of (body c) pid).
Proof.
  intros Hs Hv Hroom. destruct (sound_checked c Hs) as (v & projects & (_ & _ & Hgv & _ & _ & _ & _ & Hall) & Hrooms).
  unfold version_of in Hv. rewrite (get_or_none_eq _ _ _ Hgv) in Hv. injection Hv as ->.
  unfold latest_of. rewrite Hrooms in *. rewrite Hroom. pose proof (entries_get _ _ _ _ Hall Hroom) as (_ & p & ss & -> & _ & H3 & _).
  simpl. specialize (H3 eq_refl). unfold check_v3_room in H3. inv_result. bools. apply has_key_spec.
  match goal with A : keys_are _ _ = true |- _ => by apply (proj1 (keys_are_Ok _ _) A); literal end.
Qed.

(** Removing one snapshot of a version 3 catalog. *)
Lemma remove_entry c id value : made_ok c -> version_of c = PInt 3 -> find (body c) (room_id id) (logical_jat_id id) = Some value ->
  exists c' keys emptied, remove_snapshot c (room_id id) (logical_jat_id id) = Ok (c', keys, emptied) /\ made_ok c'
  /\ version_of c' = PInt 3 /\ dimension_id c' = dimension_id c /\ encryption_domain_id c' = encryption_domain_id c
  /\ sublist (all_entries (body c')) (all_entries (body c))
  /\ (forall x v, (x, v) ∈ all_entries (body c') <-> (x, v) ∈ all_entries (body c) /\ x <> id)
  /\ (forall k, k ∈ keys <-> snapshot_refers value k /\ ~ exists x v, (x, v) ∈ all_entries (body c') /\ snapshot_refers v k).
Proof.
  intros [Hs Hd] Hv Hf. destruct (find_inv _ _ _ _ Hf) as (room & Hroom & Hsid).
  destruct (remove_snapshot_total c _ _ room value Hs Hd Hroom Hsid (v3_latest _ _ _ Hs Hv Hroom))
    as (c' & keys & emptied & Hrun & Hs' & Hsame & _ & Hrooms & Hkeys).
  destruct (remove_snapshot_made c _ _ c' keys _ (conj Hs Hd) Hrun) as [_ Hd'].
  exists c', keys, emptied. split; [done |]. split; [done |].
  assert (forall k, k <> "projects" -> k <> "revision" -> get_or_none k (body c') = get_or_none k (body c)) as Hget.
  { intros k H1 H2. unfold get_or_none. by rewrite Hsame. }
  split; [unfold version_of; by rewrite Hget |]. split; [unfold dimension_id; by rewrite Hget |].
  split; [rewrite (proj1 (proj2 Hs')), (proj1 (proj2 Hs)); by apply Hget |].
  split; [|split].
  - unfold all_entries. destruct emptied.
    + rewrite (proj1 Hrooms). apply concat_map_sublist, sublist_del.
    + destruct Hrooms as (room' & -> & Hw & _). eapply rooms_set_sublist; [exact Hroom | by eapply room_list_del].
  - intros x v. rewrite !elem_of_all_entries by done. unfold find. destruct emptied.
    + destruct Hrooms as [-> Hone]. rewrite dict_get_del. case_bool_decide as Hx; simpl.
      * split; [done |]. rewrite Hx, Hroom. cbn [mbind option_bind]. intros [Hin Hne]. destruct Hne.
        apply dict_get_elem in Hin. assert (logical_jat_id x ∈ (snapshots_of room).*1) as Hin' by (apply list_elem_of_fmap; by exists (logical_jat_id x, v)).
        rewrite Hone in Hin'. apply list_elem_of_singleton in Hin'. destruct x, id. simpl in *. by subst.
      * split; [|by intros []]. intros Hin. split; [done | by intros ->].
    + destruct Hrooms as (room' & -> & Hw & _). rewrite dict_get_set. case_bool_decide as Hx; simpl.
      * rewrite Hx, Hroom. cbn [mbind option_bind]. rewrite Hw, dict_get_del. destruct x, id. simpl in *. subst.
        case_bool_decide; subst; split; [done | by intros [_ []] | by intros Hin; split; [|congruence] | by intros []].
      * split; [|by intros []]. intros Hin. split; [done | by intros ->].
  - intros k. rewrite Hkeys. split; intros [Hk Hn]; (split; [done |]); contradict Hn.
    + destruct Hn as (x & v & Hin & (s & -> & Hs2)). apply elem_of_all_entries in Hin; [|done].
      apply refers_names; [done |]. by exists (room_id x), (logical_jat_id x), s.
    + apply refers_names in Hn as (pid & sid & s & Hn & Hs2); [|done].
      exists {| room_id := pid; logical_jat_id := sid |}, (PDict s). split; [by apply elem_of_all_entries | by exists s].
Qed.

(** ** The keys of the descriptors *)
Definition entry_ok (entry : LogicalJatIdentity * pyobj) : Prop :=
  exists s, entry.2 = PDict s /\ (dict_get "payload_kind" s = None \/ dict_get "payload_kind" s = Some (PStr "room-store-v1")).
Lemma logical_kind s : _validate_logical_snapshot s = Ok tt -> has_key "payload_kind" s = true ->
  dict_get "payload_kind" s = Some (PStr "room-store-v1").
Proof.
  intros Hv [v Hk]%has_key_spec. unfold _validate_logical_snapshot in Hv. inv_result. bools.
  match goal with A : py_eq _ (PStr "room-store-v1") = true |- _ => apply py_eq_PStr in A; unfold get_or_none in A; rewrite Hk in A; simpl in A end.
  congruence.
Qed.
Lemma entries_kinds c : made_ok c -> version_of c = PInt 3 -> Forall entry_ok (all_entries (body c)).
Proof.
  intros [Hs Hd] Hv. apply Forall_forall. intros [id value] Hin. apply elem_of_all_entries, find_inv in Hin as (room & Hroom & Hsid); [|done].
  destruct (sound_checked c Hs) as (v & projects & (_ & _ & Hgv & _ & _ & _ & _ & Hall) & Hrooms).
  unfold version_of in Hv. rewrite (get_or_none_eq _ _ _ Hgv) in Hv. injection Hv as ->. rewrite Hrooms in *.
  pose proof (entries_get _ _ _ _ Hall Hroom) as (_ & p & ss & -> & Hss & _ & Hsnaps). rewrite (snapshots_of_PDict _ _ Hss) in Hsid.
  destruct (entries_get _ _ _ _ Hsnaps Hsid) as (_ & s & -> & _ & _ & H3). exists s. split; [done |]. specialize (H3 eq_refl).
  destruct (has_key "payload_kind" s) eqn:Hk; [right; by apply logical_kind; [apply H3 |] | left].
  destruct (dict_get "payload_kind" s) eqn:Hg; [|done]. apply has_key_get in Hg. congruence.
Qed.
Lemma expected_Ok keys entries : Forall entry_ok entries ->
  exists keys', fold_result expected_key keys entries = Ok keys'
  /\ forall id, id ∈ keys' <-> id ∈ keys \/ exists value, (id, value) ∈ entries /\ is_logical value.
Proof.
  intros Hall. revert keys. induction Hall as [|[id value] entries (s & Hs & Hk) _ IH]; intros keys.
  - exists keys. split; [done |]. intros id. split; [by left |]. intros [?|(? & Hin & _)]; [done | by apply not_elem_of_nil in Hin].
  - cbn [snd] in Hs. subst value. cbn [fold_result].
    assert (is_logical (PDict s) <-> dict_get "payload_kind" s = Some (PStr "room-store-v1")) as Hlog.
    { split; [intros (s' & [= <-] & [x Hx]%has_key_spec); destruct Hk; congruence |]. intros Hx. exists s. split; [done | by eapply has_key_get]. }
    assert (expected_key keys (id, PDict s) = Ok (match dict_get "payload_kind" s with Some _ => {[id]} ∪ keys | None => keys end)) as ->.
    { unfold expected_key. cbn [fst snd as_object mbind result_bind]. destruct Hk as [->| ->]; [done |].
      by rewrite (proj2 (py_eq_PStr _ _) eq_refl). }
    cbn [mbind result_bind]. destruct Hk as [Hk|Hk]; rewrite Hk in *.
    + destruct (IH keys) as (keys' & Hrun & Hin). exists keys'. split; [done |]. intros x. rewrite Hin.
      split; (intros [?|(v & Hx & Hl)]; [by left | right; exists v]); [split; [by right | done] |].
      apply elem_of_cons in Hx as [[= -> ->]|Hx]; [by apply Hlog in Hl | done].
    + destruct (IH ({[id]} ∪ keys)) as (keys' & Hrun & Hin). exists keys'. split; [done |]. intros x. rewrite Hin, elem_of_union, elem_of_singleton. split.
      * intros [[->|?]|(v & Hx & Hl)]; [right; exists (PDict s); split; [left | by apply Hlog] | by left | right; exists v; split; [by right | done]].
      * intros [?|(v & Hx & Hl)]; [left; by right |]. apply elem_of_cons in Hx as [[= -> ->]|Hx]; [left; by left | right; eauto].
Qed.

(** ** The whole function *)
Section build.
Context `{PyRuntime, JsonRuntime}.

Lemma mutable_Ok c : sound c -> version_of c = PInt 3 -> _mutable_catalog c = Ok c
  /\ exists dim dom, dimension_id c = PStr dim /\ encryption_domain_id c = PStr dom.
Proof.
  intros ((v & r & projects & Hc) & Hdom & Hok) Hv. pose proof Hc as (_ & _ & Hgv & _ & _ & H2 & H3 & _).
  unfold version_of in Hv. rewrite (get_or_none_eq _ _ _ Hgv) in Hv. injection Hv as ->.
  destruct H2 as (dim & Hdim & _); [done |]. destruct (H3 eq_refl) as (_ & dom & Hd & Hval).
  assert (encryption_domain_id c = PStr dom) as He by (by rewrite Hdom, (get_or_none_eq _ _ _ Hd)).
  assert (dimension_id c = PStr dim) as Hdi by (by apply get_or_none_eq).
  split; [|eauto]. unfold _mutable_catalog, from_body. rewrite (has_key_get _ _ _ Hd), andb_false_r, He, Hdi. cbn [raise_if is_none mbind result_bind].
  rewrite Hval, (get_or_none_eq _ _ _ Hd), (proj2 (py_eq_PStr _ _) eq_refl), (dict_set_same _ _ _ Hd).
  cbn [is_none negb andb raise_if mbind result_bind]. rewrite (get_or_none_eq _ _ _ Hgv), is_v_PInt. change (1 =? 3)%Z with false.
  cbn [andb mbind result_bind].
  rewrite (init_Ok _ _ _ _ Hc) by by rewrite <- Hdom. cbn [mbind result_bind]. rewrite <- Hdom.
  assert ({| body := body c; encryption_domain_id := encryption_domain_id c |} = c) as -> by by destruct c.
  rewrite Hdi, (proj2 (py_eq_PStr _ _) eq_refl). done.
Qed.

Definition index_from (c : Catalog) (b : building) (i : ReferenceIndex) : Prop :=
  index_catalog_revision i = PInt (revision c) /\ index_repository_id i = any_repository (repository_ids b)
  /\ records i = building_records b /\ references i = snapshot_references b /\ legacy_objects i = building_legacy b.
Definition logical_ids (c : Catalog) (ids : gset LogicalJatIdentity) : Prop :=
  forall id, id ∈ ids <-> exists value, (id, value) ∈ all_entries (body c) /\ is_logical value.
Definition looped (c : Catalog) (descriptors : gmap LogicalJatIdentity LogicalJat) (b : building) : Prop :=
  exists dim dom, dimension_id c = PStr dim /\ encryption_domain_id c = PStr dom
  /\ fold_result (index_entry dim dom descriptors) building_nothing (all_entries (body c)) = Ok b.

(** [build_reference_index] returns exactly when the descriptors are those of the logical
    snapshots, the loop ends, and it met one repository at most. *)
Lemma build_iff c descriptors : made_ok c -> version_of c = PInt 3 ->
  (forall i, build_reference_index c descriptors = Ok i ->
     logical_ids c (dom descriptors) /\ exists b, looped c descriptors b /\ base.size (repository_ids b) <= 1 /\ index_from c b i)
  /\ (forall b, logical_ids c (dom descriptors) -> looped c descriptors b -> base.size (repository_ids b) <= 1 ->
     exists i, build_reference_index c descriptors = Ok i /\ index_from c b i).
Proof.
  intros Hmade Hv. pose proof Hmade as [Hs Hd]. destruct (mutable_Ok c Hs Hv) as (Hmut & dim & dd & Hdim & Hdd).
  destruct (sound_checked c Hs) as (v & projects & (_ & _ & Hgv & Hgr & _) & _).
  destruct (expected_Ok ∅ (all_entries (body c)) (entries_kinds c Hmade Hv)) as (keys & Hkeys & Hin).
  unfold version_of in Hv. rewrite (get_or_none_eq _ _ _ Hgv) in Hv. injection Hv as ->.
  assert (logical_ids c (dom descriptors) <-> dom descriptors = keys) as Hids.
  { unfold logical_ids. rewrite set_eq. setoid_rewrite Hin. split; intros Hx id; rewrite Hx; set_solver. }
  assert (build_reference_index c descriptors =
    (raise_if (negb (bool_decide (dom descriptors = keys))) (EValue "logical descriptor set is incomplete or contains unknown entries") ;;
     b ← fold_result (index_entry dim dd descriptors) building_nothing (all_entries (body c));
     raise_if (1 <? base.size (repository_ids b))%nat (EValue "logical descriptors use different Room Store repository bindings") ;;
     Ok {| index_dimension_id := dim; index_encryption_domain_id := dd; index_catalog_revision := PInt (revision c);
            index_repository_id := any_repository (repository_ids b);
            fingerprint := sha256 (dumps true (fingerprint_body dim dd (PInt (revision c)) b));
            records := building_records b; references := snapshot_references b; legacy_objects := building_legacy b |})) as Hbuild.
  { unfold build_reference_index. rewrite Hmut. cbn [mbind result_bind]. unfold get_item. rewrite Hgv, Hgr. cbn [mbind result_bind].
    change (py_eq (PInt 3) (PInt 3)) with true. cbn [negb raise_if mbind result_bind].
    rewrite Hdim, Hdd, (catalog_entries_Ok c Hs). cbn [mbind result_bind]. by rewrite Hkeys. }
  rewrite Hbuild. clear Hbuild. split.
  - intros i H1. apply bind_Ok_inv in H1 as ([] & H1%raise_if_Ok_inv & H2). apply bind_Ok_inv in H2 as (b & Hb & H2).
    apply bind_Ok_inv in H2 as ([] & H3%raise_if_Ok_inv & H2). injection H2 as <-. bools. split; [by apply Hids |].
    exists b. split; [by exists dim, dd |]. split; [by apply Nat.ltb_ge | done].
  - intros b Hdom%Hids (dim' & dd' & Hdim' & Hdd' & Hb) Hsize. rewrite Hdim in Hdim'. rewrite Hdd in Hdd'.
    injection Hdim' as <-. injection Hdd' as <-. rewrite bool_decide_true by done. cbn [negb raise_if mbind result_bind]. rewrite Hb.
    cbn [mbind result_bind]. rewrite (proj2 (Nat.ltb_ge _ _) Hsize). cbn [raise_if mbind result_bind]. by eexists.
Qed.
End build.
