(* ===== verification/ReferencesTheorems.v ===== *)
(** * The reference index: property theorems

    The index is exact, the comparison with the repository splits its snapshots into used
    ones and orphans, a removal plan forgets nothing that is still used and agrees with
    what the catalog frees, and an orphan is cleaned up after the grace period, not before. *)

From S2P Require Import Prelude PyStr PyObj PyJson JsonProps LogicalJat LogicalJatProps LogicalJatDemo LogicalJatTheorems.
From S2P Require Import Catalog CatalogProps CatalogOps CatalogLogical CatalogMade CatalogDemo CatalogTheorems.
From S2P Require Import References ReferencesProps.

(** ** What an index says *)
Definition find_id (c : Catalog) (id : LogicalJatIdentity) : option pyobj := find (body c) (room_id id) (logical_jat_id id).
(** Some record of the index uses the snapshot. *)
Definition used (i : ReferenceIndex) (r : ResticSnapshotRef) : Prop :=
  exists id record, records i !! id = Some record /\ r ∈ restic_snapshots record.

Section indexes.
Context `{PyRuntime, JsonRuntime}.

Section one.
Context (c : Catalog) (descriptors : gmap LogicalJatIdentity LogicalJat) (b : building) (i : ReferenceIndex).
Hypothesis Hmade : made_ok c.
Hypothesis Hbuilt : built descriptors (all_entries (body c)) b.
Hypothesis Hfrom : index_from c b i.

Lemma entry_find id value : (id, value) ∈ all_entries (body c) <-> find_id c id = Some value.
Proof. apply elem_of_all_entries, Hmade. Qed.
Lemma records_Some id record : records i !! id = Some record <-> exists value, find_id c id = Some value
  /\ building_records b !! id = Some record /\ record_of descriptors id value record.
Proof.
  destruct Hfrom as (_ & _ & -> & _). split; [|by intros (value & _ & ? & _)]. intros Hr.
  assert (id ∈ (all_entries (body c)).*1) as Hin by (apply (built_domain _ _ _ Hbuilt); eauto).
  apply list_elem_of_fmap in Hin as ([id' value] & -> & Hin). destruct (built_record _ _ _ Hbuilt _ _ Hin) as (record' & Hr' & Hof).
  simpl in *. exists value. split; [by apply entry_find |]. split; [done |]. congruence.
Qed.
Lemma records_total id value : find_id c id = Some value -> exists record, records i !! id = Some record /\ record_of descriptors id value record.
Proof. destruct Hfrom as (_ & _ & -> & _). intros Hf%entry_find. by apply (built_record _ _ _ Hbuilt). Qed.
Lemma links_used id value r tree role : find_id c id = Some value -> links descriptors id value r tree role ->
  exists record, records i !! id = Some record /\ r ∈ restic_snapshots record.
Proof. intros Hf Hl. destruct (records_total id value Hf) as (record & Hr & _ & _ & Hrefs). exists record. split; [done |]. apply Hrefs. eauto. Qed.
Lemma used_links r : used i r <-> exists id value tree role, find_id c id = Some value /\ links descriptors id value r tree role.
Proof.
  split.
  - intros (id & record & (value & Hf & _ & _ & _ & Hrefs)%records_Some & (tree & role & Hl)%Hrefs). eauto 10.
  - intros (id & value & tree & role & Hf & Hl). exists id. by eapply links_used.
Qed.

Lemma references_lookup r v : references i !! r = Some v <->
  exists tree, trees_by_snapshot b !! r = Some tree /\ v = {| catalog_records := default ∅ (catalog_records_by_snapshot b !! r);
    descriptor_records := default ∅ (descriptor_records_by_snapshot b !! r); roles := default ∅ (roles_by_snapshot b !! r); tree_id := tree |}.
Proof.
  destruct Hfrom as (_ & _ & _ & -> & _). unfold snapshot_references. rewrite map_lookup_imap.
  destruct (trees_by_snapshot b !! r) as [tree|]; simpl; [|naive_solver]. split; [intros [= <-]; eauto | by intros (? & [= <-] & ->)].
Qed.
Lemma references_entry r v : references i !! r = Some v ->
  descriptor_records v = catalog_records v
  /\ (forall id, id ∈ catalog_records v <-> exists record, records i !! id = Some record /\ r ∈ restic_snapshots record)
  /\ (forall role, role ∈ roles v <-> exists id value tree, find_id c id = Some value /\ links descriptors id value r tree role)
  /\ (forall id value tree role, find_id c id = Some value -> links descriptors id value r tree role -> tree = tree_id v).
Proof.
  intros (tree & Ht & ->)%references_lookup. simpl. split; [by rewrite (built_descriptors _ _ _ Hbuilt) |]. split; [|split].
  - intros id. rewrite (built_records _ _ _ Hbuilt). split.
    + intros (value & t & role & Hf%entry_find & Hl). by eapply links_used.
    + intros (record & (value & Hf & _ & _ & _ & Hrefs)%records_Some & (t & role & Hl)%Hrefs). exists value, t, role. by rewrite entry_find.
  - intros role. rewrite (built_roles _ _ _ Hbuilt). by setoid_rewrite entry_find.
  - intros id value t role Hf%entry_find Hl.
    assert (trees_by_snapshot b !! r = Some t) as Ht' by (apply (built_trees _ _ _ Hbuilt); eauto 10). congruence.
Qed.
Lemma references_used r : r ∈ dom (references i) <-> used i r.
Proof.
  rewrite elem_of_dom, used_links. split.
  - intros [v (tree & (id & value & role & Hf%entry_find & Hl)%(built_trees _ _ _ Hbuilt) & _)%references_lookup]. eauto 10.
  - intros (id & value & tree & role & Hf%entry_find & Hl). eexists. apply references_lookup. exists tree. split; [|done].
    apply (built_trees _ _ _ Hbuilt). eauto 10.
Qed.
Lemma referenced_used r : r ∈ catalog_referenced i ∪ descriptor_referenced i <-> used i r.
Proof.
  rewrite <- references_used. unfold catalog_referenced, descriptor_referenced. rewrite elem_of_union, !elem_of_dom. split.
  - by intros [[v [Hv _]%map_lookup_filter_Some]|[v [Hv _]%map_lookup_filter_Some]].
  - intros [v Hv]. left. exists v. apply map_lookup_filter_Some. split; [done |]. simpl.
    destruct (references_entry _ _ Hv) as (_ & Hids & _).
    assert (used i r) as (id & record & Hr & Hin) by (apply references_used, elem_of_dom; by exists v).
    intros Hempty. assert (id ∈ catalog_records v) by (apply Hids; eauto). set_solver.
Qed.
End one.

Lemma looped_built c descriptors b : made_ok c -> looped c descriptors b -> built descriptors (all_entries (body c)) b.
Proof.
  intros [_ Hd] (dim & dd & _ & _ & Hb). eapply (fold_inv _ (built descriptors)); [|apply built_nothing | exact Hb].
  intros done [id value] b0 b1 Hdone [rest Hprefix] He%index_entry_Ok. eapply built_step; [|exact Hdone | exact He].
  pose proof (NoDup_all_entries _ Hd) as Hnd. rewrite Hprefix, !fmap_app in Hnd.
  apply NoDup_app in Hnd as [(_ & Hnd & _)%NoDup_app _]. intros Hin. apply (Hnd _ Hin). left.
Qed.
Lemma index_built c descriptors i : made_ok c -> version_of c = PInt 3 -> build_reference_index c descriptors = Ok i ->
  exists b, built descriptors (all_entries (body c)) b /\ index_from c b i /\ looped c descriptors b
  /\ base.size (repository_ids b) <= 1 /\ logical_ids c (dom descriptors).
Proof.
  intros Hmade Hv Hi. destruct (proj1 (build_iff c descriptors Hmade Hv) i Hi) as (Hids & b & Hl & Hsize & Hfrom).
  exists b. split; [by apply looped_built | done].
Qed.

(** Every snapshot an accepted descriptor names is in its workspace's repository. *)
Lemma uses_repository d jat r tree role w : from_dict (PDict d) = Ok jat -> uses d r tree role ->
  dict_get "workspace" d = Some (PDict w) -> dict_get "repository_id" w = Some (PStr (repository_id r)).
Proof.
  intros Hf Hu Hw. destruct (accepted_components _ _ Hf) as (d' & w' & cs & [= <-] & Hw' & Hcs & _ & Hbound).
  rewrite Hw in Hw'. injection Hw' as <-. destruct Hu as [[_ (w' & Hw' & Hl & _)]|[_ (cs' & Hcs' & c & s & Hc & Hs & Hl & _)]].
  - rewrite Hw in Hw'. by injection Hw' as <-.
  - rewrite Hcs in Hcs'. injection Hcs' as <-. destruct (Hbound _ _ Hc) as [?|(c' & s' & [= <-] & Hs' & Hrep & _)]; [done |].
    rewrite Hs in Hs'. injection Hs' as <-. congruence.
Qed.
Lemma single_repository (ids : gset string) x : base.size ids <= 1 -> x ∈ ids -> any_repository ids = Some x.
Proof.
  intros Hs Hx. unfold any_repository. apply elem_of_elements in Hx. revert Hs. unfold base.size, set_size. simpl.
  destruct (elements ids) as [|y [|z l]]; simpl; [by apply not_elem_of_nil in Hx | | lia].
  by apply list_elem_of_singleton in Hx as ->.
Qed.
Lemma accepted_dict jat d : 5 <= json_depth -> accepted jat -> to_dict jat = Ok (PDict d) -> from_dict (PDict d) = Ok jat.
Proof.
  intros Hdepth (value & Hd & Hf) Hto. destruct (from_dict_inv value jat Hd Hf) as (Hp & Hc & Hj & _).
  unfold to_dict in Hto. rewrite Hj, (loads_compact _ _ dict_hook_distinct) in Hto by by eapply plain_le. injection Hto as Hto. by rewrite <- Hto.
Qed.

Section theorems.
Context (Hdepth : 5 <= json_depth) (c : Catalog) (Hmade : made c) (Hv3 : version_of c = PInt 3).
Context (descriptors : gmap LogicalJatIdentity LogicalJat) (Haccepted : forall id jat, descriptors !! id = Some jat -> accepted jat).

(** C40: the index is exact.  It has a record for every snapshot of the catalog, with its
    object key and the restic snapshots that its descriptor names, none for a legacy
    snapshot; a restic snapshot is listed exactly when some record has it, with all such
    records, their roles and the one tree they agree on; all of them are in the
    repository of the index. *)
Theorem reference_index_exact i : build_reference_index c descriptors = Ok i ->
  (forall id, is_Some (records i !! id) <-> is_Some (find_id c id))
  /\ (forall id record, records i !! id = Some record -> exists s, find_id c id = Some (PDict s)
       /\ identity record = id /\ dict_get "object_key" s = Some (PStr (object_key record))
       /\ forall r, r ∈ restic_snapshots record <-> has_key "payload_kind" s = true
            /\ exists d tree role, descriptor_of descriptors id (PDict s) d /\ uses d r tree role)
  /\ (forall r, r ∈ dom (references i) <-> exists id record, records i !! id = Some record /\ r ∈ restic_snapshots record)
  /\ (forall r v, references i !! r = Some v -> descriptor_records v = catalog_records v
       /\ (forall id, id ∈ catalog_records v <-> exists record, records i !! id = Some record /\ r ∈ restic_snapshots record)
       /\ (forall role, role ∈ roles v <-> exists id value tree, find_id c id = Some value /\ links descriptors id value r tree role)
       /\ (forall id value tree role, find_id c id = Some value -> links descriptors id value r tree role -> tree = tree_id v)
       /\ index_repository_id i = Some (repository_id r)).
Proof.
  pose proof (made_sound Hdepth c Hmade) as Hok. intros Hi. destruct (index_built c descriptors i Hok Hv3 Hi) as (b & Hbuilt & Hfrom & _ & Hsize & _).
  split; [|split; [|split]].
  - intros id. split; [intros [record Hr] | intros [value Hf]].
    + apply (records_Some c descriptors b i Hok Hbuilt Hfrom) in Hr as (value & Hf & _). by exists value.
    + destruct (records_total c descriptors b i Hok Hbuilt Hfrom id value Hf) as (record & Hr & _). by exists record.
  - intros id record (value & Hf & _ & Hid & (s & -> & Hkey & _) & Hrefs)%(records_Some c descriptors b i Hok Hbuilt Hfrom).
    exists s. split; [done |]. split; [done |]. split; [done |]. intros r. rewrite Hrefs. split.
    + intros (tree & role & (s' & [= <-] & Hk) & d & Hd & Hu). split; [done |]. by exists d, tree, role.
    + intros (Hk & d & tree & role & Hd & Hu). exists tree, role. split; [by exists s | by exists d].
  - intros r. by apply (references_used c descriptors b i Hok Hbuilt Hfrom).
  - intros r v Hr. destruct (references_entry c descriptors b i Hok Hbuilt Hfrom r v Hr) as (H1 & H2 & H3 & H4).
    split; [done |]. split; [done |]. split; [done |]. split; [done |].
    assert (used i r) as Hu by (by apply (references_used c descriptors b i Hok Hbuilt Hfrom), elem_of_dom).
    apply (used_links c descriptors b i Hok Hbuilt Hfrom) in Hu as (id & value & tree & role & Hf & Hl).
    pose proof Hl as (Hlog & d & Hd & Hu). destruct Hfrom as (_ & -> & _). apply single_repository; [done |].
    apply (built_repositories _ _ _ Hbuilt). exists id, value. split; [by apply (entry_find c Hok) |].
    split; [done |]. pose proof Hd as (jat & Hj & _ & Hto). pose proof (accepted_dict _ _ Hdepth (Haccepted _ _ Hj) Hto) as Hfd.
    destruct (accepted_components _ _ Hfd) as (d' & w & cs & [= <-] & Hw & _). exists d, w. split; [done |]. split; [done |].
    by eapply uses_repository.
Qed.

(** ** The repository *)
Lemma inventory_Ok repository inventory trees : fold_result (inventory_entry repository) ∅ inventory = Ok trees ->
  forall r tree, trees !! r = Some tree <->
    repository_id r = repository /\ {| item_snapshot_id := PStr (snapshot_id r); item_tree_id := PStr tree |} ∈ inventory.
Proof.
  set (I := fun (done : list SnapshotItem) (trees : gmap ResticSnapshotRef string) => forall r tree, trees !! r = Some tree <->
    repository_id r = repository /\ {| item_snapshot_id := PStr (snapshot_id r); item_tree_id := PStr tree |} ∈ done).
  apply (fold_inv _ I); [|intros r tree; rewrite lookup_empty; split; [done | by intros [_ ?%not_elem_of_nil]]].
  intros done [v w] trees0 trees1 HI _ Hrun r tree. unfold inventory_entry in Hrun. cbn [item_snapshot_id item_tree_id] in Hrun.
  apply bind_Ok_inv in Hrun as ([] & _ & Hrun). destruct v as [| | | |id| |]; try done. destruct w as [| | | |t| |]; try done.
  cbn [entry_key mbind result_bind] in Hrun. apply bind_Ok_inv in Hrun as ([] & Hnew%raise_if_Ok_inv & Hrun). injection Hrun as <-. bools.
  rewrite elem_of_app, list_elem_of_singleton. destruct (decide (r = {| repository_id := repository; snapshot_id := id |})) as [->|Hr].
  - rewrite lookup_insert_eq. simpl. apply not_elem_of_dom in Hnew. split; [intros [= ->]; split; [done | by right] |].
    intros [_ [Hin|[= ->]]]; [|done]. assert (trees0 !! {| repository_id := repository; snapshot_id := id |} = Some tree) as Ht by (by apply HI). congruence.
  - rewrite lookup_insert_ne by done. rewrite (HI r tree). split; [intros [? ?]; split; [done | by left] |].
    intros [Hrep [Hin|[= Hid ->]]]; [done |]. destruct r. simpl in *. congruence.
Qed.

(** The checks of [compare_restic_inventory], and its report. *)
Lemma compare_inv i info inventory report : compare_restic_inventory i info inventory = Ok report ->
  exists repository trees, info_repository_id info = PStr repository /\ report_repository_id report = repository
  /\ (forall r, index_repository_id i = Some r -> r = repository)
  /\ fold_result (inventory_entry repository) ∅ inventory = Ok trees
  /\ (forall r v, references i !! r = Some v -> forall tree, trees !! r = Some tree -> tree = tree_id v)
  /\ report_catalog_revision report = index_catalog_revision i /\ reference_index_fingerprint report = fingerprint i
  /\ inventory_snapshot_ids report = dom trees
  /\ restic_only_orphans report = dom trees ∖ (catalog_referenced i ∪ descriptor_referenced i)
  /\ missing_from_restic report = (catalog_referenced i ∪ descriptor_referenced i) ∖ dom trees
  /\ component_only report = dom (filter (fun kv => is_component_only kv.2) (references i)).
Proof.
  unfold compare_restic_inventory. intros (? & _ & H1)%bind_Ok_inv. apply bind_Ok_inv in H1 as (? & _ & H1).
  apply bind_Ok_inv in H1 as (repository & Hr & H1). destruct (info_repository_id info) as [| | | |s| |]; try done. injection Hr as ->.
  apply bind_Ok_inv in H1 as ([] & Hown%raise_if_Ok_inv & H1). apply bind_Ok_inv in H1 as (trees & Htrees & H1).
  apply bind_Ok_inv in H1 as ([] & Hmatch%for_each_Ok & H1). injection H1 as <-. bools.
  exists repository, trees. split; [done |]. split; [done |]. split; [intros r Hr; by rewrite Hr in Hown |]. split; [done |].
  split; [|done]. intros r v Hv tree Ht. rewrite Forall_forall in Hmatch.
  assert (tree_matches trees (r, v) = Ok tt) as Hm by (by apply Hmatch, elem_of_map_to_list).
  unfold tree_matches in Hm. apply raise_if_Ok_inv in Hm. bools. cbn [fst snd] in *. by rewrite Ht in *.
Qed.

(** The report splits the snapshots.  Those of the inventory are the listed ones of
    the repository; an orphan is one that no record uses, a missing snapshot one that some
    record uses and the repository lacks, and a component-only one is never used as a
    workspace; a listed snapshot has the tree that every descriptor naming it states. *)
Theorem reachability_exact i info inventory report : build_reference_index c descriptors = Ok i ->
  compare_restic_inventory i info inventory = Ok report ->
  (forall r, r ∈ inventory_snapshot_ids report <-> info_repository_id info = PStr (repository_id r)
     /\ exists tree, {| item_snapshot_id := PStr (snapshot_id r); item_tree_id := PStr tree |} ∈ inventory)
  /\ (forall r, r ∈ restic_only_orphans report <-> r ∈ inventory_snapshot_ids report /\ ~ used i r)
  /\ (forall r, r ∈ missing_from_restic report <-> used i r /\ r ∉ inventory_snapshot_ids report)
  /\ (forall r, r ∈ component_only report <-> used i r
       /\ forall id value tree role, find_id c id = Some value -> links descriptors id value r tree role -> role <> "workspace")
  /\ (forall id value r tree tree' role, find_id c id = Some value -> links descriptors id value r tree role ->
       info_repository_id info = PStr (repository_id r) ->
       {| item_snapshot_id := PStr (snapshot_id r); item_tree_id := PStr tree' |} ∈ inventory -> tree' = tree).
Proof.
  clear Haccepted. pose proof (made_sound Hdepth c Hmade) as Hok. intros Hi Hc.
  destruct (index_built c descriptors i Hok Hv3 Hi) as (b & Hbuilt & Hfrom & _).
  destruct (compare_inv _ _ _ _ Hc) as (repository & trees & Hrep & _ & _ & Htrees & Hmatch & _ & _ & Hinv & Horph & Hmiss & Hcomp).
  pose proof (inventory_Ok _ _ _ Htrees) as Hin. pose proof (referenced_used c descriptors b i Hok Hbuilt Hfrom) as Hused.
  rewrite Hinv, Horph, Hmiss, Hcomp, Hrep. split; [|split; [|split; [|split]]].
  - intros r. rewrite elem_of_dom. split; [intros [tree [Hr Ht]%Hin]; split; [congruence | eauto] |].
    intros [[= Hr] [tree Ht]]. exists tree. apply Hin. done.
  - intros r. by rewrite elem_of_difference, Hused.
  - intros r. by rewrite elem_of_difference, Hused.
  - intros r. rewrite elem_of_dom. split.
    + intros [v [Hv [Hno _]]%map_lookup_filter_Some]. destruct (references_entry c descriptors b i Hok Hbuilt Hfrom r v Hv) as (_ & _ & Hroles & _).
      split; [apply (references_used c descriptors b i Hok Hbuilt Hfrom), elem_of_dom; eauto |].
      intros id value tree role Hf Hl ->. apply Hno, Hroles. eauto 10.
    + intros [Hu Hno]. pose proof Hu as [v Hv]%(references_used c descriptors b i Hok Hbuilt Hfrom)%elem_of_dom. exists v.
      apply map_lookup_filter_Some. split; [done |]. destruct (references_entry c descriptors b i Hok Hbuilt Hfrom r v Hv) as (_ & _ & Hroles & _).
      apply (used_links c descriptors b i Hok Hbuilt Hfrom) in Hu as (id & value & tree & role & Hf & Hl). split.
      * intros (id' & value' & tree' & Hf' & Hl')%Hroles. by apply (Hno _ _ _ _ Hf' Hl').
      * cbn [snd]. assert (role ∈ roles v) as Hrole by (apply Hroles; eauto 10).
        assert (role ∈ _COMPONENTS) as Hcomponent.
        { pose proof (Hno _ _ _ _ Hf Hl). destruct Hl as (_ & d & _ & [[? _]|[? _]]); done. }
        intros Hempty. assert (role ∈ roles v ∩ list_to_set _COMPONENTS) by (apply elem_of_intersection; by rewrite elem_of_list_to_set).
        set_solver.
  - intros id value r tree tree' role Hf Hl [= Hr] Ht.
    assert (used i r) as [v Hv]%(references_used c descriptors b i Hok Hbuilt Hfrom)%elem_of_dom
      by (apply (used_links c descriptors b i Hok Hbuilt Hfrom); eauto 10).
    destruct (references_entry c descriptors b i Hok Hbuilt Hfrom r v Hv) as (_ & _ & _ & Htree). rewrite (Htree _ _ _ _ Hf Hl).
    apply (Hmatch r v Hv). by apply Hin.
Qed.

(** ** Removing a record *)
(** Some record other than the one of [id] uses the snapshot. *)
Definition used_elsewhere (i : ReferenceIndex) (id : LogicalJatIdentity) (r : ResticSnapshotRef) : Prop :=
  exists x record, x <> id /\ records i !! x = Some record /\ r ∈ restic_snapshots record.
Lemma elem_of_remaining i id r :
  r ∈ ⋃ ((fun kv => restic_snapshots kv.2) <$> map_to_list (delete id (records i))) <-> used_elsewhere i id r.
Proof.
  rewrite elem_of_union_list. split.
  - intros (s & ([x record] & -> & Hx)%list_elem_of_fmap & Hr). apply elem_of_map_to_list, lookup_delete_Some in Hx as [Hx Hrec].
    exists x, record. done.
  - intros (x & record & Hx & Hrec & Hr). exists (restic_snapshots record). split; [|done]. apply list_elem_of_fmap. exists (x, record).
    split; [done |]. by apply elem_of_map_to_list, lookup_delete_Some.
Qed.
Lemma plan_total i report id target r : records i !! id = Some target -> index_catalog_revision i = PInt r ->
  report_catalog_revision report = index_catalog_revision i -> reference_index_fingerprint report = fingerprint i ->
  (forall x, index_repository_id i = Some x -> x = report_repository_id report) ->
  exists plan, plan_catalog_record_removal i report id = Ok plan
  /\ (forall k, k ∈ object_keys_to_delete plan <-> k = object_key target
       /\ ~ exists x record, x <> id /\ records i !! x = Some record /\ object_key record = k)
  /\ (forall s, s ∈ snapshot_ids_to_forget plan <-> (s ∈ restic_snapshots target /\ ~ used_elsewhere i id s) /\ s ∈ inventory_snapshot_ids report)
  /\ (forall s, s ∈ missing_snapshot_ids plan <-> (s ∈ restic_snapshots target /\ ~ used_elsewhere i id s) /\ s ∉ inventory_snapshot_ids report).
Proof.
  intros Htarget Hrev Hr1 Hr2 Hrep. unfold plan_catalog_record_removal. rewrite Hr1, Hr2, Hrev, Htarget.
  assert (py_eq (PInt r) (PInt r) = true) as -> by (simpl; by rewrite bool_decide_true).
  rewrite (bool_decide_true (fingerprint i = fingerprint i)) by done. cbn [negb orb raise_if mbind result_bind].
  assert (repository_or (index_repository_id i) (report_repository_id report) = report_repository_id report) as ->.
  { destruct (index_repository_id i) as [x|]; [|done]. rewrite (Hrep x eq_refl). simpl. by case_bool_decide. }
  rewrite (bool_decide_true (report_repository_id report = _)) by done. cbn [negb raise_if mbind result_bind]. eexists. split; [done |]. cbn.
  split; [|split].
  - intros k. destruct (existsb _ _) eqn:He.
    + split; [by intros ?%not_elem_of_empty |]. intros [-> Hno]. destruct Hno. apply existsb_exists in He as ([x record] & Hx & Hk).
      apply list_elem_of_In, elem_of_map_to_list, lookup_delete_Some in Hx as [Hx Hrec]. apply bool_decide_eq_true in Hk. exists x, record. done.
    + rewrite elem_of_singleton. split; [|by intros []]. intros ->. split; [done |]. intros (x & record & Hx & Hrec & Hk).
      apply not_true_iff_false in He. apply He, existsb_exists. exists (x, record). split; [|by apply bool_decide_eq_true].
      by apply list_elem_of_In, elem_of_map_to_list, lookup_delete_Some.
  - intros s. by rewrite elem_of_intersection, elem_of_difference, elem_of_remaining.
  - intros s. by rewrite !elem_of_difference, elem_of_remaining.
Qed.

(** The loop over the catalog without the entry. *)
Lemma index_entry_delete dim dd id b entry : entry.1 <> id ->
  index_entry dim dd (delete id descriptors) b entry = index_entry dim dd descriptors b entry.
Proof.
  intros Hne. destruct entry as [x value]. unfold index_entry. cbn [fst snd] in *. destruct (as_object value); [|done]. cbn [mbind result_bind].
  destruct (get_str _ _); [|done]. cbn [mbind result_bind]. destruct (has_key _ _); [|done]. unfold index_logical.
  by rewrite lookup_delete_ne by done.
Qed.
Lemma fold_ext {A B} (f g : B -> A -> result B) l b : (forall x b, x ∈ l -> f b x = g b x) -> fold_result f b l = fold_result g b l.
Proof.
  revert b. induction l as [|x l IH]; intros b Hfg; [done |]. cbn [fold_result]. rewrite (Hfg x b) by left.
  destruct (g b x); [|done]. cbn [mbind result_bind]. apply IH. intros. apply Hfg. by right.
Qed.
Lemma links_delete id x value r tree role : x <> id -> links (delete id descriptors) x value r tree role <-> links descriptors x value r tree role.
Proof. intros Hx. unfold links, descriptor_of. by rewrite lookup_delete_ne by done. Qed.

Lemma rebuilt c' i id : made_ok c -> build_reference_index c descriptors = Ok i -> made_ok c' -> version_of c' = PInt 3 ->
  dimension_id c' = dimension_id c -> encryption_domain_id c' = encryption_domain_id c ->
  sublist (all_entries (body c')) (all_entries (body c)) ->
  (forall x v, (x, v) ∈ all_entries (body c') <-> (x, v) ∈ all_entries (body c) /\ x <> id) ->
  exists i', build_reference_index c' (delete id descriptors) = Ok i' /\ forall r, used i' r <-> used_elsewhere i id r.
Proof.
  intros Hok Hi Hok' Hv' Hdim Hdom Hsub Hin. destruct (index_built c descriptors i Hok Hv3 Hi) as (b & Hbuilt & Hfrom & Hl & Hsize & Hids).
  destruct Hl as (dim & dd & Hd1 & Hd2 & Hb).
  destruct (fold_sublist (index_entry dim dd descriptors) smaller (all_entries (body c)) (all_entries (body c')) building_nothing b building_nothing)
    as (b' & Hb' & _ & Hreps); [| |exact Hsub | by split | exact Hb |].
  { intros b0 [x v] b1 c0 Hs Hr. by eapply index_entry_grows. }
  { intros b0 [x v] b1 c0 Hs Hr. by eapply index_entry_smaller. }
  assert (looped c' (delete id descriptors) b') as Hl'.
  { exists dim, dd. rewrite Hdim, Hdom. split; [done |]. split; [done |]. rewrite <- Hb'. apply fold_ext. intros [x v] b0 [_ Hx]%Hin.
    by apply index_entry_delete. }
  assert (logical_ids c' (dom (delete id descriptors))) as Hids'.
  { intros x. rewrite dom_delete, elem_of_difference, elem_of_singleton, (Hids x). setoid_rewrite Hin. naive_solver. }
  destruct (proj2 (build_iff c' (delete id descriptors) Hok' Hv') b' Hids' Hl') as (i' & Hi' & Hfrom').
  { pose proof (subseteq_size _ _ Hreps). lia. }
  exists i'. split; [done |]. intros r. pose proof (looped_built _ _ _ Hok' Hl') as Hbuilt'.
  rewrite (used_links c' _ b' i' Hok' Hbuilt' Hfrom'). setoid_rewrite <- (entry_find c' Hok'). setoid_rewrite Hin. split.
  - intros (x & value & tree & role & [Hx Hne] & Hlinks%links_delete); [|done].
    destruct (links_used c descriptors b i Hok Hbuilt Hfrom x value r tree role) as (record & Hr & Hrefs); [by apply (entry_find c Hok) | done |].
    by exists x, record.
  - intros (x & record & Hne & (value & Hf & _ & _ & _ & Hrefs)%(records_Some c descriptors b i Hok Hbuilt Hfrom) & (tree & role & Hlinks)%Hrefs).
    exists x, value, tree, role. rewrite links_delete, (entry_find c Hok) by done. done.
Qed.

(** C17: a removal plan forgets exactly what becomes unused.  For a record of the catalog
    the plan exists, the catalog can remove the record, and the index of what remains can
    be built; the plan's object keys are those the catalog frees, and it forgets, or
    reports as missing, exactly the snapshots that the old index uses and the new does
    not. *)
Theorem removal_plan_safe i info inventory report id value : build_reference_index c descriptors = Ok i ->
  compare_restic_inventory i info inventory = Ok report -> find_id c id = Some value ->
  exists plan c' keys emptied i', plan_catalog_record_removal i report id = Ok plan
  /\ remove_snapshot c (room_id id) (logical_jat_id id) = Ok (c', keys, emptied)
  /\ build_reference_index c' (delete id descriptors) = Ok i'
  /\ (forall k, k ∈ object_keys_to_delete plan <-> k ∈ keys)
  /\ (forall r, r ∈ snapshot_ids_to_forget plan <-> (used i r /\ ~ used i' r) /\ r ∈ inventory_snapshot_ids report)
  /\ (forall r, r ∈ missing_snapshot_ids plan <-> (used i r /\ ~ used i' r) /\ r ∉ inventory_snapshot_ids report).
Proof.
  clear Haccepted. pose proof (made_sound Hdepth c Hmade) as Hok. intros Hi Hc Hf.
  destruct (index_built c descriptors i Hok Hv3 Hi) as (b & Hbuilt & Hfrom & _).
  destruct (compare_inv _ _ _ _ Hc) as (repository & trees & _ & Hrep & Hown & _ & _ & Hr1 & Hr2 & _).
  destruct (records_total c descriptors b i Hok Hbuilt Hfrom id value Hf) as (target & Htarget & _ & (s & -> & Hkey & _) & Hrefs).
  destruct (plan_total i report id target (revision c) Htarget (proj1 Hfrom) Hr1 Hr2) as (plan & Hplan & Hobj & Hforget & Hmissing);
    [intros x Hx; rewrite Hrep; by apply Hown |].
  destruct (remove_entry c id (PDict s) Hok Hv3 Hf) as (c' & keys & emptied & Hrem & Hok' & Hv' & Hdim & Hdom & Hsub & Hin & Hkeys).
  destruct (rebuilt c' i id Hok Hi Hok' Hv' Hdim Hdom Hsub Hin) as (i' & Hi' & Hused').
  assert (forall r, (used i r /\ ~ used i' r) <-> (r ∈ restic_snapshots target /\ ~ used_elsewhere i id r)) as Hunused.
  { intros r. rewrite Hused'. split; intros [Hu Hn]; (split; [|done]); [|by exists id, target].
    destruct Hu as (x & record & Hx & Hr). destruct (decide (x = id)) as [->|Hne]; [congruence |]. destruct Hn. by exists x, record. }
  exists plan, c', keys, emptied, i'. split; [done |]. split; [done |]. split; [done |].
  split; [|split; intros r; by rewrite ?Hforget, ?Hmissing, Hunused].
  intros k. rewrite Hobj, Hkeys. split.
  - intros [-> Hno]. split; [by exists s |]. intros (x & v & [Hx%(entry_find c Hok) Hne]%Hin & (s' & -> & Hk')).
    destruct (records_total c descriptors b i Hok Hbuilt Hfrom x _ Hx) as (record & Hr & _ & (s2 & [= <-] & Hk2 & _) & _).
    apply Hno. exists x, record. split; [done |]. split; [done |]. congruence.
  - intros [(s' & [= <-] & Hk') Hno]. split; [congruence |]. intros (x & record & Hne & Hr & <-). apply Hno.
    apply (records_Some c descriptors b i Hok Hbuilt Hfrom) in Hr as (v & Hv & _ & _ & (s2 & -> & Hk2 & _) & _).
    exists x, (PDict s2). split; [apply Hin; split; [by apply (entry_find c Hok) | done] | by exists s2].
Qed.

(** ** Cleaning up *)
(** The evidence is of the snapshot, with two observations or more in order. *)
Definition observed (report : ResticReachabilityReport) (r : ResticSnapshotRef) (item : GracePeriodEvidence) (first last : datetime) : Prop :=
  evidence_repository_id item = report_repository_id report /\ evidence_snapshot_id item = snapshot_id r
  /\ first_observed_at item = Some first /\ last_observed_at item = Some last /\ aware first = true /\ aware last = true
  /\ (exists n, observation_count item = PInt n /\ (2 <= n)%Z) /\ not_after first last = true.
Lemma qualified_Ok report now grace r item : qualified report now grace r item = true <->
  exists first last, observed report r item first last /\ not_after last now = true /\ (grace <= elapsed now first)%Z.
Proof.
  unfold qualified, observed. split.
  - destruct (first_observed_at item) as [first|]; [|done]. destruct (last_observed_at item) as [last|]; [|done]. intros Hq. bools.
    exists first, last. destruct (observation_count item) as [| |n| | | |]; try done. bools. eauto 15.
  - intros (first & last & (H1 & H2 & -> & -> & -> & -> & (n & -> & Hn) & ->) & -> & Hg).
    rewrite !bool_decide_true by done. by rewrite (proj2 (Z.leb_le 2 n) Hn), (proj2 (Z.leb_le _ _) Hg).
Qed.
Definition at_time (z : nat) (o t : Z) : datetime := {| wall := t; zone := Some z; offset := Some o |}.
(** Time passes: the time elapsed since any moment grows with the clock. *)
Lemma elapsed_linear z o a : exists k, forall t, elapsed (at_time z o t) a = (t - k)%Z /\ elapsed a (at_time z o t) = (k - t)%Z.
Proof.
  unfold elapsed, at_time. simpl. destruct (decide (Some z = zone a)) as [Hz|Hz].
  - exists (wall a). intros t. rewrite !bool_decide_true by done. done.
  - exists (wall a - default 0 (offset a) + o)%Z. intros t. rewrite !bool_decide_false by (try done; congruence). lia.
Qed.
Lemma cleanup_total report evidence now grace : aware now = true -> (0 < grace)%Z -> dom evidence ⊆ restic_only_orphans report ->
  exists plan, plan_orphan_cleanup report evidence now grace = Ok plan
  /\ forall r, r ∈ eligible_snapshot_ids plan <-> is_eligible report evidence now grace r = true /\ r ∈ restic_only_orphans report.
Proof.
  intros Hn Hg He. unfold plan_orphan_cleanup. rewrite Hn, (proj2 (Z.leb_gt _ _) Hg), bool_decide_true by done.
  cbn [negb raise_if mbind result_bind]. eexists. split; [done |]. intros r. cbn [eligible_snapshot_ids]. by rewrite elem_of_filter.
Qed.

(** Orphans are cleaned up after the grace period and not before.  Every snapshot a
    plan calls eligible is in the repository, is used by no record of the catalog, and
    was observed twice or more, in order, the first time at least the grace period ago;
    the other orphans are reported as lacking evidence.  And an orphan with evidence of
    two observations becomes eligible: from some time on every plan lists it. *)
Theorem orphan_cleanup_progress i info inventory report : build_reference_index c descriptors = Ok i ->
  compare_restic_inventory i info inventory = Ok report ->
  (forall evidence now grace plan, plan_orphan_cleanup report evidence now grace = Ok plan ->
     (forall r, r ∈ eligible_snapshot_ids plan -> r ∈ inventory_snapshot_ids report /\ ~ used i r
        /\ exists item first last, evidence !! r = Some item /\ plan_evidence plan !! r = Some item /\ observed report r item first last
           /\ not_after last now = true /\ (grace <= elapsed now first)%Z)
     /\ (forall r, r ∈ missing_evidence plan <-> r ∈ restic_only_orphans report /\ r ∉ eligible_snapshot_ids plan))
  /\ (forall evidence grace r item first last z o, (0 < grace)%Z -> dom evidence ⊆ restic_only_orphans report ->
     evidence !! r = Some item -> observed report r item first last ->
     exists t0, forall t, (t0 <= t)%Z -> exists plan, plan_orphan_cleanup report evidence (at_time z o t) grace = Ok plan
                                         /\ r ∈ eligible_snapshot_ids plan).
Proof.
  clear Haccepted. pose proof (made_sound Hdepth c Hmade) as Hok. intros Hi Hc. destruct (index_built c descriptors i Hok Hv3 Hi) as (b & Hbuilt & Hfrom & _).
  destruct (compare_inv _ _ _ _ Hc) as (repository & trees & _ & _ & _ & _ & _ & _ & _ & Hinv & Horph & _).
  pose proof (referenced_used c descriptors b i Hok Hbuilt Hfrom) as Hused. split.
  - intros evidence now grace plan Hplan. unfold plan_orphan_cleanup in Hplan. inv_result. cbn [eligible_snapshot_ids missing_evidence plan_evidence].
    split; intros r.
    + intros [He Ho]%elem_of_filter. pose proof He as Helig. unfold is_eligible in He. destruct (evidence !! r) as [item|] eqn:Hitem; [|done].
      apply qualified_Ok in He as (first & last & Hobs & Hlast & Hgrace). pose proof Ho as Ho'. rewrite Horph in Ho'. apply elem_of_difference in Ho' as [Hin Hno].
      rewrite Hinv. split; [done |]. split; [by rewrite <- Hused |]. exists item, first, last. split; [done |]. split; [|done].
      apply map_lookup_filter_Some. split; [done |]. cbn [fst]. by apply elem_of_filter.
    + rewrite !elem_of_filter. destruct (is_eligible report evidence now grace r); naive_solver.
  - intros evidence grace r item first last z o Hg Hdom Hitem Hobs.
    destruct (elapsed_linear z o first) as (k1 & Hk1). destruct (elapsed_linear z o last) as (k2 & Hk2).
    exists (Z.max (k1 + grace) k2). intros t Ht. destruct (cleanup_total report evidence (at_time z o t) grace) as (plan & Hplan & Hel); [done..|].
    exists plan. split; [done |]. apply Hel. split; [|apply Hdom, elem_of_dom; by exists item]. unfold is_eligible. rewrite Hitem.
    apply qualified_Ok. exists first, last. split; [done |]. unfold not_after. destruct (Hk1 t) as [-> _]. destruct (Hk2 t) as [_ ->].
    split; [apply Z.leb_le; lia | lia].
Qed.
End theorems.
End indexes.

(** ** Witnesses *)
Definition demo_id : LogicalJatIdentity := {| room_id := "room"; logical_jat_id := "jat-1" |}.
Definition demo_descriptors : gmap LogicalJatIdentity LogicalJat := {[demo_id := demo_jat]}.
Lemma demo_descriptors_accepted id jat : demo_descriptors !! id = Some jat -> accepted jat.
Proof. unfold demo_descriptors. intros [_ <-]%lookup_singleton_Some. exact demo_jat_accepted. Qed.
Definition value_of {A} (d : A) (m : result A) : A := match m with Ok a => a | Raise _ => d end.
Definition no_index : ReferenceIndex :=
  {| index_dimension_id := ""; index_encryption_domain_id := ""; index_catalog_revision := PNone; index_repository_id := None;
     fingerprint := ""; records := ∅; references := ∅; legacy_objects := ∅ |}.
Definition no_report : ResticReachabilityReport :=
  {| report_repository_id := ""; report_catalog_revision := PNone; reference_index_fingerprint := ""; report_catalog_referenced := ∅;
     report_descriptor_referenced := ∅; inventory_snapshot_ids := ∅; restic_only_orphans := ∅; missing_from_restic := ∅;
     component_only := ∅; report_legacy_objects := ∅ |}.
Definition demo_index : ReferenceIndex := value_of no_index (build_reference_index demo_logical demo_descriptors).
(** The repository holds the workspace's snapshot and one of no descriptor. *)
Definition demo_info : RepositoryInfo := {| info_repository_id := PStr digest_a; repository_format := PInt 2 |}.
Definition demo_inventory : list SnapshotItem :=
  [{| item_snapshot_id := PStr digest_a; item_tree_id := PStr digest_b |}; {| item_snapshot_id := PStr digest_c; item_tree_id := PStr digest_a |}].
Definition demo_report : ResticReachabilityReport := value_of no_report (compare_restic_inventory demo_index demo_info demo_inventory).
Lemma value_ok {A} (d : A) m : is_ok m = true -> m = Ok (value_of d m).
Proof. by destruct m. Qed.
Lemma demo_index_built : build_reference_index demo_logical demo_descriptors = Ok demo_index.
Proof. apply value_ok. vm_compute. reflexivity. Qed.
Lemma demo_report_made : compare_restic_inventory demo_index demo_info demo_inventory = Ok demo_report.
Proof. apply value_ok. vm_compute. reflexivity. Qed.
Lemma demo_v3 : version_of demo_logical = PInt 3.
Proof. vm_compute. reflexivity. Qed.
Lemma demo_found : exists value, find_id demo_logical demo_id = Some value.
Proof. assert (is_Some (find_id demo_logical demo_id)) as [value Hv] by (apply (bool_decide_eq_true_1 _); vm_compute; reflexivity). eauto. Qed.

Definition demo_orphan : ResticSnapshotRef := {| repository_id := digest_a; snapshot_id := digest_c |}.
Definition demo_used : ResticSnapshotRef := {| repository_id := digest_a; snapshot_id := digest_a |}.

Lemma reference_index_exact_witness : demo_used ∈ dom (references demo_index)
  /\ exists id record, records demo_index !! id = Some record /\ demo_used ∈ restic_snapshots record.
Proof.
  destruct (reference_index_exact demo_depth demo_logical demo_logical_made demo_v3 demo_descriptors demo_descriptors_accepted
    demo_index demo_index_built) as (_ & _ & Hrefs & _).
  assert (demo_used ∈ dom (references demo_index)) as Hin by (apply (bool_decide_eq_true_1 _); vm_compute; reflexivity).
  split; [exact Hin | apply Hrefs; exact Hin].
Defined.
Lemma reachability_exact_witness : demo_orphan ∈ restic_only_orphans demo_report /\ ~ used demo_index demo_orphan.
Proof.
  destruct (reachability_exact demo_depth demo_logical demo_logical_made demo_v3 demo_descriptors
    demo_index demo_info demo_inventory demo_report demo_index_built demo_report_made) as (_ & Horph & _).
  assert (demo_orphan ∈ restic_only_orphans demo_report) as Hin by (apply (bool_decide_eq_true_1 _); vm_compute; reflexivity).
  split; [exact Hin | apply Horph; exact Hin].
Defined.
Lemma removal_plan_safe_witness : exists plan c' keys emptied i', plan_catalog_record_removal demo_index demo_report demo_id = Ok plan
  /\ remove_snapshot demo_logical "room" "jat-1" = Ok (c', keys, emptied)
  /\ build_reference_index c' (delete demo_id demo_descriptors) = Ok i'
  /\ (forall k, k ∈ object_keys_to_delete plan <-> k ∈ keys).
Proof.
  destruct demo_found as [value Hvalue].
  destruct (removal_plan_safe demo_depth demo_logical demo_logical_made demo_v3 demo_descriptors
    demo_index demo_info demo_inventory demo_report demo_id value demo_index_built demo_report_made Hvalue)
    as (plan & c' & keys & emptied & i' & H1 & H2 & H3 & H4 & _).
  exists plan, c', keys, emptied, i'. split; [exact H1 |]. split; [exact H2 |]. split; [exact H3 | exact H4].
Defined.
Definition demo_evidence : GracePeriodEvidence :=
  {| evidence_repository_id := digest_a; evidence_snapshot_id := digest_c; first_observed_at := Some (at_time 0 0 100);
     last_observed_at := Some (at_time 0 0 200); observation_count := PInt 2 |}.
Definition demo_evidences : gmap ResticSnapshotRef GracePeriodEvidence := {[demo_orphan := demo_evidence]}.
Lemma orphan_cleanup_progress_witness : exists t0, forall t, (t0 <= t)%Z ->
  exists plan, plan_orphan_cleanup demo_report demo_evidences (at_time 0 0 t) 1000 = Ok plan /\ demo_orphan ∈ eligible_snapshot_ids plan.
Proof.
  destruct (orphan_cleanup_progress demo_depth demo_logical demo_logical_made demo_v3 demo_descriptors
    demo_index demo_info demo_inventory demo_report demo_index_built demo_report_made) as (_ & Hprogress).
  apply (Hprogress demo_evidences 1000%Z demo_orphan demo_evidence (at_time 0 0 100) (at_time 0 0 200) 0 0%Z).
  - reflexivity.
  - apply (bool_decide_eq_true_1 _). vm_compute. reflexivity.
  - apply lookup_singleton_eq.
  - split; [vm_compute; reflexivity |]. split; [reflexivity |]. split; [reflexivity |]. split; [reflexivity |].
    split; [reflexivity |]. split; [reflexivity |]. split; [exists 2%Z; split; [reflexivity | lia] | reflexivity].
Defined.
