(* ===== verification/Policy.v ===== *)
(** * Capture policy ([src/josh_room/policy.py])

    The validated policy configuration, its loader and the decision function.
    [decide] is the whole of [policy.decide], guards in source order. *)

From S2P Require Import Prelude PyStr PyObj PyUrl.
From Stdlib Require Import Ascii.

(** ** Constants *)
Definition PROFILE_NAMES : list string := ["personal"; "work"; "oss"; "homelab"].
Definition POLICY_SCHEMA_URI : string :=
  "https://josh-room.invalid/schemas/capture-policy-v1.schema.json".
Definition CAPTURE_MODES : list string := ["metadata-only"; "transcript"; "transcript-and-assets"].
Definition TRIGGERS : list string := ["manual"; "session-end"; "stop"; "subagent-stop"; "reconcile"].
Definition PATH_KINDS : list string :=
  ["directory"; "worktree"; "remote"; "wsl"; "symlink"; "unknown"].

(** [^[a-z][a-z0-9._-]{0,63}$] *)
Definition IDENTIFIER_RE : re :=
  RCat (RCls is_lower) (upto 63 (RCls (fun c => is_lower c || is_digit c || one_of "._-" c))).
(** [^[a-z0-9.-]{1,253}$] *)
Definition HOST_RE : re := between 1 253 (RCls (fun c => is_lower c || is_digit c || one_of ".-" c)).
(** [^[A-Za-z0-9._-]{1,128}$] *)
Definition PART_RE : re := between 1 128 (RCls (fun c => is_alnum c || one_of "._-" c)).
(** [^[a-z][a-z0-9]*(?:[.-][a-z0-9]+)*$] *)
Definition SOURCE_RE : re :=
  let w := RCls (fun c => is_lower c || is_digit c) in
  RCat (RCls is_lower) (RCat (RStar w) (RStar (RCat (RCls (one_of ".-")) (plus w)))).
(** [^[a-z][a-z0-9.-]{2,63}$] *)
Definition REASON_RE : re :=
  RCat (RCls is_lower) (between 2 63 (RCls (fun c => is_lower c || is_digit c || one_of ".-" c))).
Definition SECRET_SOURCE_MARKERS : list string :=
  ["access"; "auth"; "bearer"; "cookie"; "credential"; "identity"; "key"; "password"; "secret"; "token"].
Definition DOT_SEGMENTS : list string := ["."; ".."].
Definition LOGICAL_SOURCE_MAX_ITEMS : nat := 32.
Definition LOGICAL_SOURCE_MAX_LENGTH : nat := 96.
Definition REPOSITORY_NAMESPACE_MAX_LENGTH : nat := 128.
Definition REPOSITORY_NAME_MAX_LENGTH : nat := 128.
Definition CAPTURE_SIZE_FIELDS : list string :=
  ["record_bytes"; "asset_bytes"; "session_bytes"; "outbox_bytes"].

(** ** Scalar validators *)
Definition _identifier (value : pyobj) : result string :=
  match value with
  | PStr s => if fullmatch IDENTIFIER_RE s then Ok s else Raise (EPolicyConfig "policy.invalid-identifier")
  | _ => Raise (EPolicyConfig "policy.invalid-identifier")
  end.

Definition _string (value : pyobj) : result string :=
  match value with
  | PStr s =>
      if bool_decide (s = "") || str_any is_control s then Raise (EPolicyConfig "policy.invalid-string")
      else Ok s
  | _ => Raise (EPolicyConfig "policy.invalid-string")
  end.

Definition _positive_int (value : pyobj) : result Z :=
  match value with
  | PInt z => if (z <? 1)%Z then Raise (EPolicyConfig "policy.invalid-limit") else Ok z
  | _ => Raise (EPolicyConfig "policy.invalid-limit")
  end.

Definition _validate_capture_size (value : pyobj) : result Z :=
  match value with PInt z => Ok z | _ => Raise (EPolicyInput "size.invalid") end.

(** ** Logical sources *)
Definition all_strings (l : list pyobj) : option (list string) := mapM as_str l.

Definition secret_like (source : string) : bool :=
  existsb (fun segment => existsb (fun marker => contains marker segment) SECRET_SOURCE_MARKERS)
    (py_split "." (removeprefix "codex." source)).

Definition check_logical_source (source : string) : result unit :=
  raise_if ((LOGICAL_SOURCE_MAX_LENGTH <? py_len source)%nat
            || negb (fullmatch SOURCE_RE source)
            || negb (startswith "codex." source)) (EPolicyInput "source.invalid") ;;
  raise_if (secret_like source) (EPolicyInput "source.secret-like").

Definition sanitize_logical_sources (values : pyobj) (allow_empty : bool) : result (list string) :=
  match values with
  | PList sources =>
      let bad := (match sources with [] => true | _ => false end && negb allow_empty)
                 || (LOGICAL_SOURCE_MAX_ITEMS <? length sources)%nat in
      match bad, all_strings sources with
      | false, Some sources =>
          raise_if (negb (bool_decide (NoDup sources))) (EPolicyInput "source.invalid") ;;
          for_each check_logical_source sources ;;
          Ok sources
      | _, _ => Raise (EPolicyInput "source.invalid")
      end
  | _ => Raise (EPolicyInput "source.invalid")
  end.

(** ** Repository identity *)
Record RepositoryIdentity := { repo_host : string; repo_namespace : string; repo_name : string }.

#[export] Instance RepositoryIdentity_eq_dec : EqDecision RepositoryIdentity.
Proof. solve_decision. Defined.

Definition host_ok (host : string) : bool :=
  fullmatch HOST_RE (py_lower host) && bool_decide (host = py_lower host).
Definition namespace_ok (namespace : string) : bool :=
  let parts := py_split "/" namespace in
  bool_decide (namespace ≠ "")
  && (py_len namespace <=? REPOSITORY_NAMESPACE_MAX_LENGTH)%nat
  && forallb (fun part => bool_decide (part ∉ DOT_SEGMENTS)) parts
  && forallb (fullmatch PART_RE) parts.
Definition name_ok (name : string) : bool :=
  (py_len name <=? REPOSITORY_NAME_MAX_LENGTH)%nat
  && bool_decide (name ∉ DOT_SEGMENTS) && fullmatch PART_RE name.

(** [RepositoryIdentity(host, namespace, name)] with its [__post_init__]. *)
Definition RepositoryIdentity_init (host namespace name : pyobj) : result RepositoryIdentity :=
  match as_str host with
  | Some h =>
      raise_if (negb (host_ok h)) (EValue "repository host is not sanitized") ;;
      match as_str namespace with
      | Some ns =>
          raise_if (negb (namespace_ok ns)) (EValue "repository namespace is not sanitized") ;;
          match as_str name with
          | Some n =>
              raise_if (negb (name_ok n)) (EValue "repository name is not sanitized") ;;
              Ok {| repo_host := h; repo_namespace := ns; repo_name := n |}
          | None => Raise (EValue "repository name is not sanitized")
          end
      | None => Raise (EValue "repository namespace is not sanitized")
      end
  | None => Raise (EValue "repository host is not sanitized")
  end.

Definition bad_remote : exn := EValue "repository remote is invalid".
Definition credential_remote : exn := EValue "credential-bearing repository remote is rejected".

(** [^[^/@:]+:[^@]+@] as a prefix and [^[^/@]+@[^:]+:.+$] *)
Definition SCP_CREDENTIAL_RE : re :=
  RCat (plus (RCls (fun c => negb (one_of "/@:" c))))
    (RCat (chr ":") (RCat (plus (RCls (fun c => negb (one_of "@" c)))) (chr "@"))).
Definition SCP_RE : re :=
  RCat (plus (RCls (fun c => negb (one_of "/@" c))))
    (RCat (chr "@") (RCat (plus (RCls (fun c => negb (one_of ":" c))))
      (RCat (chr ":") (plus (RCls (fun c => negb (bool_decide (c = "010"%char)))))))).

Section remote.
Context `{UrlRuntime}.

(** The host and path named by a remote: [git@host:path] or a URL. *)
Definition remote_host_path (remote : string) : result (string * string) :=
  if fullmatch SCP_RE remote then
    match py_partition "@" remote with
    | (user, Some rest) =>
        raise_if (bool_decide (user ≠ "git")) credential_remote ;;
        match py_partition ":" rest with
        | (host, Some path) => Ok (host, path)
        | _ => Raise bad_remote
        end
    | _ => Raise bad_remote
    end
  else
    parsed ← reraise is_value_error bad_remote (urlsplit remote);
    match bool_decide (url_scheme parsed ∈ ["http"; "https"; "ssh"; "git"]), url_hostname parsed with
    | true, Some host =>
        let '(username, password) := url_userinfo parsed in
        let web := bool_decide (url_scheme parsed ∈ ["http"; "https"]) in
        raise_if (bool_decide (is_Some password)
                  || match username with
                     | Some user => web || bool_decide (user ≠ "git")
                     | None => false
                     end) credential_remote ;;
        raise_if (bool_decide (url_query parsed ≠ "") || bool_decide (url_fragment parsed ≠ "")) bad_remote ;;
        Ok (host, url_path parsed)
    | _, _ => Raise bad_remote
    end.

Definition from_remote (remote : string) : result RepositoryIdentity :=
  raise_if (bool_decide (remote = "") || str_any (fun c => is_control c || is_space c) remote) bad_remote ;;
  raise_if (negb (contains "://" remote) && prefixmatch SCP_CREDENTIAL_RE remote) credential_remote ;;
  '(host, path) ← remote_host_path remote;
  let host := py_rstrip (fun c => bool_decide (c = "."%char)) (py_lower host) in
  raise_if (negb (fullmatch HOST_RE host)) bad_remote ;;
  let path := py_strip (fun c => bool_decide (c = "/"%char)) (unquote path) in
  raise_if (existsb (fun part => bool_decide (part ∈ DOT_SEGMENTS)) (py_split "/" path))
    (EValue "repository remote contains a dot segment") ;;
  let parts := py_split "/" (removesuffix ".git" path) in
  raise_if ((length parts <? 2)%nat || negb (forallb (fullmatch PART_RE) parts)) bad_remote ;;
  RepositoryIdentity_init (PStr host)
    (PStr (py_join "/" (take (length parts - 1) parts)))
    (PStr (default "" (last parts))).

(** The drive pattern of [normalize_workspace_path]: an optional slash, a
    letter, a colon, then the end or a slash and the rest. *)
Definition drive_match (path : string) : option (ascii * string) :=
  match chars (removeprefix "/" path) with
  | c :: ":"%char :: rest =>
      if is_alpha c then
        match rest with
        | [] => Some (c, "")
        | "/"%char :: rest => Some (c, of_chars rest)
        | _ => None
        end
      else None
  | _ => None
  end.
Definition drive_prefix (path : string) : bool :=
  match chars (removeprefix "/" path) with
  | c :: ":"%char :: _ => is_alpha c
  | _ => false
  end.
(** [re.sub(r"/{2,}", "/", path)] *)
Fixpoint collapse_slashes (s : list ascii) : list ascii :=
  match s with
  | "/"%char :: (("/"%char :: _) as s') => collapse_slashes s'
  | c :: s' => c :: collapse_slashes s'
  | [] => []
  end.

Definition normalize_workspace_path (value : string) : result string :=
  raise_if (bool_decide (value = "") || str_any is_control value) (EValue "workspace path is invalid") ;;
  let path := replace_char "\" "/" value in
  parsed ← (if drive_prefix path then Ok None else u ← urlsplit path; Ok (Some u));
  let path :=
    match parsed with
    | Some u =>
        if bool_decide (url_scheme u ≠ "") && bool_decide (url_netloc u ≠ "") then url_path u
        else of_chars (collapse_slashes (chars path))
    | None => of_chars (collapse_slashes (chars path))
    end in
  let path :=
    if startswith "/wsl.localhost/" (py_lower path) || startswith "/wsl$/" (py_lower path) then
      let parts := filter (fun part => part ≠ "") (py_split "/" path) in
      "/wsl/" +:+ py_lower (py_join "/" (drop 1 parts))
    else path in
  let drive := drive_match path in
  let path :=
    match drive with
    | Some (c, rest) => "/" +:+ of_chars [lower_char c] +:+ "/" +:+ rest
    | None => path
    end in
  let normalized := normpath path in
  let normalized := if bool_decide (normalized = ".") then "/" else normalized in
  raise_if (bool_decide (normalized = "..") || startswith "../" normalized)
    (EValue "workspace path escapes its root") ;;
  let normalized := match drive with Some _ => py_lower normalized | None => normalized end in
  let stripped := py_rstrip (fun c => bool_decide (c = "/"%char)) normalized in
  Ok (if bool_decide (stripped = "") then "/" else stripped).
End remote.

Definition stable_id (r : RepositoryIdentity) : string :=
  repo_host r +:+ "/" +:+ repo_namespace r +:+ "/" +:+ repo_name r.
Definition to_public (r : RepositoryIdentity) : pyobj :=
  PDict [("host", PStr (repo_host r)); ("namespace", PStr (repo_namespace r)); ("name", PStr (repo_name r))].

(** ** Context and request *)
Record PolicyContext := {
  ctx_workspace_id : option string;
  ctx_repository : option RepositoryIdentity;
  ctx_workspace_path : option string;
  ctx_normalized_path : option string;
  ctx_path_kind : string;
  ctx_source : string;
  ctx_remote_error : option string;
  ctx_path_error : option string;
  ctx_claimed_values : dict;
}.

(** [str(error)] of a caught [ValueError]. *)
Definition exn_message (e : exn) : string :=
  match e with EValue msg | EType msg => msg | _ => "" end.

Section context.
Context `{UrlRuntime}.

Definition from_values (workspace_id remote workspace_path : option string)
    (path_kind context_source : string) : result PolicyContext :=
  '(repository, remote_error) ←
    match remote with
    | None => Ok (None, None)
    | Some r =>
        match from_remote r with
        | Ok repo => Ok (Some repo, None)
        | Raise e => if is_value_error e then Ok (None, Some (exn_message e)) else Raise e
        end
    end;
  '(normalized, path_error) ←
    match workspace_path with
    | None => Ok (None, None)
    | Some p =>
        match normalize_workspace_path p with
        | Ok n => Ok (Some n, None)
        | Raise e => if is_value_error e then Ok (None, Some (exn_message e)) else Raise e
        end
    end;
  Ok {| ctx_workspace_id := workspace_id; ctx_repository := repository;
        ctx_workspace_path := workspace_path; ctx_normalized_path := normalized;
        ctx_path_kind := if bool_decide (path_kind ∈ PATH_KINDS) then path_kind else "unknown";
        ctx_source := context_source; ctx_remote_error := remote_error;
        ctx_path_error := path_error; ctx_claimed_values := [] |}.
End context.

(** The claims of an untrusted caller never become context fields. *)
Definition from_untrusted (workspace_id remote : option string) (claims : dict) : PolicyContext :=
  {| ctx_workspace_id := None; ctx_repository := None; ctx_workspace_path := None;
     ctx_normalized_path := None; ctx_path_kind := "unknown"; ctx_source := "untrusted";
     ctx_remote_error := None; ctx_path_error := None;
     ctx_claimed_values :=
       foldl (fun d kv => dict_set kv.1 kv.2 d)
         [("workspace_id", opt_str workspace_id); ("remote", opt_str remote)] claims |}.

(** Override fields are caller-supplied objects; [decide] checks their types. *)
Record OperatorOverride := {
  ov_profile_name : pyobj;
  ov_interactive : pyobj;
  ov_confirmed : pyobj;
  ov_actor : pyobj;
  ov_audit_reason_code : pyobj;
  ov_cross_scope_confirmed : pyobj;
}.

Record CaptureRequest := {
  req_context : PolicyContext;
  req_logical_sources : list string;
  req_trigger : string;
  req_record_bytes : Z;
  req_asset_bytes : Z;
  req_session_bytes : Z;
  req_outbox_bytes : Z;
  req_override : option OperatorOverride;
}.

(** [CaptureRequest.__post_init__]: sizes in field order, then the trigger,
    then the sources. *)
Definition CaptureRequest_init (context : PolicyContext) (logical_sources trigger
    record_bytes asset_bytes session_bytes outbox_bytes : pyobj)
    (override : option OperatorOverride) : result CaptureRequest :=
  record ← _validate_capture_size record_bytes;
  asset ← _validate_capture_size asset_bytes;
  session ← _validate_capture_size session_bytes;
  outbox ← _validate_capture_size outbox_bytes;
  match as_str trigger with
  | Some t =>
      sources ← sanitize_logical_sources logical_sources true;
      Ok {| req_context := context; req_logical_sources := sources; req_trigger := t;
            req_record_bytes := record; req_asset_bytes := asset;
            req_session_bytes := session; req_outbox_bytes := outbox; req_override := override |}
  | None => Raise (EPolicyInput "trigger.invalid")
  end.

(** ** Profiles *)
Record Limits := {
  lim_per_record_bytes : Z;
  lim_per_asset_bytes : Z;
  lim_per_session_bytes : Z;
  lim_local_outbox_bytes : Z;
  lim_retention_days : Z;
}.
Record R2Binding := { bind_id : string; bind_scope : string; bind_credential_profile_ref : string }.
Record Destination := { dest_kind : string; dest_binding_id : option string }.
Record MatchRule := { rule_workspace_id : string; rule_repository : RepositoryIdentity }.
Record DenyRule := { deny_match : MatchRule; deny_reason_code : string }.

Definition matches (rule : MatchRule) (context : PolicyContext) : bool :=
  bool_decide (ctx_workspace_id context = Some (rule_workspace_id rule))
  && bool_decide (ctx_repository context = Some (rule_repository rule)).

Record CaptureProfile := {
  prof_name : string;
  prof_profile_id : string;
  prof_workspace_id : string;
  prof_allowed_sources : list string;
  prof_capture_mode : string;
  prof_triggers : list string;
  prof_destination : Destination;
  prof_recipient_set_ref : string;
  prof_limits : Limits;
  prof_allow_rules : list MatchRule;
  prof_deny_rules : list DenyRule;
  prof_downstream_memory : bool;
  prof_policy_version : string;
  prof_provenance : string;
}.

Record PolicyConfig := {
  cfg_profiles : list (string * CaptureProfile);
  cfg_r2_bindings : list (string * R2Binding);
}.

(** ** The loader *)
Definition _repository_from_dict (raw : pyobj) : result RepositoryIdentity :=
  match raw with
  | PDict d =>
      raise_if (negb (keys_are ["host"; "namespace"; "name"] d)) (EPolicyConfig "policy.repository-shape") ;;
      host ← get_item "host" d; namespace ← get_item "namespace" d; name ← get_item "name" d;
      reraise is_type_or_value_error (EPolicyConfig "policy.repository-invalid")
        (RepositoryIdentity_init host namespace name)
  | _ => Raise (EPolicyConfig "policy.repository-shape")
  end.

(** The common part of [_match_rule]: an allow rule, and the reason it may carry. *)
Definition _match_rule (raw : pyobj) (deny : bool) : result (MatchRule * option string) :=
  match raw with
  | PDict d =>
      let expected := ["workspace_id"; "repository"] ++ (if deny then ["reason_code"] else []) in
      raise_if (negb (keys_within expected d) || negb (has_key "workspace_id" d))
        (EPolicyConfig "policy.match-shape") ;;
      raise_if (negb (has_key "repository" d)) (EPolicyConfig "policy.match-repository") ;;
      raw_workspace ← get_item "workspace_id" d;
      workspace_id ← _identifier raw_workspace;
      raw_repository ← get_item "repository" d;
      repository ← _repository_from_dict raw_repository;
      let rule := {| rule_workspace_id := workspace_id; rule_repository := repository |} in
      if deny then
        match get_or_none "reason_code" d with
        | PStr reason =>
            raise_if (negb (fullmatch REASON_RE reason)) (EPolicyConfig "policy.reason-code") ;;
            Ok (rule, Some reason)
        | _ => Raise (EPolicyConfig "policy.reason-code")
        end
      else Ok (rule, None)
  | _ => Raise (EPolicyConfig "policy.match-shape")
  end.
Definition _allow_rule (raw : pyobj) : result MatchRule :=
  '(rule, _) ← _match_rule raw false; Ok rule.
Definition _deny_rule (raw : pyobj) : result DenyRule :=
  '(rule, reason) ← _match_rule raw true;
  Ok {| deny_match := rule; deny_reason_code := default "explicit-deny" reason |}.

Definition PROFILE_FIELDS : list string :=
  ["profile_id"; "workspace_id"; "allowed_sources"; "capture_mode"; "triggers"; "destination";
   "recipient_set_ref"; "limits"; "allow_rules"; "deny_rules"; "downstream_memory";
   "policy_version"; "provenance"].
Definition LIMIT_FIELDS : list string :=
  ["per_record_bytes"; "per_asset_bytes"; "per_session_bytes"; "local_outbox_bytes"; "retention_days"].

Definition _triggers (raw : pyobj) : result (list string) :=
  match raw with
  | PList l =>
      match all_strings l with
      | Some triggers =>
          raise_if (bool_decide (triggers = [])
                    || negb (forallb (fun t => bool_decide (t ∈ TRIGGERS)) triggers)
                    || negb (bool_decide (NoDup triggers))) (EPolicyConfig "policy.triggers") ;;
          Ok triggers
      | None => Raise (EPolicyConfig "policy.triggers")
      end
  | _ => Raise (EPolicyConfig "policy.triggers")
  end.

Definition _destination (name : string) (raw : pyobj) (bindings : list (string * R2Binding))
    : result Destination :=
  match raw with
  | PDict d =>
      raise_if (negb (has_key "kind" d)) (EPolicyConfig "policy.destination-shape") ;;
      kind ← get_item "kind" d;
      if py_eq kind (PStr "local-only") then
        raise_if (negb (keys_are ["kind"] d)) (EPolicyConfig "policy.destination-shape") ;;
        Ok {| dest_kind := "local-only"; dest_binding_id := None |}
      else if py_eq kind (PStr "private-r2") then
        raise_if (negb (keys_are ["kind"; "binding_id"] d)) (EPolicyConfig "policy.destination-shape") ;;
        raw_id ← get_item "binding_id" d;
        binding_id ← _identifier raw_id;
        match dict_get binding_id bindings with
        | None => Raise (EPolicyConfig "policy.destination-missing")
        | Some binding =>
            raise_if (bool_decide (bind_scope binding ≠ name)) (EPolicyConfig "policy.destination-scope") ;;
            Ok {| dest_kind := "private-r2"; dest_binding_id := Some binding_id |}
        end
      else Raise (EPolicyConfig "policy.destination-kind")
  | _ => Raise (EPolicyConfig "policy.destination-shape")
  end.

Definition _limits (raw : pyobj) : result Limits :=
  match raw with
  | PDict d =>
      raise_if (negb (keys_are LIMIT_FIELDS d)) (EPolicyConfig "policy.limits-shape") ;;
      a ← get_item "per_record_bytes" d ≫= _positive_int;
      b ← get_item "per_asset_bytes" d ≫= _positive_int;
      c ← get_item "per_session_bytes" d ≫= _positive_int;
      e ← get_item "local_outbox_bytes" d ≫= _positive_int;
      f ← get_item "retention_days" d ≫= _positive_int;
      Ok {| lim_per_record_bytes := a; lim_per_asset_bytes := b; lim_per_session_bytes := c;
            lim_local_outbox_bytes := e; lim_retention_days := f |}
  | _ => Raise (EPolicyConfig "policy.limits-shape")
  end.

Definition _profile_from_dict (name : string) (raw : pyobj) (bindings : list (string * R2Binding))
    : result CaptureProfile :=
  match raw with
  | PDict d =>
      raise_if (negb (keys_are PROFILE_FIELDS d)) (EPolicyConfig "policy.profile-shape") ;;
      raise_if (bool_decide (name ∉ PROFILE_NAMES)) (EPolicyConfig "policy.profile-name") ;;
      profile_id ← get_item "profile_id" d ≫= _identifier;
      workspace_id ← get_item "workspace_id" d ≫= _identifier;
      raw_sources ← get_item "allowed_sources" d;
      sources ← reraise is_value_error (EPolicyConfig "policy.sources")
                  (sanitize_logical_sources raw_sources false);
      raw_mode ← get_item "capture_mode" d;
      raise_if (negb (is_str_in CAPTURE_MODES raw_mode)) (EPolicyConfig "policy.capture-mode") ;;
      raw_triggers ← get_item "triggers" d;
      triggers ← _triggers raw_triggers;
      raw_destination ← get_item "destination" d;
      destination ← _destination name raw_destination bindings;
      raw_limits ← get_item "limits" d;
      limits ← _limits raw_limits;
      raw_allow ← get_item "allow_rules" d;
      raw_deny ← get_item "deny_rules" d;
      match as_list raw_allow, as_list raw_deny with
      | Some allow_raw, Some deny_raw =>
          allow_rules ← map_result _allow_rule allow_raw;
          deny_rules ← map_result _deny_rule deny_raw;
          raise_if (existsb (fun r => bool_decide (rule_workspace_id r ≠ workspace_id))
                      (allow_rules ++ (deny_match <$> deny_rules)))
            (EPolicyConfig "policy.match-workspace") ;;
          raw_memory ← get_item "downstream_memory" d;
          match as_bool raw_memory with
          | None => Raise (EPolicyConfig "policy.memory-permission")
          | Some downstream_memory =>
              version ← get_item "policy_version" d;
              provenance ← get_item "provenance" d;
              raise_if (negb (py_eq version (PStr "1.0"))
                        || negb (py_eq provenance (PStr "private-host-config")))
                (EPolicyConfig "policy.provenance") ;;
              recipient ← get_item "recipient_set_ref" d ≫= _identifier;
              Ok {| prof_name := name; prof_profile_id := profile_id;
                    prof_workspace_id := workspace_id; prof_allowed_sources := sources;
                    prof_capture_mode := default "" (as_str raw_mode); prof_triggers := triggers;
                    prof_destination := destination; prof_recipient_set_ref := recipient;
                    prof_limits := limits; prof_allow_rules := allow_rules;
                    prof_deny_rules := deny_rules; prof_downstream_memory := downstream_memory;
                    prof_policy_version := "1.0"; prof_provenance := "private-host-config" |}
          end
      | _, _ => Raise (EPolicyConfig "policy.match-list")
      end
  | _ => Raise (EPolicyConfig "policy.profile-shape")
  end.

Definition CONFIG_FIELDS : list string :=
  ["$schema"; "schema"; "schema_version"; "r2_bindings"; "profiles"].

Definition _schema_version (version : pyobj) : result unit :=
  match version with
  | PDict v =>
      raise_if (negb (keys_are ["major"; "minor"] v)) (EPolicyConfig "policy.schema-version-shape") ;;
      raise_if (negb (bool_decide (as_int (get_or_none "major" v) = Some 1%Z)
                      && bool_decide (as_int (get_or_none "minor" v) = Some 0%Z)))
        (EPolicyConfig "policy.version-unsupported")
  | _ => Raise (EPolicyConfig "policy.schema-version-shape")
  end.

Definition _binding (kv : string * pyobj) : result (string * R2Binding) :=
  binding_id ← _identifier (PStr kv.1);
  match kv.2 with
  | PDict raw =>
      raise_if (negb (keys_are ["scope"; "credential_profile_ref"] raw)) (EPolicyConfig "policy.binding-shape") ;;
      match get_or_none "scope" raw with
      | PStr scope =>
          raise_if (bool_decide (scope ∉ PROFILE_NAMES)) (EPolicyConfig "policy.binding-scope") ;;
          ref ← _identifier (get_or_none "credential_profile_ref" raw);
          Ok (binding_id, {| bind_id := binding_id; bind_scope := scope; bind_credential_profile_ref := ref |})
      | _ => Raise (EPolicyConfig "policy.binding-scope")
      end
  | _ => Raise (EPolicyConfig "policy.binding-shape")
  end.

Definition _named_profile (bindings : list (string * R2Binding)) (kv : string * pyobj)
    : result (string * CaptureProfile) :=
  profile ← _profile_from_dict kv.1 kv.2 bindings; Ok (kv.1, profile).

Definition PolicyConfig_from_dict (body : pyobj) : result PolicyConfig :=
  match body with
  | PDict d =>
      raise_if (negb (keys_are CONFIG_FIELDS d)) (EPolicyConfig "policy.shape") ;;
      raise_if (negb (py_eq (get_or_none "$schema" d) (PStr POLICY_SCHEMA_URI)))
        (EPolicyConfig "policy.schema-identity") ;;
      raise_if (negb (py_eq (get_or_none "schema" d) (PStr "josh-room.capture-policy")))
        (EPolicyConfig "policy.schema-unknown") ;;
      _schema_version (get_or_none "schema_version" d) ;;
      raw_bindings ← get_item "r2_bindings" d;
      match as_dict raw_bindings with
      | None => Raise (EPolicyConfig "policy.bindings-shape")
      | Some raw_bindings =>
          bindings ← map_result _binding raw_bindings;
          raw_profiles ← get_item "profiles" d;
          match as_dict raw_profiles with
          | None => Raise (EPolicyConfig "policy.profiles-shape")
          | Some raw_profiles =>
              raise_if (negb (keys_are PROFILE_NAMES raw_profiles)) (EPolicyConfig "policy.profiles-shape") ;;
              profiles ← map_result (_named_profile bindings) raw_profiles;
              raise_if (negb (bool_decide (NoDup ((fun kv => prof_profile_id kv.2) <$> profiles))))
                (EPolicyConfig "policy.profile-id-duplicate") ;;
              raise_if (negb (bool_decide (NoDup ((fun kv => prof_workspace_id kv.2) <$> profiles))))
                (EPolicyConfig "policy.workspace-id-duplicate") ;;
              Ok {| cfg_profiles := profiles; cfg_r2_bindings := bindings |}
          end
      end
  | _ => Raise (EPolicyConfig "policy.not-object")
  end.

(** ** Decisions *)
Record Decision := {
  dec_kind : string;
  dec_reason_codes : list string;
  dec_profile_name : option string;
  dec_profile_id : option string;
  dec_workspace_id : option string;
  dec_destination_class : string;
  dec_logical_sources : list string;
  dec_estimated_sizes : dict;
  dec_authority : string;
  dec_operator_override : option string;
  dec_operator_reason_code : option string;
  dec_policy_version : option string;
  dec_provenance : option string;
}.

(** [Decision.__post_init__]: the sources are sanitized again and the estimated
    sizes are absent or exactly the four integer fields. *)
Definition Decision_post_init (d : Decision) : result Decision :=
  sanitize_logical_sources (PList (PStr <$> dec_logical_sources d)) true ;;
  (if bool_decide (length (dec_estimated_sizes d) = 0) then Ok tt
   else
     raise_if (negb (keys_are CAPTURE_SIZE_FIELDS (dec_estimated_sizes d))) (EPolicyInput "size.invalid") ;;
     for_each (fun f => get_item f (dec_estimated_sizes d) ≫= _validate_capture_size ;; Ok tt)
       CAPTURE_SIZE_FIELDS) ;;
  Ok d.

Definition to_dry_run (d : Decision) : pyobj :=
  PDict [("decision", PStr (dec_kind d));
         ("reason_codes", PList (PStr <$> dec_reason_codes d));
         ("profile", opt_str (dec_profile_name d));
         ("profile_id", opt_str (dec_profile_id d));
         ("workspace_id", opt_str (dec_workspace_id d));
         ("logical_sources", PList (PStr <$> dec_logical_sources d));
         ("estimated_sizes", PDict (dec_estimated_sizes d));
         ("destination_class", PStr (dec_destination_class d));
         ("authority", PStr (dec_authority d));
         ("operator_override", opt_str (dec_operator_override d));
         ("operator_reason_code", opt_str (dec_operator_reason_code d));
         ("policy_version", opt_str (dec_policy_version d));
         ("provenance", opt_str (dec_provenance d))].

(** Who decided: the authority and, for an override, its profile and reason. *)
Record attribution := { att_authority : string; att_override : option string; att_reason : option string }.
Definition host_policy : attribution :=
  {| att_authority := "host-policy"; att_override := None; att_reason := None |}.

Definition _decision (kind : string) (reasons : list string) (request : CaptureRequest)
    (profile : option CaptureProfile) (att : attribution) : result Decision :=
  Decision_post_init {|
    dec_kind := kind;
    dec_reason_codes := reasons;
    dec_profile_name := prof_name <$> profile;
    dec_profile_id := prof_profile_id <$> profile;
    dec_workspace_id := prof_workspace_id <$> profile;
    dec_destination_class :=
      match profile with
      | Some p => if bool_decide (kind ∈ ["allow"; "local-only"]) then dest_kind (prof_destination p)
                  else "local-only"
      | None => "local-only"
      end;
    dec_logical_sources := req_logical_sources request;
    dec_estimated_sizes :=
      [("record_bytes", PInt (req_record_bytes request)); ("asset_bytes", PInt (req_asset_bytes request));
       ("session_bytes", PInt (req_session_bytes request)); ("outbox_bytes", PInt (req_outbox_bytes request))];
    dec_authority := att_authority att;
    dec_operator_override := att_override att;
    dec_operator_reason_code := att_reason att;
    dec_policy_version := prof_policy_version <$> profile;
    dec_provenance := prof_provenance <$> profile |}.

Definition _matching_profiles (config : PolicyConfig) (context : PolicyContext) : list CaptureProfile :=
  filter (fun profile => existsb (fun rule => matches rule context) (prof_allow_rules profile) = true)
    (cfg_profiles config).*2.

Definition _matching_denials (config : PolicyConfig) (context : PolicyContext) : list (string * string) :=
  (cfg_profiles config).*2 ≫= fun profile =>
    (fun rule => (prof_name profile, deny_reason_code rule)) <$>
      filter (fun rule => matches (deny_match rule) context = true) (prof_deny_rules profile).

(** [min] of pairs of strings, in tuple order. *)
Definition pair_leb (a b : string * string) : bool :=
  if bool_decide (a.1 = b.1) then String.leb a.2 b.2 else String.leb a.1 b.1.
Definition min_pair (a : string * string) (l : list (string * string)) : string * string :=
  foldl (fun m x => if pair_leb m x then m else x) a l.

(** [if x:] for an optional string *)
Definition truthy (o : option string) : bool :=
  match o with Some s => bool_decide (s ≠ "") | None => false end.

(** The limit checks in source order: the reason of the first violation. *)
Definition limit_violation (request : CaptureRequest) (limits : Limits) : option string :=
  let bad (observed limit : Z) := (observed <? 0)%Z || (limit <? observed)%Z in
  if bad (req_record_bytes request) (lim_per_record_bytes limits) then Some "limits.per-record"
  else if bad (req_asset_bytes request) (lim_per_asset_bytes limits) then Some "limits.per-asset"
  else if bad (req_session_bytes request) (lim_per_session_bytes limits) then Some "limits.per-session"
  else if bad (req_outbox_bytes request) (lim_local_outbox_bytes limits) then Some "limits.local-outbox"
  else None.

(** The checks that follow the choice of a profile. *)
Definition decide_profile (request : CaptureRequest) (profile : CaptureProfile) (att : attribution)
    : result Decision :=
  let sources := req_logical_sources request in
  let mode := prof_capture_mode profile in
  if bool_decide (req_trigger request ∉ prof_triggers profile) then
    _decision "deny" ["trigger.not-allowed"] request (Some profile) att
  else if negb (forallb (fun s => bool_decide (s ∈ prof_allowed_sources profile)) sources) then
    _decision "deny" ["source.not-allowed"] request (Some profile) att
  else if bool_decide (mode = "metadata-only")
          && existsb (fun s => endswith "transcript" s || endswith "assets" s) sources then
    _decision "deny" ["capture-mode.metadata-only"] request (Some profile) att
  else if bool_decide (mode = "transcript") && existsb (endswith "assets") sources then
    _decision "deny" ["capture-mode.assets-not-allowed"] request (Some profile) att
  else match limit_violation request (prof_limits profile) with
  | Some reason => _decision "quarantine" [reason] request (Some profile) att
  | None =>
      if bool_decide (dest_kind (prof_destination profile) = "local-only") then
        _decision "local-only" ["destination.local-only"] request (Some profile) att
      else _decision "allow" ["policy.allowed"] request (Some profile) att
  end.

(** The override branch of [decide]. *)
Definition decide_override (config : PolicyConfig) (request : CaptureRequest)
    (candidates : list CaptureProfile) (ov : OperatorOverride) : result Decision :=
  let unavailable := _decision "local-only" ["operator.override-unavailable"] request None host_policy in
  match py_eq (ov_actor ov) (PStr "operator-cli"), as_bool (ov_interactive ov),
        as_bool (ov_confirmed ov), as_bool (ov_cross_scope_confirmed ov), as_str (ov_profile_name ov) with
  | true, Some true, Some true, Some cross_scope, Some name =>
      match dict_get name (cfg_profiles config) with
      | None => unavailable
      | Some profile =>
          match as_str (ov_audit_reason_code ov) with
          | Some audit =>
              if fullmatch REASON_RE audit then
                let att := {| att_authority := "operator-cli"; att_override := Some name;
                              att_reason := Some audit |} in
                if existsb (fun c => bool_decide (prof_name c ≠ name)) candidates && negb cross_scope then
                  _decision "local-only" ["operator.scope-change-confirmation-required"] request None att
                else decide_profile request profile att
              else _decision "local-only" ["operator.audit-reason-required"] request None host_policy
          | None => _decision "local-only" ["operator.audit-reason-required"] request None host_policy
          end
      end
  | _, _, _, _, _ => unavailable
  end.

Definition credential_error (error : option string) : bool :=
  match error with Some msg => contains "credential-bearing" msg | None => false end.

Definition decide (config : PolicyConfig) (request : CaptureRequest) : result Decision :=
  let context := req_context request in
  if bool_decide (ctx_source context ≠ "host-observed") then
    _decision "local-only" ["context.untrusted"] request None host_policy
  else if truthy (ctx_remote_error context) then
    _decision "quarantine"
      [if credential_error (ctx_remote_error context) then "repository.remote-credentials"
       else "repository.remote-invalid"] request None host_policy
  else if truthy (ctx_path_error context) then
    _decision "quarantine" ["workspace.path-invalid"] request None host_policy
  else if bool_decide (ctx_path_kind context = "symlink") then
    _decision "quarantine" ["workspace.symlink"] request None host_policy
  else if bool_decide (req_logical_sources request = []) then
    _decision "deny" ["source.empty"] request None host_policy
  else match _matching_denials config context with
  | d :: ds =>
      let '(name, reason) := min_pair d ds in
      profile ← get_item name (cfg_profiles config);
      _decision "deny" ["policy.explicit-deny"; reason] request (Some profile) host_policy
  | [] =>
      let candidates := _matching_profiles config context in
      match req_override request with
      | Some ov => decide_override config request candidates ov
      | None =>
          match candidates with
          | [] => _decision "local-only" ["context.unknown"] request None host_policy
          | [profile] => decide_profile request profile host_policy
          | _ => _decision "quarantine" ["policy.ambiguous-profile"] request None host_policy
          end
      end
  end.

Definition dry_run (config : PolicyConfig) (request : CaptureRequest) : result pyobj :=
  d ← decide config request; Ok (to_dry_run d).
