(* ===== verification/PolicyProps.v ===== *)
(** * Properties of the capture policy

    What [decide] authorizes, that denial rules and untrusted contexts cannot be
    overridden, and what a configuration the loader accepts guarantees. *)

From S2P Require Import Prelude PyStr PyObj PyUrl Policy.
From Stdlib Require Import Ascii.

#[local] Arguments sanitize_logical_sources _ _ : simpl never.

(** ** Specification of an authorized capture *)

(** A request as [CaptureRequest.__post_init__] leaves it. *)
Definition request_ok (request : CaptureRequest) : Prop :=
  sanitize_logical_sources (PList (PStr <$> req_logical_sources request)) true
  = Ok (req_logical_sources request).

(** The context was observed by the host, without error, outside a symlink. *)
Definition context_trusted (context : PolicyContext) : Prop :=
  ctx_source context = "host-observed" /\ truthy (ctx_remote_error context) = false
  /\ truthy (ctx_path_error context) = false /\ ctx_path_kind context ≠ "symlink".

Definition not_denied (config : PolicyConfig) (context : PolicyContext) : Prop :=
  forall profile rule, profile ∈ (cfg_profiles config).*2 -> rule ∈ prof_deny_rules profile ->
  matches (deny_match rule) context = false.

Definition allow_matches (profile : CaptureProfile) (context : PolicyContext) : Prop :=
  exists rule, rule ∈ prof_allow_rules profile /\ matches rule context = true.

(** An interactive, confirmed, audited operator override of [profile], confirmed
    across scopes when another profile matches the context. *)
Definition override_valid (config : PolicyConfig) (context : PolicyContext) (ov : OperatorOverride)
    (profile : CaptureProfile) : Prop :=
  exists name audit cross,
    py_eq (ov_actor ov) (PStr "operator-cli") = true /\ ov_interactive ov = PBool true
    /\ ov_confirmed ov = PBool true /\ ov_cross_scope_confirmed ov = PBool cross
    /\ ov_profile_name ov = PStr name /\ ov_audit_reason_code ov = PStr audit
    /\ fullmatch REASON_RE audit = true /\ dict_get name (cfg_profiles config) = Some profile
    /\ (cross = true \/ forall c, c ∈ _matching_profiles config context -> prof_name c = name).

Definition selects (config : PolicyConfig) (request : CaptureRequest) (profile : CaptureProfile) : Prop :=
  match req_override request with
  | Some ov => override_valid config (req_context request) ov profile
  | None => _matching_profiles config (req_context request) = [profile]
  end.

Definition within (observed limit : Z) : Prop := (0 <= observed <= limit)%Z.

Definition permits (request : CaptureRequest) (profile : CaptureProfile) : Prop :=
  req_trigger request ∈ prof_triggers profile
  /\ (forall s, s ∈ req_logical_sources request -> s ∈ prof_allowed_sources profile)
  /\ (prof_capture_mode profile = "metadata-only" -> forall s, s ∈ req_logical_sources request ->
        endswith "transcript" s = false /\ endswith "assets" s = false)
  /\ (prof_capture_mode profile = "transcript" -> forall s, s ∈ req_logical_sources request ->
        endswith "assets" s = false)
  /\ within (req_record_bytes request) (lim_per_record_bytes (prof_limits profile))
  /\ within (req_asset_bytes request) (lim_per_asset_bytes (prof_limits profile))
  /\ within (req_session_bytes request) (lim_per_session_bytes (prof_limits profile))
  /\ within (req_outbox_bytes request) (lim_local_outbox_bytes (prof_limits profile)).

Definition authorized (config : PolicyConfig) (request : CaptureRequest) (profile : CaptureProfile) : Prop :=
  context_trusted (req_context request) /\ req_logical_sources request ≠ []
  /\ not_denied config (req_context request) /\ selects config request profile
  /\ permits request profile /\ dest_kind (prof_destination profile) ≠ "local-only".

(** ** Well-formed configurations *)
Definition profile_rules (profile : CaptureProfile) : list MatchRule :=
  prof_allow_rules profile ++ (deny_match <$> prof_deny_rules profile).

Definition destination_wf (config : PolicyConfig) (profile : CaptureProfile) : Prop :=
  let dest := prof_destination profile in
  (dest_kind dest = "local-only" /\ dest_binding_id dest = None)
  \/ (dest_kind dest = "private-r2" /\ exists id binding, dest_binding_id dest = Some id
      /\ dict_get id (cfg_r2_bindings config) = Some binding /\ bind_scope binding = prof_name profile).

Record config_wf (config : PolicyConfig) : Prop := {
  wf_keys : (cfg_profiles config).*1 = prof_name <$> (cfg_profiles config).*2;
  wf_profile_ids : NoDup (prof_profile_id <$> (cfg_profiles config).*2);
  wf_workspace_ids : NoDup (prof_workspace_id <$> (cfg_profiles config).*2);
  wf_rules : forall p rule, p ∈ (cfg_profiles config).*2 -> rule ∈ profile_rules p ->
    rule_workspace_id rule = prof_workspace_id p;
  wf_destinations : forall p, p ∈ (cfg_profiles config).*2 -> destination_wf config p;
  wf_names : forall p, p ∈ (cfg_profiles config).*2 -> prof_name p ∈ PROFILE_NAMES;
}.

(** ** Decision construction *)
Lemma _decision_Ok kind reasons request profile att :
  request_ok request ->
  exists d, _decision kind reasons request profile att = Ok d /\ dec_kind d = kind
    /\ dec_reason_codes d = reasons /\ dec_profile_name d = (prof_name <$> profile)
    /\ dec_logical_sources d = req_logical_sources request
    /\ dec_destination_class d =
       match profile with
       | Some p => if bool_decide (kind ∈ ["allow"; "local-only"]) then dest_kind (prof_destination p)
                   else "local-only"
       | None => "local-only"
       end.
Proof.
  intros Hreq. unfold _decision, Decision_post_init. simpl. rewrite Hreq. simpl.
  eexists. split; [reflexivity |]. done.
Qed.

Lemma _decision_kind kind reasons request profile att d :
  _decision kind reasons request profile att = Ok d -> dec_kind d = kind.
Proof. unfold _decision, Decision_post_init. intros. inv_result. done. Qed.

Lemma _decision_fields kind reasons request profile att d :
  _decision kind reasons request profile att = Ok d ->
  dec_kind d = kind /\ dec_reason_codes d = reasons /\ dec_profile_name d = (prof_name <$> profile)
  /\ dec_destination_class d =
     match profile with
     | Some p => if bool_decide (kind ∈ ["allow"; "local-only"]) then dest_kind (prof_destination p)
                 else "local-only"
     | None => "local-only"
     end.
Proof. unfold _decision, Decision_post_init. intros. inv_result. done. Qed.

Lemma limit_violation_None request limits :
  limit_violation request limits = None <->
  within (req_record_bytes request) (lim_per_record_bytes limits)
  /\ within (req_asset_bytes request) (lim_per_asset_bytes limits)
  /\ within (req_session_bytes request) (lim_per_session_bytes limits)
  /\ within (req_outbox_bytes request) (lim_local_outbox_bytes limits).
Proof.
  unfold limit_violation, within.
  assert (forall a b, ((a <? 0)%Z || (b <? a)%Z) = false <-> (0 <= a <= b)%Z) as Hbad.
  { intros a b. rewrite orb_false_iff, Z.ltb_ge, Z.ltb_ge. lia. }
  repeat case_match; rewrite <- !Hbad; split; try done; intuition congruence.
Qed.

(** The permission checks, one boolean per guard of [decide_profile]. *)
Lemma permits_spec request profile :
  permits request profile <->
  bool_decide (req_trigger request ∉ prof_triggers profile) = false
  /\ negb (forallb (fun s => bool_decide (s ∈ prof_allowed_sources profile)) (req_logical_sources request)) = false
  /\ bool_decide (prof_capture_mode profile = "metadata-only")
     && existsb (fun s => endswith "transcript" s || endswith "assets" s) (req_logical_sources request) = false
  /\ bool_decide (prof_capture_mode profile = "transcript")
     && existsb (endswith "assets") (req_logical_sources request) = false
  /\ limit_violation request (prof_limits profile) = None.
Proof.
  unfold permits. rewrite limit_violation_None, negb_false_iff, forallb_elem.
  rewrite !andb_false_iff, !existsb_none, !bool_decide_eq_false.
  setoid_rewrite orb_false_iff. setoid_rewrite bool_decide_eq_true.
  split; intros (Ht & Hs & Hm & Hm' & Hl); (split; [| split; [done | split; [| split; [| done]]]]).
  - tauto.
  - destruct (base.decide (prof_capture_mode profile = "metadata-only")); auto.
  - destruct (base.decide (prof_capture_mode profile = "transcript")); auto.
  - by apply (dec_stable (P := _ ∈ _)).
  - intros Hmode. by destruct Hm.
  - intros Hmode. by destruct Hm'.
Qed.

Lemma decide_profile_allow request profile att d :
  decide_profile request profile att = Ok d ->
  dec_kind d = "allow" <-> permits request profile /\ dest_kind (prof_destination profile) ≠ "local-only".
Proof.
  rewrite permits_spec. unfold decide_profile. intros H.
  repeat case_match; apply _decision_kind in H; rewrite H; bools; split; try done; intuition congruence.
Qed.

Lemma decide_profile_name request profile att d :
  decide_profile request profile att = Ok d -> dec_profile_name d = Some (prof_name profile).
Proof. unfold decide_profile. intros H. by repeat case_match; apply _decision_fields in H as (_ & _ & -> & _). Qed.

Lemma decide_profile_class request profile att d :
  decide_profile request profile att = Ok d ->
  dec_destination_class d ≠ "local-only" -> dec_kind d = "allow".
Proof.
  unfold decide_profile. intros H Hc.
  repeat case_match; apply _decision_fields in H as (Hk & _ & _ & Hcl); rewrite Hk; bools;
    revert Hc; rewrite Hcl; case_bool_decide as Hin; try done; intros ?; exfalso;
    first [congruence | set_solver].
Qed.

Lemma decide_profile_total request profile att :
  request_ok request -> exists d, decide_profile request profile att = Ok d.
Proof.
  intros Hreq. unfold decide_profile.
  repeat case_match; match goal with
  | |- exists d, _decision ?k ?r _ ?p ?a = Ok d => destruct (_decision_Ok k r request p a Hreq) as (d & ? & _); eauto
  end.
Qed.

(** ** Denials and candidates *)
Lemma denials_nil config context : _matching_denials config context = [] <-> not_denied config context.
Proof.
  unfold _matching_denials, not_denied. induction ((cfg_profiles config).*2) as [|p ps IH]; csimpl.
  - split; [by intros _ ?? ?%not_elem_of_nil | done].
  - split.
    + intros [Hp Hps]%app_nil profile rule [->|Hin]%elem_of_cons Hr; [| by eapply (proj1 IH)].
      apply not_true_iff_false. intros Hm. apply fmap_nil_inv in Hp.
      assert (rule ∈ filter (fun rule => matches (deny_match rule) context = true) (prof_deny_rules p)) as Hf
        by (apply list_elem_of_filter; done).
      rewrite Hp in Hf. by apply not_elem_of_nil in Hf.
    + intros H. apply app_nil. split.
      * destruct (filter _ (prof_deny_rules p)) as [|r rs] eqn:Hf; [done |].
        assert (r ∈ r :: rs) as Hr by left. rewrite <- Hf in Hr. apply list_elem_of_filter in Hr as [Hm Hr].
        rewrite (H p r) in Hm; [done | left | done].
      * apply IH. intros p' r Hp'. apply H. by right.
Qed.

Lemma elem_of_candidates config context p :
  p ∈ _matching_profiles config context <-> p ∈ (cfg_profiles config).*2 /\ allow_matches p context.
Proof.
  unfold _matching_profiles, allow_matches. rewrite list_elem_of_filter, existsb_elem. tauto.
Qed.

(** ** The selected profile *)
(** What [decide_override] computes: the profile a valid override names, or none. *)
Definition override_profile (config : PolicyConfig) (context : PolicyContext) (ov : OperatorOverride)
    : option CaptureProfile :=
  match py_eq (ov_actor ov) (PStr "operator-cli"), as_bool (ov_interactive ov),
        as_bool (ov_confirmed ov), as_bool (ov_cross_scope_confirmed ov), as_str (ov_profile_name ov),
        as_str (ov_audit_reason_code ov) with
  | true, Some true, Some true, Some cross, Some name, Some audit =>
      if fullmatch REASON_RE audit
         && negb (existsb (fun c => bool_decide (prof_name c ≠ name)) (_matching_profiles config context)
                  && negb cross)
      then dict_get name (cfg_profiles config) else None
  | _, _, _, _, _, _ => None
  end.

Lemma cross_scope_spec cross name (cands : list CaptureProfile) :
  existsb (fun c => bool_decide (prof_name c ≠ name)) cands && negb cross = false <->
  cross = true \/ forall c, c ∈ cands -> prof_name c = name.
Proof.
  rewrite andb_false_iff, existsb_none, negb_false_iff. setoid_rewrite bool_decide_eq_false.
  split; intros [H|H]; auto; right; intros c Hc; specialize (H c Hc);
    destruct (base.decide (prof_name c = name)); tauto.
Qed.

Lemma override_profile_spec config context ov p :
  override_profile config context ov = Some p <-> override_valid config context ov p.
Proof.
  unfold override_profile, override_valid. split.
  - destruct (py_eq (ov_actor ov) (PStr "operator-cli")) eqn:Ha; [|done].
    destruct (ov_interactive ov) as [| [] | | | | |]; try done.
    destruct (ov_confirmed ov) as [| [] | | | | |]; try done.
    destruct (ov_cross_scope_confirmed ov) as [| cross | | | | |]; try done.
    destruct (ov_profile_name ov) as [| | | | name | |]; try done.
    destruct (ov_audit_reason_code ov) as [| | | | audit | |]; try done. simpl.
    intros H. case_match eqn:Hc; [|done]. apply andb_true_iff in Hc as [Hr Hx].
    apply negb_true_iff, cross_scope_spec in Hx. exists name, audit, cross. done.
  - intros (name & audit & cross & Ha & -> & -> & -> & -> & -> & Hr & Hp & Hx).
    rewrite Ha. simpl. apply cross_scope_spec in Hx. by rewrite Hr, Hx.
Qed.

Lemma decide_override_cases config request ov :
  (exists p att, override_profile config (req_context request) ov = Some p /\
     decide_override config request (_matching_profiles config (req_context request)) ov
     = decide_profile request p att)
  \/ (override_profile config (req_context request) ov = None /\
      exists reasons att,
        decide_override config request (_matching_profiles config (req_context request)) ov
        = _decision "local-only" reasons request None att).
Proof.
  unfold override_profile, decide_override.
  destruct (py_eq (ov_actor ov) (PStr "operator-cli")); [|right; eauto].
  destruct (as_bool (ov_interactive ov)) as [[]|]; [|right; eauto..].
  destruct (as_bool (ov_confirmed ov)) as [[]|]; [|right; eauto..].
  destruct (as_bool (ov_cross_scope_confirmed ov)) as [cross|]; [|right; eauto].
  destruct (as_str (ov_profile_name ov)) as [name|]; [|right; eauto].
  destruct (as_str (ov_audit_reason_code ov)) as [audit|].
  2: { right. destruct (dict_get name (cfg_profiles config)); eauto. }
  destruct (dict_get name (cfg_profiles config)) as [p|] eqn:Hp.
  2: { right. split; [by case_match | eauto]. }
  destruct (fullmatch REASON_RE audit); simpl; [|right; eauto].
  destruct (existsb _ _ && _); simpl; [right; eauto | left; eauto].
Qed.

(** The profile [decide] evaluates once no denial applies. *)
Definition selected (config : PolicyConfig) (request : CaptureRequest) : option CaptureProfile :=
  match req_override request with
  | Some ov => override_profile config (req_context request) ov
  | None => match _matching_profiles config (req_context request) with [p] => Some p | _ => None end
  end.

Lemma selected_spec config request p : selected config request = Some p <-> selects config request p.
Proof.
  unfold selected, selects. destruct (req_override request) as [ov|]; [apply override_profile_spec |].
  destruct (_matching_profiles _ _) as [|q [|]]; split; congruence.
Qed.

(** [decide] refuses before a profile is chosen. *)
Definition refused_early (config : PolicyConfig) (request : CaptureRequest) : Prop :=
  ~ context_trusted (req_context request) \/ req_logical_sources request = []
  \/ ~ not_denied config (req_context request).

(** A decision that keeps the evidence local. *)
Definition refusal (d : Decision) : Prop :=
  dec_kind d ∈ ["local-only"; "quarantine"; "deny"] /\ dec_destination_class d = "local-only".

Lemma refusal_no_profile kind reasons request att d :
  kind ∈ ["local-only"; "quarantine"; "deny"] ->
  _decision kind reasons request None att = Ok d -> refusal d.
Proof. intros Hk H. apply _decision_fields in H as (Hk' & _ & _ & Hc). unfold refusal. by rewrite Hk', Hc. Qed.

Lemma refusal_deny reasons request profile att d :
  _decision "deny" reasons request profile att = Ok d -> refusal d.
Proof.
  intros H. apply _decision_fields in H as (Hk & _ & _ & Hc). unfold refusal. rewrite Hk, Hc.
  split; [set_solver |]. by destruct profile.
Qed.

(** The shape of [decide]: an early refusal, a refusal for want of a profile, or
    the checks of the selected profile. *)
Lemma decide_cases config request d :
  decide config request = Ok d ->
  (refused_early config request /\ refusal d)
  \/ (~ refused_early config request /\ selected config request = None /\ refusal d)
  \/ (~ refused_early config request /\ exists p att, selected config request = Some p
      /\ decide_profile request p att = Ok d).
Proof.
  unfold decide, refused_early, context_trusted. intros H.
  case_bool_decide as Hs.
  { left. split; [left; tauto |]. eapply refusal_no_profile; [|exact H]; set_solver. }
  destruct (truthy (ctx_remote_error _)).
  { left. split; [left; intuition congruence |]. eapply refusal_no_profile; [|exact H]; set_solver. }
  destruct (truthy (ctx_path_error _)).
  { left. split; [left; intuition congruence |]. eapply refusal_no_profile; [|exact H]; set_solver. }
  case_bool_decide as Hk.
  { left. split; [left; tauto |]. eapply refusal_no_profile; [|exact H]; set_solver. }
  case_bool_decide as Hl.
  { left. split; [tauto |]. eapply refusal_no_profile; [|exact H]; set_solver. }
  destruct (_matching_denials config (req_context request)) as [|den dens] eqn:Hd.
  - apply denials_nil in Hd. right.
    assert (~ (~ (ctx_source (req_context request) = "host-observed" /\ false = false /\
      false = false /\ ctx_path_kind (req_context request) ≠ "symlink")
      \/ req_logical_sources request = [] \/ ~ not_denied config (req_context request))) as Hno by tauto.
    unfold selected. destruct (req_override request) as [ov|].
    + destruct (decide_override_cases config request ov) as [(p & att & Hp & Heq)|(Hp & rs & att & Heq)];
        rewrite Heq in H; [right; eauto 6 | left].
      split; [done | split; [done |]]. eapply refusal_no_profile; [|exact H]; set_solver.
    + destruct (_matching_profiles _ _) as [|p [|]]; [left | right; eauto 6 | left];
        (split; [done | split; [done |]]); (eapply refusal_no_profile; [|exact H]; set_solver).
  - left. case_match. inv_result. split; [|by eapply refusal_deny].
    right. right. rewrite <- denials_nil, Hd. done.
Qed.

Lemma not_refused_early config request :
  ~ refused_early config request <->
  context_trusted (req_context request) /\ req_logical_sources request ≠ []
  /\ not_denied config (req_context request).
Proof.
  unfold refused_early, context_trusted. rewrite <- denials_nil.
  assert (forall P Q R : Prop, base.Decision P -> base.Decision R -> ~ (~ P \/ Q \/ ~ R) <-> P /\ ~ Q /\ R) as Hdec.
  { intros P Q R HP HR. destruct HP, HR; tauto. }
  apply Hdec; apply _.
Qed.

(** ** Totality *)
Lemma decide_override_total config request cands ov :
  request_ok request -> exists d, decide_override config request cands ov = Ok d.
Proof.
  intros Hreq. unfold decide_override.
  repeat case_match; try (by apply decide_profile_total); match goal with
  | |- exists d, _decision ?k ?r _ ?p ?a = Ok d => destruct (_decision_Ok k r request p a Hreq) as (d & ? & _); eauto
  end.
Qed.

Lemma min_pair_elem a l : min_pair a l = a \/ min_pair a l ∈ l.
Proof.
  unfold min_pair. revert a. induction l as [|b l IH]; intros a; simpl; [auto |].
  destruct (IH (if pair_leb a b then a else b)) as [->|?]; [case_match; [auto | right; left] |].
  right. by right.
Qed.

Lemma dict_get_values {V} (f : V -> string) (d : list (string * V)) v :
  d.*1 = f <$> d.*2 -> v ∈ d.*2 -> is_Some (dict_get (f v) d).
Proof.
  intros Hf Hv. apply has_key_spec. unfold has_key. apply bool_decide_eq_true.
  rewrite Hf. by apply list_elem_of_fmap_2.
Qed.

Ltac decision_total Hreq :=
  repeat match goal with
  | |- exists d, (if ?b then _ else _) = Ok d => destruct b
  | |- exists d, _decision ?k ?r _ ?p ?a = Ok d =>
      destruct (_decision_Ok k r _ p a Hreq) as (? & ? & _); eauto
  end.

Lemma decide_total_undenied config request :
  request_ok request -> not_denied config (req_context request) ->
  exists d, decide config request = Ok d.
Proof.
  intros Hreq Hd. apply denials_nil in Hd. unfold decide. rewrite Hd. decision_total Hreq.
  destruct (req_override request); [by apply decide_override_total |].
  destruct (_matching_profiles _ _) as [|p [|]]; [|by apply decide_profile_total|]; decision_total Hreq.
Qed.

Lemma decide_total_aux config request :
  (cfg_profiles config).*1 = prof_name <$> (cfg_profiles config).*2 ->
  request_ok request -> exists d, decide config request = Ok d.
Proof.
  intros Hkeys Hreq. destruct (_matching_denials config (req_context request)) as [|den dens] eqn:Hd.
  { apply decide_total_undenied; [done | by apply denials_nil]. }
  unfold decide. rewrite Hd. decision_total Hreq.
  assert (min_pair den dens ∈ _matching_denials config (req_context request)) as Hin.
  { rewrite Hd. destruct (min_pair_elem den dens) as [->|?]; [left | by right]. }
  destruct (min_pair den dens) as [name reason].
  unfold _matching_denials in Hin. apply list_elem_of_bind in Hin as (p & Hr & Hp).
  apply list_elem_of_fmap in Hr as (r & [= -> ->] & _).
  destruct (dict_get_values prof_name (cfg_profiles config) p Hkeys Hp) as [q Hq].
  unfold get_item. rewrite Hq. simpl. decision_total Hreq.
Qed.

(** ** What the loader guarantees *)
Lemma _destination_wf name raw bindings dest :
  _destination name raw bindings = Ok dest ->
  (dest_kind dest = "local-only" /\ dest_binding_id dest = None)
  \/ (dest_kind dest = "private-r2" /\ exists id binding, dest_binding_id dest = Some id
      /\ dict_get id bindings = Some binding /\ bind_scope binding = name).
Proof.
  unfold _destination. intros H. destruct raw; try done. inv_result.
  destruct (py_eq _ (PStr "local-only")); inv_result; [by left |].
  destruct (py_eq _ (PStr "private-r2")); inv_result.
  destruct (dict_get _ bindings) as [b|] eqn:Hb; inv_result.
  right. split; [done |]. eexists _, b. split; [done | split; [done |]].
  match goal with Hs : bool_decide _ = false |- _ => apply bool_decide_eq_false, dec_stable in Hs; done end.
Qed.

Lemma _profile_from_dict_wf name raw bindings p :
  _profile_from_dict name raw bindings = Ok p ->
  prof_name p = name /\ name ∈ PROFILE_NAMES
  /\ (forall rule, rule ∈ profile_rules p -> rule_workspace_id rule = prof_workspace_id p)
  /\ ((dest_kind (prof_destination p) = "local-only" /\ dest_binding_id (prof_destination p) = None)
      \/ (dest_kind (prof_destination p) = "private-r2" /\ exists id binding,
          dest_binding_id (prof_destination p) = Some id
          /\ dict_get id bindings = Some binding /\ bind_scope binding = name)).
Proof.
  unfold _profile_from_dict. intros H. destruct raw as [| | | | | |d]; try done. inv_result.
  destruct (as_list _) as [allow|]; [|done]. destruct (as_list _) as [deny|]; [|done]. inv_result.
  destruct (as_bool _) as [mem|]; [|done]. inv_result. simpl.
  repeat match goal with
  | H : existsb _ _ = false |- _ => rewrite existsb_none in H
  | H : _destination _ _ _ = Ok _ |- _ => apply _destination_wf in H
  | H : bool_decide (name ∉ PROFILE_NAMES) = false |- _ => apply bool_decide_eq_false, dec_stable in H
  end.
  split; [done | split; [done | split; [|done]]].
  intros rule Hr. unfold profile_rules in Hr. simpl in Hr.
  match goal with H : forall x, x ∈ _ ++ _ -> _ |- _ => apply H in Hr end.
  by apply bool_decide_eq_false, dec_stable in Hr.
Qed.

Lemma _named_profile_wf bindings raws profiles :
  map_result (_named_profile bindings) raws = Ok profiles ->
  Forall (fun kv => exists raw, _profile_from_dict kv.1 raw bindings = Ok kv.2) profiles.
Proof.
  intros H%map_result_Ok. induction H as [|[k raw] [k' p] raws ps Hp _ IH]; constructor; [|done].
  unfold _named_profile in Hp. simpl in Hp. inv_result. eauto.
Qed.

Lemma values_fmap {V W} (f : V -> W) (l : list (string * V)) :
  (fun kv => f kv.2) <$> l = f <$> l.*2.
Proof. by rewrite <- list_fmap_compose. Qed.

Lemma loaded_profiles_wf bindings raws profiles :
  map_result (_named_profile bindings) raws = Ok profiles ->
  NoDup (prof_profile_id <$> profiles.*2) -> NoDup (prof_workspace_id <$> profiles.*2) ->
  config_wf {| cfg_profiles := profiles; cfg_r2_bindings := bindings |}.
Proof.
  intros Hp Hids Hws. apply _named_profile_wf in Hp.
  assert (forall p, p ∈ profiles.*2 -> exists raw, _profile_from_dict (prof_name p) raw bindings = Ok p) as Hload.
  { intros p ([k q] & -> & Hkq)%list_elem_of_fmap. rewrite Forall_forall in Hp.
    destruct (Hp _ Hkq) as [raw Hraw]. exists raw. simpl in *.
    by destruct (_profile_from_dict_wf _ _ _ _ Hraw) as [-> _]. }
  split; simpl; [| done | done | | |].
  - clear Hload Hids Hws. induction Hp as [|[k p] ps [raw Hraw] _ IH]; csimpl; [done |].
    apply _profile_from_dict_wf in Hraw as [Hn _]. simpl in Hn. by rewrite Hn, IH.
  - intros p rule [raw Hraw]%Hload. by apply (_profile_from_dict_wf _ _ _ _ Hraw).
  - intros p [raw Hraw]%Hload. unfold destination_wf. simpl. by apply (_profile_from_dict_wf _ _ _ _ Hraw).
  - intros p [raw Hraw]%Hload. by apply (_profile_from_dict_wf _ _ _ _ Hraw).
Qed.

Lemma from_dict_config_wf body config : PolicyConfig_from_dict body = Ok config -> config_wf config.
Proof.
  unfold PolicyConfig_from_dict. intros H. destruct body as [| | | | | |d]; try done. inv_result.
  destruct (as_dict _) as [rb|]; [|done]. inv_result.
  destruct (as_dict _) as [rp|]; [|done]. inv_result.
  rewrite !values_fmap in *. bools.
  eapply loaded_profiles_wf; eauto.
Qed.

(** At most one profile of a loaded configuration matches a context. *)
Lemma config_wf_one_candidate config context :
  config_wf config -> length (_matching_profiles config context) <= 1.
Proof.
  intros Hwf. pose proof (wf_workspace_ids config Hwf) as Hnd.
  assert (forall p, p ∈ _matching_profiles config context ->
    ctx_workspace_id context = Some (prof_workspace_id p)) as Hid.
  { intros p [Hp (rule & Hr & Hm)]%elem_of_candidates. unfold matches in Hm. bools.
    rewrite <- (wf_rules config Hwf p rule Hp); [done |]. apply elem_of_app. by left. }
  assert (NoDup (prof_workspace_id <$> _matching_profiles config context)) as Hnd'.
  { eapply sublist_NoDup; [exact Hnd |]. unfold _matching_profiles. f_equiv. apply sublist_filter. }
  destruct (_matching_profiles config context) as [|p [|q l]]; simpl; [lia..|].
  exfalso. pose proof (Hid p ltac:(left)). pose proof (Hid q ltac:(right; left)).
  csimpl in Hnd'. apply NoDup_cons in Hnd' as [Hn _]. apply Hn.
  replace (prof_workspace_id p) with (prof_workspace_id q) by congruence. left.
Qed.

(** ** The properties *)

(** C12: [decide] returns an allow decision exactly for authorized requests, and
    names the authorized profile: a host-observed, error-free, non-symlink
    context, non-empty sources, no matching deny rule, a single matching profile
    or a valid operator override, and every trigger, source, capture-mode and
    size check of that profile. *)
Theorem decide_allow_iff config request name :
  request_ok request ->
  (exists d, decide config request = Ok d /\ dec_kind d = "allow" /\ dec_profile_name d = Some name)
  <-> (exists p, authorized config request p /\ prof_name p = name).
Proof.
  intros Hreq. split.
  - intros (d & Hd & Hk & Hn). pose proof (decide_cases config request d Hd) as Hc.
    unfold refusal in Hc. rewrite Hk in Hc.
    destruct Hc as [[_ [Hc _]]|[(_ & _ & Hc & _)|(Hr & p & att & Hs & Hp)]]; [set_solver.. |].
    exists p. pose proof (decide_profile_name _ _ _ _ Hp) as Hn'.
    apply decide_profile_allow in Hp. apply selected_spec in Hs. apply not_refused_early in Hr.
    unfold authorized. split; [tauto | congruence].
  - intros (p & (Ht & Hl & Hnd & Hs & Hperm & Hdest) & <-). apply selected_spec in Hs.
    destruct (decide_total_undenied config request Hreq Hnd) as [d Hd].
    exists d. split; [done |].
    destruct (decide_cases config request d Hd) as [[Hr _]|[(_ & Hs' & _)|(_ & q & att & Hs' & Hp)]].
    + exfalso. revert Hr. by apply not_refused_early.
    + congruence.
    + rewrite Hs in Hs'. injection Hs' as <-. rewrite (decide_profile_name _ _ _ _ Hp).
      split; [by apply (decide_profile_allow _ _ _ _ Hp) | done].
Qed.

(** C13: a deny rule that matches the host-observed context wins over every allow
    rule and every operator override: the decision is a denial (or an earlier
    refusal) and never an allow. *)
Theorem deny_precedence config request d profile rule :
  decide config request = Ok d ->
  profile ∈ (cfg_profiles config).*2 -> rule ∈ prof_deny_rules profile ->
  matches (deny_match rule) (req_context request) = true ->
  dec_kind d ∈ ["local-only"; "quarantine"; "deny"]
  /\ (context_trusted (req_context request) -> req_logical_sources request ≠ [] ->
      dec_kind d = "deny" /\ exists reason, dec_reason_codes d = ["policy.explicit-deny"; reason]).
Proof.
  intros Hd Hp Hr Hm.
  assert (~ not_denied config (req_context request)) as Hden.
  { intros H. by rewrite (H profile rule Hp Hr) in Hm. }
  split.
  - destruct (decide_cases config request d Hd) as [[_ [? _]]|[(Hno & _)|(Hno & _)]]; [done | |];
      exfalso; apply Hno; unfold refused_early; tauto.
  - intros (Hs & He & Hpe & Hk) Hl. revert Hd. unfold decide.
    rewrite Hs, He, Hpe, (bool_decide_false (ctx_path_kind _ = _)), (bool_decide_false (_ = [])) by done.
    simpl. destruct (_matching_denials config (req_context request)) eqn:Hden'.
    { by apply denials_nil in Hden'. }
    case_match. intros. inv_result.
    match goal with H : _decision _ _ _ _ _ = Ok d |- _ => apply _decision_fields in H as (-> & -> & _) end.
    eauto.
Qed.

(** A non-local destination class appears in allow decisions only; every
    denial, quarantine and local-only decision keeps the evidence local. *)
Theorem destination_only_when_allowed config request d :
  decide config request = Ok d -> dec_destination_class d ≠ "local-only" -> dec_kind d = "allow".
Proof.
  intros Hd Hclass.
  destruct (decide_cases config request d Hd) as [[_ [_ Hc]]|[(_ & _ & _ & Hc)|(_ & p & att & _ & Hp)]];
    [done.. |]. by eapply decide_profile_class.
Qed.

Lemma sanitize_Ok values allow_empty sources :
  sanitize_logical_sources values allow_empty = Ok sources ->
  values = PList (PStr <$> sources) /\ length sources <= LOGICAL_SOURCE_MAX_ITEMS /\ NoDup sources
  /\ for_each check_logical_source sources = Ok tt.
Proof.
  unfold sanitize_logical_sources. destruct values as [| | | | |l|]; try done. intros H.
  destruct (_ || _) eqn:Hbad in H; [done |]. apply orb_false_iff in Hbad as [_ Hlen].
  destruct (all_strings l) as [ss|] eqn:Hss; [|done]. inv_result. bools.
  apply Nat.ltb_ge in Hlen. unfold all_strings in Hss. apply mapM_Some in Hss.
  assert (l = PStr <$> sources) as ->.
  { clear -Hss. induction Hss as [|v s vs ss Hv _ IH]; [done |].
    rewrite fmap_cons, <- IH. by destruct v; simplify_eq/=. }
  rewrite length_fmap in Hlen. auto.
Qed.

Lemma sanitize_again sources :
  length sources <= LOGICAL_SOURCE_MAX_ITEMS -> NoDup sources ->
  for_each check_logical_source sources = Ok tt ->
  sanitize_logical_sources (PList (PStr <$> sources)) true = Ok sources.
Proof.
  intros Hlen Hnd Hc. unfold sanitize_logical_sources, all_strings.
  rewrite andb_false_r, length_fmap. simpl. apply Nat.ltb_ge in Hlen. rewrite Hlen.
  assert (mapM as_str (PStr <$> sources) = Some sources) as ->.
  { apply mapM_Some. clear. induction sources; constructor; done. }
  rewrite bool_decide_true by done. simpl. by rewrite Hc.
Qed.

Lemma request_init_ok ctx sources trigger a b c e ov request :
  CaptureRequest_init ctx sources trigger a b c e ov = Ok request ->
  request_ok request /\ req_context request = ctx.
Proof.
  unfold CaptureRequest_init. intros H. inv_result. destruct (as_str trigger); [|done]. inv_result.
  match goal with H : sanitize_logical_sources _ _ = Ok _ |- _ => apply sanitize_Ok in H as (_ & ? & ? & ?) end.
  split; [|done]. by apply sanitize_again.
Qed.

(** C30: every request the constructor accepts is decided under every policy the
    loader accepts: [decide] returns, and never for want of a unique profile,
    because loaded profiles have distinct workspaces and only match their own. *)
Theorem loaded_policy_decides body config ctx sources trigger a b c e ov request :
  PolicyConfig_from_dict body = Ok config ->
  CaptureRequest_init ctx sources trigger a b c e ov = Ok request ->
  exists d, decide config request = Ok d /\ dec_reason_codes d ≠ ["policy.ambiguous-profile"].
Proof.
  intros Hwf%from_dict_config_wf [Hreq _]%request_init_ok.
  destruct (decide_total_aux config request (wf_keys _ Hwf) Hreq) as [d Hd].
  exists d. split; [done |]. revert Hd. unfold decide.
  pose proof (config_wf_one_candidate config (req_context request) Hwf) as Hone.
  assert (forall kind r1 rs profile att, _decision kind (r1 :: rs) request profile att = Ok d ->
    r1 ≠ "policy.ambiguous-profile" -> dec_reason_codes d ≠ ["policy.ambiguous-profile"]) as Haux.
  { intros kind r1 rs profile att H Hr. apply _decision_fields in H as (_ & -> & _). congruence. }
  unfold decide_override, decide_profile, limit_violation.
  repeat (case_match; simplify_eq/=; try (intros H'; eapply Haux; [exact H' | done])); try lia.
  all: intros H'; inv_result; eapply Haux; [done..].
Qed.

(** An allow decision of a loaded policy goes to the private R2 binding of the
    decided profile's own scope, never to another profile's. *)
Theorem loaded_allow_scope body config request d :
  PolicyConfig_from_dict body = Ok config -> decide config request = Ok d -> dec_kind d = "allow" ->
  exists p id binding,
    p ∈ (cfg_profiles config).*2 /\ dec_profile_name d = Some (prof_name p)
    /\ dest_kind (prof_destination p) = "private-r2" /\ dest_binding_id (prof_destination p) = Some id
    /\ dict_get id (cfg_r2_bindings config) = Some binding /\ bind_scope binding = prof_name p.
Proof.
  intros Hwf%from_dict_config_wf Hd Hk.
  destruct (decide_cases config request d Hd) as [[_ [Hc _]]|[(_ & _ & Hc & _)|(_ & p & att & Hs & Hp)]];
    [rewrite Hk in Hc; set_solver.. |].
  pose proof (decide_profile_name _ _ _ _ Hp) as Hn.
  apply decide_profile_allow in Hp as [Hp _]. destruct (Hp Hk) as [_ Hdest].
  assert (p ∈ (cfg_profiles config).*2) as Hin.
  { apply selected_spec in Hs. unfold selects in Hs. destruct (req_override request) as [ov|].
    - destruct Hs as (name & audit & cross & _ & _ & _ & _ & _ & _ & _ & Hget & _).
      apply dict_get_elem in Hget. apply list_elem_of_fmap. by exists (name, p).
    - apply (elem_of_candidates config (req_context request)). rewrite Hs. left. }
  destruct (wf_destinations config Hwf p Hin) as [[? _]|(Hpr & id & binding & ? & ? & ?)]; [done |].
  exists p, id, binding. done.
Qed.

(** A configuration the loader accepts is well formed: the four profiles carry
    their own names, distinct profile and workspace ids, rules of their own
    workspace and a local or own-scope destination. *)
Theorem from_dict_wf body config : PolicyConfig_from_dict body = Ok config -> config_wf config.
Proof. apply from_dict_config_wf. Qed.

Lemma RepositoryIdentity_init_ok host namespace name identity :
  RepositoryIdentity_init host namespace name = Ok identity ->
  host_ok (repo_host identity) = true /\ namespace_ok (repo_namespace identity) = true
  /\ name_ok (repo_name identity) = true.
Proof.
  unfold RepositoryIdentity_init. intros H.
  destruct (as_str host) as [h|]; [|done]. inv_result.
  destruct (as_str namespace) as [ns|]; [|done]. inv_result.
  destruct (as_str name) as [n|]; [|done]. inv_result. bools. done.
Qed.

Definition public_char (c : ascii) : bool := is_alnum c || one_of "._-/" c.

Lemma part_public s : fullmatch PART_RE s = true -> Forall (fun c => public_char c = true) (chars s).
Proof.
  intros [_ H]%fullmatch_between. eapply Forall_impl; [exact H |]. intros c Hc.
  unfold public_char. apply orb_true_iff in Hc as [->|Hc]; [done |].
  apply orb_true_iff. right. revert Hc. unfold one_of. rewrite !bool_decide_eq_true. set_solver.
Qed.

Lemma host_public s : host_ok s = true -> Forall (fun c => public_char c = true) (chars s).
Proof.
  unfold host_ok. intros H. bools. rewrite <- H0 in H. apply fullmatch_between in H as [_ H].
  eapply Forall_impl; [exact H |]. intros c Hc. unfold public_char, is_alnum.
  apply orb_true_iff in Hc as [Hc|Hc]; [apply orb_true_iff in Hc as [->| ->]; by rewrite ?orb_true_r |].
  apply orb_true_iff. right. revert Hc. unfold one_of. rewrite !bool_decide_eq_true. set_solver.
Qed.

Lemma namespace_public s : namespace_ok s = true -> Forall (fun c => public_char c = true) (chars s).
Proof.
  unfold namespace_ok. intros H. bools.
  match goal with H : forallb (fullmatch PART_RE) _ = true |- _ => rename H into Hp end.
  eapply Forall_impl; [apply (py_split_Forall "/" (fun c => public_char c = true)) |].
  - rewrite forallb_elem in Hp. apply Forall_forall. intros w Hw. by apply part_public, Hp.
  - intros c [Hc | ->]; done.
Qed.

(** A repository identity accepted from a remote carries no credential: every
    character of its stable id is a letter, a digit or one of [._/-]. *)
Theorem from_remote_sanitized `{UrlRuntime} remote identity :
  from_remote remote = Ok identity ->
  host_ok (repo_host identity) = true /\ namespace_ok (repo_namespace identity) = true
  /\ name_ok (repo_name identity) = true
  /\ Forall (fun c => public_char c = true) (chars (stable_id identity)).
Proof.
  unfold from_remote. intros Hr. apply bind_Ok_inv in Hr as (? & _ & Hr).
  apply bind_Ok_inv in Hr as (? & _ & Hr). apply bind_Ok_inv in Hr as ([host path] & _ & Hr). inv_result.
  apply RepositoryIdentity_init_ok in Hr as (Hh & Hns & Hn). split; [done | split; [done | split; [done |]]].
  unfold stable_id. autorewrite with room_rw. rewrite !Forall_app.
  split; [by apply host_public |]. split; [by repeat constructor |]. split; [by apply namespace_public |].
  split; [by repeat constructor |]. unfold name_ok in Hn. bools. by apply part_public.
Qed.

(** ** A concrete policy and request, evaluated *)
Definition ex_repository : pyobj :=
  PDict [("host", PStr "github.com"); ("namespace", PStr "joshyorko"); ("name", PStr "josh-room")].
Definition ex_rule (ws : string) : pyobj :=
  PDict [("workspace_id", PStr ws); ("repository", ex_repository)].
Definition ex_deny (ws : string) : pyobj :=
  PDict [("workspace_id", PStr ws); ("repository", ex_repository); ("reason_code", PStr "client-material")].
Definition ex_profile (name : string) (destination : pyobj) (allow deny : list pyobj) : string * pyobj :=
  (name, PDict [("profile_id", PStr (name +:+ "-profile")); ("workspace_id", PStr (name +:+ "-ws"));
    ("allowed_sources", PList [PStr "codex.transcript"]); ("capture_mode", PStr "transcript");
    ("triggers", PList [PStr "session-end"]); ("destination", destination);
    ("recipient_set_ref", PStr "recipients");
    ("limits", PDict ((fun f => (f, PInt 1000)) <$> LIMIT_FIELDS));
    ("allow_rules", PList allow); ("deny_rules", PList deny); ("downstream_memory", PBool false);
    ("policy_version", PStr "1.0"); ("provenance", PStr "private-host-config")]).
Definition ex_local : pyobj := PDict [("kind", PStr "local-only")].
Definition ex_r2 : pyobj := PDict [("kind", PStr "private-r2"); ("binding_id", PStr "oss-bucket")].
Definition ex_policy : pyobj :=
  PDict [("$schema", PStr POLICY_SCHEMA_URI); ("schema", PStr "josh-room.capture-policy");
    ("schema_version", PDict [("major", PInt 1); ("minor", PInt 0)]);
    ("r2_bindings", PDict [("oss-bucket",
       PDict [("scope", PStr "oss"); ("credential_profile_ref", PStr "oss-r2")])]);
    ("profiles", PDict [ex_profile "oss" ex_r2 [ex_rule "oss-ws"] [];
       ex_profile "work" ex_local [ex_rule "work-ws"] [ex_deny "work-ws"];
       ex_profile "personal" ex_local [] []; ex_profile "homelab" ex_local [] []])].
Definition ex_config : PolicyConfig :=
  match PolicyConfig_from_dict ex_policy with
  | Ok c => c
  | Raise _ => {| cfg_profiles := []; cfg_r2_bindings := [] |}
  end.
Definition ex_context (ws : string) : PolicyContext :=
  {| ctx_workspace_id := Some ws;
     ctx_repository := Some {| repo_host := "github.com"; repo_namespace := "joshyorko"; repo_name := "josh-room" |};
     ctx_workspace_path := None; ctx_normalized_path := None; ctx_path_kind := "directory";
     ctx_source := "host-observed"; ctx_remote_error := None; ctx_path_error := None; ctx_claimed_values := [] |}.
Definition ex_override : OperatorOverride :=
  {| ov_profile_name := PStr "oss"; ov_interactive := PBool true; ov_confirmed := PBool true;
     ov_actor := PStr "operator-cli"; ov_audit_reason_code := PStr "incident-review";
     ov_cross_scope_confirmed := PBool true |}.
Definition ex_request (ws : string) (ov : option OperatorOverride) : CaptureRequest :=
  {| req_context := ex_context ws; req_logical_sources := ["codex.transcript"];
     req_trigger := "session-end"; req_record_bytes := 10; req_asset_bytes := 0;
     req_session_bytes := 100; req_outbox_bytes := 0; req_override := ov |}.

(** URL checks that accept every authority. *)
Definition ex_url : UrlRuntime := {| bracketed_ok := fun _ => true; netloc_ok := fun _ => true |}.

Lemma decide_allow_iff_witness :
  request_ok (ex_request "oss-ws" None)
  /\ exists p, authorized ex_config (ex_request "oss-ws" None) p /\ prof_name p = "oss".
Proof.
  assert (request_ok (ex_request "oss-ws" None)) as H by (vm_compute; reflexivity).
  split; [exact H |]. apply (decide_allow_iff ex_config _ "oss" H).
  eexists. split; [vm_compute; reflexivity | split; reflexivity].
Defined.

Definition ex_work : option CaptureProfile := dict_get "work" (cfg_profiles ex_config).

Lemma deny_precedence_witness :
  exists d, decide ex_config (ex_request "work-ws" (Some ex_override)) = Ok d
  /\ dec_kind d = "deny" /\ exists reason, dec_reason_codes d = ["policy.explicit-deny"; reason].
Proof.
  destruct ex_work as [work|] eqn:Hw; [|exfalso; vm_compute in Hw; congruence].
  destruct (prof_deny_rules work) as [|rule rules] eqn:Hr;
    [exfalso; vm_compute in Hw; injection Hw as <-; vm_compute in Hr; congruence |].
  eexists. split; [vm_compute; reflexivity |].
  eapply (deny_precedence ex_config (ex_request "work-ws" (Some ex_override)) _ work rule).
  - vm_compute; reflexivity.
  - apply dict_get_elem in Hw. apply list_elem_of_fmap. by exists ("work", work).
  - rewrite Hr. left.
  - vm_compute in Hw. injection Hw as <-. vm_compute in Hr. injection Hr as <- <-. vm_compute. reflexivity.
  - split; [reflexivity | split; [reflexivity | split; [reflexivity |]]]. vm_compute. congruence.
  - vm_compute. congruence.
Defined.

Lemma destination_only_when_allowed_witness :
  exists d, decide ex_config (ex_request "oss-ws" None) = Ok d
  /\ dec_destination_class d = "private-r2" /\ dec_kind d = "allow".
Proof.
  eexists. split; [vm_compute; reflexivity |]. split; [reflexivity |].
  eapply (destination_only_when_allowed ex_config (ex_request "oss-ws" None)); [vm_compute; reflexivity |].
  vm_compute. congruence.
Defined.

Lemma loaded_policy_decides_witness :
  exists d, decide ex_config (ex_request "oss-ws" None) = Ok d
  /\ dec_reason_codes d ≠ ["policy.ambiguous-profile"].
Proof.
  eapply (loaded_policy_decides ex_policy ex_config (ex_context "oss-ws")
            (PList [PStr "codex.transcript"]) (PStr "session-end")
            (PInt 10) (PInt 0) (PInt 100) (PInt 0) None (ex_request "oss-ws" None));
    vm_compute; reflexivity.
Defined.

Lemma loaded_allow_scope_witness :
  exists p id binding,
    p ∈ (cfg_profiles ex_config).*2 /\ Some "oss" = Some (prof_name p)
    /\ dest_kind (prof_destination p) = "private-r2" /\ dest_binding_id (prof_destination p) = Some id
    /\ dict_get id (cfg_r2_bindings ex_config) = Some binding /\ bind_scope binding = prof_name p.
Proof.
  destruct (decide ex_config (ex_request "oss-ws" None)) as [d|e] eqn:Hd; [|exfalso; vm_compute in Hd; congruence].
  pose proof (loaded_allow_scope ex_policy ex_config (ex_request "oss-ws" None) d) as H.
  vm_compute in Hd. injection Hd as <-. apply H; vm_compute; reflexivity.
Defined.

Lemma from_dict_wf_witness : config_wf ex_config.
Proof. apply (from_dict_wf ex_policy). vm_compute. reflexivity. Defined.

Lemma from_remote_sanitized_witness :
  Forall (fun c => public_char c = true) (chars "github.com/joshyorko/josh-room").
Proof.
  apply (from_remote_sanitized (H := ex_url) "https://github.com/joshyorko/josh-room.git"
    {| repo_host := "github.com"; repo_namespace := "joshyorko"; repo_name := "josh-room" |}).
  vm_compute. reflexivity.
Defined.
