(* ===== verification/Base64.v ===== *)
(** * Base64 ([base64])

    [b64encode] and the validating [b64decode]; a byte string is a [string], and prepared
    records store ciphertext this way.  Then [urlsafe_b64encode] and the lenient
    [urlsafe_b64decode], which skips what it does not know, so that its callers compare the
    re-encoding. *)

From Stdlib Require Import Ascii.
From S2P Require Import Prelude PyStr.

Definition b64_char (n : nat) : ascii :=
  ascii_of_nat (if (n <? 26)%nat then 65 + n else if (n <? 52)%nat then 71 + n
                else if (n <? 62)%nat then n - 4 else if (n =? 62)%nat then 43 else 47).
Definition b64_value (c : ascii) : option nat :=
  let n := nat_of_ascii c in
  if is_upper c then Some (n - 65)
  else if is_lower c then Some (n - 71)
  else if is_digit c then Some (n + 4)
  else if (n =? 43)%nat then Some 62
  else if (n =? 47)%nat then Some 63
  else None.

Definition pad : ascii := "="%char.
Definition sext0 (a : nat) : nat := a / 4.
Definition sext1 (a b : nat) : nat := (a mod 4) * 16 + b / 16.
Definition sext2 (b c : nat) : nat := (b mod 16) * 4 + c / 64.
Definition sext3 (c : nat) : nat := c mod 64.

Fixpoint b64_encode (l : list ascii) : list ascii :=
  match l with
  | [] => []
  | [a] => let a := nat_of_ascii a in [b64_char (sext0 a); b64_char (sext1 a 0); pad; pad]
  | [a; b] =>
      let a := nat_of_ascii a in let b := nat_of_ascii b in
      [b64_char (sext0 a); b64_char (sext1 a b); b64_char (sext2 b 0); pad]
  | a :: b :: c :: l =>
      let a := nat_of_ascii a in let b := nat_of_ascii b in let c := nat_of_ascii c in
      b64_char (sext0 a) :: b64_char (sext1 a b) :: b64_char (sext2 b c) :: b64_char (sext3 c) :: b64_encode l
  end.

Definition byte0 (s t : nat) : ascii := ascii_of_nat (s * 4 + t / 16).
Definition byte1 (t u : nat) : ascii := ascii_of_nat ((t mod 16) * 16 + u / 4).
Definition byte2 (u v : nat) : ascii := ascii_of_nat ((u mod 4) * 64 + v).

(** Padding is accepted in the last quadruple only. *)
Fixpoint b64_decode (l : list ascii) : option (list ascii) :=
  match l with
  | [] => Some []
  | p :: q :: r :: s :: l =>
      match b64_value p, b64_value q, b64_value r, b64_value s with
      | Some p, Some q, Some r, Some s =>
          rest ← b64_decode l; Some (byte0 p q :: byte1 q r :: byte2 r s :: rest)
      | Some p, Some q, Some r, None =>
          if bool_decide (s = pad) && bool_decide (l = []) then Some [byte0 p q; byte1 q r] else None
      | Some p, Some q, None, None =>
          if bool_decide (r = pad) && bool_decide (s = pad) && bool_decide (l = []) then Some [byte0 p q] else None
      | _, _, _, _ => None
      end
  | _ => None
  end.

Definition b64encode (s : string) : string := of_chars (b64_encode (chars s)).
Definition b64decode (s : string) : option string := of_chars <$> b64_decode (chars s).

(** Quotients and remainders by numerals, as unknowns with their defining facts,
    innermost first. *)
Ltac div_mod_step :=
  match goal with
  | |- context [?a / ?b] =>
      lazymatch a with context [_ / _] => fail | context [_ mod _] => fail | _ => idtac end;
      pose proof (Nat.div_mod_eq a b); pose proof (Nat.mod_upper_bound a b ltac:(done));
      generalize dependent (a mod b); generalize dependent (a / b); intros
  | |- context [?a mod ?b] =>
      lazymatch a with context [_ / _] => fail | context [_ mod _] => fail | _ => idtac end;
      pose proof (Nat.div_mod_eq a b); pose proof (Nat.mod_upper_bound a b ltac:(done));
      generalize dependent (a mod b); generalize dependent (a / b); intros
  end.
Ltac div_lia := repeat div_mod_step; lia.

Lemma b64_value_char n : n < 64 -> b64_value (b64_char n) = Some n.
Proof.
  intros Hn. assert (forallb (fun n => bool_decide (b64_value (b64_char n) = Some n)) (seq 0 64) = true) as H
    by (vm_compute; reflexivity).
  rewrite forallb_forall in H. eapply bool_decide_eq_true_1, H, in_seq. lia.
Qed.
Lemma b64_value_pad : b64_value pad = None.
Proof. reflexivity. Qed.

Lemma byte_lt c : nat_of_ascii c < 256.
Proof. apply nat_ascii_bounded. Qed.

Lemma sext_lt a b c : a < 256 -> b < 256 -> c < 256 ->
  sext0 a < 64 /\ sext1 a b < 64 /\ sext2 b c < 64 /\ sext3 c < 64.
Proof. unfold sext0, sext1, sext2, sext3. intros. repeat split; div_lia. Qed.

Lemma bytes_sext (a b c : ascii) :
  let a' := nat_of_ascii a in let b' := nat_of_ascii b in let c' := nat_of_ascii c in
  byte0 (sext0 a') (sext1 a' b') = a /\ byte1 (sext1 a' b') (sext2 b' c') = b
  /\ byte2 (sext2 b' c') (sext3 c') = c.
Proof.
  simpl. pose proof (byte_lt a). pose proof (byte_lt b). pose proof (byte_lt c).
  unfold byte0, byte1, byte2, sext0, sext1, sext2, sext3.
  assert (forall x n, n = nat_of_ascii x -> ascii_of_nat n = x) as Hx
    by (intros x n ->; apply ascii_nat_embedding).
  repeat split; apply Hx; generalize dependent (nat_of_ascii a); generalize dependent (nat_of_ascii b);
    generalize dependent (nat_of_ascii c); intros; div_lia.
Qed.

Ltac sext_bound :=
  repeat match goal with |- context [nat_of_ascii ?x] =>
    let H := fresh in pose proof (byte_lt x) as H; generalize dependent (nat_of_ascii x); intros end;
  match goal with
  | |- sext0 ?a < _ => destruct (sext_lt a 0 0); lia
  | |- sext1 ?a ?b < _ => destruct (sext_lt a b 0) as (? & ? & ?); lia
  | |- sext2 ?b ?c < _ => destruct (sext_lt 0 b c) as (? & ? & ? & ?); lia
  | |- sext3 ?c < _ => destruct (sext_lt 0 0 c) as (? & ? & ? & ?); lia
  end.

(** Decoding an encoding gives the bytes back. *)
Lemma b64_decode_encode l : b64_decode (b64_encode l) = Some l.
Proof.
  assert (forall n l, length l <= n -> b64_decode (b64_encode l) = Some l) as H; [|by eapply H].
  clear l. intros n. induction n as [|n IH]; intros l Hl; [by destruct l; simpl in *; [|lia] |].
  destruct l as [|a [|b [|c l]]]; [done | | |];
    cbn [b64_encode b64_decode]; rewrite ?b64_value_pad, ?b64_value_char by sext_bound.
  - pose proof (bytes_sext a zero zero) as (H & _ & _). cbv zeta in H. change (nat_of_ascii zero) with 0 in H.
    rewrite !bool_decide_true by done. cbn [andb]. by rewrite H.
  - pose proof (bytes_sext a b zero) as (H & H' & _). cbv zeta in H, H'. change (nat_of_ascii zero) with 0 in H, H'.
    rewrite !bool_decide_true by done. cbn [andb]. by rewrite H, H'.
  - simpl in Hl. rewrite IH by lia. pose proof (bytes_sext a b c) as (Ha & Hb & Hc). cbv zeta in Ha, Hb, Hc.
    cbn [mbind option_bind]. by rewrite Ha, Hb, Hc.
Qed.

Lemma b64decode_encode s : b64decode (b64encode s) = Some s.
Proof.
  unfold b64decode, b64encode. rewrite chars_of_chars, b64_decode_encode. simpl. by rewrite of_chars_chars.
Qed.

(** Four characters for every three bytes begun. *)
Lemma b64_encode_length l : length (b64_encode l) = (length l + 2) / 3 * 4.
Proof.
  assert (forall n l, length l <= n -> length (b64_encode l) = (length l + 2) / 3 * 4) as H; [|by eapply H].
  clear l. intros n. induction n as [|n IH]; intros l Hl; [by destruct l; simpl in *; [|lia] |].
  destruct l as [|a [|b [|c l]]]; [done | done | done |].
  cbn [b64_encode length]. cbn [length] in Hl. rewrite IH by lia.
  replace (S (S (S (length l))) + 2) with (length l + 2 + 1 * 3) by lia.
  rewrite Nat.div_add by lia. lia.
Qed.

Lemma b64encode_length s : py_len (b64encode s) = (py_len s + 2) / 3 * 4.
Proof. unfold b64encode. rewrite <- !length_chars, chars_of_chars. apply b64_encode_length. Qed.

(** [binascii.a2b_base64] skips characters outside the alphabet, keeps the bits of the
    last characters read and stops at a complete quadruple of padding. *)
Fixpoint a2b_base64 (quad left pads : nat) (l : list ascii) : option (list ascii) :=
  match l with
  | [] => if (quad =? 0)%nat then Some [] else None
  | c :: l =>
      if bool_decide (c = pad) then
        if (2 <=? quad)%nat then
          if (4 <=? quad + S pads)%nat then Some [] else a2b_base64 quad left (S pads) l
        else a2b_base64 quad left pads l
      else
        match b64_value c with
        | None => a2b_base64 quad left pads l
        | Some v =>
            match quad with
            | 0 => a2b_base64 1 v 0 l
            | 1 => cons (ascii_of_nat (left * 4 + v / 16)) <$> a2b_base64 2 (v mod 16) 0 l
            | 2 => cons (ascii_of_nat (left * 16 + v / 4)) <$> a2b_base64 3 (v mod 4) 0 l
            | _ => cons (ascii_of_nat (left * 64 + v)) <$> a2b_base64 0 0 0 l
            end
        end
  end.

Definition to_urlsafe (c : ascii) : ascii := if bool_decide (c = "+"%char) then "-"%char else if bool_decide (c = "/"%char) then "_"%char else c.
Definition of_urlsafe (c : ascii) : ascii := if bool_decide (c = "-"%char) then "+"%char else if bool_decide (c = "_"%char) then "/"%char else c.
Definition urlsafe_b64encode (s : string) : string := of_chars (to_urlsafe <$> b64_encode (chars s)).
Definition urlsafe_b64decode (s : string) : result string :=
  raise_if (str_any (fun c => (127 <? ord c)%Z) s) (EValue "string argument should contain only ASCII characters") ;;
  match a2b_base64 0 0 0 (of_urlsafe <$> chars s) with
  | Some l => Ok (of_chars l)
  | None => Raise (EValue "Incorrect padding")
  end.

(** The characters of an encoding: letters of the alphabet, then padding. *)
Lemma b64_char_props n : n < 64 ->
  b64_char n ≠ pad /\ of_urlsafe (to_urlsafe (b64_char n)) = b64_char n /\ to_urlsafe (b64_char n) ≠ pad
  /\ (ord (to_urlsafe (b64_char n)) <= 127)%Z.
Proof.
  intros Hn. assert (forallb (fun n => negb (Ascii.eqb (b64_char n) pad)
    && Ascii.eqb (of_urlsafe (to_urlsafe (b64_char n))) (b64_char n) && negb (Ascii.eqb (to_urlsafe (b64_char n)) pad)
    && (ord (to_urlsafe (b64_char n)) <=? 127)%Z) (seq 0 64) = true) as H by (vm_compute; reflexivity).
  rewrite forallb_forall in H. specialize (H n ltac:(apply in_seq; lia)). bools.
  repeat match goal with X : Ascii.eqb _ _ = true |- _ => apply Ascii.eqb_eq in X | X : Ascii.eqb _ _ = false |- _ => apply Ascii.eqb_neq in X end.
  done.
Qed.

Definition b64_letter (c : ascii) : Prop := exists n, n < 64 /\ c = b64_char n.

(** An encoding is letters and at most two characters of padding; the padding's length. *)
Lemma b64_encode_shape l : exists front, Forall b64_letter front
  /\ b64_encode l = front ++ replicate ((3 - length l mod 3) mod 3) pad
  /\ length front = (length l * 4 + 2) / 3.
Proof.
  assert (forall n l, length l <= n -> exists front, Forall b64_letter front
    /\ b64_encode l = front ++ replicate ((3 - length l mod 3) mod 3) pad
    /\ length front = (length l * 4 + 2) / 3) as H; [|by eapply H].
  clear l. intros n. induction n as [|n IH]; intros l Hl; [destruct l; simpl in *; [by exists [] | lia] |].
  assert (forall x, x < 64 -> b64_letter (b64_char x)) as Hx by (intros x ?; by exists x).
  destruct l as [|a [|b [|c l]]]; [by exists [] | | |]; cbn [b64_encode]; cbv zeta.
  - eexists [_; _]. split; [|done]. repeat apply Forall_cons_2; [| | by apply Forall_nil_2]; apply Hx; sext_bound.
  - eexists [_; _; _]. split; [|done]. repeat apply Forall_cons_2; [| | | by apply Forall_nil_2]; apply Hx; sext_bound.
  - simpl in Hl. destruct (IH l ltac:(lia)) as (front & Hf & He & Hlen). rewrite He.
    exists (b64_char (sext0 (nat_of_ascii a)) :: b64_char (sext1 (nat_of_ascii a) (nat_of_ascii b))
      :: b64_char (sext2 (nat_of_ascii b) (nat_of_ascii c)) :: b64_char (sext3 (nat_of_ascii c)) :: front).
    split; [|split].
    + repeat apply Forall_cons_2; [apply Hx; sext_bound..| done].
    + cbn [length app]. do 5 f_equal. replace (S (S (S (length l)))) with (length l + 1 * 3) by lia. by rewrite Nat.Div0.mod_add.
    + cbn [length]. rewrite Hlen. replace (S (S (S (length l))) * 4 + 2) with (length l * 4 + 2 + 4 * 3) by lia.
      rewrite Nat.div_add by lia. lia.
Qed.

Lemma a2b_char quad left pads n l : n < 64 -> a2b_base64 quad left pads (b64_char n :: l) =
  match quad with
  | 0 => a2b_base64 1 n 0 l
  | 1 => cons (ascii_of_nat (left * 4 + n / 16)) <$> a2b_base64 2 (n mod 16) 0 l
  | 2 => cons (ascii_of_nat (left * 16 + n / 4)) <$> a2b_base64 3 (n mod 4) 0 l
  | _ => cons (ascii_of_nat (left * 64 + n)) <$> a2b_base64 0 0 0 l
  end.
Proof.
  intros Hn. cbn [a2b_base64]. rewrite bool_decide_false by by apply b64_char_props. by rewrite b64_value_char.
Qed.

(** The lenient decoder inverts the encoder. *)
Lemma a2b_encode l : a2b_base64 0 0 0 (b64_encode l) = Some l.
Proof.
  assert (forall n l, length l <= n -> a2b_base64 0 0 0 (b64_encode l) = Some l) as H; [|by eapply H].
  clear l. intros n. induction n as [|n IH]; intros l Hl; [by destruct l; simpl in *; [|lia] |].
  destruct l as [|a [|b [|c l]]]; [done | | |]; cbn [b64_encode]; rewrite !a2b_char by sext_bound; cbv zeta.
  - pose proof (bytes_sext a zero zero) as (H & _ & _). cbv zeta in H. change (nat_of_ascii zero) with 0 in H.
    unfold byte0 in H. rewrite H. done.
  - pose proof (bytes_sext a b zero) as (H & H' & _). cbv zeta in H, H'. change (nat_of_ascii zero) with 0 in H, H'.
    unfold byte0, byte1 in H, H'. rewrite H, H'. done.
  - pose proof (bytes_sext a b c) as (Ha & Hb & Hc). cbv zeta in Ha, Hb, Hc. unfold byte0, byte1, byte2 in Ha, Hb, Hc.
    simpl in Hl. rewrite Ha, Hb, Hc, IH by lia. done.
Qed.

Lemma urlsafe_letter c : b64_letter c \/ c = pad -> of_urlsafe (to_urlsafe c) = c /\ (ord (to_urlsafe c) <= 127)%Z.
Proof. intros [(n & Hn & ->)| ->]; [|done]. by destruct (b64_char_props n Hn) as (_ & ? & _ & ?). Qed.

Lemma urlsafe_encode_chars l : Forall (fun c => b64_letter c \/ c = pad) (b64_encode l).
Proof.
  destruct (b64_encode_shape l) as (front & Hf & -> & _). apply Forall_app. split.
  - eapply Forall_impl; [exact Hf |]. auto.
  - apply Forall_replicate. by right.
Qed.

Lemma urlsafe_decode_encode s : urlsafe_b64decode (urlsafe_b64encode s) = Ok s.
Proof.
  unfold urlsafe_b64decode, urlsafe_b64encode, str_any. rewrite chars_of_chars.
  pose proof (urlsafe_encode_chars (chars s)) as Hc.
  assert (existsb (fun c => (127 <? ord c)%Z) (to_urlsafe <$> b64_encode (chars s)) = false) as ->.
  { apply not_true_iff_false. intros (c & Hin%list_elem_of_In & Hlt)%existsb_exists.
    apply list_elem_of_fmap in Hin as (d & -> & Hd). rewrite Forall_forall in Hc. apply Hc, urlsafe_letter in Hd as [_ Hd].
    apply Z.ltb_lt in Hlt. lia. }
  simpl. rewrite <- list_fmap_compose. assert (of_urlsafe ∘ to_urlsafe <$> b64_encode (chars s) = b64_encode (chars s)) as ->.
  { etrans; [|apply list_fmap_id]. apply list_fmap_ext. intros i c Hi. simpl. apply urlsafe_letter.
    rewrite Forall_forall in Hc. apply Hc. by eapply list_elem_of_lookup_2. }
  by rewrite a2b_encode, of_chars_chars.
Qed.

(** [urlsafe_b64encode(s).rstrip("=")] *)
Definition unpadded (s : string) : string := py_rstrip (Ascii.eqb pad) (urlsafe_b64encode s).

Lemma drop_while_none p (l : list ascii) c : p c = false -> drop_while p (c :: l) = c :: l.
Proof. simpl. by intros ->. Qed.

(** Stripping an encoding of [3 n + 2] bytes removes its one character of padding. *)
Lemma unpadded_pad s : py_len s mod 3 = 2 -> urlsafe_b64encode s = unpadded s +:+ "=".
Proof.
  intros Hm. destruct (b64_encode_shape (chars s)) as (front & Hf & He & Hlen). rewrite length_chars in *. rewrite Hm in He.
  unfold unpadded, urlsafe_b64encode, py_rstrip. rewrite He, chars_of_chars. simpl. rewrite fmap_app, reverse_app. simpl.
  assert (front ≠ []) as Hne.
  { intros ->. cbn [length] in Hlen. pose proof (Nat.div_mod_eq (py_len s) 3).
    pose proof (Nat.div_mod_eq (py_len s * 4 + 2) 3). pose proof (Nat.mod_upper_bound (py_len s * 4 + 2) 3). lia. }
  destruct front as [|c front _] using rev_ind; [done |].
  apply Forall_app in Hf as [_ [(n & Hn & ->) _]%Forall_cons]. destruct (b64_char_props n Hn) as (_ & _ & Hp & _).
  rewrite fmap_app, reverse_app. change (reverse (to_urlsafe <$> [b64_char n])) with [to_urlsafe (b64_char n)].
  change (reverse [to_urlsafe pad]) with [pad]. cbn [app drop_while]. change (Ascii.eqb pad pad) with true.
  assert (Ascii.eqb pad (to_urlsafe (b64_char n)) = false) as -> by (apply Ascii.eqb_neq; congruence).
  rewrite reverse_cons, reverse_involutive.
  rewrite <- (of_chars_chars (of_chars _ +:+ "=")), chars_app, chars_of_chars. done.
Qed.
