(* ===== verification/Bech32.v ===== *)
(** * Age recipients and identities ([src/josh_room/encryption_domain.py])

    The Bech32 checksum and the regrouping of bits, and the validators of age recipients
    and of operational identities built on them. *)

From S2P Require Import Prelude PyStr PyObj.
From Stdlib Require Import Ascii.

Definition _BECH32_ALPHABET : string := "qpzry9x8gf2tvdw0s3jn54khce6mua7l".

(** [_BECH32_ALPHABET.index(character)] *)
Fixpoint index_of (c : ascii) (l : list ascii) : option nat :=
  match l with
  | [] => None
  | d :: l => if Ascii.eqb c d then Some O else S <$> index_of c l
  end.
Definition alphabet_index (c : ascii) : result Z :=
  match index_of c (chars _BECH32_ALPHABET) with
  | Some i => Ok (Z.of_nat i)
  | None => Raise (EValue "substring not found")
  end.

(** ** The checksum *)
Definition _bech32_hrp_expand (hrp : string) : list Z :=
  ((fun c => Z.shiftr (ord c) 5) <$> chars hrp) ++ [0%Z] ++ ((fun c => Z.land (ord c) 31) <$> chars hrp).

Definition generators : list Z := [0x3B6A57B2; 0x26508E6D; 0x1EA119FA; 0x3D4233DD; 0x2A1462B3]%Z.

(** [for index, generator in enumerate(generators)], from [index] on *)
Fixpoint add_generators (top : Z) (index : Z) (gens : list Z) (checksum : Z) : Z :=
  match gens with
  | [] => checksum
  | generator :: gens =>
      add_generators top (index + 1) gens
        (if Z.eqb (Z.land (Z.shiftr top index) 1) 0 then checksum else Z.lxor checksum generator)
  end.
Definition polymod_step (checksum value : Z) : Z :=
  let top := Z.shiftr checksum 25 in
  add_generators top 0 generators (Z.lxor (Z.shiftl (Z.land checksum 0x1FFFFFF) 5) value).
Definition _bech32_polymod (values : list Z) : Z := foldl polymod_step 1%Z values.

(** ** Regrouping bits *)
Section convertbits.
Local Open Scope Z_scope.
Context (from_bits to_bits : Z).

(** [while bits >= to_bits]: [bits] shrinks by [to_bits] each time. *)
Fixpoint drain (fuel : nat) (accumulator bits : Z) (out : list Z) : Z * list Z :=
  match fuel with
  | O => (bits, out)
  | S fuel =>
      if to_bits <=? bits then
        let bits := bits - to_bits in
        drain fuel accumulator bits (out ++ [Z.land (Z.shiftr accumulator bits) (Z.shiftl 1 to_bits - 1)])
      else (bits, out)
  end.

(** [for value in data] *)
Fixpoint regroup (data : list Z) (accumulator bits : Z) (out : list Z) : option (Z * Z * list Z) :=
  match data with
  | [] => Some (accumulator, bits, out)
  | value :: data =>
      if (value <? 0) || negb (Z.shiftr value from_bits =? 0) then None
      else
        let accumulator := Z.lor (Z.shiftl accumulator from_bits) value in
        let bits := bits + from_bits in
        let '(bits, out) := drain (Z.to_nat bits) accumulator bits out in
        regroup data accumulator bits out
  end.

Definition _bech32_convertbits (data : list Z) (pad : bool) : option (list Z) :=
  match regroup data 0 0 [] with
  | None => None
  | Some (accumulator, bits, out) =>
      let last := Z.land (Z.shiftl accumulator (to_bits - bits)) (Z.shiftl 1 to_bits - 1) in
      if pad then Some (if bits =? 0 then out else out ++ [last])
      else if (from_bits <=? bits) || negb (last =? 0) then None
      else Some out
  end.
End convertbits.

(** ** Recipients and identities *)

(** The checks both validators end with: the checksum, then 32 bytes of payload. *)
Definition bech32_checked (hrp : string) (data : list Z) (e : exn) : result unit :=
  raise_if (negb (Z.eqb (_bech32_polymod (_bech32_hrp_expand hrp ++ data)) 1)) e ;;
  match _bech32_convertbits 5 8 (take (length data - 6) data) false with
  | Some payload => raise_if (negb (length payload =? 32)%nat) e
  | None => Raise e
  end.

Definition outside_alphabet (s : string) : bool := str_any (fun c => negb (one_of _BECH32_ALPHABET c)) s.

Definition validate_recipient (value : pyobj) (label : string) : result string :=
  let invalid := EValue (label +:+ " is invalid") in
  let syntax := EValue (label +:+ " has invalid age recipient syntax") in
  match value with
  | PStr s =>
      raise_if (bool_decide (s = "") || (4096 <? py_len s)%nat
                || str_any (fun c => is_space c || is_control c) s) invalid ;;
      raise_if (negb (startswith "age1" s) || negb (py_len s =? 62)%nat || outside_alphabet (str_drop 4 s)) syntax ;;
      data ← map_result alphabet_index (chars (str_drop 4 s));
      bech32_checked "age" data syntax ;;
      Ok s
  | _ => Raise invalid
  end.

Definition SECRET_PREFIX : string := "AGE-SECRET-KEY-".
Definition IDENTITY_RE : re := RCat (lit SECRET_PREFIX) (plus (RCls (fun c => is_alnum c || Ascii.eqb c "-"))).

Definition _validate_operational_identity (value : pyobj) : result string :=
  let invalid := EValue "operational identity is invalid" in
  match value with
  | PStr s =>
      raise_if (bool_decide (s = "") || (16 * 1024 <? Z.of_nat (py_len s))%Z) invalid ;;
      match py_splitlines s with
      | [line] =>
          raise_if (negb (fullmatch IDENTITY_RE line)) invalid ;;
          let suffix := str_drop (py_len SECRET_PREFIX) line in
          raise_if (negb (py_len line =? 74)%nat || negb (startswith "1" suffix)
                    || outside_alphabet (py_lower (str_drop 1 suffix))) invalid ;;
          data ← map_result alphabet_index (chars (py_lower (str_drop 1 suffix)));
          bech32_checked "age-secret-key-" data invalid ;;
          Ok line
      | _ => Raise invalid
      end
  | _ => Raise invalid
  end.
Definition validate_operational_identity (value : pyobj) : result string := _validate_operational_identity value.
