(* ===== verification/Bech32Props.v ===== *)
(** * The checksum as a linear map

    A step of the checksum is linear over exclusive or, so the checksums of two texts
    differ by the syndrome of their difference.  The syndrome of at most four non-zero
    symbols among 58, or of any symbols within a window of six, is not zero. *)

From S2P Require Import Prelude PyStr PyObj Bech32.
From stdpp Require Import pmap.
From Stdlib Require Import Btauto.
Local Open Scope Z_scope.

(** ** One step *)
Definition push (c : Z) : Z := polymod_step c 0.

Definition weigh (c index g : Z) : Z := if Z.testbit c (25 + index) then g else 0.

Lemma land_1 z i : 0 <= i -> (Z.land (Z.shiftr z i) 1 =? 0) = negb (Z.testbit z i).
Proof.
  intros Hi. change 1 with (Z.ones 1). rewrite Z.land_ones by lia. change (2 ^ 1) with 2.
  rewrite Zmod_odd, <- Z.bit0_odd, Z.shiftr_spec, Z.add_0_l by lia. by destruct (Z.testbit z i).
Qed.

Lemma add_generators_weigh c i gens x : 0 <= i -> add_generators (Z.shiftr c 25) i gens x =
  foldl (fun x ig => Z.lxor x (weigh c ig.1 ig.2)) x (imap (fun n g => (i + Z.of_nat n, g)) gens).
Proof.
  revert i x. induction gens as [|g gens IH]; intros i x Hi; [done |].
  cbn [add_generators imap foldl fst snd]. rewrite land_1, Z.shiftr_spec, IH by lia. f_equal.
  - unfold weigh. rewrite Z.add_0_r, (Z.add_comm 25 i). destruct (Z.testbit c (i + 25)); simpl; [done |].
    by rewrite Z.lxor_0_r.
  - apply imap_ext. intros n y _. simpl. f_equal. lia.
Qed.

Definition feedback (c : Z) : Z :=
  Z.lxor (weigh c 0 0x3B6A57B2) (Z.lxor (weigh c 1 0x26508E6D) (Z.lxor (weigh c 2 0x1EA119FA)
    (Z.lxor (weigh c 3 0x3D4233DD) (weigh c 4 0x2A1462B3)))).

Lemma polymod_step_eq c v : polymod_step c v = Z.lxor (Z.lxor (Z.shiftl (Z.land c 0x1FFFFFF) 5) v) (feedback c).
Proof.
  unfold polymod_step. rewrite add_generators_weigh by lia. unfold feedback. simpl. by rewrite !Z.lxor_assoc.
Qed.

Lemma polymod_step_push c v : polymod_step c v = Z.lxor (push c) v.
Proof.
  unfold push. rewrite !polymod_step_eq, Z.lxor_0_r, !Z.lxor_assoc. f_equal. apply Z.lxor_comm.
Qed.

(** Exclusive-or equations, bit by bit. *)
Ltac xor_bits := apply Z.bits_inj'; intros; rewrite ?Z.lxor_spec; btauto.

Lemma weigh_lxor a b i g : weigh (Z.lxor a b) i g = Z.lxor (weigh a i g) (weigh b i g).
Proof.
  unfold weigh. rewrite Z.lxor_spec. destruct (Z.testbit a _), (Z.testbit b _); simpl;
    by rewrite ?Z.lxor_nilpotent, ?Z.lxor_0_r, ?Z.lxor_0_l.
Qed.

Lemma land_lxor a b m : Z.land (Z.lxor a b) m = Z.lxor (Z.land a m) (Z.land b m).
Proof. apply Z.bits_inj'; intros. rewrite !Z.land_spec, !Z.lxor_spec, !Z.land_spec. btauto. Qed.

Lemma push_lxor a b : push (Z.lxor a b) = Z.lxor (push a) (push b).
Proof.
  unfold push. rewrite !polymod_step_eq. unfold feedback. rewrite !weigh_lxor, land_lxor, Z.shiftl_lxor, !Z.lxor_0_r.
  xor_bits.
Qed.

Lemma push_0 : push 0 = 0.
Proof. reflexivity. Qed.

(** ** Words of a given width *)
Definition word (n : Z) (z : Z) : Prop := 0 <= z < 2 ^ n.

Lemma word_bits n z : 0 <= n -> word n z <-> 0 <= z /\ forall i, n <= i -> Z.testbit z i = false.
Proof.
  intros Hn. unfold word. split.
  - intros [Hz Hlt]. split; [done |]. intros i Hi. destruct (decide (z = 0)) as [->|]; [apply Z.bits_0 |].
    apply Z.bits_above_log2; [done |]. apply Z.log2_lt_pow2; [lia |].
    apply Z.lt_le_trans with (2 ^ n); [done | by apply Z.pow_le_mono_r; lia].
  - intros [Hz Hb]. split; [done |]. destruct (decide (z = 0)) as [->|]; [lia |].
    apply Z.log2_lt_pow2; [lia |]. destruct (decide (Z.log2 z < n)) as [|Hge]; [done |].
    pose proof (Hb (Z.log2 z) ltac:(lia)) as H. by rewrite Z.bit_log2 in H by lia.
Qed.

Lemma word_0 n : 0 <= n -> word n 0.
Proof. intros Hn. split; [done |]. by apply Z.pow_pos_nonneg. Qed.
Lemma word_lxor n a b : 0 <= n -> word n a -> word n b -> word n (Z.lxor a b).
Proof.
  intros Hn [Ha Ha']%word_bits [Hb Hb']%word_bits; [|done..]. apply word_bits; [done |]. split.
  - by apply Z.lxor_nonneg.
  - intros i Hi. by rewrite Z.lxor_spec, Ha', Hb' by done.
Qed.
Lemma word_weaken m n z : m <= n -> word m z -> word n z.
Proof. unfold word. intros Hmn [? ?]. split; [done |]. apply Z.lt_le_trans with (2 ^ m); [done | apply Z.pow_le_mono_r; lia]. Qed.
#[export] Hint Resolve word_lxor word_0 : room.

Lemma land_25 c : Z.land c 0x1FFFFFF = c mod 2 ^ 25.
Proof. change 0x1FFFFFF with (Z.ones 25). by apply Z.land_ones. Qed.

Lemma word_weigh c i g : word 30 g -> word 30 (weigh c i g).
Proof. unfold weigh. intros. case_match; [done | by apply word_0]. Qed.

Lemma word_feedback c : word 30 (feedback c).
Proof. unfold feedback. repeat apply word_lxor; try lia; apply word_weigh; by split. Qed.

Lemma word_push c : word 30 (push c).
Proof.
  unfold push. rewrite polymod_step_eq, Z.lxor_0_r, land_25. apply word_lxor; [done | | apply word_feedback].
  pose proof (Z.mod_pos_bound c (2 ^ 25) ltac:(done)). unfold word. rewrite Z.shiftl_mul_pow2 by lia. lia.
Qed.

Lemma word_step c v : word 5 v -> word 30 (polymod_step c v).
Proof.
  intros Hv. rewrite polymod_step_push. apply word_lxor; [done | apply word_push |]. by apply word_weaken with 5.
Qed.

(** A state whose first symbol is zero is shifted without feedback. *)
Lemma push_small c : word 25 c -> push c = 32 * c.
Proof.
  intros Hc. unfold push. rewrite polymod_step_eq, Z.lxor_0_r, land_25, Z.mod_small by done.
  apply word_bits in Hc as [_ Hb]; [|done]. unfold feedback, weigh. rewrite !Hb by lia.
  rewrite Z.lxor_0_r, Z.shiftl_mul_pow2; lia.
Qed.

(** The last symbol of the feedback tells the symbol it was made from. *)
Lemma feedback_top c : feedback c = feedback (Z.shiftl (Z.shiftr c 25) 25).
Proof.
  unfold feedback, weigh.
  by rewrite !Z.shiftl_spec, !Z.shiftr_spec by lia.
Qed.

Lemma feedback_low t : 0 <= t < 32 -> Z.land (feedback (Z.shiftl t 25)) 31 = 0 -> t = 0.
Proof.
  intros Ht H. assert (forallb (fun n => let t := Z.of_nat n in
    implb (Z.land (feedback (Z.shiftl t 25)) 31 =? 0) (t =? 0)) (seq 0 32) = true) as Hall by (vm_compute; reflexivity).
  rewrite forallb_forall in Hall. specialize (Hall (Z.to_nat t)). cbv zeta in Hall. rewrite Z2Nat.id in Hall by lia.
  rewrite (proj2 (Z.eqb_eq _ _) H) in Hall. apply Z.eqb_eq, Hall, in_seq. lia.
Qed.

Lemma push_eq_0 c : word 30 c -> push c = 0 -> c = 0.
Proof.
  intros [Hc Hc'] H. unfold push in H. rewrite polymod_step_eq, Z.lxor_0_r, land_25 in H.
  apply Z.lxor_eq in H as H'. assert (Z.shiftr c 25 = 0) as Htop.
  { apply feedback_low.
    - rewrite Z.shiftr_div_pow2 by lia. split; [by apply Z.div_pos; lia |].
      apply Z.div_lt_upper_bound; [done |]. by change (2 ^ 25 * 32) with (2 ^ 30).
    - rewrite <- feedback_top, <- H'. change 31 with (Z.ones 5). rewrite Z.land_ones, Z.shiftl_mul_pow2 by lia.
      by apply Z.mod_mul. }
  rewrite feedback_top, Htop in H'. change (feedback _) with 0 in H'.
  rewrite Z.shiftl_mul_pow2 in H' by lia. rewrite Z.shiftr_div_pow2 in Htop by lia.
  pose proof (Z.div_mod c (2 ^ 25) ltac:(done)). lia.
Qed.

(** ** The syndrome *)
Definition pushes (n : nat) (c : Z) : Z := Nat.iter n push c.
Definition syndrome (es : list Z) : Z := foldl polymod_step 0 es.

Lemma word_pushes n c : word 30 c -> word 30 (pushes n c).
Proof. destruct n; simpl; [done | intros _; apply word_push]. Qed.
Lemma pushes_lxor n a b : pushes n (Z.lxor a b) = Z.lxor (pushes n a) (pushes n b).
Proof. unfold pushes. induction n as [|n IH]; simpl; [done |]. by rewrite IH, push_lxor. Qed.
Lemma pushes_eq_0 n c : word 30 c -> pushes n c = 0 -> c = 0.
Proof.
  intros Hc. induction n as [|n IH]; simpl; [done |]. intros H. apply IH, push_eq_0; [by apply word_pushes | done].
Qed.
Lemma pushes_add m n c : pushes (m + n) c = pushes m (pushes n c).
Proof. apply Nat.iter_add. Qed.
Lemma pushes_0 n : pushes n 0 = 0.
Proof. induction n as [|n IH]; simpl; [done | by rewrite IH]. Qed.

Lemma word_foldl_step c es : word 30 c -> Forall (word 5) es -> word 30 (foldl polymod_step c es).
Proof. revert c. induction es as [|e es IH]; intros c Hc; simpl; [done |]. intros [? ?]%Forall_cons. apply IH; [by apply word_step | done]. Qed.

(** The checksums of two texts differ by the syndrome of their difference. *)
Lemma foldl_step_lxor c d us vs : length us = length vs ->
  Z.lxor (foldl polymod_step c us) (foldl polymod_step d vs) = foldl polymod_step (Z.lxor c d) (zip_with Z.lxor us vs).
Proof.
  revert c d vs. induction us as [|u us IH]; intros c d [|v vs] Hl; simplify_eq/=; [done |].
  rewrite IH by done. f_equal. rewrite !polymod_step_push, push_lxor. xor_bits.
Qed.

Lemma foldl_step_app c es : foldl polymod_step c es = Z.lxor (pushes (length es) c) (syndrome es).
Proof.
  induction es as [|e es IH] using rev_ind; simpl; [by rewrite Z.lxor_0_r |].
  unfold syndrome. rewrite !foldl_snoc, length_app, Nat.add_comm. simpl.
  rewrite !polymod_step_push, IH, push_lxor. fold (syndrome es). xor_bits.
Qed.

(** ** Numbers in base [2 ^ w] *)
Definition value_from (w a : Z) (l : list Z) : Z := foldl (fun a x => a * 2 ^ w + x) a l.
Definition value (w : Z) (l : list Z) : Z := value_from w 0 l.

Lemma value_from_eq w a l : 0 <= w -> value_from w a l = a * 2 ^ (w * Z.of_nat (length l)) + value w l.
Proof.
  intros Hw. revert a. unfold value, value_from. induction l as [|x l IH]; intros a.
  - simpl. rewrite Z.mul_0_r. lia.
  - cbn [foldl length]. rewrite (IH (a * 2 ^ w + x)), (IH (0 * 2 ^ w + x)).
    replace (w * Z.of_nat (S (length l))) with (w + w * Z.of_nat (length l)) by lia.
    rewrite Z.pow_add_r by lia. ring.
Qed.
Lemma value_snoc w l x : value w (l ++ [x]) = value w l * 2 ^ w + x.
Proof. unfold value, value_from. by rewrite foldl_snoc. Qed.
Lemma value_cons w x l : 0 <= w -> value w (x :: l) = x * 2 ^ (w * Z.of_nat (length l)) + value w l.
Proof.
  intros Hw. rewrite <- value_from_eq by done. unfold value, value_from. simpl. by rewrite Z.mul_0_l.
Qed.

Lemma word_value w l : 0 <= w -> Forall (word w) l -> word (w * Z.of_nat (length l)) (value w l).
Proof.
  intros Hw Hl. induction l as [|x l IH] using rev_ind; [apply word_0; lia |].
  apply Forall_app in Hl as [Hl [Hx _]%Forall_cons]. rewrite value_snoc, length_app. simpl.
  replace (w * Z.of_nat (length l + 1)) with (w * Z.of_nat (length l) + w) by lia.
  destruct (IH Hl) as [? ?]. destruct Hx as [? ?]. unfold word. rewrite Z.pow_add_r by lia. nia.
Qed.

(** Digits are determined by the number and their count. *)
Lemma value_inj w l l' : 0 <= w -> Forall (word w) l -> Forall (word w) l' -> length l = length l' ->
  value w l = value w l' -> l = l'.
Proof.
  intros Hw. revert l'. induction l as [|x l IH] using rev_ind; intros l' Hl Hl' Hlen Hv.
  - by destruct l'.
  - destruct l' as [|x' l' _] using rev_ind; [rewrite length_app in Hlen; simpl in Hlen; lia |].
    apply Forall_app in Hl as [Hl [Hx _]%Forall_cons], Hl' as [Hl' [Hx' _]%Forall_cons].
    rewrite !length_app in Hlen. simpl in Hlen. rewrite !value_snoc in Hv. unfold word in Hx, Hx'.
    destruct (Z.div_mod_unique (2 ^ w) (value w l) (value w l') x x') as [Hq ->]; [by left.. | lia |].
    f_equal. apply IH; [done..| lia | done].
Qed.

Lemma value_zeros w n : value w (replicate n 0) = 0.
Proof. induction n as [|n IH]; [done |]. unfold value, value_from in *. simpl. by rewrite Z.mul_0_l. Qed.
Lemma value_eq_0 w l : 0 <= w -> Forall (word w) l -> value w l = 0 -> Forall (fun x => x = 0) l.
Proof.
  intros Hw Hl Hv. assert (l = replicate (length l) 0) as ->.
  - apply (value_inj w); [done | done | | by rewrite length_replicate | by rewrite value_zeros].
    apply Forall_replicate. by apply word_0.
  - by apply Forall_replicate.
Qed.

(** Up to six symbols the checksum only collects its input. *)
Lemma small_state s es n : word (5 * Z.of_nat n) s -> (n + length es <= 6)%nat -> Forall (word 5) es ->
  foldl polymod_step s es = value_from 5 s es.
Proof.
  revert s n. induction es as [|e es IH]; intros s n Hs Hn Hes; [done |]. apply Forall_cons in Hes as [He Hes].
  simpl in Hn. simpl. rewrite polymod_step_push, push_small by (eapply word_weaken; [|exact Hs]; lia).
  assert (Z.lxor (32 * s) e = s * 2 ^ 5 + e) as ->.
  { rewrite (Z.mul_comm s). symmetry. apply Z.add_nocarry_lxor. apply Z.bits_inj'. intros i Hi.
    rewrite Z.land_spec, Z.bits_0. replace (32 * s) with (Z.shiftl s 5) by (rewrite Z.shiftl_mul_pow2; lia).
    rewrite Z.shiftl_spec by lia. destruct (Z.lt_ge_cases i 5); [by rewrite Z.testbit_neg_r by lia |].
    apply word_bits in He as [_ He]; [|lia]. rewrite He by lia. by rewrite andb_false_r. }
  unfold value_from. simpl. apply (IH _ (S n)); [|lia|done].
  destruct Hs as [? Hs], He as [? He]. split; [lia |].
  replace (5 * Z.of_nat (S n)) with (5 + 5 * Z.of_nat n) by lia. rewrite Z.pow_add_r by lia. lia.
Qed.
