(* ===== verification/Bech32Errors.v ===== *)
(** * Errors the checksum detects

    A text is a list of symbols, an error pattern the exclusive or of two texts.  The
    syndrome of a pattern is the sum of the symbols pushed, by their distance from the
    end.  Multiplication by a generator of GF(32), symbol by symbol, commutes with the
    push, so one of the symbols of a pattern can be taken to be 1: what remains to be
    checked for patterns of four symbols is a table of 1767 states and some 50,000 sums,
    which the kernel evaluates. *)

From S2P Require Import Prelude PyStr PyObj Bech32 Bech32Props.
From stdpp Require Import pmap.
From Stdlib Require Import Btauto.
Local Open Scope Z_scope.

(** ** Linear maps *)
Definition linear (f : Z -> Z) : Prop := forall a b, f (Z.lxor a b) = Z.lxor (f a) (f b).

Lemma top_bit n z : word (Z.of_nat (S n)) z ->
  z = Z.lxor (z mod 2 ^ Z.of_nat n) (if Z.testbit z (Z.of_nat n) then 2 ^ Z.of_nat n else 0).
Proof.
  intros [_ Hz]%word_bits; [|lia]. apply Z.bits_inj'; intros i Hi. rewrite Z.lxor_spec.
  destruct (Z.lt_trichotomy i (Z.of_nat n)) as [?|[->|?]].
  - rewrite Z.mod_pow2_bits_low by lia. destruct (Z.testbit z (Z.of_nat n)).
    + rewrite Z.pow2_bits_false by lia. by rewrite xorb_false_r.
    + by rewrite Z.bits_0, xorb_false_r.
  - rewrite Z.mod_pow2_bits_high by lia. destruct (Z.testbit z (Z.of_nat n)); simpl.
    + by rewrite Z.pow2_bits_true by lia.
    + by rewrite Z.bits_0.
  - rewrite Z.mod_pow2_bits_high, Hz by lia. destruct (Z.testbit z (Z.of_nat n)); simpl.
    + by rewrite Z.pow2_bits_false by lia.
    + by rewrite Z.bits_0.
Qed.

(** Linear maps that agree on the powers of two agree. *)
Lemma linear_ext f g n : linear f -> linear g -> f 0 = g 0 ->
  forallb (fun i => f (2 ^ Z.of_nat i) =? g (2 ^ Z.of_nat i)) (seq 0 n) = true ->
  forall z, word (Z.of_nat n) z -> f z = g z.
Proof.
  intros Hf Hg H0. induction n as [|n IH]; intros Hall z Hz.
  - destruct Hz as [? ?]. by replace z with 0 by (simpl in *; lia).
  - rewrite seq_S, forallb_app in Hall. simpl in Hall. bools.
    rewrite (top_bit n z Hz), Hf, Hg. f_equal.
    + apply IH; [done |]. split; [apply Z.mod_pos_bound; lia | apply Z.mod_pos_bound; lia].
    + case_match; [by apply Z.eqb_eq | done].
Qed.

(** Multiplication of each symbol by a root of [x^5 + x^3 + 1]. *)
Definition carries (c : Z) : Z := Z.shiftr (Z.land c 0x21084210) 4.
Definition scale (c : Z) : Z :=
  Z.lxor (Z.shiftl (Z.land c 0x1EF7BDEF) 1) (Z.lxor (carries c) (Z.shiftl (carries c) 3)).

Lemma linear_scale : linear scale.
Proof.
  intros a b. unfold scale, carries. rewrite !land_lxor, !Z.shiftr_lxor, !Z.shiftl_lxor. xor_bits.
Qed.
Lemma linear_push : linear push.
Proof. exact push_lxor. Qed.

Lemma scale_push c : word 30 c -> scale (push c) = push (scale c).
Proof.
  apply (linear_ext (scale ∘ push) (push ∘ scale) 30).
  - intros a b. unfold compose. by rewrite linear_push, linear_scale.
  - intros a b. unfold compose. by rewrite linear_scale, linear_push.
  - reflexivity.
  - vm_compute. reflexivity.
Qed.

Definition symbol (a : Z) : Prop := 0 < a < 32.
Definition symbols : list Z := Z.of_nat <$> seq 1 31.
Lemma symbol_elem a : symbol a <-> a ∈ symbols.
Proof.
  unfold symbol, symbols. rewrite list_elem_of_fmap. split.
  - intros Ha. exists (Z.to_nat a). rewrite elem_of_seq. lia.
  - intros (n & -> & Hn). apply elem_of_seq in Hn. lia.
Qed.
Lemma forall_symbols (P : Z -> bool) : forallb P symbols = true -> forall a, symbol a -> P a = true.
Proof. rewrite forallb_forall. intros H a Ha. apply H, list_elem_of_In. by apply symbol_elem. Qed.

Lemma symbol_scale a : symbol a -> symbol (scale a).
Proof.
  intros Ha. pose proof (forall_symbols (fun a => (0 <? scale a) && (scale a <? 32)) ltac:(vm_compute; reflexivity) a Ha) as H. cbv beta in H.
  unfold symbol. bools. lia.
Qed.
(** Every symbol is a power of the root, so scaling takes it to 1. *)
Lemma symbol_to_1 a : symbol a -> exists k, Nat.iter k scale a = 1.
Proof.
  intros Ha. pose proof (forall_symbols (fun a => existsb (fun k => Nat.iter k scale a =? 1) (seq 0 31))
    ltac:(vm_compute; reflexivity) a Ha) as H.
  apply existsb_exists in H as (k & _ & Hk). exists k. by apply Z.eqb_eq.
Qed.

Lemma word_symbol a : symbol a -> word 30 a.
Proof. unfold symbol, word. lia. Qed.
#[export] Hint Resolve word_symbol : room.
Lemma symbol_scales k a : symbol a -> symbol (Nat.iter k scale a).
Proof. intros Ha. induction k; simpl; [done | by apply symbol_scale]. Qed.

(** ** The table of pushed symbols *)
Definition high (d : nat) (a : Z) : Z := Z.shiftr (pushes d a) 5.

(** The high parts of [push s], [push (push s)], ... *)
Fixpoint high_powers (n : nat) (s : Z) : list Z :=
  match n with O => [] | S n => let s := push s in Z.shiftr s 5 :: high_powers n s end.
Lemma high_powers_lookup n s i : (i < n)%nat -> high_powers n s !! i = Some (high (S i) s).
Proof.
  revert s i. induction n as [|n IH]; intros s i Hi; [lia |]. simpl. destruct i as [|i]; simpl; [done |].
  rewrite IH by lia. unfold high. do 2 f_equal.
  change (push s) with (pushes 1 s). rewrite <- pushes_add. by rewrite Nat.add_1_r.
Qed.

Abbreviation table := (Pmap unit).
Definition absent (t : table) (z : Z) : bool :=
  match z with Z.pos p => match t !! p with Some _ => false | None => true end | _ => false end.

(** The table of the values, if they are positive and pairwise distinct. *)
Fixpoint tabulate (l : list Z) : option table :=
  match l with
  | [] => Some ∅
  | Z.pos p :: l =>
      t ← tabulate l;
      match t !! p with Some _ => None | None => Some (<[p := tt]> t) end
  | _ :: _ => None
  end.

Lemma tabulate_spec l t : tabulate l = Some t ->
  NoDup l /\ forall z, z ∈ l -> exists p, z = Z.pos p /\ t !! p = Some tt.
Proof.
  revert t. induction l as [|z l IH]; intros t; simpl.
  - intros _. split; [constructor | by intros z ?%not_elem_of_nil].
  - destruct z as [|p|p]; try done. intros (t' & Ht & H)%bind_Some.
    destruct (t' !! p) eqn:Hp; [done |]. injection H as <-. destruct (IH t' Ht) as [Hnd Hin]. split.
    + apply NoDup_cons. split; [|done]. intros (p' & [= <-] & Hp')%Hin. congruence.
    + intros z [->|(p' & -> & Hp')%Hin]%elem_of_cons.
      * exists p. by rewrite lookup_insert_eq.
      * exists p'. split; [done |]. destruct (base.decide (p = p')) as [->|]; [congruence |].
        by rewrite lookup_insert_ne.
Qed.

Lemma absent_spec l t z : tabulate l = Some t -> absent t z = true -> z ∉ l.
Proof. intros [_ Hin]%tabulate_spec Ha (p & -> & Hp)%Hin. simpl in Ha. by rewrite Hp in Ha. Qed.

Definition reach : nat := 57.
Definition high_values : list Z := symbols ≫= high_powers reach.
(** No sum of an earlier value of [row] with a later one of [other] is in the table. *)
Fixpoint sums_absent (t : table) (row other : list Z) : bool :=
  match row, other with
  | x :: row, _ :: other => forallb (fun y => absent t (Z.lxor x y)) other && sums_absent t row other
  | _, _ => true
  end.
Lemma sums_absent_spec t row other i j x y : sums_absent t row other = true ->
  row !! i = Some x -> other !! j = Some y -> (i < j)%nat -> absent t (Z.lxor x y) = true.
Proof.
  revert other i j. induction row as [|x' row IH]; intros [|y' other] i j; try done. simpl.
  intros Hs Hi Hj Hij. bools. destruct j as [|j]; [lia |]. simpl in Hj. destruct i as [|i]; simpl in Hi.
  - injection Hi as <-. match goal with H : forallb _ _ = true |- _ => rewrite forallb_forall in H; apply H end.
    apply list_elem_of_In. by apply list_elem_of_lookup_2 in Hj.
  - eapply IH; eauto. lia.
Qed.

Definition table_check (values first : list Z) (others : list (list Z)) : bool :=
  match tabulate values with Some t => forallb (sums_absent t first) others | None => false end.
Lemma table_check_spec values first others : table_check values first others = true ->
  exists t, tabulate values = Some t /\ forall other, other ∈ others -> sums_absent t first other = true.
Proof.
  unfold table_check. destruct (tabulate values) as [t|]; [|done]. rewrite forallb_forall. intros H.
  exists t. split; [done |]. intros other Ho. by apply H, list_elem_of_In.
Qed.
Lemma table_good : table_check high_values (high_powers reach 1) (high_powers reach <$> symbols) = true.
Proof. vm_compute. reflexivity. Qed.

Lemma high_elem d a : (1 <= d <= reach)%nat -> symbol a -> high d a ∈ high_values.
Proof.
  intros Hd Ha%symbol_elem. apply list_elem_of_bind. exists a. split; [|done].
  apply list_elem_of_lookup_2 with (d - 1)%nat. rewrite high_powers_lookup by lia. do 2 f_equal. lia.
Qed.

Lemma table_ok : exists t, tabulate high_values = Some t /\ forall a, symbol a ->
  sums_absent t (high_powers reach 1) (high_powers reach a) = true.
Proof.
  destruct (table_check_spec _ _ _ table_good) as (t & Ht & Hs). exists t. split; [done |].
  intros a Ha%symbol_elem. apply Hs. by apply list_elem_of_fmap_2.
Qed.

(** Distinct distances give distinct high parts: an entry of the table determines its distance. *)
Lemma NoDup_bind_lookup {A B} (f : A -> list B) l x y i j z : NoDup (l ≫= f) -> NoDup l -> x ∈ l -> y ∈ l ->
  f x !! i = Some z -> f y !! j = Some z -> i = j.
Proof.
  intros Hnd Hl Hx Hy Hi Hj. induction l as [|a l IH]; [by apply not_elem_of_nil in Hx |].
  simpl in Hnd. apply NoDup_app in Hnd as (Ha & Hdis & Hnd). apply NoDup_cons in Hl as [Hal Hl].
  apply elem_of_cons in Hx as [->|Hx], Hy as [->|Hy].
  - exact (NoDup_lookup _ _ _ _ Ha Hi Hj).
  - exfalso. apply (Hdis z); [eauto using list_elem_of_lookup_2 |]. apply list_elem_of_bind. exists y.
    eauto using list_elem_of_lookup_2.
  - exfalso. apply (Hdis z); [eauto using list_elem_of_lookup_2 |]. apply list_elem_of_bind. exists x.
    eauto using list_elem_of_lookup_2.
  - by apply IH.
Qed.

Lemma high_distance d d' a b : (1 <= d <= reach)%nat -> (1 <= d' <= reach)%nat -> symbol a -> symbol b ->
  high d a = high d' b -> d = d'.
Proof.
  intros Hd Hd' Ha%symbol_elem Hb%symbol_elem Heq. destruct table_ok as (t & [Hnd _]%tabulate_spec & _).
  enough (d - 1 = d' - 1)%nat by lia.
  eapply (NoDup_bind_lookup (high_powers reach) symbols a b); eauto.
  - by apply NoDup_fmap_2, NoDup_seq; apply _.
  - rewrite high_powers_lookup by lia. by replace (S (d - 1)) with d by lia.
  - rewrite high_powers_lookup by lia. rewrite Heq. by replace (S (d' - 1)) with d' by lia.
Qed.

Lemma high_nonzero d a : (1 <= d <= reach)%nat -> symbol a -> high d a ≠ 0.
Proof.
  intros Hd Ha H. destruct table_ok as (t & [_ Hin]%tabulate_spec & _).
  destruct (Hin (high d a)) as (p & Hp & _); [by apply high_elem |]. congruence.
Qed.

Lemma high_sum d1 d2 d3 a b : (1 <= d3 < d2)%nat -> (d2 <= reach)%nat -> (1 <= d1 <= reach)%nat -> symbol a -> symbol b ->
  high d1 a ≠ Z.lxor (high d2 b) (high d3 1).
Proof.
  intros H3 H2 H1 Ha Hb Heq. destruct table_ok as (t & Ht & Hs). specialize (Hs b Hb).
  eapply (sums_absent_spec _ _ _ (d3 - 1) (d2 - 1)) in Hs; [| rewrite high_powers_lookup by lia; done.. | lia].
  apply (absent_spec _ _ _ Ht) in Hs. apply Hs.
  replace (S (d3 - 1)) with d3 by lia. replace (S (d2 - 1)) with d2 by lia.
  rewrite Z.lxor_comm, <- Heq. by apply high_elem.
Qed.

(** ** Patterns of few symbols *)
Definition sum (ps : list (nat * Z)) : Z := foldr (fun p x => Z.lxor (pushes p.1 p.2) x) 0 ps.
Lemma sum_cons d a ps : sum ((d, a) :: ps) = Z.lxor (pushes d a) (sum ps).
Proof. done. Qed.

Lemma shiftr_symbol a : symbol a -> Z.shiftr a 5 = 0.
Proof. unfold symbol. intros Ha. rewrite Z.shiftr_div_pow2 by lia. apply Z.div_small. simpl. lia. Qed.

(** A sum that ends at distance 0 is zero only if the high parts of the others cancel. *)
Lemma high_sum_eq ps a : symbol a -> sum (ps ++ [(0%nat, a)]) = 0 -> foldr (fun p x => Z.lxor (high p.1 p.2) x) 0 ps = 0.
Proof.
  intros Ha H. apply (f_equal (fun z => Z.shiftr z 5)) in H. rewrite Z.shiftr_0_l in H. etrans; [|exact H]. clear H.
  unfold sum. rewrite foldr_app. simpl. rewrite Z.lxor_0_r.
  induction ps as [|[d b] ps IH]; simpl; [by rewrite shiftr_symbol |]. by rewrite Z.shiftr_lxor, <- IH.
Qed.

Lemma scales_0 k : Nat.iter k scale 0 = 0.
Proof. induction k as [|k IH]; simpl; [done | by rewrite IH]. Qed.
Lemma scales_lxor k x y : Nat.iter k scale (Z.lxor x y) = Z.lxor (Nat.iter k scale x) (Nat.iter k scale y).
Proof. induction k as [|k IH]; simpl; [done |]. by rewrite IH, linear_scale. Qed.
Lemma scale_pushes d a : word 30 a -> scale (pushes d a) = pushes d (scale a).
Proof. intros Ha. induction d as [|d IH]; simpl; [done |]. rewrite scale_push, IH; [done |]. by apply word_pushes. Qed.
Lemma scales_pushes k d a : symbol a -> Nat.iter k scale (pushes d a) = pushes d (Nat.iter k scale a).
Proof.
  intros Ha. induction k as [|k IH]; simpl; [done |]. rewrite IH. apply scale_pushes, word_symbol. by apply symbol_scales.
Qed.

Lemma scale_sum k ps : Forall (fun p => symbol p.2) ps -> sum ps = 0 ->
  sum ((fun p => (p.1, Nat.iter k scale p.2)) <$> ps) = 0.
Proof.
  intros Hps H. rewrite <- (scales_0 k), <- H. clear H.
  induction Hps as [|[d a] ps Ha Hps IH]; [by rewrite scales_0 |].
  rewrite fmap_cons, !sum_cons, IH, scales_lxor. f_equal. symmetry. by apply scales_pushes.
Qed.

(** Distances decrease and the last is 0. *)
Lemma few_symbols ps a : (length ps <= 3)%nat -> symbol a -> Forall (fun p => symbol p.2) ps ->
  StronglySorted (fun p q => q.1 < p.1)%nat ps -> Forall (fun p => 1 <= p.1 <= reach)%nat ps ->
  sum (ps ++ [(0%nat, a)]) ≠ 0.
Proof.
  intros Hl Ha Hs Hd Hr H.
  destruct ps as [|[d1 a1] [|[d2 a2] [|[d3 a3] [|]]]]; simpl in Hl; try lia;
    repeat match goal with
    | H : Forall _ (_ :: _) |- _ => apply Forall_cons in H as [? ?]
    | H : StronglySorted _ (_ :: _) |- _ => apply StronglySorted_inv in H as [? ?]
    end; simpl in *.
  - rewrite Z.lxor_0_r in H. unfold symbol in Ha. lia.
  - apply (high_sum_eq [(d1, a1)]) in H; [|done]. simpl in H. rewrite Z.lxor_0_r in H. by eapply high_nonzero.
  - apply (high_sum_eq [(d1, a1); (d2, a2)]) in H; [|done]. simpl in H. rewrite Z.lxor_0_r in H.
    apply Z.lxor_eq, high_distance in H; [lia | done..].
  - destruct (symbol_to_1 a3) as [k Hk]; [done |].
    apply (scale_sum k [(d1, a1); (d2, a2); (d3, a3); (0%nat, a)]) in H;
      [|by repeat first [apply Forall_nil_2 | apply Forall_cons_2]].
    simpl in H. rewrite Hk in H.
    apply (high_sum_eq [(d1, Nat.iter k scale a1); (d2, Nat.iter k scale a2); (d3, 1)]) in H; [|by apply symbol_scales].
    simpl in H. rewrite Z.lxor_0_r in H. apply Z.lxor_eq in H.
    eapply high_sum in H; [done | lia..| |]; by apply symbol_scales.
Qed.

(** ** The symbols of a pattern *)
Fixpoint points (es : list Z) : list (nat * Z) :=
  match es with
  | [] => []
  | e :: es => (if e =? 0 then [] else [(length es, e)]) ++ points es
  end.

Lemma syndrome_points es : syndrome es = sum (points es).
Proof.
  induction es as [|e es IH]; [done |]. unfold syndrome. simpl.
  rewrite polymod_step_push, push_0, Z.lxor_0_l, foldl_step_app, IH.
  destruct (Z.eqb_spec e 0) as [->|]; simpl; [by rewrite pushes_0, Z.lxor_0_l | done].
Qed.

Lemma points_below es : Forall (fun p => p.1 < length es)%nat (points es).
Proof.
  induction es as [|e es IH]; simpl; [constructor |]. apply Forall_app. split.
  - case_match; repeat constructor; simpl; lia.
  - eapply Forall_impl; [exact IH |]. simpl. lia.
Qed.
Lemma points_sorted es : StronglySorted (fun p q => q.1 < p.1)%nat (points es).
Proof.
  induction es as [|e es IH]; simpl; [constructor |]. case_match; simpl; [done |]. constructor; [done |]. apply points_below.
Qed.
Lemma points_symbols es : Forall (word 5) es -> Forall (fun p => symbol p.2) (points es).
Proof.
  induction 1 as [|e es [He He'] Hes IH]; simpl; [constructor |]. destruct (Z.eqb_spec e 0); simpl; [done |].
  constructor; [|done]. unfold symbol. simpl in *. lia.
Qed.
Lemma points_nil es : points es = [] -> Forall (fun e => e = 0) es.
Proof.
  induction es as [|e es IH]; simpl; [constructor |]. destruct (Z.eqb_spec e 0); simpl; [constructor; auto | done].
Qed.

(** Moving every point nearer by the distance of the last. *)
Lemma sum_nearer d ps : Forall (fun p => d <= p.1)%nat ps ->
  sum ps = pushes d (sum ((fun p => (p.1 - d, p.2)%nat) <$> ps)).
Proof.
  induction 1 as [|[n a] ps Hn Hps IH]; simpl; [by rewrite pushes_0 |].
  rewrite IH, pushes_lxor, <- pushes_add. simpl in *. by replace (d + (n - d))%nat with n by lia.
Qed.
Lemma word_sum ps : Forall (fun p => symbol p.2) ps -> word 30 (sum ps).
Proof.
  induction 1 as [|[n a] ps Hn Hps IH]; simpl; [by apply word_0 |]. apply word_lxor; [done | | done].
  by apply word_pushes, word_symbol.
Qed.

(** At most four non-zero symbols among 58 have a non-zero syndrome. *)
Lemma weight_detected es : Forall (word 5) es -> (length es <= 58)%nat -> (length (points es) <= 4)%nat -> syndrome es = 0 ->
  Forall (fun e => e = 0) es.
Proof.
  intros Hes Hlen Hl. rewrite syndrome_points.
  pose proof (points_below es) as Hb. pose proof (points_sorted es) as Hs. pose proof (points_symbols es Hes) as Hsym.
  destruct (points es) as [|p ps _] eqn:Hp using rev_ind; [intros _; by apply points_nil |].
  intros H. exfalso. destruct p as [d a]. rewrite length_app in Hl. simpl in Hl.
  apply StronglySorted_app in Hs as (Hlast & Hs & _).
  apply Forall_app in Hsym as [Hsym Ha]. apply Forall_app in Hb as [Hb Hbd].
  apply Forall_cons in Ha as [Ha _]. apply Forall_cons in Hbd as [Hbd _]. simpl in *.
  assert (Forall (fun p => d < p.1)%nat ps) as Hgt.
  { apply Forall_forall. intros q Hq. apply (Hlast q (d, a)); [done | left]. }
  rewrite (sum_nearer d) in H.
  2:{ apply Forall_app. split; [|by repeat constructor]. eapply Forall_impl; [exact Hgt |]. simpl. lia. }
  rewrite fmap_app in H. simpl in H. rewrite Nat.sub_diag in H.
  apply pushes_eq_0 in H.
  - revert H. apply few_symbols.
    + rewrite length_fmap. lia.
    + done.
    + by apply Forall_fmap.
    + clear -Hs Hgt. induction Hs as [|q ps Hs IH Hq]; simpl; [constructor |]. apply Forall_cons in Hgt as [? ?].
      constructor; [by apply IH |]. apply Forall_fmap. rewrite Forall_forall in *. intros r Hr. simpl.
      specialize (Hq r Hr). match goal with X : forall x, x ∈ ps -> (d < _)%nat |- _ => specialize (X r Hr) end. lia.
    + apply Forall_fmap. rewrite Forall_forall in *. intros q Hq. simpl. specialize (Hgt q Hq). specialize (Hb q Hq).
      unfold reach. lia.
  - apply word_sum. apply Forall_app. split; [by apply Forall_fmap | by apply Forall_singleton].
Qed.

(** ** Patterns within six symbols *)
Lemma burst_state es : (length es <= 6)%nat -> Forall (word 5) es -> syndrome es = 0 -> Forall (fun e => e = 0) es.
Proof.
  intros Hl Hes. unfold syndrome. rewrite (small_state 0 es 0); [| by apply word_0 | lia | done].
  intros H. apply value_eq_0 with 5; [done.. |]. exact H.
Qed.

Lemma zeros_state s es : Forall (fun e => e = 0) es -> foldl polymod_step s es = pushes (length es) s.
Proof.
  revert s. induction es as [|e es IH]; intros s Hes; simpl; [done |]. apply Forall_cons in Hes as [-> Hes].
  rewrite IH, polymod_step_push, Z.lxor_0_r by done. change (push s) with (pushes 1 s). rewrite <- pushes_add.
  by rewrite Nat.add_1_r.
Qed.

Lemma burst_detected us es vs : Forall (fun e => e = 0) us -> Forall (fun e => e = 0) vs -> (length es <= 6)%nat ->
  Forall (word 5) es -> syndrome (us ++ es ++ vs) = 0 -> Forall (fun e => e = 0) (us ++ es ++ vs).
Proof.
  intros Hus Hvs Hl Hes. unfold syndrome. rewrite !foldl_app, (zeros_state 0 us), pushes_0 by done.
  rewrite (zeros_state _ vs) by done. intros H%pushes_eq_0.
  - rewrite !Forall_app. repeat split; [done | by apply burst_state | done].
  - apply word_foldl_step; [by apply word_0 | done].
Qed.
