(* ===== verification/Bech32Canon.v ===== *)
(** * Canonical encodings

    Regrouping bits keeps the number the digits stand for; the six checksum symbols are
    the only ones that complete a text.  So the accepted recipients are exactly the
    encodings of 32 bytes. *)

From S2P Require Import Prelude PyStr PyObj Bech32 Bech32Props.
From Stdlib Require Import Ascii.
Local Open Scope Z_scope.

(** ** Regrouping bits *)
Section regroup.
Context (f t : Z) (Hf : 0 < f) (Ht : 0 < t).

Lemma shiftl_1 : Z.shiftl 1 t = 2 ^ t.
Proof. by rewrite Z.shiftl_1_l. Qed.
Lemma land_mask z : Z.land z (Z.shiftl 1 t - 1) = z mod 2 ^ t.
Proof. rewrite shiftl_1. replace (2 ^ t - 1) with (Z.ones t) by (rewrite Z.ones_equiv; lia). apply Z.land_ones. lia. Qed.
Lemma word_mod z : word t (z mod 2 ^ t).
Proof. apply Z.mod_pos_bound, Z.pow_pos_nonneg; lia. Qed.

(** [out] holds the digits of all but the last [bits] bits of the accumulator. *)
Definition drained (acc bits : Z) (out : list Z) : Prop :=
  Forall (word t) out /\ value t out = acc / 2 ^ bits.

Lemma drain_spec fuel acc bits out bits' out' : 0 <= bits <= Z.of_nat fuel -> 0 <= acc ->
  drained acc bits out -> drain t fuel acc bits out = (bits', out') ->
  0 <= bits' < t /\ bits' + t * Z.of_nat (length out') = bits + t * Z.of_nat (length out) /\ drained acc bits' out'.
Proof.
  revert bits out. induction fuel as [|fuel IH]; intros bits out Hb Ha Hd; simpl.
  - intros [= <- <-]. split; [lia | done].
  - destruct (Z.leb_spec t bits) as [Hle|Hlt]; [|intros [= <- <-]; split; [lia | done]].
    intros H. apply IH in H as (Hb' & Hl & Hd').
    + rewrite length_app in Hl. simpl in Hl. split; [done |]. split; [|done]. rewrite Hl. lia.
    + lia.
    + done.
    + destruct Hd as [Hw Hv]. rewrite land_mask. split.
      * apply Forall_app. split; [done |]. apply Forall_singleton, word_mod.
      * rewrite value_snoc, Hv, Z.shiftr_div_pow2 by lia.
        replace (2 ^ bits) with (2 ^ (bits - t) * 2 ^ t) by (rewrite <- Z.pow_add_r by lia; f_equal; lia).
        rewrite <- Z.div_div by lia. rewrite (Z.mul_comm (_ / _)). symmetry. apply Z.div_mod. lia.
Qed.

Lemma accumulate acc v : 0 <= acc -> word f v ->
  Z.lor (Z.shiftl acc f) v = acc * 2 ^ f + v /\ (acc * 2 ^ f + v) / 2 ^ f = acc.
Proof.
  intros Ha Hv. pose proof Hv as [_ Hb]%word_bits; [|lia]. split.
  - rewrite <- Z.lxor_lor, <- Z.add_nocarry_lxor, Z.shiftl_mul_pow2; [done | lia | |];
      (apply Z.bits_inj'; intros i Hi; rewrite Z.land_spec, Z.bits_0, Z.shiftl_spec by lia;
       destruct (Z.lt_ge_cases i f); [by rewrite Z.testbit_neg_r by lia | by rewrite Hb, andb_false_r by lia]).
  - destruct Hv. rewrite Z.div_add_l by lia. rewrite Z.div_small by done. lia.
Qed.

Lemma digit_check v : (v <? 0) || negb (Z.shiftr v f =? 0) = false <-> word f v.
Proof.
  unfold word. rewrite orb_false_iff, negb_false_iff, Z.eqb_eq, Z.ltb_ge, Z.shiftr_div_pow2 by lia. split.
  - intros [? Hd]. split; [done |]. apply Z.div_small_iff in Hd; lia.
  - intros [? ?]. split; [done |]. by apply Z.div_small.
Qed.

Lemma regroup_spec data acc bits out acc' bits' out' : 0 <= acc -> 0 <= bits -> bits < t ->
  drained acc bits out -> regroup f t data acc bits out = Some (acc', bits', out') ->
  Forall (word f) data /\ acc' = value_from f acc data /\ 0 <= bits' < t /\ 0 <= acc'
  /\ bits' + t * Z.of_nat (length out') = f * Z.of_nat (length data) + bits + t * Z.of_nat (length out)
  /\ drained acc' bits' out'.
Proof.
  revert acc bits out. induction data as [|v data IH]; intros acc bits out Ha Hb Hbt Hd; simpl.
  - intros [= <- <- <-]. split; [constructor |]. split; [done |]. split; [lia |]. split; [done |]. split; [lia | done].
  - destruct ((v <? 0) || _) eqn:Hv; [done |]. apply digit_check in Hv.
    destruct (accumulate acc v Ha Hv) as [-> Hdiv].
    destruct (drain t _ _ _ _) as [bits1 out1] eqn:Hdr. intros H.
    assert (0 <= acc * 2 ^ f + v) as Ha' by (destruct Hv; nia).
    apply drain_spec in Hdr as (Hb1 & Hl1 & Hd1); [| lia | done |].
    + apply IH in H as (Hw & -> & ? & ? & Hl & ?); [|lia..|done].
      split; [by constructor |]. do 3 (split; [done |]). split; [|done]. lia.
    + destruct Hd as [Hw Hval]. split; [done |]. 
      by rewrite Hval, (Z.add_comm bits f), Z.pow_add_r, <- Z.div_div, Hdiv by lia.
Qed.

Lemma regroup_total data acc bits out : Forall (word f) data -> is_Some (regroup f t data acc bits out).
Proof.
  intros Hd. revert acc bits out. induction Hd as [|v data Hv Hd IH]; intros acc bits out; simpl; [eauto |].
  apply digit_check in Hv as ->. destruct (drain _ _ _ _ _). apply IH.
Qed.

Lemma regroup_start data acc bits out : regroup f t data 0 0 [] = Some (acc, bits, out) ->
  Forall (word f) data /\ acc = value f data /\ 0 <= bits < t
  /\ bits + t * Z.of_nat (length out) = f * Z.of_nat (length data) /\ drained acc bits out.
Proof.
  intros H. apply regroup_spec in H as (? & ? & ? & ? & Hl & ?); [| lia.. |].
  - split; [done |]. split; [done |]. split; [done |]. split; [|done]. simpl in Hl. lia.
  - split; [constructor |]. by rewrite Z.div_0_l.
Qed.

Lemma last_group acc bits : 0 <= bits <= t ->
  Z.land (Z.shiftl acc (t - bits)) (Z.shiftl 1 t - 1) = acc mod 2 ^ bits * 2 ^ (t - bits).
Proof.
  intros Hb. rewrite land_mask, Z.shiftl_mul_pow2 by lia.
  replace (2 ^ t) with (2 ^ bits * 2 ^ (t - bits)) by (rewrite <- Z.pow_add_r by lia; f_equal; lia).
  by rewrite Z.mul_mod_distr_r by lia.
Qed.

(** Without padding: the digits of the leading bits, the others being zero. *)
Lemma convertbits_exact data out : _bech32_convertbits f t data false = Some out ->
  exists bits, 0 <= bits < Z.min f t /\ bits + t * Z.of_nat (length out) = f * Z.of_nat (length data)
    /\ Forall (word f) data /\ Forall (word t) out /\ value f data = value t out * 2 ^ bits.
Proof.
  unfold _bech32_convertbits. destruct (regroup _ _ _ _ _ _) as [[[acc bits] out']|] eqn:H; [|done].
  apply regroup_start in H as (Hw & -> & Hb & Hl & Hwo & Hv). rewrite last_group by lia.
  destruct (Z.leb_spec f bits); [done |]. destruct (Z.eqb_spec (value f data mod 2 ^ bits * 2 ^ (t - bits)) 0) as [Hz|]; [|done].
  intros [= <-]. exists bits. split; [lia |]. repeat (split; [done |]). rewrite Hv.
  pose proof (Z.pow_pos_nonneg 2 (t - bits) ltac:(lia) ltac:(lia)).
  pose proof (Z.div_mod (value f data) (2 ^ bits) ltac:(lia)). nia.
Qed.

Lemma convertbits_exact_intro data out bits : 0 <= bits < Z.min f t ->
  bits + t * Z.of_nat (length out) = f * Z.of_nat (length data) -> Forall (word f) data -> Forall (word t) out ->
  value f data = value t out * 2 ^ bits -> _bech32_convertbits f t data false = Some out.
Proof.
  intros Hb Hl Hw Hwo Hv. unfold _bech32_convertbits.
  destruct (regroup_total data 0 0 [] Hw) as [[[acc bits'] out'] H]. rewrite H.
  apply regroup_start in H as (_ & -> & Hb' & Hl' & Hwo' & Hv').
  assert (bits' = bits /\ length out' = length out) as [-> Hlen].
  { destruct (Z.div_mod_unique t (Z.of_nat (length out')) (Z.of_nat (length out)) bits' bits); lia. }
  rewrite last_group, Hv, Z.mod_mul by lia. rewrite (proj2 (Z.leb_gt _ _)) by lia. simpl. f_equal.
  apply (value_inj t); [lia | done.. |]. rewrite Hv', Hv. apply Z.div_mul. lia.
Qed.

(** With padding: all bits, the last digit filled with zeros. *)
Lemma convertbits_padded data : Forall (word f) data -> exists out pad,
  _bech32_convertbits f t data true = Some out /\ 0 <= pad < t /\ Forall (word t) out
  /\ t * Z.of_nat (length out) = f * Z.of_nat (length data) + pad /\ value t out = value f data * 2 ^ pad.
Proof.
  intros Hw. unfold _bech32_convertbits.
  destruct (regroup_total data 0 0 [] Hw) as [[[acc bits] out] H]. rewrite H.
  apply regroup_start in H as (_ & -> & Hb & Hl & Hwo & Hv). rewrite last_group by lia.
  destruct (Z.eqb_spec bits 0) as [->|Hne].
  - exists out, 0. rewrite Hv, Z.div_1_r. repeat (split; [done || lia |]). lia.
  - exists (out ++ [value f data mod 2 ^ bits * 2 ^ (t - bits)]), (t - bits).
    split; [done |]. split; [lia |]. rewrite length_app. simpl.
    pose proof (Z.mod_pos_bound (value f data) (2 ^ bits) ltac:(lia)) as Hm.
    assert (2 ^ t = 2 ^ bits * 2 ^ (t - bits)) as Hp by (rewrite <- Z.pow_add_r by lia; f_equal; lia).
    split; [|split; [lia |]].
    + apply Forall_app. split; [done |]. apply Forall_singleton. unfold word. rewrite Hp. nia.
    + rewrite value_snoc, Hv, Hp. pose proof (Z.div_mod (value f data) (2 ^ bits) ltac:(lia)). nia.
Qed.
End regroup.

(** ** The checksum symbols *)

(** The six symbols of a 30-bit number. *)
Definition six_symbols (p : Z) : list Z := (fun i => Z.land (Z.shiftr p (5 * (5 - i))) 31) <$> [0; 1; 2; 3; 4; 5].
Definition checksum (hrp : string) (data : list Z) : list Z :=
  six_symbols (Z.lxor (_bech32_polymod (_bech32_hrp_expand hrp ++ data ++ replicate 6 0)) 1).

Lemma word_six_symbols p : Forall (word 5) (six_symbols p).
Proof.
  apply Forall_forall. intros x (i & -> & _)%list_elem_of_fmap. change 31 with (Z.ones 5).
  rewrite Z.land_ones by lia. apply word_mod. lia.
Qed.

Lemma value_six_symbols p : word 30 p -> value 5 (six_symbols p) = p.
Proof.
  unfold word. intros Hp. unfold six_symbols, value, value_from. simpl. change 31 with (Z.ones 5).
  rewrite !Z.land_ones, !Z.shiftr_div_pow2 by lia. change (2 ^ 25) with 33554432. change (2 ^ 20) with 1048576.
  change (2 ^ 15) with 32768. change (2 ^ 10) with 1024. change (2 ^ 5) with 32 in *. change (2 ^ 30) with 1073741824 in Hp.
  rewrite Z.div_1_r. Z.div_mod_to_equations. lia.
Qed.

Lemma polymod_app hrp data es : (length es <= 6)%nat -> Forall (word 5) es ->
  _bech32_polymod (_bech32_hrp_expand hrp ++ data ++ es) =
    Z.lxor (pushes (length es) (_bech32_polymod (_bech32_hrp_expand hrp ++ data))) (value 5 es).
Proof.
  intros Hl Hes. unfold _bech32_polymod. rewrite app_assoc, foldl_app, foldl_step_app. f_equal.
  apply (small_state 0 es 0); [by apply word_0 | lia | done].
Qed.

Lemma word_polymod hrp data : Forall (word 5) (_bech32_hrp_expand hrp) -> Forall (word 5) data ->
  word 30 (_bech32_polymod (_bech32_hrp_expand hrp ++ data)).
Proof. intros. apply word_foldl_step; [done | by apply Forall_app]. Qed.

(** The checksum completes a text, and nothing else does. *)
Lemma checksum_iff hrp data es : Forall (word 5) (_bech32_hrp_expand hrp) -> Forall (word 5) data ->
  Forall (word 5) es -> length es = 6%nat ->
  _bech32_polymod (_bech32_hrp_expand hrp ++ data ++ es) = 1 <-> es = checksum hrp data.
Proof.
  intros Hh Hd Hes Hl. rewrite polymod_app by (done || lia). rewrite Hl.
  assert (checksum hrp data = six_symbols (Z.lxor (pushes 6 (_bech32_polymod (_bech32_hrp_expand hrp ++ data))) 1)) as ->.
  { unfold checksum. rewrite polymod_app; [| simpl; lia | by apply Forall_replicate, word_0].
    rewrite value_zeros, Z.lxor_0_r. done. }
  pose proof (word_polymod hrp data Hh Hd) as Hw. revert Hw. generalize (_bech32_polymod (_bech32_hrp_expand hrp ++ data)).
  intros s Hs. assert (word 30 (Z.lxor (pushes 6 s) 1)) as Hw by (apply word_lxor; [done | by apply word_pushes | done]).
  split.
  - intros H. apply (value_inj 5); [done | done | apply word_six_symbols | done |].
    rewrite value_six_symbols by done. rewrite <- H. xor_bits.
  - intros ->. rewrite value_six_symbols by done. xor_bits.
Qed.

(** ** Letters *)
Definition letter (v : Z) : ascii := default "q"%char (chars _BECH32_ALPHABET !! Z.to_nat v).
Definition letters (data : list Z) : string := of_chars (letter <$> data).

Lemma forall_words (P : Z -> bool) : forallb P (Z.of_nat <$> seq 0 32) = true -> forall v, word 5 v -> P v = true.
Proof.
  rewrite forallb_forall. intros H v [Hv Hv']. apply H, list_elem_of_In, list_elem_of_fmap. exists (Z.to_nat v).
  rewrite elem_of_seq. change (2 ^ 5) with 32 in *. lia.
Qed.

Lemma letter_index v : word 5 v -> alphabet_index (letter v) = Ok v.
Proof.
  intros Hv. pose proof (forall_words (fun v => match alphabet_index (letter v) with Ok u => u =? v | Raise _ => false end)
    ltac:(vm_compute; reflexivity) v Hv) as H. cbv beta in H. destruct (alphabet_index _); [|done]. by apply Z.eqb_eq in H as ->.
Qed.
Lemma letter_class v : word 5 v ->
  one_of _BECH32_ALPHABET (letter v) = true /\ is_space (letter v) = false /\ is_control (letter v) = false.
Proof.
  intros Hv. pose proof (forall_words (fun v => one_of _BECH32_ALPHABET (letter v) && negb (is_space (letter v))
    && negb (is_control (letter v))) ltac:(vm_compute; reflexivity) v Hv) as H. cbv beta in H. by bools.
Qed.
Lemma letter_inj u v : word 5 u -> word 5 v -> letter u = letter v -> u = v.
Proof. intros Hu Hv H. apply letter_index in Hu, Hv. rewrite H in Hu. congruence. Qed.

Lemma index_of_lookup c l i : index_of c l = Some i -> l !! i = Some c.
Proof.
  revert i. induction l as [|d l IH]; intros i; simpl; [done |].
  destruct (Ascii.eqb_spec c d) as [->|]; [by intros [= <-] |]. intros (j & Hj & ->)%fmap_Some. by apply IH.
Qed.
Lemma alphabet_index_Ok c v : alphabet_index c = Ok v -> word 5 v /\ c = letter v.
Proof.
  unfold alphabet_index. destruct (index_of _ _) as [i|] eqn:Hi; [|done]. intros [= <-]. apply index_of_lookup in Hi.
  split.
  - apply lookup_lt_Some in Hi. change (length _) with 32%nat in Hi. unfold word. change (2 ^ 5) with 32. lia.
  - unfold letter. by rewrite Nat2Z.id, Hi.
Qed.

Lemma map_index_iff s data : map_result alphabet_index (chars s) = Ok data <-> s = letters data /\ Forall (word 5) data.
Proof.
  rewrite map_result_Ok. split.
  - intros H. unfold letters. split.
    + rewrite <- (of_chars_chars s). f_equal. induction H as [|c v cs vs Hc _ IH]; csimpl; [done |].
      apply alphabet_index_Ok in Hc as [_ ->]. by rewrite IH.
    + induction H as [|c v cs vs Hc _ IH]; [by constructor |].
      constructor; [by apply alphabet_index_Ok in Hc as [? _] | done].
  - intros [-> Hd]. unfold letters. rewrite chars_of_chars. apply Forall2_fmap_l, Forall_Forall2_diag.
    eapply Forall_impl; [exact Hd |]. by apply letter_index.
Qed.

Lemma letters_len data : py_len (letters data) = length data.
Proof. unfold letters. by rewrite <- length_chars, chars_of_chars, length_fmap. Qed.
Lemma letters_inside data : Forall (word 5) data -> outside_alphabet (letters data) = false.
Proof.
  intros Hd. unfold outside_alphabet, str_any, letters. rewrite chars_of_chars. induction Hd as [|v data Hv Hd IH]; csimpl; [done |].
  apply letter_class in Hv as [-> _]. by rewrite IH.
Qed.
Lemma letters_plain data : Forall (word 5) data -> str_any (fun c => is_space c || is_control c) (letters data) = false.
Proof.
  intros Hd. unfold str_any, letters. rewrite chars_of_chars. induction Hd as [|v data Hv Hd IH]; csimpl; [done |].
  apply letter_class in Hv as (_ & -> & ->). by rewrite IH.
Qed.
Lemma letters_inj us vs : Forall (word 5) us -> Forall (word 5) vs -> letters us = letters vs -> us = vs.
Proof.
  intros Hu Hv H. assert (map_result alphabet_index (chars (letters us)) = Ok us) as H1 by by apply map_index_iff.
  assert (map_result alphabet_index (chars (letters vs)) = Ok vs) as H2 by by apply map_index_iff. congruence.
Qed.

(** ** Texts that pass the checks *)

(** The text of a payload: its bits in groups of five, then the checksum. *)
Definition groups (payload : list Z) : list Z := default [] (_bech32_convertbits 8 5 payload true).
Definition encode (hrp : string) (payload : list Z) : list Z := groups payload ++ checksum hrp (groups payload).
Definition key32 (payload : list Z) : Prop := Forall (word 8) payload /\ length payload = 32%nat.

Lemma groups_spec payload : key32 payload ->
  Forall (word 5) (groups payload) /\ length (groups payload) = 52%nat
  /\ _bech32_convertbits 5 8 (groups payload) false = Some payload.
Proof.
  intros [Hw Hl]. destruct (convertbits_padded 8 5 ltac:(done) ltac:(done) payload Hw) as (out & pad & H & Hp & Ho & Hlo & Hv).
  unfold groups. rewrite H. simpl. assert (pad = 4 /\ length out = 52%nat) as [-> Hlen] by lia.
  split; [done |]. split; [done |]. apply (convertbits_exact_intro 5 8 ltac:(done) ltac:(done) _ _ 4); [lia | lia | done..].
Qed.

Lemma groups_unique data payload : length data = 52%nat -> _bech32_convertbits 5 8 data false = Some payload ->
  key32 payload /\ data = groups payload.
Proof.
  intros Hl H. apply convertbits_exact in H as (bits & Hb & Hlen & Hw & Hwp & Hv); [|done..].
  assert (key32 payload) as Hk by (split; [done | lia]). split; [done |].
  destruct (groups_spec payload Hk) as (Hg & Hgl & Hgc).
  apply convertbits_exact in Hgc as (bits' & Hb' & Hlen' & _ & _ & Hv'); [|done..].
  apply (value_inj 5); [done | done | done | lia |]. rewrite Hv, Hv'. do 2 f_equal. lia.
Qed.

Lemma bech32_checked_iff hrp data e : Forall (word 5) (_bech32_hrp_expand hrp) -> Forall (word 5) data -> length data = 58%nat ->
  bech32_checked hrp data e = Ok tt <-> exists payload, key32 payload /\ data = encode hrp payload.
Proof.
  intros Hh Hw Hl. unfold bech32_checked. rewrite Hl. change (58 - 6)%nat with 52%nat.
  assert (Forall (word 5) (take 52 data)) as Ht by by apply Forall_take.
  assert (Forall (word 5) (drop 52 data)) as Hd by by apply Forall_drop.
  assert (length (drop 52 data) = 6%nat) as Hdl by (rewrite length_drop; lia).
  pose proof (checksum_iff hrp _ _ Hh Ht Hd Hdl) as Hc. rewrite take_drop in Hc. split.
  - intros H. inv_ok. bools. match goal with X : (_ =? 1) = true |- _ => apply Z.eqb_eq, Hc in X as Hdrop end.
    match goal with X : _bech32_convertbits _ _ _ _ = Some ?l |- _ =>
      apply groups_unique in X as [Hk Hg]; [exists l | rewrite length_take; lia] end.
    split; [done |]. unfold encode. by rewrite <- Hg, <- Hdrop, take_drop.
  - intros (payload & Hk & He). destruct (groups_spec payload Hk) as (Hg & Hgl & Hgc).
    assert (take 52 data = groups payload) as Htk by (rewrite He; unfold encode; apply take_app_length'; by rewrite Hgl).
    assert (drop 52 data = checksum hrp (groups payload)) as Hdr by (rewrite He; unfold encode; apply drop_app_length'; by rewrite Hgl).
    rewrite Htk in *. rewrite (proj2 Hc), Hgc by done. simpl. destruct Hk as [_ ->]. done.
Qed.

Lemma encode_spec hrp payload : key32 payload -> Forall (word 5) (encode hrp payload) /\ length (encode hrp payload) = 58%nat.
Proof.
  intros Hk. destruct (groups_spec payload Hk) as (Hg & Hgl & _). unfold encode. split.
  - apply Forall_app. split; [done | apply word_six_symbols].
  - rewrite length_app, Hgl. done.
Qed.
Lemma encode_inj hrp p p' : key32 p -> key32 p' -> encode hrp p = encode hrp p' -> p = p'.
Proof.
  intros Hk Hk' H. destruct (groups_spec p Hk) as (_ & Hl & Hc), (groups_spec p' Hk') as (_ & Hl' & Hc').
  unfold encode in H. apply app_inj_1 in H as [H _]; [|lia]. rewrite H in Hc. congruence.
Qed.

Lemma word_hrp_age : Forall (word 5) (_bech32_hrp_expand "age").
Proof. unfold _bech32_hrp_expand. vm_compute. repeat first [apply Forall_nil_2 | apply Forall_cons_2]; done. Qed.
Lemma word_hrp_secret : Forall (word 5) (_bech32_hrp_expand "age-secret-key-").
Proof. unfold _bech32_hrp_expand. vm_compute. repeat first [apply Forall_nil_2 | apply Forall_cons_2]; done. Qed.
#[export] Hint Resolve word_hrp_age word_hrp_secret : room.
