(* ===== verification/Bech32Theorems.v ===== *)
(** * Recipients and identities: the properties

    Which texts the validators accept, and which typing errors they detect. *)

From S2P Require Import Prelude PyStr PyObj Bech32 Bech32Props Bech32Errors Bech32Canon.
From Stdlib Require Import Ascii.

(** ** Accepted recipients *)
Definition recipient_of (payload : list Z) : string := "age1" +:+ letters (encode "age" payload).

Lemma startswith_split p s : startswith p s = true -> s = p +:+ str_drop (py_len p) s.
Proof.
  revert s. induction p as [|c p IH]; intros s; simpl; [done |]. destruct s as [|d s]; [done |].
  intros H. bools. subst d. change (String.String c p +:+ ?t) with (String.String c (p +:+ t)). f_equal. by apply IH.
Qed.

Lemma str_any_app f a b : str_any f (a +:+ b) = str_any f a || str_any f b.
Proof. unfold str_any. by rewrite chars_app, existsb_app. Qed.

Lemma validate_recipient_data value label s : validate_recipient value label = Ok s <->
  exists data, value = PStr s /\ s = "age1" +:+ letters data /\ Forall (word 5) data /\ length data = 58
    /\ bech32_checked "age" data (EValue (label +:+ " has invalid age recipient syntax")) = Ok tt.
Proof.
  split.
  - unfold validate_recipient. cbv zeta. destruct value as [| | | |text| |]; try done. intros H. inv_ok. bools.
    match goal with X : map_result _ _ = Ok ?l |- _ => apply map_index_iff in X as [Hs Hw]; exists l end.
    repeat match goal with X : (_ =? _)%nat = true |- _ => apply Nat.eqb_eq in X end.
    match goal with X : startswith _ _ = true |- _ => apply startswith_split in X as Hd end.
    change (py_len "age1") with 4 in Hd. split; [done |]. rewrite <- Hs. split; [done |]. split; [done |]. split; [|done].
    match goal with X : py_len _ = 62 |- _ => rewrite Hd, Hs, py_len_app, letters_len in X; change (py_len "age1") with 4 in X end. lia.
  - intros (data & -> & -> & Hw & Hl & Hc). unfold validate_recipient. cbv zeta.
    assert (py_len ("age1" +:+ letters data) = 62) as Hlen by (rewrite py_len_app, letters_len, Hl; done).
    assert (str_drop 4 ("age1" +:+ letters data) = letters data) as Hdrop by exact (str_drop_app "age1" _).
    rewrite Hlen, Hdrop, startswith_app, str_any_app, letters_plain, letters_inside by done.
    rewrite (proj2 (map_index_iff _ data)) by done. simpl. by rewrite Hc.
Qed.

(** The accepted recipients are the encodings of 32 bytes. *)
Lemma validate_recipient_iff value label s : validate_recipient value label = Ok s <->
  value = PStr s /\ exists payload, key32 payload /\ s = recipient_of payload.
Proof.
  rewrite validate_recipient_data. split.
  - intros (data & -> & -> & Hw & Hl & Hc). split; [done |].
    apply bech32_checked_iff in Hc as (payload & Hk & ->); [|auto with room | done..]. by exists payload.
  - intros (-> & payload & Hk & ->). destruct (encode_spec "age" payload Hk) as [Hw Hl].
    exists (encode "age" payload). split; [done |]. split; [done |]. split; [done |]. split; [done |].
    apply bech32_checked_iff; [auto with room | done | done |]. by exists payload.
Qed.

Lemma recipient_of_inj p p' : key32 p -> key32 p' -> recipient_of p = recipient_of p' -> p = p'.
Proof.
  intros Hk Hk' H. apply (f_equal (str_drop (py_len "age1"))) in H. unfold recipient_of in H.
  rewrite !str_drop_app in H. apply letters_inj in H; [|by apply encode_spec..]. by eapply encode_inj.
Qed.

(** Every refusal is a [ValueError]. *)
Lemma bech32_checked_raises hrp data m : raises is_value_error (bech32_checked hrp data (EValue m)).
Proof.
  unfold bech32_checked. apply raises_bind; [by apply raises_if |]. intros _ _.
  case_match; [by apply raises_if | by apply raises_Raise].
Qed.
Lemma alphabet_raises l : raises is_value_error (map_result alphabet_index l).
Proof.
  induction l as [|c l IH]; simpl; [apply raises_Ok |]. apply raises_bind.
  - unfold alphabet_index. case_match; [apply raises_Ok | by apply raises_Raise].
  - intros a _. apply raises_bind; [done |]. intros; apply raises_Ok.
Qed.
Lemma recipient_raises value label : raises is_value_error (validate_recipient value label).
Proof.
  unfold validate_recipient. cbv zeta. destruct value; try by apply raises_Raise.
  apply raises_bind; [by apply raises_if |]. intros _ _. apply raises_bind; [by apply raises_if |]. intros _ _.
  apply raises_bind; [apply alphabet_raises |]. intros data _.
  apply raises_bind; [apply bech32_checked_raises |]. intros _ _. apply raises_Ok.
Qed.

(** ** Typing errors *)

(** The positions at which two texts differ. *)
Definition differing (a b : string) : list nat :=
  filter (fun i => chars a !! i ≠ chars b !! i) (seq 0 (Nat.max (py_len a) (py_len b))).
(** At most four errors, or errors within six consecutive characters. *)
Definition few_errors (a b : string) : Prop :=
  length (differing a b) <= 4 \/ exists i, Forall (fun k => i <= k < i + 6) (differing a b).

Definition unlike {A} `{EqDecision A} (l k : list A) : list nat :=
  filter (fun i => l !! i ≠ k !! i) (seq 0 (Nat.max (length l) (length k))).
Lemma differing_unlike a b : differing a b = unlike (chars a) (chars b).
Proof. unfold differing, unlike. by rewrite !length_chars. Qed.

Lemma filter_fmap {A B} (f : A -> B) (P : B -> Prop) `{forall x, Decision (P x)} (l : list A) :
  filter P (f <$> l) = f <$> filter (fun x => P (f x)) l.
Proof. induction l as [|x l IH]; csimpl; [done |]. rewrite !filter_cons. case_decide; csimpl; by rewrite IH. Qed.

Lemma unlike_cons {A} `{EqDecision A} (x y : A) l k :
  unlike (x :: l) (y :: k) = (if base.decide (x = y) then [] else [0]) ++ (S <$> unlike l k).
Proof.
  unfold unlike. cbn [length Nat.max seq]. rewrite filter_cons, <- fmap_S_seq, filter_fmap. simpl.
  destruct (base.decide (x = y)) as [->|Hne]; case_decide; simpl; congruence.
Qed.
Lemma unlike_app {A} `{EqDecision A} (p l k : list A) : unlike (p ++ l) (p ++ k) = (fun i => length p + i) <$> unlike l k.
Proof.
  induction p as [|x p IH]; simpl; [by rewrite list_fmap_id |]. rewrite unlike_cons, decide_True, IH by done.
  simpl. rewrite <- list_fmap_compose. by apply list_fmap_ext.
Qed.
Lemma unlike_not {A} `{EqDecision A} (l k : list A) i : i ∉ unlike l k -> l !! i = k !! i.
Proof.
  intros Hi. destruct (base.decide (l !! i = k !! i)) as [|Hne]; [done |]. exfalso. apply Hi, list_elem_of_filter.
  split; [done |]. apply elem_of_seq. destruct (base.decide (i < Nat.max (length l) (length k))); [lia |].
  rewrite !lookup_ge_None_2 in Hne by lia. done.
Qed.

(** The error pattern of two texts. *)
Definition pattern (us vs : list Z) : list Z := zip_with Z.lxor us vs.

Lemma pattern_words us vs : Forall (word 5) us -> Forall (word 5) vs -> Forall (word 5) (pattern us vs).
Proof.
  intros Hu. revert vs. unfold pattern. induction Hu as [|u us Hu Hus IH]; intros [|v vs] Hv; simpl; try constructor.
  - apply Forall_cons in Hv as [? ?]. by apply word_lxor.
  - apply Forall_cons in Hv as [? ?]. by apply IH.
Qed.
Lemma pattern_weight us vs : length us = length vs -> Forall (word 5) us -> Forall (word 5) vs ->
  length (points (pattern us vs)) = length (unlike (letter <$> us) (letter <$> vs)).
Proof.
  unfold pattern. revert vs. induction us as [|u us IH]; intros [|v vs] Hl Hu Hv; try done.
  apply Forall_cons in Hu as [Hu Hus], Hv as [Hv Hvs]. csimpl. rewrite unlike_cons, !length_app, length_fmap, IH by (auto || by injection Hl).
  f_equal. destruct (Z.eqb_spec (Z.lxor u v) 0) as [He|Hne]; case_decide as Hd; simpl; try done.
  - apply Z.lxor_eq in He. congruence.
  - apply letter_inj in Hd as ->; [|done..]. by rewrite Z.lxor_nilpotent in Hne.
Qed.
Lemma pattern_zero us vs : length us = length vs -> Forall (fun e => e = 0%Z) (pattern us vs) -> us = vs.
Proof.
  unfold pattern. revert vs. induction us as [|u us IH]; intros [|v vs] Hl He; try done.
  simpl in He. apply Forall_cons in He as [H%Z.lxor_eq He]. f_equal; [done |]. apply IH; [by injection Hl | done].
Qed.
Lemma pattern_syndrome hrp us vs : length us = length vs -> _bech32_polymod (hrp ++ us) = 1%Z ->
  _bech32_polymod (hrp ++ vs) = 1%Z -> syndrome (pattern us vs) = 0%Z.
Proof.
  intros Hl Hu Hv. unfold _bech32_polymod in *. rewrite foldl_app in Hu, Hv.
  pose proof (foldl_step_lxor (foldl polymod_step 1%Z hrp) (foldl polymod_step 1%Z hrp) us vs Hl) as H.
  rewrite Hu, Hv, !Z.lxor_nilpotent in H. by symmetry.
Qed.
Lemma pattern_at us vs k e : Forall (word 5) us -> Forall (word 5) vs -> pattern us vs !! k = Some e ->
  k ∉ unlike (letter <$> us) (letter <$> vs) -> e = 0%Z.
Proof.
  intros Hu Hv (u & v & -> & Hku & Hkv)%lookup_zip_with_Some Hk%unlike_not.
  rewrite !list_lookup_fmap, Hku, Hkv in Hk. injection Hk as Hk.
  apply letter_inj in Hk as ->; [| exact (Forall_lookup_1 _ _ _ _ Hu Hku) | exact (Forall_lookup_1 _ _ _ _ Hv Hkv)].
  apply Z.lxor_nilpotent.
Qed.

Lemma Forall_lookup_zero (l : list Z) : (forall k e, l !! k = Some e -> e = 0%Z) -> Forall (fun e => e = 0%Z) l.
Proof. intros H. by apply Forall_lookup_2. Qed.

(** Texts with the right checksum and few errors between them are the same. *)
Lemma checked_alike hrp us vs : length us = 58 -> length vs = 58 -> Forall (word 5) us -> Forall (word 5) vs ->
  _bech32_polymod (hrp ++ us) = 1%Z -> _bech32_polymod (hrp ++ vs) = 1%Z ->
  length (unlike (letter <$> us) (letter <$> vs)) <= 4
    \/ (exists i, Forall (fun k => i <= k < i + 6) (unlike (letter <$> us) (letter <$> vs))) -> us = vs.
Proof.
  intros Hl Hl' Hu Hv Hpu Hpv Hfew. assert (length us = length vs) as Hll by congruence.
  pose proof (pattern_syndrome hrp us vs Hll Hpu Hpv) as Hs. pose proof (pattern_words us vs Hu Hv) as Hw.
  apply pattern_zero; [done |]. destruct Hfew as [Hfew|[i Hburst]].
  - apply weight_detected; [done | | by rewrite pattern_weight | done].
    unfold pattern. rewrite length_zip_with. lia.
  - set (es := pattern us vs) in *. rewrite <- (take_drop i es), <- (take_drop 6 (drop i es)).
    assert (forall k e, es !! k = Some e -> ~ i <= k < i + 6 -> e = 0%Z) as Hout.
    { intros k e Hk Hn. eapply (pattern_at us vs k); [done.. |]. intros Hin. rewrite Forall_forall in Hburst. by apply Hn, Hburst. }
    apply burst_detected.
    + apply Forall_lookup_zero. intros k e [Hk Hlt]%lookup_take_Some. eapply Hout; [done | lia].
    + apply Forall_lookup_zero. intros k e Hk. rewrite !lookup_drop in Hk. eapply Hout; [done | lia].
    + rewrite length_take. lia.
    + by apply Forall_take, Forall_drop.
    + by rewrite !take_drop.
Qed.

Lemma bech32_checked_polymod hrp data e : bech32_checked hrp data e = Ok tt ->
  _bech32_polymod (_bech32_hrp_expand hrp ++ data) = 1%Z.
Proof. unfold bech32_checked. intros H. inv_result. bools. by apply Z.eqb_eq. Qed.

(** C19: a text that differs from an accepted recipient in at most four characters, or only
    within six consecutive characters, is refused with [ValueError]. *)
Theorem recipient_errors_detected (a b label label' : string) :
  validate_recipient (PStr a) label = Ok a -> b ≠ a -> few_errors a b ->
  exists e, validate_recipient (PStr b) label' = Raise e /\ is_value_error e = true.
Proof.
  intros Ha Hne Hfew. destruct (validate_recipient (PStr b) label') as [r|e] eqn:Hb.
  - exfalso. apply Hne. apply validate_recipient_data in Ha as (us & _ & -> & Hu & Hlu & Hcu).
    apply validate_recipient_data in Hb as (vs & [= ->] & -> & Hv & Hlv & Hcv).
    apply bech32_checked_polymod in Hcu, Hcv.
    unfold few_errors in Hfew. rewrite differing_unlike, !chars_app, unlike_app in Hfew. unfold letters in Hfew.
    rewrite !chars_of_chars, length_fmap in Hfew. do 2 f_equal. symmetry.
    eapply (checked_alike _ us vs); [done.. |]. destruct Hfew as [?|[i Hi]]; [by left | right].
    exists (i - 4). rewrite Forall_fmap in Hi. eapply Forall_impl; [exact Hi |]. simpl. lia.
  - exists e. split; [done |]. by eapply recipient_raises.
Qed.

Definition mistyped : string := "age1pyqszqgpqyqszqgpqyqszqgpryqszqgpqyqszqgpqyqszqgpqygs3290ga".
Lemma recipient_errors_detected_witness :
  exists e, validate_recipient (PStr mistyped) "recipient" = Raise e /\ is_value_error e = true.
Proof.
  apply (recipient_errors_detected "age1qyqszqgpqyqszqgpqyqszqgpqyqszqgpqyqszqgpqyqszqgpqyqs3290gq" mistyped "recipient").
  - vm_compute. reflexivity.
  - discriminate.
  - left. apply Nat.leb_le. vm_compute. reflexivity.
Defined.

(** ** Accepted identities *)

(** Identities of a payload differ in the case of their letters only. *)
Definition identity_of (payload : list Z) (s : string) : Prop :=
  exists suffix, s = "AGE-SECRET-KEY-1" +:+ suffix /\ py_lower suffix = letters (encode "age-secret-key-" payload).

Lemma alphabet_lower c : one_of _BECH32_ALPHABET (lower_char c) = true -> is_alnum c = true.
Proof.
  intros Hc. rewrite <- (ascii_nat_embedding c) in *. pose proof (nat_ascii_bounded c) as Hb. revert Hb Hc.
  generalize (nat_of_ascii c). intros n Hn Hc.
  assert (forallb (fun n => implb (one_of _BECH32_ALPHABET (lower_char (ascii_of_nat n))) (is_alnum (ascii_of_nat n)))
    (seq 0 256) = true) as Hall by (vm_compute; reflexivity).
  rewrite forallb_forall in Hall. specialize (Hall n). rewrite Hc in Hall. apply Hall, in_seq. lia.
Qed.

Lemma lower_len s : py_len (py_lower s) = py_len s.
Proof. unfold py_lower. by rewrite <- !length_chars, chars_of_chars, length_fmap. Qed.

Lemma lower_alnum s : outside_alphabet (py_lower s) = false -> Forall (fun c => is_alnum c = true) (chars s).
Proof.
  unfold outside_alphabet, str_any, py_lower. rewrite chars_of_chars. intros H. apply Forall_forall. intros c Hc.
  apply alphabet_lower. destruct (one_of _ _) eqn:Ho; [done |]. exfalso.
  rewrite <- not_true_iff_false in H. apply H, existsb_exists. exists (lower_char c).
  split; [|by rewrite Ho]. apply list_elem_of_In. by apply list_elem_of_fmap_2.
Qed.

Lemma identity_re suffix : suffix ≠ "" -> Forall (fun c => is_alnum c = true) (chars suffix) ->
  fullmatch IDENTITY_RE (SECRET_PREFIX +:+ suffix) = true.
Proof.
  intros Hne Hall. apply fullmatch_lit_cat. exists suffix. split; [done |]. apply fullmatch_lang.
  destruct suffix as [|c s]; [done |]. simpl in *. apply Forall_cons in Hall as [Hc Hs].
  apply (lang_cat _ _ [c] (chars s)); [constructor; by rewrite Hc |]. apply lang_star_cls.
  eapply Forall_impl; [exact Hs |]. intros d Hd. by rewrite Hd.
Qed.

Lemma validate_identity_iff text s : validate_operational_identity (PStr text) = Ok s <->
  (Z.of_nat (py_len text) <= 16 * 1024)%Z /\ py_splitlines text = [s]
  /\ exists payload, key32 payload /\ identity_of payload s.
Proof.
  unfold validate_operational_identity, _validate_operational_identity. cbv zeta.
  change (py_len SECRET_PREFIX) with 15. split.
  - intros H. inv_ok. bools. split; [done |]. split; [done |].
    match goal with X : fullmatch _ _ = true |- _ => apply fullmatch_lit_cat in X as (suffix & Hs & _) end.
    match goal with X : context [str_drop 15] |- _ => idtac end.
    assert (str_drop 15 s = suffix) as Hsuf by (rewrite Hs; exact (str_drop_app SECRET_PREFIX _)). rewrite Hsuf in *.
    match goal with X : startswith "1" _ = true |- _ => apply startswith_split in X; change (py_len "1") with 1 in X end.
    match goal with X : map_result _ _ = Ok ?l |- _ => apply map_index_iff in X as [Hl Hw] end.
    match goal with X : bech32_checked _ _ _ = Ok _ |- _ => apply bech32_checked_iff in X as (payload & Hk & ->);
      [|auto with room | done |] end.
    + exists payload. split; [done |]. exists (str_drop 1 suffix). split; [|done].
      rewrite Hs. match goal with X : suffix = _ |- _ => rewrite X at 1 end. done.
    + match goal with X : (_ =? 74) = true |- _ => apply Nat.eqb_eq in X; rewrite Hs, py_len_app in X;
        change (py_len SECRET_PREFIX) with 15 in X end.
      apply (f_equal py_len) in Hl. rewrite lower_len, letters_len in Hl.
      match goal with X : suffix = _ |- _ => apply (f_equal py_len) in X; rewrite py_len_app in X; change (py_len "1") with 1 in X end.
      lia.
  - intros (Hlen & Hlines & payload & Hk & suffix & -> & Hlow).
    destruct (encode_spec "age-secret-key-" payload Hk) as [Hw Hl].
    assert (outside_alphabet (py_lower suffix) = false) as Hout by (rewrite Hlow; by apply letters_inside).
    assert (py_len suffix = 58) as Hsl by (rewrite <- lower_len, Hlow, letters_len; done).
    rewrite Hlines. rewrite bool_decide_false by (intros ->; done). rewrite (proj2 (Z.ltb_ge _ _)) by done.
    cbv beta iota. change ("AGE-SECRET-KEY-1" +:+ suffix) with (SECRET_PREFIX +:+ ("1" +:+ suffix)).
    rewrite identity_re; [| done | simpl; constructor; [done | by apply lower_alnum]].
    change 15 with (py_len SECRET_PREFIX). rewrite !str_drop_app, !py_len_app, Hsl.
    change (str_drop 1 ("1" +:+ suffix)) with suffix. rewrite Hout, Hlow. simpl.
    rewrite (proj2 (map_index_iff _ _)) by done. simpl.
    rewrite (proj2 (bech32_checked_iff _ _ _ word_hrp_secret Hw Hl)) by eauto. done.
Qed.

Lemma identity_of_inj p p' s : key32 p -> key32 p' -> identity_of p s -> identity_of p' s -> p = p'.
Proof.
  intros Hk Hk' (t & -> & Ht) (t' & Hs & Ht'). apply (f_equal (str_drop (py_len "AGE-SECRET-KEY-1"))) in Hs.
  rewrite !str_drop_app in Hs. subst t'. rewrite Ht in Ht'.
  apply letters_inj in Ht'; [|by apply encode_spec..]. by eapply encode_inj.
Qed.

(** The accepted recipients are exactly the texts of 32 bytes, one text for each: their
    bits in groups of five under the checksum; an accepted identity is one line of the same
    form after its prefix, in any letter case, and stands for one payload. *)
Theorem age_keys_canonical (label : string) :
  (forall value s, validate_recipient value label = Ok s <->
     value = PStr s /\ exists! payload, key32 payload /\ s = recipient_of payload)
  /\ (forall text s, validate_operational_identity (PStr text) = Ok s <->
     (Z.of_nat (py_len text) <= 16 * 1024)%Z /\ py_splitlines text = [s]
     /\ exists! payload, key32 payload /\ identity_of payload s).
Proof.
  split.
  - intros value s. rewrite validate_recipient_iff. split.
    + intros (-> & p & Hk & ->). split; [done |]. exists p. split; [done |]. intros p' [Hk' Hp']. by apply recipient_of_inj.
    + intros (-> & p & [Hk ->] & _). split; [done |]. by exists p.
  - intros text s. rewrite validate_identity_iff. split.
    + intros (? & ? & p & Hk & Hp). repeat (split; [done |]). exists p. split; [done |].
      intros p' [Hk' Hp']. by eapply identity_of_inj.
    + intros (? & ? & p & [Hk Hp] & _). repeat (split; [done |]). by exists p.
Qed.
