(* ===== verification/Keyset.v ===== *)
(** * Encryption keysets ([src/josh_room/encryption_domain.py])

    The key material of one physical bucket: the age keys of an encryption domain and, from
    format 2 on, the secret of its Room Store.  The constructors check every field; a
    keyset is stored as JSON in the bucket it belongs to. *)

From S2P Require Import Prelude PyStr PyObj PyUrl PyDatetime PyJson LogicalJat Catalog CatalogFile Base64 Bech32.
From stdpp Require Import pretty.
From Stdlib Require Import Ascii.

Definition KEYSET_CONTROL_KEY : string := "control/encryption-keyset.v1.json".
Definition MIGRATION_JOURNAL_KEY : string := "control/migration-journal.v1.json".
Definition CONTROL_KEYS : list string := [KEYSET_CONTROL_KEY; MIGRATION_JOURNAL_KEY].
Definition KEYSET_FORMAT_VERSION : Z := 1.
Definition ROOM_STORE_KEYSET_FORMAT_VERSION : Z := 2.
Definition ROOM_STORE_METADATA_FORMAT_VERSION : Z := 1.
Definition ROOM_STORE_REPOSITORY_FORMAT_VERSION : Z := 2.
Definition ROOM_STORE_PREFIX : string := "room-store/v1".
Definition MAX_KEYSET_SIZE : Z := 64 * 1024.
Definition CONTROL_OBJECT_MAX_BYTES : Z := 64 * 1024.
Definition BUCKET_RE : re := RCat (RCls is_alnum) (RStar (RCls is_id_char)).
Definition REPOSITORY_RE : re := exactly 64 (RCls is_hex).
Definition _KEYSET_FIELDS : list string :=
  ["format_version"; "encryption_domain_id"; "provider"; "endpoint"; "bucket"; "key_generation"; "operational_identity";
   "operational_recipient"; "recovery_recipients"].
Definition _ROOM_STORE_FIELDS : list string :=
  ["format_version"; "secret"; "repository_prefix"; "repository_format"; "physical_binding"; "generation"; "repository_id"].

Definition is_control_key (key : string) : bool := bool_decide (key ∈ CONTROL_KEYS).

(** [type(v) is not int or v != z] and the like *)
Definition is_int (p : Z -> bool) (v : pyobj) : bool := match v with PInt z => p z | _ => false end.
(** The value of an argument that passes its check; the check's exception otherwise. *)
Definition require {A} (o : option A) (e : exn) : result A := match o with Some a => Ok a | None => Raise e end.
(** [isinstance(v, str) and v and p(v)] *)
Definition text_of (p : string -> bool) (v : pyobj) : option string :=
  match v with PStr s => if negb (bool_decide (s = "")) && p s then Some s else None | _ => None end.
(** [type(v) is int and v >= 1] *)
Definition positive_of (v : pyobj) : option Z := match v with PInt z => if (1 <=? z)%Z then Some z else None | _ => None end.

(** ** The Room Store's secret *)
Definition bad_secret : exn := EValue "Room Store secret encoding is invalid".
Definition validate_room_store_secret (value : pyobj) : result string :=
  match value with
  | PStr s =>
      raise_if (negb (py_len s =? 43)%nat) bad_secret ;;
      decoded ← reraise is_type_or_value_error bad_secret (urlsafe_b64decode (s +:+ "="));
      raise_if (negb (py_len decoded =? 32)%nat || negb (bool_decide (unpadded decoded = s))) bad_secret ;;
      Ok s
  | _ => Raise bad_secret
  end.

(** The fields of the two frozen dataclasses. *)
Record RoomStoreKeyset := {
  secret : string;
  physical_binding : string;
  generation : Z;
  repository_id : option string;
  repository_prefix : string;
  repository_format : Z;
  metadata_version : Z;
}.
Record EncryptionKeyset := {
  domain_id : string;
  provider : string;
  endpoint : string;
  bucket : string;
  key_generation : Z;
  operational_identity : string;
  operational_recipient : string;
  recovery_recipients : list string;
  format_version : Z;
  room_store : option RoomStoreKeyset;
}.

Definition is_repository_id (v : pyobj) : bool := match v with PStr s => fullmatch REPOSITORY_RE s | _ => false end.

Definition RoomStoreKeyset_init (secret physical_binding generation repository_id repository_prefix repository_format
    format_version : pyobj) : result RoomStoreKeyset :=
  s ← validate_room_store_secret secret;
  raise_if (negb (is_int (Z.eqb ROOM_STORE_METADATA_FORMAT_VERSION) format_version))
    (EValue "unsupported Room Store metadata format") ;;
  raise_if (negb (py_eq repository_prefix (PStr ROOM_STORE_PREFIX))) (EValue "unsupported Room Store repository prefix") ;;
  raise_if (negb (is_int (Z.eqb ROOM_STORE_REPOSITORY_FORMAT_VERSION) repository_format))
    (EValue "unsupported Room Store repository format") ;;
  b ← require (text_of (fun _ => true) physical_binding) (EValue "Room Store physical binding is invalid");
  g ← require (positive_of generation) (EValue "Room Store generation must be positive");
  raise_if (negb (is_none repository_id) && negb (is_repository_id repository_id))
    (EValue "Room Store repository id is invalid") ;;
  Ok {| secret := s; physical_binding := b; generation := g; repository_id := as_str repository_id;
        repository_prefix := ROOM_STORE_PREFIX; repository_format := ROOM_STORE_REPOSITORY_FORMAT_VERSION;
        metadata_version := ROOM_STORE_METADATA_FORMAT_VERSION |}.

(** [unknown] and [missing], the two set differences both [from_dict] begin with. *)
Definition exact_fields (what : string) (fields : list string) (body : dict) : result unit :=
  let unknown := without body.*1 fields in
  raise_if (negb (bool_decide (unknown = []))) (EValue ("unknown " +:+ what +:+ " field: " +:+ least unknown)) ;;
  let missing := without fields body.*1 in
  raise_if (negb (bool_decide (missing = []))) (EValue ("missing " +:+ what +:+ " field: " +:+ least missing)).

Definition RoomStoreKeyset_from_dict (body : pyobj) : result RoomStoreKeyset :=
  match body with
  | PDict d =>
      exact_fields "Room Store" _ROOM_STORE_FIELDS d ;;
      let get k := get_or_none k d in
      RoomStoreKeyset_init (get "secret") (get "physical_binding") (get "generation") (get "repository_id")
        (get "repository_prefix") (get "repository_format") (get "format_version")
  | _ => Raise (EType "Room Store metadata must be an object")
  end.

Definition RoomStoreKeyset_to_dict (r : RoomStoreKeyset) : dict :=
  [("format_version", PInt (metadata_version r)); ("secret", PStr (secret r));
   ("repository_prefix", PStr (repository_prefix r)); ("repository_format", PInt (repository_format r));
   ("physical_binding", PStr (physical_binding r)); ("generation", PInt (generation r));
   ("repository_id", opt_str (repository_id r))].

(** ** Endpoints and physical buckets *)

(** [ipaddress.ip_address(host).is_loopback]; [None] when the text is no address. *)
Class IpRuntime := { ip_loopback : string -> option bool }.

Section endpoints.
Context `{UrlRuntime, IpRuntime}.

Definition is_loopback (host : string) : bool :=
  match ip_loopback host with Some b => b | None => bool_decide (py_lower host = "localhost") end.

Definition is_blank (c : ascii) : bool := is_space c || is_control c || Ascii.eqb c "127".
Definition bad_endpoint : exn := EValue "endpoint is invalid".
Definition known_scheme (scheme : string) : bool := bool_decide (scheme ∈ ["http"; "https"]).

Definition validate_endpoint (endpoint : pyobj) : result string :=
  match endpoint with
  | PStr s =>
      raise_if (str_any is_blank s) bad_endpoint ;;
      parsed ← reraise is_value_error bad_endpoint (urlsplit s);
      match url_hostname parsed with
      | Some host =>
          raise_if (negb (known_scheme (url_scheme parsed))) (EValue "endpoint must use http/https with a hostname") ;;
          raise_if (bool_decide (url_userinfo parsed ≠ (None, None)) || has_char "@" (url_netloc parsed))
            (EValue "endpoint must not contain userinfo") ;;
          raise_if (bool_decide (url_scheme parsed = "http") && negb (is_loopback host))
            (EValue "non-loopback HTTP endpoint is not allowed") ;;
          Ok s
      | None => Raise (EValue "endpoint must use http/https with a hostname")
      end
  | _ => Raise bad_endpoint
  end.

Definition validate_minio_transport (endpoint verify_tls ca_bundle : pyobj) : result string :=
  s ← validate_endpoint endpoint;
  match verify_tls with
  | PBool verify =>
      parsed ← urlsplit s;
      raise_if (bool_decide (url_scheme parsed = "http") && negb (is_loopback (default "" (url_hostname parsed))))
        (EValue "MinIO remote endpoints must use HTTPS") ;;
      raise_if (negb verify) (EValue "MinIO TLS verification cannot be disabled") ;;
      raise_if (negb (is_none ca_bundle) && bool_decide (text_of (fun _ => true) ca_bundle = None)) (EValue "MinIO CA bundle is invalid") ;;
      Ok s
  | _ => Raise (EType "MinIO TLS verification must be a boolean")
  end.

Definition PROVIDERS : list string := ["r2"; "minio"].

(** [if provider not in PROVIDERS: raise e] *)
Definition provider_of (e : exn) (provider : pyobj) : result string :=
  raise_if (negb (hashable provider)) (EType "unhashable type") ;;
  require (text_of (fun p => bool_decide (p ∈ PROVIDERS)) provider) e.

(** The port, unless it is the scheme's own. *)
Definition effective_port (scheme : string) (port : option Z) : option Z :=
  if bool_decide ((scheme, port) ∈ [("http", Some 80%Z); ("https", Some 443%Z)]) then None else port.

Definition physical_bucket_identity (provider endpoint bucket : pyobj) : result string :=
  p ← provider_of (EValue "unsupported encryption provider") provider;
  e ← validate_endpoint endpoint;
  b ← require (text_of (fullmatch BUCKET_RE) bucket) (EValue "bucket binding is invalid");
  parsed ← urlsplit e;
  let hostname := py_lower (default "" (url_hostname parsed)) in
  port ← url_port parsed;
  let authority :=
    match effective_port (url_scheme parsed) port with
    | None => hostname
    | Some port => hostname +:+ ":" +:+ pretty port
    end in
  let normalized := urlunsplit (py_lower (url_scheme parsed)) authority (py_rstrip (Ascii.eqb "/") (url_path parsed)) in
  Ok (p +:+ ":" +:+ normalized +:+ ":" +:+ b).

Definition binding (k : EncryptionKeyset) : result string :=
  physical_bucket_identity (PStr (provider k)) (PStr (endpoint k)) (PStr (bucket k)).
End endpoints.

(** ** The keyset *)
Section keysets.
Context `{UrlRuntime, IpRuntime, PyRuntime, JsonRuntime}.

Definition short_text (v : pyobj) : option string := text_of (fun s => (py_len s <=? 63)%nat) v.
Definition is_format (z : Z) : bool := (z =? KEYSET_FORMAT_VERSION)%Z || (z =? ROOM_STORE_KEYSET_FORMAT_VERSION)%Z.

(** The format and the Room Store metadata it calls for. *)
Definition check_format (provider endpoint bucket format_version : pyobj) (room_store : option RoomStoreKeyset) : result Z :=
  format ← require (match format_version with PInt z => if is_format z then Some z else None | _ => None end)
             (EValue "unsupported keyset format");
  if (format =? KEYSET_FORMAT_VERSION)%Z then
    raise_if (bool_decide (room_store ≠ None)) (EValue "version 1 keyset cannot contain Room Store metadata") ;;
    Ok format
  else
    metadata ← require room_store (EValue "version 2 keyset requires Room Store metadata");
    bound ← physical_bucket_identity provider endpoint bucket;
    raise_if (negb (bool_decide (physical_binding metadata = bound))) (EValue "Room Store physical binding mismatch") ;;
    Ok format.

Definition EncryptionKeyset_init (encryption_domain_id provider endpoint bucket key_generation operational_identity
    operational_recipient : pyobj) (recovery_recipients : list pyobj) (format_version : pyobj)
    (room_store : option RoomStoreKeyset) : result EncryptionKeyset :=
  format ← check_format provider endpoint bucket format_version room_store;
  validate_encryption_domain_id encryption_domain_id ;;
  p ← provider_of (EValue "keyset provider is invalid") provider;
  e ← validate_endpoint endpoint;
  b ← require (short_text bucket) (EValue "keyset bucket is invalid");
  g ← require (positive_of key_generation) (EValue "key generation must be positive");
  identity ← validate_operational_identity operational_identity;
  operational ← validate_recipient operational_recipient "operational recipient";
  recovery ← map_result (fun v => validate_recipient v "recovery recipient") recovery_recipients;
  raise_if (bool_decide (recovery = [])) (EValue "at least one recovery recipient is required") ;;
  raise_if (negb (bool_decide (NoDup (operational :: recovery)))) (EValue "duplicate recipient") ;;
  Ok {| domain_id := default "" (as_str encryption_domain_id); provider := p; endpoint := e; bucket := b;
        key_generation := g; operational_identity := identity; operational_recipient := operational;
        recovery_recipients := recovery; format_version := format; room_store := room_store |}.

(** [dataclasses.replace(k, format_version=..., room_store=...)] runs the constructor. *)
Definition replace_room_store (k : EncryptionKeyset) (format : Z) (metadata : RoomStoreKeyset) : result EncryptionKeyset :=
  EncryptionKeyset_init (PStr (domain_id k)) (PStr (provider k)) (PStr (endpoint k)) (PStr (bucket k))
    (PInt (key_generation k)) (PStr (operational_identity k)) (PStr (operational_recipient k))
    (PStr <$> recovery_recipients k) (PInt format) (Some metadata).

Definition reconcile_existing_keyset (existing candidate : EncryptionKeyset) : result EncryptionKeyset :=
  b ← binding existing; b' ← binding candidate;
  raise_if (negb (bool_decide (b = b'))) (EValue "keyset physical bucket binding mismatch") ;;
  raise_if (negb (format_version existing =? format_version candidate)%Z) (EValue "keyset version mismatch") ;;
  match room_store existing, room_store candidate with
  | Some r, Some r' =>
      raise_if (negb (bool_decide (secret r = secret r'))) (EValue "Room Store secret mismatch") ;;
      raise_if (negb (bool_decide (repository_id r = repository_id r'))) (EValue "Room Store repository id mismatch")
  | _, _ => Ok tt
  end ;;
  Ok existing.
(** The identity is compared first; bindings are computed only for the same identity. *)
Definition check_occupied (candidate item : EncryptionKeyset) : result unit :=
  if bool_decide (operational_identity item = operational_identity candidate) then
    b ← binding item; b' ← binding candidate;
    raise_if (negb (bool_decide (b = b'))) (EValue "operational identity is already bound to another bucket")
  else Ok tt.
Definition reconcile_keyset (existing : option EncryptionKeyset) (candidate : EncryptionKeyset)
    (occupied : list EncryptionKeyset) : result EncryptionKeyset :=
  match existing with
  | Some existing => reconcile_existing_keyset existing candidate
  | None => for_each (check_occupied candidate) occupied ;; Ok candidate
  end.

(** [fresh] is the text of the UUID drawn when no domain id is given. *)
Definition create (provider endpoint bucket operational_identity operational_recipient : pyobj)
    (recovery_recipients : option (list pyobj)) (recovery_recipient : option pyobj) (encryption_domain_id : option string)
    (fresh : string) (key_generation : pyobj) (existing : option EncryptionKeyset) (occupied : list EncryptionKeyset)
    : result EncryptionKeyset :=
  recovery ← match recovery_recipients, recovery_recipient with
             | None, None => Ok []
             | None, Some r => Ok [r]
             | Some l, None => Ok l
             | Some _, Some _ => Raise (EValue "recovery recipients are ambiguous")
             end;
  let domain := match encryption_domain_id with Some s => if bool_decide (s = "") then fresh else s | None => fresh end in
  candidate ← EncryptionKeyset_init (PStr domain) provider endpoint bucket key_generation operational_identity
                operational_recipient recovery (PInt KEYSET_FORMAT_VERSION) None;
  reconcile_keyset existing candidate occupied.

(** *** Dictionaries and JSON *)
Definition keyset_fields (format : Z) : list string :=
  if (format =? KEYSET_FORMAT_VERSION)%Z then _KEYSET_FIELDS else _KEYSET_FIELDS ++ ["room_store"].

(** [if given is not None and field != given: raise] *)
Definition bound_to (given : option string) (field : pyobj) (e : exn) : result unit :=
  match given with Some s => raise_if (negb (py_eq field (PStr s))) e | None => Ok tt end.
Definition endpoint_bound (given : option string) (provider endpoint bucket : pyobj) : result unit :=
  match given with
  | Some s =>
      b ← physical_bucket_identity provider endpoint bucket;
      b' ← physical_bucket_identity provider (PStr s) bucket;
      raise_if (negb (bool_decide (b = b'))) (EValue "endpoint binding mismatch")
  | None => Ok tt
  end.

Record bindings := { on_provider : option string; on_endpoint : option string; on_bucket : option string }.

Definition keyset_from_dict (on : bindings) (body : pyobj) : result EncryptionKeyset :=
  match body with
  | PDict d =>
      let get k := get_or_none k d in
      version ← require (match get "format_version" with PInt z => if is_format z then Some z else None | _ => None end)
                  (EValue "unsupported keyset format");
      exact_fields "keyset" (keyset_fields version) d ;;
      metadata ← (if (version =? ROOM_STORE_KEYSET_FORMAT_VERSION)%Z
                  then Some <$> RoomStoreKeyset_from_dict (get "room_store") else Ok None);
      bound_to (on_provider on) (get "provider") (EValue "provider binding mismatch") ;;
      endpoint_bound (on_endpoint on) (get "provider") (get "endpoint") (get "bucket") ;;
      bound_to (on_bucket on) (get "bucket") (EValue "bucket binding mismatch") ;;
      recovery ← require (as_list (get "recovery_recipients")) (EType "recovery recipients are invalid");
      EncryptionKeyset_init (get "encryption_domain_id") (get "provider") (get "endpoint") (get "bucket")
        (get "key_generation") (get "operational_identity") (get "operational_recipient") recovery
        (get "format_version") metadata
  | _ => Raise (EType "keyset must be an object")
  end.

Definition keyset_to_dict (k : EncryptionKeyset) : dict :=
  [("format_version", PInt (format_version k)); ("encryption_domain_id", PStr (domain_id k));
   ("provider", PStr (provider k)); ("endpoint", PStr (endpoint k)); ("bucket", PStr (bucket k));
   ("key_generation", PInt (key_generation k)); ("operational_identity", PStr (operational_identity k));
   ("operational_recipient", PStr (operational_recipient k));
   ("recovery_recipients", PList (PStr <$> recovery_recipients k))]
  ++ (if (format_version k =? ROOM_STORE_KEYSET_FORMAT_VERSION)%Z
      then match room_store k with Some r => [("room_store", PDict (RoomStoreKeyset_to_dict r))] | None => [] end else []).

Definition keyset_too_large : exn := EValue "keyset exceeds maximum size".
Definition keyset_to_json (k : EncryptionKeyset) : result string :=
  let body := of_chars (utf8_bytes (dumps true (PDict (keyset_to_dict k)))) in
  raise_if (MAX_KEYSET_SIZE <? Z.of_nat (py_len body))%Z keyset_too_large ;;
  Ok body.

(** [except (UnicodeDecodeError, json.JSONDecodeError)] *)
Definition is_json_error (e : exn) : bool := bool_decide (e = bad_json \/ e = EValue "utf-8").
Definition keyset_from_json (on : bindings) (body : json_source) : result EncryptionKeyset :=
  raw ← match body with
        | SrcBytes b => Ok b
        | SrcStr s => Ok (utf8_bytes s)
        | SrcOther => Raise keyset_too_large
        end;
  raise_if (MAX_KEYSET_SIZE <? Z.of_nat (length raw))%Z keyset_too_large ;;
  value ← reraise is_json_error (EValue "keyset JSON is invalid") (loads_bytes (of_chars raw));
  keyset_from_dict on value.

(** *** Changes *)

(** [token] is the text [secrets.token_bytes(32)] drew. *)
Definition upgrade_for_room_store (k : EncryptionKeyset) (token : string) : result EncryptionKeyset :=
  if (format_version k =? ROOM_STORE_KEYSET_FORMAT_VERSION)%Z then Ok k
  else
    b ← binding k;
    metadata ← RoomStoreKeyset_init (PStr (unpadded token)) (PStr b) (PInt 1) PNone (PStr ROOM_STORE_PREFIX)
                 (PInt ROOM_STORE_REPOSITORY_FORMAT_VERSION) (PInt ROOM_STORE_METADATA_FORMAT_VERSION);
    replace_room_store k ROOM_STORE_KEYSET_FORMAT_VERSION metadata.

(** The metadata bound to the repository, at the next generation. *)
Definition bound_metadata (r : RoomStoreKeyset) (repository : pyobj) : result RoomStoreKeyset :=
  RoomStoreKeyset_init (PStr (secret r)) (PStr (physical_binding r)) (PInt (generation r + 1)) repository
    (PStr (repository_prefix r)) (PInt (repository_format r)) (PInt (metadata_version r)).

Definition bind_repository (k : EncryptionKeyset) (repository expected_generation : pyobj) : result EncryptionKeyset :=
  let upgrade_required := EValue "Room Store keyset upgrade is required" in
  raise_if (negb (format_version k =? ROOM_STORE_KEYSET_FORMAT_VERSION)%Z) upgrade_required ;;
  r ← require (room_store k) upgrade_required;
  raise_if (negb (is_int (Z.eqb (generation r)) expected_generation)) (EValue "Room Store generation mismatch") ;;
  raise_if (negb (is_repository_id repository)) (EValue "Room Store repository id is invalid") ;;
  match repository_id r with
  | Some id =>
      if py_eq (PStr id) repository then Ok k else Raise (EValue "Room Store repository id is immutable")
  | None =>
      metadata ← bound_metadata r repository;
      replace_room_store k (format_version k) metadata
  end.
End keysets.
