(* ===== verification/KeysetProps.v ===== *)
(** * Keysets: lemmas

    The constructors accept their own results again, so a keyset or its Room Store
    metadata can be rebuilt from its fields; what the changes of a keyset return. *)

From S2P Require Import Prelude PyStr PyObj PyUrl PyDatetime PyJson JsonProps LogicalJat LogicalJatProps LogicalJatTheorems Catalog CatalogMade CatalogFile.
From S2P Require Import Base64 Bech32 Bech32Props Bech32Canon Bech32Theorems Keyset.
From Stdlib Require Import Ascii.

(** ** The secret *)
Lemma validate_secret_iff value s : validate_room_store_secret value = Ok s <->
  value = PStr s /\ exists key, py_len key = 32 /\ s = unpadded key.
Proof.
  split.
  - destruct value as [| | | |text| |]; try done. unfold validate_room_store_secret. intros H. inv_ok. bools.
    split; [done |]. match goal with X : urlsafe_b64decode _ = Ok ?d |- _ => exists d end.
    split; [by apply Nat.eqb_eq | done].
  - intros (-> & key & Hl & ->). unfold validate_room_store_secret.
    pose proof (unpadded_pad key ltac:(by rewrite Hl)) as Hp.
    assert (py_len (unpadded key) = 43) as Hu.
    { apply (f_equal py_len) in Hp. rewrite py_len_app in Hp. change (py_len "=") with 1 in Hp.
      unfold urlsafe_b64encode in Hp. rewrite <- length_chars, chars_of_chars, length_fmap, Base64.b64_encode_length, length_chars, Hl in Hp.
      change ((32 + 2) / 3 * 4) with 44 in Hp. lia. }
    rewrite Hu, <- Hp, urlsafe_decode_encode. simpl. rewrite Hl. simpl. by rewrite bool_decide_true.
Qed.

Lemma unpadded_inj key key' : py_len key = 32 -> py_len key' = 32 -> unpadded key = unpadded key' -> key = key'.
Proof.
  intros Hl Hl' H. pose proof (unpadded_pad key ltac:(by rewrite Hl)) as Hp.
  rewrite H, <- (unpadded_pad key') in Hp by by rewrite Hl'.
  pose proof (urlsafe_decode_encode key) as Hk. rewrite Hp, urlsafe_decode_encode in Hk. congruence.
Qed.

(** ** Metadata *)
Definition rebuild_metadata (r : RoomStoreKeyset) : result RoomStoreKeyset :=
  RoomStoreKeyset_init (PStr (secret r)) (PStr (physical_binding r)) (PInt (generation r)) (opt_str (repository_id r))
    (PStr (repository_prefix r)) (PInt (repository_format r)) (PInt (metadata_version r)).
Definition valid_metadata (r : RoomStoreKeyset) : Prop := rebuild_metadata r = Ok r.

Lemma require_Ok {A} (o : option A) e a : require o e = Ok a <-> o = Some a.
Proof. unfold require. destruct o; naive_solver. Qed.
Lemma text_of_Some p v s : text_of p v = Some s <-> v = PStr s /\ s ≠ "" /\ p s = true.
Proof.
  unfold text_of. destruct v as [| | | |t| |]; try (split; [done | intros (? & _); done]).
  destruct (negb (bool_decide (t = "")) && p t) eqn:E.
  - bools. split; [by intros [= <-] | naive_solver].
  - split; [done |]. intros ([= ->] & Hne & Hp). rewrite bool_decide_false, Hp in E; done.
Qed.
Lemma positive_of_Some v z : positive_of v = Some z <-> v = PInt z /\ (1 <= z)%Z.
Proof.
  unfold positive_of. destruct v as [| |n| | | |]; try (split; [done | intros (? & _); done]).
  destruct (Z.leb_spec 1 n); split; try done; [by intros [= <-] | by intros ([= ->] & _) | intros ([= ->] & ?); lia].
Qed.

(** Inverting the checks that return the value they checked. *)
Ltac inv_require :=
  repeat match goal with
  | H : require _ _ = Ok _ |- _ => apply require_Ok in H
  | H : text_of _ _ = Some _ |- _ => apply text_of_Some in H as (? & ? & ?)
  | H : positive_of _ = Some _ |- _ => apply positive_of_Some in H as (? & ?)
  end.

Definition optional_id (v : pyobj) : Prop := v = PNone \/ exists s, v = PStr s /\ fullmatch REPOSITORY_RE s = true.
Lemma optional_id_check v e : raise_if (negb (is_none v) && negb (is_repository_id v)) e = Ok tt <-> optional_id v.
Proof.
  unfold optional_id. destruct v as [| | | |s| |]; simpl; try (split; [done | intros [?|(? & ? & ?)]; done]).
  - split; [by left | done].
  - destruct (fullmatch REPOSITORY_RE s) eqn:Hm; simpl; (split; [|intros [?|(? & [= <-] & ?)]; congruence]); [eauto | done].
Qed.

Lemma metadata_init_iff s b g id p f v r : RoomStoreKeyset_init s b g id p f v = Ok r <->
  validate_room_store_secret s = Ok (secret r) /\ v = PInt 1 /\ py_eq p (PStr ROOM_STORE_PREFIX) = true /\ f = PInt 2
  /\ b = PStr (physical_binding r) /\ physical_binding r ≠ "" /\ g = PInt (generation r) /\ (1 <= generation r)%Z
  /\ optional_id id /\ repository_id r = as_str id /\ repository_prefix r = ROOM_STORE_PREFIX
  /\ repository_format r = 2%Z /\ metadata_version r = 1%Z.
Proof.
  unfold RoomStoreKeyset_init. split.
  - intros H. inv_ok. bools. inv_require. simpl.
    assert (forall z w, is_int (Z.eqb z) w = true -> w = PInt z) as Hi
      by (intros z [| |n| | | |]; simpl; try done; by intros ->%Z.eqb_eq).
    repeat match goal with X : is_int _ _ = true |- _ => apply Hi in X end.
    split_and!; try done. apply (optional_id_check _ EKey). by match goal with X : _ && _ = false |- _ => rewrite X end.
  - intros (Hs & -> & Hp & -> & -> & Hb & -> & Hg & Hid & Hr & Hpre & Hf & Hv).
    rewrite Hs, bind_Ok, Hp, (proj2 (text_of_Some _ (PStr (physical_binding r)) _)) by done.
    rewrite (proj2 (positive_of_Some (PInt (generation r)) _)) by done. simpl. rewrite (proj2 (optional_id_check id _) Hid). simpl. f_equal. destruct r; simpl in *. by subst.
Qed.

Lemma optional_id_opt id : optional_id id -> opt_str (as_str id) = id.
Proof. by intros [->|(s & -> & _)]. Qed.

Lemma metadata_init_valid s b g id p f v r : RoomStoreKeyset_init s b g id p f v = Ok r -> valid_metadata r.
Proof.
  intros H%metadata_init_iff. destruct H as (Hs & -> & Hp & -> & -> & Hb & -> & Hg & Hid & Hr & Hpre & Hf & Hv).
  apply metadata_init_iff. apply validate_secret_iff in Hs as (_ & Hk). rewrite Hr, Hpre, Hf, Hv, optional_id_opt by done.
  split_and!; try done. by apply validate_secret_iff.
Qed.

(** Metadata bound to a repository. *)
Definition at_repository (r : RoomStoreKeyset) (id : string) : RoomStoreKeyset :=
  {| secret := secret r; physical_binding := physical_binding r; generation := generation r + 1; repository_id := Some id;
     repository_prefix := repository_prefix r; repository_format := repository_format r; metadata_version := metadata_version r |}.

Lemma bound_metadata_eq r id : valid_metadata r -> fullmatch REPOSITORY_RE id = true ->
  bound_metadata r (PStr id) = Ok (at_repository r id).
Proof.
  intros Hr%metadata_init_iff Hid. destruct Hr as (Hs & Hv & Hp & Hf & Hb & Hbne & _ & Hg & _ & _ & Hpre & Hf' & Hv').
  apply metadata_init_iff. simpl. split_and!; try done; [lia | right; eauto].
Qed.

(** ** Keysets *)
Section keysets.
Context `{UrlRuntime, IpRuntime, PyRuntime, JsonRuntime}.

Definition rebuild (k : EncryptionKeyset) : result EncryptionKeyset :=
  EncryptionKeyset_init (PStr (domain_id k)) (PStr (provider k)) (PStr (endpoint k)) (PStr (bucket k))
    (PInt (key_generation k)) (PStr (operational_identity k)) (PStr (operational_recipient k))
    (PStr <$> recovery_recipients k) (PInt (format_version k)) (room_store k).
Definition valid_keyset (k : EncryptionKeyset) : Prop :=
  rebuild k = Ok k /\ (forall r, room_store k = Some r -> valid_metadata r).

Lemma provider_of_Ok e v p : provider_of e v = Ok p <-> v = PStr p /\ p ∈ PROVIDERS.
Proof.
  unfold provider_of. split.
  - intros H'. inv_ok. inv_require. by bools.
  - intros (-> & Hp). change (require (text_of (fun p => bool_decide (p ∈ PROVIDERS)) (PStr p)) e = Ok p).
    apply require_Ok, text_of_Some. split; [done |]. split; [|by apply bool_decide_eq_true].
    intros ->. revert Hp. by compute_done.
Qed.

Lemma endpoint_same v s : validate_endpoint v = Ok s -> v = PStr s.
Proof. destruct v; try done. unfold validate_endpoint. intros H'. by inv_ok. Qed.
Lemma recipient_same v label s : validate_recipient v label = Ok s -> v = PStr s.
Proof. intros [-> _]%validate_recipient_iff. done. Qed.
Lemma recipient_label v label label' s : validate_recipient v label = Ok s -> validate_recipient v label' = Ok s.
Proof. rewrite !validate_recipient_iff. done. Qed.

Lemma recipients_same l label ss : map_result (fun v => validate_recipient v label) l = Ok ss -> l = PStr <$> ss.
Proof.
  rewrite map_result_Ok. induction 1 as [|v s l ss Hv _ IH]; csimpl; [done |]. apply recipient_same in Hv as ->. by rewrite IH.
Qed.

(** An identity is accepted again as the line it is. *)
Lemma splitlines_line s : Forall (fun c => is_line_break c = false) (chars s) -> s ≠ "" -> py_splitlines s = [s].
Proof.
  intros Hs Hne. unfold py_splitlines.
  assert (forall l line, Forall (fun c => is_line_break c = false) l -> (line ≠ [] \/ l ≠ []) ->
    line_chars line l = [reverse line ++ l]) as Hl.
  { induction l as [|c l IH]; intros line Hl Hn; cbn [line_chars].
    - destruct line; [by destruct Hn | by rewrite app_nil_r].
    - apply Forall_cons in Hl as [-> Hl]. rewrite IH by (done || by left). by rewrite reverse_cons, <- app_assoc. }
  rewrite Hl; [|done|right; by destruct s]. simpl. by rewrite of_chars_chars.
Qed.
Lemma alnum_no_break c : is_alnum c = true -> is_line_break c = false.
Proof.
  rewrite <- (ascii_nat_embedding c). pose proof (nat_ascii_bounded c) as Hb. revert Hb. generalize (nat_of_ascii c). intros n Hn Hc.
  assert (forallb (fun n => implb (is_alnum (ascii_of_nat n)) (negb (is_line_break (ascii_of_nat n)))) (seq 0 256) = true)
    as Hall by (vm_compute; reflexivity).
  rewrite forallb_forall in Hall. specialize (Hall n). rewrite Hc in Hall. apply negb_true_iff, Hall, in_seq. lia.
Qed.
Lemma identity_line payload s : key32 payload -> identity_of payload s -> py_splitlines s = [s] /\ (Z.of_nat (py_len s) <= 16 * 1024)%Z.
Proof.
  intros Hk (suffix & -> & Hlow). destruct (encode_spec "age-secret-key-" payload Hk) as [Hw Hl].
  assert (outside_alphabet (py_lower suffix) = false) as Hout by (rewrite Hlow; by apply letters_inside).
  apply lower_alnum in Hout. split.
  - apply splitlines_line; [|done]. rewrite chars_app. apply Forall_app. split.
    + apply Forall_forall. intros c Hc. revert c Hc. apply Forall_forall. by repeat constructor.
    + eapply Forall_impl; [exact Hout |]. apply alnum_no_break.
  - rewrite py_len_app, <- (lower_len suffix), Hlow, letters_len, Hl. done.
Qed.
Lemma identity_again v s : validate_operational_identity v = Ok s -> validate_operational_identity (PStr s) = Ok s.
Proof.
  destruct v as [| | | |text| |]; try done. intros (_ & _ & p & Hk & Hp)%validate_identity_iff.
  destruct (identity_line p s Hk Hp) as [? ?]. apply validate_identity_iff. split; [done |]. split; [done |]. by exists p.
Qed.

Lemma check_format_Ok p e b f rs z : check_format p e b f rs = Ok z ->
  f = PInt z /\ ((z = 1%Z /\ rs = None) \/ (z = 2%Z /\ exists r, rs = Some r /\ physical_bucket_identity p e b = Ok (physical_binding r))).
Proof.
  unfold check_format. intros H'. inv_ok; inv_require; bools; destruct f as [| |n| | | |]; try done; simpl in *;
    repeat match goal with X : (if is_format ?n then _ else _) = Some _ |- _ => destruct (is_format n) eqn:?; simplify_eq end.
  - split; [done |]. left. split; [by apply Z.eqb_eq |]. by destruct rs; [exfalso; auto|].
  - split; [done |]. right. unfold is_format in *. rewrite orb_true_iff, !Z.eqb_eq in *.
    match goal with X : (_ =? _)%Z = false |- _ => apply Z.eqb_neq in X end. split; [tauto |]. naive_solver.
Qed.

Lemma domain_text v : validate_encryption_domain_id v = Ok tt -> v = PStr (default "" (as_str v)).
Proof. by destruct v. Qed.

Lemma keyset_init_iff d p e b g i o rec f rs k : EncryptionKeyset_init d p e b g i o rec f rs = Ok k <->
  check_format p e b f rs = Ok (format_version k) /\ rs = room_store k
  /\ validate_encryption_domain_id d = Ok tt /\ d = PStr (domain_id k)
  /\ provider_of (EValue "keyset provider is invalid") p = Ok (provider k)
  /\ validate_endpoint e = Ok (endpoint k)
  /\ short_text b = Some (bucket k)
  /\ positive_of g = Some (key_generation k)
  /\ validate_operational_identity i = Ok (operational_identity k)
  /\ validate_recipient o "operational recipient" = Ok (operational_recipient k)
  /\ map_result (fun v => validate_recipient v "recovery recipient") rec = Ok (recovery_recipients k)
  /\ recovery_recipients k ≠ [] /\ NoDup (operational_recipient k :: recovery_recipients k).
Proof.
  unfold EncryptionKeyset_init. split.
  - intros H'. inv_result. bools. repeat match goal with X : require _ _ = Ok _ |- _ => apply require_Ok in X end.
    simpl. split_and!; auto using domain_text.
  - intros (-> & -> & Hd & -> & -> & -> & Hb & Hg & -> & -> & -> & Hne & Hnd). rewrite Hd.
    rewrite !bind_Ok, Hb, Hg. cbn [require]. rewrite !bind_Ok.
    rewrite (bool_decide_false (recovery_recipients k = [])) by done.
    rewrite (bool_decide_true (NoDup _)) by done. simpl. by destruct k.
Qed.

Lemma keyset_init_valid d p e b g i o rec f rs k : EncryptionKeyset_init d p e b g i o rec f rs = Ok k ->
  (forall r, rs = Some r -> valid_metadata r) -> valid_keyset k.
Proof.
  intros H' Hrs. apply keyset_init_iff in H'.
  destruct H' as (Hf & -> & Hd & -> & Hp & He & Hb & Hg & Hi & Ho & Hrec & Hne & Hnd). split; [|done].
  apply keyset_init_iff. pose proof Hp as [-> _]%provider_of_Ok. pose proof (endpoint_same _ _ He) as ->.
  pose proof Hb as [-> _]%text_of_Some. pose proof Hg as [-> _]%positive_of_Some.
  pose proof (recipient_same _ _ _ Ho) as ->. pose proof (recipients_same _ _ _ Hrec) as ->.
  pose proof (check_format_Ok _ _ _ _ _ _ Hf) as [-> _]. apply identity_again in Hi.
  split_and!; done.
Qed.

(** ** Changes *)
Definition with_room_store (k : EncryptionKeyset) (m : RoomStoreKeyset) : EncryptionKeyset :=
  {| domain_id := domain_id k; provider := provider k; endpoint := endpoint k; bucket := bucket k;
     key_generation := key_generation k; operational_identity := operational_identity k;
     operational_recipient := operational_recipient k; recovery_recipients := recovery_recipients k;
     format_version := 2; room_store := Some m |}.

Ltac keyset_fields := cbn [with_room_store domain_id provider endpoint bucket key_generation operational_identity
  operational_recipient recovery_recipients format_version room_store].

Lemma replace_eq k m : valid_keyset k -> binding k = Ok (physical_binding m) ->
  replace_room_store k 2 m = Ok (with_room_store k m).
Proof.
  intros [Hk _] Hb. apply keyset_init_iff in Hk. apply keyset_init_iff. keyset_fields.
  destruct Hk as (Hf & _ & ?). split; [|split; [done |]; naive_solver].
  unfold check_format. simpl. unfold binding in Hb. rewrite Hb. simpl. by rewrite bool_decide_true.
Qed.

Lemma valid_with_room_store k m : valid_keyset k -> valid_metadata m -> binding k = Ok (physical_binding m) ->
  valid_keyset (with_room_store k m).
Proof.
  intros Hk Hm Hb. apply (replace_eq k m Hk) in Hb. eapply keyset_init_valid; [exact Hb |]. by intros r [= <-].
Qed.

Lemma valid_format k : valid_keyset k -> (format_version k = 1%Z /\ room_store k = None)
  \/ (format_version k = 2%Z /\ exists r, room_store k = Some r /\ binding k = Ok (physical_binding r)).
Proof. intros [Hk _]. apply keyset_init_iff in Hk as (Hf & _). apply check_format_Ok in Hf as [_ ?]. done. Qed.

(** The secret a token becomes. *)
Definition fresh_metadata (token bound : string) : RoomStoreKeyset :=
  {| secret := unpadded token; physical_binding := bound; generation := 1; repository_id := None;
     repository_prefix := ROOM_STORE_PREFIX; repository_format := 2; metadata_version := 1 |}.

Lemma binding_nonempty k b : binding k = Ok b -> b ≠ "".
Proof.
  unfold binding, physical_bucket_identity. intros H'. inv_result. inv_require. intros Hb.
  apply (f_equal py_len) in Hb. rewrite !py_len_app in Hb. change (py_len ":") with 1 in Hb. change (py_len "") with 0 in Hb. lia.
Qed.

Lemma fresh_metadata_valid k token b : py_len token = 32 -> binding k = Ok b -> valid_metadata (fresh_metadata token b).
Proof.
  intros Ht Hb. apply metadata_init_iff. cbn [secret physical_binding generation repository_id repository_prefix
    repository_format metadata_version fresh_metadata opt_str as_str].
  split_and!; try reflexivity.
  - apply validate_secret_iff. eauto.
  - by eapply binding_nonempty.
  - by left.
Qed.

(** An upgrade keeps a keyset that has its metadata; otherwise it adds the token's. *)
Lemma upgrade_eq k token : valid_keyset k -> py_len token = 32 ->
  upgrade_for_room_store k token =
    match room_store k with
    | Some _ => Ok k
    | None => b ← binding k; Ok (with_room_store k (fresh_metadata token b))
    end.
Proof.
  intros Hk Ht. unfold upgrade_for_room_store. destruct (valid_format k Hk) as [[-> ->]|(-> & r & -> & _)]; [|done].
  simpl. destruct (binding k) as [b|e] eqn:Hb; [|done]. rewrite !bind_Ok.
  assert (RoomStoreKeyset_init (PStr (unpadded token)) (PStr b) (PInt 1) PNone (PStr ROOM_STORE_PREFIX)
    (PInt ROOM_STORE_REPOSITORY_FORMAT_VERSION) (PInt ROOM_STORE_METADATA_FORMAT_VERSION) = Ok (fresh_metadata token b)) as ->.
  { by apply (fresh_metadata_valid k). }
  rewrite bind_Ok. by apply replace_eq.
Qed.

Lemma at_repository_valid r id : valid_metadata r -> fullmatch REPOSITORY_RE id = true -> valid_metadata (at_repository r id).
Proof. intros Hr Hid. eapply metadata_init_valid, (bound_metadata_eq r id); done. Qed.

(** Binding a repository: what it returns, and when. *)
Lemma bind_repository_eq k r id g : valid_keyset k -> room_store k = Some r -> fullmatch REPOSITORY_RE id = true ->
  bind_repository k (PStr id) (PInt g) =
    if (generation r =? g)%Z then
      match repository_id r with
      | Some id' => if bool_decide (id' = id) then Ok k else Raise (EValue "Room Store repository id is immutable")
      | None => Ok (with_room_store k (at_repository r id))
      end
    else Raise (EValue "Room Store generation mismatch").
Proof.
  intros Hk Hr Hid. unfold bind_repository. destruct (valid_format k Hk) as [[_ ?]|(Hf & r' & Hr' & Hb)]; [congruence |].
  rewrite Hr in Hr' |- *. injection Hr' as <-. rewrite Hf. simpl. destruct (generation r =? g)%Z; [|done]. simpl. rewrite Hid. simpl.
  destruct (repository_id r); [done |]. rewrite bound_metadata_eq; [|by apply Hk | done]. simpl. by apply replace_eq.
Qed.

(** Nothing else is returned. *)
Lemma bind_repository_Ok k repository g k' : bind_repository k repository g = Ok k' ->
  exists r id, room_store k = Some r /\ repository = PStr id /\ fullmatch REPOSITORY_RE id = true /\ g = PInt (generation r).
Proof.
  unfold bind_repository. intros H'. apply bind_Ok_inv in H' as (? & _ & H'). apply bind_Ok_inv in H' as (r & Hr%require_Ok & H').
  apply bind_Ok_inv in H' as (? & Hg%raise_if_Ok_inv & H'). apply bind_Ok_inv in H' as (? & Hid%raise_if_Ok_inv & _). bools.
  destruct repository as [| | | |id| |]; try done. destruct g as [| |z| | | |]; try done. simpl in *. exists r, id.
  apply Z.eqb_eq in Hg as ->. done.
Qed.
End keysets.

(** ** Stored keysets *)
Lemma exact_fields_Ok what fields d : exact_fields what fields d = Ok tt <-> forall k, k ∈ d.*1 <-> k ∈ fields.
Proof.
  unfold exact_fields. split.
  - intros H'. inv_result. bools. rewrite without_nil in *. naive_solver.
  - intros Hk. rewrite !bool_decide_true by (apply without_nil; naive_solver). done.
Qed.

Lemma exact_fields_canon what fields d : exact_fields what fields d = Ok tt -> exact_fields what fields (canon_dict d) = Ok tt.
Proof. rewrite !exact_fields_Ok. intros Hk k. by rewrite canon_dict_keys. Qed.
