(* ===== verification/KeysetTheorems.v ===== *)
(** * Keysets: the properties

    Secrets, the stored form of a keyset and what its changes keep. *)

From S2P Require Import Prelude PyStr PyObj PyUrl PyDatetime PyJson JsonProps LogicalJat LogicalJatTheorems Catalog CatalogMade CatalogFile.
From S2P Require Import Base64 Bech32 Bech32Props Bech32Canon Bech32Theorems Keyset KeysetProps.
From Stdlib Require Import Ascii.

(** A Room Store secret is accepted exactly when it is the unpadded URL-safe Base64 text of
    32 bytes, which it determines: no other spelling of the same bytes is accepted. *)
Theorem room_store_secret_canonical value s : validate_room_store_secret value = Ok s <->
  value = PStr s /\ exists! key, py_len key = 32 /\ s = unpadded key.
Proof.
  rewrite validate_secret_iff. split.
  - intros (-> & key & Hl & ->). split; [done |]. exists key. split; [done |]. intros key' [Hl' Hk]. by apply unpadded_inj.
  - intros (-> & key & [Hl ->] & _). eauto.
Qed.

Section stored.
Context `{UrlRuntime, IpRuntime, PyRuntime, JsonRuntime}.

(** ** Reading a keyset back *)

Lemma metadata_keys r : (RoomStoreKeyset_to_dict r).*1 =
  ["format_version"; "secret"; "repository_prefix"; "repository_format"; "physical_binding"; "generation"; "repository_id"].
Proof. done. Qed.

Lemma NoDup_strings (l : list string) : bool_decide (NoDup l) = true -> NoDup l.
Proof. apply bool_decide_eq_true_1. Qed.

Lemma metadata_from_canon r : valid_metadata r ->
  RoomStoreKeyset_from_dict (PDict (canon_dict (RoomStoreKeyset_to_dict r))) = Ok r.
Proof.
  intros Hr. assert (NoDup (RoomStoreKeyset_to_dict r).*1) as Hnd by (apply NoDup_strings; reflexivity).
  unfold RoomStoreKeyset_from_dict. rewrite exact_fields_canon.
  - rewrite bind_Ok. cbv zeta. rewrite !get_or_none_canon by done.
    assert (canon (get_or_none "repository_id" (RoomStoreKeyset_to_dict r)) = opt_str (repository_id r)) as ->
      by (unfold get_or_none, RoomStoreKeyset_to_dict; simpl; by destruct (repository_id r)).
    exact Hr.
  - apply exact_fields_Ok. intros k. rewrite metadata_keys. done.
Qed.

(** The bindings a reader asks for are the keyset's own. *)
Definition fits (on : bindings) (k : EncryptionKeyset) : Prop :=
  (forall p, on_provider on = Some p -> provider k = p)
  /\ (forall e, on_endpoint on = Some e -> exists b, binding k = Ok b
       /\ physical_bucket_identity (PStr (provider k)) (PStr e) (PStr (bucket k)) = Ok b)
  /\ (forall b, on_bucket on = Some b -> bucket k = b).

Definition keyset_checks (on : bindings) (k : EncryptionKeyset) : result unit :=
  bound_to (on_provider on) (PStr (provider k)) (EValue "provider binding mismatch") ;;
  endpoint_bound (on_endpoint on) (PStr (provider k)) (PStr (endpoint k)) (PStr (bucket k)) ;;
  bound_to (on_bucket on) (PStr (bucket k)) (EValue "bucket binding mismatch").

Lemma bound_to_Ok given s e : bound_to given (PStr s) e = Ok tt <-> forall g, given = Some g -> s = g.
Proof.
  unfold bound_to. destruct given as [g|]; [|done]. simpl. case_bool_decide as Hg; simpl; split; try done.
  - by intros _ g' [= <-].
  - intros Hs. by destruct Hg; apply Hs.
Qed.
Lemma endpoint_bound_Ok given p e b : endpoint_bound given p e b = Ok tt <->
  forall g, given = Some g -> exists i, physical_bucket_identity p e b = Ok i /\ physical_bucket_identity p (PStr g) b = Ok i.
Proof.
  unfold endpoint_bound. destruct given as [g|]; [|done]. split.
  - intros H'. inv_result. bools. intros g' [= <-]. subst. eauto.
  - intros Hs. destruct (Hs g eq_refl) as (i & -> & ->). simpl. by rewrite bool_decide_true.
Qed.
Lemma keyset_checks_Ok on k : keyset_checks on k = Ok tt <-> fits on k.
Proof.
  unfold keyset_checks, fits, binding. rewrite <- (bound_to_Ok _ _ (EValue "provider binding mismatch")),
    <- endpoint_bound_Ok, <- (bound_to_Ok _ _ (EValue "bucket binding mismatch")).
  destruct (bound_to (on_provider on) _ _) as [[]|]; simpl; [|naive_solver].
  destruct (endpoint_bound _ _ _ _) as [[]|]; simpl; [|naive_solver]. naive_solver.
Qed.

Lemma keyset_dict_keys k : valid_keyset k -> NoDup (keyset_to_dict k).*1
  /\ exact_fields "keyset" (keyset_fields (format_version k)) (keyset_to_dict k) = Ok tt.
Proof.
  intros Hk. assert ((keyset_to_dict k).*1 = keyset_fields (format_version k)) as Hkeys.
  { unfold keyset_to_dict, keyset_fields. destruct (valid_format k Hk) as [[-> _]|(-> & r & -> & _)]; reflexivity. }
  split; [|apply exact_fields_Ok; by rewrite Hkeys].
  rewrite Hkeys. unfold keyset_fields. destruct (valid_format k Hk) as [[-> _]|(-> & r & _ & _)]; apply NoDup_strings; reflexivity.
Qed.

Lemma canon_strings l : canon (PList (PStr <$> l)) = PList (PStr <$> l).
Proof. simpl. f_equal. rewrite <- list_fmap_compose. by apply list_fmap_ext. Qed.

Lemma keyset_from_canon on k : valid_keyset k ->
  keyset_from_dict on (PDict (canon_dict (keyset_to_dict k))) = (keyset_checks on k ;; Ok k).
Proof.
  intros Hk. destruct (keyset_dict_keys k Hk) as [Hnd Hf]. unfold keyset_from_dict. cbv zeta.
  rewrite !get_or_none_canon by done.
  change (get_or_none "format_version" (keyset_to_dict k)) with (PInt (format_version k)).
  change (get_or_none "provider" (keyset_to_dict k)) with (PStr (provider k)).
  change (get_or_none "endpoint" (keyset_to_dict k)) with (PStr (endpoint k)).
  change (get_or_none "bucket" (keyset_to_dict k)) with (PStr (bucket k)).
  change (get_or_none "recovery_recipients" (keyset_to_dict k)) with (PList (PStr <$> recovery_recipients k)).
  rewrite canon_strings. cbn [canon as_list].
  assert (is_format (format_version k) = true) as -> by (destruct (valid_format k Hk) as [[-> _]|(-> & _)]; reflexivity).
  cbn [require]. rewrite bind_Ok, exact_fields_canon, bind_Ok by done.
  assert ((if (format_version k =? ROOM_STORE_KEYSET_FORMAT_VERSION)%Z
    then Some <$> RoomStoreKeyset_from_dict (canon (get_or_none "room_store" (keyset_to_dict k))) else Ok None)
    = Ok (room_store k)) as ->.
  { destruct (valid_format k Hk) as [[-> ->]|(Hv & r & Hr & _)]; [done |].
    assert (get_or_none "room_store" (keyset_to_dict k) = PDict (RoomStoreKeyset_to_dict r)) as ->
      by (unfold get_or_none, keyset_to_dict; by rewrite Hv, Hr).
    change (canon (PDict ?d)) with (PDict (canon_dict d)).
    rewrite metadata_from_canon by by apply Hk. by rewrite Hv, Hr. }
  rewrite bind_Ok. unfold keyset_checks.
  destruct (bound_to (on_provider on) _ _) as [[]|]; [|done]. rewrite !bind_Ok.
  destruct (endpoint_bound _ _ _ _) as [[]|]; [|done]. rewrite !bind_Ok.
  destruct (bound_to (on_bucket on) _ _) as [[]|]; [|done]. rewrite !bind_Ok. apply Hk.
Qed.

(** Generations within 64 bits: the texts the program itself writes. *)
Definition small_generations (k : EncryptionKeyset) : Prop :=
  (key_generation k < 2 ^ 63)%Z /\ forall r, room_store k = Some r -> (generation r < 2 ^ 63)%Z.

Lemma keyset_plain k : valid_keyset k -> small_generations k -> 2 <= json_depth -> plain json_depth (PDict (keyset_to_dict k)).
Proof.
  intros Hk [Hg Hr] Hd. destruct json_depth as [|[|n]]; [lia | lia |].
  assert (forall z, (1 <= z < 2 ^ 63)%Z -> (- 2 ^ 63 <= z < 2 ^ 63)%Z) as Hz by lia.
  destruct (keyset_dict_keys k Hk) as [Hnd _]. split; [done |].
  pose proof Hk as [(_ & _ & _ & _ & _ & _ & _ & Hkg & _)%keyset_init_iff Hvm]. apply positive_of_Some in Hkg as [_ Hkg].
  unfold keyset_to_dict. apply Forall_app. split.
  - repeat apply Forall_cons_2; try apply Forall_nil_2; try exact I; cbn [snd plain].
    + destruct (valid_format k Hk) as [[-> _]|[-> _]]; lia.
    + by apply Hz.
    + apply Forall_fmap, Forall_true. intros s. by destruct n.
  - destruct (format_version k =? _)%Z; [|apply Forall_nil_2].
    destruct (room_store k) as [r|] eqn:Hroom; [|apply Forall_nil_2].
    apply Forall_singleton. cbn [snd plain]. split; [apply NoDup_strings; reflexivity |].
    pose proof (Hvm r eq_refl) as (_ & _ & _ & _ & _ & _ & _ & Hrg & _ & _ & _ & Hf & Hm)%metadata_init_iff.
    unfold RoomStoreKeyset_to_dict. rewrite Hf, Hm.
    repeat apply Forall_cons_2; try apply Forall_nil_2; cbn [snd]; try (by destruct n).
    + assert (- 2 ^ 63 <= generation r < 2 ^ 63)%Z by (apply Hz; auto). by destruct n.
    + by destruct (repository_id r), n.
Qed.

(** Reading back comes down to the checks of the reader's own bindings. *)
Lemma keyset_read_back k body on : valid_keyset k -> small_generations k -> 2 <= json_depth -> keyset_to_json k = Ok body ->
  keyset_from_json on (SrcBytes (chars body)) = (keyset_checks on k ;; Ok k).
Proof.
  intros Hk Hg Hd Hj.
  assert (loads dict_hook float_constant (dumps true (PDict (keyset_to_dict k))) = Ok (PDict (canon_dict (keyset_to_dict k)))) as Hl.
  { apply (loads_dumps dict_hook float_constant dict_hook_distinct "" true); [by intros c ?%not_elem_of_nil |].
    by apply keyset_plain. }
  unfold keyset_to_json in Hj. revert Hj Hl. generalize (dumps true (PDict (keyset_to_dict k))). intros text Hj Hl.
  inv_result. unfold keyset_from_json. rewrite bind_Ok, chars_of_chars.
  match goal with X : (_ <? _)%Z = false |- _ => rewrite <- length_chars, chars_of_chars in X; rewrite X end.
  unfold raise_if, loads_bytes. rewrite bind_Ok, chars_of_chars, utf8_roundtrip, of_chars_chars, Hl.
  simpl reraise. by rewrite bind_Ok, keyset_from_canon.
Qed.

(** What a reader asks for who asks for nothing, and who asks for the keyset's own bucket. *)
Definition asks_nothing : bindings := {| on_provider := None; on_endpoint := None; on_bucket := None |}.
Definition asks_own (k : EncryptionKeyset) : bindings :=
  {| on_provider := Some (provider k); on_endpoint := Some (endpoint k); on_bucket := Some (bucket k) |}.

(** C32: let a valid keyset with generations below 2^63 be written with [to_json], on an interpreter
    that reads JSON at least two levels deep.  Reading its bytes never yields another keyset, and
    yields this one exactly for the readers whose provider and bucket, where they ask for one, are
    its own and whose endpoint, where they ask for one, has together with its provider and bucket the
    same physical bucket identity as its own endpoint, as [physical_bucket_identity] computes it
    (which leaves the brackets of an IPv6 address out, so that different endpoints can agree).  It is
    read back by the reader who asks for nothing and, if it has Room Store metadata, by the reader
    who asks for its own provider, endpoint and bucket. *)
Theorem keyset_json_roundtrip (k : EncryptionKeyset) (body : string) :
  valid_keyset k -> small_generations k -> 2 <= json_depth -> keyset_to_json k = Ok body ->
  (forall on, keyset_from_json on (SrcBytes (chars body)) = Ok k <-> fits on k)
  /\ (forall on k', keyset_from_json on (SrcBytes (chars body)) = Ok k' -> k' = k)
  /\ keyset_from_json asks_nothing (SrcBytes (chars body)) = Ok k
  /\ (room_store k ≠ None -> keyset_from_json (asks_own k) (SrcBytes (chars body)) = Ok k).
Proof.
  intros Hk Hg Hd Hj. pose proof (fun on => keyset_read_back k body on Hk Hg Hd Hj) as Hread.
  assert (forall on, keyset_from_json on (SrcBytes (chars body)) = Ok k <-> fits on k) as Hiff.
  { intros on. rewrite Hread, <- keyset_checks_Ok. by destruct (keyset_checks on k) as [[]|]. }
  split; [exact Hiff |]. split; [|split].
  - intros on k'. rewrite Hread. destruct (keyset_checks on k) as [[]|]; [|done]. by intros [= ->].
  - apply Hiff. by split_and!.
  - intros Hr. apply Hiff. destruct (valid_format k Hk) as [[_ Hn]|(_ & r & _ & Hb)]; [done |].
    split_and!; [by intros ? [= <-] | | by intros ? [= <-]]. intros e [= <-]. by exists (physical_binding r).
Qed.

(** ** The life of a keyset *)
Inductive keyset_step (k k' : EncryptionKeyset) : Prop :=
| step_upgrade token : py_len token = 32 -> upgrade_for_room_store k token = Ok k' -> keyset_step k k'
| step_bind repository expected_generation : bind_repository k repository expected_generation = Ok k' -> keyset_step k k'
| step_reconcile candidate : reconcile_keyset (Some k) candidate [] = Ok k' -> keyset_step k k'.

(** Metadata as it was, or bound to a repository since. *)
Definition grown (r r' : RoomStoreKeyset) : Prop :=
  r' = r \/ (repository_id r = None /\ exists id, fullmatch REPOSITORY_RE id = true /\ r' = at_repository r id).
(** The keyset as it was but for its metadata: what it has has grown, or was drawn from a token. *)
Definition later (k k' : EncryptionKeyset) : Prop :=
  k' = k \/ exists r', k' = with_room_store k r' /\
    match room_store k with
    | Some r => grown r r'
    | None => exists token b, py_len token = 32 /\ binding k = Ok b /\ grown (fresh_metadata token b) r'
    end.

Lemma grown_trans r1 r2 r3 : grown r1 r2 -> grown r2 r3 -> grown r1 r3.
Proof.
  intros [->|(H1' & id & Hid & ->)]; [done |]. intros [->|(H2' & _)]; [|done]. right. eauto.
Qed.

Lemma step_later k k' : valid_keyset k -> keyset_step k k' -> valid_keyset k' /\ later k k'.
Proof.
  intros Hk [token Ht Hu|repository g Hb|candidate Hr].
  - rewrite (upgrade_eq k token Hk Ht) in Hu. destruct (room_store k) as [r|] eqn:Hr.
    + injection Hu as <-. split; [done | by left].
    + destruct (binding k) as [b|] eqn:Hb; [|done]. injection Hu as <-. split.
      * apply valid_with_room_store; [done | by apply (fresh_metadata_valid k) | done].
      * right. exists (fresh_metadata token b). split; [done |]. rewrite Hr. exists token, b. split; [done |]. split; [done | by left].
  - destruct (bind_repository_Ok _ _ _ _ Hb) as (r & id & Hr & -> & Hid & ->).
    rewrite (bind_repository_eq k r id) in Hb by done. rewrite Z.eqb_refl in Hb.
    destruct (repository_id r) as [id'|] eqn:Hrid; [case_bool_decide; [|done]|]; injection Hb as <-; [split; [done | by left] |].
    destruct (valid_format k Hk) as [[_ ?]|(_ & r' & Hr' & Hbind)]; [congruence |]. rewrite Hr in Hr'. injection Hr' as <-. split.
    + apply valid_with_room_store; [done | | done]. apply at_repository_valid; [by apply Hk | done].
    + right. exists (at_repository r id). split; [done |]. rewrite Hr. right. eauto.
  - simpl in Hr. unfold reconcile_existing_keyset in Hr. inv_result. split; [done | by left].
Qed.

Lemma later_trans k1 k2 k3 : later k1 k2 -> later k2 k3 -> later k1 k3.
Proof.
  intros [->|(r2 & -> & Hg)]; [done |]. intros [->|(r3 & -> & Hg3)]; [right; eauto |]. simpl in Hg3.
  right. exists r3. split; [done |]. destruct (room_store k1) as [r1|]; [by eapply grown_trans |].
  destruct Hg as (token & b & Ht & Hb & Hg). exists token, b. split; [done |]. split; [done |]. by eapply grown_trans.
Qed.

(** C31: whatever upgrades, repository bindings and reconciliations a keyset goes through, its domain,
    bucket, keys and recipients stay; its metadata is drawn once, from one token, under the
    bucket's own binding; its secret never changes, its repository is set at most once, and its
    generation grows by one exactly then. *)
Theorem keyset_history (k k' : EncryptionKeyset) : valid_keyset k -> rtc keyset_step k k' -> valid_keyset k' /\ later k k'.
Proof.
  intros Hk Hs. induction Hs as [k|k1 k2 k3 H12 _ IH]; [split; [done | by left] |].
  destruct (step_later k1 k2 Hk H12) as [H2' Hl]. destruct (IH H2') as [H3' Hl']. split; [done |]. by eapply later_trans.
Qed.
End stored.
