(* ===== verification/ControlStore.v ===== *)
(** * Keysets in the object store ([src/josh_room/auth.py], [r2.py], [minio.py])

    The keyset of a bucket is a control object in the bucket itself, shared by every
    client of it.  Clients read it, upgrade it for the Room Store and bind the Room Store's
    repository, each change conditional on the version that was read.

    A client is a program that calls the object store and goes on with the outcome.  The
    store is a service outside the repository: [serve] gives what its calls may do. *)

From S2P Require Import Prelude Programs PyStr PyObj PyUrl PyDatetime PyJson LogicalJat Keyset.
From Stdlib Require Import Ascii.

(** ** Calls *)
Inductive put_condition := IfNoneMatch | IfMatch (etag : string).
(** [head_object] returns the length and the entity tag, [get_object] the body. *)
Inductive call : Type -> Type :=
| HeadObject (key : string) : call (Z * option string)
| GetObject (key : string) (if_match : option string) : call string
| PutObject (key body : string) (condition : put_condition) : call unit
| StoreSecret (domain : string) (generation : Z) (secret : string) : call unit.

(** How a call fails: the object is not there, a condition does not hold, another
    [ClientError], a [BotoCoreError], or the key store is unavailable. *)
Inductive failure := FNotFound | FPrecondition | FClient | FBoto | FUnavailable.

Abbreviation prog := (Programs.prog call failure exn).
Definition lift {A} (r : result A) : prog A := match r with Ok a => mret a | Raise e => throw e end.
(** [except <p> as error: h] *)
Definition when {A} (p : exn -> bool) (h : prog A) : exn -> prog A := fun e => if p e then h else throw e.

(** The configuration of a Dimension and of the backend opened for it. *)
Record Dimension := {
  dimension_provider : string;
  dimension_endpoint : string;
  dimension_bucket : string;
  dimension_domain : option string;
}.
Record MinioConfig := {
  config_endpoint : string;
  verify_tls : pyobj;
  ca_bundle : pyobj;
  auth_state : string;
}.

Section programs.
Context `{UrlRuntime, IpRuntime, PyRuntime, JsonRuntime}.
Variable dimension : Dimension.
Variable config : MinioConfig.

(** ** Control objects ([r2.py]) *)
Definition _validate_control_key (key : string) : prog unit :=
  lift (raise_if (negb (is_control_key key)) (EValue "control key is not allowlisted")).
Definition client_error (f : failure) : exn := match f with FBoto => EBoto | _ => EClient end.

Definition head_object (key : string) : prog (option (Z * option string)) :=
  Call (HeadObject key) (fun o =>
    match o with
    | inl head => mret (Some head)
    | inr FNotFound => mret None
    | inr f => throw (client_error f)
    end).
Definition get_object (key : string) (if_match : option string) : prog string :=
  Call (GetObject key if_match) (fun o => match o with inl body => mret body | inr f => throw (client_error f) end).

(** [if head.get("ETag")] *)
Definition truthy (etag : option string) : option string :=
  match etag with Some s => if bool_decide (s = "") then None else Some s | None => None end.

Definition R2_read_control (key : string) (max_bytes : Z) : prog (option string * option string) :=
  _validate_control_key key ;;
  lift (raise_if (max_bytes <? 1)%Z (EValue "control object size bound is invalid")) ;;
  head ← head_object key;
  match head with
  | None => mret (None, None)
  | Some (size, etag) =>
      let max_bytes := Z.min max_bytes CONTROL_OBJECT_MAX_BYTES in
      lift (raise_if ((size <? 0) || (max_bytes <? size))%Z (EValue "control object exceeds maximum size")) ;;
      body ← get_object key (truthy etag);
      lift (raise_if (negb (Z.of_nat (py_len body) =? size)%Z || (max_bytes <? Z.of_nat (py_len body))%Z)
              (EValue "control object exceeds maximum size")) ;;
      mret (Some body, etag)
  end.

Definition put_object (key body : string) (condition : put_condition) : prog unit :=
  Call (PutObject key body condition) (fun o =>
    match o with
    | inl u => mret u
    | inr FPrecondition => throw (EConflict "control object conditional conflict")
    | inr _ => throw (EPublication "control object publication outcome is unknown" true)
    end).

Definition R2_publish_control (key body : string) (expected_etag : option string) : prog string :=
  _validate_control_key key ;;
  lift (raise_if (CONTROL_OBJECT_MAX_BYTES <? Z.of_nat (py_len body))%Z (EValue "control object exceeds maximum size")) ;;
  put_object key body (match expected_etag with None => IfNoneMatch | Some etag => IfMatch etag end) ;;
  try ('(verified, etag) ← R2_read_control key CONTROL_OBJECT_MAX_BYTES;
       lift (raise_if (negb (bool_decide (verified = Some body))) (EValue "control object read-back mismatch")) ;;
       mret (default "" etag))
    (fun _ => throw (EPublication "control object publication verification failed" true)).

(** The MinIO backend checks its connection first ([minio.py]). *)
Definition _require_connected : prog unit :=
  lift (raise_if (bool_decide (auth_state config = "disconnected")) (ERuntime "MinIO connection is disconnected; reconnect before use")).
Definition read_control (key : string) (max_bytes : Z) : prog (option string * option string) :=
  _require_connected ;; R2_read_control key max_bytes.
Definition create_control (key body : string) : prog string :=
  _require_connected ;; R2_publish_control key body None.
Definition replace_control (key body expected_etag : string) : prog string :=
  _require_connected ;;
  lift (raise_if (bool_decide (expected_etag = "")) (EValue "control object ETag is required")) ;;
  R2_publish_control key body (Some expected_etag).

(** ** Keysets ([auth.py]) *)
Definition _validate_minio_backend_transport : result unit :=
  if negb (bool_decide (dimension_provider dimension = "minio")) then Ok tt
  else
    let endpoint := if bool_decide (config_endpoint config = "") then dimension_endpoint dimension else config_endpoint config in
    validate_minio_transport (PStr endpoint) (verify_tls config) (ca_bundle config) ;; Ok tt.

Definition own_bindings : bindings :=
  {| on_provider := Some (dimension_provider dimension); on_endpoint := Some (dimension_endpoint dimension);
     on_bucket := Some (dimension_bucket dimension) |}.

Definition _read_keyset_record_from_backend : prog (option EncryptionKeyset * option string) :=
  lift _validate_minio_backend_transport ;;
  '(body, etag) ← read_control KEYSET_CONTROL_KEY (64 * 1024);
  match body with
  | None => mret (None, etag)
  | Some body =>
      keyset ← lift (reraise is_type_or_value_error (EState "encryption-keyset-invalid")
                       (keyset_from_json own_bindings (SrcBytes (chars body))));
      mret (Some keyset, etag)
  end.
Definition _keyset_from_backend : prog (option EncryptionKeyset) :=
  '(keyset, _) ← _read_keyset_record_from_backend; mret keyset.

Definition _assert_keyset_matches_dimension (keyset : EncryptionKeyset) : prog unit :=
  match dimension_domain dimension with
  | Some domain =>
      lift (raise_if (negb (bool_decide (domain = "")) && negb (bool_decide (domain = domain_id keyset)))
              (EState "encryption-domain-mismatch"))
  | None => mret tt
  end.
Definition _require_minio_room_store : prog unit :=
  lift (raise_if (negb (bool_decide (dimension_provider dimension = "minio"))) (EState "room-store-keyset-unsupported")).

(** The secret is cached under the keyset's scope; only an unavailable key store is passed over. *)
Definition _cache_room_store_secret (keyset : EncryptionKeyset) : prog unit :=
  match room_store keyset with
  | None => throw EAttribute
  | Some r =>
      Call (StoreSecret (domain_id keyset) (generation r) (secret r)) (fun o =>
        match o with
        | inl _ | inr FUnavailable => mret tt
        | inr _ => throw (ERuntime "OS Secret Service Room Store secret import failed")
        end)
  end.

Definition _validate_room_store_winner (keyset : option EncryptionKeyset) : prog EncryptionKeyset :=
  match keyset with
  | None => throw (EState "room-store-keyset-unavailable")
  | Some keyset =>
      _assert_keyset_matches_dimension keyset ;;
      lift (raise_if (negb (format_version keyset =? ROOM_STORE_KEYSET_FORMAT_VERSION)%Z || bool_decide (room_store keyset = None))
              (EState "room-store-keyset-write-unknown")) ;;
      mret keyset
  end.
Definition read_winner : prog EncryptionKeyset :=
  '(winner, _) ← _read_keyset_record_from_backend; _validate_room_store_winner winner.

Definition _same_room_store_secret (first second : EncryptionKeyset) : bool :=
  match room_store first, room_store second with
  | Some r, Some r' => bool_decide (secret r = secret r')
  | _, _ => false
  end.
(** The generation and the repository of a keyset's metadata *)
Definition metadata_generation (k : EncryptionKeyset) : Z := match room_store k with Some r => generation r | None => 0 end.
Definition metadata_repository (k : EncryptionKeyset) : option string := room_store k ≫= repository_id.

(** Write the candidate over the version that was read, then read back what the store
    holds.  After a failed write the winner is taken as it is; otherwise it is checked. *)
Definition publish_candidate (candidate : EncryptionKeyset) (etag : string) (checked : EncryptionKeyset -> prog EncryptionKeyset)
    : prog EncryptionKeyset :=
  try_else (text ← lift (keyset_to_json candidate); replace_control KEYSET_CONTROL_KEY text etag)
    (fun write_error => when is_store_error (try read_winner (when is_store_error (throw write_error))) write_error)
    (fun _ => try_else read_winner (when is_store_error (throw (EState "room-store-keyset-write-unverified"))) checked).

Definition upgraded_winner (candidate winner : EncryptionKeyset) : prog EncryptionKeyset :=
  lift (raise_if (negb (_same_room_store_secret candidate winner)) (EState "room-store-keyset-upgrade-conflict")) ;;
  lift (raise_if (metadata_generation winner <? metadata_generation candidate)%Z (EState "room-store-keyset-generation-conflict")) ;;
  mret winner.

(** [token] is what [secrets.token_bytes(32)] draws. *)
Definition ensure_room_store_keyset (token : string) : prog EncryptionKeyset :=
  _require_minio_room_store ;;
  '(keyset, etag) ← _read_keyset_record_from_backend;
  match keyset with
  | None => throw (EState "room-store-keyset-uninitialized")
  | Some keyset =>
      _assert_keyset_matches_dimension keyset ;;
      if (format_version keyset =? ROOM_STORE_KEYSET_FORMAT_VERSION)%Z then
        _cache_room_store_secret keyset ;; mret keyset
      else
        match truthy etag with
        | None => throw (EState "room-store-keyset-version-unavailable")
        | Some etag =>
            candidate ← lift (upgrade_for_room_store keyset token);
            winner ← publish_candidate candidate etag (upgraded_winner candidate);
            _cache_room_store_secret winner ;; mret winner
        end
  end.

(** [candidate is keyset]: binding returned its argument. *)
Definition already_bound (k : EncryptionKeyset) : bool := bool_decide (metadata_repository k ≠ None).

Definition bind_room_store_repository (repository expected_generation : pyobj) : prog EncryptionKeyset :=
  _require_minio_room_store ;;
  '(keyset, etag) ← _read_keyset_record_from_backend;
  match keyset with
  | None => throw (EState "room-store-keyset-uninitialized")
  | Some keyset =>
      _assert_keyset_matches_dimension keyset ;;
      lift (raise_if (negb (format_version keyset =? ROOM_STORE_KEYSET_FORMAT_VERSION)%Z) (EState "room-store-keyset-upgrade-required")) ;;
      candidate ← lift (bind_repository keyset repository expected_generation);
      if already_bound keyset then
        _cache_room_store_secret keyset ;; mret keyset
      else
        match truthy etag with
        | None => throw (EState "room-store-keyset-version-unavailable")
        | Some etag =>
            winner ← publish_candidate candidate etag mret;
            lift (raise_if (negb (_same_room_store_secret candidate winner)
                            || negb (py_eq (opt_str (metadata_repository winner)) repository)
                            || negb (metadata_generation winner =? metadata_generation candidate)%Z)
                    (EState "room-store-repository-binding-conflict")) ;;
            _cache_room_store_secret winner ;; mret winner
        end
  end.

(** The candidate of an enrollment becomes the keyset of an empty bucket, or meets the one
    that is there. *)
Definition is_conflict (e : exn) : bool := match e with EConflict _ => true | _ => false end.
Definition enroll_candidate (candidate : EncryptionKeyset) : prog EncryptionKeyset :=
  try_else (text ← lift (keyset_to_json candidate); create_control KEYSET_CONTROL_KEY text)
    (fun error =>
       if is_conflict error then
         winner ← _keyset_from_backend;
         match winner with
         | None => throw (ERuntime "MinIO keyset race outcome is unknown")
         | Some winner => _assert_keyset_matches_dimension winner ;; mret winner
         end
       else throw error)
    (fun _ => mret candidate).
End programs.
