(* ===== verification/ControlProps.v ===== *)
(** * The clients of a keyset

    The object store as the clients see it: reads return what is stored, a conditional
    write replaces the object or is refused, and any call may fail.  A write that failed
    may have happened all the same, or may happen later.  Clients take turns call by call;
    new ones may start at any time.

    Every write a client makes carries the history of its bucket's keyset on, and what a
    client returns belongs to that history. *)

From S2P Require Import Prelude PyStr PyObj PyUrl PyDatetime PyJson LogicalJat Keyset KeysetProps KeysetTheorems Programs ControlStore.

(** ** The bucket *)
Record write_request := { put_key : string; put_body : string; put_if : put_condition }.
(** Each object with its body and entity tag, how many writes there were, and the writes
    that failed at the client and may still happen. *)
Record bucket_state := {
  objects : gmap string (string * string);
  writes : nat;
  late : list write_request;
}.

Definition condition_holds (condition : put_condition) (object : option (string * string)) : Prop :=
  match condition, object with
  | IfNoneMatch, None => True
  | IfMatch tag, Some (_, tag') => tag = tag'
  | _, _ => False
  end.
#[export] Instance condition_holds_dec c o : Decision (condition_holds c o).
Proof. destruct c, o as [[]|]; simpl; apply _. Defined.

Section runs.
Context `{UrlRuntime, IpRuntime, PyRuntime, JsonRuntime}.
(** The entity tag of the [n]th write. *)
Variable etag_of : nat -> string -> string.

Definition set_late (l : list write_request) (b : bucket_state) : bucket_state :=
  {| objects := objects b; writes := writes b; late := l |}.
Definition store_object (p : write_request) (b : bucket_state) : bucket_state :=
  {| objects := <[put_key p := (put_body p, etag_of (writes b) (put_body p))]> (objects b);
     writes := S (writes b); late := late b |}.
Definition put_now (p : write_request) (b b' : bucket_state) : Prop :=
  condition_holds (put_if p) (objects b !! put_key p) /\ b' = store_object p b.

Definition serve {R} (b : bucket_state) (c : call R) : R + failure -> bucket_state -> Prop :=
  match c in call R return R + failure -> bucket_state -> Prop with
  | HeadObject key => fun o b' => b' = b /\
      match o with
      | inl head => exists body tag, objects b !! key = Some (body, tag) /\ head = (Z.of_nat (py_len body), Some tag)
      | inr f => f = FNotFound -> objects b !! key = None
      end
  | GetObject key if_match => fun o b' => b' = b /\
      match o with
      | inl body => exists tag, objects b !! key = Some (body, tag) /\ (if_match = None \/ if_match = Some tag)
      | inr _ => True
      end
  | PutObject key body condition => fun o b' =>
      let p := {| put_key := key; put_body := body; put_if := condition |} in
      match o with
      | inl _ => put_now p b b'
      | inr _ => b' = b \/ put_now p b b' \/ b' = set_late (p :: late b) b
      end
  | StoreSecret _ _ _ => fun _ b' => b' = b
  end.

(** ** The clients *)
Inductive task :=
| Enroll (candidate : EncryptionKeyset)
| Ensure (token : string)
| Bind (repository expected_generation : pyobj).

(** What a task may start from: a candidate [create] made, a token of 32 bytes. *)
Definition startable (t : task) : Prop :=
  match t with
  | Enroll candidate => exists provider endpoint bucket identity recipient recovery one domain fresh occupied,
      create provider endpoint bucket identity recipient recovery one domain fresh (PInt 1) None occupied = Ok candidate
  | Ensure token => py_len token = 32
  | Bind _ _ => True
  end.
Definition program (dimension : Dimension) (config : MinioConfig) (t : task) : prog EncryptionKeyset :=
  match t with
  | Enroll candidate => enroll_candidate dimension config candidate
  | Ensure token => ensure_room_store_keyset dimension config token
  | Bind repository expected => bind_room_store_repository dimension config repository expected
  end.

Record client := { doing : task; running : prog EncryptionKeyset }.
Record system := { store_of : bucket_state; clients : list client }.

Inductive system_step : system -> system -> Prop :=
| step_start b cs t dimension config : startable t ->
    system_step {| store_of := b; clients := cs |}
      {| store_of := b; clients := cs ++ [{| doing := t; running := program dimension config t |}] |}
| step_call b cs i t R (c : call R) next o b' :
    cs !! i = Some {| doing := t; running := Call c next |} -> serve b c o b' ->
    system_step {| store_of := b; clients := cs |}
      {| store_of := b'; clients := <[i := {| doing := t; running := next o |}]> cs |}
| step_late b cs p l1 l2 b' : late b = l1 ++ p :: l2 ->
    b' = set_late (l1 ++ l2) b \/ put_now p (set_late (l1 ++ l2) b) b' ->
    system_step {| store_of := b; clients := cs |} {| store_of := b'; clients := cs |}
| step_other b cs p : put_key p ≠ KEYSET_CONTROL_KEY ->
    system_step {| store_of := b; clients := cs |} {| store_of := store_object p b; clients := cs |}.

(** A bucket without a keyset, and no client yet. *)
Definition uninitialized (s : system) : Prop :=
  objects (store_of s) !! KEYSET_CONTROL_KEY = None /\ late (store_of s) = [] /\ clients s = [].

(** ** Every keyset the bucket has held, the newest first *)
Definition orderly (k : EncryptionKeyset) : Prop :=
  valid_keyset k /\ (key_generation k < 2 ^ 63)%Z /\
  forall r, room_store k = Some r -> generation r = match repository_id r with Some _ => 2 | None => 1 end%Z.
Definition written (k : EncryptionKeyset) (body : string) : Prop := orderly k /\ keyset_to_json k = Ok body.
Definition history (h : list EncryptionKeyset) : Prop := Forall orderly h /\ StronglySorted (fun k k' => later k' k) h.

(** The object is the newest keyset of the history. *)
Definition holds_history (object : option (string * string)) (h : list EncryptionKeyset) : Prop :=
  match h with
  | [] => object = None
  | k :: _ => exists body n, object = Some (body, etag_of n body) /\ keyset_to_json k = Ok body
  end.

(** A write that keeps a history going. *)
Definition proper_write (p : write_request) : Prop :=
  put_key p = KEYSET_CONTROL_KEY ->
  match put_if p with
  | IfNoneMatch => exists k, written k (put_body p)
  | IfMatch tag => forall n body k, tag = etag_of n body -> written k body ->
      exists k', written k' (put_body p) /\ later k k'
  end.
Definition proper_call {R} (c : call R) : Prop :=
  match c with
  | PutObject key body condition => proper_write {| put_key := key; put_body := body; put_if := condition |}
  | _ => True
  end.

(** What an outcome tells of the history after the call. *)
Definition newest (h : list EncryptionKeyset) (body : string) : Prop := exists k, head h = Some k /\ written k body.
Definition learned {R} (h : list EncryptionKeyset) (c : call R) : R + failure -> Prop :=
  match c in call R return R + failure -> Prop with
  | HeadObject key => fun o => key = KEYSET_CONTROL_KEY -> forall n tag, o = inl (n, tag) ->
      exists body m, newest h body /\ tag = Some (etag_of m body)
  | GetObject key if_match => fun o => key = KEYSET_CONTROL_KEY -> forall body, o = inl body ->
      newest h body /\ forall tag, if_match = Some tag -> exists m, tag = etag_of m body
  | PutObject key body _ => fun o => key = KEYSET_CONTROL_KEY -> o = inl tt -> newest h body
  | StoreSecret _ _ _ => fun _ => True
  end.

(** A program started at a history makes proper writes only, while other clients extend the
    history. *)
Definition keyset_service : service call failure (list EncryptionKeyset) :=
  {| answers _ R c o h' := learned h' c o; allows _ R c := proper_call c; moves := suffix; holds := history |}.
Abbreviation W := (wp (E:=exn) keyset_service).

(** *** Rules *)
Lemma K_mono {A} (Q Q' : _ -> A -> Prop) h m : W Q h m -> (forall h' a, h `suffix_of` h' -> Q h' a -> Q' h' a) -> W Q' h m.
Proof. exact (wp_mono keyset_service Q Q' h m). Qed.
Lemma K_ret {A} (Q : _ -> A -> Prop) h a : (forall h', h `suffix_of` h' -> Q h' a) -> W Q h (mret a).
Proof. exact (wp_ret keyset_service Q h a). Qed.
Lemma K_try_else {A B} (Q : _ -> B -> Prop) h (m : prog A) handler f :
  W (fun h' a => W Q h' (f a)) h m -> (forall e h', h `suffix_of` h' -> W Q h' (handler e)) -> W Q h (try_else m handler f).
Proof. exact (wp_try_else keyset_service Q h m handler f). Qed.
Lemma wp_lift {A} (Q : _ -> A -> Prop) h r : (forall a h', r = Ok a -> h `suffix_of` h' -> Q h' a) -> W Q h (lift r).
Proof. destruct r; simpl; [intros HQ h'; by apply HQ | done]. Qed.
Lemma wp_when {A} (Q : _ -> A -> Prop) h p handler e : W Q h handler -> W Q h (when p handler e).
Proof. intros Hh. unfold when. by destruct (p e). Qed.
Lemma wp_learn {A R} (Q : _ -> A -> Prop) h (c : call R) next : proper_call c ->
  (forall h' o, h `suffix_of` h' -> history h' -> learned h' c o -> W Q h' (next o)) -> W Q h (Call c next).
Proof. intros Hc Hn. apply wp_call; [done |]. intros h1 o h2 Hs _ Hl Hs' Hh. simpl in *. apply Hn; [by etrans | done | done]. Qed.
End runs.

Section clients.
Context `{UrlRuntime, IpRuntime, PyRuntime, JsonRuntime}.
(** ** Orderly keysets *)
Lemma orderly_small k : orderly k -> small_generations k.
Proof.
  intros (_ & Hg & Hr). split; [done |]. intros r Hk. rewrite (Hr r Hk). by destruct (repository_id r).
Qed.
Lemma create_orderly provider endpoint bucket identity recipient recovery one domain fresh occupied candidate :
  create provider endpoint bucket identity recipient recovery one domain fresh (PInt 1) None occupied = Ok candidate -> orderly candidate.
Proof.
  unfold create, reconcile_keyset. intros Hc. inv_result.
  match goal with X : EncryptionKeyset_init _ _ _ _ _ _ _ _ _ _ = Ok ?k |- _ => rename X into Hk end.
  assert (valid_keyset candidate) as Hv by (eapply keyset_init_valid; [exact Hk | done]).
  apply keyset_init_iff in Hk as (_ & Hr & _ & _ & _ & _ & _ & [Hg _]%positive_of_Some & _). injection Hg as Hg.
  split; [done |]. rewrite <- Hr, <- Hg. split; [lia | done].
Qed.
Lemma orderly_step k k' : orderly k -> keyset_step k k' -> (forall r, room_store k' = Some r -> room_store k = None -> generation r = 1%Z /\ repository_id r = None) ->
  orderly k' /\ later k k'.
Proof.
  intros (Hv & Hg & Hr) Hs Hfresh. destruct (step_later k k' Hv Hs) as [Hv' Hl]. split; [|done]. split; [done |].
  destruct Hl as [->|(r' & -> & Hgrown)]; [done |]. split; [done |]. intros ? [= <-].
  destruct (room_store k) as [r|] eqn:Hk.
  - specialize (Hr r eq_refl). destruct Hgrown as [->|(Hnone & id & _ & ->)]; [done |]. rewrite Hnone in Hr. simpl. by rewrite Hr.
  - destruct (Hfresh r' eq_refl eq_refl) as [-> ->]. done.
Qed.
Lemma orderly_upgrade k token k' : orderly k -> py_len token = 32 -> upgrade_for_room_store k token = Ok k' -> orderly k' /\ later k k'.
Proof.
  intros Ho Ht Hu. apply orderly_step; [done | by eapply step_upgrade |].
  rewrite (upgrade_eq k token) in Hu by (try done; apply Ho). intros r' Hr' Hnone. rewrite Hnone in Hu.
  destruct (binding k) as [b|]; [|done]. injection Hu as <-. by injection Hr' as <-.
Qed.
Lemma orderly_bind k repository expected k' : orderly k -> bind_repository k repository expected = Ok k' -> orderly k' /\ later k k'.
Proof.
  intros Ho Hb. apply orderly_step; [done | by eapply step_bind |]. intros r' _ Hnone.
  destruct (bind_repository_Ok _ _ _ _ Hb) as (r & _ & Hr & _). congruence.
Qed.

Context (etag_of : nat -> string -> string).
Hypothesis etag_content : forall n body n' body', etag_of n body = etag_of n' body' -> body = body'.
Hypothesis deep : 2 <= json_depth.
Context (dimension : Dimension) (config : MinioConfig).

Abbreviation W := (wp (E:=exn) (keyset_service etag_of)).

(** ** Keysets and their texts *)
Lemma written_read k body on : written k body -> keyset_from_json on (SrcBytes (chars body)) = (keyset_checks on k ;; Ok k).
Proof. intros [Ho Hj]. apply keyset_read_back; [apply Ho | by apply orderly_small | done | done]. Qed.
Lemma written_inj k k' body : written k body -> written k' body -> k = k'.
Proof.
  intros Hk Hk'. pose (on := {| on_provider := None; on_endpoint := None; on_bucket := None |}).
  pose proof (written_read k body on Hk) as E. rewrite (written_read k' body on Hk') in E. by injection E as ->.
Qed.

(** ** Reading *)
(** [body] is the text of [k], a keyset of the history. *)
Definition held (h : list EncryptionKeyset) (k : EncryptionKeyset) (body : string) : Prop := k ∈ h /\ written k body.
Lemma newest_held h body : newest h body -> exists k, held h k body.
Proof. intros (k & Hk & Hw). exists k. split; [|done]. destruct h; [done |]. injection Hk as ->. by left. Qed.
(** The tag is of a write of [body]. *)
Definition tags (tag : option string) (body : string) : Prop := forall t, truthy tag = Some t -> exists n, t = etag_of n body.
Definition stands (h : list EncryptionKeyset) (tag : option string) (k : EncryptionKeyset) : Prop :=
  exists body, held h k body /\ tags tag body.
Lemma suffix_elem (k : EncryptionKeyset) h h' : k ∈ h -> h `suffix_of` h' -> k ∈ h'.
Proof. intros Hk [l ->]. apply elem_of_app. by right. Qed.
Lemma keyset_held_later k body h h' : held h k body -> h `suffix_of` h' -> held h' k body.
Proof. intros [Hk Hw] Hs. split; [by eapply suffix_elem | done]. Qed.

Definition read_back (h : list EncryptionKeyset) (r : option string * option string) : Prop :=
  forall body, r.1 = Some body -> (exists k, held h k body) /\ tags r.2 body.
Lemma wp_head h : W (fun _ _ => True) h (head_object KEYSET_CONTROL_KEY).
Proof. apply wp_learn; [exact I |]. intros h' [head|f] _ _ _; [by intros h'' _ | by destruct f; try apply wp_throw; intros h'' _]. Qed.
Lemma wp_get h if_match : W (fun h' body => (exists k, held h' k body) /\ forall tag, if_match = Some tag -> exists n, tag = etag_of n body)
  h (get_object KEYSET_CONTROL_KEY if_match).
Proof.
  apply wp_learn; [done |]. intros h' [body|f] Hs Hh Hl; [|by destruct f].
  destruct (Hl eq_refl body eq_refl) as [(k & Hk)%newest_held Htag]. apply K_ret. intros h'' Hs'.
  split; [|done]. exists k. by eapply keyset_held_later.
Qed.

(** Past the checks before the next call. *)
Ltac wp_checks := unfold _validate_control_key, _require_connected, _require_minio_room_store; repeat lazymatch goal with
  | |- wp _ _ _ (@lift unit _ ≫= _) => apply wp_bind, wp_lift; let Hcheck := fresh "Hcheck" in intros [] ? Hcheck ?
  end.

Lemma wp_read_object h max : W read_back h (R2_read_control KEYSET_CONTROL_KEY max).
Proof.
  unfold R2_read_control. wp_checks. apply wp_bind. eapply K_mono; [apply wp_head |]. intros h1 [[n tag]|] _ _; [|by intros h2 _].
  wp_checks. apply wp_bind. eapply K_mono; [apply wp_get |]. intros h2 body _ [[k Hk] Htag].
  wp_checks. apply K_ret. intros h3 Hs body' [= <-]. split; [|done]. exists k. eapply keyset_held_later; [done |]. by etrans.
Qed.
Lemma wp_read_control h max : W read_back h (read_control config KEYSET_CONTROL_KEY max).
Proof. unfold read_control. wp_checks. apply wp_read_object. Qed.

Definition read_keyset (h : list EncryptionKeyset) (r : option EncryptionKeyset * option string) : Prop :=
  forall k, r.1 = Some k -> stands h r.2 k.
Lemma wp_read_record h : W read_keyset h (_read_keyset_record_from_backend dimension config).
Proof.
  unfold _read_keyset_record_from_backend. wp_checks.
  apply wp_bind. eapply K_mono; [apply wp_read_control |]. intros h1 [[body|] tag] _ Hb; [|by intros h2 _].
  destruct (Hb body eq_refl) as [(k & Hk) Htag]. rewrite (written_read k) by apply Hk. apply wp_bind, wp_lift.
  intros k' h2 Hr Hs. apply K_ret. intros h3 Hs' ? [= <-].
  assert (k' = k) as ->.
  { destruct (keyset_checks _ k) as [[]|e]; [by injection Hr as -> |]. simpl in Hr. by destruct (is_type_or_value_error e). }
  exists body. split; [|done]. eapply keyset_held_later; [done |]. by etrans.
Qed.

Lemma wp_assert_matches h k : W (fun _ _ => True) h (_assert_keyset_matches_dimension dimension k).
Proof. unfold _assert_keyset_matches_dimension. destruct (dimension_domain dimension); [|done]. by apply wp_lift. Qed.
Lemma wp_cache h k : W (fun _ _ => True) h (_cache_room_store_secret k).
Proof. unfold _cache_room_store_secret. destruct (room_store k); [|done]. apply wp_learn; [done |]. by intros h' [|[]] _ _ _. Qed.

(** A keyset of the history, with its metadata. *)
Definition upgraded (h : list EncryptionKeyset) (k : EncryptionKeyset) : Prop := k ∈ h /\ room_store k ≠ None.
Lemma upgraded_later h h' k : upgraded h k -> h `suffix_of` h' -> upgraded h' k.
Proof. intros [Hk Hr] Hs. split; [by eapply suffix_elem | done]. Qed.
Lemma wp_read_winner h : W upgraded h (read_winner dimension config).
Proof.
  unfold read_winner. apply wp_bind. eapply K_mono; [apply wp_read_record |]. intros h1 [[k|] tag] _ Hk; [|done].
  destruct (Hk k eq_refl) as (body & [Hin _] & _). unfold _validate_room_store_winner.
  apply wp_bind. eapply K_mono; [apply wp_assert_matches |]. intros h2 [] Hs2 _.
  wp_checks. apply K_ret. intros h3 Hs3. inv_result. split; [eapply suffix_elem; [done |]; by do 2 (etrans; [done |]) |].
  match goal with X : _ || _ = false |- _ => apply orb_false_elim in X as [_ X]; by apply bool_decide_eq_false in X end.
Qed.

(** ** Writing *)
Lemma wp_put h body condition : proper_write etag_of {| put_key := KEYSET_CONTROL_KEY; put_body := body; put_if := condition |} ->
  W (fun h' _ => exists k, held h' k body) h (put_object KEYSET_CONTROL_KEY body condition).
Proof.
  intros Hp. apply wp_learn; [done |]. intros h' [[]|f] _ _ Hl; [|by destruct f].
  destruct (newest_held h' body (Hl eq_refl eq_refl)) as [k Hk]. apply K_ret. intros h'' Hs. exists k. by eapply keyset_held_later.
Qed.
Lemma wp_publish h body expected : proper_write etag_of {| put_key := KEYSET_CONTROL_KEY; put_body := body;
    put_if := match expected with None => IfNoneMatch | Some tag => IfMatch tag end |} ->
  W (fun h' _ => exists k, held h' k body) h (R2_publish_control KEYSET_CONTROL_KEY body expected).
Proof.
  intros Hp. unfold R2_publish_control. wp_checks. apply wp_bind. eapply K_mono; [by apply wp_put |]. intros h1 [] _ [k Hk].
  unfold try. apply K_try_else; [|intros; apply wp_throw].
  apply wp_bind. eapply K_mono; [apply wp_read_object |]. intros h2 [verified tag] Hs2 _. wp_checks.
  apply K_ret. intros h3 Hs3 h4 Hs4. exists k. eapply keyset_held_later; [done |]. by do 3 (etrans; [done |]).
Qed.

(** The write over the version a keyset was read at. *)
Lemma proper_replace h k tag tag' candidate text : stands h tag k -> truthy tag = Some tag' -> orderly candidate -> later k candidate ->
  keyset_to_json candidate = Ok text ->
  proper_write etag_of {| put_key := KEYSET_CONTROL_KEY; put_body := text; put_if := IfMatch tag' |}.
Proof.
  intros (body & [_ Hw] & Htag) Ht Ho Hl Hj _ n body' k0 He Hw0. destruct (Htag tag' Ht) as [m Hm]. simpl in *.
  assert (body' = body) as -> by (apply (etag_content n _ m); congruence).
  rewrite (written_inj k0 k body Hw0 Hw). by exists candidate.
Qed.

Lemma wp_publish_candidate h candidate tag checked :
  (forall text, keyset_to_json candidate = Ok text ->
     proper_write etag_of {| put_key := KEYSET_CONTROL_KEY; put_body := text; put_if := IfMatch tag |}) ->
  (forall h' w, upgraded h' w -> W upgraded h' (checked w)) ->
  W upgraded h (publish_candidate dimension config candidate tag checked).
Proof.
  intros Hp Hc. unfold publish_candidate. apply K_try_else.
  - apply wp_bind, wp_lift. intros text h1 Htext _. eapply K_mono; [|intros h2 a Hs Ha; exact Ha].
    unfold replace_control. wp_checks. eapply K_mono; [by apply (wp_publish _ text (Some tag)), Hp |]. intros h2 _ _ _.
    apply K_try_else; [|intros; by apply wp_when]. eapply K_mono; [apply wp_read_winner |]. intros h3 w _ Hw. by apply Hc.
  - intros e h1 Hs1. apply wp_when. unfold try. apply K_try_else; [|intros; by repeat apply wp_when].
    eapply K_mono; [apply wp_read_winner |]. intros h2 w _ Hw. apply K_ret. intros h3 Hs3. by eapply upgraded_later.
Qed.

(** Whatever happens meanwhile, a result that is stored in the secret cache stays the same. *)
Lemma wp_cached (Q : list EncryptionKeyset -> EncryptionKeyset -> Prop) h w : (forall h' h'', Q h' w -> h' `suffix_of` h'' -> Q h'' w) ->
  Q h w -> W Q h (_cache_room_store_secret w ;; mret w).
Proof.
  intros HQ Hw. apply wp_bind. eapply K_mono; [apply wp_cache |]. intros h1 [] Hs _. apply K_ret. intros h2 Hs2. eapply HQ; [done |]. by etrans.
Qed.

Lemma wp_ensure h token : py_len token = 32 -> W upgraded h (ensure_room_store_keyset dimension config token).
Proof.
  intros Ht. unfold ensure_room_store_keyset. wp_checks. apply wp_bind. eapply K_mono; [apply wp_read_record |].
  intros h1 [[k|] tag] Hs1; [|intros; apply wp_throw]. intros Hk. specialize (Hk k eq_refl). cbn [snd] in Hk.
  apply wp_bind. eapply K_mono; [apply wp_assert_matches |]. intros h2 [] Hs2 _.
  pose proof Hk as (body & [Hin [Ho _]] & _). destruct (valid_format k) as [[Hf Hr]|(Hf & r & Hr & _)]; [apply Ho | |];
    rewrite Hf; cbn [Z.eqb ROOM_STORE_KEYSET_FORMAT_VERSION Pos.eqb].
  - destruct (truthy tag) as [tag'|] eqn:Htag; [|apply wp_throw].
    apply wp_bind, wp_lift. intros candidate h3 Hc Hs3. destruct (orderly_upgrade k token candidate Ho Ht Hc) as [Hoc Hlc].
    apply wp_bind. eapply K_mono; [apply wp_publish_candidate; [intros text Htext; by eapply proper_replace |] |].
    + intros h4 w Hw. unfold upgraded_winner. wp_checks. apply K_ret. intros h5 Hs5. eapply upgraded_later; [done |]. by do 2 (etrans; [done |]).
    + intros h4 w Hs4 Hw. apply wp_cached; [|done]. intros ??. by apply upgraded_later.
  - apply wp_cached; [intros ??; by apply upgraded_later |]. split; [by eapply suffix_elem | by rewrite Hr].
Qed.

(** Bound to the repository asked for. *)
Definition bound_at (repository : pyobj) (h : list EncryptionKeyset) (k : EncryptionKeyset) : Prop :=
  k ∈ h /\ exists r, room_store k = Some r /\ opt_str (repository_id r) = repository /\ repository_id r ≠ None.
Lemma bound_at_later repository h h' k : bound_at repository h k -> h `suffix_of` h' -> bound_at repository h' k.
Proof. intros [Hk Hr] Hs. split; [by eapply suffix_elem | done]. Qed.
Lemma py_eq_repository repository id k : py_eq (opt_str (metadata_repository k)) (PStr id) = true -> repository = PStr id -> forall h, upgraded h k -> bound_at repository h k.
Proof.
  unfold metadata_repository, bound_at. intros He -> h [Hk Hr]. split; [done |]. destruct (room_store k) as [r|]; [|done]. simpl in He.
  exists r. split; [done |]. destruct (repository_id r) as [id'|]; [|done]. simpl in *. by apply bool_decide_eq_true in He as ->.
Qed.
Lemma wp_bind_repository h repository expected :
  W (bound_at repository) h (bind_room_store_repository dimension config repository expected).
Proof.
  unfold bind_room_store_repository. wp_checks. apply wp_bind. eapply K_mono; [apply wp_read_record |].
  intros h1 [[k|] tag] Hs1; [|intros; apply wp_throw]. intros Hk. specialize (Hk k eq_refl). cbn [snd] in Hk.
  apply wp_bind. eapply K_mono; [apply wp_assert_matches |]. intros h2 [] Hs2 _. wp_checks.
  apply wp_bind, wp_lift. intros candidate h3 Hc Hs3. pose proof Hk as (body & [Hin [Ho _]] & _).
  destruct (orderly_bind k repository expected candidate Ho Hc) as [Hoc Hlc].
  destruct (bind_repository_Ok _ _ _ _ Hc) as (r & id & Hr & -> & Hid & ->).
  destruct (already_bound k) eqn:Hb; unfold already_bound in Hb.
  - apply wp_cached; [intros ??; by apply bound_at_later |]. split; [eapply suffix_elem; [done |]; by do 3 (etrans; [done |]) |].
    exists r. split; [done |]. rewrite (bind_repository_eq k r id) in Hc by (try done; apply Ho). rewrite Z.eqb_refl in Hc.
    apply bool_decide_eq_true in Hb. unfold metadata_repository in Hb. rewrite Hr in Hb. simpl in Hb. destruct (repository_id r) as [id'|]; [|done].
    case_bool_decide; [|done]. by subst.
  - destruct (truthy tag) as [tag'|] eqn:Htag; [|apply wp_throw].
    apply wp_bind. eapply K_mono; [apply wp_publish_candidate; [intros text Htext; by eapply proper_replace |] |].
    + intros h4 w Hw. apply K_ret. intros h5 Hs5. by eapply upgraded_later.
    + intros h4 w Hs4 Hw. wp_checks. apply wp_cached; [intros ??; by apply bound_at_later |].
      eapply bound_at_later; [|done]. inv_result.
      repeat match goal with X : _ || _ = false |- _ => apply orb_false_elim in X as [? ?] end.
      eapply py_eq_repository; [by apply negb_false_iff | done | done].
Qed.

Lemma wp_enroll h candidate : orderly candidate -> W (fun h' w => w ∈ h') h (enroll_candidate dimension config candidate).
Proof.
  intros Ho. unfold enroll_candidate. apply K_try_else.
  - apply wp_bind, wp_lift. intros text h1 Htext _. unfold create_control. wp_checks.
    eapply K_mono; [apply (wp_publish _ text None); intros _; simpl; by exists candidate |]. intros h2 _ _ [k [Hk Hw]]. apply K_ret. intros h3 Hs3.
    rewrite (written_inj candidate k text) by done. by eapply suffix_elem.
  - intros e h1 Hs1. destruct (is_conflict e); [|apply wp_throw]. unfold _keyset_from_backend.
    do 2 apply wp_bind. eapply K_mono; [apply wp_read_record |]. intros h2 [[k|] tag] _ Hk; apply K_ret; intros h3 Hs3; [|apply wp_throw].
    destruct (Hk k eq_refl) as (body & [Hin _] & _). apply wp_bind. eapply K_mono; [apply wp_assert_matches |]. intros h4 [] Hs4 _.
    apply K_ret. intros h5 Hs5. eapply suffix_elem; [done |]. by do 2 (etrans; [done |]).
Qed.
End clients.
