(* ===== verification/ControlTheorems.v ===== *)
(** * Agreement on the keyset

    However many clients enroll, upgrade and bind the keyset of one bucket at once, and
    whatever calls fail, they end up with one keyset. *)

From S2P Require Import Prelude PyStr PyObj PyUrl PyDatetime PyJson LogicalJat Keyset KeysetProps KeysetTheorems.
From S2P Require Import Programs ControlStore ControlProps.

Section agreement.
Context `{UrlRuntime, IpRuntime, PyRuntime, JsonRuntime}.
Context (etag_of : nat -> string -> string).

(** What a task's result shows beside belonging to the history. *)
Definition done_with (t : task) (k : EncryptionKeyset) : Prop :=
  match t with
  | Enroll _ => True
  | Ensure _ => room_store k ≠ None
  | Bind repository _ => exists r id, room_store k = Some r /\ repository_id r = Some id /\ repository = PStr id
  end.
Definition result_of (t : task) (h : list EncryptionKeyset) (k : EncryptionKeyset) : Prop := k ∈ h /\ done_with t k.

(** ** The invariant of a system *)
Definition agrees (h : list EncryptionKeyset) (s : system) : Prop :=
  history h /\ holds_history etag_of (objects (store_of s) !! KEYSET_CONTROL_KEY) h
  /\ Forall (proper_write etag_of) (late (store_of s))
  /\ Forall (fun c => wp (keyset_service etag_of) (result_of (doing c)) h (running c)) (clients s).

Section invariant.
Hypothesis etag_content : forall n body n' body', etag_of n body = etag_of n' body' -> body = body'.
Hypothesis deep : 2 <= json_depth.

Lemma wp_program h t dimension config : startable t -> wp (keyset_service etag_of) (result_of t) h (program dimension config t).
Proof.
  destruct t as [candidate|token|repository expected]; simpl; intros Hs.
  - destruct Hs as (provider & endpoint & bucket & identity & recipient & recovery & one & domain & fresh & occupied & Hc).
    eapply K_mono; [apply wp_enroll; [exact deep | by eapply create_orderly] |]. intros h' w _ Hw; by split.
  - eapply K_mono; [by apply wp_ensure |]. intros h' w _ [Hw Hr]; by split.
  - eapply K_mono; [by apply wp_bind_repository |]. intros h' w _ (Hw & r & Hr & <- & Hid). split; [done |].
    destruct (repository_id r) as [id|] eqn:E; [|done]. by exists r, id.
Qed.

Lemma history_cons k h : history h -> orderly k -> (forall k', head h = Some k' -> later k' k) -> history (k :: h).
Proof.
  intros [Ho Hs] Hk Hl. split; [by constructor |]. apply SSorted_cons; [done |]. destruct h as [|k1 h]; [by apply Forall_nil_2 |].
  specialize (Hl k1 eq_refl). apply StronglySorted_inv in Hs as [_ Hs]. apply Forall_cons_2; [done |].
  eapply Forall_impl; [exact Hs |]. intros k2 Hk2. by apply (later_trans k2 k1 k).
Qed.

(** A write that takes place extends the history, or touches another object. *)
Lemma write_extends h b p b' : history h -> holds_history etag_of (objects b !! KEYSET_CONTROL_KEY) h ->
  proper_write etag_of p -> put_now etag_of p b b' ->
  late b' = late b /\ exists h', h `suffix_of` h' /\ history h' /\ holds_history etag_of (objects b' !! KEYSET_CONTROL_KEY) h'
    /\ (put_key p = KEYSET_CONTROL_KEY -> newest h' (put_body p)).
Proof.
  intros Hh Ho Hp [Hc ->]. split; [done |]. destruct (base.decide (put_key p = KEYSET_CONTROL_KEY)) as [Hk|Hk]; last first.
  { exists h. split; [done |]. split; [done |]. split; [by simpl; rewrite lookup_insert_ne |]. done. }
  specialize (Hp Hk). rewrite Hk in Hc.
  assert (exists k, written k (put_body p) /\ forall k', head h = Some k' -> later k' k) as (k & Hw & Hl).
  { destruct h as [|k1 h]; simpl in Ho.
    - rewrite Ho in Hc. destruct (put_if p); [|done]. destruct Hp as [k Hw]. by exists k.
    - destruct Ho as (body & n & Hobj & Hj). rewrite Hobj in Hc. destruct (put_if p) as [|tag]; [done |].
      destruct Hh as [Hall _]. inversion_clear Hall. destruct (Hp n body k1 Hc) as (k & Hw & Hl); [by split |].
      exists k. split; [done |]. by intros k' [= <-]. }
  exists (k :: h). split; [by apply suffix_cons_r |]. split; [apply history_cons; [done | apply Hw | done] |]. split.
  - exists (put_body p), (writes b). split; [by simpl; rewrite Hk, lookup_insert_eq | apply Hw].
  - intros _. by exists k.
Qed.

Lemma holds_newest body tag h : history h -> holds_history etag_of (Some (body, tag)) h -> newest h body /\ exists n, tag = etag_of n body.
Proof.
  destruct h as [|k h]; [done |]. intros [Hall _] (body' & n & [= -> ->] & Hj). inversion_clear Hall.
  split; [|by exists n]. by exists k.
Qed.

(** A call is answered within the history, possibly extended. *)
Lemma serve_learned h R (c : call R) b o b' : history h -> holds_history etag_of (objects b !! KEYSET_CONTROL_KEY) h ->
  Forall (proper_write etag_of) (late b) -> proper_call etag_of c -> serve etag_of b c o b' ->
  exists h', h `suffix_of` h' /\ history h' /\ holds_history etag_of (objects b' !! KEYSET_CONTROL_KEY) h'
    /\ Forall (proper_write etag_of) (late b') /\ learned etag_of h' c o.
Proof.
  intros Hh Ho Hlate Hp Hs. destruct c as [key|key if_match|key body condition|]; simpl in Hs.
  - destruct Hs as [-> Hs]. exists h. split_and!; [done.. |]. intros -> n tag ->. destruct Hs as (body & tag' & Hobj & [= -> ->]).
    rewrite Hobj in Ho. destruct (holds_newest body tag' h Hh Ho) as [Hn [m ->]]. by exists body, m.
  - destruct Hs as [-> Hs]. exists h. split_and!; [done.. |]. intros -> body ->. destruct Hs as (tag & Hobj & Hm).
    rewrite Hobj in Ho. destruct (holds_newest body tag h Hh Ho) as [Hn [m Htag]]. split; [done |].
    intros tag' ->. exists m. destruct Hm as [|[= ->]]; done.
  - destruct o as [u|f]; [|destruct Hs as [->|[Hs| ->]]].
    + destruct (write_extends h b _ b' Hh Ho Hp Hs) as (Hl & h' & Hs' & Hh' & Ho' & Hn). exists h'. rewrite Hl.
      split_and!; [done.. |]. intros Hk _. by apply Hn.
    + by exists h.
    + destruct (write_extends h b _ b' Hh Ho Hp Hs) as (Hl & h' & Hs' & Hh' & Ho' & _). exists h'. rewrite Hl. by split_and!.
    + exists h. split_and!; [done.. | by constructor | done].
  - subst b'. by exists h.
Qed.

Lemma clients_later (cs : list client) h h' : Forall (fun c => wp (keyset_service etag_of) (result_of (doing c)) h (running c)) cs -> h `suffix_of` h' ->
  Forall (fun c => wp (keyset_service etag_of) (result_of (doing c)) h' (running c)) cs.
Proof. intros Hcs Hs. eapply Forall_impl; [exact Hcs |]. intros c Hc. eapply wp_later; [exact Hc | done]. Qed.

Lemma agrees_step h s s' : agrees h s -> system_step etag_of s s' -> exists h', agrees h' s'.
Proof.
  intros (Hh & Ho & Hlate & Hcs) Hstep. destruct Hstep as [b cs t dimension config Ht|b cs i t R c next o b' Hi Hserve|b cs p l1 l2 b' Hl Hb|b cs p Hk];
    simpl in *.
  - exists h. split_and!; [done.. |]. apply Forall_app. split; [done |]. constructor; [by apply wp_program | constructor].
  - destruct (Forall_lookup_1 _ _ _ _ Hcs Hi h (reflexivity h) Hh) as [Hp Hn]. simpl in Hp, Hn.
    destruct (serve_learned h R c b o b' Hh Ho Hlate Hp Hserve) as (h' & Hs & Hh' & Ho' & Hlate' & Hlearn).
    exists h'. split_and!; [done.. |]. apply Forall_insert; [by apply (clients_later cs h) | by apply Hn].
  - rewrite Hl in Hlate. apply Forall_app in Hlate as [Hl1 Hl2]. inversion_clear Hl2.
    assert (Forall (proper_write etag_of) (l1 ++ l2)) by by apply Forall_app.
    destruct Hb as [->|Hput]; [by exists h |].
    destruct (write_extends h (set_late (l1 ++ l2) b) p b' Hh Ho ltac:(done) Hput) as (Hlate' & h' & Hs & Hh' & Ho' & _).
    exists h'. unfold agrees. simpl. rewrite Hlate'. split_and!; [done.. |]. by apply (clients_later cs h).
  - exists h. split_and!; [done | by simpl; rewrite lookup_insert_ne | done | done].
Qed.
Lemma agrees_run s s' : uninitialized s -> rtc (system_step etag_of) s s' -> exists h, agrees h s'.
Proof.
  intros (Ho & Hl & Hcs) Hsteps.
  assert (exists h, agrees h s) as Hinit by (exists []; unfold agrees; rewrite Ho, Hl, Hcs; split_and!; [split; constructor | done | constructor..]).
  clear Ho Hl Hcs. induction Hsteps as [|s1 s2 s3 H12 _ IH]; [done |]. apply IH. destruct Hinit as [h Hh]. by eapply agrees_step.
Qed.
End invariant.

Lemma history_comparable h k k' : history h -> k ∈ h -> k' ∈ h -> later k k' \/ later k' k.
Proof.
  intros [_ Hs]. induction Hs as [|k0 h Hs IH Hall]; [by intros ?%not_elem_of_nil |].
  rewrite !elem_of_cons. rewrite Forall_forall in Hall. intros [->|Hk] [->|Hk']; [left; by left | right; by apply Hall | left; by apply Hall | auto].
Qed.

(** C18: clients enroll, upgrade and bind the keyset of one bucket, interleaved in any way, with
    calls that fail before, after or long before they take effect.  The results of any two
    of them are one keyset at an earlier and a later stage, with the same keys, secret and,
    once bound, repository; the bucket then holds a keyset at that stage or a later one;
    and a client that upgraded or bound returns what it was asked for. *)
Theorem keyset_agreement s s' c k : (forall n body n' body', etag_of n body = etag_of n' body' -> body = body') -> 2 <= json_depth ->
  uninitialized s -> rtc (system_step etag_of) s s' -> c ∈ clients s' -> running c = Done (inl k) ->
  valid_keyset k /\ done_with (doing c) k
  /\ (exists stored body tag, objects (store_of s') !! KEYSET_CONTROL_KEY = Some (body, tag)
      /\ keyset_to_json stored = Ok body /\ valid_keyset stored /\ later k stored)
  /\ forall c' k', c' ∈ clients s' -> running c' = Done (inl k') -> later k k' \/ later k' k.
Proof.
  intros Hetag Hdeep Hs Hsteps Hc Hk. destruct (agrees_run Hetag Hdeep s s' Hs Hsteps) as (h & Hh & Ho & _ & Hcs).
  rewrite Forall_forall in Hcs. assert (forall c k, c ∈ clients s' -> running c = Done (inl k) -> result_of (doing c) h k) as Hres.
  { intros c1 k1 Hc1 Hk1. specialize (Hcs c1 Hc1). rewrite Hk1 in Hcs. by apply Hcs. }
  destruct (Hres c k Hc Hk) as [Hin Hdone]. pose proof Hh as [Hall Hsorted]. rewrite Forall_forall in Hall.
  split; [by apply Hall |]. split; [done |]. split; [|intros c' k' Hc' Hk'; apply (history_comparable h); [done.. | by apply (Hres c')]].
  destruct h as [|k1 h]; [by apply not_elem_of_nil in Hin |]. destruct Ho as (body & n & Hobj & Hj). exists k1, body, (etag_of n body).
  split; [done |]. split; [done |]. split; [apply Hall; by left |]. apply elem_of_cons in Hin as [->|Hin]; [by left |].
  apply StronglySorted_inv in Hsorted as [_ Hs1]. rewrite Forall_forall in Hs1. by apply Hs1.
Qed.
End agreement.
