(* ===== verification/KeysetDemo.v ===== *)
(** * A concrete keyset and a concrete bucket

    A keyset of a local MinIO bucket, and runs of its clients in which no call fails. *)

From S2P Require Import Prelude PyStr PyObj PyUrl PyDatetime PyJson LogicalJat LogicalJatDemo Keyset KeysetProps KeysetTheorems.
From S2P Require Import Programs ControlStore ControlProps ControlTheorems.
From Stdlib Require Import Ascii.

#[export] Existing Instance jat_runtime.
#[export] Existing Instance jat_json.
#[export] Instance demo_url : UrlRuntime := {| bracketed_ok _ := true; netloc_ok _ := true |}.
#[export] Instance demo_ip : IpRuntime := {| ip_loopback host := if bool_decide (host = "127.0.0.1") then Some true else None |}.

(** ** A keyset *)
Definition demo_identity : string := "AGE-SECRET-KEY-1dj2s7pfzkfzef5uu0wqlkfwawcn2wv2xt7vmys3lfhx2jtdek8yqpxqxq7".
Definition demo_operational : string := "age1qyqszqgpqyqszqgpqyqszqgpqyqszqgpqyqszqgpqyqszqgpqyqs3290gq".
Definition demo_recovery : string := "age1qgpqyqszqgpqyqszqgpqyqszqgpqyqszqgpqyqszqgpqyqszqgpquuzgag".
Definition demo_keyset : EncryptionKeyset :=
  {| domain_id := demo_domain; provider := "minio"; endpoint := "http://127.0.0.1:9000"; bucket := "room"; key_generation := 1;
     operational_identity := demo_identity; operational_recipient := demo_operational; recovery_recipients := [demo_recovery];
     format_version := 1; room_store := None |}.

Lemma demo_create : create (PStr "minio") (PStr "http://127.0.0.1:9000") (PStr "room") (PStr demo_identity) (PStr demo_operational)
  (Some [PStr demo_recovery]) None (Some demo_domain) "" (PInt 1) None [] = Ok demo_keyset.
Proof. vm_compute. reflexivity. Qed.
Lemma demo_keyset_orderly : orderly demo_keyset.
Proof. eapply create_orderly, demo_create. Qed.

Definition token_of (c : ascii) : string := of_chars (replicate 32 c).
Definition demo_repository : string := digest_a.
Definition get_keyset (r : result EncryptionKeyset) : EncryptionKeyset := match r with Ok k => k | Raise _ => demo_keyset end.
Definition demo_upgraded : EncryptionKeyset := get_keyset (upgrade_for_room_store demo_keyset (token_of "a")).
Definition demo_bound : EncryptionKeyset := get_keyset (bind_repository demo_upgraded (PStr demo_repository) (PInt 1)).
Definition demo_on : bindings := {| on_provider := Some "minio"; on_endpoint := Some "http://127.0.0.1:9000/"; on_bucket := Some "room" |}.

Lemma demo_upgraded_orderly : orderly demo_upgraded.
Proof. apply (orderly_upgrade demo_keyset (token_of "a")); [exact demo_keyset_orderly | reflexivity | vm_compute; reflexivity]. Qed.
Lemma demo_bound_orderly : orderly demo_bound.
Proof. apply (orderly_bind demo_upgraded (PStr demo_repository) (PInt 1)); [exact demo_upgraded_orderly | vm_compute; reflexivity]. Qed.

Lemma demo_steps : rtc keyset_step demo_keyset demo_bound.
Proof.
  apply rtc_l with demo_upgraded; [apply (step_upgrade _ _ (token_of "a")); vm_compute; reflexivity |].
  apply rtc_once, (step_bind _ _ (PStr demo_repository) (PInt 1)). vm_compute. reflexivity.
Qed.
Lemma demo_fits : fits demo_on demo_bound.
Proof.
  split; [intros p [= <-]; vm_compute; reflexivity |]. split; [|intros b [= <-]; vm_compute; reflexivity].
  intros e [= <-]. exists "minio:http://127.0.0.1:9000:room". split; vm_compute; reflexivity.
Qed.
Definition text_of_keyset (k : EncryptionKeyset) : string := match keyset_to_json k with Ok s => s | Raise _ => "" end.

(** The identity of a bucket leaves out the brackets of an IPv6 host: a host with a port
    and another host without one have the same identity. *)
Lemma bucket_identity_drops_brackets :
  physical_bucket_identity (PStr "minio") (PStr "https://[fe80::1]:8080") (PStr "room") = Ok "minio:https://fe80::1:8080:room"
  /\ physical_bucket_identity (PStr "minio") (PStr "https://[fe80::1:8080]") (PStr "room") = Ok "minio:https://fe80::1:8080:room".
Proof. split; vm_compute; reflexivity. Qed.

(** ** Runs *)
Inductive event := Start (t : task) | Turn (i : nat) | Lose (i : nat).
Definition demo_dimension : Dimension :=
  {| dimension_provider := "minio"; dimension_endpoint := "http://127.0.0.1:9000"; dimension_bucket := "room"; dimension_domain := None |}.
Definition demo_config : MinioConfig := {| config_endpoint := ""; verify_tls := PBool true; ca_bundle := PNone; auth_state := "configured" |}.

Definition tag_of (n : nat) (body : string) : string := String.String "#" body.
(** The outcome of a call that goes well. *)
Definition answer {R} (b : bucket_state) (c : call R) : (R + failure) * bucket_state :=
  match c in call R return (R + failure) * bucket_state with
  | HeadObject key => (match objects b !! key with Some (body, tag) => inl (Z.of_nat (py_len body), Some tag) | None => inr FNotFound end, b)
  | GetObject key if_match =>
      (match objects b !! key with
       | Some (body, tag) => if bool_decide (if_match = None \/ if_match = Some tag) then inl body else inr FPrecondition
       | None => inr FNotFound
       end, b)
  | PutObject key body condition =>
      let p := {| put_key := key; put_body := body; put_if := condition |} in
      if base.decide (condition_holds condition (objects b !! key)) then (inl tt, store_object tag_of p b) else (inr FPrecondition, b)
  | StoreSecret _ _ _ => (inl tt, b)
  end.
(** One client's next call, its outcome [told] to the client. *)
Definition turn (told : forall R, R + failure -> R + failure) (i : nat) (s : system) : system :=
  match clients s !! i with
  | Some {| doing := t; running := Call c next |} =>
      let '(o, b) := answer (store_of s) c in
      {| store_of := b; clients := <[i := {| doing := t; running := next (told _ o) |}]> (clients s) |}
  | _ => s
  end.
Definition happen (e : event) (s : system) : system :=
  match e with
  | Start t => {| store_of := store_of s; clients := clients s ++ [{| doing := t; running := program demo_dimension demo_config t |}] |}
  | Turn i => turn (fun _ o => o) i s
  | Lose i => turn (fun _ _ => inr FBoto) i s
  end.
Definition run (l : list event) (s : system) : system := foldl (fun s e => happen e s) s l.

Lemma tag_of_content n body n' body' : tag_of n body = tag_of n' body' -> body = body'.
Proof. by intros [= ->]. Qed.
Lemma answer_serve {R} b (c : call R) o b' : answer b c = (o, b') -> serve tag_of b c o b' /\ serve tag_of b c (inr FBoto) b'.
Proof.
  destruct c as [key|key if_match|key body condition|]; simpl.
  - intros [= <- <-]. destruct (objects b !! key) as [[body tag]|]; split; split; try done. by exists body, tag.
  - intros [= <- <-]. destruct (objects b !! key) as [[body tag]|]; split; split; try done. case_bool_decide as Hm; [|done]. by exists tag.
  - destruct (base.decide _) as [Hc|Hc]; intros [= <- <-]; split; try (by left); [by split | by right; left; split].
  - by intros [= <- <-].
Qed.

Lemma turn_run told i s : (forall R o, told R o = o \/ told R o = inr FBoto) -> rtc (system_step tag_of) s (turn told i s).
Proof.
  intros Ht. unfold turn. destruct s as [b cs]. simpl. destruct (cs !! i) as [[t [r|R c next]]|] eqn:Hi; [done | | done].
  destruct (answer b c) as [o b'] eqn:Ha. apply answer_serve in Ha as [Ho Hf]. apply rtc_once. eapply step_call; [exact Hi |].
  by destruct (Ht R o) as [->| ->].
Qed.
Definition event_ok (e : event) : Prop := match e with Start t => startable t | _ => True end.
Lemma run_steps l s : Forall event_ok l -> rtc (system_step tag_of) s (run l s).
Proof.
  revert s. induction l as [|e l IH]; intros s; [done |]. intros Hok. inversion_clear Hok. simpl. etrans; [|by apply IH].
  destruct e as [t|i|i]; simpl; [|apply turn_run; auto..]. destruct s as [b cs]. by apply rtc_once, step_start.
Qed.

(** An enrollment; two upgrades at once, of which the first loses the answer to its write
    and the second comes too late; then a binding. *)
Definition demo_events : list event :=
  Start (Enroll demo_keyset) :: replicate 3 (Turn 0)
  ++ [Start (Ensure (token_of "a")); Start (Ensure (token_of "b")); Turn 1; Turn 1; Turn 2; Turn 2; Lose 1; Turn 2; Turn 1; Turn 1; Turn 1]
  ++ [Turn 2; Turn 2; Turn 2; Start (Bind (PStr demo_repository) (PInt 1))] ++ replicate 8 (Turn 3).
Definition demo_start : system := {| store_of := {| objects := ∅; writes := 0; late := [] |}; clients := [] |}.
Definition demo_end : system := run demo_events demo_start.
Definition client_of (i : nat) : client := default {| doing := Ensure ""; running := throw EKey |} (clients demo_end !! i).

Lemma demo_events_ok : Forall event_ok demo_events.
Proof.
  repeat apply Forall_cons_2; try exact I; try apply Forall_nil_2; simpl; try reflexivity. do 10 eexists. exact demo_create.
Qed.

Lemma client_at i : i < length (clients demo_end) -> client_of i ∈ clients demo_end.
Proof. intros [c Hc]%lookup_lt_is_Some. unfold client_of. rewrite Hc. by eapply list_elem_of_lookup_2. Qed.

(** ** Witnesses *)
Lemma keyset_json_roundtrip_witness : valid_keyset demo_bound /\ fits demo_on demo_bound
  /\ keyset_from_json demo_on (SrcBytes (chars (text_of_keyset demo_bound))) = Ok demo_bound.
Proof.
  pose proof demo_bound_orderly as Ho. split; [apply Ho |]. split; [exact demo_fits |].
  refine (proj2 (proj1 (keyset_json_roundtrip demo_bound (text_of_keyset demo_bound) _ _ _ _) demo_on) demo_fits);
    [apply Ho | by apply orderly_small | cbn; lia | vm_compute; reflexivity].
Defined.

Lemma keyset_history_witness : valid_keyset demo_bound /\ later demo_keyset demo_bound.
Proof. apply (keyset_history demo_keyset demo_bound); [apply demo_keyset_orderly | exact demo_steps]. Defined.

(** The client of the lost answer and the one that came too late return the same keyset, and
    the one that bound its repository. *)
Lemma keyset_agreement_witness :
  running (client_of 1) = Done (inl demo_upgraded) /\ running (client_of 2) = Done (inl demo_upgraded)
  /\ running (client_of 3) = Done (inl demo_bound)
  /\ valid_keyset demo_upgraded /\ done_with (doing (client_of 1)) demo_upgraded
  /\ (exists stored body tag, objects (store_of demo_end) !! KEYSET_CONTROL_KEY = Some (body, tag)
      /\ keyset_to_json stored = Ok body /\ valid_keyset stored /\ later demo_upgraded stored)
  /\ forall c' k', c' ∈ clients demo_end -> running c' = Done (inl k') -> later demo_upgraded k' \/ later k' demo_upgraded.
Proof.
  assert (running (client_of 1) = Done (inl demo_upgraded)) as H1 by (vm_compute; reflexivity).
  split; [exact H1 |]. split; [vm_compute; reflexivity |]. split; [vm_compute; reflexivity |].
  apply (keyset_agreement tag_of demo_start demo_end (client_of 1) demo_upgraded);
    [exact tag_of_content | cbn; lia | split_and!; reflexivity | exact (run_steps demo_events demo_start demo_events_ok)
    | apply client_at; vm_compute; lia | exact H1].
Defined.
