(* ===== verification/SnapshotPaths.v ===== *)
(** * Paths and links of a snapshot ([src/josh_room/room_store_operations.py])

    A workspace snapshot of the shared repository is a list of entries with their paths.
    Before one is restored, exported or compared, its paths must be portable and its
    symbolic links must stay inside the workspace. *)

From S2P Require Import Prelude PyStr PyUrl.
From Stdlib Require Import Ascii.

(** [unicodedata.normalize("NFC", value).casefold()] *)
Class PathRuntime := { _portable_path_key : string -> string }.

(** ** Names *)
Definition _WINDOWS_RESERVED : list string :=
  ["CON"; "PRN"; "AUX"; "NUL"; "COM1"; "COM2"; "COM3"; "COM4"; "COM5"; "COM6"; "COM7"; "COM8"; "COM9";
   "LPT1"; "LPT2"; "LPT3"; "LPT4"; "LPT5"; "LPT6"; "LPT7"; "LPT8"; "LPT9"].
Definition _ENTRY_TYPES : list string := ["dir"; "file"; "symlink"].

Definition upper_char (c : ascii) : ascii := if is_lower c then ascii_of_nat (nat_of_ascii c - 32) else c.
Definition py_upper (s : string) : string := of_chars (upper_char <$> chars s).
Definition forbidden (c : ascii) : bool := one_of (of_chars ["<"; ">"; ":"; "034"; "|"; "?"; "*"; "\"; "000"; "013"; "010"]%char) c.
Definition unsafe_name : exn := ERuntime "workspace path cannot be restored safely".

Definition _validate_name (name : string) : result unit :=
  raise_if (bool_decide (name ∈ [""; "."; ".."]) || str_any forbidden name || endswith " " name || endswith "." name
            || bool_decide (py_upper (py_partition "." name).1 ∈ _WINDOWS_RESERVED)) unsafe_name.

Definition unsafe_path : exn := ERuntime "snapshot contains an unsafe path".
Definition rooted (value : string) : bool := startswith "/" value || startswith "\" value.
(** [part in {"", ".", ".."}] *)
Definition is_dots (part : string) : bool := bool_decide (part ∈ [""; "."; ".."]).

Definition _relative_parts (value : string) (allow_root : bool) : result (list string) :=
  if allow_root && bool_decide (value = ".") then Ok []
  else
    raise_if (bool_decide (value = "") || rooted value || has_char "\" value) unsafe_path ;;
    let parts := py_split "/" value in
    raise_if (existsb is_dots parts) unsafe_path ;;
    for_each _validate_name parts ;;
    Ok parts.

(** ** Entries *)
Record SnapshotEntry := {
  entry_path : string;
  entry_type : string;
  size : option Z;
  mode : option Z;
  link_target : option string;
}.
Definition is_type (t : string) (row : SnapshotEntry) : bool := bool_decide (entry_type row = t).

(** The dictionary of entries, in insertion order. *)
Definition entries := list (string * SnapshotEntry).
Fixpoint entry_at (path : string) (l : entries) : option SnapshotEntry :=
  match l with
  | [] => None
  | (p, row) :: l => if bool_decide (path = p) then Some row else entry_at path l
  end.

(** [posixpath.dirname] *)
Definition dirname (path : string) : string :=
  let head := match py_rpartition "/" path with (Some head, _) => head +:+ "/" | (None, _) => "" end in
  if str_all (Ascii.eqb "/") head then head else py_rstrip (Ascii.eqb "/") head.

(** ** Links *)
Definition DRIVE_RE : re := RCat (RCls is_alpha) (chr ":").
Definition unsafe_target (target : option string) : bool :=
  match target with
  | Some t => bool_decide (t = "") || rooted t || has_char "\" t || prefixmatch DRIVE_RE t
  | None => true
  end.
Definition link_error (what : string) : exn := ERuntime ("snapshot contains " +:+ what).
Definition unsafe_link : exn := link_error "an unsafe symlink".
(** [path or "."] *)
Definition or_dot (path : string) : string := if bool_decide (path = "") then "." else path.

(** The variables of the loop over one link. *)
Record walk := { stack : list string; pending : list string; seen : list string }.

(** One pass through the loop over [part], the next component. *)
Definition pass (l : entries) (s : list string) (part : string) (rest : list string) (visited : list string) : result walk :=
  raise_if (has_char "\" (py_join "/" (part :: rest)) || prefixmatch DRIVE_RE part) unsafe_link ;;
  if bool_decide (part ∈ [""; "."]) then Ok {| stack := s; pending := rest; seen := visited |}
  else if bool_decide (part = "..") then
    raise_if (bool_decide (s = [])) (link_error "an external symlink") ;;
    Ok {| stack := removelast s; pending := rest; seen := visited |}
  else
    _validate_name part ;;
    let candidate := or_dot (py_join "/" (s ++ [part])) in
    let step := Ok {| stack := s ++ [part]; pending := rest; seen := visited |} in
    match entry_at candidate l with
    | None => raise_if (negb (bool_decide (rest = []))) (link_error "a dangling symlink parent") ;; step
    | Some row =>
        if is_type "symlink" row then
          raise_if (bool_decide (candidate ∈ visited)) (link_error "a cyclic symlink") ;;
          raise_if (unsafe_target (link_target row)) unsafe_link ;;
          Ok {| stack := s; pending := py_split "/" (default "" (link_target row)) ++ rest; seen := candidate :: visited |}
        else
          raise_if (negb (bool_decide (rest = [])) && negb (is_type "dir" row)) (ERuntime "snapshot symlink traverses a non-directory") ;;
          step
    end.

(** [while pending]; [None] when [fuel] passes do not reach the end. *)
Fixpoint walk_loop (fuel : nat) (l : entries) (w : walk) : option (result (list string)) :=
  match pending w with
  | [] => Some (Ok (stack w))
  | part :: rest =>
      match fuel with
      | O => None
      | S fuel =>
          match pass l (stack w) part rest (seen w) with
          | Ok w => walk_loop fuel l w
          | Raise e => Some (Raise e)
          end
      end
  end.

Definition is_link (row : SnapshotEntry) : bool := is_type "symlink" row.
Definition target_parts (row : SnapshotEntry) : list string := py_split "/" (default "" (link_target row)).
(** Components of a link's own target and of the targets of all links: no walk takes more passes. *)
Definition walk_bound (l : entries) (parts : list string) : nat :=
  length parts + sum_list (length <$> (target_parts <$> filter (fun row => is_link row = true) l.*2)).

Definition start (path : string) (row : SnapshotEntry) : walk :=
  let parent := dirname path in
  {| stack := if bool_decide (parent = "") then [] else py_split "/" parent; pending := target_parts row; seen := [] |}.

Definition out_of_fuel : exn := ERecursion.
Definition check_link (l : entries) (item : string * SnapshotEntry) : result unit :=
  let '(path, row) := item in
  if is_link row then
    raise_if (unsafe_target (link_target row)) unsafe_link ;;
    resolved ← default (Raise out_of_fuel) (walk_loop (walk_bound l (target_parts row)) l (start path row));
    raise_if (bool_decide (entry_at (or_dot (py_join "/" resolved)) l = None)) (link_error "a dangling symlink")
  else Ok tt.
Definition _validate_link_graph (l : entries) : result unit := for_each (check_link l) l.

(** ** The entries of a snapshot *)
Section snapshots.
Context `{PathRuntime}.

Definition duplicate : exn := link_error "duplicate paths".

(** One row, with the entries and the folded paths before it. *)
Definition add_row (row : SnapshotEntry) (l : entries) (folded : list string) : result (entries * list string) :=
  parts ← _relative_parts (entry_path row) true;
  if bool_decide (entry_path row = ".") then
    raise_if (negb (is_type "dir" row)) (ERuntime "snapshot root is not a directory") ;;
    raise_if (negb (bool_decide (entry_at "." l = None))) duplicate ;;
    Ok (l ++ [(".", row)], folded)
  else
    let path := py_join "/" parts in
    raise_if (negb (bool_decide (entry_at path l = None)) || bool_decide (_portable_path_key path ∈ folded)) duplicate ;;
    raise_if (bool_decide (entry_type row ∉ _ENTRY_TYPES)) (link_error "a special file") ;;
    Ok (l ++ [(path, row)], _portable_path_key path :: folded).
Fixpoint add_rows (rows : list SnapshotEntry) (l : entries) (folded : list string) : result entries :=
  match rows with
  | [] => Ok l
  | row :: rows => '(l, folded) ← add_row row l folded; add_rows rows l folded
  end.

(** [while parent]: every directory above is an entry. *)
Fixpoint check_parents (fuel : nat) (l : entries) (parent : string) : option (result unit) :=
  if bool_decide (parent = "") then Some (Ok tt)
  else
    match fuel with
    | O => None
    | S fuel =>
        match entry_at parent l with
        | Some row => if is_type "dir" row then check_parents fuel l (dirname parent) else Some (Raise (ERuntime "snapshot path has no directory parent"))
        | None => Some (Raise (ERuntime "snapshot path has no directory parent"))
        end
    end.
Definition check_ancestors (l : entries) (path : string) : result unit :=
  default (Raise out_of_fuel) (check_parents (py_len path) l (dirname path)).

Definition _validate_snapshot_entries (rows : list SnapshotEntry) : result entries :=
  l ← add_rows rows [] [];
  for_each (check_ancestors l) l.*1 ;;
  _validate_link_graph l ;;
  Ok l.
End snapshots.
