(* ===== verification/SnapshotProps.v ===== *)
(** * Snapshot validation: lemmas

    Components without separators are what a joined path splits into, and the directory of
    a path is the path without its last component.  Then what each check of a row amounts
    to, what one pass of the walk along a link does, and how many passes a walk takes. *)

From Stdlib Require Import Ascii.
From S2P Require Import Prelude PyStr PyUrl SnapshotPaths.

(** ** Splitting and joining *)
(** A component: no separator in it. *)
Definition component (s : string) : Prop := "/"%char ∉ chars s.
Definition proper (s : string) : Prop := component s /\ s ≠ "" /\ s ≠ ".".

Lemma chars_ext s t : chars s = chars t -> s = t.
Proof. intros H. by rewrite <- (of_chars_chars s), H, of_chars_chars. Qed.

Lemma split_chars_free c (u : list ascii) : c ∉ u -> split_chars c u = [u].
Proof.
  induction u as [|a u IH]; [done |]. intros [Ha Hu]%not_elem_of_cons. simpl. rewrite bool_decide_false by done.
  by rewrite (IH Hu).
Qed.
Lemma split_chars_sep c (u s : list ascii) : c ∉ u -> split_chars c (u ++ c :: s) = u :: split_chars c s.
Proof.
  induction u as [|a u IH]; simpl.
  - intros _. by rewrite bool_decide_true.
  - intros [Ha Hu]%not_elem_of_cons. rewrite bool_decide_false by done. by rewrite (IH Hu).
Qed.
Lemma split_chars_parts c s : Forall (fun w => c ∉ w) (split_chars c s).
Proof.
  induction s as [|a s IH]; simpl; [constructor; [by intros ?%not_elem_of_nil | constructor] |].
  case_bool_decide as Ha; [constructor; [by intros ?%not_elem_of_nil | done] |].
  destruct (split_chars c s) as [|w ws]; [constructor; [by intros ?%list_elem_of_singleton | constructor] |].
  inversion_clear IH. constructor; [|done]. by rewrite not_elem_of_cons.
Qed.

Lemma join_cons s t l : py_join "/" (s :: t :: l) = s +:+ "/" +:+ py_join "/" (t :: l).
Proof. done. Qed.
Lemma chars_join s t l : chars (py_join "/" (s :: t :: l)) = chars s ++ "/"%char :: chars (py_join "/" (t :: l)).
Proof. by rewrite join_cons, !chars_app. Qed.

Lemma split_components s : Forall component (py_split "/" s).
Proof.
  unfold py_split. apply Forall_fmap. eapply Forall_impl; [apply split_chars_parts |]. intros w Hw.
  unfold compose, component. by rewrite chars_of_chars.
Qed.
Lemma split_nonempty s : py_split "/" s ≠ [].
Proof. unfold py_split. intros H%fmap_nil_inv. by apply split_chars_nonempty in H. Qed.
Lemma split_join l : l ≠ [] -> Forall component l -> py_split "/" (py_join "/" l) = l.
Proof.
  intros Hne Hl. unfold py_split. induction l as [|s [|t l] IH]; [done | |]; inversion_clear Hl as [|?? Hs Hl'].
  - simpl. rewrite split_chars_free by done. simpl. by rewrite of_chars_chars.
  - rewrite chars_join, split_chars_sep by done. rewrite fmap_cons, of_chars_chars. f_equal. by apply IH.
Qed.
Lemma join_split_chars (s : list ascii) : py_join "/" (of_chars <$> split_chars "/" s) = of_chars s.
Proof.
  induction s as [|a s IH]; [done |]. simpl split_chars. case_bool_decide as Ha.
  - subst a. destruct (split_chars "/" s) as [|w ws] eqn:E; [by apply split_chars_nonempty in E |].
    rewrite fmap_cons, fmap_cons, join_cons, <- fmap_cons, IH. done.
  - destruct (split_chars "/" s) as [|w [|w' ws]] eqn:E; [by apply split_chars_nonempty in E | |]; rewrite !fmap_cons in IH |- *.
    + simpl in IH |- *. by rewrite <- IH.
    + rewrite join_cons in IH |- *. simpl. by rewrite <- IH.
Qed.
Lemma join_split s : py_join "/" (py_split "/" s) = s.
Proof. unfold py_split. by rewrite join_split_chars, of_chars_chars. Qed.

Lemma join_snoc l s : l ≠ [] -> py_join "/" (l ++ [s]) = py_join "/" l +:+ "/" +:+ s.
Proof.
  induction l as [|t [|u l] IH]; [done | done |]. intros _.
  change ((t :: u :: l) ++ [s]) with (t :: u :: (l ++ [s])). rewrite join_cons, join_cons.
  change (u :: (l ++ [s])) with ((u :: l) ++ [s]). rewrite IH by done.
  apply chars_ext. by autorewrite with room_rw; rewrite ?chars_app, <- ?(assoc_L _).
Qed.
Lemma join_nonempty l : l ≠ [] -> Forall proper l -> py_join "/" l ≠ "".
Proof.
  destruct l as [|s [|t l]]; [done | |]; intros _ Hl; inversion_clear Hl as [|?? (_ & Hs & _) _]; [done |].
  intros H%(f_equal chars). rewrite chars_join in H. by destruct (chars s).
Qed.
Lemma or_dot_join l : l ≠ [] -> Forall proper l -> or_dot (py_join "/" l) = py_join "/" l.
Proof. intros ??. unfold or_dot. rewrite bool_decide_false; [done | by apply join_nonempty]. Qed.
Lemma or_dot_snoc l s : Forall proper l -> proper s -> or_dot (py_join "/" (l ++ [s])) = py_join "/" (l ++ [s]).
Proof. intros Hl Hs. apply or_dot_join; [by destruct l |]. apply Forall_app. split; [done | by constructor]. Qed.

(** ** The directory of a path *)
Lemma partition_chars_sep c u s : c ∉ u -> partition_chars c (u ++ c :: s) = (u, Some s).
Proof.
  induction u as [|a u IH]; simpl; [intros _; by rewrite bool_decide_true |].
  intros [Ha Hu]%not_elem_of_cons. rewrite bool_decide_false by done. by rewrite IH.
Qed.
Lemma partition_chars_free c u : c ∉ u -> partition_chars c u = (u, None).
Proof.
  induction u as [|a u IH]; simpl; [done |]. intros [Ha Hu]%not_elem_of_cons. rewrite bool_decide_false by done. by rewrite IH.
Qed.
Lemma rpartition_join l s : l ≠ [] -> component s -> py_rpartition "/" (py_join "/" (l ++ [s])) = (Some (py_join "/" l), s).
Proof.
  intros Hl Hs. unfold py_rpartition. rewrite join_snoc, !chars_app by done. change (chars "/") with ["/"%char].
  rewrite !reverse_app, reverse_singleton, <- (assoc_L _). simpl app. rewrite partition_chars_sep by by rewrite elem_of_reverse.
  simpl. unfold compose. by rewrite !reverse_involutive, !of_chars_chars.
Qed.
Lemma strip_slash (u : list ascii) a : a ≠ "/"%char -> py_rstrip (Ascii.eqb "/") (of_chars ((u ++ [a]) ++ ["/"%char])) = of_chars (u ++ [a]).
Proof.
  intros Ha. unfold py_rstrip. rewrite chars_of_chars, !reverse_app, !reverse_singleton.
  cbn [app drop_while]. rewrite Ascii.eqb_refl. destruct (Ascii.eqb_spec "/" a); [by subst |]. by rewrite reverse_cons, reverse_involutive.
Qed.
Lemma last_char s : proper s -> exists u a, chars s = u ++ [a] /\ a ≠ "/"%char.
Proof.
  intros (Hc & Hs & _). destruct (chars s) as [|b t] eqn:E using rev_ind.
  - destruct Hs. by rewrite <- (of_chars_chars s), E.
  - exists t, b. split; [done |]. intros ->. apply Hc. rewrite E. apply elem_of_app. right. by left.
Qed.
Lemma join_last l : l ≠ [] -> Forall proper l -> exists u a, chars (py_join "/" l) = u ++ [a] /\ a ≠ "/"%char.
Proof.
  intros Hne Hl. destruct l as [|s l _] using rev_ind; [done |]. apply Forall_app in Hl as [_ Hs]. inversion_clear Hs as [|?? Hp _].
  destruct (last_char s Hp) as (u & a & Hu & Ha). destruct (base.decide (l = [])) as [->|Hl]; [by exists u, a |].
  rewrite join_snoc, !chars_app, Hu by done. exists (chars (py_join "/" l) ++ chars "/" ++ u), a. split; [by rewrite <- !(assoc_L _) | done].
Qed.
(** The directory of a path of proper components. *)
Lemma dirname_join l s : Forall proper l -> component s -> dirname (py_join "/" (l ++ [s])) = py_join "/" l.
Proof.
  intros Hl Hs. unfold dirname. destruct (base.decide (l = [])) as [->|Hne].
  - simpl. unfold py_rpartition. rewrite partition_chars_free by by rewrite elem_of_reverse. done.
  - rewrite rpartition_join by done. destruct (join_last l Hne Hl) as (u & a & Hu & Ha).
    assert (py_join "/" l +:+ "/" = of_chars ((u ++ [a]) ++ ["/"%char])) as ->.
    { rewrite <- Hu. apply chars_ext. by rewrite chars_app, chars_of_chars. }
    rewrite strip_slash by done. rewrite <- Hu, of_chars_chars.
    unfold str_all. rewrite chars_of_chars, forallb_app.
    assert (forallb (Ascii.eqb "/") (chars (py_join "/" l)) = false) as ->; [|done].
    rewrite Hu, forallb_app. cbn [forallb]. destruct (Ascii.eqb_spec "/" a); [by subst |]. by rewrite andb_false_r.
Qed.

Lemma join_app u v : u ≠ [] -> v ≠ [] -> py_join "/" u +:+ "/" +:+ py_join "/" v = py_join "/" (u ++ v).
Proof.
  intros Hu Hv. induction u as [|s u IH]; [done |]. destruct u as [|t u].
  - destruct v as [|x v]; [done |]. cbn [app]. by rewrite join_cons.
  - cbn [app] in *. rewrite !join_cons, <- IH by done. apply chars_ext. by rewrite !chars_app, <- !app_assoc.
Qed.

(** ** Names and paths *)
(** The characters that one of the file systems the program supports refuses in a name. *)
Definition unportable : list ascii := ["<"; ">"; ":"; "034"; "|"; "?"; "*"; "\"; "000"; "013"; "010"]%char.
(** The names of Windows devices. *)
Inductive device : string -> Prop :=
| device_console : device "CON"
| device_printer : device "PRN"
| device_auxiliary : device "AUX"
| device_null : device "NUL"
| device_port port n : (port = "COM" \/ port = "LPT") -> n ∈ chars "123456789" -> device (port +:+ String.String n "").
(** The text of a name before its first dot. *)
Definition stem_of (stem s : string) : Prop :=
  ("."%char ∉ chars stem) /\ (s = stem \/ exists rest, s = stem +:+ "." +:+ rest).

(** A name that every supported file system can hold. *)
Record portable_name (s : string) : Prop := {
  not_dots : s ≠ "" /\ s ≠ "." /\ s ≠ "..";
  clean : Forall (fun c => c ∉ unportable) (chars s);
  ends_well t : s ≠ t +:+ " " /\ s ≠ t +:+ ".";
  no_device stem : stem_of stem s -> ~ device (py_upper stem);
}.
(** A relative path of such names, separated by slashes. *)
Definition portable (path : string) : Prop := Forall portable_name (py_split "/" path).

Lemma raise_if_false b e : raise_if b e = Ok tt <-> b = false.
Proof. by destruct b. Qed.
Lemma reserved_device s : s ∈ _WINDOWS_RESERVED <-> device s.
Proof.
  split.
  - intros Hs. unfold _WINDOWS_RESERVED in Hs.
    repeat (apply elem_of_cons in Hs as [->|Hs];
      [first [constructor | apply (device_port "COM"); [by left |] | apply (device_port "LPT"); [by right |]];
       apply (bool_decide_unpack _); vm_compute; exact I |]).
    by apply not_elem_of_nil in Hs.
  - intros [ | | | |port n [->| ->] Hn]; try (apply (bool_decide_unpack _); vm_compute; exact I);
    repeat (apply elem_of_cons in Hn as [->|Hn]; [apply (bool_decide_unpack _); vm_compute; exact I |]); by apply not_elem_of_nil in Hn.
Qed.
Lemma partition_free c s : c ∉ (partition_chars c s).1.
Proof.
  induction s as [|a s IH]; simpl; [apply not_elem_of_nil |]. case_bool_decide as Ha; [apply not_elem_of_nil |].
  destruct (partition_chars c s) as [l r]. simpl in *. rewrite not_elem_of_cons. split; [congruence | done].
Qed.
Lemma partition_chars_eq c s : s = (partition_chars c s).1 ++ match (partition_chars c s).2 with Some r => c :: r | None => [] end.
Proof.
  induction s as [|a s IH]; simpl; [done |]. case_bool_decide as Ha; [by subst |].
  destruct (partition_chars c s) as [l [r|]]; simpl in *; by f_equal.
Qed.
Lemma stem_partition stem s : stem_of stem s <-> stem = (py_partition "." s).1.
Proof.
  unfold stem_of, py_partition. split.
  - intros [Hf Hs]. enough ((partition_chars "." (chars s)).1 = chars stem) as E.
    { destruct (partition_chars _ _) as [l r]. simpl in *. by rewrite E, of_chars_chars. }
    destruct Hs as [->|[rest ->]]; [by rewrite partition_chars_free |].
    rewrite chars_app, chars_app. change (chars ".") with ["."%char]. simpl app. by rewrite partition_chars_sep.
  - pose proof (partition_free "." (chars s)) as Hf. pose proof (partition_chars_eq "." (chars s)) as Hs.
    destruct (partition_chars _ _) as [l r]. simpl in *. intros ->. rewrite chars_of_chars. split; [done |].
    destruct r as [r|]; [right; exists (of_chars r) | left]; apply chars_ext; rewrite Hs, ?chars_app, !chars_of_chars; [done | by rewrite app_nil_r].
Qed.
Lemma endswith_iff p s : endswith p s = false <-> forall t, s ≠ t +:+ p.
Proof.
  split.
  - intros He t ->. enough (endswith p (t +:+ p) = true) by congruence. unfold endswith. rewrite py_len_app.
    replace (py_len t + py_len p - py_len p) with (py_len t) by lia. rewrite str_drop_app, bool_decide_true by done.
    apply andb_true_iff. split; [apply Nat.leb_le; lia | done].
  - intros Ht. apply not_true_iff_false. by intros [t ?]%endswith_split; apply (Ht t).
Qed.
Lemma str_any_false p s : str_any p s = false <-> Forall (fun c => p c = false) (chars s).
Proof.
  unfold str_any. induction (chars s) as [|c l IH]; simpl; [split; [constructor | done] |]. by rewrite orb_false_iff, IH, Forall_cons.
Qed.

(** The code's check of a name. *)
Lemma portable_name_iff s : portable_name s <-> (s ∉ [""; "."; ".."]) /\ str_any forbidden s = false /\ endswith " " s = false
  /\ endswith "." s = false /\ (py_upper (py_partition "." s).1) ∉ _WINDOWS_RESERVED.
Proof.
  rewrite str_any_false, !endswith_iff, reserved_device.
  assert (Forall (fun c => forbidden c = false) (chars s) <-> Forall (fun c => c ∉ unportable) (chars s)) as ->.
  { apply Forall_iff. intros c. unfold forbidden, one_of. by rewrite chars_of_chars, bool_decide_eq_false. }
  rewrite !not_elem_of_cons. split.
  - intros [(? & ? & ?) Hc He Hd]. split_and!; try done; [by apply not_elem_of_nil | intros t; apply He.. | by apply Hd, stem_partition].
  - intros ((? & ? & ? & _) & Hc & He1 & He2 & Hd). split; [done | done | done |]. by intros stem ->%stem_partition.
Qed.
Lemma validate_name_iff s : _validate_name s = Ok tt <-> portable_name s.
Proof.
  rewrite portable_name_iff. unfold _validate_name. rewrite raise_if_false, !orb_false_iff, !bool_decide_eq_false. tauto.
Qed.
Lemma validate_path_iff path : for_each _validate_name (py_split "/" path) = Ok tt <-> portable path.
Proof. unfold portable. rewrite for_each_Ok. apply Forall_iff, validate_name_iff. Qed.
Lemma portable_name_dots s : portable_name s -> s ∉ [""; "."; ".."].
Proof. by intros [? _]%portable_name_iff. Qed.
Lemma portable_name_clean s c : portable_name s -> forbidden c = true -> c ∉ chars s.
Proof.
  intros (_ & Hs & _)%portable_name_iff Hc Hin. unfold str_any in Hs. enough (existsb forbidden (chars s) = true) by congruence.
  apply existsb_exists. exists c. split; [by apply list_elem_of_In | done].
Qed.
Lemma portable_proper path : portable path -> Forall proper (py_split "/" path).
Proof.
  intros Hp. pose proof (split_components path) as Hc. unfold portable in Hp. rewrite Forall_forall in Hp, Hc.
  apply Forall_forall. intros s Hs. pose proof (portable_name_dots s (Hp s Hs)). split; [by apply Hc |]. split; set_solver.
Qed.

Lemma has_char_part c path : c ≠ "/"%char -> has_char c path = true -> exists s, s ∈ py_split "/" path /\ c ∈ chars s.
Proof.
  intros Hne Hc%bool_decide_eq_true. destruct (base.decide (Exists (fun s => c ∈ chars s) (py_split "/" path))) as [He|He].
  { apply Exists_exists in He as (s & ? & ?). by exists s. }
  exfalso. rewrite <- Forall_Exists_neg in He.
  assert (Forall (fun w => Forall (fun a => a ≠ c) (chars w)) (py_split "/" path)) as Hf.
  { eapply Forall_impl; [exact He |]. intros w Hw. apply Forall_forall. by intros a Ha ->. }
  apply py_split_Forall in Hf. rewrite Forall_forall in Hf. destruct (Hf c Hc) as [?| ->]; done.
Qed.
Lemma rooted_part path : rooted path = true -> has_char "\" path = true \/ "" ∈ py_split "/" path.
Proof.
  unfold rooted. destruct path as [|c path]; [done |]. unfold startswith. rewrite !andb_true_r. intros Hc.
  apply orb_true_iff in Hc as [Hc%bool_decide_eq_true|Hc%bool_decide_eq_true]; subst c.
  - right. unfold py_split. simpl. by left.
  - left. apply bool_decide_eq_true. by left.
Qed.
Lemma relative_parts_iff value parts : _relative_parts value true = Ok parts <->
  (value = "." /\ parts = []) \/ (value ≠ "." /\ portable value /\ parts = py_split "/" value).
Proof.
  unfold _relative_parts. rewrite andb_true_l. case_bool_decide as Hdot; [naive_solver |]. split.
  - intros Hr. right. inv_result. split; [done |]. split; [|done]. by apply validate_path_iff.
  - intros [[? _]|(_ & Hp & ->)]; [done |]. pose proof Hp as Hp'. unfold portable in Hp'. rewrite Forall_forall in Hp'.
    assert (has_char "\" value = false) as Hb.
    { apply not_true_iff_false. intros (s & Hs & Hc)%has_char_part; [|done]. by apply (portable_name_clean s "\"%char (Hp' s Hs)). }
    assert ("" ∉ py_split "/" value) as He by (intros Hs; by apply (portable_name_dots "" (Hp' "" Hs)); left).
    assert (rooted value = false) as -> by (apply not_true_iff_false; intros [?|?]%rooted_part; [congruence | done]).
    rewrite Hb, bool_decide_false by (intros ->; by apply He; left). cbn [orb raise_if]. rewrite bind_Ok.
    assert (existsb is_dots (py_split "/" value) = false) as ->.
    { apply not_true_iff_false. intros (s & Hs & Hd%bool_decide_eq_true)%existsb_exists. apply list_elem_of_In in Hs.
      by apply (portable_name_dots s (Hp' s Hs)). }
    cbn [raise_if]. rewrite bind_Ok. apply validate_path_iff in Hp. by rewrite Hp.
Qed.

(** ** Entries *)
Lemma entry_at_elem path l row : entry_at path l = Some row -> (path, row) ∈ l.
Proof.
  induction l as [|[p r] l IH]; simpl; [done |]. case_bool_decide; [intros [= ->]; subst; by left |]. right. by apply IH.
Qed.
Lemma entry_at_None path l : entry_at path l = None <-> path ∉ l.*1.
Proof.
  induction l as [|[p r] l IH]; simpl; [split; [by intros _ ?%not_elem_of_nil | done] |].
  rewrite not_elem_of_cons. case_bool_decide; naive_solver.
Qed.
Lemma entry_at_unique path l row : NoDup l.*1 -> (path, row) ∈ l -> entry_at path l = Some row.
Proof.
  induction l as [|[p r] l IH]; simpl; [by intros _ ?%not_elem_of_nil |]. intros [Hp Hnd]%NoDup_cons [[= -> ->]|Hin]%elem_of_cons.
  - by rewrite bool_decide_true.
  - rewrite bool_decide_false; [by apply IH |]. intros ->. apply Hp. apply list_elem_of_fmap. by exists (p, row).
Qed.

(** *** Rows *)
Section rows.
Context `{PathRuntime}.

Definition row_ok (row : SnapshotEntry) : Prop :=
  (entry_path row = "." /\ is_type "dir" row = true)
  \/ (entry_path row ≠ "." /\ portable (entry_path row) /\ entry_type row ∈ _ENTRY_TYPES).
Definition pair (row : SnapshotEntry) : string * SnapshotEntry := (entry_path row, row).
(** The folded paths of all rows but the root. *)
Definition folded_of (row : SnapshotEntry) : list string :=
  if bool_decide (entry_path row = ".") then [] else [_portable_path_key (entry_path row)].
Definition folded_paths (rows : list SnapshotEntry) : list string := rows ≫= folded_of.

Lemma add_row_iff row l folded r : add_row row l folded = Ok r <->
  row_ok row /\ (entry_path row ∉ l.*1) /\ (forall k, k ∈ folded_of row -> k ∉ folded)
  /\ r = (l ++ [pair row], folded_of row ++ folded).
Proof.
  unfold add_row, row_ok, pair, folded_of. destruct (base.decide (entry_path row = ".")) as [Hdot|Hdot].
  - rewrite !(bool_decide_true (entry_path row = ".")) by done.
    assert (_relative_parts (entry_path row) true = Ok []) as -> by (apply relative_parts_iff; by left).
    rewrite bind_Ok, <- entry_at_None, Hdot. split.
    + intros Hr. inv_result. bools. split; [by left |]. split; [done |]. split; [by intros k ?%not_elem_of_nil | done].
    + intros ([[_ Ht]|[? _]] & Hn & _ & ->); [|done]. by rewrite Ht, Hn.
  - rewrite !(bool_decide_false (entry_path row = ".")) by done. split.
    + intros Hr. inv_result. bools.
      match goal with X : _relative_parts _ _ = Ok _ |- _ => apply relative_parts_iff in X as [[? _]|(_ & Hp & ->)]; [done |] end.
      rewrite join_split in *. split; [right; split_and!; try done; by apply dec_stable |]. split; [by apply entry_at_None |].
      split; [|done]. by intros k ->%list_elem_of_singleton.
    + intros ([[? _]|(_ & Hp & Ht)] & Hn & Hk & ->); [done |].
      assert (_relative_parts (entry_path row) true = Ok (py_split "/" (entry_path row))) as -> by (apply relative_parts_iff; by right).
      rewrite bind_Ok. cbv zeta. rewrite join_split. apply entry_at_None in Hn. rewrite Hn, (bool_decide_true (None = None)) by done.
      rewrite (bool_decide_false (_ ∈ folded)) by (apply Hk; by left). cbn [negb orb raise_if]. rewrite bind_Ok.
      by rewrite bool_decide_false by (intros Hnt; by apply Hnt).
Qed.

Lemma add_rows_iff rows l folded l' : add_rows rows l folded = Ok l' <->
  Forall row_ok rows /\ NoDup (entry_path <$> rows) /\ (forall row, row ∈ rows -> entry_path row ∉ l.*1)
  /\ NoDup (folded_paths rows) /\ (forall k, k ∈ folded_paths rows -> k ∉ folded) /\ l' = l ++ (pair <$> rows).
Proof.
  revert l folded. induction rows as [|row rows IH]; intros l folded; simpl.
  - rewrite app_nil_r. split; [intros [= ->]; split_and!; try constructor; by intros ? ?%not_elem_of_nil | by intros (_ & _ & _ & _ & _ & ->)].
  - transitivity (exists p, add_row row l folded = Ok p /\ add_rows rows p.1 p.2 = Ok l').
    { split; [intros ([l1 f1] & ? & ?)%bind_Ok_inv; by exists (l1, f1) | by intros ([l1 f1] & -> & ?)]. }
    assert (NoDup (folded_of row)) as Hf by (unfold folded_of; case_bool_decide; [constructor | apply NoDup_singleton]).
    change (folded_paths (row :: rows)) with (folded_of row ++ folded_paths rows). rewrite Forall_cons, NoDup_cons, NoDup_app. split.
    + intros (p & (Hok & Hn & Hk & ->)%add_row_iff & Hrest). simpl in Hrest. apply IH in Hrest as (Hrows & Hnd & Hl & Hfn & Hfk & ->).
      rewrite <- app_assoc. split_and!; try done.
      * intros (r' & He & Hr')%list_elem_of_fmap. apply (Hl r' Hr'). rewrite fmap_app, elem_of_app. right. rewrite <- He. by left.
      * intros r' [->|Hr']%elem_of_cons; [done |]. intros Hin. apply (Hl r' Hr'). rewrite fmap_app, elem_of_app. by left.
      * intros k Hk1 Hk2. apply (Hfk k Hk2). apply elem_of_app. by left.
      * intros k [Hk'|Hk']%elem_of_app; [by apply Hk |]. intros Hin. apply (Hfk k Hk'). apply elem_of_app. by right.
    + intros ([Hok Hrows] & [Hn Hnd] & Hl & (_ & Hd & Hfn) & Hfk & ->). exists (l ++ [pair row], folded_of row ++ folded).
      split; [apply add_row_iff; split_and!; [done | apply Hl; by left | intros k Hk; apply Hfk, elem_of_app; by left | done] |].
      simpl. apply IH. rewrite <- app_assoc. split_and!; try done.
      * intros r' Hr'. rewrite fmap_app, elem_of_app. intros [Hin|Hin]; [apply (Hl r'); [by right | done] |].
        apply list_elem_of_singleton in Hin. apply Hn, list_elem_of_fmap. by exists r'.
      * intros k Hk. rewrite elem_of_app. intros [Hk'|Hk']; [by apply (Hd k) |]. apply (Hfk k); [apply elem_of_app; by right | done].
Qed.
End rows.

(** ** Directories above a path *)

(** Every nonempty prefix of the components names an entry that satisfies [P]. *)
Definition along (P : SnapshotEntry -> Prop) (l : entries) (p : list string) : Prop :=
  forall q x, q ++ [x] `prefix_of` p -> exists row, entry_at (py_join "/" (q ++ [x])) l = Some row /\ P row.
Definition is_dir (row : SnapshotEntry) : Prop := is_type "dir" row = true.
Definition no_link (row : SnapshotEntry) : Prop := is_link row = false.

Lemma dir_no_link row : is_dir row -> no_link row.
Proof. intros Hd%bool_decide_eq_true. apply bool_decide_eq_false. rewrite Hd. done. Qed.
Lemma along_nil P l : along P l [].
Proof. intros q x Hp%prefix_nil_inv. by destruct q. Qed.
Lemma along_snoc (P : SnapshotEntry -> Prop) l p s :
  along P l (p ++ [s]) <-> along P l p /\ exists row, entry_at (py_join "/" (p ++ [s])) l = Some row /\ P row.
Proof.
  split.
  - intros Ha. split; [|by apply Ha]. intros q x Hq. apply Ha. by apply prefix_app_r.
  - intros [Ha Hs] q x [t Ht]. destruct t as [|y t _] using rev_ind.
    + rewrite app_nil_r in Ht. apply app_inj_tail in Ht as [<- <-]. done.
    + rewrite app_assoc in Ht. apply app_inj_tail in Ht as [Ht _]. apply Ha. by exists t.
Qed.
Lemma along_impl (P Q : SnapshotEntry -> Prop) l p : (forall row, P row -> Q row) -> along P l p -> along Q l p.
Proof. intros HPQ Ha q x Hq. destruct (Ha q x Hq) as (row & ? & ?). eauto. Qed.

Lemma length_join ps : Forall proper ps -> length ps <= py_len (py_join "/" ps).
Proof.
  induction ps as [|s [|t ps] IH]; [simpl; lia | |]; intros Hp; inversion_clear Hp as [|?? (_ & Hs & _) Hps].
  - simpl. destruct s; [done | simpl; lia].
  - rewrite join_cons, !py_len_app. specialize (IH Hps). simpl in *. destruct s; [done | simpl; lia].
Qed.
Lemma check_parents_iff l ps fuel : Forall proper ps -> length ps <= fuel ->
  exists r, check_parents fuel l (py_join "/" ps) = Some r /\ (r = Ok tt <-> along is_dir l ps).
Proof.
  revert fuel. induction ps as [|s ps IH] using rev_ind; intros fuel Hps Hf.
  - exists (Ok tt). split; [by destruct fuel | split; [intros _; apply along_nil | done]].
  - rewrite length_app in Hf. simpl in Hf. destruct fuel as [|fuel]; [lia |]. pose proof Hps as Hps'. apply Forall_app in Hps' as [Hp Hs].
    cbn [check_parents]. rewrite bool_decide_false by (apply join_nonempty; [by destruct ps | done]).
    inversion_clear Hs as [|?? [Hc _] _]. rewrite dirname_join by done.
    destruct (IH fuel Hp) as (r & Hr & Hiff); [lia |].
    destruct (entry_at (py_join "/" (ps ++ [s])) l) as [row|] eqn:Hrow; [destruct (is_type "dir" row) eqn:Hd |].
    + exists r. split; [done |]. rewrite along_snoc, Hiff, Hrow. split; [intros ?; split; [done | by exists row] | by intros [? _]].
    + eexists. split; [done |]. split; [done |]. rewrite along_snoc, Hrow. intros (_ & row' & [= <-] & Hd'). unfold is_dir in Hd'. congruence.
    + eexists. split; [done |]. split; [done |]. rewrite along_snoc, Hrow. by intros (_ & row' & ? & _).
Qed.
Lemma check_ancestors_iff l ps s : Forall proper ps -> component s -> check_ancestors l (py_join "/" (ps ++ [s])) = Ok tt <-> along is_dir l ps.
Proof.
  intros Hps Hs. unfold check_ancestors. rewrite dirname_join by done.
  destruct (check_parents_iff l ps (py_len (py_join "/" (ps ++ [s]))) Hps) as (r & -> & Hiff); [|done].
  pose proof (length_join ps Hps). destruct (base.decide (ps = [])) as [->|Hne]; [simpl; lia |].
  rewrite join_snoc, py_len_app by done. lia.
Qed.

(** ** One pass of the walk *)
Inductive passes (l : entries) (s : list string) (part : string) (rest visited : list string) : walk -> Prop :=
| pass_skip : part ∈ [""; "."] -> passes l s part rest visited {| stack := s; pending := rest; seen := visited |}
| pass_up : part = ".." -> s ≠ [] -> passes l s part rest visited {| stack := removelast s; pending := rest; seen := visited |}
| pass_missing : portable_name part -> entry_at (or_dot (py_join "/" (s ++ [part]))) l = None -> rest = [] ->
    passes l s part rest visited {| stack := s ++ [part]; pending := rest; seen := visited |}
| pass_enter row : portable_name part -> entry_at (or_dot (py_join "/" (s ++ [part]))) l = Some row -> no_link row -> rest = [] \/ is_dir row ->
    passes l s part rest visited {| stack := s ++ [part]; pending := rest; seen := visited |}
| pass_follow row : portable_name part -> entry_at (or_dot (py_join "/" (s ++ [part]))) l = Some row -> is_link row = true ->
    (or_dot (py_join "/" (s ++ [part])) ∉ visited) -> unsafe_target (link_target row) = false ->
    passes l s part rest visited {| stack := s; pending := target_parts row ++ rest; seen := or_dot (py_join "/" (s ++ [part])) :: visited |}.

Lemma pass_Ok l s part rest visited w : pass l s part rest visited = Ok w -> passes l s part rest visited w.
Proof.
  unfold pass. intros Hp. inv_result. rename Hp into Hw.
  destruct (bool_decide (part ∈ _)) eqn:Hskip; [bools; injection Hw as <-; by apply pass_skip |].
  destruct (bool_decide (part = "..")) eqn:Hup; [apply bind_Ok_inv in Hw as ([] & Hs & [= <-]); inv_result; bools; by apply pass_up |].
  apply bind_Ok_inv in Hw as ([] & Hname%validate_name_iff & Hw). cbv zeta in Hw.
  destruct (entry_at _ l) as [row|] eqn:Hrow; [destruct (is_type "symlink" row) eqn:Hlink |]; inv_result; bools.
  - by eapply pass_follow.
  - eapply pass_enter; [done.. |]. match goal with X : _ && _ = false |- _ => apply andb_false_iff in X as [X|X] end; bools; [left | right]; done.
  - by apply pass_missing.
Qed.

(** ** Passes that are left *)
(** Components of the targets of the links not yet followed. *)
Fixpoint remaining (l : entries) (visited : list string) : nat :=
  match l with
  | [] => 0
  | (path, row) :: l =>
      (if bool_decide (is_link row = true /\ path ∉ visited) then length (target_parts row) else 0) + remaining l visited
  end.

Lemma remaining_bound l : remaining l [] = sum_list (length <$> (target_parts <$> filter (fun row => is_link row = true) l.*2)).
Proof.
  induction l as [|[path row] l IH]; simpl; [done |]. rewrite filter_cons, IH.
  destruct (base.decide (is_link row = true)) as [Hl|Hl].
  - rewrite bool_decide_true; [done |]. split; [done | apply not_elem_of_nil].
  - rewrite bool_decide_false; [done |]. by intros [? _].
Qed.
Lemma remaining_cons l path visited : remaining l (path :: visited) <= remaining l visited.
Proof.
  induction l as [|[p row] l IH]; simpl; [done |]. destruct (bool_decide (_ /\ p ∉ path :: visited)) eqn:E; [|lia].
  apply bool_decide_eq_true in E as [Hl Hp]. rewrite bool_decide_true; [lia |]. split; [done |].
  intros ?. apply Hp. by right.
Qed.
Lemma remaining_follow l path row visited : entry_at path l = Some row -> is_link row = true -> path ∉ visited ->
  length (target_parts row) + remaining l (path :: visited) <= remaining l visited.
Proof.
  intros Hrow Hl Hv. induction l as [|[p r] l IH]; simpl in *; [done |].
  destruct (base.decide (path = p)) as [<-|Hne].
  - rewrite bool_decide_true in Hrow by done. injection Hrow as ->. rewrite (bool_decide_true (_ /\ path ∉ visited)) by done.
    rewrite (bool_decide_false (_ /\ path ∉ path :: visited)) by (intros [_ Hn]; apply Hn; by left).
    pose proof (remaining_cons l path visited). lia.
  - rewrite bool_decide_false in Hrow by done. specialize (IH Hrow).
    assert (bool_decide (is_link r = true /\ p ∉ path :: visited) = bool_decide (is_link r = true /\ p ∉ visited)) as ->; [|lia].
    apply bool_decide_ext. rewrite not_elem_of_cons. naive_solver.
Qed.

Definition passes_left (l : entries) (w : walk) : nat := length (pending w) + remaining l (seen w).
Lemma passes_decrease l s part rest visited w : passes l s part rest visited w ->
  passes_left l w < passes_left l {| stack := s; pending := part :: rest; seen := visited |}.
Proof.
  unfold passes_left. intros []; simpl; try lia. rewrite length_app.
  pose proof (remaining_follow l _ row visited ltac:(done) ltac:(done) ltac:(done)). lia.
Qed.

Lemma walk_loop_total l fuel w : passes_left l w <= fuel -> is_Some (walk_loop fuel l w).
Proof.
  revert w. induction fuel as [|fuel IH]; intros [s [|part rest] v] Hf; [by eexists | unfold passes_left in Hf; simpl in Hf; lia | by eexists |].
  simpl. destruct (pass l s part rest v) as [w|e] eqn:Hp; [|by eexists]. apply IH.
  apply pass_Ok, passes_decrease in Hp. lia.
Qed.
Lemma walk_loop_fuel l fuel fuel' w r : walk_loop fuel l w = Some r -> fuel <= fuel' -> walk_loop fuel' l w = Some r.
Proof.
  revert fuel' w. induction fuel as [|fuel IH]; intros fuel' [s [|part rest] v] Hw Hf; [by destruct fuel' | done | by destruct fuel' |].
  destruct fuel' as [|fuel']; [lia |]. simpl in *. destruct (pass l s part rest v); [|done]. apply IH; [done | lia].
Qed.

(** ** Errors *)

(** An error of the program's own. *)
Definition own_error (e : exn) : bool := negb (bool_decide (e = out_of_fuel)).
Create HintDb own discriminated.
#[export] Hint Resolve raises_Ok raises_if raises_Raise raises_bind : own.
#[export] Hint Extern 0 (own_error _ = true) => reflexivity : own.

Lemma raises_name name : raises own_error (_validate_name name).
Proof. unfold _validate_name. auto with own. Qed.
Lemma raises_relative value allow_root : raises own_error (_relative_parts value allow_root).
Proof.
  unfold _relative_parts. destruct (allow_root && _); [auto with own |]. apply raises_bind; [auto with own |]. intros _ _.
  cbv zeta. apply raises_bind; [auto with own |]. intros _ _. apply raises_bind; [|auto with own].
  apply raises_for_each. intros name _. apply raises_name.
Qed.
Lemma raises_pass l s part rest visited : raises own_error (pass l s part rest visited).
Proof.
  unfold pass. apply raises_bind; [auto with own |]. intros _ _. destruct (bool_decide _); [auto with own |].
  destruct (bool_decide _); [apply raises_bind; auto with own |]. apply raises_bind; [apply raises_name |]. intros _ _. cbv zeta.
  destruct (entry_at _ _) as [row|]; [destruct (is_type _ _) |]; repeat (apply raises_bind; [auto with own | intros _ _]); auto with own.
Qed.
Lemma raises_walk l fuel w r : walk_loop fuel l w = Some r -> raises own_error r.
Proof.
  revert w. induction fuel as [|fuel IH]; intros [s [|part rest] v]; simpl; try (intros [= <-]; apply raises_Ok).
  destruct (pass l s part rest v) as [w|e] eqn:Hp; [apply IH |]. intros [= <-]. apply raises_Raise. by apply (raises_pass l s part rest v).
Qed.
Lemma raises_link l item : raises own_error (check_link l item).
Proof.
  destruct item as [path row]. unfold check_link. destruct (is_link row); [|auto with own]. apply raises_bind; [auto with own |]. intros _ _.
  destruct (walk_loop_total l (walk_bound l (target_parts row)) (start path row)) as [r Hr].
  { unfold passes_left, walk_bound, start. simpl. by rewrite remaining_bound. }
  rewrite Hr. simpl. apply raises_bind; [by apply raises_walk in Hr |]. intros place _. auto with own.
Qed.
Lemma raises_parents l fuel parent r : check_parents fuel l parent = Some r -> raises own_error r.
Proof.
  revert parent. induction fuel as [|fuel IH]; intros parent; simpl; (case_bool_decide; [intros [= <-]; apply raises_Ok |]); [done |].
  destruct (entry_at parent l) as [row|]; [destruct (is_type "dir" row); [apply IH |] |]; intros [= <-]; by apply raises_Raise.
Qed.

(** ** Walks *)
(** What follows holds along the passes of a walk that ends. *)
Lemma walk_loop_ind (P : list string -> list string -> list string -> Prop) (R : list string -> Prop) l :
  (forall s v, P s [] v -> R s) ->
  (forall s part rest v w, P s (part :: rest) v -> passes l s part rest v w -> P (stack w) (pending w) (seen w)) ->
  forall fuel w s', P (stack w) (pending w) (seen w) -> walk_loop fuel l w = Some (Ok s') -> R s'.
Proof.
  intros Hend Hpass fuel. induction fuel as [|fuel IH]; intros [s [|part rest] v] s' HP Hw; simpl in *; [|done| |].
  - injection Hw as <-. by apply (Hend s v).
  - injection Hw as <-. by apply (Hend s v).
  - destruct (pass l s part rest v) as [w|] eqn:Hp; [|done]. apply (IH w); [|done]. by apply (Hpass s part rest v), pass_Ok.
Qed.
