(* ===== verification/SnapshotTheorems.v ===== *)
(** * Accepted snapshots

    The links of an accepted snapshot, followed the way an operating system follows them
    in the restored workspace, never leave it and arrive at one of its files or
    directories. *)

From S2P Require Import Prelude PyStr PyUrl SnapshotPaths SnapshotProps.
From Stdlib Require Import Ascii.

(** ** Following a link in the restored workspace *)
Inductive kind := Directory | File | Link (target : list string).
Definition kind_of (row : SnapshotEntry) : kind :=
  if is_link row then Link (target_parts row) else if is_type "dir" row then Directory else File.

(** What the workspace has at a place, given by its components below the workspace. *)
Fixpoint row_at (place : list string) (l : entries) : option SnapshotEntry :=
  match l with
  | [] => None
  | (path, row) :: l => if bool_decide (path ≠ "." /\ py_split "/" path = place) then Some row else row_at place l
  end.
Definition node_at (l : entries) (place : list string) : option kind :=
  match place with [] => Some Directory | _ => kind_of <$> row_at place l end.

(** From a directory, with the components still to follow, to the next directory;
    [Some None] is the directory above the workspace, [None] when there is no way on. *)
Definition position : Type := list string * list string.
Definition move (l : entries) (p : position) : option (option position) :=
  let '(d, parts) := p in
  match parts with
  | [] => None
  | part :: rest =>
      if bool_decide (part ∈ [""; "."]) then Some (Some (d, rest))
      else if bool_decide (part = "..") then Some (if bool_decide (d = []) then None else Some (removelast d, rest))
      else
        match node_at l (d ++ [part]) with
        | Some (Link target) => Some (Some (d, target ++ rest))
        | Some Directory => Some (Some (d ++ [part], rest))
        | Some File => if bool_decide (rest = []) then Some (Some (d ++ [part], [])) else None
        | None => None
        end
  end.
Definition follows (l : entries) (p p' : option position) : Prop := exists pos, p = Some pos /\ move l pos = Some p'.

(** There is one way to go, so every run to the end passes the same positions. *)
Lemma follows_unique l p p1 p2 : follows l p p1 -> follows l p p2 -> p1 = p2.
Proof. intros (pos & -> & H1) (pos' & [= <-] & H2). congruence. Qed.
Lemma follows_end l d p : ~ follows l (Some (d, [])) p.
Proof. by intros (pos & [= <-] & H1). Qed.
Lemma runs_meet l p d p' : rtc (follows l) p (Some (d, [])) -> rtc (follows l) p p' -> rtc (follows l) p' (Some (d, [])).
Proof.
  intros Hd. revert p'. remember (Some (d, [])) as e eqn:He. induction Hd as [p|p p1 e Hp Hrest IH]; intros p' Hp'.
  - subst p. inversion Hp' as [|? p2 ? Hf]; subst; [done |]. by apply follows_end in Hf.
  - inversion Hp' as [|? p2 ? Hf]; subst; [by eapply rtc_l |]. apply IH; [done |]. by rewrite (follows_unique l p p1 p2).
Qed.

Lemma row_at_entry l place : place ≠ [] -> Forall component place -> py_join "/" place ≠ "." ->
  row_at place l = entry_at (py_join "/" place) l.
Proof.
  intros Hne Hc Hdot. induction l as [|[path row] l IH]; simpl; [done |]. rewrite IH.
  assert (bool_decide (path ≠ "." /\ py_split "/" path = place) = bool_decide (py_join "/" place = path)) as ->; [|done].
  apply bool_decide_ext. split.
  - intros [_ <-]. apply join_split.
  - intros <-. split; [done | by apply split_join].
Qed.

Lemma join_dot place : Forall proper place -> py_join "/" place ≠ ".".
Proof.
  intros Hp Hj. destruct place as [|s place]; [done |]. assert (s :: place = ["."]) as Hl.
  { rewrite <- (split_join (s :: place)), Hj; [done | done | eapply Forall_impl; [exact Hp |]; by intros ? [? _]]. }
  injection Hl as -> _. inversion_clear Hp as [|?? (_ & _ & Hs) _]. done.
Qed.
Lemma node_at_join l place : place ≠ [] -> Forall proper place -> node_at l place = kind_of <$> entry_at (py_join "/" place) l.
Proof.
  intros Hne Hp. destruct place as [|s place]; [done |]. unfold node_at. rewrite row_at_entry; [done | done | | by apply join_dot].
  eapply Forall_impl; [exact Hp |]. by intros ? [? _].
Qed.
Lemma node_at_entry l s part : Forall proper s -> proper part ->
  node_at l (s ++ [part]) = kind_of <$> entry_at (or_dot (py_join "/" (s ++ [part]))) l.
Proof.
  intros Hs Hp. rewrite or_dot_snoc by done. apply node_at_join; [by destruct s |]. apply Forall_app. split; [done | by constructor].
Qed.

(** ** The walk is the way *)
Section walks.
Context (l : entries).

Lemma component_of_portable part : component part -> portable_name part -> proper part.
Proof. intros Hc Hn%portable_name_dots. split; [done |]. split; set_solver. Qed.

(** A pass moves as the operating system does, unless its component is missing. *)
Lemma passes_move s part rest v w : passes l s part rest v w -> Forall proper s -> along no_link l s -> Forall component (part :: rest) ->
  Forall proper (stack w) /\ Forall component (pending w) /\
  ((follows l (Some (s, part :: rest)) (Some (stack w, pending w)) /\ along no_link l (stack w))
   \/ (pending w = [] /\ stack w ≠ [] /\ entry_at (or_dot (py_join "/" (stack w))) l = None)).
Proof.
  intros Hp Hs Ha Hc. inversion Hc as [|?? Hpart Hrest]; subst.
  assert (forall d, move l (s, part :: rest) = Some (Some d) -> follows l (Some (s, part :: rest)) (Some d)) as Hgo
    by (intros d Hd; by exists (s, part :: rest)).
  destruct Hp as [Hskip| -> Hne|Hn Hrow ->|row Hn Hrow Hnl Hd|row Hn Hrow Hl Hv Hu]; cbn [stack pending] in *.
  - split; [done |]. split; [done |]. left. split; [|done]. apply Hgo. simpl. by rewrite bool_decide_true.
  - destruct s as [|x s _] using rev_ind; [done |]. rewrite removelast_last. apply Forall_app in Hs as [Hs _]. apply along_snoc in Ha as [Ha _].
    split; [done |]. split; [done |]. left. split; [|done]. apply Hgo. simpl.
    rewrite (bool_decide_false (s ++ [x] = [])) by by destruct s. by rewrite removelast_last.
  - pose proof (component_of_portable part Hpart Hn). split; [apply Forall_app; split; [done | by constructor] |]. split; [done |].
    right. split; [done |]. split; [by destruct s | done].
  - pose proof (component_of_portable part Hpart Hn). split; [apply Forall_app; split; [done | by constructor] |]. split; [done |].
    left. rewrite along_snoc. rewrite or_dot_snoc in Hrow by done.
    split; [|split; [done | by exists row]]. apply Hgo. pose proof (portable_name_dots part Hn) as Hdots. unfold move.
    rewrite bool_decide_false by set_solver. rewrite bool_decide_false by set_solver. rewrite node_at_entry by done.
    rewrite or_dot_snoc, Hrow by done. simpl.
    unfold kind_of. rewrite Hnl. destruct Hd as [->|Hd]; [by destruct (is_type "dir" row) | by rewrite Hd].
  - pose proof (component_of_portable part Hpart Hn). split; [done |]. split; [apply Forall_app; split; [apply split_components | done] |]. left. split; [|done].
    apply Hgo. pose proof (portable_name_dots part Hn) as Hdots. unfold move.
    rewrite bool_decide_false by set_solver. rewrite bool_decide_false by set_solver. rewrite node_at_entry, Hrow by done.
    simpl. unfold kind_of. by rewrite Hl.
Qed.

(** A walk that ends at an entry is a run to that entry. *)
Lemma walk_run fuel s parts v dest : walk_loop fuel l {| stack := s; pending := parts; seen := v |} = Some (Ok dest) ->
  Forall proper s -> along no_link l s -> Forall component parts -> entry_at (or_dot (py_join "/" dest)) l ≠ None ->
  rtc (follows l) (Some (s, parts)) (Some (dest, [])) /\ Forall proper dest /\ along no_link l dest.
Proof.
  intros Hw Hs Ha Hc. pose (start := Some (s, parts) : option position).
  revert Hw. apply (walk_loop_ind
    (fun s parts _ => Forall proper s /\ Forall component parts
       /\ ((rtc (follows l) start (Some (s, parts)) /\ along no_link l s)
           \/ (parts = [] /\ s ≠ [] /\ entry_at (or_dot (py_join "/" s)) l = None)))
    (fun dest => entry_at (or_dot (py_join "/" dest)) l ≠ None ->
       rtc (follows l) start (Some (dest, [])) /\ Forall proper dest /\ along no_link l dest)).
  - intros s' _ (Hs' & _ & [[Hr Ha']|(_ & _ & Hn)]) He; [done | by destruct He].
  - intros s' part rest v' w (Hs' & Hc' & [[Hr Ha']|[? _]]) Hp; [|done].
    destruct (passes_move s' part rest v' w Hp Hs' Ha' Hc') as (Hs1 & Hc1 & Hor). split; [done |]. split; [done |].
    destruct Hor as [[Hf Ha1]|Hmiss]; [left | by right]. split; [|done]. by eapply rtc_r.
  - split; [done |]. split; [done |]. by left.
Qed.
End walks.

(** ** Accepted snapshots *)
Section snapshots.
Context `{PathRuntime}.

Definition above (path : string) : list string := removelast (py_split "/" path).
Lemma path_parts path : portable path -> exists ps s, py_split "/" path = ps ++ [s] /\ above path = ps
  /\ path = py_join "/" (ps ++ [s]) /\ Forall proper ps /\ proper s.
Proof.
  intros Hp%portable_proper. unfold above. destruct (py_split "/" path) as [|s ps _] eqn:E using rev_ind; [by apply split_nonempty in E |].
  apply Forall_app in Hp as [Hps Hs]. inversion_clear Hs. exists ps, s. rewrite removelast_last, <- E, join_split. by split_and!.
Qed.

Lemma start_eq path row : portable path -> start path row = {| stack := above path; pending := target_parts row; seen := [] |}.
Proof.
  intros (ps & s & _ & -> & -> & Hps & Hs)%path_parts. unfold start. rewrite dirname_join by (done || apply Hs).
  destruct ps as [|t ps]; [done |]. rewrite bool_decide_false by by apply join_nonempty.
  by rewrite split_join by (done || (eapply Forall_impl; [exact Hps |]; by intros ? [? _])).
Qed.

(** The rows of an accepted snapshot, without the condition on its links. *)
Definition rows_ok (rows : list SnapshotEntry) : Prop :=
  Forall row_ok rows /\ NoDup (entry_path <$> rows) /\ NoDup (folded_paths rows)
  /\ Forall (fun row => entry_path row ≠ "." -> along is_dir (pair <$> rows) (above (entry_path row))) rows.
Lemma validate_iff rows l : _validate_snapshot_entries rows = Ok l <->
  l = (pair <$> rows) /\ rows_ok rows /\ _validate_link_graph l = Ok tt.
Proof.
  unfold _validate_snapshot_entries, rows_ok.
  assert (forall l', Forall row_ok rows -> for_each (check_ancestors l') (pair <$> rows).*1 = Ok tt
    <-> Forall (fun row => entry_path row ≠ "." -> along is_dir l' (above (entry_path row))) rows) as Hanc.
  { intros l' Hok. rewrite for_each_Ok, Forall_fmap, Forall_fmap. rewrite Forall_forall in Hok.
    split; intros Hr; apply Forall_forall; intros row Hin; rewrite Forall_forall in Hr; specialize (Hr row Hin);
      destruct (Hok row Hin) as [[Hdot _]|(Hdot & Hp & _)]; try done.
    - intros _. destruct (path_parts _ Hp) as (ps & s & _ & -> & Hj & Hps & Hs). unfold compose, pair in Hr. simpl in Hr.
      rewrite Hj in Hr. by apply check_ancestors_iff in Hr; [| | apply Hs].
    - unfold compose, pair. simpl. by rewrite Hdot.
    - destruct (path_parts _ Hp) as (ps & s & _ & Ha & Hj & Hps & Hs). unfold compose, pair. simpl. rewrite Hj.
      apply check_ancestors_iff; [done | apply Hs |]. rewrite <- Ha. by apply Hr. }
  split.
  - intros Hv. apply bind_Ok_inv in Hv as (l1 & Hadd & Hv). apply add_rows_iff in Hadd as (Hok & Hnd & _ & Hf & _ & ->).
    rewrite app_nil_l in *. apply bind_Ok_inv in Hv as ([] & Ha & Hv). apply bind_Ok_inv in Hv as ([] & Hg & [= <-]).
    split; [done |]. split; [|done]. split_and!; try done. by apply Hanc.
  - intros (-> & (Hok & Hnd & Hf & Ha) & Hg).
    assert (add_rows rows [] [] = Ok (pair <$> rows)) as ->.
    { apply add_rows_iff. split_and!; try done; by intros ? _ ?%not_elem_of_nil. }
    rewrite bind_Ok. apply Hanc in Ha; [|done]. by rewrite Ha, bind_Ok, Hg.
Qed.

Lemma link_portable row : row_ok row -> is_link row = true -> entry_path row ≠ "." /\ portable (entry_path row).
Proof.
  intros [[_ Hd]|(? & ? & _)] Hl; [|done]. apply dir_no_link in Hd. unfold no_link in Hd. congruence.
Qed.

(** C20: every symbolic link of an accepted snapshot, followed in the restored workspace the way
    an operating system does, component by component and through other links, never leaves the
    workspace and always arrives at one of its own files or directories. *)
Theorem snapshot_links_inside (rows : list SnapshotEntry) (l : entries) (path : string) (row : SnapshotEntry) :
  _validate_snapshot_entries rows = Ok l -> (path, row) ∈ l -> is_link row = true ->
  exists place, or_dot (py_join "/" place) ∈ l.*1 /\ (node_at l place = Some Directory \/ node_at l place = Some File)
    /\ forall p, rtc (follows l) (Some (above path, target_parts row)) p ->
         p ≠ None /\ rtc (follows l) p (Some (place, [])).
Proof.
  intros (-> & (Hok & Hnd & _ & Ha) & Hg)%validate_iff Hin Hl. pose proof Hin as (row' & [= -> ->] & Hrow)%list_elem_of_fmap.
  rewrite Forall_forall in Hok, Ha. destruct (link_portable row' (Hok row' Hrow) Hl) as [Hdot Hp].
  apply for_each_Ok in Hg. rewrite Forall_forall in Hg. specialize (Hg _ Hin). unfold check_link, pair in Hg. rewrite Hl in Hg.
  inv_result. bools. destruct (walk_loop _ _ _) as [[place|]|] eqn:Hw; simpl in *; try done.
  match goal with X : Ok place = Ok _ |- _ => injection X as <- end. change (fun row : SnapshotEntry => (entry_path row, row)) with pair in *.
  rewrite start_eq in Hw by done. destruct (path_parts _ Hp) as (ps & s & _ & Hab & _ & Hps & _).
  destruct (walk_run _ _ _ _ _ _ Hw) as (Hrun & Hplace & Hno).
  { by rewrite Hab. }
  { eapply along_impl; [exact dir_no_link | by apply Ha]. }
  { apply split_components. }
  { done. }
  exists place. split; [by apply dec_stable; rewrite <- entry_at_None |]. split.
  - destruct place as [|x q _] using rev_ind; [by left |]. rewrite node_at_join by (done || by destruct q).
    apply along_snoc in Hno as (_ & r & -> & Hr). simpl. unfold kind_of. rewrite Hr. destruct (is_type "dir" r); [by left | by right].
  - intros p Hr. pose proof (runs_meet _ _ _ _ Hrun Hr) as Hend. split; [|done]. intros ->.
    inversion Hend as [|? ? ? (pos & ? & _)]; subst; done.
Qed.

(** ** What is accepted *)

(** A way from a position to a place, over portable names and without meeting a link twice. *)
Inductive way (l : entries) : list string -> position -> list string -> Prop :=
| way_end v d : way l v (d, []) d
| way_step v d part rest p place : part ∈ [""; "."; ".."] \/ portable_name part /\ (forall target, node_at l (d ++ [part]) ≠ Some (Link target)) ->
    move l (d, part :: rest) = Some (Some p) -> way l v p place -> way l v (d, part :: rest) place
| way_link v d part rest target place : portable_name part -> node_at l (d ++ [part]) = Some (Link target) ->
    py_join "/" (d ++ [part]) ∉ v -> way l (py_join "/" (d ++ [part]) :: v) (d, target ++ rest) place ->
    way l v (d, part :: rest) place.

Definition no_backslash (s : string) : Prop := "\"%char ∉ chars s.
Lemma join_backslash parts : Forall no_backslash parts -> has_char "\" (py_join "/" parts) = false.
Proof.
  intros Hp. apply bool_decide_eq_false. induction parts as [|s [|t parts] IH]; [by intros ?%not_elem_of_nil | by inversion_clear Hp |].
  inversion_clear Hp as [|?? Hs Hp']. rewrite chars_join, elem_of_app, elem_of_cons. intros [?|[?|?]]; [done | done |]. by apply IH.
Qed.
Lemma split_backslash s : has_char "\" s = false -> Forall no_backslash (py_split "/" s).
Proof.
  intros Hs%bool_decide_eq_false. rewrite <- (join_split s) in Hs. induction (py_split "/" s) as [|t [|u parts] IH]; [constructor | by repeat constructor |].
  rewrite chars_join, elem_of_app, elem_of_cons in Hs. constructor; [intros ?; apply Hs; by left |]. apply IH. intros ?. apply Hs. by right; right.
Qed.
Lemma no_drive part : part ∈ [""; "."; ".."] \/ portable_name part -> prefixmatch DRIVE_RE part = false.
Proof.
  intros Hp. apply not_true_iff_false. intros Hm. assert (":"%char ∈ chars part) as Hc.
  { unfold prefixmatch in Hm. apply fullmatch_lang, lang_cat_inv in Hm as (s1 & s2 & -> & Hd & _). apply elem_of_app. left.
    apply lang_cat_inv in Hd as (s3 & s4 & -> & _ & Hc). apply elem_of_app. right.
    apply lang_cls_inv in Hc as (c & -> & ->%bool_decide_eq_true). by left. }
  destruct Hp as [Hp|Hp]; [|by apply (portable_name_clean part ":"%char Hp)].
  apply elem_of_cons in Hp as [->|Hp]; [by apply not_elem_of_nil in Hc |].
  apply elem_of_cons in Hp as [->|Hp%list_elem_of_singleton]; [|subst part];
    repeat (apply elem_of_cons in Hc as [Hc|Hc]; [done |]); by apply not_elem_of_nil in Hc.
Qed.

Lemma dots_cases part : part ∈ [""; "."; ".."] -> part ∈ [""; "."] \/ part = "..".
Proof. set_solver. Qed.

Lemma passes_pass l s part rest visited w : Forall no_backslash (part :: rest) -> passes l s part rest visited w ->
  pass l s part rest visited = Ok w.
Proof.
  intros Hb Hp. unfold pass. rewrite (join_backslash _ Hb), no_drive by (destruct Hp; subst; (left; set_solver) || by right).
  cbn [orb raise_if]. rewrite bind_Ok.
  assert (portable_name part -> bool_decide (part ∈ [""; "."]) = false /\ bool_decide (part = "..") = false) as Hn.
  { intros Hn%portable_name_dots. split; apply bool_decide_eq_false; set_solver. }
  destruct Hp as [Hskip| -> Hne|Hname Hrow ->|row Hname Hrow Hnl Hd|row Hname Hrow Hl Hv Hu];
    try (destruct (Hn Hname) as [-> ->]; rewrite (proj2 (validate_name_iff part) Hname), bind_Ok, Hrow; cbv zeta).
  - by rewrite bool_decide_true.
  - by rewrite (bool_decide_false (s = [])).
  - done.
  - unfold no_link, is_link in Hnl. rewrite Hnl. destruct Hd as [->|Hd]; [done |]. rewrite Hd. by destruct (bool_decide (rest = [])).
  - unfold is_link in Hl. rewrite Hl, (bool_decide_false (_ ∈ visited)), Hu by done. done.
Qed.

Lemma kind_link row target : kind_of row = Link target -> is_link row = true /\ target = target_parts row.
Proof. unfold kind_of. destruct (is_link row); [by intros [= <-] | by destruct (is_type "dir" row)]. Qed.

(** A step that follows no link is a pass. *)
Lemma move_passes l v d part rest p : Forall proper d -> component part ->
  part ∈ [""; "."; ".."] \/ portable_name part /\ (forall target, node_at l (d ++ [part]) ≠ Some (Link target)) ->
  move l (d, part :: rest) = Some (Some p) ->
  passes l d part rest v {| stack := p.1; pending := p.2; seen := v |} /\ Forall proper p.1 /\ p.2 = rest.
Proof.
  intros Hd Hc Hname Hm. simpl in Hm. case_bool_decide as Hskip; [injection Hm as <-; split; [by apply pass_skip | done] |].
  case_bool_decide as Hup.
  { case_bool_decide as Hne; [done |]. injection Hm as <-. split; [by apply pass_up |]. split; [|done]. simpl.
    destruct d as [|x d _] using rev_ind; [done |]. rewrite removelast_last. by apply Forall_app in Hd as [? _]. }
  destruct Hname as [Hdots|[Hn Hlink]]; [destruct (dots_cases part Hdots); done |].
  pose proof (component_of_portable part Hc Hn) as Hp. rewrite node_at_entry in Hm by done. setoid_rewrite node_at_entry in Hlink; [|done..].
  assert (Forall proper (d ++ [part])) by (apply Forall_app; split; [done | by constructor]).
  destruct (entry_at _ l) as [row|] eqn:Hrow; [|done]. simpl in Hm, Hlink.
  assert (no_link row) as Hnl by (apply not_true_iff_false; intros Hl; apply (Hlink (target_parts row)); unfold kind_of; by rewrite Hl).
  unfold kind_of in Hm. rewrite Hnl in Hm. destruct (is_type "dir" row) eqn:Hdir.
  - injection Hm as <-. split; [|done]. eapply pass_enter; [done.. | by right].
  - case_bool_decide as Hr; [|done]. injection Hm as <-. subst rest. split; [|done]. eapply pass_enter; [done.. | by left].
Qed.

Definition safe_targets (l : entries) : Prop := forall path row, (path, row) ∈ l -> is_link row = true -> unsafe_target (link_target row) = false.
Lemma target_backslash row : unsafe_target (link_target row) = false -> Forall no_backslash (target_parts row).
Proof.
  unfold unsafe_target, target_parts. destruct (link_target row) as [t|]; [|done].
  intros Ht. repeat apply orb_false_elim in Ht as [Ht ?]. by apply split_backslash.
Qed.

(** A way is walked. *)
Lemma way_walk l v d parts place : safe_targets l ->
  way l v (d, parts) place -> Forall proper d -> Forall component parts -> Forall no_backslash parts ->
  exists fuel, walk_loop fuel l {| stack := d; pending := parts; seen := v |} = Some (Ok place).
Proof.
  intros Htargets Hw. remember (d, parts) as pos eqn:Hpos. revert d parts Hpos.
  induction Hw as [v d|v d part rest p place Hname Hm Hw IH|v d part rest target place Hn Hnode Hv Hw IH];
    intros d' parts' [= <- <-] Hd Hc Hb; [by exists 0 | |]; inversion Hc as [|?? Hpart Hrest]; subst; inversion Hb as [|?? Hbp Hbr]; subst.
  - destruct p as [d1 parts1]. destruct (move_passes l v d part rest _ Hd Hpart Hname Hm) as (Hp & Hd1 & Hr).
    simpl in Hp, Hd1, Hr. subst parts1. pose proof (passes_pass _ _ _ _ _ _ Hb Hp) as Hpass.
    destruct (IH d1 rest eq_refl Hd1 Hrest Hbr) as [fuel Hf]. exists (S fuel). simpl. by rewrite Hpass.
  - pose proof (component_of_portable part Hpart Hn) as Hp. rewrite node_at_entry in Hnode by done.
    destruct (entry_at _ l) as [row|] eqn:Hrow; [|done]. injection Hnode as [Hl ->]%kind_link.
    pose proof (Htargets _ _ (entry_at_elem _ _ _ Hrow) Hl) as Hu. rewrite <- or_dot_snoc in Hv by done.
    destruct (IH d (target_parts row ++ rest) eq_refl Hd) as [fuel Hf].
    { apply Forall_app. split; [apply split_components | done]. }
    { apply Forall_app. split; [by apply target_backslash | done]. }
    exists (S fuel). simpl. rewrite (passes_pass l d part rest v _ Hb (pass_follow l d part rest v row Hn Hrow Hl Hv Hu)).
    by rewrite or_dot_snoc.
Qed.

(** A walk goes a way. *)
Lemma walk_way l fuel v d parts place : walk_loop fuel l {| stack := d; pending := parts; seen := v |} = Some (Ok place) ->
  Forall proper d -> along no_link l d -> Forall component parts -> entry_at (or_dot (py_join "/" place)) l ≠ None ->
  way l v (d, parts) place.
Proof.
  revert v d parts. induction fuel as [|fuel IH]; intros v d [|part rest] Hw Hd Ha Hc He; simpl in Hw;
    [injection Hw as <-; constructor | done | injection Hw as <-; constructor |].
  destruct (pass l d part rest v) as [w|] eqn:Hpass; [|done]. apply pass_Ok in Hpass.
  destruct (passes_move l d part rest v w Hpass Hd Ha Hc) as (Hd' & Hc' & Hor). destruct w as [d' parts' v']. simpl in Hd', Hc', Hor.
  destruct Hor as [[(pos & [= <-] & Hm) Ha']|(-> & _ & Hmiss)]; [|by destruct fuel; simpl in Hw; injection Hw as <-].
  specialize (IH v' d' parts' Hw Hd' Ha' Hc' He). inversion Hc as [|?? Hpart Hrest]; subst.
  inversion Hpass as [Hskip|Hup Hne|Hn Hrow ?|row Hn Hrow Hnl Hdir|row Hn Hrow Hl Hv Hu]; subst.
  - eapply (way_step l); [left; set_solver | exact Hm | exact IH].
  - eapply (way_step l); [left; set_solver | exact Hm | exact IH].
  - eapply (way_step l); [right; split; [done |] | exact Hm | exact IH].
    intros target. rewrite node_at_entry by (done || by apply component_of_portable). by rewrite Hrow.
  - eapply (way_step l); [right; split; [done |] | exact Hm | exact IH].
    intros target. rewrite node_at_entry by (done || by apply component_of_portable). rewrite Hrow. simpl. intros [= [Hl _]%kind_link].
    unfold no_link in Hnl. congruence.
  - pose proof (component_of_portable part Hpart Hn) as Hp. rewrite or_dot_snoc in Hv, IH by done.
    eapply way_link; [done | | done | exact IH]. rewrite node_at_entry, Hrow by done. simpl. unfold kind_of. by rewrite Hl.
Qed.

(** A target that says where it leads on every system: neither absolute, nor with a drive, nor with
    the separator of another system. *)
Definition safe_target (target : option string) : Prop :=
  exists t, target = Some t /\ t ≠ "" /\ (forall rest, t ≠ "/" +:+ rest) /\ ("\"%char ∉ chars t)
    /\ forall c rest, is_alpha c = true -> t ≠ String.String c (":" +:+ rest).

Lemma drive_iff t : prefixmatch DRIVE_RE t = true <-> exists c rest, is_alpha c = true /\ t = String.String c (":" +:+ rest).
Proof.
  unfold prefixmatch. rewrite fullmatch_lang. split.
  - intros (s1 & s2 & Hs & Hd & _)%lang_cat_inv. apply lang_cat_inv in Hd as (s3 & s4 & -> & (a & -> & Ha)%lang_cls_inv & Hc).
    apply lang_cls_inv in Hc as (c & -> & ->%bool_decide_eq_true). exists a, (of_chars s2). split; [done |].
    apply chars_ext. rewrite Hs. change (String.String a (":" +:+ of_chars s2)) with (of_chars (a :: ":"%char :: s2)). by rewrite chars_of_chars.
  - intros (c & rest & Hc & ->). change (chars (String.String c (":" +:+ rest))) with ([c; ":"%char] ++ chars rest).
    constructor; [change [c; ":"%char] with ([c] ++ [":"%char]); constructor; by constructor |].
    induction (chars rest) as [|a l IH]; [constructor |]. apply (lang_star_cons _ a []); [by constructor | done].
Qed.
Lemma safe_target_iff target : unsafe_target target = false <-> safe_target target.
Proof.
  unfold safe_target, unsafe_target. destruct target as [t|]; [|split; [done | by intros (t & ? & _)]].
  rewrite !orb_false_iff, bool_decide_eq_false. split.
  - intros (((Hne & Hr) & Hb%bool_decide_eq_false) & Hd). exists t. split_and!; try done.
    + by intros rest ->.
    + intros c rest Hc ->. enough (prefixmatch DRIVE_RE (String.String c (":" +:+ rest)) = true) by congruence. apply drive_iff. eauto.
  - intros (t' & [= <-] & Hne & Hs & Hb & Hd). split_and!; try done.
    + apply not_true_iff_false. unfold rooted. destruct t as [|a rest]; [done |]. unfold startswith. rewrite !andb_true_r, orb_true_iff, !bool_decide_eq_true.
      intros [<-|<-]; [by apply (Hs rest) | apply Hb; by left].
    + by apply bool_decide_eq_false.
    + apply not_true_iff_false. intros (c & rest & Hc & ->)%drive_iff. by apply (Hd c rest).
Qed.

(** The links of a snapshot: a safe target, and a way from it to an entry. *)
Definition link_ok (l : entries) (row : SnapshotEntry) : Prop :=
  safe_target (link_target row)
  /\ exists place, way l [] (above (entry_path row), target_parts row) place /\ or_dot (py_join "/" place) ∈ l.*1.

Lemma check_link_ok l row : is_link row = true -> portable (entry_path row) -> along is_dir l (above (entry_path row)) ->
  check_link l (pair row) = Ok tt -> link_ok l row.
Proof.
  intros Hl Hp Ha. unfold check_link, pair. rewrite Hl. intros Hg. inv_result. bools.
  destruct (walk_loop _ _ _) as [[place|]|] eqn:Hw; simpl in *; try done.
  match goal with X : Ok place = Ok _ |- _ => injection X as <- end. rewrite start_eq in Hw by done.
  destruct (path_parts _ Hp) as (ps & s & _ & Hab & _ & Hps & _). split; [by apply safe_target_iff |]. exists place. split.
  - eapply walk_way; [exact Hw | by rewrite Hab | eapply along_impl; [exact dir_no_link | done] | apply split_components | done].
  - apply dec_stable. by rewrite <- entry_at_None.
Qed.
Lemma link_check l row : is_link row = true -> portable (entry_path row) -> safe_targets l -> link_ok l row -> check_link l (pair row) = Ok tt.
Proof.
  intros Hl Hp Hsafe (Hu%safe_target_iff & place & Hway & Hin). unfold check_link, pair. rewrite Hl, Hu. cbn [raise_if]. rewrite bind_Ok, start_eq by done.
  destruct (path_parts _ Hp) as (ps & s & _ & Hab & _ & Hps & _).
  destruct (way_walk l [] _ _ _ Hsafe Hway) as [fuel Hf]; [by rewrite Hab | apply split_components | by apply target_backslash |].
  destruct (walk_loop_total l (walk_bound l (target_parts row)) {| stack := above (entry_path row); pending := target_parts row; seen := [] |}) as [r Hr].
  { unfold passes_left, walk_bound. simpl. by rewrite remaining_bound. }
  rewrite Hr. apply (walk_loop_fuel _ _ (Nat.max fuel (walk_bound l (target_parts row)))) in Hr; [|lia].
  apply (walk_loop_fuel _ _ (Nat.max fuel (walk_bound l (target_parts row)))) in Hf; [|lia]. rewrite Hf in Hr. injection Hr as <-.
  simpl. rewrite bool_decide_false; [done |]. intros Hn%entry_at_None. done.
Qed.

(** C33: exactly those snapshots are accepted whose entries are a directory at [.] or a directory,
    file or link at a path of portable names; whose paths are distinct, those below [.] even after
    normalisation and case folding; whose entries below another directory have each of their parents
    among the entries as a directory; and each of whose links has a relative target without drive or
    backslash that can be followed over portable names, without meeting a link twice, to an entry of
    the snapshot.  What is accepted is then exactly the entries by their paths. *)
Theorem snapshot_accepted_iff (rows : list SnapshotEntry) (l : entries) :
  _validate_snapshot_entries rows = Ok l <->
  l = (pair <$> rows) /\ rows_ok rows /\ Forall (fun row => is_link row = true -> link_ok l row) rows.
Proof.
  rewrite validate_iff. unfold _validate_link_graph. split; intros (-> & Hrows & Hg); (split; [done |]; split; [done |]);
    pose proof Hrows as (Hok & _ & _ & Ha); rewrite Forall_forall in Hok, Ha.
  - rewrite for_each_Ok, Forall_fmap, Forall_forall in Hg. apply Forall_forall. intros row Hin Hl.
    destruct (link_portable row (Hok row Hin) Hl) as [Hdot Hp]. apply check_link_ok; [done | done | by apply Ha | by apply Hg].
  - rewrite for_each_Ok, Forall_fmap, Forall_forall. rewrite Forall_forall in Hg. intros row Hin. unfold compose.
    destruct (is_link row) eqn:Hl; [|by unfold check_link, pair; rewrite Hl].
    destruct (link_portable row (Hok row Hin) Hl) as [Hdot Hp]. apply link_check; [done | done | | by apply Hg].
    intros path row' (row1 & [= -> ->] & Hin')%list_elem_of_fmap Hl'. by apply safe_target_iff, Hg.
Qed.

Lemma raises_rows rows l folded : raises own_error (add_rows rows l folded).
Proof.
  revert l folded. induction rows as [|row rows IH]; intros l folded; simpl; [auto with own |]. apply raises_bind; [|intros [l1 f1] _; apply IH].
  unfold add_row. apply raises_bind; [apply raises_relative |]. intros parts _.
  destruct (bool_decide _); cbv zeta; repeat (apply raises_bind; [auto with own | intros _ _]); auto with own.
Qed.
Lemma raises_ancestors rows l path : Forall row_ok rows -> path ∈ entry_path <$> rows -> raises own_error (check_ancestors l path).
Proof.
  rewrite Forall_forall. intros Hok (row & -> & Hin)%list_elem_of_fmap. unfold check_ancestors.
  destruct (Hok row Hin) as [[-> _]|(_ & Hp & _)]; [apply raises_Ok |]. destruct (path_parts _ Hp) as (ps & s & _ & _ & -> & Hps & Hs).
  rewrite dirname_join by (done || apply Hs).
  destruct (check_parents_iff l ps (py_len (py_join "/" (ps ++ [s]))) Hps) as (r & Hr & _).
  { etrans; [|apply length_join, Forall_app; split; [done | by constructor]]. rewrite length_app. lia. }
  rewrite Hr. simpl. by eapply raises_parents.
Qed.
Lemma raises_snapshot_rows rows : raises own_error (_validate_snapshot_entries rows).
Proof.
  unfold _validate_snapshot_entries. apply raises_bind; [apply raises_rows |].
  intros l (Hok & _ & _ & _ & _ & ->)%add_rows_iff. rewrite app_nil_l. apply raises_bind.
  - apply raises_for_each. intros path Hpath. apply (raises_ancestors rows); [done |].
    rewrite <- list_fmap_compose in Hpath. done.
  - intros _ _. apply raises_bind; [|auto with own]. apply raises_for_each. intros item _. apply raises_link.
Qed.

(** C34: following a link takes at most as many passes as its target and the targets of all links
    of the snapshot have components together, whatever the entries are: the validation always
    comes to an end, with the entries or an error of its own. *)
Theorem link_walk_terminates :
  (forall l w, exists r, forall fuel, passes_left l w <= fuel -> walk_loop fuel l w = Some r)
  /\ (forall rows, _validate_snapshot_entries rows ≠ Raise out_of_fuel).
Proof.
  split.
  - intros l w. destruct (walk_loop_total l (passes_left l w) w ltac:(done)) as [r Hr]. exists r. intros fuel Hf. by eapply walk_loop_fuel.
  - intros rows He. assert (raises own_error (_validate_snapshot_entries rows)) as Hr by apply raises_snapshot_rows.
    by specialize (Hr _ He).
Qed.
End snapshots.

(** ** Concrete snapshots *)
Definition demo_paths : PathRuntime := {| _portable_path_key := py_lower |}.
Definition demo_row (path type : string) (target : option string) : SnapshotEntry :=
  {| entry_path := path; entry_type := type; size := None; mode := None; link_target := target |}.
Definition demo_rows : list SnapshotEntry :=
  [demo_row "." "dir" None; demo_row "a" "dir" None; demo_row "a/data.txt" "file" None;
   demo_row "b" "dir" None; demo_row "b/alias" "symlink" (Some "./../a//data.txt"); demo_row "a/back" "symlink" (Some "../b/alias")].

Lemma snapshot_links_inside_witness :
  exists place, or_dot (py_join "/" place) ∈ (pair <$> demo_rows).*1
    /\ (node_at (pair <$> demo_rows) place = Some Directory \/ node_at (pair <$> demo_rows) place = Some File)
    /\ forall p, rtc (follows (pair <$> demo_rows)) (Some (["a"], [".."; "b"; "alias"])) p ->
         p ≠ None /\ rtc (follows (pair <$> demo_rows)) p (Some (place, [])).
Proof.
  apply (@snapshot_links_inside demo_paths demo_rows (pair <$> demo_rows) "a/back" (demo_row "a/back" "symlink" (Some "../b/alias")));
    [vm_compute; reflexivity | do 5 right; left | reflexivity].
Defined.

(** A link whose way meets another link twice is refused as cyclic, although following it
    arrives at a file. *)
Definition twice_rows : list SnapshotEntry :=
  [demo_row "d" "dir" None; demo_row "d/f" "file" None; demo_row "l" "symlink" (Some "d"); demo_row "m" "symlink" (Some "l/../l/f")].
Lemma link_met_twice_refused :
  @_validate_snapshot_entries demo_paths twice_rows = Raise (link_error "a cyclic symlink")
  /\ rtc (follows (pair <$> twice_rows)) (Some ([], ["l"; ".."; "l"; "f"])) (Some (["d"; "f"], [])).
Proof.
  split; [vm_compute; reflexivity |].
  repeat (eapply rtc_l; [eexists; split; [reflexivity | vm_compute; reflexivity] |]). apply rtc_refl.
Qed.
