(* ===== verification/WorkspacePolicy.v ===== *)
(** * Workspace capture policy ([src/josh_room/workspace_policy.py])

    Which paths of a workspace a capture leaves out: glob patterns of the shared defaults
    and of the workspace's ignore file, and the active runtime.  Git storage is kept or
    left out as a whole. *)

From S2P Require Import Prelude PyStr PyObj PyUrl PyDatetime PyJson LogicalJat.
From Stdlib Require Import Ascii.
#[local] Set Warnings "-register-all".

Definition _IGNORE_LIMIT : Z := 64 * 1024.
Definition _MAX_RULES : nat := 128.
Definition _MAX_RULE_LENGTH : nat := 1024.
Definition _MAX_PATTERN_SEGMENTS : nat := 128.

(** ** Patterns *)

(** A segment repeats the one before it and is "**". *)
Fixpoint collapse (previous : option string) (segments : list string) : list string :=
  match segments with
  | [] => []
  | s :: segments =>
      let rest := collapse (Some s) segments in
      if bool_decide (s = "**" /\ previous = Some "**") then rest else s :: rest
  end.
Definition rule_error (rule what : string) : exn := EValue (rule +:+ what).
Definition drive_path (pattern : string) : bool :=
  match chars pattern with _ :: b :: c :: _ => bool_decide (b = ":"%char /\ c = "/"%char) | _ => false end.
Definition bad_segment (s : string) : bool := str_any (one_of "![]") s || (contains "**" s && negb (bool_decide (s = "**"))).

Definition _parts (pattern : pyobj) (rule : string) : result (list string) :=
  match pattern with
  | PStr s =>
      raise_if (bool_decide (s = "") || (_MAX_RULE_LENGTH <? py_len s)%nat || startswith "/" s || drive_path s || has_char "\" s)
        (rule_error rule " is invalid") ;;
      let raw_segments := py_split "/" s in
      raise_if (_MAX_PATTERN_SEGMENTS <? length raw_segments)%nat (rule_error rule " has too many path components") ;;
      let segments := collapse None raw_segments in
      raise_if (existsb (fun s => bool_decide (s ∈ [""; "."; ".."])) segments) (rule_error rule " is invalid") ;;
      raise_if (existsb bad_segment segments) (rule_error rule " uses unsupported glob syntax") ;;
      raise_if (bool_decide (segments = ["**"])) (rule_error rule " cannot exclude the whole workspace") ;;
      Ok segments
  | _ => Raise (rule_error rule " is invalid")
  end.

(** [fnmatch.fnmatchcase(name, pattern)] for a pattern without brackets. *)
Fixpoint glob_re (pattern : list ascii) : re :=
  match pattern with
  | [] => REps
  | c :: pattern =>
      RCat (if Ascii.eqb c "*" then RStar (RCls (fun _ => true)) else if Ascii.eqb c "?" then RCls (fun _ => true) else chr c)
        (glob_re pattern)
  end.
Definition fnmatchcase (name pattern : string) : bool := fullmatch (glob_re (chars pattern)) name.

(** Recursion on the pattern, and on the path below it while the pattern stays at "**". *)
Fixpoint _glob_matches (pattern : list string) : list string -> bool :=
  match pattern with
  | [] => fun path => bool_decide (path = [])
  | p :: pattern' =>
      if bool_decide (p = "**") then
        fix skip (path : list string) : bool :=
          _glob_matches pattern' path || match path with [] => false | _ :: path' => skip path' end
      else
        fun path => match path with [] => false | name :: path' => fnmatchcase name p && _glob_matches pattern' path' end
  end.

Definition wildcard (s : string) : bool := str_any (one_of "*?[") s.
(** The nonempty prefixes of a path, [path_parts[:length]]. *)
Definition prefixes (path : list string) : list (list string) := (fun n => take n path) <$> seq 1 (length path).
Definition any_prefix (pattern path : list string) : bool := existsb (_glob_matches pattern) (prefixes path).

Definition _rule_matches (path_parts pattern : list string) : bool :=
  match pattern with
  | [p; name] => if bool_decide (p = "**") && negb (wildcard name) then bool_decide (name ∈ path_parts) else any_prefix pattern path_parts
  | [p] => if bool_decide (p ≠ "**") then existsb (fun part => _glob_matches pattern [part]) path_parts else any_prefix pattern path_parts
  | _ => any_prefix pattern path_parts
  end.

(** ** Ignore rules *)
Fixpoint user_rules (lines : list string) (patterns : list (list string)) : result (list (list string)) :=
  match lines with
  | [] => Ok patterns
  | line :: lines =>
      let rule := py_strip is_space line in
      if bool_decide (rule = "") || startswith "#" rule then user_rules lines patterns
      else
        raise_if (startswith "!" rule) (EValue "workspace ignore rules cannot reinclude paths") ;;
        raise_if (_MAX_RULES <=? length patterns)%nat (EValue "workspace ignore file has too many rules") ;;
        pattern ← _parts (PStr rule) "workspace ignore rule";
        user_rules lines (patterns ++ [pattern])
  end.
(** [contents] is what [_read_ignore] decoded. *)
Definition _user_patterns (contents : option string) : result (list (list string)) :=
  match contents with None => Ok [] | Some text => user_rules (py_split "010" text) [] end.

Definition _normalized_relative (value : string) : option (list string) :=
  if bool_decide (value = "") || startswith "/" value || has_char "\" value then None
  else
    let parts := py_split "/" value in
    if existsb (fun part => bool_decide (part ∈ [""; "."; ".."])) parts then None else Some parts.

(** ** The policy *)
Record CapturePolicy := {
  policy_sha256 : string;
  patterns : list (list string);
  active_runtime_relative : option string;
  capture_mode : string;
}.

Fixpoint index_of (name : string) (parts : list string) : nat :=
  match parts with [] => 0 | p :: parts => if bool_decide (p = name) then 0 else S (index_of name parts) end.

(** [if self.active_runtime_relative] *)
Definition runtime_of (policy : CapturePolicy) : option (list string) :=
  match active_runtime_relative policy with
  | Some r => if bool_decide (r = "") then None else Some (py_split "/" r)
  | None => None
  end.
(** A path without Git storage. *)
Definition excluded_plain (policy : CapturePolicy) (parts : list string) : bool :=
  match runtime_of policy with Some runtime => bool_decide (take (length runtime) parts = runtime) | None => false end
  || existsb (_rule_matches parts) (patterns policy).

(** The call for the directory of [.git] is on a path without Git storage. *)
Definition is_excluded (policy : CapturePolicy) (relative_path : string) : bool :=
  match _normalized_relative relative_path with
  | None => false
  | Some parts =>
      if bool_decide (".git" ∈ parts) then
        if bool_decide (capture_mode policy = "source-only") then true
        else
          let index := index_of ".git" parts in
          negb (bool_decide (index = 0)) &&
          match _normalized_relative (py_join "/" (take index parts)) with
          | None => false
          | Some above => excluded_plain policy above
          end
      else excluded_plain policy parts
  end.

(** ** Patterns for restic *)
Definition _restic_pattern (pattern : list string) : string :=
  let rendered := py_join "/" pattern in
  match pattern with [p] => if bool_decide (p ≠ "**") then "**/" +:+ rendered else rendered | _ => rendered end.
Definition _restic_patterns (pattern : list string) : list string :=
  let rendered := _restic_pattern pattern in
  rendered ::
  (if bool_decide (last pattern = Some "**") then
     let base := py_join "/" (removelast pattern) in if bool_decide (base = "") then [] else [base]
   else [rendered +:+ "/**"]).

(** [tuple(dict.fromkeys(values))] *)
Fixpoint fromkeys (seen values : list string) : list string :=
  match values with
  | [] => []
  | v :: values => if bool_decide (v ∈ seen) then fromkeys seen values else v :: fromkeys (v :: seen) values
  end.
Definition restic_excludes (policy : CapturePolicy) : list string :=
  fromkeys []
    ((patterns policy ≫= _restic_patterns)
     ++ (if bool_decide (capture_mode policy = "source-only") then ["**/.git"; "**/.git/**"] else [])
     ++ match active_runtime_relative policy with
        | Some r => if bool_decide (r = "") then [] else [r; r +:+ "/**"]
        | None => []
        end).

(** *** The excluded paths of a workspace, for restic *)

(** What [os.walk] lists of a directory.  A directory it does not enter, as a symbolic
    link, is listed as empty. *)
Inductive tree : Type := Tree (directories : list (string * tree)) (files : list string).

Definition absolute (root relative : string) : string := (if bool_decide (root = "/") then root else root +:+ "/") +:+ relative.
Definition line_break (path : string) : bool := has_char "010" path || has_char "013" path.
Definition unsafe_exclusion : exn := EValue "workspace exclusion contains an unsafe path".
Definition literal (path : string) : string := of_chars (chars path ≫= fun c => if one_of "*?[]\" c then ["\"%char; c] else [c]).

(** The body of the loop for one name; [root] is the resolved workspace. *)
Definition excluded_value (policy : CapturePolicy) (root relative : string) : result (list string) :=
  if is_excluded policy relative then
    raise_if (line_break relative) unsafe_exclusion ;;
    raise_if (line_break (absolute root relative)) unsafe_exclusion ;;
    Ok [literal (absolute root relative)]
  else Ok [].

(** [parent] has the components of the directory below the workspace. *)
Fixpoint walk_excludes (policy : CapturePolicy) (root : string) (parent : list string) (t : tree) : result (list string) :=
  match t with
  | Tree directories files =>
      let relative := fun name => py_join "/" (parent ++ [name]) in
      here ← map_result (fun name => excluded_value policy root (relative name)) (directories.*1 ++ files);
      below ← map_result
        (fun '(name, t) => if is_excluded policy (relative name) then Ok [] else walk_excludes policy root (parent ++ [name]) t) directories;
      Ok (concat here ++ concat below)
  end.
Definition resolved_restic_excludes (policy : CapturePolicy) (root : string) (t : tree) : result (list string) :=
  merge_sort String.le <$> walk_excludes policy root [] t.

(** ** Loading *)
Section load.
Context `{PyRuntime}.

(** [_read_defaults] after the JSON was read *)
Definition check_defaults (body : pyobj) : result (list pyobj) :=
  match body with
  | PDict d =>
      raise_if (negb (keys_are ["version"; "exclude"] d) || negb (py_eq (get_or_none "version" d) (PInt 1)))
        (EValue "unsupported workspace capture defaults") ;;
      match get_or_none "exclude" d with
      | PList ((_ :: _) as l) => Ok l
      | _ => Raise (EValue "workspace capture defaults are invalid")
      end
  | _ => Raise (EValue "unsupported workspace capture defaults")
  end.

Definition MODE_DIRECTIVE : string := "# josh-room capture-mode:".
Definition directives (text : string) : list string :=
  filter (fun line => startswith MODE_DIRECTIVE line = true) (py_strip is_space <$> py_splitlines text).
Definition mode_of (text : string) : result string :=
  match directives text with
  | [] => Ok "full-repository"
  | [directive] =>
      let mode := py_strip is_space (default "" (py_partition ":" directive).2) in
      raise_if (bool_decide (mode ∉ ["full-repository"; "source-only"])) (EValue "unsupported workspace capture mode") ;;
      Ok mode
  | _ => Raise (EValue "workspace capture mode must be specified exactly once")
  end.

(** [_read_ignore]'s last check *)
Definition decode_ignore (raw : option string) : result (option string) :=
  match raw with
  | None => Ok None
  | Some raw =>
      match utf8_decode (chars raw) with
      | Some text => Ok (Some (of_chars text))
      | None => Raise (EValue "workspace ignore file must be valid UTF-8")
      end
  end.

(** [relative] has the components of the runtime below the workspace, [None] when there is
    no runtime or it is elsewhere. *)
Definition runtime_relative (relative : option (list string)) : result (option string) :=
  match relative with
  | None => Ok None
  | Some [] => Raise (EValue "active runtime root cannot be the workspace root")
  | Some parts =>
      let path := py_join "/" parts in
      raise_if (str_any (one_of "*?[]") path) (EValue "active runtime path contains unsupported glob characters") ;;
      Ok (Some path)
  end.

Definition marked (mark : string) : string := of_chars ["000"%char] +:+ mark +:+ of_chars ["000"%char].
Definition policy_digest (defaults_raw : string) (ignore_raw relative : option string) : string :=
  sha256 (defaults_raw +:+ marked (match ignore_raw with Some _ => "ignore-present" | None => "ignore-absent" end) +:+ default "" ignore_raw
          +:+ marked "active-runtime" +:+ of_chars (utf8_bytes (default "" relative))).

(** The defaults are read as [defaults_raw], which is the JSON text of [defaults]. *)
Definition load_capture_policy (defaults_raw : string) (defaults : pyobj) (ignore_raw : option string) (relative : option (list string))
    : result CapturePolicy :=
  exclude ← check_defaults defaults;
  ignore ← decode_ignore ignore_raw;
  mode ← mode_of (default "" ignore);
  default_patterns ← map_result (fun item => _parts item "workspace capture default") exclude;
  user_patterns ← _user_patterns ignore;
  runtime ← runtime_relative relative;
  Ok {| policy_sha256 := policy_digest defaults_raw ignore_raw runtime; patterns := default_patterns ++ user_patterns;
        active_runtime_relative := runtime; capture_mode := mode |}.
End load.
