(* ===== verification/WorkspacePolicyProps.v ===== *)
(** * Workspace capture policy: lemmas and properties

    A declarative reading of the glob patterns, the patterns that loading accepts, and what
    the policy excludes. *)

From S2P Require Import Prelude PyStr PyObj PyUrl PyJson LogicalJat SnapshotProps SnapshotPaths WorkspacePolicy.
From Stdlib Require Import Ascii.

(** ** Patterns, declaratively *)

(** "**" stands for any number of components, any other segment for one. *)
Inductive globs : list string -> list string -> Prop :=
| globs_nil : globs [] []
| globs_stars pattern skipped path : globs pattern path -> globs ("**" :: pattern) (skipped ++ path)
| globs_one p pattern name path : p ≠ "**" -> fnmatchcase name p = true -> globs pattern path -> globs (p :: pattern) (name :: path).

Lemma globs_stars_inv pattern path : globs ("**" :: pattern) path <-> exists skipped path', path = skipped ++ path' /\ globs pattern path'.
Proof.
  split; [|intros (skipped & path' & -> & ?); by constructor]. inversion 1; subst; [by eexists _, _ | done].
Qed.
Lemma globs_one_inv p pattern path : p ≠ "**" ->
  globs (p :: pattern) path <-> exists name path', path = name :: path' /\ fnmatchcase name p = true /\ globs pattern path'.
Proof.
  intros Hp. split; [inversion 1; subst; [done | by eexists _, _] | intros (name & path' & -> & ? & ?); by constructor].
Qed.
Lemma globs_nil_inv path : globs [] path <-> path = [].
Proof. split; [by inversion 1 | intros ->; constructor]. Qed.

Lemma glob_matches_iff pattern path : _glob_matches pattern path = true <-> globs pattern path.
Proof.
  revert path. induction pattern as [|p pattern IH]; intros path; simpl.
  - by rewrite bool_decide_eq_true, globs_nil_inv.
  - case_bool_decide as Hp.
    + subst p. rewrite globs_stars_inv. induction path as [|name path IHp]; rewrite orb_true_iff, IH.
      * split; [intros [Hg|?]; [by exists [], [] | done] | intros (skipped & path' & Ha & Hg)].
        symmetry in Ha. apply app_nil in Ha as [-> ->]. by left.
      * rewrite IHp. split.
        { intros [Hg|(skipped & path' & -> & Hg)]; [by exists [], (name :: path) | by exists (name :: skipped), path']. }
        { intros ([|x skipped] & path' & Ha & Hg); [left; by rewrite Ha | right]. injection Ha as -> ->. by exists skipped, path'. }
    + rewrite globs_one_inv by done. destruct path as [|name path]; [split; [done | by intros (? & ? & ? & _)] |].
      rewrite andb_true_iff, IH. split; [intros [? ?]; by exists name, path | by intros (? & ? & [= <- <-] & ? & ?)].
Qed.

Lemma globs_app p q path : globs (p ++ q) path <-> exists u v, path = u ++ v /\ globs p u /\ globs q v.
Proof.
  revert path. induction p as [|x p IH]; intros path; simpl.
  - split; [intros Hg; exists [], path; split; [done |]; by split; [constructor |] | by intros (u & v & -> & ->%globs_nil_inv & Hg)].
  - destruct (base.decide (x = "**")) as [->|Hx].
    + rewrite globs_stars_inv. setoid_rewrite globs_stars_inv. setoid_rewrite IH. split.
      * intros (w & t & -> & u & v & -> & Hu & Hv). exists (w ++ u), v. split; [by rewrite app_assoc |]. split; [by exists w, u | done].
      * intros (u & v & -> & (w & t & -> & Ht) & Hv). exists w, (t ++ v). split; [by rewrite app_assoc |]. by exists t, v.
    + rewrite globs_one_inv by done. setoid_rewrite IH. split.
      * intros (n & t & -> & Hn & u & v & -> & Hu & Hv). exists (n :: u), v. split; [done |]. split; [by constructor | done].
      * intros (u & v & -> & Hu & Hv). apply globs_one_inv in Hu as (n & t & -> & Hn & Ht); [|done].
        exists n, (t ++ v). split; [done |]. split; [done |]. by exists t, v.
Qed.
Lemma globs_all path : globs ["**"] path.
Proof. rewrite <- (app_nil_r path). apply globs_stars, globs_nil. Qed.
Lemma globs_below pattern path : globs (pattern ++ ["**"]) path <-> exists u v, path = u ++ v /\ globs pattern u.
Proof.
  rewrite globs_app. split; [intros (u & v & -> & Hu & _); by exists u, v |].
  intros (u & v & -> & Hu). exists u, v. split; [done |]. split; [done | apply globs_all].
Qed.

(** *** Segments without wildcards *)
Lemma literal_re l s : existsb (one_of "*?[") l = false -> lang (glob_re l) s <-> s = l.
Proof.
  revert s. induction l as [|c l IH]; intros s; cbn [existsb glob_re]; [by rewrite lang_eps_inv |].
  intros [Hc Hl]%orb_false_elim. rewrite lang_cat_inv. setoid_rewrite (IH _ Hl).
  assert (Ascii.eqb c "*" = false /\ Ascii.eqb c "?" = false) as [-> ->].
  { unfold one_of in Hc. apply bool_decide_eq_false in Hc. split; apply Ascii.eqb_neq; intros ->; apply Hc; set_solver. }
  unfold chr. setoid_rewrite lang_cls_inv. setoid_rewrite bool_decide_eq_true. split.
  - by intros (? & ? & -> & (? & -> & ->) & ->).
  - intros ->. exists [c], l. eauto.
Qed.
Lemma fnmatch_literal name p : wildcard p = false -> fnmatchcase name p = true <-> name = p.
Proof.
  intros Hp. unfold fnmatchcase. rewrite fullmatch_lang, (literal_re _ _ Hp). split; [apply chars_ext | by intros ->].
Qed.
Lemma wildcard_stars p : wildcard p = false -> p ≠ "**".
Proof. by intros Hw ->. Qed.

(** ** Rules *)

(** The pattern a rule stands for: a single segment may be anywhere. *)
Definition anchored (pattern : list string) : list string :=
  match pattern with [p] => if bool_decide (p ≠ "**") then ["**"; p] else pattern | _ => pattern end.

(** A pattern covers a path when it globs a nonempty prefix of it. *)
Definition covers (pattern path : list string) : Prop := exists q r, path = q ++ r /\ q ≠ [] /\ globs pattern q.

Lemma covers_app pattern path below : covers pattern path -> covers pattern (path ++ below).
Proof. intros (q & r & -> & Hq & Hg). exists q, (r ++ below). by rewrite app_assoc. Qed.

Lemma prefixes_elem q path : q ∈ prefixes path <-> q ≠ [] /\ q `prefix_of` path.
Proof.
  unfold prefixes. rewrite list_elem_of_fmap. setoid_rewrite elem_of_seq. split.
  - intros (n & -> & Hn). split; [| apply prefix_take]. destruct path, n; simpl in *; try lia; done.
  - intros [Hq [r ->]]. exists (length q). rewrite take_app_length, length_app. split; [done |]. destruct q; simpl; [done | lia].
Qed.
Lemma any_prefix_iff pattern path : any_prefix pattern path = true <-> covers pattern path.
Proof.
  unfold any_prefix, covers. rewrite existsb_elem. setoid_rewrite prefixes_elem.
  setoid_rewrite glob_matches_iff. split; [intros (q & (? & r & ->) & ?); by exists q, r | intros (q & r & -> & ? & ?); exists q].
  split; [split; [done | by exists r] | done].
Qed.
Lemma covers_anywhere p path : p ≠ "**" -> covers ["**"; p] path <-> exists name, name ∈ path /\ fnmatchcase name p = true.
Proof.
  intros Hp. unfold covers. split.
  - intros (q & r & -> & _ & (w & t & -> & (name & t' & -> & Hn & ->%globs_nil_inv)%globs_one_inv)%globs_stars_inv); [|done].
    exists name. split; [set_solver | done].
  - intros (name & (u & v & ->)%list_elem_of_split & Hn). exists (u ++ [name]), v. rewrite <- app_assoc. split; [done |].
    split; [by destruct u |]. apply globs_stars. constructor; [done | done | constructor].
Qed.

Lemma rule_matches_iff path pattern : _rule_matches path pattern = true <-> covers (anchored pattern) path.
Proof.
  destruct pattern as [|p [|name [|x pattern]]]; simpl; try apply any_prefix_iff.
  - case_bool_decide as Hp; [|apply any_prefix_iff]. rewrite covers_anywhere, existsb_elem by done.
    setoid_rewrite (glob_matches_iff [p]).
    split; intros (s & ? & Hg); exists s; (split; [done |]).
    + by apply globs_one_inv in Hg as (? & ? & [= -> ->] & ? & _).
    + constructor; [done | done | constructor].
  - case_bool_decide as Hp; [subst p | apply any_prefix_iff]. destruct (wildcard name) eqn:Hw; [apply any_prefix_iff |].
    cbn [andb negb]. rewrite covers_anywhere, bool_decide_eq_true by by apply wildcard_stars. setoid_rewrite fnmatch_literal; [|done].
    split; [intros ?; by exists name | by intros (? & ? & ->)].
Qed.

(** ** Relative paths *)
Definition plain (s : string) : Prop := component s /\ s ≠ "" /\ s ≠ "." /\ s ≠ ".." /\ "\"%char ∉ chars s.

Lemma plain_proper s : plain s -> proper s.
Proof. unfold plain, proper. tauto. Qed.
#[export] Hint Resolve plain_proper : room.
Lemma plain_component s : plain s -> component s.
Proof. by intros [? _]. Qed.
#[export] Hint Resolve plain_component : room.

Lemma in_join c path : c ≠ "/"%char -> c ∈ chars (py_join "/" path) <-> exists s, s ∈ path /\ c ∈ chars s.
Proof.
  intros Hc. induction path as [|s path IH]; [simpl; set_solver |].
  destruct path as [|t path]; [simpl; set_solver |]. rewrite chars_join, elem_of_app, elem_of_cons, IH. set_solver.
Qed.
Lemma startswith_slash s : startswith "/" s = true <-> exists l, chars s = "/"%char :: l.
Proof.
  destruct s as [|c s]; cbn [startswith chars]; [split; [done | by intros []] |].
  rewrite andb_true_iff, bool_decide_eq_true. split; [intros [<- _]; eauto | by intros (l & [= -> _])].
Qed.
Lemma join_not_rooted path : path ≠ [] -> Forall proper path -> startswith "/" (py_join "/" path) = false.
Proof.
  intros Hne Hp. destruct (startswith _ _) eqn:Hs; [|done]. apply startswith_slash in Hs as [l Hs].
  destruct path as [|s path]; [done |]. apply Forall_cons in Hp as [(Hc & He & _) _]. unfold component in Hc.
  assert (exists c cs, chars s = c :: cs) as (c & cs & Hcs) by (destruct s; [done | eauto]).
  destruct path; [simpl in Hs | rewrite chars_join in Hs]; rewrite Hcs in Hs, Hc; injection Hs as -> _; set_solver.
Qed.
Lemma not_has_char c s : has_char c s = false <-> c ∉ chars s.
Proof. unfold has_char. by rewrite bool_decide_eq_false. Qed.

Lemma normalized_iff value parts : _normalized_relative value = Some parts <-> value = py_join "/" parts /\ parts ≠ [] /\ Forall plain parts.
Proof.
  unfold _normalized_relative. split.
  - destruct (_ || _ || _) eqn:Hb; [done |]. rewrite !orb_false_iff, bool_decide_eq_false, not_has_char in Hb. destruct Hb as ((Hne & _) & Hbs).
    destruct (existsb _ _) eqn:Hd; [done |]. intros [= <-]. rewrite join_split. split; [done |]. split; [apply split_nonempty |].
    apply Forall_forall. intros s Hs. pose proof (proj1 (Forall_forall _ _) (split_components value) s Hs) as Hc.
    rewrite existsb_none in Hd. specialize (Hd s Hs). apply bool_decide_eq_false in Hd.
    split; [done |]. do 3 (split; [intros ->; apply Hd; set_solver |]). intros Hi. apply Hbs. rewrite <- (join_split value). apply in_join; [done | by exists s].
  - intros (-> & Hne & Hp). assert (Forall proper parts) as Hp' by (eapply Forall_impl; eauto with room).
    assert (Forall component parts) as Hc by (eapply Forall_impl; [exact Hp | eauto with room]).
    rewrite bool_decide_eq_false_2 by by apply join_nonempty. rewrite join_not_rooted by done.
    rewrite (proj2 (not_has_char _ _)); [simpl | intros (s & Hs & Hi)%in_join; [|done]; rewrite Forall_forall in Hp; by apply (Hp s Hs)].
    rewrite split_join by done. destruct (existsb _ _) eqn:Hd; [|done]. apply existsb_elem in Hd as (s & Hs & Hb%bool_decide_eq_true).
    rewrite Forall_forall in Hp. destruct (Hp s Hs) as (_ & ? & ? & ? & _). set_solver.
Qed.

(** ** What the policy excludes *)
Lemma excluded_plain_app policy path below : excluded_plain policy path = true -> excluded_plain policy (path ++ below) = true.
Proof.
  unfold excluded_plain. rewrite !orb_true_iff. intros [Hr|Hm]; [left | right].
  - destruct (runtime_of policy) as [r|]; [|done]. apply bool_decide_eq_true in Hr. apply bool_decide_eq_true.
    rewrite <- Hr at 2. apply take_app_le. rewrite <- Hr, length_take. lia.
  - rewrite existsb_elem in *. destruct Hm as (p & Hp & Hm). exists p. split; [done |].
    apply rule_matches_iff. by apply covers_app, rule_matches_iff.
Qed.

Lemma index_of_split name parts : name ∈ parts -> exists below, parts = take (index_of name parts) parts ++ name :: below /\ name ∉ take (index_of name parts) parts.
Proof.
  induction parts as [|p parts IH]; [set_solver |]. simpl. case_bool_decide as Hp; [subst; intros _; exists parts; split; [done | set_solver] |].
  intros [->|Hin]%elem_of_cons; [done |]. destruct (IH Hin) as (below & Heq & Hn). exists below. simpl. split; [by f_equal | set_solver].
Qed.
Lemma index_of_app name above below : name ∉ above -> index_of name (above ++ name :: below) = length above.
Proof.
  induction above as [|p above IH]; simpl; intros Hn; [by rewrite bool_decide_true |].
  rewrite bool_decide_false by set_solver. rewrite IH; [done | set_solver].
Qed.

(** The decision by the components of the path. *)
Definition excluded_parts (policy : CapturePolicy) (parts : list string) : bool :=
  if bool_decide (".git" ∈ parts) then
    bool_decide (capture_mode policy = "source-only") ||
    let above := take (index_of ".git" parts) parts in negb (bool_decide (above = [])) && excluded_plain policy above
  else excluded_plain policy parts.

Lemma is_excluded_parts policy parts : parts ≠ [] -> Forall plain parts ->
  is_excluded policy (py_join "/" parts) = excluded_parts policy parts.
Proof.
  intros Hne Hp. unfold is_excluded, excluded_parts. rewrite (proj2 (normalized_iff _ _)) by eauto.
  case_bool_decide as Hg; [|done]. case_bool_decide; [done |]. cbn [orb].
  destruct (index_of_split _ _ Hg) as (below & Heq & _). set (i := index_of ".git" parts) in *.
  assert (i = 0 <-> take i parts = []) as Hi by (destruct i, parts; simpl; naive_solver).
  do 2 case_bool_decide; simpl; try tauto. rewrite (proj2 (normalized_iff _ (take i parts))); [done |].
  split; [done |]. split; [done |]. by apply Forall_take.
Qed.
Lemma is_excluded_not_plain policy value : _normalized_relative value = None -> is_excluded policy value = false.
Proof. unfold is_excluded. by intros ->. Qed.

Lemma excluded_parts_app policy path below : path ≠ [] -> excluded_parts policy path = true -> excluded_parts policy (path ++ below) = true.
Proof.
  intros Hne. unfold excluded_parts. case_bool_decide as Hg.
  - destruct (index_of_split _ _ Hg) as (rest & Heq & Hn). set (above := take _ path) in *. rewrite Heq, <- app_assoc. cbn [app].
    rewrite (bool_decide_true (".git" ∈ _)) by (apply elem_of_app; right; left). by rewrite index_of_app, take_app_length.
  - intros He. case_bool_decide as Hb; [|by apply excluded_plain_app].
    assert (".git" ∈ below) as Hin by by apply elem_of_app in Hb as [?|?]. destruct (index_of_split _ _ Hin) as (rest & Heq & Hn). set (above := take _ below) in *.
    rewrite Heq, (app_assoc path), index_of_app, take_app_length by by rewrite elem_of_app; intros [?|?].
    rewrite (bool_decide_false (_ = [])) by by destruct path. rewrite excluded_plain_app by done. by rewrite orb_true_r.
Qed.

(** ** The patterns that loading accepts *)
Definition compiled (pattern : list string) : Prop :=
  pattern ≠ [] /\ pattern ≠ ["**"] /\ Forall proper pattern.

Lemma collapse_elem previous segments s : s ∈ collapse previous segments -> s ∈ segments.
Proof.
  revert previous. induction segments as [|x segments IH]; intros previous; simpl; [done |].
  case_bool_decide; [intros ?%IH; by right |]. intros [->|?%IH]%elem_of_cons; [left | by right].
Qed.
Lemma collapse_nonempty segments : segments ≠ [] -> collapse None segments ≠ [].
Proof. destruct segments as [|s segments]; [done |]. intros _. simpl. by rewrite bool_decide_false by naive_solver. Qed.

Lemma parts_compiled pattern rule l : _parts pattern rule = Ok l -> compiled l.
Proof.
  destruct pattern as [| | | |s| |]; try done. unfold _parts, raise_if. intros H. inv_ok.
  rename Heqb1 into Hd, Heqb into Hw. apply bool_decide_eq_false in Hw. rewrite existsb_none in Hd.
  split; [apply collapse_nonempty, split_nonempty |]. split; [done |]. apply Forall_forall. intros x Hx. split.
  - apply collapse_elem in Hx. by apply (proj1 (Forall_forall _ _) (split_components s)).
  - specialize (Hd _ Hx). apply bool_decide_eq_false in Hd. split; intros ->; apply Hd; set_solver.
Qed.
Lemma user_rules_compiled lines patterns l : Forall compiled patterns -> user_rules lines patterns = Ok l -> Forall compiled l.
Proof.
  revert patterns. induction lines as [|line lines IH]; intros patterns Hp; cbn [user_rules]; [by intros [= <-] |].
  destruct (_ || _); [by apply IH |]. intros Hu. inv_result. eapply IH, Hu. apply Forall_app. split; [done |]. constructor; [|constructor].
  by eapply parts_compiled.
Qed.

Lemma load_compiled `{PyRuntime} raw defaults ignore relative policy :
  load_capture_policy raw defaults ignore relative = Ok policy ->
  Forall compiled (patterns policy) /\ runtime_relative relative = Ok (active_runtime_relative policy).
Proof.
  unfold load_capture_policy. intros Hl. inv_result. simpl. split; [|done]. apply Forall_app. split.
  - match goal with H : map_result _ _ = Ok _ |- _ => apply map_result_Ok in H as Hd end.
    clear -Hd. induction Hd; constructor; eauto using parts_compiled.
  - destruct x0 as [text|]; simpl in *; [eapply user_rules_compiled; [constructor |]; eassumption | by simplify_eq].
Qed.

(** ** The patterns given to restic *)
Lemma fromkeys_elem v seen values : v ∈ fromkeys seen values <-> v ∈ values /\ v ∉ seen.
Proof.
  revert seen. induction values as [|x values IH]; intros seen; simpl; [set_solver |].
  case_bool_decide; rewrite ?elem_of_cons, IH, ?not_elem_of_cons; [|destruct (base.decide (v = x))]; naive_solver.
Qed.

(** A text covers a path as a glob of it. *)
Definition text_globs (path : list string) (pattern : string) : Prop := globs (py_split "/" pattern) path.

Lemma join_two u v : u ≠ [] -> py_join "/" u +:+ "/" +:+ v = py_join "/" (u ++ [v]).
Proof. intros ?. by rewrite join_snoc. Qed.
Lemma restic_pattern_join l : _restic_pattern l = py_join "/" (anchored l).
Proof. destruct l as [|p [|q l]]; try done. simpl. by case_bool_decide. Qed.
Lemma proper_components l : Forall proper l -> Forall component l.
Proof. intros Hf. eapply Forall_impl; [exact Hf | by intros s [? _]]. Qed.
Lemma compiled_components l : compiled l -> Forall component l.
Proof. intros (_ & _ & Hf). by apply proper_components. Qed.
Lemma stars_proper : proper "**".
Proof. split; [|done]. intros Hs. repeat (apply elem_of_cons in Hs as [Hs|Hs]; [done |]). by apply not_elem_of_nil in Hs. Qed.
Lemma anchored_compiled l : compiled l -> compiled (anchored l).
Proof.
  intros Hc. pose proof Hc as (Hn & Hs & Hf). destruct l as [|p [|q l]]; simpl; try done. case_bool_decide; [|done].
  split; [done |]. split; [done |]. constructor; [apply stars_proper | done].
Qed.

Lemma globs_last_empty l p : p ≠ "**" -> ~ globs (l ++ [p]) [].
Proof. by intros Hp (u & v & [-> ->]%eq_sym%app_nil & _ & (? & ? & ? & _)%globs_one_inv)%globs_app. Qed.
Lemma last_anchored l : last (anchored l) = last l.
Proof. destruct l as [|p [|q l]]; try done. simpl. by case_bool_decide. Qed.

Lemma restic_patterns_cover l path : compiled l -> path ≠ [] ->
  Exists (text_globs path) (_restic_patterns l) <-> covers (anchored l) path.
Proof.
  intros Hc Hp. pose proof (anchored_compiled l Hc) as Ha. pose proof (compiled_components _ Ha) as Hac.
  assert (anchored l ≠ []) as Hne by by destruct Ha. unfold _restic_patterns. rewrite restic_pattern_join, Exists_cons.
  unfold text_globs at 1. rewrite split_join by done. destruct (last l) as [p|] eqn:Hl; [|by apply last_None in Hl as ->; destruct Hc].
  case_bool_decide as Hs.
  - injection Hs as ->. apply last_Some in Hl as [m ->]. destruct Hc as (_ & Hs & Hf).
    assert (m ≠ []) as Hm by by intros ->. assert (anchored (m ++ ["**"]) = m ++ ["**"]) as -> by by destruct m as [|? [|? ?]].
    rewrite removelast_last. apply Forall_app in Hf as [Hf _].
    pose proof (proper_components m Hf) as Hmc. rewrite bool_decide_false by by apply join_nonempty.
    rewrite Exists_cons, Exists_nil. unfold text_globs. rewrite split_join by done. split.
    + intros [Hg|[Hg|[]]]; exists path, []; rewrite app_nil_r; (split; [done |]; split; [done |]); [done |].
      apply globs_below. exists path, []. by rewrite app_nil_r.
    + intros (q & r & -> & _ & (u & v & -> & Hu)%globs_below). left. apply globs_below. exists u, (v ++ r). by rewrite app_assoc.
  - rewrite Exists_cons, Exists_nil. change "/**" with ("/" +:+ "**"). rewrite join_two by done. unfold text_globs.
    rewrite split_join; [| by destruct (anchored l) | apply Forall_app; split; [done | constructor; [apply stars_proper | constructor]]].
    rewrite globs_below. split.
    + intros [Hg|[(u & v & -> & Hu)|[]]]; [exists path, []; by rewrite app_nil_r |]. exists u, v. split; [done |]. split; [|done].
      intros ->. rewrite <- last_anchored in Hl. apply last_Some in Hl as [m Hm]. rewrite Hm in Hu. apply globs_last_empty in Hu; [done | by intros ->].
    + intros (q & r & -> & _ & Hg). right. left. by exists q, r.
Qed.

(** *** The active runtime *)
Lemma globs_literal l path : Forall (fun p => wildcard p = false) l -> globs l path <-> path = l.
Proof.
  intros Hl. revert path. induction Hl as [|p l Hp _ IH]; intros path; [apply globs_nil_inv |].
  rewrite globs_one_inv by by apply wildcard_stars. setoid_rewrite (fnmatch_literal _ _ Hp). setoid_rewrite IH.
  split; [by intros (? & ? & -> & -> & ->) | intros ->; eauto].
Qed.

Lemma literal_join parts : Forall component parts -> str_any (one_of "*?[]") (py_join "/" parts) = false -> Forall (fun p => wildcard p = false) parts.
Proof.
  intros Hc Hs. apply Forall_forall. intros p Hp. apply existsb_none. intros c Hi. unfold str_any in Hs. rewrite existsb_none in Hs.
  assert (c ≠ "/"%char) as Hne by (intros ->; rewrite Forall_forall in Hc; by apply (Hc p Hp)).
  specialize (Hs c (proj2 (in_join c parts Hne) (ex_intro _ p (conj Hp Hi)))). unfold one_of in *.
  apply bool_decide_eq_false in Hs. apply bool_decide_eq_false. intros Hi'. apply Hs. set_solver.
Qed.

Lemma take_whole {A} (l path : list A) : take (length l) path = l <-> exists below, path = l ++ below.
Proof.
  split; [intros Ht; exists (drop (length l) path); by rewrite <- Ht at 1; rewrite take_drop | intros [below ->]; apply take_app_length].
Qed.

(** The patterns of [restic_excludes] for the runtime. *)
Definition runtime_patterns (relative : option string) : list string :=
  match relative with Some r => if bool_decide (r = "") then [] else [r; r +:+ "/**"] | None => [] end.

Lemma runtime_covered parts policy path : (forall runtime, parts = Some runtime -> Forall proper runtime) ->
  runtime_relative parts = Ok (active_runtime_relative policy) ->
  Exists (text_globs path) (runtime_patterns (active_runtime_relative policy))
  <-> match runtime_of policy with Some runtime => bool_decide (take (length runtime) path = runtime) | None => false end = true.
Proof.
  unfold runtime_of. destruct parts as [[|s parts]|]; intros Hp Hr; [done | | by injection Hr as <-; split; [intros ?%Exists_nil |]].
  specialize (Hp _ eq_refl). remember (s :: parts) as l eqn:Hl. assert (l ≠ []) as Hne by by subst. pose proof (proper_components l Hp) as Hc.
  assert (runtime_relative (Some l) = (raise_if (str_any (one_of "*?[]") (py_join "/" l)) (EValue "active runtime path contains unsupported glob characters") ;; Ok (Some (py_join "/" l)))) as Hrun by by subst.
  rewrite Hrun in Hr. clear Hrun Hl. destruct (str_any _ _) eqn:Hs; [done |]. injection Hr as <-. pose proof (literal_join l Hc Hs) as Hl.
  unfold runtime_patterns. rewrite bool_decide_false by by apply join_nonempty. rewrite split_join, bool_decide_eq_true, take_whole by done.
  change "/**" with ("/" +:+ "**"). rewrite join_two by done. rewrite !Exists_cons, Exists_nil. unfold text_globs. rewrite !split_join; try done.
  - rewrite globs_below, globs_literal by done. setoid_rewrite globs_literal; [|done]. split.
    + intros [->|[(? & v & -> & ->)|[]]]; [exists []; by rewrite app_nil_r | by exists v].
    + intros [v ->]. right. left. eauto.
  - by destruct l.
  - apply Forall_app. split; [done | constructor; [apply stars_proper | constructor]].
Qed.

Lemma Exists_bind {A B} (P : B -> Prop) (f : A -> list B) l : Exists P (l ≫= f) <-> Exists (fun x => Exists P (f x)) l.
Proof. rewrite !Exists_exists. setoid_rewrite Exists_exists. setoid_rewrite list_elem_of_bind. naive_solver. Qed.
Lemma Exists_fromkeys (P : string -> Prop) values : Exists P (fromkeys [] values) <-> Exists P values.
Proof. rewrite !Exists_exists. setoid_rewrite fromkeys_elem. set_solver. Qed.

Lemma git_covered path : Exists (text_globs path) ["**/.git"; "**/.git/**"] <-> ".git" ∈ path.
Proof.
  rewrite !Exists_cons, Exists_nil. unfold text_globs. change (py_split "/" "**/.git") with ["**"; ".git"].
  change (py_split "/" "**/.git/**") with (["**"; ".git"] ++ ["**"]). rewrite globs_below.
  assert (forall u, globs ["**"; ".git"] u <-> exists w, u = w ++ [".git"]) as Hg.
  { intros u. rewrite globs_stars_inv. split.
    - intros (w & t & -> & (n & t' & -> & Hn & ->%globs_nil_inv)%globs_one_inv); [|done]. apply fnmatch_literal in Hn as ->; [by exists w | done].
    - intros [w ->]. exists w, [".git"]. split; [done |]. by apply globs_literal; repeat constructor. }
  setoid_rewrite Hg. split.
  - intros [[w ->]|[(? & v & -> & w & ->)|[]]]; set_solver.
  - intros (u & v & ->)%list_elem_of_split. right. left. exists (u ++ [".git"]), v. rewrite <- app_assoc. eauto.
Qed.

Lemma restic_covers `{PyRuntime} raw defaults ignore relative policy path :
  load_capture_policy raw defaults ignore relative = Ok policy -> (forall runtime, relative = Some runtime -> Forall proper runtime) -> path ≠ [] ->
  Exists (text_globs path) (restic_excludes policy)
  <-> excluded_plain policy path = true \/ (capture_mode policy = "source-only" /\ ".git" ∈ path).
Proof.
  intros [Hc Hr]%load_compiled Hp Hne. unfold restic_excludes. rewrite Exists_fromkeys, !Exists_app, Exists_bind.
  fold (runtime_patterns (active_runtime_relative policy)). rewrite (runtime_covered relative) by done.
  unfold excluded_plain. rewrite orb_true_iff, existsb_elem.
  assert (Exists (fun l => Exists (text_globs path) (_restic_patterns l)) (patterns policy) <-> exists l, l ∈ patterns policy /\ _rule_matches path l = true) as ->.
  { rewrite Exists_exists. rewrite Forall_forall in Hc. split; intros (l & Hl & Hm); exists l; (split; [done |]).
    - apply rule_matches_iff, restic_patterns_cover; auto.
    - apply restic_patterns_cover, rule_matches_iff; auto. }
  case_bool_decide; [rewrite git_covered | rewrite Exists_nil]; tauto.
Qed.

(** ** The excluded paths that the walk finds *)
Lemma tree_induction (P : tree -> Prop) : (forall d f, Forall (fun e => P e.2) d -> P (Tree d f)) -> forall t, P t.
Proof. intros Hstep. fix IH 1. intros [d f]. apply Hstep. induction d as [|[name t] d IHd]; constructor; [apply IH | done]. Qed.

(** The paths below the directory. *)
Inductive in_tree : tree -> list string -> Prop :=
| in_directories d f name t : (name, t) ∈ d -> in_tree (Tree d f) [name]
| in_files d f name : name ∈ f -> in_tree (Tree d f) [name]
| in_below d f name t q : (name, t) ∈ d -> in_tree t q -> in_tree (Tree d f) (name :: q).

Lemma in_tree_nonempty t q : in_tree t q -> q ≠ [].
Proof. by inversion 1. Qed.
Lemma in_tree_one d f name : in_tree (Tree d f) [name] <-> name ∈ d.*1 ++ f.
Proof.
  rewrite elem_of_app, list_elem_of_fmap. split.
  - inversion 1; subst; [by left; eexists (_, _) | by right | by destruct (in_tree_nonempty _ _ H5)].
  - intros [([? t] & -> & ?)|?]; [by eapply in_directories | by apply in_files].
Qed.
Lemma in_tree_prefix t u w : in_tree t (u ++ w) -> u ≠ [] -> in_tree t u.
Proof.
  revert t. induction u as [|name u IH]; intros t Hq Hne; [done |]. destruct u as [|x u].
  - inversion Hq; subst; eauto using in_tree.
  - inversion Hq; subst. eapply in_below; [done |]. by apply IH.
Qed.

Lemma map_result_raise {A B} (f : A -> result B) l e : map_result f l = Raise e -> exists x, x ∈ l /\ f x = Raise e.
Proof.
  induction l as [|x l IH]; simpl; [done |]. destruct (f x) as [y|e'] eqn:Hx; simpl.
  - destruct (map_result f l); simpl; [done | intros [= ->]]. destruct (IH eq_refl) as (z & ? & ?). exists z. split; [by right | done].
  - intros [= ->]. exists x. split; [left | done].
Qed.
Lemma map_result_concat {A B} (f : A -> result (list B)) l ys v :
  map_result f l = Ok ys -> v ∈ concat ys <-> exists x y, x ∈ l /\ f x = Ok y /\ v ∈ y.
Proof.
  rewrite map_result_Ok. induction 1 as [|x y l ys Hx _ IH]; simpl.
  - split; [intros []%not_elem_of_nil | by intros (? & ? & []%not_elem_of_nil & _)].
  - rewrite elem_of_app, IH. setoid_rewrite elem_of_cons. split.
    + intros [?|(z & w & ? & ? & ?)]; [exists x, y | exists z, w]; naive_solver.
    + intros (z & w & [->|?] & Hz & ?); [left; rewrite Hx in Hz; by injection Hz as -> | right; eauto].
Qed.

Lemma map_result_elem {A B} (f : A -> result B) l ys x : map_result f l = Ok ys -> x ∈ l -> exists y, f x = Ok y.
Proof. intros Hm%map_result_Ok Hx. induction Hm as [|z y l ys Hz _ IH]; [by apply not_elem_of_nil in Hx |]. apply elem_of_cons in Hx as [->|?]; eauto. Qed.

Section walked.
Context (policy : CapturePolicy) (root : string).
Let excluded (path : list string) : bool := is_excluded policy (py_join "/" path).
Definition value_of (path : list string) : string := literal (absolute root (py_join "/" path)).

(** Excluded, in no excluded directory. *)
Definition topmost (parent q : list string) : Prop :=
  excluded (parent ++ q) = true /\ forall u w, q = u ++ w -> u ≠ [] -> w ≠ [] -> excluded (parent ++ u) = false.

Lemma topmost_one parent name : topmost parent [name] <-> excluded (parent ++ [name]) = true.
Proof. split; [by intros [? _] | intros He; split; [done |]]. intros [|? [|? ?]] w; try done. by intros [= _ <-] _. Qed.
Lemma topmost_cons parent name q : q ≠ [] -> topmost parent (name :: q) <-> excluded (parent ++ [name]) = false /\ topmost (parent ++ [name]) q.
Proof.
  intros Hq. unfold topmost. setoid_rewrite <- app_assoc. cbn [app]. split.
  - intros [He Hn]. split; [by apply (Hn [name] q) |]. split; [done |]. intros u w -> Hu Hw. by apply (Hn (name :: u) w).
  - intros (Hd & He & Hn). split; [done |]. intros [|x u] w; [done |]. intros [= <- ->] _ Hw. destruct u as [|y u]; [done |]. by apply (Hn _ w).
Qed.

Lemma excluded_value_Ok relative v : excluded_value policy root relative = Ok v ->
  (is_excluded policy relative = true /\ v = [literal (absolute root relative)] /\ line_break (absolute root relative) = false)
  \/ (is_excluded policy relative = false /\ v = []).
Proof. unfold excluded_value. destruct (is_excluded _ _); intros Hv; inv_result; auto. Qed.

Lemma walk_excludes_values parent t values v : walk_excludes policy root parent t = Ok values ->
  v ∈ values <-> exists q, in_tree t q /\ topmost parent q /\ v = value_of (parent ++ q).
Proof.
  revert parent values. induction t as [d f IH] using tree_induction. intros parent values Hw.
  apply bind_Ok_inv in Hw as (here & Hh & Hw). apply bind_Ok_inv in Hw as (below & Hb & [= <-]).
  rewrite elem_of_app, !map_result_concat by eassumption. rewrite Forall_forall in IH. split.
  - intros [(name & y & Hn & Hy & Hv)|([name t] & y & Hn & Hy & Hv)].
    + apply excluded_value_Ok in Hy as [(He & -> & _)|[_ ->]]; [|by apply not_elem_of_nil in Hv]. apply list_elem_of_singleton in Hv as ->.
      exists [name]. by rewrite in_tree_one, topmost_one.
    + destruct (is_excluded _ _) eqn:He in Hy; [injection Hy as <-; by apply not_elem_of_nil in Hv |].
      apply (IH (name, t) Hn _ _ Hy) in Hv as (q & Hq & Ht & ->). exists (name :: q). rewrite topmost_cons by by eapply in_tree_nonempty.
      rewrite <- app_assoc. split; [by eapply in_below | done].
  - intros (q & Hq & Ht & ->). destruct q as [|name [|x q]]; [by apply in_tree_nonempty in Hq | left | right].
    + apply in_tree_one in Hq. apply topmost_one in Ht. destruct (map_result_elem _ _ _ _ Hh Hq) as [y Hy]. exists name, y.
      apply excluded_value_Ok in Hy as Hy'. destruct Hy' as [(_ & -> & _)|[He _]]; [|unfold excluded in Ht; congruence].
      split; [done |]. split; [done | left].
    + apply topmost_cons in Ht as [He Ht]; [|done]. inversion Hq as [| |? ? ? t ? Hn Hq']; subst.
      destruct (map_result_elem _ _ _ _ Hb Hn) as [y Hy]. exists (name, t), y. split; [done |]. split; [done |].
      unfold excluded in He. rewrite He in Hy. apply (IH (name, t) Hn _ _ Hy). exists (x :: q). by rewrite <- app_assoc.
Qed.

Lemma line_break_absolute relative : line_break relative = true -> line_break (absolute root relative) = true.
Proof.
  unfold line_break, has_char, absolute. rewrite !orb_true_iff, !bool_decide_eq_true, !chars_app, !elem_of_app. tauto.
Qed.
Lemma walk_excludes_raise parent t e : walk_excludes policy root parent t = Raise e ->
  e = unsafe_exclusion /\ exists q, in_tree t q /\ excluded (parent ++ q) = true /\ line_break (absolute root (py_join "/" (parent ++ q))) = true.
Proof.
  revert parent. induction t as [d f IH] using tree_induction. intros parent Hw. cbn [walk_excludes] in Hw. rewrite Forall_forall in IH.
  destruct (map_result _ (_ ++ _)) as [here|e'] eqn:Hh; [destruct (map_result _ d) as [below|e''] eqn:Hb; [done |] |]; injection Hw as <-.
  - apply map_result_raise in Hb as ([name t] & Hn & He). destruct (is_excluded _ _) eqn:Hx in He; [done |].
    destruct (IH (name, t) Hn _ He) as (-> & q & Hq & ?). split; [done |]. exists (name :: q). rewrite <- app_assoc in *. split; [by eapply in_below | done].
  - apply map_result_raise in Hh as (name & Hn & He). unfold excluded_value in He. destruct (is_excluded _ _) eqn:Hx in He; [|done].
    assert (e' = unsafe_exclusion /\ line_break (absolute root (py_join "/" (parent ++ [name]))) = true) as [-> Hl].
    { destruct (line_break (py_join _ _)) eqn:Hr; [apply line_break_absolute in Hr; by injection He as <- |]. simpl in He. destruct (line_break (absolute _ _)); [by injection He as <- | done]. }
    split; [done |]. exists [name]. by rewrite in_tree_one.
Qed.

(** *** Literal values *)
Lemma in_literal c s : one_of "*?[]\" c = false -> c ∈ chars (literal s) <-> c ∈ chars s.
Proof.
  intros Hc. unfold literal. rewrite chars_of_chars, list_elem_of_bind. split.
  - intros (x & Hx & Hs). destruct (one_of _ x) eqn:Hq.
    + apply elem_of_cons in Hx as [->|Hx]; [done |]. by apply list_elem_of_singleton in Hx as ->.
    + by apply list_elem_of_singleton in Hx as ->.
  - intros Hs. exists c. rewrite Hc. split; [left | done].
Qed.
Lemma line_break_literal s : line_break (literal s) = line_break s.
Proof. unfold line_break, has_char. f_equal; apply bool_decide_ext; by apply in_literal. Qed.

Lemma literal_inj s t : literal s = literal t -> s = t.
Proof.
  unfold literal. intros Hl%(f_equal chars). rewrite !chars_of_chars in Hl. apply chars_ext. revert Hl.
  generalize (chars t) as m. induction (chars s) as [|c l IH]; intros [|d m] Hl; cbn in Hl; try done.
  - by destruct (one_of _ d).
  - by destruct (one_of _ c).
  - destruct (one_of _ c) eqn:Hc, (one_of _ d) eqn:Hd; simplify_eq/=; f_equal; auto; done.
Qed.
Lemma absolute_inj a b : absolute root a = absolute root b -> a = b.
Proof. unfold absolute. intros He%(f_equal chars). apply chars_ext. rewrite !chars_app in He. by apply app_inv_head in He. Qed.
Lemma value_of_inj u v : value_of u = value_of v -> py_join "/" u = py_join "/" v.
Proof. by intros ?%literal_inj%absolute_inj. Qed.

Lemma walk_excludes_lines parent t values : walk_excludes policy root parent t = Ok values -> Forall (fun v => line_break v = false) values.
Proof.
  revert parent values. induction t as [d f IH] using tree_induction. intros parent values Hw. rewrite Forall_forall in IH.
  apply bind_Ok_inv in Hw as (here & Hh & Hw). apply bind_Ok_inv in Hw as (below & Hb & [= <-]).
  apply Forall_app. split; apply Forall_forall; intros v Hv.
  - apply (map_result_concat _ _ _ _ Hh) in Hv as (name & y & _ & Hy & Hv).
    apply excluded_value_Ok in Hy as [(_ & -> & Hl)|[_ ->]]; [|by apply not_elem_of_nil in Hv]. apply list_elem_of_singleton in Hv as ->. by rewrite line_break_literal.
  - apply (map_result_concat _ _ _ _ Hb) in Hv as ([name t] & y & Hn & Hy & Hv). destruct (is_excluded _ _); [injection Hy as <-; by apply not_elem_of_nil in Hv |].
    pose proof (IH (name, t) Hn _ _ Hy) as Hf. rewrite Forall_forall in Hf. by apply Hf.
Qed.

(** The first excluded directory on the way. *)
Lemma topmost_prefix u : u ≠ [] -> excluded u = true -> exists p w, u = p ++ w /\ p ≠ [] /\ topmost [] p.
Proof.
  induction u as [u IH] using (induction_ltof1 _ length); unfold ltof in IH. intros Hu He.
  destruct (base.decide (Exists (fun p => p ≠ u /\ excluded p = true) (prefixes u))) as [Hx|Hx].
  - apply Exists_exists in Hx as (p & [Hp [w Hw]]%prefixes_elem & Hne & Hpe).
    destruct (IH p) as (q & w' & -> & ? & ?); try done.
    { subst u. rewrite length_app. destruct w; [by rewrite app_nil_r in Hne | simpl; lia]. }
    exists q, (w' ++ w). by rewrite app_assoc.
  - exists u, []. rewrite app_nil_r. split; [done |]. split; [done |]. split; [done |]. intros p w Hp Hpn Hw. cbn [app].
    apply not_true_iff_false. intros Hpe. apply Hx, Exists_exists. exists p. rewrite prefixes_elem. split; [split; [done | by exists w] |].
    split; [|done]. intros ->. apply (f_equal length) in Hp. rewrite length_app in Hp. destruct w; [done | simpl in Hp; lia].
Qed.
End walked.
