(* ===== verification/WorkspacePolicyTheorems.v ===== *)
(** * Workspace capture policy: properties

    What an exclusion covers, and that the two ways of handing the exclusions to restic
    agree with the policy. *)

From S2P Require Import Prelude PyStr PyObj PyUrl PyJson LogicalJat LogicalJatDemo SnapshotProps SnapshotPaths WorkspacePolicy WorkspacePolicyProps.
From Stdlib Require Import Ascii.

(** ** Exclusions cover whole directories *)

(** C29: Whatever lies below an excluded path is excluded, and outside source-only mode
    everything in Git storage has the decision of the directory that holds the first
    [.git] of the path, so that a pattern never removes a part of it. *)
Theorem exclusion_descends policy path below :
  _normalized_relative below ≠ None ->
  (is_excluded policy path = true -> is_excluded policy (path +:+ "/" +:+ below) = true)
  /\ forall above rest, py_split "/" below = above ++ ".git" :: rest -> ".git" ∉ above ->
     capture_mode policy ≠ "source-only" -> is_excluded policy below = is_excluded policy (py_join "/" above).
Proof.
  intros (parts & (-> & Hne & Hp)%normalized_iff)%not_eq_None_Some. split.
  - destruct (_normalized_relative path) as [ps|] eqn:Hn; [|by rewrite is_excluded_not_plain].
    apply normalized_iff in Hn as (-> & Hps & Hpp). rewrite join_app, !is_excluded_parts by (auto using Forall_app_2; by destruct ps).
    by apply excluded_parts_app.
  - rewrite split_join by (done || (eapply Forall_impl; [exact Hp | eauto with room])). intros above rest -> Hg Hm.
    rewrite is_excluded_parts by done. unfold excluded_parts. rewrite (bool_decide_true (".git" ∈ _)) by (apply elem_of_app; right; left).
    rewrite index_of_app, take_app_length, (bool_decide_false (capture_mode _ = _)) by done. cbn [orb].
    apply Forall_app in Hp as [Ha _]. case_bool_decide as Hz; [by subst |]. rewrite is_excluded_parts by done.
    unfold excluded_parts. by rewrite bool_decide_false.
Qed.

(** ** Restic *)

(** For a loaded policy the patterns of [restic_excludes], read as globs, cover
    exactly the paths [is_excluded] excludes, except Git storage that the policy keeps. *)
Theorem restic_excludes_agree `{PyRuntime} raw defaults ignore relative policy path :
  load_capture_policy raw defaults ignore relative = Ok policy ->
  (forall runtime, relative = Some runtime -> Forall proper runtime) ->
  _normalized_relative path ≠ None ->
  capture_mode policy = "source-only" \/ ".git" ∉ py_split "/" path ->
  is_excluded policy path = true <-> Exists (text_globs (py_split "/" path)) (restic_excludes policy).
Proof.
  intros Hl Hr (parts & (-> & Hne & Hp)%normalized_iff)%not_eq_None_Some.
  rewrite split_join by (done || (eapply Forall_impl; [exact Hp | eauto with room])). intros Hg.
  rewrite (restic_covers _ _ _ _ _ _ Hl Hr Hne), is_excluded_parts by done. unfold excluded_parts.
  case_bool_decide as Hi; [|tauto]. destruct Hg as [Hm|Hg]; [|done]. rewrite Hm, bool_decide_true by done. tauto.
Qed.

(** The values of [resolved_restic_excludes] cover the path: one of them names it or a
    directory above it. *)
Definition discarded (values : list string) (root : string) (q : list string) : Prop :=
  exists u w, q = u ++ w /\ u ≠ [] /\ value_of root u ∈ values.

(** C28: The walk over a workspace returns literal values, without line breaks, that cover
    exactly the paths with an excluded path on the way to them, which for relative paths
    the policy can read are the excluded paths; it raises only when an excluded path has a
    line break in its absolute name. *)
Theorem resolved_excludes_exact policy root t :
  match resolved_restic_excludes policy root t with
  | Ok values =>
      Forall (fun v => line_break v = false) values
      /\ forall q, in_tree t q ->
         (discarded values root q <-> exists u w, q = u ++ w /\ u ≠ [] /\ is_excluded policy (py_join "/" u) = true)
         /\ (Forall plain q -> (discarded values root q <-> is_excluded policy (py_join "/" q) = true))
  | Raise e =>
      e = EValue "workspace exclusion contains an unsafe path"
      /\ exists q, in_tree t q /\ is_excluded policy (py_join "/" q) = true /\ line_break (absolute root (py_join "/" q)) = true
  end.
Proof.
  unfold resolved_restic_excludes. destruct (walk_excludes policy root [] t) as [values|e] eqn:Hw; cbn [fmap result_fmap].
  - split; [rewrite merge_sort_Permutation; by eapply walk_excludes_lines |]. intros q Hq.
    assert (discarded (merge_sort String.le values) root q <-> exists u w, q = u ++ w /\ u ≠ [] /\ is_excluded policy (py_join "/" u) = true) as Hd.
    { unfold discarded. setoid_rewrite merge_sort_Permutation. setoid_rewrite (walk_excludes_values policy root [] t values _ Hw). cbn [app]. split.
      - intros (u & w & -> & Hu & p & _ & [He _] & Hv%value_of_inj). exists u, w. by rewrite Hv.
      - intros (u & w & -> & Hu & He). destruct (topmost_prefix policy u Hu He) as (p & w' & -> & Hp & Ht).
        exists p, (w' ++ w). rewrite app_assoc. split; [done |]. split; [done |]. exists p. split; [|done].
        eapply in_tree_prefix; [by rewrite <- !app_assoc in Hq | done]. }
    split; [done |]. intros Hp. rewrite Hd. split.
    + intros (u & w & -> & Hu & He). apply Forall_app in Hp as [Hpu Hpw]. rewrite is_excluded_parts in He by done.
      rewrite is_excluded_parts; [by apply excluded_parts_app | by destruct u | by apply Forall_app].
    + intros He. exists q, []. rewrite app_nil_r. split; [done |]. split; [by eapply in_tree_nonempty | done].
  - by apply walk_excludes_raise in Hw.
Qed.

(** ** A workspace with the shared defaults *)
Definition defaults : pyobj :=
  PDict [("version", PInt 1); ("exclude", PList (PStr <$> ["**/.josh-room.json"; "**/.DS_Store"; "**/.pytest_cache"; "**/.ruff_cache";
    "**/.venv"; "**/venv"; "**/node_modules"; "**/__pycache__"; "**/.robocorp"; "**/.rcc_home"]))].
Definition demo_ignore : string := of_chars (chars "build/**/*.o" ++ ["010"%char] ++ chars "secrets").
#[local] Existing Instance jat_runtime.
Definition demo_policy : CapturePolicy :=
  {| policy_sha256 := digest_a;
     patterns := [["**"; ".josh-room.json"]; ["**"; ".DS_Store"]; ["**"; ".pytest_cache"]; ["**"; ".ruff_cache"]; ["**"; ".venv"]; ["**"; "venv"];
       ["**"; "node_modules"]; ["**"; "__pycache__"]; ["**"; ".robocorp"]; ["**"; ".rcc_home"]; ["build"; "**"; "*.o"]; ["secrets"]];
     active_runtime_relative := Some "tools/runtime"; capture_mode := "full-repository" |}.

Example demo_policy_decides :
  (is_excluded demo_policy <$> ["a/venv/x"; "build/a/b/main.o"; "build/main.c"; "x/secrets/k"; "tools/runtime/bin"; "tools/other"; ".git/refs/heads/venv"])
  = [true; true; false; true; true; false; false].
Proof. by vm_compute. Qed.

(** A branch named [venv] is kept by the policy and named by its patterns for restic. *)
Lemma restic_excludes_cover_git :
  is_excluded demo_policy ".git/refs/heads/venv" = false
  /\ Exists (text_globs [".git"; "refs"; "heads"; "venv"]) (restic_excludes demo_policy).
Proof.
  split; [by vm_compute |]. apply Exists_exists. exists "**/venv". split; [apply (bool_decide_unpack _); by vm_compute |].
  apply glob_matches_iff. by vm_compute.
Qed.

Lemma exclusion_descends_witness :
  _normalized_relative "lib/.git/venv" ≠ None
  /\ is_excluded demo_policy "a/venv" = true /\ is_excluded demo_policy ("a/venv" +:+ "/" +:+ "lib/.git/venv") = true
  /\ is_excluded demo_policy "lib/.git/venv" = is_excluded demo_policy "lib".
Proof.
  assert (_normalized_relative "lib/.git/venv" ≠ None) as Hn by by vm_compute.
  destruct (exclusion_descends demo_policy "a/venv" "lib/.git/venv" Hn) as [Hd Hg].
  assert (is_excluded demo_policy "a/venv" = true) as He by by vm_compute.
  split; [done |]. split; [done |]. split; [by apply Hd |].
  apply (Hg ["lib"] ["venv"]); [by vm_compute | apply (bool_decide_unpack _); by vm_compute | by vm_compute].
Defined.

Lemma demo_loads : load_capture_policy "{}" defaults (Some demo_ignore) (Some ["tools"; "runtime"]) = Ok demo_policy.
Proof. by vm_compute. Qed.

Lemma restic_excludes_agree_witness :
  load_capture_policy "{}" defaults (Some demo_ignore) (Some ["tools"; "runtime"]) = Ok demo_policy
  /\ (is_excluded demo_policy "build/a/main.o" = true <-> Exists (text_globs ["build"; "a"; "main.o"]) (restic_excludes demo_policy)).
Proof.
  split; [exact demo_loads |]. apply (restic_excludes_agree _ _ _ _ _ "build/a/main.o" demo_loads).
  - intros runtime Hr. injection Hr as <-. repeat constructor; try done; intros Hs; revert Hs; apply (bool_decide_unpack _); by vm_compute.
  - by vm_compute.
  - right. apply (bool_decide_unpack _); by vm_compute.
Defined.
