(* ===== verification/SessionEvidence.v ===== *)
(** * Session evidence documents ([src/josh_room/session_evidence.py])

    The checks of the four kinds of documents.  A check appends what is wrong to a list of
    errors, here the list it returns; a document is accepted when nothing is wrong, and
    set aside when its major version is not the current one. *)

From stdpp Require Import pretty.
From Stdlib Require Import Ascii SpecFloat.
From S2P Require Import Prelude PyStr PyObj PyDatetime.

Definition SCHEMA_NAME : string := "codex-session-evidence".
Definition CURRENT_MAJOR : Z := 1.
Definition CURRENT_MINOR : Z := 0.
Definition MAX_IDENTIFIER_LENGTH : nat := 128.
Definition MAX_VERSION_LENGTH : nat := 64.

Definition id_char (extra : string) (c : ascii) : bool := is_alnum c || one_of extra c.
Definition IDENTIFIER_PATTERN : re := RCat (RCls is_alnum) (RStar (RCls (id_char "._~-"))).
Definition SHA256_PATTERN : re := exactly 64 (RCls is_hex).
Definition REMOTE_PATTERN : re :=
  let part := RCat (RCls is_alnum) (RStar (RCls (id_char "._-"))) in
  RCat part (plus (RCat (lit "/") part)).
Definition BRANCH_PATTERN : re := RCat (RCls is_alnum) (RCat (RStar (RCls (id_char "._/-"))) (RCls is_alnum)).
Definition COMMIT_RE : re := between 7 64 (RCls is_hex).
Definition RFC3339_TIMESTAMP_PATTERN : re :=
  let d := RCls is_digit in
  let two := exactly 2 d in
  let time := RCat two (RCat (lit ":") (RCat two (RCat (lit ":") two))) in
  let hour := RAlt (RCat (RCls (one_of "01")) d) (RCat (lit "2") (RCls (in_range "0" "3"))) in
  let offset := RCat (RCls (one_of "+-")) (RCat hour (RCat (lit ":") (RCat (RCls (in_range "0" "5")) d))) in
  RCat (exactly 4 d) (RCat (lit "-") (RCat two (RCat (lit "-") (RCat two (RCat (RCls (one_of "Tt"))
    (RCat time (RCat (opt (RCat (lit ".") (plus d))) (RAlt (RCls (one_of "Zz")) offset)))))))).
Definition PATH_METADATA_PATTERN : re :=
  RAlt (lit "path") (RCat (RStar (RCls (fun c => negb (Ascii.eqb c "010")))) (lit "_path")).

Definition CONTENT_TYPES : list string :=
  ["application/vnd.josh.codex-session-segment+json"; "application/vnd.josh.codex-session-asset";
   "application/vnd.josh.codex-session-final+json"; "application/vnd.josh.codex-index-event+json"].
Definition KINDS : list string := ["session-segment"; "session-asset"; "session-final"; "index-event"].
Definition EVIDENCE_KINDS : list string := ["session-segment"; "session-asset"; "session-final"].
Definition SURFACES : list string := ["cli"; "desktop"; "vscode"; "app-server"; "import"; "unknown"].
Definition STATUSES : list string := ["partial"; "complete"; "recovered"; "quarantined"].
Definition POLICY_DECISIONS : list string := ["allow"; "deny"; "local-only"; "quarantine"].
Definition SENSITIVITIES : list string := ["normal"; "sensitive"; "unknown"].
Definition MEDIA_CATEGORIES : list string := ["image"; "audio"; "video"; "document"; "archive"; "other"; "unknown"].
Definition REPRESENTATIONS : list string := ["active-jsonl"; "archived-jsonl"; "compressed-jsonl-zst"; "unknown"].
Definition DISCOVERY_STATES : list string := ["discovered"; "uploaded"; "quarantined"; "retracted"].

(** The members of [ErrorCode] by their values. *)
Record ContractError := { code : string; error_path : string }.
Abbreviation errors := (list ContractError).
Definition err (c p : string) : errors := [{| code := c; error_path := p |}].
Definition err_if (b : bool) (c p : string) : errors := if b then err c p else [].
Inductive ValidationDisposition := ACCEPTED | REJECTED | QUARANTINED.
Record ValidationResult := { disposition : ValidationDisposition; result_errors : errors; result_document : option dict }.
#[export] Instance disposition_eq_dec : EqDecision ValidationDisposition.
Proof. solve_decision. Defined.

(** ** Canonical JSON *)

(** A float that JSON has no text for ([allow_nan=False]). *)
Fixpoint out_of_range (v : pyobj) : bool :=
  match v with
  | PFloat f => negb (f_is_finite f)
  | PList l => existsb out_of_range l
  | PDict d => existsb (fun kv => out_of_range kv.2) d
  | _ => false
  end.

Section evidence.
Context `{PyRuntime}.

Definition canonical_json (v : pyobj) : result string :=
  raise_if (out_of_range v) (EValue "Out of range float values are not JSON compliant") ;;
  Ok (of_chars (utf8_bytes (dumps false v))).
Definition canonical_digest (v : pyobj) : result string := sha256 <$> canonical_json v.

(** ** Single values *)
Definition _validate_digest (value : pyobj) (path : string) : errors :=
  err_if (match value with PStr s => negb (fullmatch SHA256_PATTERN s) | _ => true end) "invalid_digest" path.
Definition is_size (value : pyobj) : bool := match value with PInt z => (0 <=? z)%Z | _ => false end.
Definition _validate_size (value : pyobj) (path : string) : errors := err_if (negb (is_size value)) "wrong_type" path.
Definition _validate_enum (value : pyobj) (values : list string) (path : string) : errors :=
  err_if (negb (is_str_in values value)) "invalid_enum" path.
Definition _validate_object_keys (value : dict) (allowed : list string) (path : string) : errors :=
  value.*1 ≫= fun key => err_if (bool_decide (key ∉ allowed)) "unknown_field" (path +:+ "." +:+ key).
Definition _validate_path_metadata (document : dict) : errors :=
  document.*1 ≫= fun field => err_if (fullmatch PATH_METADATA_PATTERN field) "invalid_metadata" ("$." +:+ field).
(** A text of limited length that matches a pattern. *)
Definition identifier_errors (limit : nat) (value : pyobj) (path : string) : errors :=
  match value with
  | PStr s =>
      if (limit <? py_len s)%nat then err "identifier_too_long" path
      else err_if (negb (fullmatch IDENTIFIER_PATTERN s)) "invalid_identifier" path
  | _ => err "wrong_type" path
  end.
Definition _validate_identifier_field (document : dict) (field path : string) : errors :=
  match dict_get field document with None => [] | Some value => identifier_errors MAX_IDENTIFIER_LENGTH value path end.
Definition _validate_timestamp (value : pyobj) (path : string) : errors :=
  match value with
  | PStr s =>
      if negb (fullmatch RFC3339_TIMESTAMP_PATTERN s) then err "invalid_timestamp" path
      else
        let normalized := if endswith "Z" s || endswith "z" s then str_take (py_len s - 1) s +:+ "+00:00" else s in
        err_if (negb (fromisoformat normalized)) "invalid_timestamp" path
  | _ => err "wrong_type" path
  end.
(** [for field in fields: if field not in document: errors.append(...)] *)
Definition missing (document : dict) (fields : list string) (path : string) : errors :=
  fields ≫= fun field => err_if (negb (has_key field document)) "missing_field" (path +:+ "." +:+ field).
(** [if field in document: check(document[field])] *)
Definition when_present (document : dict) (field : string) (check : pyobj -> errors) : errors :=
  match dict_get field document with Some value => check value | None => [] end.
(** [if not isinstance(value, dict): errors.append(...); return] *)
Definition with_dict (value : pyobj) (c path : string) (check : dict -> errors) : errors :=
  match value with PDict d => check d | _ => err c path end.

(** ** Parts of a document *)
Definition is_int (v : pyobj) : bool := match v with PInt _ => true | _ => false end.
Definition _validate_version (version : pyobj) : option Z * errors :=
  match version with
  | PDict d =>
      let keys := _validate_object_keys d ["major"; "minor"] "$.schema_version" in
      match get_or_none "major" d, get_or_none "minor" d with
      | PInt major, PInt minor =>
          if (major <? 0)%Z || (minor <? 0)%Z then (None, keys ++ err "invalid_version" "$.schema_version") else (Some major, keys)
      | _, _ => (None, keys ++ err "invalid_version" "$.schema_version")
      end
  | _ => (None, err "invalid_version" "$.schema_version")
  end.

Definition _validate_source (source : pyobj) : errors :=
  with_dict source "wrong_type" "$.source" (fun d =>
    _validate_object_keys d ["surface"; "adapter"; "adapter_version"; "codex_version"] "$.source"
    ++ _validate_enum (get_or_none "surface" d) SURFACES "$.source.surface"
    ++ (["adapter"; "adapter_version"; "codex_version"] ≫= fun field =>
          when_present d field (fun value =>
            identifier_errors (if bool_decide (field = "adapter") then MAX_IDENTIFIER_LENGTH else MAX_VERSION_LENGTH) value ("$.source." +:+ field)))
    ++ missing d ["adapter"; "adapter_version"; "surface"] "$.source").

Definition _validate_subagent (subagent : pyobj) : errors :=
  with_dict subagent "wrong_type" "$.subagent" (fun d =>
    _validate_object_keys d ["id"; "type"] "$.subagent"
    ++ (["id"; "type"] ≫= fun field =>
          if has_key field d then _validate_identifier_field d field ("$.subagent." +:+ field) else err "missing_field" ("$.subagent." +:+ field))).

Definition CHECKPOINT_FIELDS : list string := ["source"; "representation"; "start"; "end"; "prefix_sha256"].
Definition end_before_start (d : dict) : bool :=
  match get_or_none "start" d, get_or_none "end" d with PInt s, PInt e => (e <? s)%Z | _, _ => false end.
Definition _validate_checkpoint (checkpoint : pyobj) : errors :=
  with_dict checkpoint "invalid_checkpoint" "$.checkpoint" (fun d =>
    _validate_object_keys d CHECKPOINT_FIELDS "$.checkpoint"
    ++ missing d CHECKPOINT_FIELDS "$.checkpoint"
    ++ _validate_identifier_field d "source" "$.checkpoint.source"
    ++ when_present d "representation" (fun v => _validate_enum v REPRESENTATIONS "$.checkpoint.representation")
    ++ (["start"; "end"] ≫= fun field => when_present d field (fun v => _validate_size v ("$.checkpoint." +:+ field)))
    ++ err_if (end_before_start d) "invalid_checkpoint" "$.checkpoint"
    ++ when_present d "prefix_sha256" (fun v => _validate_digest v "$.checkpoint.prefix_sha256")).

Definition is_dict (v : pyobj) : bool := match v with PDict _ => true | _ => false end.
(** The checks of [document["records"]], a list of objects. *)
Definition record_errors (document : dict) (records : list pyobj) : errors :=
  err_if (match get_or_none "record_count" document with PInt n => negb (n =? Z.of_nat (length records))%Z | _ => false end) "wrong_type" "$.record_count"
  ++ match canonical_json (PList records) with
     | Raise _ => err "wrong_type" "$.records"
     | Ok payload =>
         err_if (match get_or_none "content_size" document with PInt n => negb (n =? Z.of_nat (py_len payload))%Z | _ => false end) "digest_mismatch" "$.content_size"
         ++ err_if (match get_or_none "content_sha256" document with PStr s => bool_decide (s ≠ sha256 payload) | _ => false end) "digest_mismatch" "$.content_sha256"
     end.
Definition _validate_record_metadata (document : dict) (records_required : bool) : errors :=
  (["record_count"; "content_size"] ≫= fun field =>
     match dict_get field document with None => err "missing_field" ("$." +:+ field) | Some v => _validate_size v ("$." +:+ field) end)
  ++ _validate_digest (get_or_none "content_sha256" document) "$.content_sha256"
  ++ (if records_required then
        match get_or_none "records" document with
        | PList records => if forallb is_dict records then record_errors document records else err "wrong_type" "$.records"
        | _ => err "wrong_type" "$.records"
        end
      else []).

Definition ASSET_REF_FIELDS : list string := ["asset_id"; "sha256"; "size"; "media_category"].
(** One reference; [seen] has the identifiers before it. *)
Definition asset_ref_errors (seen : list string) (path : string) (reference : pyobj) : errors :=
  with_dict reference "invalid_asset_reference" path (fun d =>
    err_if (is_str_in seen (get_or_none "asset_id" d)) "duplicate_asset_reference" (path +:+ ".asset_id")
    ++ _validate_identifier_field d "asset_id" (path +:+ ".asset_id")
    ++ _validate_digest (get_or_none "sha256" d) (path +:+ ".sha256")
    ++ _validate_size (get_or_none "size" d) (path +:+ ".size")
    ++ _validate_enum (get_or_none "media_category" d) MEDIA_CATEGORIES (path +:+ ".media_category")
    ++ err_if (negb (keys_within ASSET_REF_FIELDS d)) "invalid_asset_reference" path).
Definition asset_id_of (reference : pyobj) : list string :=
  match reference with PDict d => match get_or_none "asset_id" d with PStr s => [s] | _ => [] end | _ => [] end.
Fixpoint asset_refs_errors (index : nat) (seen : list string) (refs : list pyobj) : errors :=
  match refs with
  | [] => []
  | reference :: refs =>
      asset_ref_errors seen ("$.asset_refs[" +:+ pretty index +:+ "]") reference
      ++ asset_refs_errors (S index) (asset_id_of reference ++ seen) refs
  end.
Definition _validate_asset_refs (refs : pyobj) : errors :=
  match refs with PList refs => asset_refs_errors 0 [] refs | _ => err "wrong_type" "$.asset_refs" end.

Definition REPOSITORY_FIELDS : list string := ["remote"; "commit"; "branch"; "dirty"].
(** [value != "unknown" and (not isinstance(value, str) or ...)] *)
Definition known_text (value : pyobj) (ok : string -> bool) : bool :=
  match value with PStr s => bool_decide (s = "unknown") || ok s | _ => false end.
Definition _validate_repository (repository : pyobj) : errors :=
  with_dict repository "invalid_repository_provenance" "$.repository" (fun d =>
    _validate_object_keys d REPOSITORY_FIELDS "$.repository"
    ++ missing d REPOSITORY_FIELDS "$.repository"
    ++ (if negb (keys_are REPOSITORY_FIELDS d) then []
        else
          let short s := (py_len s <=? MAX_IDENTIFIER_LENGTH)%nat in
          err_if (negb (known_text (get_or_none "remote" d) (fun s => short s && fullmatch REMOTE_PATTERN s))) "invalid_repository_provenance" "$.repository.remote"
          ++ err_if (negb (known_text (get_or_none "commit" d) (fullmatch COMMIT_RE))) "invalid_repository_provenance" "$.repository.commit"
          ++ err_if (negb (known_text (get_or_none "branch" d)
               (fun s => short s && fullmatch BRANCH_PATTERN s && negb (contains ".." s) && negb (contains "//" s))))
               "invalid_repository_provenance" "$.repository.branch"
          ++ match get_or_none "dirty" d with
             | PBool _ => []
             | PStr s => err_if (bool_decide (s ≠ "unknown")) "invalid_repository_provenance" "$.repository.dirty"
             | _ => err "wrong_type" "$.repository.dirty"
             end)).

Definition _validate_capture (capture : pyobj) : errors :=
  with_dict capture "wrong_type" "$.capture" (fun d =>
    _validate_object_keys d ["status"; "policy_decision"; "sensitivity"; "counters"] "$.capture"
    ++ ([("status", STATUSES); ("policy_decision", POLICY_DECISIONS); ("sensitivity", SENSITIVITIES)] ≫= fun '(field, values) =>
          match dict_get field d with
          | None => err "missing_field" ("$.capture." +:+ field)
          | Some v => _validate_enum v values ("$.capture." +:+ field)
          end)
    ++ match dict_get "counters" d with
       | None => err "missing_field" "$.capture.counters"
       | Some (PDict counters) => counters.*2 ≫= fun v => _validate_size v "$.capture.counters"
       | Some _ => err "wrong_type" "$.capture.counters"
       end).

(** ** Documents *)
Definition TOP_IDENTIFIERS : list string := ["session_id"; "thread_id"; "turn_id"; "profile_id"; "workspace_id"; "device_id"].

(** Segments and finals *)
Definition session_errors (document : dict) (segment : bool) : errors :=
  _validate_source (get_or_none "source" document)
  ++ when_present document "subagent" _validate_subagent
  ++ missing document ["profile_id"; "workspace_id"; "device_id"] "$"
  ++ match dict_get "checkpoint" document with None => err "missing_checkpoint" "$.checkpoint" | Some c => _validate_checkpoint c end
  ++ _validate_record_metadata document segment
  ++ _validate_capture (get_or_none "capture" document)
  ++ when_present document "repository" _validate_repository
  ++ when_present document "observed_at" (fun v => _validate_timestamp v "$.observed_at")
  ++ (if segment then
        when_present document "previous_segment_sha256" (fun v => _validate_digest v "$.previous_segment_sha256")
        ++ when_present document "asset_refs" _validate_asset_refs
      else when_present document "last_segment_sha256" (fun v => _validate_digest v "$.last_segment_sha256")).

Definition nonempty_text (v : pyobj) : bool := match v with PStr s => bool_decide (s ≠ "") | _ => false end.
Definition asset_errors (document : dict) : errors :=
  missing document ["asset_id"; "source_event_id"; "sha256"; "size"; "media_category"; "content_type"; "capture"] "$"
  ++ _validate_identifier_field document "asset_id" "$.asset_id"
  ++ _validate_identifier_field document "source_event_id" "$.source_event_id"
  ++ when_present document "sha256" (fun v => _validate_digest v "$.sha256")
  ++ when_present document "size" (fun v => _validate_size v "$.size")
  ++ when_present document "media_category" (fun v => _validate_enum v MEDIA_CATEGORIES "$.media_category")
  ++ when_present document "content_type" (fun v => err_if (negb (nonempty_text v)) "wrong_type" "$.content_type")
  ++ when_present document "capture" _validate_capture.

Definition discovery_errors (discovery : pyobj) : errors :=
  with_dict discovery "wrong_type" "$.discovery" (fun d =>
    _validate_object_keys d ["state"; "observed_at"] "$.discovery"
    ++ _validate_enum (get_or_none "state" d) DISCOVERY_STATES "$.discovery.state"
    ++ (if negb (nonempty_text (get_or_none "observed_at" d)) then err "wrong_type" "$.discovery.observed_at"
        else _validate_timestamp (get_or_none "observed_at" d) "$.discovery.observed_at")).
Definition index_errors (document : dict) : errors :=
  missing document ["evidence_kind"; "evidence_event_id"; "content_sha256"; "ciphertext_sha256"; "ciphertext_size"; "content_type"; "discovery"] "$"
  ++ when_present document "evidence_kind" (fun v => _validate_enum v EVIDENCE_KINDS "$.evidence_kind")
  ++ _validate_identifier_field document "evidence_event_id" "$.evidence_event_id"
  ++ when_present document "content_sha256" (fun v => _validate_digest v "$.content_sha256")
  ++ when_present document "ciphertext_sha256" (fun v => _validate_digest v "$.ciphertext_sha256")
  ++ when_present document "ciphertext_size" (fun v => _validate_size v "$.ciphertext_size")
  ++ when_present document "content_type" (fun v => err_if (negb (is_str_in CONTENT_TYPES v)) "wrong_type" "$.content_type")
  ++ discovery_errors (get_or_none "discovery" document).

(** The checks that depend on [kind]. *)
Definition kind_errors (kind : pyobj) (document : dict) : errors :=
  match kind with
  | PStr k =>
      if bool_decide (k = "session-segment") then session_errors document true
      else if bool_decide (k = "session-final") then session_errors document false
      else if bool_decide (k = "session-asset") then asset_errors document
      else if bool_decide (k = "index-event") then index_errors document
      else []
  | _ => []
  end.

Definition _result (d : ValidationDisposition) (e : errors) (document : option dict) : ValidationResult :=
  {| disposition := d; result_errors := e; result_document := document |}.

Definition validate_document (document : pyobj) : ValidationResult :=
  match document with
  | PDict d =>
      let kind := get_or_none "kind" d in
      let '(major, version_errors) := _validate_version (get_or_none "schema_version" d) in
      let before :=
        _validate_path_metadata d
        ++ err_if (negb (py_eq (get_or_none "schema_name" d) (PStr SCHEMA_NAME))) "unknown_schema" "$.schema_name"
        ++ match kind with
           | PStr k => err_if (bool_decide (k ∉ KINDS)) "unknown_document_kind" "$.kind"
           | _ => err "wrong_type" "$.kind"
           end
        ++ version_errors in
      if bool_decide (major ≠ None /\ major ≠ Some CURRENT_MAJOR) then _result QUARANTINED (err "unknown_major" "$.schema_version.major") None
      else
        let errors :=
          before
          ++ missing d ["schema_name"; "schema_version"; "kind"; "event_id"] "$"
          ++ _validate_identifier_field d "event_id" "$.event_id"
          ++ (TOP_IDENTIFIERS ≫= fun field => _validate_identifier_field d field ("$." +:+ field))
          ++ kind_errors kind d in
        match errors with
        | [] => _result ACCEPTED [] (Some d)
        | _ => _result REJECTED errors None
        end
  | _ => _result REJECTED (err "document_not_object" "$") None
  end.

Definition minimal_unencrypted_metadata (document : dict) (ciphertext_sha256 ciphertext_size content_type : pyobj) : result dict :=
  raise_if (bool_decide (disposition (validate_document (PDict document)) ≠ ACCEPTED)) (EValue "document is not valid session evidence") ;;
  raise_if (negb (bool_decide (_validate_digest ciphertext_sha256 "$.ciphertext_sha256" = []))) (EValue "ciphertext metadata is invalid") ;;
  raise_if (negb (is_size ciphertext_size)) (EValue "ciphertext metadata is invalid") ;;
  raise_if (negb (is_str_in CONTENT_TYPES content_type)) (EValue "content type metadata is invalid") ;;
  Ok [("schema_family", PStr SCHEMA_NAME); ("schema_major", PInt CURRENT_MAJOR); ("ciphertext_sha256", ciphertext_sha256);
      ("ciphertext_size", ciphertext_size); ("content_type", content_type)].
End evidence.
