(* ===== verification/SessionEvidenceProps.v ===== *)
(** * Session evidence: what an accepted document is

    The checks read backwards: a document without errors has the fields and values its
    kind requires. *)

From Stdlib Require Import Ascii.
From S2P Require Import Prelude PyStr PyObj PyDatetime SessionEvidence.

(** Membership in a literal list. *)
Ltac is_member := repeat first [apply list_elem_of_here | apply list_elem_of_further].

(** ** No errors *)
Lemma err_if_nil b c p : err_if b c p = [] <-> b = false.
Proof. by destruct b. Qed.
Lemma bind_nil {A B} (f : A -> list B) l : l ≫= f = [] <-> forall x, x ∈ l -> f x = [].
Proof.
  induction l as [|x l IH]; [split; [by intros _ ? ?%not_elem_of_nil | done] |].
  rewrite bind_cons, app_nil, IH. setoid_rewrite elem_of_cons. naive_solver.
Qed.
Lemma present_nil d f check : when_present d f check = [] <-> forall v, dict_get f d = Some v -> check v = [].
Proof. unfold when_present. destruct (dict_get f d); naive_solver. Qed.
Lemma with_dict_nil v c p check : with_dict v c p check = [] <-> exists d, v = PDict d /\ check d = [].
Proof. unfold with_dict. destruct v; naive_solver. Qed.
Lemma missing_nil d fields p : missing d fields p = [] <-> forall f, f ∈ fields -> is_Some (dict_get f d).
Proof.
  unfold missing. rewrite bind_nil. setoid_rewrite err_if_nil. setoid_rewrite negb_false_iff. by setoid_rewrite has_key_spec.
Qed.
Lemma some_not_none {A} (o : option A) : o = None -> is_Some o -> False.
Proof. by intros -> []. Qed.

(** The texts of the two shapes that checks look for. *)
Definition is_digest (s : string) : Prop := fullmatch SHA256_PATTERN s = true.
Definition is_identifier (s : string) : Prop := py_len s <= MAX_IDENTIFIER_LENGTH /\ fullmatch IDENTIFIER_PATTERN s = true.

Lemma digest_nil v p : _validate_digest v p = [] <-> exists s, v = PStr s /\ is_digest s.
Proof. unfold _validate_digest, is_digest. rewrite err_if_nil. destruct v; [..| setoid_rewrite negb_false_iff | |]; naive_solver. Qed.
Lemma is_size_iff v : is_size v = true <-> exists z, v = PInt z /\ (0 <= z)%Z.
Proof. unfold is_size. destruct v; try naive_solver. rewrite Z.leb_le. naive_solver. Qed.
Lemma size_nil v p : _validate_size v p = [] <-> exists z, v = PInt z /\ (0 <= z)%Z.
Proof. unfold _validate_size. by rewrite err_if_nil, negb_false_iff, is_size_iff. Qed.
Lemma enum_nil v set p : _validate_enum v set p = [] <-> exists s, v = PStr s /\ s ∈ set.
Proof.
  unfold _validate_enum, is_str_in. rewrite err_if_nil, negb_false_iff. destruct v; try naive_solver. rewrite bool_decide_eq_true. naive_solver.
Qed.
Lemma identifier_nil limit v p : identifier_errors limit v p = [] <-> exists s, v = PStr s /\ py_len s <= limit /\ fullmatch IDENTIFIER_PATTERN s = true.
Proof.
  unfold identifier_errors. destruct v; try naive_solver. destruct (Nat.ltb_spec limit (py_len s)).
  - split; [done |]. intros (? & [= <-] & ? & _). lia.
  - rewrite err_if_nil, negb_false_iff. naive_solver.
Qed.
Lemma identifier_field_nil d f p : _validate_identifier_field d f p = [] <-> forall v, dict_get f d = Some v -> exists s, v = PStr s /\ is_identifier s.
Proof.
  unfold _validate_identifier_field, is_identifier. destruct (dict_get f d); [rewrite identifier_nil |]; naive_solver.
Qed.

(** ** Documents *)
Section documents.
Context `{PyRuntime}.

Definition accepted (d : dict) : Prop := disposition (validate_document (PDict d)) = ACCEPTED.

Lemma accepted_iff d : accepted d <->
  (_validate_version (get_or_none "schema_version" d)).1 = Some CURRENT_MAJOR
  /\ _validate_path_metadata d = []
  /\ get_or_none "schema_name" d = PStr SCHEMA_NAME
  /\ (exists k, get_or_none "kind" d = PStr k /\ k ∈ KINDS)
  /\ (_validate_version (get_or_none "schema_version" d)).2 = []
  /\ missing d ["schema_name"; "schema_version"; "kind"; "event_id"] "$" = []
  /\ _validate_identifier_field d "event_id" "$.event_id" = []
  /\ (forall f, f ∈ TOP_IDENTIFIERS -> _validate_identifier_field d f ("$." +:+ f) = [])
  /\ kind_errors (get_or_none "kind" d) d = [].
Proof.
  unfold accepted, validate_document. destruct (_validate_version _) as [major ve] eqn:Hv. cbn [fst snd].
  assert (py_eq (get_or_none "schema_name" d) (PStr SCHEMA_NAME) = true <-> get_or_none "schema_name" d = PStr SCHEMA_NAME) as Hn.
  { destruct (get_or_none "schema_name" d); simpl; try done. rewrite bool_decide_eq_true. naive_solver. }
  assert (match get_or_none "kind" d with PStr k => err_if (bool_decide (k ∉ KINDS)) "unknown_document_kind" "$.kind" | _ => err "wrong_type" "$.kind" end = []
    <-> exists k, get_or_none "kind" d = PStr k /\ k ∈ KINDS) as Hk.
  { destruct (get_or_none "kind" d); try naive_solver. rewrite err_if_nil, bool_decide_eq_false. split; [intros ?%dec_stable |]; naive_solver. }
  case_bool_decide as Hm; [split; [done | naive_solver] |].
  assert (forall e : list ContractError, disposition match e with [] => _result ACCEPTED [] (Some d) | _ => _result REJECTED e None end = ACCEPTED <-> e = []) as Hd
    by (intros []; [done | split; done]).
  rewrite Hd, !app_nil, err_if_nil, negb_false_iff, Hn, Hk, bind_nil. clear Hd Hn Hk.
  split; [|tauto]. intros Hall. split; [|tauto].
  destruct major as [m|]; [destruct (base.decide (m = CURRENT_MAJOR)) as [->|Hne]; [done |]; exfalso; apply Hm; split; [done | by intros [= ->]] |].
  destruct Hall as ((_ & _ & _ & Hve) & _). rewrite Hve in Hv. exfalso. clear -Hv.
  unfold _validate_version in Hv. destruct (get_or_none "schema_version" d) as [| | | | | |v]; try done.
  destruct (get_or_none "major" v), (get_or_none "minor" v); try (injection Hv as Hv; by apply app_nil in Hv as [_ ?]).
  destruct (_ || _); [|done]. injection Hv as Hv. by apply app_nil in Hv as [_ ?].
Qed.

(** *** The session and event of a document *)
Lemma accepted_event d : accepted d -> exists s, get_or_none "event_id" d = PStr s /\ is_identifier s.
Proof.
  intros (_ & _ & _ & _ & _ & Hm & He & _)%accepted_iff. rewrite missing_nil in Hm. destruct (Hm "event_id" ltac:(is_member)) as [v Hv].
  rewrite identifier_field_nil in He. destruct (He v Hv) as (s & -> & ?). exists s. unfold get_or_none. by rewrite Hv.
Qed.
Lemma accepted_identifier d f v : accepted d -> f ∈ TOP_IDENTIFIERS -> dict_get f d = Some v -> exists s, v = PStr s /\ is_identifier s.
Proof. intros (_ & _ & _ & _ & _ & _ & _ & Hf & _)%accepted_iff Hin Hv. specialize (Hf f Hin). rewrite identifier_field_nil in Hf. auto. Qed.
Lemma accepted_session d : accepted d -> get_or_none "session_id" d = opt_str (as_str (get_or_none "session_id" d)).
Proof.
  intros Ha. unfold get_or_none. destruct (dict_get "session_id" d) as [v|] eqn:Hv; [|done].
  destruct (accepted_identifier d "session_id" v Ha) as (s & -> & _); [is_member | done | done].
Qed.

(** *** The shape of a document *)
Definition required (d : dict) (f : string) (P : pyobj -> Prop) : Prop := exists v, dict_get f d = Some v /\ P v.
Definition optional (d : dict) (f : string) (P : pyobj -> Prop) : Prop := forall v, dict_get f d = Some v -> P v.
(** Fields that others may not stand beside. *)
Definition only (fields : list string) (d : dict) : Prop := forall k, is_Some (dict_get k d) -> k ∈ fields.
Definition an_object (P : dict -> Prop) (v : pyobj) : Prop := exists d, v = PDict d /\ P d.
Definition a_text (P : string -> Prop) (v : pyobj) : Prop := exists s, v = PStr s /\ P s.
Definition a_digest : pyobj -> Prop := a_text is_digest.
Definition a_size (v : pyobj) : Prop := exists z, v = PInt z /\ (0 <= z)%Z.
Definition an_identifier (limit : nat) : pyobj -> Prop := a_text (fun s => py_len s <= limit /\ fullmatch IDENTIFIER_PATTERN s = true).
Definition among (set : list string) : pyobj -> Prop := a_text (fun s => s ∈ set).
(** A date and time of the calendar, with its offset. *)
Definition a_time : pyobj -> Prop := a_text (fun s => fullmatch RFC3339_TIMESTAMP_PATTERN s = true
  /\ fromisoformat (if endswith "Z" s || endswith "z" s then str_take (py_len s - 1) s +:+ "+00:00" else s) = true).

Definition a_version : pyobj -> Prop := an_object (fun d =>
  only ["major"; "minor"] d /\ required d "major" (eq (PInt CURRENT_MAJOR)) /\ required d "minor" a_size).
Definition a_source : pyobj -> Prop := an_object (fun d =>
  only ["surface"; "adapter"; "adapter_version"; "codex_version"] d /\ required d "surface" (among SURFACES)
  /\ required d "adapter" (an_identifier MAX_IDENTIFIER_LENGTH) /\ required d "adapter_version" (an_identifier MAX_VERSION_LENGTH)
  /\ optional d "codex_version" (an_identifier MAX_VERSION_LENGTH)).
Definition a_subagent : pyobj -> Prop := an_object (fun d =>
  only ["id"; "type"] d /\ required d "id" (an_identifier MAX_IDENTIFIER_LENGTH) /\ required d "type" (an_identifier MAX_IDENTIFIER_LENGTH)).
(** A range of a transcript, with the digest of what precedes its end. *)
Definition a_checkpoint : pyobj -> Prop := an_object (fun d =>
  only CHECKPOINT_FIELDS d /\ required d "source" (an_identifier MAX_IDENTIFIER_LENGTH) /\ required d "representation" (among REPRESENTATIONS)
  /\ (exists s e, dict_get "start" d = Some (PInt s) /\ dict_get "end" d = Some (PInt e) /\ (0 <= s <= e)%Z)
  /\ required d "prefix_sha256" a_digest).
Definition a_capture : pyobj -> Prop := an_object (fun d =>
  only ["status"; "policy_decision"; "sensitivity"; "counters"] d /\ required d "status" (among STATUSES)
  /\ required d "policy_decision" (among POLICY_DECISIONS) /\ required d "sensitivity" (among SENSITIVITIES)
  /\ required d "counters" (an_object (fun counters => forall v, v ∈ counters.*2 -> a_size v))).
Definition or_unknown (P : string -> Prop) : pyobj -> Prop := a_text (fun s => s = "unknown" \/ P s).
Definition a_repository : pyobj -> Prop := an_object (fun d =>
  only REPOSITORY_FIELDS d
  /\ required d "remote" (or_unknown (fun s => py_len s <= MAX_IDENTIFIER_LENGTH /\ fullmatch REMOTE_PATTERN s = true))
  /\ required d "commit" (or_unknown (fun s => fullmatch COMMIT_RE s = true))
  /\ required d "branch" (or_unknown (fun s => py_len s <= MAX_IDENTIFIER_LENGTH /\ fullmatch BRANCH_PATTERN s = true
                                               /\ contains ".." s = false /\ contains "//" s = false))
  /\ required d "dirty" (fun v => v = PStr "unknown" \/ exists b, v = PBool b)).
(** The records of a segment, and the text they are counted, measured and hashed by. *)
Definition has_records (d : dict) : Prop := exists rs text,
  dict_get "records" d = Some (PList (PDict <$> rs)) /\ canonical_json (PList (PDict <$> rs)) = Ok text
  /\ dict_get "record_count" d = Some (PInt (Z.of_nat (length rs))) /\ dict_get "content_size" d = Some (PInt (Z.of_nat (py_len text)))
  /\ dict_get "content_sha256" d = Some (PStr (sha256 text)) /\ is_digest (sha256 text).
(** A reference to an asset, by its identifier. *)
Definition is_reference (v : pyobj) (id : option string) : Prop := an_object (fun r =>
  only ASSET_REF_FIELDS r /\ required r "sha256" a_digest /\ required r "size" a_size /\ required r "media_category" (among MEDIA_CATEGORIES)
  /\ match id with
     | Some s => dict_get "asset_id" r = Some (PStr s) /\ is_identifier s
     | None => dict_get "asset_id" r = None
     end) v.
(** The references of a segment, no two with the same identifier. *)
Definition references (v : pyobj) : Prop := exists refs ids, v = PList refs /\ Forall2 is_reference refs ids /\ NoDup (omap id ids).

(** What a segment and a final have in common. *)
Definition of_session (d : dict) : Prop :=
  required d "source" a_source /\ optional d "subagent" a_subagent
  /\ (forall f, f ∈ ["profile_id"; "workspace_id"; "device_id"] -> is_Some (dict_get f d))
  /\ required d "checkpoint" a_checkpoint /\ required d "capture" a_capture /\ optional d "repository" a_repository
  /\ optional d "observed_at" a_time.
(** What every document has. *)
Definition headed (d : dict) (kind : string) : Prop :=
  dict_get "kind" d = Some (PStr kind) /\ dict_get "schema_name" d = Some (PStr SCHEMA_NAME) /\ required d "schema_version" a_version
  /\ required d "event_id" (an_identifier MAX_IDENTIFIER_LENGTH)
  /\ (forall f, f ∈ TOP_IDENTIFIERS -> optional d f (an_identifier MAX_IDENTIFIER_LENGTH))
  /\ forall f, is_Some (dict_get f d) -> fullmatch PATH_METADATA_PATTERN f = false.
Inductive well_formed (d : dict) : Prop :=
| wf_segment : headed d "session-segment" -> of_session d -> has_records d ->
    optional d "previous_segment_sha256" a_digest -> optional d "asset_refs" references -> well_formed d
| wf_final : headed d "session-final" -> of_session d -> required d "record_count" a_size -> required d "content_size" a_size ->
    required d "content_sha256" a_digest -> optional d "last_segment_sha256" a_digest -> well_formed d
| wf_asset : headed d "session-asset" -> required d "asset_id" (an_identifier MAX_IDENTIFIER_LENGTH) ->
    required d "source_event_id" (an_identifier MAX_IDENTIFIER_LENGTH) -> required d "sha256" a_digest -> required d "size" a_size ->
    required d "media_category" (among MEDIA_CATEGORIES) -> required d "content_type" (a_text (fun s => s ≠ "")) ->
    required d "capture" a_capture -> well_formed d
| wf_index : headed d "index-event" -> required d "evidence_kind" (among EVIDENCE_KINDS) ->
    required d "evidence_event_id" (an_identifier MAX_IDENTIFIER_LENGTH) -> required d "content_sha256" a_digest ->
    required d "ciphertext_sha256" a_digest -> required d "ciphertext_size" a_size -> required d "content_type" (among CONTENT_TYPES) ->
    required d "discovery" (an_object (fun v =>
      only ["state"; "observed_at"] v /\ required v "state" (among DISCOVERY_STATES) /\ required v "observed_at" a_time)) -> well_formed d.

(** *** The checks find no fault exactly in values of these shapes *)
Lemma get_some f (d : dict) v : dict_get f d = Some v -> get_or_none f d = v.
Proof. unfold get_or_none. by intros ->. Qed.
Lemma get_some_inv f (d : dict) v : get_or_none f d = v -> v ≠ PNone -> dict_get f d = Some v.
Proof. unfold get_or_none. destruct (dict_get f d); simpl; congruence. Qed.
Lemma get_required f d (P : pyobj -> Prop) : ~ P PNone -> P (get_or_none f d) <-> required d f P.
Proof. intros Hn. unfold get_or_none, required. destruct (dict_get f d) as [v|] eqn:Hv; naive_solver. Qed.
Lemma text_not_none P : ~ a_text P PNone.
Proof. by intros (? & ? & _). Qed.
Lemma object_not_none P : ~ an_object P PNone.
Proof. by intros (? & ? & _). Qed.
Lemma size_not_none : ~ a_size PNone.
Proof. by intros (? & ? & _). Qed.
#[local] Hint Resolve text_not_none object_not_none size_not_none : core.
Lemma required_split d f P : required d f P <-> is_Some (dict_get f d) /\ optional d f P.
Proof.
  unfold required, optional. split.
  - intros (v & Hv & Hp). rewrite Hv. split; [done |]. by intros ? [= <-].
  - intros [[v Hv] Hp]. eauto.
Qed.
Lemma missing_one d f p : missing d [f] p = [] <-> is_Some (dict_get f d).
Proof. rewrite missing_nil. setoid_rewrite list_elem_of_singleton. naive_solver. Qed.
Lemma missing_cons d f g fields p : missing d (f :: g :: fields) p = [] <-> is_Some (dict_get f d) /\ missing d (g :: fields) p = [].
Proof. rewrite !missing_nil. setoid_rewrite (elem_of_cons (g :: fields)). naive_solver. Qed.
Lemma fst_spec {V} (d : list (string * V)) k : k ∈ d.*1 <-> is_Some (dict_get k d).
Proof. rewrite <- has_key_spec. unfold has_key. by rewrite bool_decide_eq_true. Qed.
Lemma keys_nil d fields p : _validate_object_keys d fields p = [] <-> only fields d.
Proof.
  unfold _validate_object_keys, only. rewrite bind_nil. setoid_rewrite err_if_nil. setoid_rewrite bool_decide_eq_false. setoid_rewrite fst_spec.
  split; intros Hk k Hi; [by apply dec_stable, Hk | intros Hn; by apply Hn, Hk].
Qed.
Lemma opt_identifier_nil d f p : _validate_identifier_field d f p = [] <-> optional d f (an_identifier MAX_IDENTIFIER_LENGTH).
Proof. unfold _validate_identifier_field, optional. destruct (dict_get f d); [|done].
  rewrite identifier_nil. split; [by intros ? ? [= <-] | intros Hv; by apply Hv]. Qed.
Lemma opt_nil d f check (P : pyobj -> Prop) : (forall v, check v = [] <-> P v) -> when_present d f check = [] <-> optional d f P.
Proof. intros Hc. rewrite present_nil. unfold optional. by setoid_rewrite Hc. Qed.

Lemma headed_kind d k : headed d k -> get_or_none "kind" d = PStr k.
Proof. intros [Hk _]. by apply get_some. Qed.

(** The nil lemmas of a check over a literal list of fields. *)
Ltac nils := cbn [mbind list_bind app]; rewrite ?app_nil, ?missing_cons, ?missing_one, ?keys_nil, ?opt_identifier_nil.
Lemma among_nil set v p : _validate_enum v set p = [] <-> among set v.
Proof. apply enum_nil. Qed.
Lemma object_nil v c p check (P : dict -> Prop) : (forall d, check d = [] <-> P d) -> with_dict v c p check = [] <-> an_object P v.
Proof. intros Hc. rewrite with_dict_nil. unfold an_object. by setoid_rewrite Hc. Qed.
Lemma time_nil v p : _validate_timestamp v p = [] <-> a_time v.
Proof.
  unfold _validate_timestamp, a_time, a_text. destruct v; try naive_solver.
  destruct (fullmatch RFC3339_TIMESTAMP_PATTERN s) eqn:Hm; cbn [negb]; [rewrite err_if_nil, negb_false_iff; naive_solver |].
  split; [done |]. intros (? & [= <-] & ? & _). congruence.
Qed.
Lemma opt_limit_nil d f limit p : when_present d f (fun v => identifier_errors limit v p) = [] <-> optional d f (an_identifier limit).
Proof. apply opt_nil. intros v. apply identifier_nil. Qed.
Lemma opt_digest_nil d f p : when_present d f (fun v => _validate_digest v p) = [] <-> optional d f a_digest.
Proof. apply opt_nil. intros v. apply digest_nil. Qed.
Lemma opt_size_nil d f p : when_present d f (fun v => _validate_size v p) = [] <-> optional d f a_size.
Proof. apply opt_nil. intros v. apply size_nil. Qed.
Lemma opt_among_nil d f set p : when_present d f (fun v => _validate_enum v set p) = [] <-> optional d f (among set).
Proof. apply opt_nil. intros v. apply among_nil. Qed.
Lemma object_iff P d : an_object P (PDict d) <-> P d.
Proof. split; [by intros (? & [= <-] & ?) | by exists d]. Qed.
Lemma version_nil v : (_validate_version v).1 = Some CURRENT_MAJOR /\ (_validate_version v).2 = [] <-> a_version v.
Proof.
  unfold a_version. destruct v as [| | | | | |d]; try (split; [by intros [? ?] | by intros (? & ? & _)]). rewrite object_iff.
  rewrite <- !get_required by (auto; done). rewrite <- (keys_nil d ["major"; "minor"] "$.schema_version"). unfold _validate_version, a_size.
  split.
  - intros [Hm He]. destruct (get_or_none "major" d); try done. destruct (get_or_none "minor" d); try done.
    destruct (_ || _) eqn:Hz; [done |]. injection Hm as ->. apply orb_false_iff in Hz as [_ Hz]. apply Z.ltb_ge in Hz.
    split; [done |]. split; [done |]. by eexists.
  - intros (Hk & <- & z & -> & Hz). rewrite (proj2 (Z.ltb_ge z 0)) by done. cbn. by rewrite Hk.
Qed.
Lemma source_nil v : _validate_source v = [] <-> a_source v.
Proof.
  apply object_nil. intros d. nils. rewrite among_nil, (get_required "surface") by apply text_not_none.
  rewrite !opt_limit_nil, !required_split.
  rewrite (bool_decide_true ("adapter" = "adapter")), !bool_decide_false by done. tauto.
Qed.
Lemma subagent_nil v : _validate_subagent v = [] <-> a_subagent v.
Proof.
  apply object_nil. intros d. nils. rewrite !required_split, <- !has_key_spec.
  destruct (has_key "id" d), (has_key "type" d); rewrite ?opt_identifier_nil; naive_solver.
Qed.
Lemma checkpoint_nil v : _validate_checkpoint v = [] <-> a_checkpoint v.
Proof.
  apply object_nil. intros d. unfold CHECKPOINT_FIELDS. nils. rewrite opt_among_nil, !opt_size_nil, opt_digest_nil, err_if_nil, !required_split.
  assert (is_Some (dict_get "start" d) /\ optional d "start" a_size /\ is_Some (dict_get "end" d) /\ optional d "end" a_size /\ end_before_start d = false
    <-> exists s e, dict_get "start" d = Some (PInt s) /\ dict_get "end" d = Some (PInt e) /\ (0 <= s <= e)%Z) as <-; [|tauto].
  unfold end_before_start, optional, get_or_none. split.
  - intros ([x Hx] & Hsx & [y Hy] & Hsy & He). rewrite Hx, Hy in *. destruct (Hsx _ eq_refl) as (s & -> & ?), (Hsy _ eq_refl) as (e & -> & ?).
    cbn in He. apply Z.ltb_ge in He. by exists s, e.
  - intros (s & e & -> & -> & ?). cbn. rewrite Z.ltb_ge. split_and!; try done; [..|lia]; intros ? [= <-]; eexists; (split; [done | lia]).
Qed.
Lemma check_required d f c p (check : pyobj -> errors) (P : pyobj -> Prop) : (forall v, check v = [] <-> P v) ->
  match dict_get f d with None => err c p | Some v => check v end = [] <-> required d f P.
Proof. intros Hc. unfold required. destruct (dict_get f d) as [v|]; [rewrite Hc |]; naive_solver. Qed.
Lemma capture_nil v : _validate_capture v = [] <-> a_capture v.
Proof.
  apply object_nil. intros d. nils. rewrite !(check_required d _ _ _ _ (among _) (fun v => among_nil _ v _)).
  assert (forall v, match v with PDict counters => counters.*2 ≫= (fun v => _validate_size v "$.capture.counters") | _ => err "wrong_type" "$.capture.counters" end = []
    <-> an_object (fun counters => forall v, v ∈ counters.*2 -> a_size v) v) as Hcounters.
  { intros v'. apply (object_nil v' "wrong_type" "$.capture.counters"). intros counters. rewrite bind_nil. by setoid_rewrite size_nil. }
  rewrite <- (check_required d "counters" "missing_field" "$.capture.counters" _ _ Hcounters).
  destruct (dict_get "counters" d) as [[]|]; tauto.
Qed.
Lemma within_only fields (d : dict) : keys_within fields d = true <-> only fields d.
Proof.
  unfold keys_within, only. rewrite forallb_forall. setoid_rewrite <- list_elem_of_In. setoid_rewrite fst_spec. by setoid_rewrite bool_decide_eq_true.
Qed.
Lemma has_keys_all fields (d : dict) : has_keys fields d = true <-> forall f, f ∈ fields -> is_Some (dict_get f d).
Proof. unfold has_keys. rewrite forallb_forall. setoid_rewrite <- list_elem_of_In. by setoid_rewrite has_key_spec. Qed.
Lemma known_text_nil v ok c p (P : string -> Prop) : (forall s, ok s = true <-> P s) -> err_if (negb (known_text v ok)) c p = [] <-> or_unknown P v.
Proof.
  intros Hok. rewrite err_if_nil, negb_false_iff. unfold known_text, or_unknown, a_text. destruct v; try naive_solver.
  rewrite orb_true_iff, bool_decide_eq_true, Hok. naive_solver.
Qed.
Lemma dirty_nil v : match v with
    | PBool _ => []
    | PStr s => err_if (bool_decide (s ≠ "unknown")) "invalid_repository_provenance" "$.repository.dirty"
    | _ => err "wrong_type" "$.repository.dirty"
    end = [] <-> v = PStr "unknown" \/ exists b, v = PBool b.
Proof.
  destruct v; try naive_solver. rewrite err_if_nil, bool_decide_eq_false. split; [intros ->%dec_stable; by left | intros [[= ->]|[? ?]]; [by intros [] | done]].
Qed.
Lemma repository_nil v : _validate_repository v = [] <-> a_repository v.
Proof.
  apply object_nil. intros d. cbv zeta.
  rewrite !app_nil, keys_nil, missing_nil, <- has_keys_all, <- within_only.
  assert (keys_are REPOSITORY_FIELDS d = keys_within REPOSITORY_FIELDS d && has_keys REPOSITORY_FIELDS d) as -> by done.
  destruct (keys_within REPOSITORY_FIELDS d); [|naive_solver]. destruct (has_keys REPOSITORY_FIELDS d) eqn:Hk; cbn [andb negb].
  - rewrite !app_nil, dirty_nil.
    rewrite (known_text_nil _ _ _ _ (fun s => py_len s <= MAX_IDENTIFIER_LENGTH /\ fullmatch REMOTE_PATTERN s = true)),
      (known_text_nil _ _ _ _ (fun s => fullmatch COMMIT_RE s = true)),
      (known_text_nil _ _ _ _ (fun s => py_len s <= MAX_IDENTIFIER_LENGTH /\ fullmatch BRANCH_PATTERN s = true /\ contains ".." s = false /\ contains "//" s = false)).
    + pose proof (get_required "dirty" d (fun v => v = PStr "unknown" \/ exists b, v = PBool b) ltac:(by intros [?|[? ?]])) as Hdirty.
      cbv beta in Hdirty. rewrite Hdirty, (get_required "remote" d (or_unknown _)), (get_required "commit" d (or_unknown _)),
        (get_required "branch" d (or_unknown _)) by apply text_not_none. tauto.
    + intros s. rewrite !andb_true_iff, Nat.leb_le, !negb_true_iff. tauto.
    + done.
    + intros s. rewrite !andb_true_iff, Nat.leb_le. done.
  - split; [naive_solver |]. intros (_ & Hr & Hc & Hb & Hd). exfalso. apply not_true_iff_false in Hk. apply Hk, has_keys_all.
    apply required_split in Hr as [? _], Hc as [? _], Hb as [? _], Hd as [? _]. unfold REPOSITORY_FIELDS. set_solver.
Qed.
Lemma metadata_nil d : _validate_record_metadata d false = [] <->
  required d "record_count" a_size /\ required d "content_size" a_size /\ required d "content_sha256" a_digest.
Proof.
  unfold _validate_record_metadata. nils. rewrite !(check_required d _ _ _ _ a_size (fun v => size_nil v _)), digest_nil.
  rewrite (get_required "content_sha256" d a_digest) by apply text_not_none. tauto.
Qed.
Lemma all_dicts l : forallb is_dict l = true <-> exists rs, l = PDict <$> rs.
Proof.
  split.
  - induction l as [|v l IH]; [by exists [] |]. simpl. rewrite andb_true_iff. intros [Hv (rs & ->)%IH]. destruct v; try done. by exists (d :: rs).
  - intros [rs ->]. by induction rs.
Qed.
Lemma records_nil d : _validate_record_metadata d true = [] <-> has_records d.
Proof.
  unfold _validate_record_metadata. nils. rewrite !(check_required d _ _ _ _ a_size (fun v => size_nil v _)), digest_nil. split.
  - intros ((Hcount & Hsize & _) & (h & Hh & Hd) & Hr). destruct (get_or_none "records" d) as [| | | | |l|] eqn:Hl; try done.
    destruct (forallb is_dict l) eqn:Hdicts; [|done]. apply all_dicts in Hdicts as [rs ->]. unfold record_errors in Hr.
    destruct Hcount as (? & Hn & n & -> & _), Hsize as (? & Hm & m & -> & _). rewrite (get_some _ _ _ Hn), (get_some _ _ _ Hm), Hh in Hr.
    apply app_nil in Hr as [Hc Hr]. destruct (canonical_json (PList (PDict <$> rs))) as [text|] eqn:Ht; [|done]. apply app_nil in Hr as [Hs Hr].
    rewrite err_if_nil in Hc, Hs, Hr. apply negb_false_iff, Z.eqb_eq in Hc, Hs. apply bool_decide_eq_false, dec_stable in Hr. subst.
    rewrite length_fmap in Hn. exists rs, text. split_and!; try done; by apply get_some_inv.
  - intros (rs & text & Hl & Ht & Hn & Hm & Hh & Hd). rewrite (get_some _ _ _ Hl), (get_some _ _ _ Hh).
    rewrite (proj2 (all_dicts (PDict <$> rs))) by eauto. unfold record_errors. rewrite (get_some _ _ _ Hn), (get_some _ _ _ Hm), (get_some _ _ _ Hh), Ht.
    rewrite length_fmap, !Z.eqb_refl, bool_decide_false by tauto. split_and!; try done.
    + exists (PInt (Z.of_nat (length rs))). split; [done |]. eexists. split; [done | lia].
    + exists (PInt (Z.of_nat (py_len text))). split; [done |]. eexists. split; [done | lia].
    + by eexists.
Qed.

Lemma reference_nil seen path v : asset_ref_errors seen path v = [] <-> exists o, is_reference v o /\ (forall s, o = Some s -> s ∉ seen).
Proof.
  unfold asset_ref_errors, is_reference. destruct v as [| | | | | |d]; try (split; [done |]; by intros (? & (? & ? & _) & _)).
  cbn [with_dict]. setoid_rewrite object_iff. nils.
  rewrite !err_if_nil, negb_false_iff, within_only, digest_nil, size_nil, among_nil. fold a_digest a_size.
  rewrite (get_required "sha256" d a_digest), (get_required "size" d a_size), (get_required "media_category" d (among _))
    by (apply text_not_none || apply size_not_none). unfold optional, get_or_none.
  destruct (dict_get "asset_id" d) as [v|] eqn:Hv; cbn [default].
  - split.
    + intros (Hdup & Hid & Hrest). destruct (Hid v eq_refl) as (s & -> & Hs). exists (Some s). cbn in Hdup. apply bool_decide_eq_false in Hdup.
      split; [unfold is_identifier; tauto | by intros ? [= <-]].
    + intros ([s|] & Hr & Hs); [|by destruct Hr as (_ & _ & _ & _ & ?)]. destruct Hr as (? & ? & ? & ? & [= ->] & ?). specialize (Hs s eq_refl). cbn.
      rewrite bool_decide_false by done. split; [done |]. split; [|done]. intros ? [= <-]. by eexists.
  - split; [intros (_ & _ & Hrest); exists None; split; [tauto | done] |].
    intros ([s|] & Hr & _); [by destruct Hr as (_ & _ & _ & _ & ? & _) |]. split; [done |]. split; [done | tauto].
Qed.
Lemma reference_ids v o : is_reference v o -> asset_id_of v = match o with Some s => [s] | None => [] end.
Proof. intros (d & -> & _ & _ & _ & _ & Ho). unfold asset_id_of, get_or_none. destruct o; [destruct Ho as [-> _] | rewrite Ho]; done. Qed.
Lemma references_fresh i seen refs : asset_refs_errors i seen refs = [] <->
  exists ids, Forall2 is_reference refs ids /\ NoDup (omap id ids) /\ (forall s, Some s ∈ ids -> s ∉ seen).
Proof.
  revert i seen. induction refs as [|v refs IH]; intros i seen; cbn [asset_refs_errors].
  { split; [|done]. intros _. exists []. split; [constructor |]. split; [constructor | by intros s ?%not_elem_of_nil]. }
  rewrite app_nil, reference_nil, IH. split.
  - intros ((o & Ho & Hfresh) & ids & Hids & Hnd & Hseen). rewrite (reference_ids _ _ Ho) in Hseen. exists (o :: ids). split; [by constructor |].
    destruct o as [s|]; cbn; [|split; [done |]; intros s' [?|Hin]%elem_of_cons; [done | by apply Hseen]].
    split; [apply NoDup_cons; split; [|done] |].
    + intros (o & Ho' & Hos)%list_elem_of_omap. cbn in Hos. subst o. apply (Hseen s Ho'). set_solver.
    + intros s' [[= ->]|Hin]%elem_of_cons; [by apply Hfresh | intros ?; by apply (Hseen s' Hin), elem_of_app; right].
  - intros (ids & Hids & Hnd & Hseen). apply Forall2_cons_inv_l in Hids as (o & ids' & Ho & Hids & ->). split.
    + exists o. split; [done |]. intros s ->. apply Hseen. left.
    + exists ids'. split; [done |]. rewrite (reference_ids _ _ Ho). destruct o as [s|]; cbn in Hnd.
      * apply NoDup_cons in Hnd as [Hs Hnd]. split; [done |]. intros s' Hs' [->|Hin]%elem_of_cons; [|by eapply Hseen; [right |]].
        apply Hs, list_elem_of_omap. by exists (Some s).
      * split; [done |]. intros s Hs. apply Hseen. by right.
Qed.
Lemma references_nil v : _validate_asset_refs v = [] <-> references v.
Proof.
  unfold _validate_asset_refs, references. destruct v; try (split; [done | by intros (? & ? & ? & _)]). rewrite references_fresh. split.
  - intros (ids & ? & ? & _). eauto.
  - intros (? & ids & [= <-] & ? & ?). exists ids. split; [done |]. split; [done |]. by intros s _ ?%not_elem_of_nil.
Qed.
Lemma session_nil d segment : session_errors d segment = [] <->
  of_session d /\ (if segment then has_records d /\ optional d "previous_segment_sha256" a_digest /\ optional d "asset_refs" references
                   else required d "record_count" a_size /\ required d "content_size" a_size /\ required d "content_sha256" a_digest
                        /\ optional d "last_segment_sha256" a_digest).
Proof.
  unfold session_errors, of_session.
  assert ((forall f, f ∈ ["profile_id"; "workspace_id"; "device_id"] -> is_Some (dict_get f d)) <-> missing d ["profile_id"; "workspace_id"; "device_id"] "$" = []) as -> by (by rewrite missing_nil).
  rewrite !app_nil, source_nil, capture_nil, (opt_nil d _ _ _ subagent_nil), (opt_nil d _ _ _ repository_nil), (opt_nil d _ _ _ (fun v => time_nil v _)).
  rewrite (check_required d "checkpoint" _ _ _ _ checkpoint_nil).
  rewrite (get_required "source" d a_source), (get_required "capture" d a_capture) by apply object_not_none.
  destruct segment; [rewrite records_nil, app_nil, opt_digest_nil, (opt_nil d _ _ _ references_nil) | rewrite metadata_nil, opt_digest_nil]; tauto.
Qed.
Lemma nonempty_nil v c p : err_if (negb (nonempty_text v)) c p = [] <-> a_text (fun s => s ≠ "") v.
Proof.
  rewrite err_if_nil, negb_false_iff. unfold nonempty_text, a_text. destruct v; try naive_solver. rewrite bool_decide_eq_true. naive_solver.
Qed.
Lemma asset_nil d : asset_errors d = [] <->
  required d "asset_id" (an_identifier MAX_IDENTIFIER_LENGTH) /\ required d "source_event_id" (an_identifier MAX_IDENTIFIER_LENGTH)
  /\ required d "sha256" a_digest /\ required d "size" a_size /\ required d "media_category" (among MEDIA_CATEGORIES)
  /\ required d "content_type" (a_text (fun s => s ≠ "")) /\ required d "capture" a_capture.
Proof.
  unfold asset_errors. nils. rewrite opt_digest_nil, opt_size_nil, opt_among_nil, (opt_nil d _ _ _ (fun v => nonempty_nil v _ _)), (opt_nil d _ _ _ capture_nil).
  rewrite !required_split. tauto.
Qed.
Lemma time_nonempty v : a_time v -> nonempty_text v = true.
Proof. intros (s & -> & Hm & _). simpl. apply bool_decide_eq_true. intros ->. by vm_compute in Hm. Qed.
Lemma discovery_nil v : discovery_errors v = [] <-> an_object (fun v =>
  only ["state"; "observed_at"] v /\ required v "state" (among DISCOVERY_STATES) /\ required v "observed_at" a_time) v.
Proof.
  apply object_nil. intros d. nils. rewrite among_nil, (get_required "state" d (among _)), <- (get_required "observed_at" d a_time) by apply text_not_none.
  destruct (nonempty_text (get_or_none "observed_at" d)) eqn:Hn; cbn [negb]; [by rewrite time_nil |].
  split; [by intros (_ & _ & ?) |]. intros (_ & _ & Ht%time_nonempty). congruence.
Qed.
Lemma content_type_nil v c p : err_if (negb (is_str_in CONTENT_TYPES v)) c p = [] <-> among CONTENT_TYPES v.
Proof. rewrite err_if_nil, <- (among_nil CONTENT_TYPES v "$"). unfold _validate_enum. by rewrite err_if_nil. Qed.
Lemma index_nil d : index_errors d = [] <->
  required d "evidence_kind" (among EVIDENCE_KINDS) /\ required d "evidence_event_id" (an_identifier MAX_IDENTIFIER_LENGTH)
  /\ required d "content_sha256" a_digest /\ required d "ciphertext_sha256" a_digest /\ required d "ciphertext_size" a_size
  /\ required d "content_type" (among CONTENT_TYPES) /\ required d "discovery" (an_object (fun v =>
      only ["state"; "observed_at"] v /\ required v "state" (among DISCOVERY_STATES) /\ required v "observed_at" a_time)).
Proof.
  unfold index_errors. nils. rewrite !opt_digest_nil, opt_size_nil, opt_among_nil, (opt_nil d _ _ _ (fun v => content_type_nil v _ _)), discovery_nil.
  rewrite (get_required "discovery" d (an_object _)) by apply object_not_none. rewrite !required_split. tauto.
Qed.

(** A document is accepted exactly when it has the shape of its kind. *)
Lemma accepted_spec d : accepted d <-> exists k, k ∈ KINDS /\ headed d k /\ kind_errors (PStr k) d = [].
Proof.
  rewrite accepted_iff. unfold headed.
  assert ((_validate_version (get_or_none "schema_version" d)).1 = Some CURRENT_MAJOR /\ (_validate_version (get_or_none "schema_version" d)).2 = []
    <-> required d "schema_version" a_version) as Hversion.
  { rewrite version_nil. apply get_required, object_not_none. }
  assert (_validate_path_metadata d = [] <-> forall f, is_Some (dict_get f d) -> fullmatch PATH_METADATA_PATTERN f = false) as ->.
  { unfold _validate_path_metadata. rewrite bind_nil. setoid_rewrite err_if_nil. by setoid_rewrite fst_spec. }
  assert (forall f s, get_or_none f d = PStr s <-> dict_get f d = Some (PStr s)) as Htext.
  { intros f s. split; [by intros Hg; apply get_some_inv | apply get_some]. }
  setoid_rewrite opt_identifier_nil. nils. rewrite Htext. split.
  - intros (Hv1 & Hpath & Hname & (k & Hk & Hin) & Hv2 & (_ & _ & _ & Hev) & Hevo & Htop & He). rewrite Hk in He. exists k. split; [done |]. split; [|done].
    split; [by apply Htext |]. split; [done |]. split; [by apply Hversion |]. split; [by apply required_split |]. done.
  - intros (k & Hin & (Hk & Hname & Hversion' & [Hev Hevo]%required_split & Htop & Hpath) & He).
    destruct (proj2 Hversion Hversion') as [Hv1 Hv2].
    split; [done |]. split; [done |]. split; [done |]. split; [exists k; split; [by apply get_some | done] |]. split; [done |].
    rewrite (get_some _ _ _ Hk). split_and!; try done; by apply required_split in Hversion' as [? _] || by eexists.
Qed.
Lemma accepted_well_formed d : accepted d <-> well_formed d.
Proof.
  rewrite accepted_spec. split.
  - intros (k & Hin & Hh & He). unfold kind_errors in He. repeat case_bool_decide; subst.
    + apply session_nil in He as (? & ? & ? & ?). by apply wf_segment.
    + apply session_nil in He as (? & ? & ? & ? & ?). by apply wf_final.
    + apply asset_nil in He as (? & ? & ? & ? & ? & ? & ?). by apply wf_asset.
    + apply index_nil in He as (? & ? & ? & ? & ? & ? & ?). by apply wf_index.
    + exfalso. unfold KINDS in Hin. set_solver.
  - intros [Hh|Hh|Hh|Hh].
    + exists "session-segment". split; [is_member |]. split; [done |]. apply session_nil. auto.
    + exists "session-final". split; [is_member |]. split; [done |]. apply session_nil. auto 10.
    + exists "session-asset". split; [is_member |]. split; [done |]. apply asset_nil. auto 10.
    + exists "index-event". split; [is_member |]. split; [done |]. apply index_nil. auto 10.
Qed.
End documents.
