(* ===== verification/Replay.v ===== *)
(** * Replay of captured sessions ([src/josh_room/pcc_replay.py])

    A reader lists the encrypted index objects of a bucket, reads, decrypts and checks
    each and the object it names, verifies the chain of segments of every session, and
    hands out the records of a page of indexes.  What cannot be verified is set aside. *)

From Stdlib Require Import Ascii.
From S2P Require Import Prelude PyStr PyObj PyDatetime PyJson LogicalJat CatalogFile Base64 SessionEvidence.

Definition SCHEMA : string := "josh-room.pcc-replay".
Definition SCHEMA_VERSION : dict := [("major", PInt 1); ("minor", PInt 0)].
Definition _CURSOR_VERSION : Z := 1.
Definition _IDENTIFIER : re := RCat (RCls is_alnum) (upto 127 (RCls (id_char "._~-"))).
Definition _DIGEST : re := exactly 64 (RCls is_hex).
Definition _MAX_CURSOR_BYTES : nat := 4096.
Definition _MAX_JSONL_RECORD_BYTES : Z := 4 * 1024 * 1024.
Definition _MAX_REPLAY_PAGE_SIZE : Z := 8.
Definition _MAX_REPLAY_INDEXES : Z := 100000.
Definition _MAX_REPLAY_CIPHERTEXT_BYTES : Z := 80 * 1024 * 1024.
Definition _MAX_REPLAY_SEGMENT_BYTES : Z := 4 * 1024 * 1024.
Definition _MAX_REPLAY_RECORDS_PER_SEGMENT : Z := 128.
Definition _MAX_REPLAY_ASSETS_PER_SEGMENT : Z := 32.
Definition _DEFAULT_REPLAY_SCAN_BYTES : Z := 1024 * 1024 * 1024.
Definition _MAX_REPLAY_SCAN_BYTES : Z := 8 * 1024 * 1024 * 1024.
Definition _R2_DISCOVERY_PAGE_SIZE : Z := 1000.
Definition _R2_DISCOVERY_MAX_PAGES : Z := 128.

(** ** Limits *)
Record ReplayLimits := { page_size : Z; max_indexes : Z; max_ciphertext_bytes : Z; max_scan_bytes : Z }.
(** [type(value) is not int or not 0 < value <= top] *)
Definition bounded (value : pyobj) (top : Z) (what : string) : result Z :=
  match value with
  | PInt z => raise_if (negb ((0 <? z)%Z && (z <=? top)%Z)) (EValue what) ;; Ok z
  | _ => Raise (EValue what)
  end.
Definition ReplayLimits_init (page indexes ciphertext scan : pyobj) : result ReplayLimits :=
  p ← bounded page _MAX_REPLAY_PAGE_SIZE "replay page size is invalid";
  i ← bounded indexes _MAX_REPLAY_INDEXES "replay index bound is invalid";
  c ← bounded ciphertext _MAX_REPLAY_CIPHERTEXT_BYTES "replay ciphertext bound is invalid";
  s ← bounded scan _MAX_REPLAY_SCAN_BYTES "replay scan byte bound is invalid";
  Ok {| page_size := p; max_indexes := i; max_ciphertext_bytes := c; max_scan_bytes := s |}.
Definition default_limits : ReplayLimits :=
  {| page_size := _MAX_REPLAY_PAGE_SIZE; max_indexes := 1000; max_ciphertext_bytes := _MAX_REPLAY_CIPHERTEXT_BYTES;
     max_scan_bytes := _DEFAULT_REPLAY_SCAN_BYTES |}.

(** ** Index keys ([src/josh_room/r2.py]) *)
Definition EVIDENCE_INDEX_PREFIX : string := "evidence/index/v1/".
Definition EVIDENCE_OBJECT_PREFIX : string := "evidence/objects/sha256/".
Definition _EVIDENCE_INDEX_KEY : re :=
  RCat (lit EVIDENCE_INDEX_PREFIX) (RCat (exactly 2 (RCls is_hex)) (RCat (lit "/") (RCat (exactly 64 (RCls is_hex)) (lit ".age")))).
(** The two groups of a match are at fixed places. *)
Definition validate_evidence_index_key (key : string) : result string :=
  let rest := removeprefix EVIDENCE_INDEX_PREFIX key in
  let digest := str_take 64 (str_drop 3 rest) in
  raise_if (negb (fullmatch _EVIDENCE_INDEX_KEY key) || bool_decide (str_take 2 rest ≠ str_take 2 digest)) (EValue "invalid evidence index key") ;;
  Ok digest.
Definition evidence_object_key (ciphertext_sha256 : string) : result string :=
  raise_if (negb (fullmatch _DIGEST ciphertext_sha256)) (EValue "invalid evidence ciphertext digest") ;;
  Ok (EVIDENCE_OBJECT_PREFIX +:+ ciphertext_sha256).

(** ** Records *)
Record ReplayCursor := { cursor_profile : string; cursor_destination : string; last_index_key : option string }.
Record QuarantineReceipt := {
  reason_code : string;
  index_key : option string;
  receipt_event_id : option string;
  receipt_sha256 : option string;
  receipt_size : option Z;
  cursor : option string;
}.
Record ReplayPage := {
  records : list dict;
  quarantines : list dict;
  page_cursor : option string;
  complete : bool;
  inspected_indexes : nat;
}.
Record _IndexRef := { key : string; ref_sha256 : string; ref_size : Z; listing_error : option string }.
Record _Evidence := { index : _IndexRef; index_document : dict; document : dict }.
Record _ChainEvidence := { chain_index : _IndexRef; chain_document : dict; digest : option string; evidence : option _Evidence }.

(** What discovery lists: the four attributes, or items, of an entry. *)
Record raw_ref := { raw_key : pyobj; raw_sha256 : pyobj; raw_size : pyobj; raw_error : pyobj }.
(** What a decryptor returns: an envelope, a mapping with three items, or something else;
    bytes are text of 8-bit characters. *)
Inductive envelope :=
| DecryptedEnvelope (manifest document : dict) (payload : string)
| EnvelopeMapping (manifest document : pyobj) (payload : option string)
| NoEnvelope.
(** The ways a decryptor is called. *)
Inductive decryptor_call := WithPaths (paths : list string) | WithKind | BodyOnly.

(** The backend, the keyword arguments and the attributes of a reader. *)
Record ReplayReader := {
  discover : option (Z -> Z -> Z -> result (option (list raw_ref)));
  get_evidence_index_bytes : string -> Z -> result (option string);
  get_evidence_bytes : string -> Z -> result (option string);
  profile_id : string;
  destination : string;
  workspace_id : string;
  identity_paths : list string;
  decryptor : option (decryptor_call -> string -> string -> result envelope);
  limits : ReplayLimits;
}.

(** The temporary file for age, [pcc_crypto.decrypt_envelope] on it, and [str()] of what
    is not a string. *)
Class ReplayRuntime := {
  write_temporary : string -> result unit;
  decrypt_envelope : list string -> string -> result envelope;
  str_other : pyobj -> string;
}.

Section replay.
Context `{PyRuntime, JsonRuntime, ReplayRuntime}.

Definition py_str (v : pyobj) : string := match v with PStr s => s | _ => str_other v end.
Definition fail {A} (code : string) : result A := Raise (EReplay code).
(** [v in set] for a set of strings *)
Definition member (v : pyobj) (set : list string) : result bool :=
  if hashable v then Ok (is_str_in set v) else Raise (EType "unhashable type").
Definition opt_item (k : string) (v : option pyobj) : dict := match v with Some v => [(k, v)] | None => [] end.

(** ** Cursors *)
Definition encode (c : ReplayCursor) : result string :=
  text ← canonical_json (PDict [("version", PInt _CURSOR_VERSION); ("profile_id", PStr (cursor_profile c));
           ("destination", PStr (cursor_destination c)); ("last_index_key", opt_str (last_index_key c))]);
  let encoded := unpadded text in
  raise_if (_MAX_CURSOR_BYTES <? py_len encoded)%nat (EReplay "cursor-too-large") ;;
  Ok encoded.

Definition padding (s : string) : string := of_chars (replicate ((4 - py_len s mod 4) mod 4) pad).
Definition decode (value profile_id destination : string) : result ReplayCursor :=
  raise_if (bool_decide (value = "") || (_MAX_CURSOR_BYTES <? py_len value)%nat) (EReplay "cursor-invalid") ;;
  body ← reraise is_type_or_value_error (EReplay "cursor-invalid") (raw ← urlsafe_b64decode (value +:+ padding value); loads_bytes raw);
  match body with
  | PDict d =>
      raise_if (negb (py_eq (get_or_none "version" d) (PInt _CURSOR_VERSION)) || negb (py_eq (get_or_none "profile_id" d) (PStr profile_id))
                || negb (py_eq (get_or_none "destination" d) (PStr destination))) (EReplay "cursor-invalid") ;;
      match get_or_none "last_index_key" d with
      | PNone => Ok {| cursor_profile := profile_id; cursor_destination := destination; last_index_key := None |}
      | PStr s =>
          raise_if (negb (startswith EVIDENCE_INDEX_PREFIX s)) (EReplay "cursor-invalid") ;;
          Ok {| cursor_profile := profile_id; cursor_destination := destination; last_index_key := Some s |}
      | _ => fail "cursor-invalid"
      end
  | _ => fail "cursor-invalid"
  end.

(** ** Receipts and pages *)
Definition QuarantineReceipt_to_dict (r : QuarantineReceipt) (profile_id destination : string) : result dict :=
  identity ← canonical_json (PDict [("profile_id", PStr profile_id); ("destination", PStr destination); ("reason_code", PStr (reason_code r));
    ("index_key", opt_str (index_key r)); ("event_id", opt_str (receipt_event_id r)); ("ciphertext_sha256", opt_str (receipt_sha256 r));
    ("ciphertext_size", opt_int (receipt_size r))]);
  Ok ([("schema", PStr SCHEMA); ("schema_version", PDict SCHEMA_VERSION); ("type", PStr "quarantine"); ("quarantine_id", PStr (sha256 identity));
       ("profile_id", PStr profile_id); ("destination", PStr destination); ("reason_code", PStr (reason_code r))]
      ++ opt_item "index_key" (PStr <$> index_key r) ++ opt_item "event_id" (PStr <$> receipt_event_id r)
      ++ opt_item "ciphertext_sha256" (PStr <$> receipt_sha256 r) ++ opt_item "ciphertext_size" (PInt <$> receipt_size r)
      ++ opt_item "cursor" (PStr <$> cursor r)).

(** The lines the generator yields, and the exception it then raises. *)
Fixpoint item_lines (items : list dict) : list string * option exn :=
  match items with
  | [] => ([], None)
  | item :: items =>
      let encoded := dumps false (PDict item) in
      if (_MAX_JSONL_RECORD_BYTES <? Z.of_nat (length (utf8_bytes encoded)))%Z then ([], Some (EReplay "normalized-record-too-large"))
      else let '(lines, e) := item_lines items in (encoded :: lines, e)
  end.
Definition summary (p : ReplayPage) : dict :=
  [("schema", PStr SCHEMA); ("schema_version", PDict SCHEMA_VERSION); ("type", PStr "summary"); ("next_cursor", opt_str (page_cursor p));
   ("complete", PBool (complete p)); ("inspected_indexes", PInt (Z.of_nat (inspected_indexes p)));
   ("records", PInt (Z.of_nat (length (records p)))); ("quarantined", PInt (Z.of_nat (length (quarantines p))))].
Definition jsonl (p : ReplayPage) : list string * option exn :=
  match item_lines (records p ++ quarantines p) with
  | (lines, None) => (lines ++ [dumps true (PDict (summary p))], None)
  | failed => failed
  end.

(** ** Discovery *)
Definition LISTING_ERRORS : list string := ["ciphertext-size-invalid"; "ciphertext-too-large"].
Definition _safe_ref (value : raw_ref) : result _IndexRef :=
  match raw_key value with
  | PStr k =>
      key_digest ← reraise is_type_or_value_error (EReplay "index-reference-invalid") (validate_evidence_index_key k);
      match raw_size value with
      | PInt size =>
          raise_if (negb (py_eq (raw_sha256 value) (PStr key_digest)) || (size <? 0)%Z
                    || negb (is_none (raw_error value) || is_str_in LISTING_ERRORS (raw_error value))
                    || (negb (is_none (raw_error value)) && negb (size =? 0)%Z)) (EReplay "index-reference-invalid") ;;
          Ok {| key := k; ref_sha256 := key_digest; ref_size := size; listing_error := as_str (raw_error value) |}
      | _ => fail "index-reference-invalid"
      end
  | _ => fail "index-reference-invalid"
  end.

Definition ref_le (a b : _IndexRef) : Prop := String.le (key a) (key b).
#[export] Instance ref_le_dec : RelDecision ref_le.
Proof. intros a b. unfold ref_le. apply _. Defined.

(** The dictionary by key, whether something was left out, and how many entries the loop
    took. *)
Fixpoint collect (top : Z) (refs : list raw_ref) (result : list _IndexRef) (truncated : bool) (raw_count : Z) : list _IndexRef * bool * Z :=
  match refs with
  | [] => (result, truncated, raw_count)
  | raw :: refs =>
      match _safe_ref raw with
      | Raise _ => collect top refs result true (raw_count + 1)
      | Ok ref =>
          let result := if existsb (fun r => bool_decide (key r = key ref)) result then result else result ++ [ref] in
          if (top <? Z.of_nat (length result))%Z then (result, true, (raw_count + 1)%Z) else collect top refs result truncated (raw_count + 1)
      end
  end.

Context (self : ReplayReader).
Let max_ciphertext := max_ciphertext_bytes (limits self).

Definition _discover : result (list _IndexRef * bool) :=
  match discover self with
  | None => fail "index-discovery-unavailable"
  | Some list_indexes =>
      let top := max_indexes (limits self) in
      match list_indexes (top + 1)%Z _R2_DISCOVERY_PAGE_SIZE _R2_DISCOVERY_MAX_PAGES with
      | Raise e => if bool_decide (e = EEvidence "index-discovery-incomplete") then Ok ([], true) else fail "index-discovery-failed"
      | Ok None => fail "index-discovery-invalid"
      | Ok (Some refs) =>
          let '(found, truncated, raw_count) := collect top refs [] false 0 in
          Ok (take (Z.to_nat top) (merge_sort ref_le found), truncated || (top + 1 <=? raw_count)%Z)
      end
  end.

(** [self.limits.page_size if limit is None else limit], checked *)
Definition page_bound (limit : option pyobj) : result nat :=
  let bad := EReplay "limit-invalid" in
  match default (PInt (page_size (limits self))) limit with
  | PInt z => raise_if (negb ((0 <? z)%Z && (z <=? page_size (limits self))%Z)) bad ;; Ok (Z.to_nat z)
  | _ => Raise bad
  end.
Definition at_key (last : option string) : ReplayCursor :=
  {| cursor_profile := profile_id self; cursor_destination := destination self; last_index_key := last |}.
(** [ReplayCursor.decode(cursor, ...) if cursor else ReplayCursor(...)] *)
Definition decode_or_start (cursor : option string) : result ReplayCursor :=
  match cursor with
  | Some c => if bool_decide (c = "") then Ok (at_key None) else decode c (profile_id self) (destination self)
  | None => Ok (at_key None)
  end.
(** [ReplayCursor(...).encode() if last else None] *)
Definition encode_at (last : option string) : result (option string) :=
  match last with
  | Some k => if bool_decide (k = "") then Ok None else Some <$> encode (at_key (Some k))
  | None => Ok None
  end.
Definition after_key (last : option string) (ref : _IndexRef) : bool :=
  match last with Some k => bool_decide (¬ String.le (key ref) k) | None => true end.
Definition available (last : option string) (refs : list _IndexRef) : list _IndexRef := filter (fun r => after_key last r = true) refs.
Definition last_key (selected : list _IndexRef) (before : option string) : option string :=
  match last selected with Some r => Some (key r) | None => before end.

Definition index_json (r : _IndexRef) : pyobj :=
  PDict ([("key", PStr (key r)); ("ciphertext_sha256", PStr (ref_sha256 r));
          ("ciphertext_size", match listing_error r with Some _ => PNone | None => PInt (ref_size r) end)]
         ++ opt_item "error_code" (PStr <$> listing_error r)).
Definition inspect (cursor : option string) (limit : option pyobj) : result dict :=
  bound ← page_bound limit;
  decoded ← decode_or_start cursor;
  '(all_refs, truncated) ← _discover;
  let refs := available (last_index_key decoded) all_refs in
  let selected := take bound refs in
  next ← encode_at (last_key selected (last_index_key decoded));
  Ok [("schema", PStr SCHEMA); ("schema_version", PDict SCHEMA_VERSION); ("ok", PBool true); ("metadata_only", PBool true);
      ("profile_id", PStr (profile_id self)); ("workspace_id", PStr (workspace_id self)); ("destination", PStr (destination self));
      ("indexes", PList (index_json <$> selected)); ("next_cursor", opt_str next);
      ("complete", PBool (negb truncated && (length refs <=? bound)%nat))].

(** ** Reading and decrypting *)
Definition is_mismatch (e : exn) : bool := bool_decide (e = EEvidence "readback-mismatch").
Definition any_exception (e : exn) : bool := true.
(** [except R2EvidenceReadbackMismatch: ... except Exception: ...] *)
Definition fetched {A} (code : string) (m : result A) : result A :=
  match m with Ok a => Ok a | Raise e => fail (if is_mismatch e then "digest-mismatch" else code) end.

Definition _read_index (ref : _IndexRef) : result string :=
  raise_if (max_ciphertext <? ref_size ref)%Z (EReplay "ciphertext-too-large") ;;
  body ← fetched "index-read-failed" (get_evidence_index_bytes self (key ref) (ref_size ref));
  match body with
  | None => fail "ciphertext-too-large"
  | Some b =>
      raise_if (max_ciphertext <? Z.of_nat (py_len b))%Z (EReplay "ciphertext-too-large") ;;
      raise_if (negb (Z.of_nat (py_len b) =? ref_size ref)%Z || bool_decide (sha256 b ≠ ref_sha256 ref)) (EReplay "digest-mismatch") ;;
      Ok b
  end.
Definition _read_object (d : string) (size : Z) : result string :=
  raise_if (negb (fullmatch _DIGEST d)) (EReplay "digest-mismatch") ;;
  raise_if ((size <? 0)%Z || (max_ciphertext <? size)%Z) (EReplay "ciphertext-size-invalid") ;;
  k ← evidence_object_key d;
  body ← fetched "evidence-read-failed" (get_evidence_bytes self k size);
  match body with
  | None => fail "digest-mismatch"
  | Some b => raise_if (negb (Z.of_nat (py_len b) =? size)%Z || bool_decide (sha256 b ≠ d)) (EReplay "digest-mismatch") ;; Ok b
  end.

Definition _payload_from_envelope (value : envelope) : result (dict * dict * string) :=
  match value with
  | DecryptedEnvelope m d p | EnvelopeMapping (PDict m) (PDict d) (Some p) => Ok (m, d, p)
  | _ => fail "corrupt-ciphertext"
  end.
Definition is_type_error (e : exn) : bool := match e with EType _ => true | _ => false end.
(** [try: call except TypeError: other] *)
Definition on_type_error {A} (call other : result A) : result A :=
  match call with Raise e => if is_type_error e then other else Raise e | Ok a => Ok a end.
Definition _decrypt (body expected_kind : string) : result (dict * dict * string) :=
  match decryptor self with
  | Some run =>
      value ← on_type_error (run (WithPaths (identity_paths self)) body expected_kind)
                (on_type_error (run WithKind body expected_kind) (run BodyOnly body expected_kind));
      _payload_from_envelope value
  | None =>
      raise_if (bool_decide (identity_paths self = [])) (EReplay "identity-unavailable") ;;
      write_temporary body ;;
      value ← match decrypt_envelope (identity_paths self) body with
              | Ok v => Ok v
              | Raise e => fail (if bool_decide (e = EEnvelope "unknown-schema") then "unknown_major" else "decrypt-failed")
              end;
      _payload_from_envelope value
  end.

(** ** Checking an index and the document it names *)
Definition _error_code (r : ValidationResult) (fallback : string) : string :=
  match filter (fun c => c ≠ "") (code <$> result_errors r) with c :: _ => c | [] => fallback end.
Definition require_accepted (d : dict) (fallback : string) : result unit :=
  let r := validate_document (PDict d) in
  match disposition r with
  | QUARANTINED => fail (_error_code r "unknown-major")
  | REJECTED => fail (_error_code r fallback)
  | ACCEPTED => Ok tt
  end.
Definition allowed_decisions : list string := if bool_decide (destination self = "private-r2") then ["allow"] else ["allow"; "local-only"].
(** The profile of a manifest is the reader's. *)
Definition own_profile (manifest : dict) : result unit :=
  match get_or_none "profile" manifest with
  | PDict p => raise_if (negb (py_eq (get_or_none "id" p) (PStr (profile_id self))) || negb (py_eq (get_or_none "workspace_id" p) (PStr (workspace_id self))))
                 (EReplay "profile-boundary-denied")
  | _ => fail "profile-boundary-denied"
  end.
Definition own_destination (policy : dict) : result unit :=
  let d := get_or_none "destination" policy in
  raise_if (negb (is_none d) && negb (py_eq d (PStr (destination self)))) (EReplay "policy-mismatch").
Definition REPLAY_CONTENT_TYPES : list string :=
  ["application/vnd.josh.codex-session-segment+json"; "application/vnd.josh.codex-session-asset"; "application/vnd.josh.codex-session-final+json"].

(** [int(v)] of what validation found to be one *)
Definition to_int (v : pyobj) : result Z := match v with PInt z => Ok z | _ => Raise (EType "int") end.
Definition list_length (v : option pyobj) : result Z :=
  match v with None => Ok 0%Z | Some (PList l) => Ok (Z.of_nat (length l)) | Some _ => Raise (EType "object has no len()") end.
Definition is_kind (k : string) (d : dict) : bool := py_eq (get_or_none "kind" d) (PStr k).

Definition own_capture (manifest document : dict) : result unit :=
  match get_or_none "capture" document with
  | PDict capture =>
      raise_if (py_eq (get_or_none "status" capture) (PStr "quarantined")) (EReplay "capture-quarantined") ;;
      let decision := get_or_none "policy_decision" capture in
      match get_or_none "policy" manifest with
      | PDict policy =>
          allowed ← member decision allowed_decisions;
          raise_if (negb allowed || negb (py_eq (get_or_none "decision" policy) decision)
                    || negb (py_eq (get_or_none "status" policy) (get_or_none "status" capture))
                    || negb (py_eq (get_or_none "sensitivity" policy) (get_or_none "sensitivity" capture))) (EReplay "policy-mismatch") ;;
          own_destination policy
      | _ => fail "policy-mismatch"
      end
  | _ => fail "policy-mismatch"
  end.

Definition own_content (document : dict) (payload : string) : result unit :=
  if is_kind "session-segment" document then
    text ← canonical_json (default (PList []) (dict_get "records" document));
    raise_if (negb (py_eq (get_or_none "content_sha256" document) (PStr (sha256 text)))) (EReplay "digest-mismatch") ;;
    raise_if (negb (py_eq (get_or_none "content_size" document) (PInt (Z.of_nat (py_len text))))) (EReplay "digest-mismatch") ;;
    count ← to_int (default (PInt 0) (dict_get "record_count" document));
    assets ← list_length (dict_get "asset_refs" document);
    raise_if ((_MAX_REPLAY_SEGMENT_BYTES <? Z.of_nat (py_len text))%Z || (_MAX_REPLAY_RECORDS_PER_SEGMENT <? count)%Z
              || (_MAX_REPLAY_ASSETS_PER_SEGMENT <? assets)%Z) (EReplay "segment-too-large")
  else
    raise_if (is_kind "session-asset" document
              && (negb (py_eq (get_or_none "sha256" document) (PStr (sha256 payload)))
                  || negb (py_eq (get_or_none "size" document) (PInt (Z.of_nat (py_len payload)))))) (EReplay "digest-mismatch").

Definition index_names (expected_kind : string) (index_content : pyobj) (document : dict) : result unit :=
  if bool_decide (expected_kind ≠ "session-asset") then
    raise_if (negb (py_eq index_content (get_or_none "content_sha256" document))) (EReplay "digest-mismatch")
  else
    d ← canonical_digest (PDict document);
    raise_if (negb (py_eq index_content (PStr d) || py_eq index_content (get_or_none "sha256" document))) (EReplay "digest-mismatch").

(** The checks of the index document, before its object is read. *)
Definition check_index_document (manifest document : dict) : result (string * string) :=
  require_accepted document "index-invalid" ;;
  raise_if (negb (is_kind "index-event" document)) (EReplay "index-kind-mismatch") ;;
  own_profile manifest ;;
  match get_or_none "policy" manifest with
  | PDict policy =>
      allowed ← member (get_or_none "decision" policy) allowed_decisions;
      raise_if (negb allowed) (EReplay "policy-mismatch") ;;
      own_destination policy
  | _ => fail "policy-mismatch"
  end ;;
  match get_or_none "evidence_kind" document, get_or_none "evidence_event_id" document with
  | PStr kind, PStr event =>
      known ← member (get_or_none "content_type" document) REPLAY_CONTENT_TYPES;
      raise_if (negb known) (EReplay "index-invalid") ;;
      Ok (kind, event)
  | _, _ => fail "index-invalid"
  end.
(** The checks of the document in the object. *)
Definition check_evidence (kind event : string) (index_content : pyobj) (manifest document : dict) (payload : string) : result unit :=
  require_accepted document "evidence-invalid" ;;
  raise_if (negb (is_kind kind document) || negb (py_eq (get_or_none "event_id" document) (PStr event))) (EReplay "manifest-mismatch") ;;
  own_profile manifest ;;
  let w := get_or_none "workspace_id" document in
  raise_if (negb (is_none w) && negb (py_eq w (PStr (workspace_id self)))) (EReplay "profile-boundary-denied") ;;
  own_capture manifest document ;;
  own_content document payload ;;
  index_names kind index_content document.
Definition _validate_index (ref : _IndexRef) (manifest document : dict) (payload : string) : result _Evidence :=
  '(kind, event) ← check_index_document manifest document;
  size ← to_int (get_or_none "ciphertext_size" document);
  object_body ← _read_object (py_str (get_or_none "ciphertext_sha256" document)) size;
  '(evidence_manifest, evidence_document, evidence_payload) ← _decrypt object_body kind;
  check_evidence kind event (get_or_none "content_sha256" document) evidence_manifest evidence_document evidence_payload ;;
  Ok {| index := ref; index_document := document; document := evidence_document |}.

Definition _quarantine (ref : _IndexRef) (reason : string) (event_id cursor : option string) : result dict :=
  QuarantineReceipt_to_dict
    {| reason_code := reason; index_key := Some (key ref); receipt_event_id := event_id; receipt_sha256 := Some (ref_sha256 ref);
       receipt_size := match listing_error ref with Some _ => None | None => Some (ref_size ref) end; cursor := cursor |}
    (profile_id self) (destination self).

(** ** The records handed out *)
Definition present (keys : list string) (d : dict) : dict := omap (fun k => pair k <$> dict_get k d) keys.
Definition _normalized (item : _Evidence) (segment record : dict) (i : nat) : result dict :=
  let get k := get_or_none k segment in
  identity ← canonical_json (PDict [("profile_id", PStr (profile_id self)); ("workspace_id", get "workspace_id"); ("session_id", get "session_id");
    ("segment_event_id", get "event_id"); ("segment_content_sha256", get "content_sha256"); ("checkpoint", get "checkpoint");
    ("record_index", PInt (Z.of_nat i)); ("record", PDict record)]);
  let result :=
    [("schema", PStr SCHEMA); ("schema_version", PDict SCHEMA_VERSION); ("type", PStr "record"); ("idempotency_key", PStr (sha256 identity));
     ("profile_id", PStr (profile_id self)); ("workspace_id", get "workspace_id");
     ("session", PDict (present ["session_id"; "thread_id"; "turn_id"] segment));
     ("source", default (PDict []) (dict_get "source" segment)); ("checkpoint", get "checkpoint");
     ("segment", PDict [("event_id", get "event_id"); ("content_sha256", get "content_sha256"); ("content_size", get "content_size");
        ("ciphertext_sha256", get_or_none "ciphertext_sha256" (index_document item)); ("ciphertext_size", get_or_none "ciphertext_size" (index_document item))]);
     ("record_index", PInt (Z.of_nat i)); ("record", PDict record); ("producer_trust", PStr "untrusted")]
    ++ opt_item "asset_refs" (match get "asset_refs" with PList l => Some (PList l) | _ => None end) in
  encoded ← canonical_json (PDict result);
  raise_if (_MAX_JSONL_RECORD_BYTES <? Z.of_nat (py_len encoded))%Z (EReplay "normalized-record-too-large") ;;
  Ok result.

(** ** Chains of segments *)
Definition SEGMENT_FIELDS : list string := ["kind"; "event_id"; "session_id"; "checkpoint"; "previous_segment_sha256"; "asset_refs"].
Definition ASSET_FIELDS : list string := ["kind"; "event_id"; "session_id"; "asset_id"; "sha256"; "size"; "media_category"].
Definition FINAL_FIELDS : list string := ["kind"; "event_id"; "session_id"; "last_segment_sha256"].
Definition _chain_evidence (item : _Evidence) (retain_segment : bool) : result _ChainEvidence :=
  let d := document item in
  if is_kind "session-segment" d then
    dg ← canonical_digest (PDict d);
    Ok {| chain_index := index item; chain_document := present SEGMENT_FIELDS d; digest := Some dg; evidence := if retain_segment then Some item else None |}
  else
    let fields := if is_kind "session-asset" d then ASSET_FIELDS else FINAL_FIELDS in
    Ok {| chain_index := index item; chain_document := present fields d; digest := None; evidence := None |}.

(** The session of an item: a text, or none given; validation leaves no other value. *)
Definition session_of (item : _ChainEvidence) : option string := as_str (get_or_none "session_id" (chain_document item)).
Definition session_le (a b : option string) : Prop := String.le (default "None" a) (default "None" b).
#[export] Instance session_le_dec : RelDecision session_le.
Proof. intros a b. unfold session_le. apply _. Defined.

(** [(checkpoint or {}).get(field, 0)], an integer after validation.  (Python sorts no other values
    with integers and would raise; the properties of chains are those of validated evidence.) *)
Definition checkpoint_at (field : string) (d : dict) : Z :=
  match get_or_none "checkpoint" d with PDict c => match get_or_none field c with PInt z => z | _ => 0 end | _ => 0 end.
Definition event_text (absent : string) (d : dict) : string := match dict_get "event_id" d with Some v => py_str v | None => absent end.
Definition segment_key (item : _ChainEvidence) : Z * Z * string :=
  let d := chain_document item in (checkpoint_at "start" d, checkpoint_at "end" d, event_text "" d).
Definition key3_le (a b : Z * Z * string) : Prop :=
  (a.1.1 < b.1.1 \/ a.1.1 = b.1.1 /\ (a.1.2 < b.1.2 \/ a.1.2 = b.1.2 /\ String.le a.2 b.2))%Z.
#[export] Instance key3_le_dec : RelDecision key3_le.
Proof. intros a b. unfold key3_le. apply _. Defined.
Definition segment_le (a b : _ChainEvidence) : Prop := key3_le (segment_key a) (segment_key b).
#[export] Instance segment_le_dec : RelDecision segment_le.
Proof. intros a b. unfold segment_le. apply _. Defined.

Definition ASSET_KEY : list string := ["asset_id"; "sha256"; "size"; "media_category"].
(** The tuple of an asset, in a session; texts and an integer after validation. *)
Definition asset_key (d : dict) : list pyobj := (fun k => get_or_none k d) <$> ASSET_KEY.
Fixpoint all_eq (a b : list pyobj) : bool :=
  match a, b with [], [] => true | x :: a, y :: b => py_eq x y && all_eq a b | _, _ => false end.
Definition has_asset (assets : list _ChainEvidence) (session : option string) (ref : dict) : bool :=
  existsb (fun a => bool_decide (session_of a = session) && all_eq (asset_key (chain_document a)) (asset_key ref)) assets.
Definition missing_asset (assets : list _ChainEvidence) (session : option string) (d : dict) : bool :=
  match get_or_none "asset_refs" d with
  | PList refs => existsb (fun r => match r with PDict ref => negb (has_asset assets session ref) | _ => false end) refs
  | _ => true
  end.

(** What was set aside so far, and which key and reason each is for. *)
Record chain_state := { set_aside : list dict; reported : list (string * string) }.
Definition quarantine (item : _ChainEvidence) (reason : string) (st : chain_state) : result chain_state :=
  let k := (key (chain_index item), reason) in
  if bool_decide (k ∈ reported st) then Ok st
  else
    q ← _quarantine (chain_index item) reason (Some (py_str (get_or_none "event_id" (chain_document item)))) None;
    Ok {| set_aside := set_aside st ++ [q]; reported := k :: reported st |}.
Definition quarantine_if (b : bool) (item : _ChainEvidence) (reason : string) (st : chain_state) : result chain_state :=
  if b then quarantine item reason st else Ok st.

(** [declared != previous and not (declared is None and previous is None)] *)
Definition chain_bad (declared : pyobj) (previous : option string) : bool :=
  negb (py_eq declared (opt_str previous)) && negb (is_none declared && bool_decide (previous = None)).
(** The loop over the segments of a session, in order; [None] in [previous] before the first. *)
Fixpoint check_segments (assets : list _ChainEvidence) (session : option string) (group : list _ChainEvidence)
    (previous : option string) (failed : bool) (st : chain_state) : result (option string * bool * chain_state) :=
  match group with
  | [] => Ok (previous, failed, st)
  | item :: group =>
      let d := chain_document item in
      let bad := chain_bad (get_or_none "previous_segment_sha256" d) previous in
      let lacking := missing_asset assets session d in
      st ← quarantine_if bad item "broken-chain" st;
      st ← quarantine_if lacking item "missing-asset" st;
      let failed := failed || bad || lacking in
      st ← quarantine_if (failed && negb bad && negb lacking) item "broken-chain" st;
      check_segments assets session group (digest item) failed st
  end.
(** The loop over the finals of a session. *)
Fixpoint check_finals (group finals : list _ChainEvidence) (previous : option string) (failed : bool) (st : chain_state) : result (bool * chain_state) :=
  match finals with
  | [] => Ok (failed, st)
  | final :: finals =>
      let declared := get_or_none "last_segment_sha256" (chain_document final) in
      let bad := (negb (bool_decide (group = [])) && is_none declared) || (negb (is_none declared) && negb (py_eq declared (opt_str previous))) in
      st ← quarantine_if (bad || failed) final "broken-chain" st;
      check_finals group finals previous (failed || bad) st
  end.
Fixpoint quarantine_all (items : list _ChainEvidence) (reason : string) (st : chain_state) : result chain_state :=
  match items with [] => Ok st | item :: items => st ← quarantine item reason st; quarantine_all items reason st end.

Definition of_kind (k : string) (items : list _ChainEvidence) : list _ChainEvidence := filter (fun i => is_kind k (chain_document i) = true) items.
Definition of_session (s : option string) (items : list _ChainEvidence) : list _ChainEvidence := filter (fun i => session_of i = s) items.
Definition group_of (s : option string) (items : list _ChainEvidence) : list _ChainEvidence :=
  merge_sort segment_le (of_session s (of_kind "session-segment" items)).
Definition finals_of (s : option string) (items : list _ChainEvidence) : list _ChainEvidence := of_session s (of_kind "session-final" items).

(** One session: what is accepted of it. *)
Definition verify_session (items : list _ChainEvidence) (s : option string) (st : chain_state) : result (list _ChainEvidence * chain_state) :=
  let group := group_of s items in
  let finals := finals_of s items in
  '(previous, failed, st) ← check_segments (of_kind "session-asset" items) s group None false st;
  '(failed, st) ← check_finals group finals previous failed st;
  if (failed : bool) then (st ← quarantine_all group "broken-chain" st; Ok ([], st)) else Ok (group ++ finals, st).
Fixpoint verify_sessions (items : list _ChainEvidence) (sessions : list (option string)) (accepted : list _ChainEvidence) (st : chain_state)
    : result (list _ChainEvidence * chain_state) :=
  match sessions with
  | [] => Ok (accepted, st)
  | s :: sessions => '(more, st) ← verify_session items s st; verify_sessions items sessions (accepted ++ more) st
  end.
Definition sessions_of (items : list _ChainEvidence) : list (option string) :=
  merge_sort session_le (remove_dups (session_of <$> of_kind "session-segment" items ++ of_kind "session-final" items)).
Definition _verify_chain (items : list _ChainEvidence) (quarantines : list dict) : result (list _ChainEvidence * list dict) :=
  '(accepted, st) ← verify_sessions items (sessions_of items) [] {| set_aside := quarantines; reported := [] |};
  Ok (accepted, set_aside st).

(** ** A page *)

(** The variables of the loop over the indexes. *)
Record scan := {
  scan_quarantines : list dict;
  scan_evidence : list _ChainEvidence;
  scanned_bytes : Z;
  scan_limited : bool;
  validation_incomplete : bool;
  offpage_quarantine_reported : bool;
}.
Definition limited (st : scan) : scan :=
  {| scan_quarantines := scan_quarantines st; scan_evidence := scan_evidence st; scanned_bytes := scanned_bytes st; scan_limited := true;
     validation_incomplete := validation_incomplete st; offpage_quarantine_reported := offpage_quarantine_reported st |}.
Definition with_scanned (n : Z) (found : list _ChainEvidence) (st : scan) : scan :=
  {| scan_quarantines := scan_quarantines st; scan_evidence := scan_evidence st ++ found; scanned_bytes := n; scan_limited := scan_limited st;
     validation_incomplete := validation_incomplete st; offpage_quarantine_reported := offpage_quarantine_reported st |}.

Definition quarantine_unverified (selected_keys : list string) (ref : _IndexRef) (reason : string) (st : scan) : result scan :=
  let off := bool_decide (key ref ∉ selected_keys) in
  let marked q reported :=
    {| scan_quarantines := scan_quarantines st ++ q; scan_evidence := scan_evidence st; scanned_bytes := scanned_bytes st;
       scan_limited := scan_limited st; validation_incomplete := true; offpage_quarantine_reported := reported |} in
  if off && offpage_quarantine_reported st then Ok (marked [] true)
  else
    c ← encode (at_key (Some (key ref)));
    q ← _quarantine ref reason None (Some c);
    Ok (marked [q] (off || offpage_quarantine_reported st)).

(** What the [try] block comes to; [Limited] leaves the loop. *)
Inductive outcome := Limited | Failed (code : string) | Found (item : _ChainEvidence).
Definition replay_code (e : exn) : string := match e with EReplay c => c | _ => "corrupt-ciphertext" end.
Definition read_document (ref : _IndexRef) : result (dict * dict * string * Z) :=
  index_body ← _read_index ref;
  '(manifest, document, payload) ← _decrypt index_body "index-event";
  match get_or_none "ciphertext_size" document with
  | PInt size =>
      raise_if ((size <? 0)%Z || (max_ciphertext <? size)%Z) (EReplay "ciphertext-size-invalid") ;;
      Ok (manifest, document, payload, size)
  | _ => fail "ciphertext-size-invalid"
  end.
Definition scan_ref (selected_keys : list string) (ref : _IndexRef) (scanned : Z) : Z * outcome :=
  match read_document ref with
  | Raise e => (scanned, Failed (replay_code e))
  | Ok (manifest, index_doc, payload, size) =>
      let after := (scanned + (size + 1))%Z in
      if (max_scan_bytes (limits self) <? after)%Z then (scanned, Limited)
      else
        let item := item ← _validate_index ref manifest index_doc payload;
          _chain_evidence item (bool_decide (key ref ∈ selected_keys) && is_kind "session-segment" (document item)) in
        (after, match item with Ok i => Found i | Raise e => Failed (replay_code e) end)
  end.
Fixpoint scan_refs (selected_keys : list string) (refs : list _IndexRef) (st : scan) : result scan :=
  match refs with
  | [] => Ok st
  | ref :: refs =>
      match listing_error ref with
      | Some e => st ← quarantine_unverified selected_keys ref e st; scan_refs selected_keys refs st
      | None =>
          let after := (scanned_bytes st + (ref_size ref + 1))%Z in
          if (max_ciphertext <? ref_size ref)%Z then
            st ← quarantine_unverified selected_keys ref "ciphertext-too-large" st; scan_refs selected_keys refs st
          else if (max_scan_bytes (limits self) <? after)%Z then Ok (limited st)
          else
            match scan_ref selected_keys ref after with
            | (n, Limited) => Ok (limited (with_scanned n [] st))
            | (n, Failed c) => st ← quarantine_unverified selected_keys ref c (with_scanned n [] st); scan_refs selected_keys refs st
            | (n, Found i) => scan_refs selected_keys refs (with_scanned n [i] st)
            end
      end
  end.

Definition output_key (i : _ChainEvidence) : string * Z * string :=
  let d := chain_document i in
  (match dict_get "session_id" d with Some v => py_str v | None => "" end, checkpoint_at "start" d, event_text "" d).
Definition output_le (a b : _ChainEvidence) : Prop :=
  let '(s, m, e) := output_key a in let '(t, n, f) := output_key b in
  String.le s t /\ (s = t -> (m < n)%Z \/ m = n /\ String.le e f).
#[export] Instance output_le_dec : RelDecision output_le.
Proof. intros a b. unfold output_le. destruct (output_key a) as [[]], (output_key b) as [[]]. apply _. Defined.

(** The records of a segment, numbered from [i]. *)
Fixpoint normalize_from (item : _Evidence) (raw : list pyobj) (i : nat) : result (list dict) :=
  match raw with
  | [] => Ok []
  | PDict r :: raw => n ← _normalized item (document item) r i; rest ← normalize_from item raw (S i); Ok (n :: rest)
  | _ :: raw => normalize_from item raw (S i)
  end.
(** The records of an item, and what is set aside instead. *)
Definition item_records (i : _ChainEvidence) : result (list dict * list dict) :=
  match evidence i with
  | Some item =>
      if is_kind "session-segment" (document item) then
        match get_or_none "records" (document item) with
        | PList raw => rs ← normalize_from item raw 0; Ok (rs, [])
        | _ => q ← _quarantine (index item) "evidence-invalid" (Some (py_str (get_or_none "event_id" (document item)))) None; Ok ([], [q])
        end
      else Ok ([], [])
  | None => Ok ([], [])
  end.

Definition empty_scan : scan :=
  {| scan_quarantines := []; scan_evidence := []; scanned_bytes := 0; scan_limited := false; validation_incomplete := false;
     offpage_quarantine_reported := false |}.
(** [item.get("index_key") in selected_keys] *)
Definition on_page (selected_keys : list string) (q : dict) : bool := is_str_in selected_keys (get_or_none "index_key" q).
Definition stopped (quarantines : list dict) (before : option string) : result ReplayPage :=
  resume ← encode_at before;
  Ok {| records := []; quarantines := quarantines; page_cursor := resume; complete := false; inspected_indexes := 0 |}.

Definition export (cursor : option string) (limit : option pyobj) : result ReplayPage :=
  bound ← page_bound limit;
  decoded ← decode_or_start cursor;
  let before := last_index_key decoded in
  '(refs, truncated) ← _discover;
  if (truncated : bool) then stopped [] before
  else
    let rest := available before refs in
    let selected := take bound rest in
    next ← encode_at (last_key selected before);
    if bool_decide (selected = []) then
      Ok {| records := []; quarantines := []; page_cursor := next; complete := true; inspected_indexes := 0 |}
    else
      let selected_keys := key <$> selected in
      st ← scan_refs selected_keys refs empty_scan;
      if validation_incomplete st then stopped (scan_quarantines st) before
      else if scan_limited st then stopped [] before
      else
        '(accepted, set_aside) ← _verify_chain (scan_evidence st) (scan_quarantines st);
        out ← map_result item_records (merge_sort output_le accepted);
        Ok {| records := concat out.*1; quarantines := filter (fun q => on_page selected_keys q = true) set_aside ++ concat out.*2;
              page_cursor := next; complete := (length rest <=? bound)%nat; inspected_indexes := length selected |}.

Definition export_jsonl (cursor : option string) (limit : option pyobj) : result (list string * option exn) :=
  jsonl <$> export cursor limit.
End replay.

(** ** The constructor *)
Definition bad_destination (d : string) : bool := bool_decide (d = "") || (128 <? py_len d)%nat || str_any (fun c => (ord c <? 33)%Z) d.
(** [authorize(...) is True], any exception counting as a refusal; [backend] has the
    methods of a backend, when it has them both. *)
Definition ReplayReader_init
    (backend : option (option (Z -> Z -> Z -> result (option (list raw_ref))) * (string -> Z -> result (option string)) * (string -> Z -> result (option string))))
    (profile_id destination workspace_id : pyobj) (identity_paths : list string)
    (decryptor : option (decryptor_call -> string -> string -> result envelope))
    (authorize : option (string -> string -> result pyobj)) (limits : option ReplayLimits) : result ReplayReader :=
  let identifier (v : pyobj) (code : string) : result string :=
    match v with PStr s => raise_if (negb (fullmatch _IDENTIFIER s)) (EReplay code) ;; Ok s | _ => Raise (EReplay code) end in
  profile ← identifier profile_id "profile-invalid";
  workspace ← identifier workspace_id "workspace-invalid";
  target ← match destination with PStr d => raise_if (bad_destination d) (EReplay "destination-invalid") ;; Ok d | _ => Raise (EReplay "destination-invalid") end;
  match authorize with
  | Some ask => raise_if (match ask profile target with Ok (PBool true) => false | _ => true end) (EReplay "profile-boundary-denied")
  | None => Ok tt
  end ;;
  match backend with
  | None => Raise (EType "replay backend is incomplete")
  | Some (discover, get_index, get_object) =>
      Ok {| discover := discover; get_evidence_index_bytes := get_index; get_evidence_bytes := get_object; profile_id := profile; destination := target;
            workspace_id := workspace; identity_paths := identity_paths; decryptor := decryptor; limits := default default_limits limits |}
  end.
