(* ===== verification/ReplayChain.v ===== *)
(** * Replay: chains of segments

    What it is for the evidence of a session to be sound, and that [_verify_chain] accepts
    the sound sessions and reports every part of the others. *)

From Stdlib Require Import Ascii.
From S2P Require Import Prelude PyStr PyObj PyDatetime PyJson LogicalJat CatalogProps JsonProps SessionEvidence SessionEvidenceProps Replay.

(** ** Comparing with a text or nothing *)
Lemma py_eq_opt v o : py_eq v (opt_str o) = true <-> v = opt_str o.
Proof. destruct o; simpl; [apply py_eq_PStr |]. destruct v; naive_solver. Qed.
Lemma chain_bad_iff v o : chain_bad v o = false <-> v = opt_str o.
Proof.
  unfold chain_bad. rewrite andb_false_iff, !negb_false_iff, py_eq_opt, andb_true_iff, bool_decide_eq_true.
  split; [intros [?|[Hv ->]]; [done | by destruct v] | by left].
Qed.

Section chains.
Context `{PyRuntime, ReplayRuntime}.
Context (self : ReplayReader).

(** ** Receipts are always made *)
Lemma quarantine_total ref reason ev c : exists q, _quarantine self ref reason ev c = Ok q
  /\ get_or_none "index_key" q = PStr (key ref) /\ get_or_none "reason_code" q = PStr reason.
Proof.
  unfold _quarantine, QuarantineReceipt_to_dict, canonical_json.
  assert (forall o, out_of_range (opt_str o) = false) as Hs by by intros [].
  assert (forall o, out_of_range (opt_int o) = false) as Hi by by intros [].
  cbn [out_of_range existsb snd]. rewrite !Hs, Hi. cbn [orb raise_if mbind result_bind]. eexists. split; [done |]. by destruct ev, c.
Qed.

(** The key and reason of a receipt. *)
Definition receipt_for (k : string * string) (q : dict) : Prop := get_or_none "index_key" q = PStr k.1 /\ get_or_none "reason_code" q = PStr k.2.
(** What is reported has a receipt, and only that was added to the receipts before. *)
Definition reports (before : list dict) (st : chain_state) : Prop :=
  exists new, set_aside st = before ++ new /\ Forall2 receipt_for (reverse (reported st)) new.

Lemma quarantine_Ok before item reason st : reports before st ->
  exists st', quarantine self item reason st = Ok st' /\ reports before st'
    /\ (forall k, k ∈ reported st' <-> k ∈ reported st \/ k = (key (chain_index item), reason))
    /\ (NoDup (reported st) -> NoDup (reported st')).
Proof.
  intros (new & Hn & Hr). unfold quarantine. case_bool_decide as Hin.
  - exists st. split; [done |]. split; [by exists new |]. split; [|done]. intros k. split; [by left | by intros [?| ->]].
  - destruct (quarantine_total (chain_index item) reason (Some (py_str (get_or_none "event_id" (chain_document item)))) None) as (q & -> & Hk & Hc).
    eexists. split; [done |]. cbn [set_aside reported]. split; [|split].
    + exists (new ++ [q]). split; [by rewrite Hn, app_assoc |]. cbn [reported]. rewrite reverse_cons. apply Forall2_app; [done |]. by constructor.
    + intros k. cbn [reported]. rewrite elem_of_cons. tauto.
    + by constructor.
Qed.

Lemma quarantine_if_Ok before b item reason st : reports before st ->
  exists st', quarantine_if self b item reason st = Ok st' /\ reports before st'
    /\ (forall k, k ∈ reported st' <-> k ∈ reported st \/ (b = true /\ k = (key (chain_index item), reason)))
    /\ (NoDup (reported st) -> NoDup (reported st')).
Proof.
  intros Hr. destruct b; cbn [quarantine_if].
  - destruct (quarantine_Ok before item reason st Hr) as (st' & ? & ? & Hk & ?). exists st'. setoid_rewrite Hk. naive_solver.
  - exists st. naive_solver.
Qed.
Lemma quarantine_all_Ok before items reason st : reports before st ->
  exists st', quarantine_all self items reason st = Ok st' /\ reports before st'
    /\ (forall k, k ∈ reported st' <-> k ∈ reported st \/ exists i, i ∈ items /\ k = (key (chain_index i), reason))
    /\ (NoDup (reported st) -> NoDup (reported st')).
Proof.
  revert st. induction items as [|item items IH]; intros st Hr; cbn [quarantine_all].
  - exists st. split; [done |]. split; [done |]. split; [|done]. intros k. split; [by left |]. intros [?|(i & ?%not_elem_of_nil & _)]; done.
  - destruct (quarantine_Ok before item reason st Hr) as (st1 & -> & Hr1 & Hk1 & Hn1). rewrite bind_Ok.
    destruct (IH st1 Hr1) as (st2 & -> & Hr2 & Hk2 & Hn2). exists st2. split; [done |]. split; [done |]. split; [|auto].
    intros k. rewrite Hk2, Hk1. setoid_rewrite elem_of_cons. naive_solver.
Qed.

(** ** Sound sessions *)
Section session.
Context (assets : list _ChainEvidence) (session : option string).

(** The segments declare each the digest of the one before, the first none, and name
    assets the session has. *)
Inductive chained : option string -> list _ChainEvidence -> option string -> Prop :=
| chained_nil p : chained p [] p
| chained_cons p item group q :
    get_or_none "previous_segment_sha256" (chain_document item) = opt_str p -> missing_asset assets session (chain_document item) = false ->
    chained (digest item) group q -> chained p (item :: group) q.

Definition last_digest (p : option string) (group : list _ChainEvidence) : option string := from_option digest p (last group).
Lemma last_digest_cons p item group : last_digest p (item :: group) = last_digest (digest item) group.
Proof. unfold last_digest. rewrite last_cons. by destruct (last group). Qed.
Lemma chained_last p group q : chained p group q -> q = last_digest p group.
Proof. induction 1 as [|p item group q _ _ _ ->]; [done |]. by rewrite last_digest_cons. Qed.

(** The receipt of an item for a reason. *)
Definition due (reason : string) (i : _ChainEvidence) : string * string := (key (chain_index i), reason).

(** The loop: the last digest, whether something failed, and receipts for segments without
    their assets, and for others only when something failed. *)
Lemma check_segments_Ok before group p failed st : reports before st ->
  exists bad st', check_segments self assets session group p failed st = Ok (last_digest p group, failed || bad, st') /\ reports before st'
    /\ (bad = false <-> chained p group (last_digest p group))
    /\ (forall k, k ∈ reported st' -> k ∈ reported st
         \/ (exists i, i ∈ group /\ missing_asset assets session (chain_document i) = true /\ k = due "missing-asset" i)
         \/ (failed || bad = true /\ exists i, i ∈ group /\ k = due "broken-chain" i))
    /\ (forall k, k ∈ reported st -> k ∈ reported st')
    /\ (forall i, i ∈ group -> missing_asset assets session (chain_document i) = true -> due "missing-asset" i ∈ reported st')
    /\ (NoDup (reported st) -> NoDup (reported st')).
Proof.
  revert p failed st. induction group as [|item group IH]; intros p failed st Hr; cbn [check_segments].
  { exists false, st. rewrite orb_false_r. split; [done |]. split; [done |]. split; [split; [constructor | done] |].
    split; [by left |]. split; [done |]. split; [by intros i ?%not_elem_of_nil | done]. }
  set (bad := chain_bad _ p). set (lacking := missing_asset _ _ _).
  destruct (quarantine_if_Ok before bad item "broken-chain" st Hr) as (st1 & -> & Hr1 & Hk1 & Hn1). rewrite bind_Ok.
  destruct (quarantine_if_Ok before lacking item "missing-asset" st1 Hr1) as (st2 & -> & Hr2 & Hk2 & Hn2). rewrite bind_Ok.
  destruct (quarantine_if_Ok before ((failed || bad || lacking) && negb bad && negb lacking) item "broken-chain" st2 Hr2) as (st3 & -> & Hr3 & Hk3 & Hn3).
  rewrite bind_Ok. destruct (IH (digest item) (failed || bad || lacking) st3 Hr3) as (more & st4 & -> & Hr4 & Hc & Hk & Hs & Hm & Hn).
  exists (bad || lacking || more), st4. rewrite last_digest_cons, !orb_assoc. split; [done |]. split; [done |].
  split; [|split; [|split; [|split]]].
  - rewrite !orb_false_iff, Hc. unfold bad, lacking. rewrite chain_bad_iff. split.
    + intros [[? ?] ?]. by constructor.
    + inversion 1; subst. done.
  - assert (forall x y z, (x || bad || y) && negb bad && negb z = true -> x || bad || lacking || more = true \/ y = true) as Hx by (destruct bad, lacking; intros [] [] []; naive_solver).
    intros k Hin. apply Hk in Hin as [Hin|[(i & Hi & ? & ?)|(? & i & Hi & ?)]];
      [|right; left; exists i; split; [by right | done] | right; right; split; [done |]; exists i; split; [by right | done]].
    apply Hk3 in Hin as [Hin|[Ho ->]]; [|right; right; split; [destruct failed, bad, lacking; done |]; exists item; split; [left | done]].
    apply Hk2 in Hin as [Hin|[Ho ->]]; [|right; left; exists item; split; [left | done]].
    apply Hk1 in Hin as [Hin|[-> ->]]; [by left | right; right; split; [by rewrite orb_true_r |]; exists item; split; [left | done]].
  - intros k Hin. apply Hs, Hk3. left. apply Hk2. left. apply Hk1. by left.
  - intros i [->|Hi]%elem_of_cons; [|by apply Hm]. intros Hl. apply Hs, Hk3. left. apply Hk2. by right.
  - auto.
Qed.

(** A final names the last segment, or none when there is none. *)
Definition final_ok (group : list _ChainEvidence) (last : option string) (final : _ChainEvidence) : Prop :=
  let declared := get_or_none "last_segment_sha256" (chain_document final) in
  (group = [] /\ declared = PNone) \/ exists d, last = Some d /\ declared = PStr d.
Lemma final_bad group last final : let declared := get_or_none "last_segment_sha256" (chain_document final) in
  (negb (bool_decide (group = [])) && is_none declared) || (negb (is_none declared) && negb (py_eq declared (opt_str last))) = false
  <-> final_ok group last final.
Proof.
  cbv zeta. unfold final_ok. set (declared := get_or_none _ _). rewrite orb_false_iff, !andb_false_iff, !negb_false_iff, bool_decide_eq_true, py_eq_opt.
  split.
  - intros [Hg Hd]. destruct Hd as [Hd|Hd]; [left; split; [destruct Hg; congruence | by destruct declared] |].
    destruct last; [right; by eexists | left]. simpl in Hd. rewrite Hd in Hg. by destruct Hg.
  - intros [[-> ->]|(d & -> & ->)]; naive_solver.
Qed.

(** The loop over finals: a receipt from the first that is wrong on. *)
Lemma check_finals_Ok before group finals last failed st : reports before st ->
  exists bad st', check_finals self group finals last failed st = Ok (failed || bad, st') /\ reports before st'
    /\ (bad = false <-> Forall (final_ok group last) finals)
    /\ (forall k, k ∈ reported st' <-> k ∈ reported st \/ exists l1 f l2, finals = l1 ++ f :: l2
         /\ (failed = true \/ ~ Forall (final_ok group last) (l1 ++ [f])) /\ k = due "broken-chain" f)
    /\ (NoDup (reported st) -> NoDup (reported st')).
Proof.
  revert failed st. induction finals as [|final finals IH]; intros failed st Hr; cbn [check_finals].
  { exists false, st. rewrite orb_false_r. split; [done |]. split; [done |]. split; [split; [constructor | done] |].
    split; [|done]. intros k. split; [by left |]. intros [?|(l1 & f & l2 & Hx & _)]; [done | by destruct l1]. }
  set (b := _ || _ && _). pose proof (final_bad group last final) as Hb. cbv zeta in Hb. fold b in Hb. clearbody b.
  destruct (quarantine_if_Ok before (b || failed) final "broken-chain" st Hr) as (st1 & -> & Hr1 & Hk1 & Hn1). rewrite bind_Ok.
  destruct (IH (failed || b) st1 Hr1) as (more & st2 & -> & Hr2 & Hm & Hk2 & Hn2).
  exists (b || more), st2. rewrite orb_assoc. split; [done |]. split; [done |].
  split; [rewrite orb_false_iff, Forall_cons, Hm, Hb; done |]. split; [|auto].
  assert (b = true <-> ~ final_ok group last final) as Hnb by (rewrite <- Hb; by destruct b).
  intros k. rewrite Hk2, Hk1. split.
  - intros [[?|[Ho ->]]|(l1 & f & l2 & -> & Ho & ->)]; [by left |right; exists [], final, finals |right; exists (final :: l1), f, l2]; (split; [done |]); (split; [|done]).
    + cbn [app]. rewrite Forall_singleton, <- Hnb. destruct b; naive_solver.
    + cbn [app]. rewrite Forall_cons. destruct Ho as [[?|?%Hnb]%orb_true_iff|Ho]; [by left | right | right]; naive_solver.
  - intros [?|(l1 & f & l2 & He & Ho & ->)]; [by left; left |]. destruct l1 as [|x l1]; injection He as <- He.
    + left. right. split; [|done]. cbn [app] in Ho. rewrite Forall_singleton, <- Hnb in Ho. apply orb_true_iff. naive_solver.
    + right. exists l1, f, l2. split; [done |]. split; [|done]. cbn [app] in Ho. rewrite Forall_cons in Ho. destruct failed; [by left |]. cbn [orb].
      destruct b; [by left |]. right. intros Hl. destruct Ho as [?|Ho]; [done |]. apply Ho. split; [by apply Hb | done].
Qed.
End session.

Section items.
Context (items : list _ChainEvidence).

(** The segments of a session are linked, and its finals name the last. *)
Definition linked (s : option string) : Prop :=
  chained (of_kind "session-asset" items) s None (group_of s items) (last_digest None (group_of s items)).
Definition names_last (s : option string) : _ChainEvidence -> Prop := final_ok (group_of s items) (last_digest None (group_of s items)).
Definition sound (s : option string) : Prop := linked s /\ Forall (names_last s) (finals_of s items).
(** What is accepted of a session. *)
Definition verdict (s : option string) (part : list _ChainEvidence) : Prop :=
  sound s /\ part = group_of s items ++ finals_of s items \/ ~ sound s /\ part = [].
(** The receipts of a session: one for every segment when it is not sound, one for every
    segment without its assets, one for every final from the first wrong one on. *)
Inductive receipt_due (s : option string) : string * string -> Prop :=
| due_segment i : i ∈ group_of s items -> ~ sound s -> receipt_due s (due "broken-chain" i)
| due_missing i : i ∈ group_of s items -> missing_asset (of_kind "session-asset" items) s (chain_document i) = true -> receipt_due s (due "missing-asset" i)
| due_final l1 f l2 : finals_of s items = l1 ++ f :: l2 -> ~ (linked s /\ Forall (names_last s) (l1 ++ [f])) -> receipt_due s (due "broken-chain" f).

Lemma chained_assets assets s p group q i : chained assets s p group q -> i ∈ group -> missing_asset assets s (chain_document i) = false.
Proof. induction 1 as [|p item group q _ Hm _ IH]; [by intros ?%not_elem_of_nil |]. intros [->|?]%elem_of_cons; auto. Qed.

Lemma verify_session_Ok before s st : reports before st ->
  exists part st', verify_session self items s st = Ok (part, st') /\ reports before st' /\ verdict s part
    /\ (forall k, k ∈ reported st' <-> k ∈ reported st \/ receipt_due s k) /\ (NoDup (reported st) -> NoDup (reported st')).
Proof.
  intros Hr. unfold verify_session.
  destruct (check_segments_Ok (of_kind "session-asset" items) s before (group_of s items) None false st Hr) as (bad & st1 & -> & Hr1 & Hc & Hk1 & Hs1 & Hm1 & Hn1).
  rewrite bind_Ok. cbn beta iota. rewrite orb_false_l in *. fold (linked s) in Hc.
  destruct (check_finals_Ok before (group_of s items) (finals_of s items) (last_digest None (group_of s items)) bad st1 Hr1) as (more & st2 & -> & Hr2 & Hf & Hk2 & Hn2).
  rewrite bind_Ok. cbn beta iota. change (final_ok _ _) with (names_last s) in Hf, Hk2.
  assert (bad || more = false <-> sound s) as Hsound by (unfold sound; rewrite <- Hc, <- Hf; apply orb_false_iff).
  assert (forall l : list _ChainEvidence, ~ (linked s /\ Forall (names_last s) l) <-> bad = true \/ ~ Forall (names_last s) l) as Hlink
    by (intros l; rewrite <- Hc; destruct bad; naive_solver).
  setoid_rewrite <- Hlink in Hk2.
  destruct (bad || more) eqn:Hb.
  - destruct (quarantine_all_Ok before (group_of s items) "broken-chain" st2 Hr2) as (st3 & -> & Hr3 & Hk3 & Hn3). rewrite bind_Ok.
    exists [], st3. split; [done |]. split; [done |]. assert (~ sound s) as Hns by by rewrite <- Hsound. split; [by right |]. split; [|auto].
    intros k. rewrite Hk3, Hk2. split.
    + intros [[Hin|(l1 & f & l2 & ? & ? & ->)]|(i & ? & ->)]; [|right; by eapply due_final | right; by apply due_segment].
      apply Hk1 in Hin as [?|[(i & ? & ? & ->)|(_ & i & ? & ->)]]; [by left | right; by apply due_missing | right; by apply due_segment].
    + intros [?|Hd]; [left; left; by apply Hs1 |]. destruct Hd as [i|i|l1 f l2]; [right; by exists i | left; left; by apply Hm1 | left; right; by exists l1, f, l2].
  - assert (sound s) as Hso by by apply Hsound. exists (group_of s items ++ finals_of s items), st2.
    split; [done |]. split; [done |]. split; [by left |]. split; [|auto].
    destruct (proj1 (orb_false_iff _ _) Hb) as [-> ->].
    intros k. rewrite Hk2. split.
    + intros [Hin|(l1 & f & l2 & ? & ? & ->)]; [|right; by eapply due_final].
      apply Hk1 in Hin as [?|[(i & ? & ? & ->)|(? & _)]]; [by left | right; by apply due_missing | done].
    + intros [?|Hd]; [left; by apply Hs1 |]. destruct Hd as [i|i|l1 f l2]; [done | left; by apply Hm1 | right; by exists l1, f, l2].
Qed.

Lemma verify_sessions_Ok before sessions accepted st : reports before st ->
  exists parts st', verify_sessions self items sessions accepted st = Ok (accepted ++ concat parts, st') /\ reports before st'
    /\ Forall2 verdict sessions parts
    /\ (forall k, k ∈ reported st' <-> k ∈ reported st \/ exists s, s ∈ sessions /\ receipt_due s k) /\ (NoDup (reported st) -> NoDup (reported st')).
Proof.
  revert accepted st. induction sessions as [|s sessions IH]; intros accepted st Hr; cbn [verify_sessions].
  - exists [], st. cbn [concat]. rewrite app_nil_r. split; [done |]. split; [done |]. split; [constructor |]. split; [|done].
    intros k. split; [by left |]. intros [?|(s & ?%not_elem_of_nil & _)]; done.
  - destruct (verify_session_Ok before s st Hr) as (part & st1 & -> & Hr1 & Hv & Hk1 & Hn1). rewrite bind_Ok. cbn beta iota.
    destruct (IH (accepted ++ part) st1 Hr1) as (parts & st2 & -> & Hr2 & Hvs & Hk2 & Hn2).
    exists (part :: parts), st2. cbn [concat]. rewrite app_assoc. split; [done |]. split; [done |]. split; [by constructor |]. split; [|auto].
    intros k. rewrite Hk2, Hk1. setoid_rewrite elem_of_cons. naive_solver.
Qed.
End items.

(** Verification never fails; it accepts the sound sessions, whole and in order, and adds
    one receipt for each key and reason that is due. *)
Lemma verify_chain_Ok items before : exists parts ks receipts,
  _verify_chain self items before = Ok (concat parts, before ++ receipts) /\ Forall2 (verdict items) (sessions_of items) parts
  /\ Forall2 receipt_for ks receipts /\ NoDup ks /\ forall k, k ∈ ks <-> exists s, s ∈ sessions_of items /\ receipt_due items s k.
Proof.
  unfold _verify_chain.
  destruct (verify_sessions_Ok items before (sessions_of items) [] {| set_aside := before; reported := [] |}) as (parts & st & -> & (new & Hn & Hf) & Hv & Hk & Hd).
  { exists []. cbn. split; [by rewrite app_nil_r | constructor]. }
  exists parts, (reverse (reported st)), new. rewrite bind_Ok, Hn. cbn [app]. split; [done |]. split; [done |]. split; [done |].
  rewrite reverse_Permutation. split; [apply Hd; constructor |]. intros k. rewrite elem_of_reverse, Hk. cbn [reported].
  split; [by intros [?%not_elem_of_nil|] | by right].
Qed.
End chains.
