(* ===== verification/ReplayProps.v ===== *)
(** * Replay: indexes and objects that verify

    What the checks of an index and of the object it names establish, and what the loop
    over the indexes has when it comes to its end. *)

From Stdlib Require Import Ascii.
From S2P Require Import Prelude PyStr PyObj PyDatetime PyJson LogicalJat CatalogProps JsonProps WorkspacePolicyProps SessionEvidence SessionEvidenceProps Replay ReplayChain.

Section verified.
Context `{PyRuntime, JsonRuntime, ReplayRuntime}.
Context (self : ReplayReader).

(** ** What is promised of an index and its object *)

(** A manifest of the reader's profile and workspace, under a policy for its destination. *)
Definition authorized (manifest : dict) : Prop :=
  (exists p, get_or_none "profile" manifest = PDict p /\ get_or_none "id" p = PStr (profile_id self)
     /\ get_or_none "workspace_id" p = PStr (workspace_id self))
  /\ exists policy decision, get_or_none "policy" manifest = PDict policy /\ get_or_none "decision" policy = PStr decision
     /\ decision ∈ allowed_decisions self
     /\ (get_or_none "destination" policy = PNone \/ get_or_none "destination" policy = PStr (destination self)).
(** Bytes of the size and with the digest they were asked for by. *)
Definition bytes_of (m : result (option string)) (d : string) (size : Z) (body : string) : Prop :=
  m = Ok (Some body) /\ sha256 body = d /\ Z.of_nat (py_len body) = size.

(** An index is what its key says, decrypts to an accepted index document of this reader,
    and names an object that is what the document says and decrypts to an accepted
    document, of the kind and with the event named, of this reader too. *)
Record genuine (ref : _IndexRef) (item : _Evidence) : Prop := {
  genuine_index : exists body manifest payload,
    bytes_of (get_evidence_index_bytes self (key ref) (ref_size ref)) (ref_sha256 ref) (ref_size ref) body
    /\ _decrypt self body "index-event" = Ok (manifest, index_document item, payload) /\ authorized manifest;
  genuine_ref : index item = ref;
  genuine_listed : listing_error ref = None;
  genuine_accepted : accepted (index_document item);
  genuine_kind : get_or_none "kind" (index_document item) = PStr "index-event";
  genuine_object : exists kind d size body manifest payload,
    get_or_none "evidence_kind" (index_document item) = PStr kind
    /\ get_or_none "ciphertext_sha256" (index_document item) = PStr d /\ get_or_none "ciphertext_size" (index_document item) = PInt size
    /\ bytes_of (get_evidence_bytes self (EVIDENCE_OBJECT_PREFIX +:+ d) size) d size body
    /\ _decrypt self body kind = Ok (manifest, document item, payload) /\ authorized manifest
    /\ get_or_none "kind" (document item) = PStr kind
    /\ (kind = "session-asset" -> get_or_none "sha256" (document item) = PStr (sha256 payload)
        /\ get_or_none "size" (document item) = PInt (Z.of_nat (py_len payload)));
  genuine_document : accepted (document item);
  genuine_event : get_or_none "event_id" (document item) = get_or_none "evidence_event_id" (index_document item);
  genuine_capture : forall c, get_or_none "capture" (document item) = PDict c -> get_or_none "status" c <> PStr "quarantined";
  genuine_workspace : get_or_none "workspace_id" (document item) = PNone \/ get_or_none "workspace_id" (document item) = PStr (workspace_id self);
}.

(** ** The checks *)
Lemma py_ne_PStr v s : negb (py_eq v (PStr s)) = false <-> v = PStr s.
Proof. by rewrite negb_false_iff, py_eq_PStr. Qed.
Lemma member_Ok v set : member v set = Ok true <-> exists s, v = PStr s /\ s ∈ set.
Proof.
  unfold member. split.
  - destruct (hashable v) eqn:Hh; [intros [= Hin]|done]. destruct v; try done. exists s. split; [done | by apply bool_decide_eq_true in Hin].
  - intros (s & -> & Hin). cbn. by rewrite bool_decide_true.
Qed.
Lemma own_profile_Ok m u : own_profile self m = Ok u ->
  exists p, get_or_none "profile" m = PDict p /\ get_or_none "id" p = PStr (profile_id self) /\ get_or_none "workspace_id" p = PStr (workspace_id self).
Proof.
  unfold own_profile. destruct (get_or_none "profile" m) as [| | | | | |p]; try done. intros Hb%raise_if_Ok_inv. exists p. split; [done |].
  by rewrite orb_false_iff, !py_ne_PStr in Hb.
Qed.
Lemma own_destination_Ok p u : own_destination self p = Ok u -> get_or_none "destination" p = PNone \/ get_or_none "destination" p = PStr (destination self).
Proof.
  unfold own_destination. intros Hb%raise_if_Ok_inv. apply andb_false_iff in Hb as [Hb|Hb]; [left | right; by apply py_ne_PStr].
  apply negb_false_iff in Hb. by destruct (get_or_none "destination" p).
Qed.
Lemma require_accepted_Ok d fallback u : require_accepted d fallback = Ok u <-> accepted d.
Proof. unfold require_accepted, accepted. destruct u. by destruct (disposition _). Qed.

Lemma check_index_document_Ok m d kind event : check_index_document self m d = Ok (kind, event) ->
  accepted d /\ get_or_none "kind" d = PStr "index-event" /\ authorized m
  /\ get_or_none "evidence_kind" d = PStr kind /\ get_or_none "evidence_event_id" d = PStr event.
Proof.
  unfold check_index_document. intros Hc. apply bind_Ok_inv in Hc as (? & Ha%require_accepted_Ok & Hc).
  apply bind_Ok_inv in Hc as (? & Hk%raise_if_Ok_inv & Hc). apply bind_Ok_inv in Hc as (? & Hp%own_profile_Ok & Hc).
  apply bind_Ok_inv in Hc as (? & Hpol & Hc).
  apply py_ne_PStr in Hk. split; [done |]. split; [done |]. split; [split; [done |]|].
  - destruct (get_or_none "policy" m) as [| | | | | |p]; try done. apply bind_Ok_inv in Hpol as (b & Hm & Hpol).
    apply bind_Ok_inv in Hpol as (? & Hb%raise_if_Ok_inv & Hd%own_destination_Ok). apply negb_false_iff in Hb as ->.
    apply member_Ok in Hm as (s & ? & ?). by exists p, s.
  - destruct (get_or_none "evidence_kind" d), (get_or_none "evidence_event_id" d); try done.
    apply bind_Ok_inv in Hc as (? & _ & Hc). apply bind_Ok_inv in Hc as (? & _ & Hc). by injection Hc as -> ->.
Qed.

Lemma own_capture_Ok m d u : own_capture self m d = Ok u -> (exists policy decision, get_or_none "policy" m = PDict policy
    /\ get_or_none "decision" policy = PStr decision /\ decision ∈ allowed_decisions self
    /\ (get_or_none "destination" policy = PNone \/ get_or_none "destination" policy = PStr (destination self)))
  /\ forall c, get_or_none "capture" d = PDict c -> get_or_none "status" c <> PStr "quarantined".
Proof.
  unfold own_capture. destruct (get_or_none "capture" d) as [| | | | | |c]; try done. intros Hc.
  apply bind_Ok_inv in Hc as (? & Hq%raise_if_Ok_inv & Hc). destruct (get_or_none "policy" m) as [| | | | | |p]; try done.
  apply bind_Ok_inv in Hc as (b & Hm & Hc). apply bind_Ok_inv in Hc as (? & Hb%raise_if_Ok_inv & Hd%own_destination_Ok).
  bools. subst b. apply member_Ok in Hm as (s & Hs & ?). split.
  - exists p, s. split; [done |]. split; [|done]. apply py_eq_PStr. by rewrite Hs in *.
  - intros ? [= <-] Hc. by rewrite Hc in Hq.
Qed.
Lemma accepted_size d : accepted d -> get_or_none "kind" d = PStr "session-asset" -> exists z, get_or_none "size" d = PInt z.
Proof.
  intros Ha%accepted_well_formed Hk. destruct Ha as [Hh|Hh|Hh _ _ _ (v & Hv & z & -> & _) _ _ _|Hh]; try (rewrite (headed_kind _ _ Hh) in Hk; congruence).
  exists z. by apply get_some.
Qed.
Lemma own_content_Ok d p u : accepted d -> own_content d p = Ok u -> get_or_none "kind" d = PStr "session-asset" ->
  get_or_none "sha256" d = PStr (sha256 p) /\ get_or_none "size" d = PInt (Z.of_nat (py_len p)).
Proof.
  unfold own_content, is_kind. intros Ha Hc Hk. rewrite Hk in Hc. apply raise_if_Ok_inv in Hc. apply orb_false_iff in Hc as [Hc Hs].
  apply py_ne_PStr in Hc. split; [done |]. destruct (accepted_size d Ha Hk) as (z & Hz). rewrite Hz in *. apply negb_false_iff in Hs. cbn in Hs.
  apply bool_decide_eq_true in Hs. by injection Hs as ->.
Qed.

Lemma check_evidence_Ok kind event content m d p u : check_evidence self kind event content m d p = Ok u ->
  accepted d /\ get_or_none "kind" d = PStr kind /\ get_or_none "event_id" d = PStr event /\ authorized m
  /\ (forall c, get_or_none "capture" d = PDict c -> get_or_none "status" c <> PStr "quarantined")
  /\ (get_or_none "workspace_id" d = PNone \/ get_or_none "workspace_id" d = PStr (workspace_id self))
  /\ (kind = "session-asset" -> get_or_none "sha256" d = PStr (sha256 p) /\ get_or_none "size" d = PInt (Z.of_nat (py_len p))).
Proof.
  unfold check_evidence. intros Hc. apply bind_Ok_inv in Hc as (? & Ha%require_accepted_Ok & Hc).
  apply bind_Ok_inv in Hc as (? & Hk%raise_if_Ok_inv & Hc). apply bind_Ok_inv in Hc as (? & Hp%own_profile_Ok & Hc).
  apply bind_Ok_inv in Hc as (? & Hw%raise_if_Ok_inv & Hc). apply bind_Ok_inv in Hc as (? & [Hpol Hq]%own_capture_Ok & Hc).
  apply bind_Ok_inv in Hc as (? & Hs & _). apply orb_false_iff in Hk as [Hk He]. apply py_ne_PStr in Hk, He.
  split; [done |]. split; [done |]. split; [done |]. split; [done |]. split; [done |]. split.
  - apply andb_false_iff in Hw as [Hw|Hw]; [left | right; by apply py_ne_PStr]. apply negb_false_iff in Hw. by destruct (get_or_none "workspace_id" d).
  - intros ->. by eapply own_content_Ok.
Qed.

Lemma read_index_Ok ref body : _read_index self ref = Ok body ->
  bytes_of (get_evidence_index_bytes self (key ref) (ref_size ref)) (ref_sha256 ref) (ref_size ref) body.
Proof.
  unfold _read_index, fetched. intros Hc. apply bind_Ok_inv in Hc as (? & _ & Hc). apply bind_Ok_inv in Hc as (o & Ho & Hc).
  destruct (get_evidence_index_bytes _ _ _) as [o'|] eqn:Hg; [injection Ho as ->|done]. destruct o as [b|]; [|done].
  apply bind_Ok_inv in Hc as (? & _ & Hc). apply bind_Ok_inv in Hc as (? & Hb%raise_if_Ok_inv & [= ->]). bools.
  split; [done |]. split; [by apply dec_stable | by apply Z.eqb_eq].
Qed.
Lemma read_object_Ok d size body : _read_object self d size = Ok body ->
  bytes_of (get_evidence_bytes self (EVIDENCE_OBJECT_PREFIX +:+ d) size) d size body.
Proof.
  unfold _read_object, fetched, evidence_object_key. intros Hc. apply bind_Ok_inv in Hc as (? & _ & Hc). apply bind_Ok_inv in Hc as (? & _ & Hc).
  apply bind_Ok_inv in Hc as (k & Hk & Hc). apply bind_Ok_inv in Hk as (? & _ & [= <-]). apply bind_Ok_inv in Hc as (o & Ho & Hc).
  destruct (get_evidence_bytes _ _ _) as [o'|] eqn:Hg; [injection Ho as ->|done]. destruct o as [b|]; [|done].
  apply bind_Ok_inv in Hc as (? & Hb%raise_if_Ok_inv & [= ->]). bools. split; [done |]. split; [by apply dec_stable | by apply Z.eqb_eq].
Qed.

(** The index document is accepted, so what it says of its object has its type. *)
Lemma accepted_index d : accepted d -> get_or_none "kind" d = PStr "index-event" ->
  (exists s, get_or_none "ciphertext_sha256" d = PStr s) /\ exists z, get_or_none "ciphertext_size" d = PInt z.
Proof.
  intros Ha%accepted_well_formed Hk.
  destruct Ha as [Hh|Hh|Hh|Hh _ _ _ (v & Hv & s & -> & _) (w & Hw & z & -> & _) _ _]; try (rewrite (headed_kind _ _ Hh) in Hk; congruence).
  split; [exists s | exists z]; by apply get_some.
Qed.

Lemma validate_index_Ok ref body m d p item : listing_error ref = None ->
  _read_index self ref = Ok body -> _decrypt self body "index-event" = Ok (m, d, p) -> _validate_index self ref m d p = Ok item -> genuine ref item.
Proof.
  unfold _validate_index. intros Hl Hb Hd Hv. apply bind_Ok_inv in Hv as ([kind event] & (Ha & Hk & Hm & Hek & Hev)%check_index_document_Ok & Hv).
  destruct (accepted_index d Ha Hk) as ((s & Hs) & z & Hz). rewrite Hs, Hz in Hv. cbn [to_int py_str] in Hv. rewrite bind_Ok in Hv.
  apply bind_Ok_inv in Hv as (ob & Hob%read_object_Ok & Hv). apply bind_Ok_inv in Hv as ([[em ed] ep] & Hed & Hv).
  apply bind_Ok_inv in Hv as (? & (Hea & Hk' & He & Hem & Hq & Hw & Has)%check_evidence_Ok & [= <-]).
  constructor; cbn [index index_document document]; [|done..| |done| |done|done].
  - exists body, m, p. split; [by apply read_index_Ok | done].
  - exists kind, s, z, ob, em, ep. done.
  - congruence.
Qed.

(** ** The loop over the indexes *)

(** What is kept of a document for its chain, with the whole of it or without. *)
Definition chain_of (keep : bool) (item : _Evidence) : _ChainEvidence :=
  let d := document item in
  let fields := if is_kind "session-segment" d then SEGMENT_FIELDS else if is_kind "session-asset" d then ASSET_FIELDS else FINAL_FIELDS in
  {| chain_index := index item; chain_document := present fields d;
     digest := if is_kind "session-segment" d then match canonical_digest (PDict d) with Ok dg => Some dg | Raise _ => None end else None;
     evidence := if is_kind "session-segment" d && keep then Some item else None |}.
(** Only the segments of the page are kept whole. *)
Definition on_selected (selected_keys : list string) (item : _Evidence) : bool := bool_decide (key (index item) ∈ selected_keys).
Definition chained_item (selected_keys : list string) (item : _Evidence) : _ChainEvidence := chain_of (on_selected selected_keys item) item.

Lemma chain_evidence_of item b i : _chain_evidence item (b && is_kind "session-segment" (document item)) = Ok i ->
  i = chain_of b item /\ forall b', _chain_evidence item (b' && is_kind "session-segment" (document item)) = Ok (chain_of b' item).
Proof.
  unfold _chain_evidence, chain_of. destruct (is_kind "session-segment" (document item)).
  - destruct (canonical_digest _); [|done]. rewrite !bind_Ok, andb_true_r. intros [= <-]. split; [done |]. intros b'. by rewrite bind_Ok, andb_true_r.
  - destruct (is_kind "session-asset" (document item)); by intros [= <-].
Qed.

(** A segment that is kept has a canonical text. *)
Definition canonical (item : _Evidence) : Prop := is_kind "session-segment" (document item) = true -> out_of_range (PDict (document item)) = false.
Lemma chain_evidence_canonical item b i : _chain_evidence item b = Ok i -> canonical item.
Proof.
  unfold _chain_evidence, canonical. intros Hc Hk. rewrite Hk in Hc. apply bind_Ok_inv in Hc as (dg & Hd & _). unfold canonical_digest, canonical_json in Hd.
  by destruct (out_of_range _).
Qed.

(** An index that verifies does so for every page. *)
Lemma scan_ref_found sel ref scanned n i : listing_error ref = None -> scan_ref self sel ref scanned = (n, Found i) ->
  exists item, genuine ref item /\ canonical item /\ i = chained_item sel item /\ forall sel', scan_ref self sel' ref scanned = (n, Found (chained_item sel' item)).
Proof.
  intros Hl. unfold scan_ref. destruct (read_document self ref) as [[[[m d] p] size]|] eqn:Hr; [|done].
  destruct (_ <? _)%Z; [done |]. destruct (_validate_index self ref m d p) as [item|] eqn:Hv; [rewrite bind_Ok | done].
  destruct (_chain_evidence _ _) as [i'|] eqn:Hc; [intros [= <- <-]|done].
  unfold read_document in Hr. apply bind_Ok_inv in Hr as (body & Hb & Hr). apply bind_Ok_inv in Hr as ([[m' d'] p'] & Hd & Hr).
  destruct (get_or_none "ciphertext_size" d'); try done. apply bind_Ok_inv in Hr as (? & _ & [= -> -> -> _]).
  pose proof (validate_index_Ok _ _ _ _ _ _ Hl Hb Hd Hv) as Hg. exists item. split; [done |]. split; [by eapply chain_evidence_canonical |].
  apply chain_evidence_of in Hc as [-> Hc]. unfold chained_item, on_selected. rewrite (genuine_ref _ _ Hg). split; [done |].
  intros sel'. rewrite bind_Ok. by rewrite Hc.
Qed.

(** What the loop sets it never resets. *)
Lemma unverified_incomplete sel ref reason st st' : quarantine_unverified self sel ref reason st = Ok st' -> validation_incomplete st' = true.
Proof. unfold quarantine_unverified. destruct (_ && _); [by intros [= <-] |]. intros Hc. by inv_result. Qed.
Lemma scan_incomplete sel refs st st' : scan_refs self sel refs st = Ok st' -> validation_incomplete st = true -> validation_incomplete st' = true.
Proof.
  revert st. induction refs as [|ref refs IH]; intros st; cbn [scan_refs]; [by intros [= <-] |].
  assert (forall reason st1, (st2 ← quarantine_unverified self sel ref reason st1; scan_refs self sel refs st2) = Ok st' -> validation_incomplete st' = true) as Hq.
  { intros reason st1 (st2 & ?%unverified_incomplete & ?)%bind_Ok_inv. by eapply IH. }
  destruct (listing_error ref); [by intros ?%Hq |]. destruct (_ <? _)%Z; [by intros ?%Hq |]. destruct (_ <? _)%Z; [by intros [= <-] |].
  destruct (scan_ref self sel ref _) as [n [|c|i]]; [by intros [= <-] | by intros ?%Hq | intros Hs Hi; by eapply IH].
Qed.

(** The loop came to its end, without anything missing. *)
Definition finished (st : scan) : Prop := validation_incomplete st = false /\ scan_limited st = false.
(** A loop that finishes has verified every index, and does so for every page. *)
Lemma scan_refs_Ok sel refs st st1 : scan_refs self sel refs st = Ok st1 -> finished st1 ->
  exists items, Forall2 genuine refs items /\ Forall canonical items /\ scan_evidence st1 = scan_evidence st ++ (chained_item sel <$> items)
    /\ scan_quarantines st1 = scan_quarantines st
    /\ forall sel' st', scanned_bytes st' = scanned_bytes st -> finished st' ->
        exists st1', scan_refs self sel' refs st' = Ok st1' /\ finished st1'
          /\ scan_evidence st1' = scan_evidence st' ++ (chained_item sel' <$> items) /\ scan_quarantines st1' = scan_quarantines st'.
Proof.
  intros Hs [Hi Hn]. revert st Hs. induction refs as [|ref refs IH]; intros st; cbn [scan_refs].
  { intros [= <-]. exists []. cbn [fmap list_fmap]. setoid_rewrite app_nil_r. split; [constructor |]. split; [constructor |]. split; [done |]. split; [done |].
    intros sel' st' _ ?. by exists st'. }
  assert (forall reason st2, (st3 ← quarantine_unverified self sel ref reason st2; scan_refs self sel refs st3) = Ok st1 -> False) as Hq.
  { intros reason st2 (st3 & H3%unverified_incomplete & Hs)%bind_Ok_inv. by rewrite (scan_incomplete _ _ _ _ Hs H3) in Hi. }
  destruct (listing_error ref) eqn:Hl; [by intros ?%Hq |]. destruct (_ <? ref_size ref)%Z; [by intros ?%Hq |].
  destruct (_ <? _)%Z eqn:Hlim; [intros [= <-]; done |].
  destruct (scan_ref self sel ref _) as [n [|c|i]] eqn:Hr; [intros [= <-]; done | by intros ?%Hq |].
  apply scan_ref_found in Hr as (item & Hg & Hcan & -> & Hr); [|done].
  intros Hs. destruct (IH _ Hs) as (items & Hf & Hcans & He & Hk & Hany). exists (item :: items). cbn [with_scanned scan_evidence scan_quarantines scanned_bytes] in *.
  rewrite <- app_assoc in He. split; [by constructor |]. split; [by constructor |]. split; [done |]. split; [done |].
  intros sel' st' Hb Hfin. rewrite Hb, Hlim, Hr.
  destruct (Hany sel' (with_scanned n [chained_item sel' item] st') eq_refl Hfin) as (st1' & ? & ? & He' & ?).
  exists st1'. cbn [with_scanned scan_evidence] in He'. rewrite <- app_assoc in He'. done.
Qed.
End verified.
