(* ===== verification/ReplayCursors.v ===== *)
(** * Replay: cursors

    A cursor of a reader is short, is read back, and is refused by any other reader. *)

From Stdlib Require Import Ascii.
From S2P Require Import Prelude PyStr PyObj PyDatetime PyJson LogicalJat CatalogProps JsonProps LogicalJatTheorems CatalogMade CatalogFile CatalogFileProps Base64 SessionEvidence SessionEvidenceProps Replay.

(** ** Unpadded texts *)
Lemma rstrip_replicate (front : list ascii) n : Forall (fun c => c <> pad) front ->
  py_rstrip (Ascii.eqb pad) (of_chars (front ++ replicate n pad)) = of_chars front.
Proof.
  intros Hf. unfold py_rstrip. rewrite chars_of_chars, reverse_app, reverse_replicate. f_equal.
  assert (forall l, drop_while (Ascii.eqb pad) (replicate n pad ++ l) = drop_while (Ascii.eqb pad) l) as -> by (induction n; done).
  destruct front as [|c front _] using rev_ind; [done |]. apply Forall_app in Hf as [_ [Hc _]%Forall_cons].
  rewrite reverse_snoc, drop_while_none by (apply Ascii.eqb_neq; congruence). by rewrite reverse_cons, reverse_involutive.
Qed.

Lemma padding_length n : (4 - ((n * 4 + 2) / 3) mod 4) mod 4 = (3 - n mod 3) mod 3.
Proof.
  assert (exists q r, n = 3 * q + r /\ r < 3) as (q & r & -> & Hr).
  { exists (n / 3), (n mod 3). split; [apply Nat.div_mod_eq | by apply Nat.mod_upper_bound]. }
  assert ((3 * q + r) mod 3 = r) as -> by (symmetry; apply (Nat.mod_unique _ _ q); lia).
  assert (exists k, ((3 * q + r) * 4 + 2) / 3 = 4 * q + k /\ k < 4 /\ (4 - k) mod 4 = (3 - r) mod 3) as (k & -> & Hk & Hkr).
  { destruct r as [|[|[|]]]; [exists 0 | exists 2 | exists 3 | lia]; (split; [symmetry|by split; [lia|]]);
      [apply (Nat.div_unique _ _ _ 2) | apply (Nat.div_unique _ _ _ 0) | apply (Nat.div_unique _ _ _ 1)]; lia. }
  assert ((4 * q + k) mod 4 = k) as -> by (symmetry; apply (Nat.mod_unique _ _ q); lia). done.
Qed.

(** The length of an unpadded text, and the padding that completes it. *)
Lemma unpadded_padding s : py_len (unpadded s) = (py_len s * 4 + 2) / 3 /\ urlsafe_b64encode s = unpadded s +:+ padding (unpadded s).
Proof.
  destruct (b64_encode_shape (chars s)) as (front & Hf & He & Hlen). rewrite length_chars in *.
  assert (Forall (fun c => c <> pad) (to_urlsafe <$> front)) as Hn.
  { apply Forall_fmap. eapply Forall_impl; [exact Hf |]. intros c (n & Hn & ->). by destruct (b64_char_props n Hn) as (_ & _ & ? & _). }
  assert (unpadded s = of_chars (to_urlsafe <$> front)) as Hu.
  { unfold unpadded, urlsafe_b64encode. rewrite He, fmap_app, fmap_replicate. change (to_urlsafe pad) with pad. by apply rstrip_replicate. }
  assert (py_len (unpadded s) = (py_len s * 4 + 2) / 3) as Hl by by rewrite Hu, <- length_chars, chars_of_chars, length_fmap.
  split; [done |]. unfold padding. rewrite Hl, Hu. unfold urlsafe_b64encode. rewrite He, fmap_app, fmap_replicate. change (to_urlsafe pad) with pad.
  assert ((4 - ((py_len s * 4 + 2) / 3) mod 4) mod 4 = (3 - py_len s mod 3) mod 3) as ->.
  { apply padding_length. }
  rewrite <- (of_chars_chars (of_chars _ +:+ of_chars _)), chars_app, !chars_of_chars. done.
Qed.
Lemma decode_unpadded s : urlsafe_b64decode (unpadded s +:+ padding (unpadded s)) = Ok s.
Proof. rewrite <- (proj2 (unpadded_padding s)). apply urlsafe_decode_encode. Qed.

(** ** The length of a text in UTF-8 *)
Lemma list_sum_cons x l : list_sum (x :: l) = x + list_sum l.
Proof. done. Qed.
Definition ubytes (s : string) : nat := length (utf8_bytes s).
Lemma ubytes_app s t : ubytes (s +:+ t) = ubytes s + ubytes t.
Proof. unfold ubytes, utf8_bytes. by rewrite chars_app, bind_app, length_app. Qed.
Lemma escape_bytes c : ubytes (escape_char false c) <= 6.
Proof. destruct c as [[] [] [] [] [] [] [] []]; apply Nat.leb_le; vm_compute; reflexivity. Qed.
Lemma json_string_bytes s : ubytes (json_string false s) <= 2 + 6 * py_len s.
Proof.
  unfold json_string. rewrite ubytes_app. change (ubytes dquote) with 1. rewrite <- length_chars.
  induction (chars s) as [|c l IH]; [done |]. cbn [foldr length]. rewrite ubytes_app. pose proof (escape_bytes c). lia.
Qed.
Lemma join_bytes l : ubytes (py_join ("," +:+ "") l) <= list_sum ((fun s => ubytes s + 1) <$> l).
Proof.
  induction l as [|s l IH]; [done |]. destruct l as [|t l].
  - change (py_join _ [s]) with s. cbn. lia.
  - change (py_join ("," +:+ "") (s :: t :: l)) with (s +:+ ("," +:+ "") +:+ py_join ("," +:+ "") (t :: l)).
    rewrite !ubytes_app, fmap_cons. rewrite !list_sum_cons. change (ubytes ",") with 1. change (ubytes "") with 0. lia.
Qed.
Lemma dict_bytes `{PyRuntime} d : ubytes (dumps false (PDict d)) <= 2 + list_sum ((fun kv => 6 * py_len kv.1 + ubytes (dumps false kv.2) + 4) <$> d).
Proof.
  cbn [dumps_sep]. rewrite !ubytes_app. change (ubytes "{") with 1. change (ubytes "}") with 1.
  pose proof (join_bytes ((fun kv => json_string false kv.1 +:+ (":" +:+ "") +:+ kv.2) <$> merge_sort key_le ((fun kv => (kv.1, dumps false kv.2)) <$> d))) as Hj.
  rewrite <- list_fmap_compose in Hj.
  assert (forall l : list (string * string), list_sum (((fun s => ubytes s + 1) ∘ (fun kv => json_string false kv.1 +:+ (":" +:+ "") +:+ kv.2)) <$> l)
    <= list_sum ((fun kv => 6 * py_len kv.1 + ubytes kv.2 + 4) <$> l)) as Hl.
  { induction l as [|kv l IH]; [done |]. rewrite !fmap_cons. rewrite !list_sum_cons. cbn [compose]. pose proof (json_string_bytes kv.1).
    rewrite !ubytes_app. change (ubytes ":") with 1. change (ubytes "") with 0. lia. }
  specialize (Hl (merge_sort key_le ((fun kv => (kv.1, dumps false kv.2)) <$> d))).
  assert (list_sum ((fun kv => 6 * py_len kv.1 + ubytes kv.2 + 4) <$> merge_sort key_le ((fun kv => (kv.1, dumps false kv.2)) <$> d))
    = list_sum ((fun kv => 6 * py_len kv.1 + ubytes (dumps false kv.2) + 4) <$> d)) as Hs;
    [|eapply Nat.le_trans; [apply Nat.add_le_mono_l, Nat.add_le_mono_r, (Nat.le_trans _ _ _ Hj Hl) | rewrite Hs; lia]].
  assert (forall l l' : list nat, l ≡ₚ l' -> list_sum l = list_sum l') as Hp.
  { induction 1 as [|x l l' _ IH|x y l|l l' l'' _ IH1 _ IH2]; [done |..|congruence]; rewrite !list_sum_cons; [congruence | lia]. }
  apply Hp. rewrite merge_sort_Permutation, <- list_fmap_compose. done.
Qed.

(** ** Keys *)
Lemma index_key_shape k d : validate_evidence_index_key k = Ok d ->
  startswith EVIDENCE_INDEX_PREFIX k = true /\ py_len k = 89 /\ fullmatch _DIGEST d = true.
Proof.
  unfold validate_evidence_index_key. intros Hc. apply bind_Ok_inv in Hc as (? & Hb%raise_if_Ok_inv & Hd).
  assert (d = str_take 64 (str_drop 3 (removeprefix EVIDENCE_INDEX_PREFIX k))) as -> by congruence. clear Hd. apply orb_false_iff in Hb as [Hb _].
  apply negb_false_iff, fullmatch_lit_cat in Hb as (t & -> & Ht). rewrite removeprefix_app. split; [apply startswith_app |].
  apply fullmatch_lang, lang_cat_inv in Ht as (h & t1 & Ht & [Hh _]%lang_exactly_cls & (sl & t2 & -> & ->%lang_lit & (dg & ext & -> & [Hd Hf]%lang_exactly_cls & ->%lang_lit)%lang_cat_inv)%lang_cat_inv).
  assert (t = of_chars h +:+ "/" +:+ of_chars dg +:+ ".age") as ->.
  { rewrite <- (of_chars_chars t), Ht, <- (of_chars_chars (_ +:+ _)), !chars_app, !chars_of_chars. done. }
  destruct h as [|h1 [|h2 [|]]]; try done. split.
  - rewrite !py_len_app, <- !length_chars, !chars_of_chars, Hd. done.
  - change (str_drop 3 (of_chars [h1; h2] +:+ "/" +:+ of_chars dg +:+ ".age")) with (of_chars dg +:+ ".age").
    assert (str_take 64 (of_chars dg +:+ ".age") = of_chars dg) as ->.
    { rewrite <- Hd. clear. induction dg as [|c dg IH]; [done |]. cbn [of_chars length str_take]. change (String c ?a +:+ ?b) with (String c (a +:+ b)). cbn. by rewrite IH. }
    apply fullmatch_lang, lang_exactly_cls. by rewrite chars_of_chars.
Qed.

(** ** Encoding *)
Section cursors.
Context `{PyRuntime, JsonRuntime, ReplayRuntime}.

Definition cursor_body (c : ReplayCursor) : dict :=
  [("version", PInt _CURSOR_VERSION); ("profile_id", PStr (cursor_profile c)); ("destination", PStr (cursor_destination c));
   ("last_index_key", opt_str (last_index_key c))].
Definition cursor_text (c : ReplayCursor) : string := of_chars (utf8_bytes (dumps false (PDict (cursor_body c)))).
(** Names short enough for any cursor to be encoded. *)
Definition short (c : ReplayCursor) : Prop :=
  py_len (cursor_profile c) <= 128 /\ py_len (cursor_destination c) <= 128 /\ forall k, last_index_key c = Some k -> py_len k <= 89.

Lemma opt_str_range o : out_of_range (opt_str o) = false.
Proof. by destruct o. Qed.
Lemma cursor_canonical c : canonical_json (PDict (cursor_body c)) = Ok (cursor_text c).
Proof. unfold canonical_json, cursor_body. cbn [out_of_range existsb snd]. by rewrite opt_str_range. Qed.
Lemma cursor_text_length c : short c -> py_len (cursor_text c) <= 2400.
Proof.
  intros (Hp & Hd & Hk). unfold cursor_text. rewrite <- length_chars, chars_of_chars. pose proof (dict_bytes (cursor_body c)) as Hb.
  unfold ubytes in Hb at 1. etrans; [exact Hb |]. unfold cursor_body. cbn [fmap list_fmap].
  rewrite !list_sum_cons. change (list_sum []) with 0. cbn [fst snd].
  pose proof (json_string_bytes (cursor_profile c)) as H1'. pose proof (json_string_bytes (cursor_destination c)) as H2'.
  assert (ubytes (dumps false (opt_str (last_index_key c))) <= 540) as H3'.
  { destruct (last_index_key c) as [k|]; [|apply Nat.leb_le; vm_compute; reflexivity]. pose proof (json_string_bytes k). specialize (Hk k eq_refl).
    change (dumps false (opt_str (Some k))) with (json_string false k). lia. }
  change (dumps false (PStr ?s)) with (json_string false s). change (py_len "version") with 7. change (py_len "profile_id") with 10.
  change (py_len "destination") with 11. change (py_len "last_index_key") with 14.
  assert (ubytes (dumps false (PInt _CURSOR_VERSION)) = 1) as -> by (vm_compute; reflexivity). lia.
Qed.
Lemma encode_short c : short c -> encode c = Ok (unpadded (cursor_text c)) /\ py_len (unpadded (cursor_text c)) <= _MAX_CURSOR_BYTES.
Proof.
  intros Hs. pose proof (cursor_text_length c Hs) as Hl. destruct (unpadded_padding (cursor_text c)) as [Hu _].
  assert (py_len (unpadded (cursor_text c)) <= _MAX_CURSOR_BYTES) as Hb.
  { rewrite Hu. unfold _MAX_CURSOR_BYTES. apply Nat.Div0.div_le_upper_bound. lia. }
  split; [|done]. unfold encode. fold (cursor_body c). rewrite cursor_canonical, bind_Ok. cbv zeta. by rewrite (proj2 (Nat.ltb_ge _ _) Hb).
Qed.

(** The text of a cursor is not empty. *)
Lemma cursor_text_nonempty c : unpadded (cursor_text c) <> "".
Proof.
  intros He. destruct (unpadded_padding (cursor_text c)) as [Hu _]. rewrite He in Hu. assert (0 < py_len (cursor_text c)) as Hp; [|].
  - unfold cursor_text. rewrite <- length_chars, chars_of_chars. change (dumps false (PDict (cursor_body c))) with
      ("{" +:+ (py_join ("," +:+ "") ((fun kv => json_string false kv.1 +:+ (":" +:+ "") +:+ kv.2) <$>
        merge_sort key_le ((fun kv => (kv.1, dumps false kv.2)) <$> cursor_body c)) +:+ "}")).
    fold (ubytes ("{" +:+ (py_join ("," +:+ "") ((fun kv => json_string false kv.1 +:+ (":" +:+ "") +:+ kv.2) <$>
        merge_sort key_le ((fun kv => (kv.1, dumps false kv.2)) <$> cursor_body c)) +:+ "}"))). rewrite ubytes_app. change (ubytes "{") with 1. lia.
  - change (py_len "") with 0 in Hu. assert (1 <= (py_len (cursor_text c) * 4 + 2) / 3); [|lia]. apply Nat.div_le_lower_bound; lia.
Qed.

Hypothesis Hdepth : 1 <= json_depth.
Lemma cursor_plain c : plain json_depth (PDict (cursor_body c)).
Proof.
  destruct json_depth as [|n]; [lia |]. cbn [plain]. split.
  - unfold cursor_body. apply (bool_decide_unpack _). by vm_compute.
  - unfold cursor_body. rewrite !Forall_cons. cbn [snd]. split; [destruct n; cbn; unfold _CURSOR_VERSION; lia |]. split; [by destruct n |]. split; [by destruct n |].
    split; [by destruct (last_index_key c), n | done].
Qed.
Lemma cursor_loads c : loads_bytes (cursor_text c) = Ok (PDict (canon_dict (cursor_body c))).
Proof.
  unfold loads_bytes, cursor_text. rewrite chars_of_chars, utf8_roundtrip, of_chars_chars.
  by apply (loads_compact dict_hook float_constant dict_hook_distinct (PDict (cursor_body c))), cursor_plain.
Qed.

(** Reading a cursor back, by any reader. *)
Lemma decode_encoded c profile target : short c -> decode (unpadded (cursor_text c)) profile target =
  if bool_decide (cursor_profile c = profile /\ cursor_destination c = target) && (match last_index_key c with Some k => startswith EVIDENCE_INDEX_PREFIX k | None => true end)
  then Ok c else Raise (EReplay "cursor-invalid").
Proof.
  intros Hs. destruct (encode_short c Hs) as [_ Hb]. unfold decode. rewrite (bool_decide_false _ (cursor_text_nonempty c)), (proj2 (Nat.ltb_ge _ _) Hb).
  cbn [orb raise_if]. rewrite bind_Ok, decode_unpadded, bind_Ok, cursor_loads. cbn [reraise]. rewrite bind_Ok.
  assert (NoDup (cursor_body c).*1) as Hnd by (pose proof (cursor_plain c) as Hp; destruct json_depth; [lia |]; apply Hp).
  rewrite !get_or_none_canon by done.
  change (get_or_none "version" (cursor_body c)) with (PInt _CURSOR_VERSION). change (get_or_none "profile_id" (cursor_body c)) with (PStr (cursor_profile c)).
  change (get_or_none "destination" (cursor_body c)) with (PStr (cursor_destination c)).
  change (get_or_none "last_index_key" (cursor_body c)) with (opt_str (last_index_key c)). cbn [canon].
  change (py_eq (PInt _CURSOR_VERSION) (PInt _CURSOR_VERSION)) with true. change (py_eq (PStr ?a) (PStr ?b)) with (bool_decide (a = b)).
  destruct c as [p d [k|]]; cbn [cursor_profile cursor_destination last_index_key opt_str default canon].
  - repeat case_bool_decide; try naive_solver. destruct (startswith _ k); naive_solver.
  - repeat case_bool_decide; naive_solver.
Qed.
End cursors.
