(* ===== verification/ReplayPages.v ===== *)
(** * Replay: pages

    Verification does not depend on the page asked for, and a page has the records of the
    accepted segments whose indexes it selects.  The references of a bucket are listed in
    the order of their keys, each key once, and a cursor says where the next page starts, so
    the pages cover the bucket.  What one page of a bucket that verifies is, and what all
    of them are together, comes last. *)

From Stdlib Require Import Ascii.
From S2P Require Import Prelude PyStr PyObj PyDatetime PyJson LogicalJat CatalogProps JsonProps WorkspacePolicyProps SessionEvidence SessionEvidenceProps.
From S2P Require Import Replay ReplayChain ReplayProps ReplayCursors Base64.

Lemma filter_fmap_iff {A B} (f : A -> B) (P : B -> Prop) (Q : A -> Prop) `{forall x, Decision (P x), forall x, Decision (Q x)} (l : list A) :
  (forall x, P (f x) <-> Q x) -> filter P (f <$> l) = f <$> filter Q l.
Proof.
  intros Hpq. induction l as [|x l IH]; [done |]. cbn [fmap list_fmap]. fold (fmap f l). rewrite !filter_cons, IH.
  destruct (base.decide (P (f x))) as [Hp|Hp], (base.decide (Q x)) as [Hq|Hq]; try done; exfalso; [apply Hq | apply Hp]; by apply Hpq.
Qed.

Section uniform.
Context `{PyRuntime, JsonRuntime, ReplayRuntime}.
Context (self : ReplayReader).

(** ** Verification is the same whatever is kept *)
Definition keeping (keep : _Evidence -> bool) (e : _Evidence) : _ChainEvidence := chain_of (keep e) e.
Definition bare (e : _Evidence) : _ChainEvidence := chain_of false e.
Definition bare_le (a b : _Evidence) : Prop := segment_le (bare a) (bare b).
#[local] Instance bare_le_dec : RelDecision bare_le.
Proof. intros a b. unfold bare_le. apply _. Defined.
Definition kind_part (k : string) (evs : list _Evidence) : list _Evidence := filter (fun e => is_kind k (chain_document (bare e)) = true) evs.
Definition session_part (s : option string) (evs : list _Evidence) : list _Evidence := filter (fun e => session_of (bare e) = s) evs.
Definition group_part (s : option string) (evs : list _Evidence) : list _Evidence := merge_sort bare_le (session_part s (kind_part "session-segment" evs)).
Definition finals_part (s : option string) (evs : list _Evidence) : list _Evidence := session_part s (kind_part "session-final" evs).

Section keep.
Context (keep : _Evidence -> bool) (evs : list _Evidence).
Lemma of_kind_keeping k l : of_kind k (keeping keep <$> l) = keeping keep <$> kind_part k l.
Proof. unfold of_kind, kind_part. by apply filter_fmap_iff. Qed.
Lemma of_session_keeping s l : of_session s (keeping keep <$> l) = keeping keep <$> session_part s l.
Proof. unfold of_session, session_part. by apply filter_fmap_iff. Qed.
Lemma group_of_keeping s : group_of s (keeping keep <$> evs) = keeping keep <$> group_part s evs.
Proof. unfold group_of. rewrite of_kind_keeping, of_session_keeping. by apply (merge_sort_fmap (keeping keep) bare_le segment_le). Qed.
Lemma finals_of_keeping s : finals_of s (keeping keep <$> evs) = keeping keep <$> finals_part s evs.
Proof. unfold finals_of. by rewrite of_kind_keeping, of_session_keeping. Qed.
End keep.

Section kept.
Context (keep : _Evidence -> bool) (evs : list _Evidence).
Lemma sessions_of_keeping : sessions_of (keeping keep <$> evs) = sessions_of (bare <$> evs).
Proof.
  unfold sessions_of. change bare with (keeping (fun _ => false)). rewrite !of_kind_keeping.
  by rewrite !fmap_app, <- !list_fmap_compose.
Qed.
Lemma missing_asset_keeping l s d : missing_asset (keeping keep <$> l) s d = missing_asset (bare <$> l) s d.
Proof.
  assert (forall r, has_asset (keeping keep <$> l) s r = has_asset (bare <$> l) s r) as Ha.
  { intros r. unfold has_asset. induction l as [|e l' IH]; [done |]. cbn [fmap list_fmap existsb]. by f_equal. }
  unfold missing_asset. destruct (get_or_none "asset_refs" d) as [| | | | |refs|]; try done.
  induction refs as [|r refs IH]; [done |]. cbn [existsb]. rewrite IH. f_equal. destruct r; [done..|]. by rewrite Ha.
Qed.
Lemma check_segments_keeping l s g p failed st :
  check_segments self (keeping keep <$> l) s (keeping keep <$> g) p failed st = check_segments self (bare <$> l) s (bare <$> g) p failed st.
Proof.
  revert p failed st. induction g as [|e g IH]; intros p failed st; [done |]. cbn [fmap list_fmap check_segments]. fold (fmap (keeping keep) g) (fmap bare g).
  rewrite missing_asset_keeping.
  change (chain_document (keeping keep e)) with (chain_document (bare e)). change (digest (keeping keep e)) with (digest (bare e)).
  unfold quarantine_if, quarantine. change (chain_document (keeping keep e)) with (chain_document (bare e)). change (chain_index (keeping keep e)) with (chain_index (bare e)).
  do 3 (destruct (if (_ : bool) then _ else _); [rewrite !bind_Ok | done]). apply IH.
Qed.
Lemma check_finals_keeping g fs last failed st :
  check_finals self (keeping keep <$> g) (keeping keep <$> fs) last failed st = check_finals self (bare <$> g) (bare <$> fs) last failed st.
Proof.
  revert failed st. assert (bool_decide (keeping keep <$> g = []) = bool_decide (bare <$> g = [])) as Hg by by destruct g.
  induction fs as [|e fs IH]; intros failed st; [done |]. cbn [fmap list_fmap check_finals]. fold (fmap (keeping keep) fs) (fmap bare fs) (fmap (keeping keep) g) (fmap bare g).
  rewrite Hg. change (chain_document (keeping keep e)) with (chain_document (bare e)).
  unfold quarantine_if, quarantine. change (chain_document (keeping keep e)) with (chain_document (bare e)). change (chain_index (keeping keep e)) with (chain_index (bare e)).
  destruct (if (_ : bool) then _ else _); [rewrite !bind_Ok; apply IH | done].
Qed.
Lemma quarantine_all_keeping l reason st : quarantine_all self (keeping keep <$> l) reason st = quarantine_all self (bare <$> l) reason st.
Proof.
  revert st. induction l as [|e l IH]; intros st; [done |]. cbn [fmap list_fmap quarantine_all]. fold (fmap (keeping keep) l) (fmap bare l).
  change (quarantine self (keeping keep e) reason st) with (quarantine self (bare e) reason st). destruct (quarantine _ _ _ _); [rewrite !bind_Ok; apply IH | done].
Qed.
End kept.

(** The session's verification, in terms of what is not kept. *)
Lemma verify_session_eq keep evs s st : verify_session self (keeping keep <$> evs) s st =
  ('(previous, failed, st) ← check_segments self (bare <$> kind_part "session-asset" evs) s (bare <$> group_part s evs) None false st;
   '(failed, st) ← check_finals self (bare <$> group_part s evs) (bare <$> finals_part s evs) previous failed st;
   if (failed : bool) then (st ← quarantine_all self (bare <$> group_part s evs) "broken-chain" st; Ok ([], st))
   else Ok (keeping keep <$> (group_part s evs ++ finals_part s evs), st)).
Proof.
  unfold verify_session. rewrite of_kind_keeping, group_of_keeping, finals_of_keeping, check_segments_keeping.
  destruct (check_segments _ _ _ _ _ _ _) as [[[previous failed] st1]|]; [|done]. rewrite !bind_Ok. cbn beta iota. rewrite check_finals_keeping.
  destruct (check_finals _ _ _ _ _ _) as [[failed' st2]|]; [|done]. rewrite !bind_Ok. cbn beta iota. by rewrite quarantine_all_keeping, fmap_app.
Qed.
Lemma verify_session_keeping evs before s st : reports before st ->
  exists part st', reports before st' /\ (forall e, e ∈ part -> e ∈ evs) /\ forall keep, verify_session self (keeping keep <$> evs) s st = Ok (keeping keep <$> part, st').
Proof.
  intros Hr. destruct (verify_session_Ok self (keeping (fun _ => false) <$> evs) before s st Hr) as (part & st' & Hv & Hr' & _).
  rewrite verify_session_eq in Hv. setoid_rewrite verify_session_eq.
  destruct (check_segments _ _ _ _ _ _ _) as [[[previous failed] st1]|]; [|done]. rewrite bind_Ok in Hv. cbn beta iota in Hv.
  destruct (check_finals _ _ _ _ _ _) as [[failed' st2]|] eqn:Hf; [|done]. rewrite bind_Ok in Hv. cbn beta iota in Hv. destruct failed'.
  - destruct (quarantine_all _ _ _ _) as [st3|] eqn:Hq; [|done]. injection Hv as _ ->.
    exists [], st'. split; [done |]. split; [by intros e ?%not_elem_of_nil |]. intros keep. by rewrite bind_Ok, Hf, bind_Ok, Hq.
  - injection Hv as _ ->. exists (group_part s evs ++ finals_part s evs), st'. split; [done |]. split; [|intros keep; by rewrite bind_Ok, Hf].
    intros e [He|He]%elem_of_app; unfold group_part, finals_part, session_part, kind_part in He; rewrite ?merge_sort_Permutation in He;
      by apply list_elem_of_filter in He as [_ [_ ?]%list_elem_of_filter].
Qed.
Lemma verify_sessions_keeping evs before sessions accepted st : reports before st ->
  exists part st', (forall e, e ∈ part -> e ∈ evs \/ e ∈ accepted)
    /\ forall keep, verify_sessions self (keeping keep <$> evs) sessions (keeping keep <$> accepted) st = Ok (keeping keep <$> part, st').
Proof.
  revert accepted st. induction sessions as [|s sessions IH]; intros accepted st Hr; cbn [verify_sessions].
  { exists accepted, st. split; [by right | done]. }
  destruct (verify_session_keeping evs before s st Hr) as (part & st1 & Hr1 & Hin & Hv).
  destruct (IH (accepted ++ part) st1 Hr1) as (all & st2 & Hall & Hvs). exists all, st2. split.
  - intros e [?|[?|?]%elem_of_app]%Hall; auto.
  - intros keep. rewrite Hv, bind_Ok. cbn beta iota. by rewrite <- fmap_app, Hvs.
Qed.

(** What is accepted, and the receipts, are the same whatever is kept. *)
Lemma verify_chain_keeping evs before : exists part after, (forall e, e ∈ part -> e ∈ evs)
  /\ forall keep, _verify_chain self (keeping keep <$> evs) before = Ok (keeping keep <$> part, after).
Proof.
  destruct (verify_sessions_keeping evs before (sessions_of (bare <$> evs)) [] {| set_aside := before; reported := [] |}) as (part & st & Hin & Hv).
  { exists []. cbn. split; [by rewrite app_nil_r | constructor]. }
  exists part, (set_aside st). split; [by intros e [?|?%not_elem_of_nil]%Hin |].
  intros keep. unfold _verify_chain. rewrite sessions_of_keeping. specialize (Hv keep). cbn [fmap list_fmap] in Hv. by rewrite Hv.
Qed.
End uniform.

(** ** Lists *)
Lemma map_result_each {A B} (f : A -> result B) (g : A -> B) l : (forall x, x ∈ l -> f x = Ok (g x)) -> map_result f l = Ok (g <$> l).
Proof.
  intros Hf. induction l as [|x l IH]; [done |]. cbn [map_result fmap list_fmap]. rewrite Hf, bind_Ok by left.
  by rewrite IH by (intros; apply Hf; by right).
Qed.
Lemma concat_bind {A B} (f : A -> list B) l : concat (f <$> l) = l ≫= f.
Proof. induction l as [|x l IH]; [done |]. cbn. by f_equal. Qed.
Lemma bind_nothing {A B} (f : A -> list B) l : (forall x, x ∈ l -> f x = []) -> l ≫= f = [].
Proof. intros Hf. induction l as [|x l IH]; [done |]. cbn. rewrite Hf by left. apply IH. intros y Hy. apply Hf. by right. Qed.
Lemma bind_split {A B} (f g : A -> list B) l : l ≫= (fun x => f x ++ g x) ≡ₚ (l ≫= f) ++ (l ≫= g).
Proof. induction l as [|x l IH]; [done |]. cbn. rewrite IH. solve_Permutation. Qed.
Lemma filter_bind {A} (P : A -> Prop) `{forall x, Decision (P x)} (l : list A) : filter P l = l ≫= fun x => if bool_decide (P x) then [x] else [].
Proof. induction l as [|x l IH]; [done |]. rewrite filter_cons. cbn. rewrite <- IH. by destruct (base.decide (P x)) as [?|?]; [rewrite bool_decide_true | rewrite bool_decide_false]. Qed.

(** What is handed out where its key is listed is handed out once, when every key is. *)
Lemma spread_one {B} k (y : list B) (sels : list (list string)) : NoDup (concat sels) -> k ∈ concat sels ->
  sels ≫= (fun sel => if bool_decide (k ∈ sel) then y else []) = y.
Proof.
  induction sels as [|sel sels IH]; cbn [concat]; [by intros _ ?%not_elem_of_nil |]. rewrite NoDup_app. intros (_ & Hd & Hn) [Hk|Hk]%elem_of_app; cbn.
  - rewrite bool_decide_true by done. rewrite (bind_nothing _ sels); [apply app_nil_r |].
    intros s Hs. rewrite bool_decide_false; [done |]. intros Hin. apply (Hd k Hk). apply list_elem_of_In, in_concat. exists s. by rewrite <- !list_elem_of_In.
  - rewrite bool_decide_false by (intros Hin; by apply (Hd k Hin)). by apply IH.
Qed.
Lemma spread {A B} (h : A -> list B) (k : A -> string) l (sels : list (list string)) : NoDup (concat sels) -> (forall x, x ∈ l -> k x ∈ concat sels) ->
  sels ≫= (fun sel => l ≫= fun x => if bool_decide (k x ∈ sel) then h x else []) ≡ₚ l ≫= h.
Proof.
  intros Hn. induction l as [|x l IH]; intros Hk.
  - cbn. by rewrite bind_nothing.
  - cbn. etrans; [apply (bind_split (fun sel => if bool_decide (k x ∈ sel) then h x else []) (fun sel => l ≫= fun x => if bool_decide (k x ∈ sel) then h x else [])) |].
    rewrite spread_one by (try done; apply Hk; left). by rewrite IH by (intros; apply Hk; by right).
Qed.

(** ** The references listed *)
Section refs.
Context `{PyRuntime, JsonRuntime, ReplayRuntime}.
Context (self : ReplayReader).

Definition good_ref (r : _IndexRef) : Prop := validate_evidence_index_key (key r) = Ok (ref_sha256 r).
Lemma safe_ref_good raw r : _safe_ref raw = Ok r -> good_ref r.
Proof.
  unfold _safe_ref. destruct (raw_key raw); try done. intros Hc. apply bind_Ok_inv in Hc as (d & Hv%reraise_Ok_inv & Hc).
  destruct (raw_size raw); try done. by apply bind_Ok_inv in Hc as (? & _ & [= <-]).
Qed.
Lemma collect_good top raws found truncated n : Forall good_ref found -> NoDup (key <$> found) ->
  Forall good_ref (collect top raws found truncated n).1.1 /\ NoDup (key <$> (collect top raws found truncated n).1.1).
Proof.
  revert found truncated n. induction raws as [|raw raws IH]; intros found truncated n Hg Hn; cbn [collect]; [done |].
  destruct (_safe_ref raw) as [r|] eqn:Hr; [|by apply IH]. apply safe_ref_good in Hr.
  destruct (existsb (fun r0 => bool_decide (key r0 = key r)) found) eqn:He.
  - destruct (_ <? _)%Z; [done | by apply IH].
  - assert (Forall good_ref (found ++ [r])) by (apply Forall_app; auto).
    assert (NoDup (key <$> found ++ [r])).
    { rewrite fmap_app, NoDup_app. split; [done |]. split; [|apply NoDup_singleton]. intros k (r0 & -> & Hin)%list_elem_of_fmap Hk%list_elem_of_singleton.
      rewrite existsb_none in He. specialize (He r0 Hin). cbn in Hk. by apply bool_decide_eq_false in He. }
    destruct (_ <? _)%Z; [done | by apply IH].
Qed.

#[local] Instance ref_le_trans : Transitive ref_le.
Proof. intros a b c. unfold ref_le. apply transitivity. Qed.
#[local] Instance ref_le_total : Total ref_le.
Proof. intros a b. unfold ref_le. apply String.le_total. Qed.
Lemma discover_good refs t : _discover self = Ok (refs, t) -> Forall good_ref refs /\ NoDup (key <$> refs) /\ StronglySorted ref_le refs.
Proof.
  unfold _discover. destruct (discover self) as [list_indexes|]; [|done]. destruct (list_indexes _ _ _) as [[raws|]|e]; [|done|].
  - pose proof (collect_good (max_indexes (limits self)) raws [] false 0 (Forall_nil_2 _) (NoDup_nil_2)) as [Hg Hn].
    destruct (collect _ _ _ _ _) as [[found truncated] count]. cbn [fst] in *. intros [= <- _]. split; [|split].
    + apply Forall_take. by rewrite merge_sort_Permutation.
    + rewrite fmap_take. apply (NoDup_app (take _ _) (drop (Z.to_nat (max_indexes (limits self))) (key <$> merge_sort ref_le found))).
      rewrite take_drop. by rewrite merge_sort_Permutation.
    + apply (StronglySorted_app_1_l _ (take _ _) (drop (Z.to_nat (max_indexes (limits self))) (merge_sort ref_le found))).
      rewrite take_drop. apply StronglySorted_merge_sort; apply _.
  - case_bool_decide; [|done]. intros [= <- _]. split; [constructor |]. split; [apply NoDup_nil_2 | constructor].
Qed.

(** ** Where a page starts *)
Definition last_at (m : nat) (refs : list _IndexRef) : option string := key <$> last (take m refs).
Lemma available_at m refs : NoDup (key <$> refs) -> StronglySorted ref_le refs -> available (last_at m refs) refs = drop m refs.
Proof.
  intros Hn Hs. unfold last_at. destruct (last (take m refs)) as [r|] eqn:Hl.
  - unfold available. rewrite <- (take_drop m refs) at 1. rewrite filter_app. cbn [fmap option_fmap option_map after_key].
    rewrite <- (take_drop m refs) in Hn, Hs. apply StronglySorted_app in Hs as (Hs & Hst & _). rewrite fmap_app, NoDup_app in Hn. destruct Hn as (_ & Hd & _).
    apply last_Some in Hl as [front Hl].
    assert (forall x, x ∈ take m refs -> ref_le x r) as Hle.
    { rewrite Hl in Hst |- *. intros x [Hx| ->%list_elem_of_singleton]%elem_of_app; [|unfold ref_le; reflexivity].
      apply (StronglySorted_app_1_elem_of _ _ _ _ _ Hst Hx). apply list_elem_of_singleton. done. }
    assert (r ∈ take m refs) as Hr by (rewrite Hl; apply elem_of_app; right; by apply list_elem_of_singleton).
    assert (filter (fun x : _IndexRef => bool_decide (¬ String.le (key x) (key r)) = true) (take m refs) = []) as ->.
    { rewrite filter_bind. apply bind_nothing. intros x Hx. rewrite bool_decide_false; [done |]. rewrite bool_decide_eq_true. intros Hc. apply Hc. by apply Hle. }
    cbn [app]. assert (forall l : list _IndexRef, (forall x, x ∈ l -> ¬ String.le (key x) (key r)) -> filter (fun x => bool_decide (¬ String.le (key x) (key r)) = true) l = l) as Hall.
    { induction l as [|x l IH]; [done |]. intros Hx. rewrite filter_cons_True by (apply bool_decide_eq_true, Hx; left). f_equal. apply IH. intros y Hy. apply Hx. by right. }
    apply Hall. intros x Hx Hle'. assert (key r = key x) as Hk.
    { apply (anti_symm String.le); [|done]. by apply Hs. }
    apply (Hd (key r)); [by apply list_elem_of_fmap_2 | rewrite Hk; by apply list_elem_of_fmap_2].
  - apply last_None in Hl. cbn [fmap option_fmap option_map]. unfold available. rewrite <- (take_drop m refs) at 1. rewrite Hl. cbn [app].
    induction (drop m refs) as [|x l IH]; [done |]. rewrite filter_cons_True by done. by f_equal.
Qed.
Lemma last_at_add m n refs : last_key (take n (drop m refs)) (last_at m refs) = last_at (m + n) refs.
Proof. unfold last_key, last_at. rewrite <- take_take_drop, last_app. by destruct (last (take n (drop m refs))). Qed.
End refs.

Section export.
Context `{PyRuntime, JsonRuntime, ReplayRuntime}.
Context (self : ReplayReader).

(** Pages by following their cursors, until one is the last. *)
Fixpoint follow (limit : option pyobj) (fuel : nat) (cursor : option string) : result (list ReplayPage) :=
  match fuel with
  | O => Ok []
  | S fuel =>
      page ← export self cursor limit;
      if (complete page : bool) then Ok [page]
      else rest ← follow limit fuel (page_cursor page); Ok (page :: rest)
  end.

(** ** The records of an item *)
Definition recs (e : _Evidence) : list dict :=
  match get_or_none "records" (document e) with PList raw => match normalize_from self e raw 0 with Ok rs => rs | Raise _ => [] end | _ => [] end.
Definition recs_if (b : bool) (e : _Evidence) : list dict := if is_kind "session-segment" (document e) && b then recs e else [].
(** Its records can be made. *)
Definition normalizes (e : _Evidence) : Prop := item_records self (chain_of true e) = Ok (recs_if true e, []).

Lemma accepted_records d : accepted d -> is_kind "session-segment" d = true -> exists rs, get_or_none "records" d = PList (PDict <$> rs).
Proof.
  unfold is_kind. intros Ha%accepted_well_formed Hk%py_eq_PStr.
  destruct Ha as [Hh _ (rs & text & Hr & _) _ _|Hh|Hh|Hh]; try (rewrite (headed_kind _ _ Hh) in Hk; congruence).
  exists rs. by apply get_some.
Qed.
Lemma normalizes_Ok e y : accepted (document e) -> item_records self (chain_of true e) = Ok y -> normalizes e.
Proof.
  intros Ha. unfold normalizes, item_records, recs_if, chain_of, recs. cbn [evidence]. rewrite andb_true_r.
  destruct (is_kind "session-segment" (document e)) eqn:Hk; [|done]. rewrite Hk.
  destruct (accepted_records _ Ha Hk) as (rs & ->). by destruct (normalize_from _ _ _ _).
Qed.
Lemma item_records_of b e : normalizes e -> item_records self (chain_of b e) = Ok (recs_if b e, []).
Proof. unfold normalizes, item_records, recs_if, chain_of. cbn [evidence]. destruct (is_kind "session-segment" (document e)) eqn:Hk; [|done]. by destruct b. Qed.

(** The records of accepted items, in any order. *)
Lemma records_of_part keep part : (forall e, e ∈ part -> normalizes e) ->
  exists out, map_result (item_records self) (merge_sort output_le (keeping keep <$> part)) = Ok out
    /\ concat out.*1 ≡ₚ (part ≫= fun e => recs_if (keep e) e) /\ concat out.*2 = [].
Proof.
  intros Hn. set (g i := match item_records self i with Ok y => y | Raise _ => ([], []) end).
  assert (forall i, i ∈ merge_sort output_le (keeping keep <$> part) -> exists e, e ∈ part /\ i = keeping keep e) as Hi.
  { intros i. rewrite merge_sort_Permutation. intros (e & -> & ?)%list_elem_of_fmap. by exists e. }
  exists (g <$> merge_sort output_le (keeping keep <$> part)). split; [|split].
  - apply map_result_each. intros i (e & He & ->)%Hi. unfold g, keeping. by rewrite item_records_of by by apply Hn.
  - rewrite <- list_fmap_compose, concat_bind. rewrite merge_sort_Permutation. clear Hi. induction part as [|e part IH]; [done |].
    cbn. rewrite IH by (intros; apply Hn; by right). unfold g, keeping. by rewrite item_records_of by (apply Hn; left).
  - rewrite <- list_fmap_compose, concat_bind. apply bind_nothing. intros i (e & He & ->)%Hi. unfold g, keeping. cbn.
    by rewrite item_records_of by by apply Hn.
Qed.

(** ** One page *)

(** The bucket is listed whole and verifies; the reader's names are short. *)
Context (limit : option pyobj) (bound : nat) (refs : list _IndexRef) (evs part : list _Evidence) (receipts : list dict).
Hypothesis Hdepth : 1 <= json_depth.
Hypothesis Hprofile : py_len (profile_id self) <= 128.
Hypothesis Hdestination : py_len (destination self) <= 128.
Hypothesis Hlimit : page_bound self limit = Ok bound.
Hypothesis Hrefs : _discover self = Ok (refs, false).
Hypothesis Hscan : forall sel, exists st, scan_refs self sel refs empty_scan = Ok st /\ finished st
  /\ scan_evidence st = chained_item sel <$> evs /\ scan_quarantines st = [].
Hypothesis Hevs : Forall2 (genuine self) refs evs.
Hypothesis Hpart : forall e, e ∈ part -> e ∈ evs.
Hypothesis Hchain : forall keep, _verify_chain self (keeping keep <$> evs) [] = Ok (keeping keep <$> part, receipts).
Hypothesis Hnorm : forall e, e ∈ part -> normalizes e.

(** The cursor of the page after the first [m] references. *)
Definition cursor_at (m : nat) : option string := (fun k => unpadded (cursor_text (at_key self (Some k)))) <$> last_at m refs.

Lemma last_at_good m k : last_at m refs = Some k -> startswith EVIDENCE_INDEX_PREFIX k = true /\ py_len k = 89.
Proof.
  intros Hk. unfold last_at in Hk. destruct (last (take m refs)) as [r|] eqn:Hl; [|done]. injection Hk as <-.
  destruct (discover_good self refs false Hrefs) as (Hg & _). rewrite Forall_forall in Hg.
  assert (r ∈ refs) as Hin. { apply last_Some in Hl as [front Hl]. rewrite <- (take_drop m refs), Hl. set_solver. }
  destruct (index_key_shape _ _ (Hg r Hin)) as (? & ? & _). done.
Qed.
Lemma at_key_short m : short (at_key self (last_at m refs)).
Proof. split; [done |]. split; [done |]. intros k [_ ->]%last_at_good. done. Qed.
Lemma encode_last m : encode_at self (last_at m refs) = Ok (cursor_at m).
Proof.
  pose proof (at_key_short m) as Hs. pose proof (last_at_good m) as Hg. unfold encode_at, cursor_at. destruct (last_at m refs) as [k|]; [|done].
  destruct (Hg k eq_refl) as [_ Hl]. rewrite bool_decide_false by (intros ->; done). by rewrite (proj1 (encode_short _ Hs)).
Qed.
Lemma decode_last m : decode_or_start self (cursor_at m) = Ok (at_key self (last_at m refs)).
Proof.
  pose proof (at_key_short m) as Hs. pose proof (last_at_good m) as Hg. unfold decode_or_start, cursor_at. destruct (last_at m refs) as [k|]; [|done].
  cbn [fmap option_fmap option_map]. rewrite bool_decide_false by apply cursor_text_nonempty. rewrite decode_encoded by done. cbn [at_key cursor_profile cursor_destination last_index_key].
  rewrite bool_decide_true by done. destruct (Hg k eq_refl) as [-> _]. done.
Qed.

(** What the page after the first [m] references selects. *)
Definition selected_at (m : nat) : list _IndexRef := take bound (drop m refs).
Lemma export_at m : exists page, export self (cursor_at m) limit = Ok page
  /\ page_cursor page = cursor_at (m + bound) /\ complete page = (length (drop m refs) <=? bound)
  /\ records page ≡ₚ (part ≫= fun e => if bool_decide (key (index e) ∈ key <$> selected_at m) then recs_if true e else [])
  /\ quarantines page = filter (fun q => on_page (key <$> selected_at m) q = true) receipts.
Proof.
  destruct (discover_good self refs false Hrefs) as (_ & Hn & Hs). unfold export. rewrite Hlimit, bind_Ok, decode_last, bind_Ok, Hrefs, bind_Ok.
  cbn beta iota. cbn [at_key last_index_key]. rewrite available_at, last_at_add, encode_last, bind_Ok by done. fold (selected_at m).
  case_bool_decide as Hsel.
  - eexists. split; [done |]. cbn [page_cursor complete records quarantines]. rewrite Hsel. cbn [fmap list_fmap]. split; [done |]. split; [|split].
    + destruct (drop m refs) as [|r l] eqn:Hd; [done |]. unfold selected_at in Hsel. rewrite Hd in Hsel. destruct bound; [|done].
      exfalso. unfold page_bound in Hlimit. destruct (default _ limit); try done. apply bind_Ok_inv in Hlimit as (? & Hb%raise_if_Ok_inv & [= Hz]).
      apply negb_false_iff, andb_true_iff in Hb as [?%Z.ltb_lt _]. lia.
    + by rewrite bind_nothing.
    + rewrite filter_bind, bind_nothing; [done |]. intros q _. rewrite bool_decide_false; [done |]. unfold on_page, is_str_in.
      by destruct (get_or_none _ q).
  - destruct (Hscan (key <$> selected_at m)) as (st & -> & [Hi Hl] & He & Hq). rewrite bind_Ok, Hi, Hl, He, Hq.
    change (chained_item (key <$> selected_at m)) with (keeping (on_selected (key <$> selected_at m))). rewrite Hchain, bind_Ok. cbn beta iota.
    destruct (records_of_part (on_selected (key <$> selected_at m)) part Hnorm) as (out & -> & Hr & Hz). rewrite bind_Ok.
    eexists. split; [done |]. cbn [page_cursor complete records quarantines]. rewrite Hz, app_nil_r, Hr. split; [done |]. split; [done |]. split; [|done].
    unfold recs_if, on_selected. clear. induction part as [|e l IH]; [done |]. cbn. rewrite IH. repeat case_bool_decide; cbn; rewrite ?andb_false_r, ?andb_true_r; done.
Qed.

(** ** All pages *)
Lemma bound_positive : 0 < bound.
Proof.
  unfold page_bound in Hlimit. destruct (default _ limit); try done. apply bind_Ok_inv in Hlimit as (? & Hb%raise_if_Ok_inv & [= <-]).
  apply negb_false_iff, andb_true_iff in Hb as [?%Z.ltb_lt _]. lia.
Qed.
Lemma follow_at fuel m : length (drop m refs) < fuel -> exists pages sels, follow limit fuel (cursor_at m) = Ok pages
  /\ concat sels = key <$> drop m refs /\ (exists front page, pages = front ++ [page] /\ complete page = true)
  /\ Forall2 (fun page sel => records page ≡ₚ (part ≫= fun e => if bool_decide (key (index e) ∈ sel) then recs_if true e else [])
       /\ quarantines page = filter (fun q => on_page sel q = true) receipts) pages sels.
Proof.
  pose proof bound_positive as Hb. revert m. induction fuel as [|fuel IH]; intros m Hm; [lia |]. cbn [follow].
  destruct (export_at m) as (page & -> & Hc & Hco & Hr & Hq). rewrite bind_Ok, Hco, Hc. destruct (Nat.leb_spec (length (drop m refs)) bound) as [Hle|Hlt].
  - exists [page], [key <$> selected_at m]. split; [done |]. unfold selected_at. rewrite take_ge by done. cbn [concat]. rewrite app_nil_r. split; [done |].
    split; [exists [], page; split; [done |]; rewrite Hco; by rewrite ?(proj2 (Nat.leb_le _ _) Hle) |]. constructor; [|constructor]. unfold selected_at in Hr, Hq. by rewrite take_ge in Hr, Hq by done.
  - destruct (IH (m + bound)) as (pages & sels & -> & Hk & (front & final & -> & Hf) & Hp).
    { rewrite <- drop_drop, length_drop. lia. }
    exists (page :: front ++ [final]), ((key <$> selected_at m) :: sels). rewrite bind_Ok. split; [done |]. cbn [concat]. rewrite Hk, <- drop_drop, <- fmap_app. unfold selected_at.
    split; [by rewrite take_drop |]. split; [by exists (page :: front), final | by constructor].
Qed.

(** Every receipt is for an index that is listed. *)
Lemma receipts_listed q : q ∈ receipts -> exists k, get_or_none "index_key" q = PStr k /\ k ∈ key <$> refs.
Proof.
  intros Hq. destruct (verify_chain_Ok self (keeping (fun _ => false) <$> evs) []) as (parts & ks & new & Hv & _ & Hf & _ & Hk).
  rewrite Hchain in Hv. injection Hv as _ ->. cbn [app] in Hq. apply list_elem_of_lookup in Hq as [i Hi].
  destruct (Forall2_lookup_r _ _ _ _ _ Hf Hi) as (k & Hki & [Hkey _]). exists k.1. split; [done |].
  apply list_elem_of_lookup_2, Hk in Hki as (s & _ & Hd).
  assert (forall i, i ∈ keeping (fun _ => false) <$> evs -> key (chain_index i) ∈ key <$> refs) as Hin.
  { intros j (e & -> & He)%list_elem_of_fmap. apply list_elem_of_lookup in He as [n He]. destruct (Forall2_lookup_r _ _ _ _ _ Hevs He) as (r & Hr & Hg).
    change (chain_index (keeping _ e)) with (index e). rewrite (genuine_ref _ _ _ Hg). apply list_elem_of_fmap_2. by eapply list_elem_of_lookup_2. }
  assert (forall i, i ∈ group_of s (keeping (fun _ => false) <$> evs) -> i ∈ keeping (fun _ => false) <$> evs) as Hgr.
  { intros j. unfold group_of. rewrite merge_sort_Permutation. by intros [_ [_ ?]%list_elem_of_filter]%list_elem_of_filter. }
  destruct Hd as [j Hj _|j Hj _|l1 f l2 Hf2 _]; cbn [due fst]; apply Hin; [by apply Hgr..|].
  assert (f ∈ finals_of s (keeping (fun _ => false) <$> evs)) as [_ [_ ?]%list_elem_of_filter]%list_elem_of_filter by (rewrite Hf2; set_solver). done.
Qed.

Lemma follow_all : exists pages, follow limit (S (length refs)) None = Ok pages
  /\ (exists front page, pages = front ++ [page] /\ complete page = true)
  /\ concat (records <$> pages) ≡ₚ (part ≫= recs_if true) /\ concat (quarantines <$> pages) ≡ₚ receipts.
Proof.
  destruct (follow_at (S (length refs)) 0) as (pages & sels & Hf & Hk & Hlast & Hp); [rewrite drop_0; lia |].
  rewrite drop_0 in Hk. exists pages. split; [done |]. split; [done |].
  destruct (discover_good self refs false Hrefs) as (_ & Hn & _). rewrite <- Hk in Hn. split.
  - assert (concat (records <$> pages) ≡ₚ sels ≫= fun sel => part ≫= fun e => if bool_decide (key (index e) ∈ sel) then recs_if true e else []) as ->.
    { clear -Hp. induction Hp as [|page sel pages sels [Hr _] _ IH]; [done |]. cbn. by rewrite Hr, IH. }
    apply (spread (recs_if true) (fun e => key (index e))); [done |]. intros e He. rewrite Hk.
    apply Hpart in He. apply list_elem_of_lookup in He as [n He]. destruct (Forall2_lookup_r _ _ _ _ _ Hevs He) as (r & Hr & Hg).
    rewrite (genuine_ref _ _ _ Hg). apply list_elem_of_fmap_2. by eapply list_elem_of_lookup_2.
  - set (k q := match get_or_none "index_key" q with PStr k => k | _ => "" end).
    assert (concat (quarantines <$> pages) ≡ₚ sels ≫= fun sel => receipts ≫= fun q => if bool_decide (k q ∈ sel) then [q] else []) as ->.
    { assert (forall l sel, (forall q, q ∈ l -> q ∈ receipts) -> filter (fun q => on_page sel q = true) l = l ≫= fun q => if bool_decide (k q ∈ sel) then [q] else []) as Hq.
      { intros l sel Hl. rewrite filter_bind. induction l as [|q l IH]; [done |]. destruct (receipts_listed q) as (s & Hs & _); [apply Hl; left |].
        change ((q :: l) ≫= ?f) with (f q ++ (l ≫= f)). cbn beta. rewrite IH by (intros; apply Hl; by right). f_equal.
        unfold on_page, is_str_in, k. rewrite Hs. by repeat case_bool_decide. }
      clear -Hp Hq. induction Hp as [|page sel pages sels [_ Hr] _ IH]; [done |]. cbn. by rewrite Hr, IH, Hq. }
    rewrite (spread (fun q => [q]) k); [|done|].
    + clear. induction receipts as [|q l IH]; [done |]. cbn. by rewrite IH.
    + intros q (s & Hs & Hin)%receipts_listed. unfold k. by rewrite Hs, Hk.
Qed.
End export.
