(* ===== verification/ReplayTheorems.v ===== *)
(** * Replay: what a reader promises

    Accepted documents have the fields of their kind; a session is accepted whole or not
    at all; nothing is handed out of a bucket that does not verify; the pages of a bucket
    that does hold each of its records once; cursors; errors. *)

From Stdlib Require Import Ascii.
From S2P Require Import Prelude PyStr PyObj PyDatetime PyJson LogicalJat CatalogProps JsonProps LogicalJatTheorems WorkspacePolicyProps CatalogFile Base64 SessionEvidence SessionEvidenceProps Replay ReplayChain ReplayProps ReplayCursors ReplayPages.

Section theorems.
Context `{PyRuntime, JsonRuntime, ReplayRuntime}.

(** ** Documents *)

(** C35: [validate_document] accepts exactly the documents of the contract's shape.  Every
    document has the schema's name and current major version, a known kind and an event
    identifier, its other identifiers are in their alphabet and length, and no field is
    named like a path.  Segments and finals have a source, profile, workspace, device,
    checkpoint and capture; a segment's records are objects, as many, as long and with the
    digest it says, and its references to assets have no identifier twice.  Assets and
    index events have the fields listed in [well_formed], each of its type; objects inside
    a document have no unknown fields. *)
Theorem accepted_document_typed (d : dict) : disposition (validate_document (PDict d)) = ACCEPTED <-> well_formed d.
Proof. apply accepted_well_formed. Qed.

Context (self : ReplayReader).

(** ** Chains *)

(** Evidence made of an accepted document, as the scan of a bucket makes it. *)
Definition validated (i : _ChainEvidence) : Prop := exists e retain, accepted (document e) /\ _chain_evidence e retain = Ok i.

Lemma all_eq_fields (a r : dict) : required a "asset_id" (a_text (fun _ => True)) -> required a "sha256" (a_text (fun _ => True)) ->
  required a "media_category" (a_text (fun _ => True)) -> required a "size" a_size -> required r "size" a_size ->
  all_eq (asset_key a) (asset_key r) = true <-> forall f, f ∈ ASSET_KEY -> is_Some (dict_get f r) /\ dict_get f a = dict_get f r.
Proof.
  intros (? & Hi & id & -> & _) (? & Hh & h & -> & _) (? & Hm & m & -> & _) (? & Hz & z & -> & _) (? & Hy & y & -> & _).
  unfold asset_key, ASSET_KEY. cbn [fmap list_fmap all_eq].
  rewrite (get_some _ _ _ Hi), (get_some _ _ _ Hh), (get_some _ _ _ Hm), (get_some _ _ _ Hz), (get_some _ _ _ Hy), !andb_true_iff.
  assert (forall f x, dict_get f a = Some (PStr x) -> py_eq (PStr x) (get_or_none f r) = true <-> is_Some (dict_get f r) /\ dict_get f a = dict_get f r) as Htext.
  { intros f x ->. split.
    - intros Hx%py_eq_str_l. apply get_some_inv in Hx as ->; [|done]. split; [by eexists | done].
    - intros [_ Hf]. rewrite (get_some _ _ _ (eq_sym Hf)). cbn. by apply bool_decide_eq_true_2. }
  rewrite (Htext "asset_id" id Hi), (Htext "sha256" h Hh), (Htext "media_category" m Hm).
  assert (py_eq (PInt z) (PInt y) = true <-> is_Some (dict_get "size" r) /\ dict_get "size" a = dict_get "size" r) as ->.
  { cbn. rewrite bool_decide_eq_true, Hy, Hz. split; [intros [= ->]; split; [by eexists | done] | by intros [_ [= ->]]]. }
  rewrite <- (Forall_forall (fun f => is_Some (dict_get f r) /\ dict_get f a = dict_get f r)), !Forall_cons, Forall_nil. tauto.
Qed.
Lemma get_present k ks d : dict_get k (present ks d) = if bool_decide (k ∈ ks) then dict_get k d else None.
Proof.
  unfold present. induction ks as [|k' ks IH]; [done |]. cbn. destruct (dict_get k' d) as [v|] eqn:Hv; cbn [fmap option_fmap option_map].
  - cbn [dict_get]. destruct (base.decide (k = k')) as [->|Hk]; [by rewrite !bool_decide_true by (done || apply list_elem_of_here) |].
    rewrite bool_decide_false, IH by done. by rewrite (bool_decide_ext (k ∈ k' :: ks) (k ∈ ks)) by set_solver.
  - rewrite IH. destruct (base.decide (k = k')) as [->|Hk]; [rewrite Hv; by repeat case_bool_decide |].
    by rewrite (bool_decide_ext (k ∈ k' :: ks) (k ∈ ks)) by set_solver.
Qed.

(** The fields a segment, an asset and a final keep of their documents. *)
Lemma kept_kind k i : validated i -> is_kind k (chain_document i) = true -> k ∈ ["session-segment"; "session-asset"; "session-final"] ->
  exists e, accepted (document e) /\ get_or_none "kind" (document e) = PStr k
    /\ chain_document i = present (if bool_decide (k = "session-segment") then SEGMENT_FIELDS else if bool_decide (k = "session-asset") then ASSET_FIELDS else FINAL_FIELDS) (document e)
    /\ (k = "session-segment" -> exists h, digest i = Some h /\ canonical_digest (PDict (document e)) = Ok h).
Proof.
  intros (e & retain & Ha & Hc) Hk Hin. exists e. split; [done |]. unfold _chain_evidence in Hc.
  assert (forall fields, "kind" ∈ fields -> is_kind k (present fields (document e)) = true -> get_or_none "kind" (document e) = PStr k) as Hkind.
  { intros fields Hf Hp%py_eq_PStr. unfold get_or_none in *. by rewrite get_present, bool_decide_true in Hp. }
  assert (forall k', get_or_none "kind" (document e) = PStr k -> is_kind k' (document e) = bool_decide (k = k')) as His.
  { intros k' He. unfold is_kind. by rewrite He. }
  destruct (is_kind "session-segment" (document e)) eqn:Hs.
  - apply bind_Ok_inv in Hc as (h & Hd & Hc).
    assert (chain_document i = present SEGMENT_FIELDS (document e) /\ digest i = Some h) as [Hdoc Hdig].
    { apply (f_equal (fun r => match r with Ok j => (chain_document j, digest j) | Raise _ => ([], None) end)) in Hc. by apply pair_eq in Hc as [<- <-]. }
    rewrite Hdoc in *. specialize (Hkind _ ltac:(is_member) Hk). rewrite (His _ Hkind) in Hs. rewrite Hs. split; [done |]. split; [done |].
    intros _. by exists h.
  - assert (chain_document i = present (if is_kind "session-asset" (document e) then ASSET_FIELDS else FINAL_FIELDS) (document e)) as Hdoc.
    { apply (f_equal (fun r => match r with Ok j => chain_document j | Raise _ => [] end)) in Hc. symmetry. exact Hc. }
    rewrite Hdoc in *. assert (get_or_none "kind" (document e) = PStr k) as Hke by (refine (Hkind _ _ Hk); destruct (is_kind "session-asset" (document e)); unfold ASSET_FIELDS, FINAL_FIELDS; is_member).
    rewrite (His _ Hke) in Hs. rewrite Hs, (His _ Hke). split; [done |]. split; [done |].
      intros ->; by rewrite bool_decide_true in Hs.
Qed.
Lemma validated_asset a : validated a -> is_kind "session-asset" (chain_document a) = true ->
  required (chain_document a) "asset_id" (a_text (fun _ => True)) /\ required (chain_document a) "sha256" (a_text (fun _ => True))
  /\ required (chain_document a) "media_category" (a_text (fun _ => True)) /\ required (chain_document a) "size" a_size.
Proof.
  intros Hv Hk. destruct (kept_kind _ _ Hv Hk ltac:(is_member)) as (e & Ha & Hkind & -> & _). apply accepted_well_formed in Ha.
  assert (forall f P, f ∈ ASSET_FIELDS -> required (document e) f (a_text P) -> required (present ASSET_FIELDS (document e)) f (a_text (fun _ => True))) as Htext.
  { intros f P Hf (v & Hv' & t & -> & _). exists (PStr t). rewrite get_present, bool_decide_true by done. split; [done |]. by exists t. }
  destruct Ha as [Hh|Hh|Hh Hi _ Hd Hz Hm _ _|Hh]; try (rewrite (headed_kind _ _ Hh) in Hkind; discriminate Hkind).
  rewrite bool_decide_false, bool_decide_true by done. split; [eapply Htext; [is_member | exact Hi] |]. split; [eapply Htext; [is_member | exact Hd] |].
  split; [eapply Htext; [is_member | exact Hm] |]. destruct Hz as (v & Hv' & ?). exists v. by rewrite get_present, bool_decide_true by is_member.
Qed.
Lemma validated_references i refs ref : validated i -> is_kind "session-segment" (chain_document i) = true ->
  dict_get "asset_refs" (chain_document i) = Some (PList refs) -> PDict ref ∈ refs -> required ref "size" a_size.
Proof.
  intros Hv Hk Hr Hin. destruct (kept_kind _ _ Hv Hk ltac:(is_member)) as (e & Ha & Hkind & Hd & _). apply accepted_well_formed in Ha.
  rewrite Hd, bool_decide_true, get_present, bool_decide_true in Hr by (done || is_member).
  destruct Ha as [Hh _ _ _ Hrefs|Hh|Hh|Hh]; try (rewrite (headed_kind _ _ Hh) in Hkind; discriminate Hkind).
  destruct (Hrefs _ Hr) as (refs' & ids & [= <-] & Hall & _). apply list_elem_of_lookup in Hin as [n Hn].
  destruct (Forall2_lookup_l _ _ _ _ _ Hall Hn) as (o & _ & d & [= <-] & _ & _ & Hz & _). done.
Qed.

(** What a session must be to be replayed.  Its segments come in the order of their
    ranges and events. *)
Section sessions.
Context (items : list _ChainEvidence) (s : option string).
Let group := group_of s items.
(** The session has an asset with the four fields of a reference. *)
Definition held (ref : dict) : Prop := exists a, a ∈ items /\ is_kind "session-asset" (chain_document a) = true /\ session_of a = s
  /\ forall f, f ∈ ASSET_KEY -> is_Some (dict_get f ref) /\ dict_get f (chain_document a) = dict_get f ref.
(** A segment lists its references, and the session has them all. *)
Definition assets_held (i : _ChainEvidence) : Prop :=
  exists refs, dict_get "asset_refs" (chain_document i) = Some (PList refs) /\ forall ref, PDict ref ∈ refs -> held ref.
(** The digest a segment must name: of the one before it. *)
Definition digest_before (n : nat) : option string := match n with O => None | S m => group !! m ≫= digest end.
Definition unbroken : Prop := forall n i, group !! n = Some i ->
  get_or_none "previous_segment_sha256" (chain_document i) = opt_str (digest_before n) /\ assets_held i.
(** A final names the last segment; without segments it names none. *)
Definition closes (f : _ChainEvidence) : Prop :=
  let named := get_or_none "last_segment_sha256" (chain_document f) in
  match last group with None => named = PNone | Some i => exists d, digest i = Some d /\ named = PStr d end.
Definition whole : Prop := unbroken /\ Forall closes (finals_of s items).
(** What is accepted of the session. *)
Definition accepts (part : list _ChainEvidence) : Prop := whole /\ part = group ++ finals_of s items \/ ~ whole /\ part = [].
(** The receipts of the session: for every segment when it is not whole, for every segment
    without its assets, for every final from the first on that makes it fail. *)
Inductive reported_for : string * string -> Prop :=
| reports_segment i : i ∈ group -> ~ whole -> reported_for (due "broken-chain" i)
| reports_missing i : i ∈ group -> ~ assets_held i -> reported_for (due "missing-asset" i)
| reports_final l1 f l2 : finals_of s items = l1 ++ f :: l2 -> ~ (unbroken /\ Forall closes (l1 ++ [f])) -> reported_for (due "broken-chain" f).

(** *** The code's checks decide this on validated evidence *)
Hypothesis Hval : Forall validated items.

Lemma group_elem i : i ∈ group -> i ∈ items /\ is_kind "session-segment" (chain_document i) = true.
Proof. unfold group, group_of. rewrite merge_sort_Permutation. intros [_ [? ?]%list_elem_of_filter]%list_elem_of_filter. done. Qed.
Lemma missing_iff i : i ∈ group -> missing_asset (of_kind "session-asset" items) s (chain_document i) = false <-> assets_held i.
Proof.
  intros [Hi Hk]%group_elem. rewrite Forall_forall in Hval. unfold missing_asset, assets_held. split.
  - destruct (get_or_none "asset_refs" (chain_document i)) as [| | | | |refs|] eqn:Hr; try done. apply get_some_inv in Hr; [|done].
    rewrite existsb_none. intros Hall. exists refs. split; [done |]. intros ref Hin. specialize (Hall _ Hin). cbn in Hall.
    apply negb_false_iff, existsb_exists in Hall as (a & Ha%list_elem_of_In & [Hs Heq]%andb_true_iff). apply list_elem_of_filter in Ha as [Hka Ha].
    apply bool_decide_eq_true in Hs. exists a. split; [done |]. split; [done |]. split; [done |].
    destruct (validated_asset a (Hval _ Ha) Hka) as (? & ? & ? & ?). apply all_eq_fields; try done. exact (validated_references i refs ref (Hval _ Hi) Hk Hr Hin).
  - intros (refs & Hr & Hall). rewrite (get_some _ _ _ Hr). apply existsb_none. intros [| | | | | |ref] Hin; try done.
    destruct (Hall ref Hin) as (a & Ha & Hka & Hs & Heq). apply negb_false_iff, existsb_exists. exists a. split.
    + apply list_elem_of_In, list_elem_of_filter. done.
    + rewrite bool_decide_true by done. destruct (validated_asset a (Hval _ Ha) Hka) as (? & ? & ? & ?). cbn [andb].
      apply all_eq_fields; try done. exact (validated_references i refs ref (Hval _ Hi) Hk Hr Hin).
Qed.
Lemma chained_iff assets p l : chained assets s p l (last_digest p l) <-> forall n i, l !! n = Some i ->
  get_or_none "previous_segment_sha256" (chain_document i) = opt_str (match n with O => p | S m => l !! m ≫= digest end)
  /\ missing_asset assets s (chain_document i) = false.
Proof.
  revert p. induction l as [|item l IH]; intros p; [split; [by intros _ [] | intros _; constructor] |]. rewrite last_digest_cons. split.
  - inversion 1 as [|? ? ? ? Hp Hm Hc]; subst. intros [|n] i; cbn; [by intros [= <-] |]. intros Hn.
    destruct (proj1 (IH (digest item)) Hc n i Hn) as [-> ?]. split; [by destruct n | done].
  - intros Hall. destruct (Hall 0 item eq_refl) as [Hp Hm]. constructor; [done | done |]. apply IH. intros n i Hn.
    destruct (Hall (S n) i Hn) as [-> ?]. split; [by destruct n | done].
Qed.
Lemma linked_iff : linked items s <-> unbroken.
Proof.
  unfold linked, unbroken. rewrite chained_iff. fold group. split; intros Hall n i Hn; (destruct (Hall n i Hn) as [Hp Hm]; split; [done |]);
    by apply (missing_iff i (list_elem_of_lookup_2 _ _ _ Hn)).
Qed.
Lemma closes_iff f : names_last items s f <-> closes f.
Proof.
  unfold names_last, final_ok, closes, last_digest. fold group. destruct (last group) as [i|] eqn:Hl; cbn.
  - split; [intros [[Hg _]|?]; [by rewrite Hg in Hl | done] | by right].
  - apply last_None in Hl. split; [intros [[_ ?]|(d & ? & _)]; done | by left].
Qed.
Lemma whole_iff : sound items s <-> whole.
Proof. unfold sound, whole. rewrite linked_iff, !Forall_forall. by setoid_rewrite closes_iff. Qed.
Lemma accepts_iff part : verdict items s part <-> accepts part.
Proof. unfold verdict, accepts. by rewrite whole_iff. Qed.
Lemma reported_iff k : receipt_due items s k <-> reported_for k.
Proof.
  assert (forall l, linked items s /\ Forall (names_last items s) l <-> unbroken /\ Forall closes l) as Hl.
  { intros l. rewrite linked_iff, !Forall_forall. by setoid_rewrite closes_iff. }
  split.
  - intros [i Hi Hn|i Hi Hm|l1 f l2 Hf Hn].
    + apply reports_segment; [done | by rewrite <- whole_iff].
    + apply reports_missing; [done |]. rewrite <- missing_iff by done. by rewrite Hm.
    + eapply reports_final; [done | by rewrite <- Hl].
  - intros [i Hi Hn|i Hi Hm|l1 f l2 Hf Hn].
    + apply due_segment; [done | by rewrite whole_iff].
    + apply due_missing; [done |]. rewrite <- missing_iff in Hm by done. by apply not_false_iff_true.
    + eapply due_final; [done | by rewrite Hl].
Qed.
End sessions.

(** C22: on evidence of accepted documents [_verify_chain] returns.  It accepts, whole and in
    order, the sessions whose segments each name the digest of the one before and list
    references to assets that the session has, field by field, and whose finals all name
    the last segment; of the others it accepts nothing, and a segment without a list of
    references, which the contract allows, makes its session one of them.  It adds one
    receipt for each key and reason that is due, and no other: for every segment of a
    session not accepted, for every segment without its assets, and for every final from
    the first wrong one on. *)
Theorem chain_exact (items : list _ChainEvidence) (before : list dict) : Forall validated items -> exists parts ks receipts,
  _verify_chain self items before = Ok (concat parts, before ++ receipts)
  /\ Forall2 (accepts items) (sessions_of items) parts
  /\ Forall2 receipt_for ks receipts /\ NoDup ks /\ forall k, k ∈ ks <-> exists s, s ∈ sessions_of items /\ reported_for items s k.
Proof.
  intros Hval. destruct (verify_chain_Ok self items before) as (parts & ks & receipts & Hrun & Hparts & Hf & Hnd & Hk).
  exists parts, ks, receipts. split; [done |]. split; [|split; [done |]; split; [done |]].
  - eapply Forall2_impl; [exact Hparts |]. intros s part. by apply accepts_iff.
  - intros k. rewrite Hk. by setoid_rewrite (fun s => reported_iff items s Hval k).
Qed.

Lemma accepted_sound items parts i : Forall2 (verdict items) (sessions_of items) parts -> i ∈ concat parts -> i ∈ items /\ sound items (session_of i).
Proof.
  intros Hf (part & Hi & Hin)%list_elem_of_In%in_concat. apply list_elem_of_In, list_elem_of_lookup in Hi as [n Hi].
  destruct (Forall2_lookup_r _ _ _ _ _ Hf Hi) as (s & _ & [[Hs ->]|[_ ->]]); [|done].
  apply list_elem_of_In, elem_of_app in Hin as [Hin|Hin]; unfold group_of in Hin; rewrite ?merge_sort_Permutation in Hin;
    by apply list_elem_of_filter in Hin as [<- [_ ?]%list_elem_of_filter].
Qed.

(** A segment that says nothing of assets, which the contract allows, leaves its whole
    session out: the tuple read in place of its references is not a list. *)
Theorem absent_asset_refs_refused (items : list _ChainEvidence) (i : _ChainEvidence) :
  i ∈ items -> is_kind "session-segment" (chain_document i) = true -> dict_get "asset_refs" (chain_document i) = None ->
  ~ sound items (session_of i)
  /\ forall before accepted after, _verify_chain self items before = Ok (accepted, after) -> i ∉ accepted.
Proof.
  intros Hi Hk Ha. assert (~ sound items (session_of i)) as Hs.
  { intros [Hc _]. assert (i ∈ group_of (session_of i) items) as Hg.
    { unfold group_of. rewrite merge_sort_Permutation. apply list_elem_of_filter. split; [done |]. by apply list_elem_of_filter. }
    pose proof (chained_assets _ _ _ _ _ _ Hc Hg) as Hm. unfold missing_asset, get_or_none in Hm. by rewrite Ha in Hm. }
  split; [done |]. intros before accepted after Hx. destruct (verify_chain_Ok self items before) as (parts & ks & receipts & Hy & Hv & _).
  rewrite Hx in Hy. injection Hy as -> _. by intros [_ ?]%(accepted_sound items parts i Hv).
Qed.

(** ** Pages *)
Lemma bare_validated e : accepted (document e) -> canonical e -> validated (bare e).
Proof.
  intros Ha Hc. exists e, false. split; [done |]. unfold _chain_evidence, bare, chain_of, canonical_digest, canonical_json, canonical in *.
  destruct (is_kind "session-segment" (document e)); [|by destruct (is_kind "session-asset" (document e))]. by rewrite Hc.
Qed.
Lemma normalize_elem e raw i rs r : normalize_from self e raw i = Ok rs -> r ∈ rs ->
  exists j record, raw !! j = Some (PDict record) /\ _normalized self e (document e) record (i + j) = Ok r.
Proof.
  revert i rs. induction raw as [|v raw IH]; intros i rs; cbn [normalize_from]; [by intros [= <-] ?%not_elem_of_nil |].
  assert (forall rs, normalize_from self e raw (S i) = Ok rs -> r ∈ rs -> exists j record, (v :: raw) !! j = Some (PDict record) /\ _normalized self e (document e) record (i + j) = Ok r) as Hrest.
  { intros rs' Hn Hr. destruct (IH _ _ Hn Hr) as (j & record & ? & ?). exists (S j), record. by rewrite Nat.add_succ_r. }
  destruct v as [| | | | | |record]; try apply Hrest. intros (n & Hn & (rest & Hr & [= <-])%bind_Ok_inv)%bind_Ok_inv [->|Hin]%elem_of_cons; [|by eapply Hrest].
  exists 0, record. by rewrite Nat.add_0_r.
Qed.
(** C8: a page with records, or that counts indexes, was made from a bucket listed whole,
    every index of which is genuine: its bytes and those of its object have the size and
    the digest they are named by and decrypt to accepted documents of this reader's profile
    and workspace under a policy for its destination; and each record handed out is the
    normal form of a record of a segment selected by the page, of a session that is whole
    in the whole bucket.  Any other page has no records and counts no index; it may hold
    receipts of indexes that did not verify. *)
Theorem export_only_verified (cursor : option string) (limit : option pyobj) (page : ReplayPage) : export self cursor limit = Ok page ->
  records page = [] /\ inspected_indexes page = 0
  \/ exists before refs evs, decode_or_start self cursor = Ok before /\ _discover self = Ok (refs, false) /\ Forall2 (genuine self) refs evs
     /\ inspected_indexes page <= length (available (last_index_key before) refs)
     /\ forall r, r ∈ records page -> exists e raw i record,
          e ∈ evs /\ index e ∈ take (inspected_indexes page) (available (last_index_key before) refs)
          /\ get_or_none "kind" (document e) = PStr "session-segment" /\ get_or_none "records" (document e) = PList raw
          /\ raw !! i = Some (PDict record) /\ _normalized self e (document e) record i = Ok r
          /\ whole (bare <$> evs) (session_of (bare e)).
Proof.
  unfold export. intros Hx. apply bind_Ok_inv in Hx as (bound & _ & Hx). apply bind_Ok_inv in Hx as (before & Hbefore & Hx).
  apply bind_Ok_inv in Hx as ([refs truncated] & Hrefs & Hx).
  assert (forall q b, stopped self q b = Ok page -> records page = [] /\ inspected_indexes page = 0) as Hstop.
  { intros q b (? & _ & [= <-])%bind_Ok_inv. done. }
  destruct truncated; [left; by eapply Hstop |]. apply bind_Ok_inv in Hx as (next & _ & Hx).
  set (rest := available _ refs) in *. case_bool_decide as Hsel; [injection Hx as <-; by left |].
  apply bind_Ok_inv in Hx as (st & Hst & Hx). destruct (validation_incomplete st) eqn:Hi; [left; by eapply Hstop |].
  destruct (scan_limited st) eqn:Hl; [left; by eapply Hstop |]. right.
  destruct (scan_refs_Ok self _ _ _ _ Hst (conj Hi Hl)) as (evs & Hg & Hcan & He & _ & _). cbn [empty_scan scan_evidence app] in He.
  apply bind_Ok_inv in Hx as ([accepted aside] & Hv & Hx). apply bind_Ok_inv in Hx as (out & Hout & [= <-]). cbn [records inspected_indexes].
  exists before, refs, evs. split; [done |]. split; [done |]. split; [done |]. fold rest. rewrite length_take. split; [lia |]. intros r Hr.
  rewrite He in Hv. set (sel := key <$> take bound rest) in *. change (chained_item sel) with (keeping (on_selected sel)) in Hv.
  destruct (verify_chain_keeping self evs (scan_quarantines st)) as (part & after & Hpart & Hk). rewrite Hk in Hv. injection Hv as <- _.
  destruct (verify_chain_Ok self (bare <$> evs) (scan_quarantines st)) as (parts & ks & rcs & Hb & Hverdict & _).
  change (bare <$> evs) with (keeping (fun _ => false) <$> evs) in Hb. rewrite Hk in Hb. injection Hb as Hb _.
  apply list_elem_of_In, in_concat in Hr as (rs & Hrs & Hr). apply list_elem_of_In, list_elem_of_fmap in Hrs as ([rs' q] & -> & Hrs).
  apply map_result_Ok in Hout. apply list_elem_of_lookup in Hrs as [n Hn]. destruct (Forall2_lookup_r _ _ _ _ _ Hout Hn) as (i & Hin & Hir).
  apply list_elem_of_lookup_2 in Hin. rewrite merge_sort_Permutation in Hin. apply list_elem_of_fmap in Hin as (e & -> & Hep).
  assert (Forall validated (bare <$> evs)) as Hval.
  { rewrite Forall_fmap, Forall_lookup in *. intros m ev Hm. destruct (Forall2_lookup_r _ _ _ _ _ Hg Hm) as (r0 & _ & Hgr).
    apply bare_validated; [apply Hgr | by apply (Hcan m)]. }
  assert (whole (bare <$> evs) (session_of (bare e))) as Hsound.
  { apply (whole_iff _ _ Hval). apply (accepted_sound _ parts); [done |]. rewrite <- Hb. by apply list_elem_of_fmap_2. }
  unfold item_records, keeping, chain_of in Hir. cbn [evidence] in Hir. cbn [fst] in Hr.
  destruct (is_kind "session-segment" (document e)) eqn:Hkind; cbn [andb] in Hir; [|injection Hir as <- _; done].
  destruct (on_selected sel e) eqn:Hon; [|injection Hir as <- _; done]. rewrite Hkind in Hir.
  destruct (get_or_none "records" (document e)) as [| | | | |raw|] eqn:Hraw; try (apply bind_Ok_inv in Hir as (? & _ & [= <- _]); done).
  apply bind_Ok_inv in Hir as (rs2 & Hn2 & [= <- _]). apply list_elem_of_In in Hr. destruct (normalize_elem _ _ _ _ _ Hn2 Hr) as (j & record & Hj & Hnorm).
  exists e, raw, j, record. split; [by apply Hpart |]. split; [|split; [by apply py_eq_PStr | done]].
  unfold on_selected in Hon. apply bool_decide_eq_true in Hon. apply list_elem_of_fmap in Hon as (ref & Hkey & Href).
  assert (index e ∈ refs) as Hie.
  { apply Hpart, list_elem_of_lookup in Hep as [m He']. destruct (Forall2_lookup_r _ _ _ _ _ Hg He') as (r0 & Hr0 & Hgr). rewrite (genuine_ref _ _ _ Hgr). by eapply list_elem_of_lookup_2. }
  assert (index e = ref) as ->.
  { destruct (discover_good self refs false Hrefs) as (_ & Hnd & _). assert (ref ∈ refs) as Hrr.
    { eapply (list_elem_of_filter (fun r => after_key (last_index_key before) r = true)). eapply subseteq_take; exact Href. }
    apply list_elem_of_lookup in Hie as [a Ha], Hrr as [b Hb']. assert (a = b) as ->; [|congruence].
    apply (NoDup_lookup (key <$> refs) a b (key ref) Hnd); rewrite list_lookup_fmap, ?Ha, ?Hb'; cbn; congruence. }
  destruct (Nat.le_ge_cases bound (length rest)) as [Hle|Hge]; [by rewrite Nat.min_l | by rewrite Nat.min_r, take_ge in * by done].
Qed.

(** ** Following the cursors *)
Lemma init_short backend profile target workspace ids dec auth lim : ReplayReader_init backend profile target workspace ids dec auth lim = Ok self ->
  py_len (profile_id self) <= 128 /\ py_len (destination self) <= 128.
Proof.
  unfold ReplayReader_init. cbv zeta. intros Hx. apply bind_Ok_inv in Hx as (p & Hp & Hx). apply bind_Ok_inv in Hx as (w & _ & Hx).
  apply bind_Ok_inv in Hx as (t & Ht & Hx). apply bind_Ok_inv in Hx as (? & _ & Hx). destruct backend as [[[] ?]|]; [|done]. injection Hx as <-. cbn [Replay.profile_id Replay.destination].
  split.
  - destruct profile; try done. apply bind_Ok_inv in Hp as (? & Hm%raise_if_Ok_inv & [= <-]). apply negb_false_iff, fullmatch_head_upto in Hm as (c & l & Hc & _ & Hl & _).
    rewrite <- length_chars, Hc. cbn. lia.
  - destruct target; try done. apply bind_Ok_inv in Ht as (? & Hm%raise_if_Ok_inv & [= <-]). unfold bad_destination in Hm.
    apply orb_false_iff in Hm as [Hm _]. apply orb_false_iff in Hm as [_ Hm]. by apply Nat.ltb_ge.
Qed.

(** C21: take a bucket whose listing is not cut off by [max_indexes], all indexes and
    objects of which fit one scan ([max_scan_bytes]) and verify, and all records of whose
    accepted segments can be normalised.  Following a constructed reader's cursors from the
    start takes no more pages than there are indexes and one, ends with a page marked
    complete, and the pages hold together every record of the accepted segments of the
    whole bucket exactly once, and every receipt of the chain check exactly once. *)
Theorem pages_cover_bucket backend profile target workspace ids dec auth lim limit bound refs st accepted receipts out :
  ReplayReader_init backend profile target workspace ids dec auth lim = Ok self ->
  1 <= json_depth -> page_bound self limit = Ok bound -> _discover self = Ok (refs, false) ->
  scan_refs self (key <$> refs) refs empty_scan = Ok st -> finished st -> _verify_chain self (scan_evidence st) [] = Ok (accepted, receipts) ->
  map_result (item_records self) accepted = Ok out ->
  exists pages, follow self limit (S (length refs)) None = Ok pages
    /\ (exists front final, pages = front ++ [final] /\ complete final = true)
    /\ concat (records <$> pages) ≡ₚ concat out.*1 /\ concat (quarantines <$> pages) ≡ₚ receipts.
Proof.
  intros [Hp Hd]%init_short Hdepth Hlimit Hrefs Hst Hfin Hv Hout.
  destruct (scan_refs_Ok self _ _ _ _ Hst Hfin) as (evs & Hg & _ & He & _ & Hscan). cbn [empty_scan scan_evidence app] in He.
  destruct (verify_chain_keeping self evs []) as (part & after & Hpart & Hk). rewrite He in Hv.
  change (chained_item (key <$> refs)) with (keeping (on_selected (key <$> refs))) in Hv. rewrite Hk in Hv. injection Hv as <- ->.
  assert (forall e, e ∈ part -> genuine self (index e) e /\ keeping (on_selected (key <$> refs)) e = chain_of true e) as Hpe.
  { intros e [n Hn]%Hpart%list_elem_of_lookup. destruct (Forall2_lookup_r _ _ _ _ _ Hg Hn) as (r & Hr & Hgr). rewrite (genuine_ref _ _ _ Hgr). split; [done |].
    unfold keeping, on_selected. rewrite (genuine_ref _ _ _ Hgr), bool_decide_true; [done |]. apply list_elem_of_fmap_2. by eapply list_elem_of_lookup_2. }
  assert (forall e, e ∈ part -> normalizes self e) as Hnorm.
  { intros e Hin. destruct (Hpe e Hin) as [Hge Hke]. destruct (map_result_elem _ _ _ (keeping (on_selected (key <$> refs)) e) Hout) as [y Hy]; [by apply list_elem_of_fmap_2 |].
    rewrite Hke in Hy. eapply normalizes_Ok; [apply (genuine_document _ _ _ Hge) | exact Hy]. }
  destruct (follow_all self limit bound refs evs part receipts Hdepth Hp Hd Hlimit Hrefs) as (pages & Hf & Hlast & Hr & Hq); [| done..|].
  - intros sel. destruct (Hscan sel empty_scan) as (st' & ? & ? & He' & ?); [done | done |]. by exists st'.
  - exists pages. split; [done |]. split; [done |]. split; [|done]. rewrite Hr. apply map_result_Ok in Hout. clear -Hout Hpe Hnorm. revert out Hout.
    induction part as [|e part IH]; intros out Hout; [by inversion Hout |]. apply Forall2_cons_inv_l in Hout as (y & out' & Hy & Hout & ->).
    destruct (Hpe e) as [_ Hke]; [left |]. rewrite Hke, (Hnorm e) in Hy by left. injection Hy as <-. cbn.
    rewrite (IH ltac:(intros; apply Hpe; by right) ltac:(intros; apply Hnorm; by right) out' Hout). done.
Qed.

(** ** Cursors *)

(** A reader's cursor for a valid index key, or for none, can always be encoded within
    the bound on its length; a reader of the same profile and destination reads it back,
    and a reader with another profile or destination refuses it. *)
Theorem cursor_roundtrip backend profile target workspace ids dec auth lim (last : option string) :
  ReplayReader_init backend profile target workspace ids dec auth lim = Ok self -> 1 <= json_depth ->
  (forall k, last = Some k -> is_ok (validate_evidence_index_key k) = true) ->
  exists text, encode (at_key self last) = Ok text /\ py_len text <= _MAX_CURSOR_BYTES
    /\ forall p d, decode text p d = if bool_decide (p = profile_id self /\ d = destination self) then Ok (at_key self last) else Raise (EReplay "cursor-invalid").
Proof.
  intros [Hp Hd]%init_short Hdepth Hlast.
  assert (forall k, last = Some k -> startswith EVIDENCE_INDEX_PREFIX k = true /\ py_len k = 89) as Hk.
  { intros k Hk. specialize (Hlast k Hk). destruct (validate_evidence_index_key k) eqn:Hv; [|done]. by destruct (index_key_shape _ _ Hv) as (? & ? & _). }
  assert (short (at_key self last)) as Hs. { split; [done |]. split; [done |]. intros k [_ ->]%Hk. done. }
  destruct (encode_short _ Hs) as [He Hl]. exists (unpadded (cursor_text (at_key self last))). split; [done |]. split; [done |]. intros p d.
  rewrite decode_encoded by done. cbn [at_key cursor_profile cursor_destination last_index_key].
  assert (match last with Some k => startswith EVIDENCE_INDEX_PREFIX k | None => true end = true) as -> by (destruct last as [k|]; [by destruct (Hk k eq_refl) | done]).
  rewrite andb_true_r.
  by rewrite (bool_decide_ext (profile_id self = p /\ destination self = d) (p = profile_id self /\ d = destination self)) by (split; intros []; auto).
Qed.

Lemma total_raises {A} (m : result A) p : is_ok m = true -> raises p m.
Proof. destruct m; [intros _; apply raises_Ok | done]. Qed.

Lemma out_of_range_elem l v : out_of_range (PList l) = false -> v ∈ l -> out_of_range v = false.
Proof. cbn [out_of_range]. rewrite existsb_none. auto. Qed.



End theorems.
