(* ===== verification/ReplayDemo.v ===== *)
(** * Replay: a concrete bucket

    Two linked segments and the final of a session, each behind an index; the digests of
    this runtime are the lengths of what they are of. *)

From Stdlib Require Import Ascii SpecFloat.
From S2P Require Import Prelude PyStr PyObj PyDatetime PyJson LogicalJat LogicalJatDemo WorkspacePolicyProps SessionEvidence SessionEvidenceProps Replay ReplayChain ReplayProps ReplayCursors ReplayPages ReplayTheorems.

Definition length_digest (s : string) : string :=
  let n := py_len s in of_chars (replicate 61 "a"%char ++ [hex_digit (n / 256 mod 16); hex_digit (n / 16 mod 16); hex_digit (n mod 16)]).
Definition replay_python : PyRuntime := {| float_repr _ := "1.0"; sha256 := length_digest |}.
Definition replay_effects : ReplayRuntime := {| write_temporary _ := Ok tt; decrypt_envelope _ _ := Raise (EEnvelope "decrypt-failed"); str_other _ := "" |}.
#[export] Existing Instance replay_python.
#[export] Existing Instance jat_json.
#[export] Existing Instance replay_effects.

(** ** Documents *)
Definition demo_header (kind event : string) : dict :=
  [("schema_name", PStr "codex-session-evidence"); ("schema_version", PDict [("major", PInt 1); ("minor", PInt 0)]); ("kind", PStr kind); ("event_id", PStr event)].
Definition demo_capture : dict :=
  [("status", PStr "complete"); ("policy_decision", PStr "allow"); ("sensitivity", PStr "normal"); ("counters", PDict [("redacted", PInt 0)])].
Definition demo_context (start : Z) : dict :=
  [("session_id", PStr "session-1"); ("source", PDict [("surface", PStr "cli"); ("adapter", PStr "codex.transcript"); ("adapter_version", PStr "1.0")]);
   ("profile_id", PStr "profile-personal"); ("workspace_id", PStr "workspace-synthetic"); ("device_id", PStr "device-001");
   ("checkpoint", PDict [("source", PStr "codex.transcript"); ("representation", PStr "active-jsonl"); ("start", PInt start); ("end", PInt (start + 1));
      ("prefix_sha256", PStr digest_a)]);
   ("capture", PDict demo_capture)].
Definition demo_text (v : pyobj) : string := match canonical_json v with Ok t => t | Raise _ => "" end.
Definition demo_records (texts : list string) : pyobj := PList ((fun t => PDict [("record_type", PStr "message"); ("text", PStr t)]) <$> texts).
Definition demo_content (texts : list string) : dict :=
  let text := demo_text (demo_records texts) in
  [("record_count", PInt (Z.of_nat (length texts))); ("content_sha256", PStr (sha256 text)); ("content_size", PInt (Z.of_nat (py_len text)))].
Definition demo_segment (event : string) (start : Z) (texts : list string) (more : dict) : dict :=
  demo_header "session-segment" event ++ demo_context start ++ demo_content texts ++ [("records", demo_records texts)] ++ more.
Definition demo_digest (d : dict) : string := sha256 (demo_text (PDict d)).
Definition demo_first : dict := demo_segment "evt-1" 0 ["hello"; "there"] [("asset_refs", PList [])].
Definition demo_second : dict :=
  demo_segment "evt-2" 1 ["bye"] [("asset_refs", PList []); ("previous_segment_sha256", PStr (demo_digest demo_first))].
Definition demo_final : dict := demo_header "session-final" "evt-3" ++ demo_context 2 ++ demo_content [] ++ [("last_segment_sha256", PStr (demo_digest demo_second))].
(** A segment as the contract allows it, without references to assets. *)
Definition demo_bare : dict := demo_segment "evt-4" 0 ["hello"] [].

(** ** The bucket *)
Definition demo_index (kind event : string) (content : pyobj) (object : string) : dict :=
  demo_header "index-event" ("idx-" +:+ event)
  ++ [("evidence_kind", PStr kind); ("evidence_event_id", PStr event); ("content_sha256", content); ("ciphertext_sha256", PStr (sha256 object));
      ("ciphertext_size", PInt (Z.of_nat (py_len object)));
      ("content_type", PStr (if bool_decide (kind = "session-final") then "application/vnd.josh.codex-session-final+json"
         else "application/vnd.josh.codex-session-segment+json"));
      ("discovery", PDict [("state", PStr "uploaded"); ("observed_at", PStr "2026-09-22T00:02:00Z")])].
Definition demo_manifest : dict :=
  [("profile", PDict [("id", PStr "profile-personal"); ("workspace_id", PStr "workspace-synthetic")]);
   ("policy", PDict [("decision", PStr "allow"); ("status", PStr "complete"); ("sensitivity", PStr "normal")])].
(** The bytes of the index and of the object, and the document in it. *)
Definition demo_entry : Type := string * string * dict.
Definition demo_entries : list demo_entry :=
  [("index:one", "object:one", demo_first); ("index:second", "object:second", demo_second); ("index:the final", "object:the final", demo_final)].
Definition demo_bare_entries : list demo_entry := [("index:one", "object:one", demo_bare)].
Definition demo_index_of (e : demo_entry) : dict :=
  let '(_, object, d) := e in
  let text k := match get_or_none k d with PStr s => s | _ => "" end in demo_index (text "kind") (text "event_id") (get_or_none "content_sha256" d) object.

Definition demo_key (digest : string) : string := EVIDENCE_INDEX_PREFIX +:+ str_take 2 digest +:+ "/" +:+ digest +:+ ".age".
Definition demo_raw (e : demo_entry) : raw_ref :=
  let '(body, _, _) := e in
  {| raw_key := PStr (demo_key (sha256 body)); raw_sha256 := PStr (sha256 body); raw_size := PInt (Z.of_nat (py_len body)); raw_error := PNone |}.
Definition demo_lookup (name : demo_entry -> string) (part : demo_entry -> string) (entries : list demo_entry) (k : string) (_ : Z) : result (option string) :=
  match filter (fun e => name e = k) entries with e :: _ => Ok (Some (part e)) | [] => Raise ENotFound end.
Definition demo_decrypt (entries : list demo_entry) (_ : decryptor_call) (body _ : string) : result envelope :=
  match filter (fun e => e.1.1 = body) entries, filter (fun e => e.1.2 = body) entries with
  | e :: _, _ => Ok (DecryptedEnvelope demo_manifest (demo_index_of e) "")
  | [], e :: _ => Ok (DecryptedEnvelope demo_manifest e.2 "")
  | [], [] => Raise (EValue "unknown ciphertext")
  end.
Definition demo_backend (entries : list demo_entry) :=
  Some (Some (fun _ _ _ : Z => Ok (Some (demo_raw <$> entries))), demo_lookup (fun e => demo_key (sha256 e.1.1)) (fun e => e.1.1) entries,
        demo_lookup (fun e => EVIDENCE_OBJECT_PREFIX +:+ sha256 e.1.2) (fun e => e.1.2) entries).
Definition demo_init (entries : list demo_entry) : result ReplayReader :=
  ReplayReader_init (demo_backend entries) (PStr "profile-personal") (PStr "private-r2") (PStr "workspace-synthetic") [] (Some (demo_decrypt entries)) None None.
Definition got {A} (a : A) (m : result A) : A := match m with Ok x => x | Raise _ => a end.
Definition demo_none : ReplayReader :=
  {| discover := None; get_evidence_index_bytes _ _ := Ok None; get_evidence_bytes _ _ := Ok None; profile_id := ""; destination := ""; workspace_id := "";
     identity_paths := []; decryptor := None; limits := default_limits |}.
Definition demo_reader : ReplayReader := got demo_none (demo_init demo_entries).
Definition demo_bare_reader : ReplayReader := got demo_none (demo_init demo_bare_entries).
Definition demo_refs : list _IndexRef := (got ([], true) (_discover demo_reader)).1.
Definition demo_scan : scan := got empty_scan (scan_refs demo_reader (key <$> demo_refs) demo_refs empty_scan).
Definition demo_chain : list _ChainEvidence * list dict := got ([], []) (_verify_chain demo_reader (scan_evidence demo_scan) []).
Definition demo_out : list (list dict * list dict) := got [] (map_result (item_records demo_reader) demo_chain.1).
Definition no_page : ReplayPage := {| records := []; quarantines := []; page_cursor := None; complete := false; inspected_indexes := 0 |}.
Definition demo_page : ReplayPage := got no_page (export demo_reader None None).
Definition demo_bare_scan : scan :=
  let refs := (got ([], true) (_discover demo_bare_reader)).1 in got empty_scan (scan_refs demo_bare_reader (key <$> refs) refs empty_scan).

(** ** Witnesses *)
Lemma demo_init_Ok : ReplayReader_init (demo_backend demo_entries) (PStr "profile-personal") (PStr "private-r2") (PStr "workspace-synthetic") []
  (Some (demo_decrypt demo_entries)) None None = Ok demo_reader.
Proof. reflexivity. Qed.
Definition demo_limit : option pyobj := Some (PInt 1).

Lemma accepted_document_typed_witness : well_formed demo_second.
Proof. apply accepted_document_typed. vm_compute. reflexivity. Defined.

(** The bucket's one page has the three records of the session. *)
Lemma export_only_verified_witness : length (records demo_page) = 3 /\ exists r refs evs e, r ∈ records demo_page
  /\ Forall2 (genuine demo_reader) refs evs /\ e ∈ evs /\ whole (bare <$> evs) (session_of (bare e)).
Proof.
  assert (length (records demo_page) = 3) as Hn by (vm_compute; reflexivity). split; [exact Hn |].
  assert (export demo_reader None None = Ok demo_page) as Hx by (vm_compute; reflexivity).
  destruct (export_only_verified demo_reader None None demo_page Hx) as [[Hr _]|(before & refs & evs & _ & _ & Hg & _ & Hr)]; [rewrite Hr in Hn; discriminate Hn |].
  revert Hn Hr. generalize (records demo_page). intros [|r rest] Hn Hr; [discriminate Hn |].
  destruct (Hr r) as (e & raw & i & record & He & _ & _ & _ & _ & _ & Hs); [left |]. exists r, refs, evs, e. split; [left |].
  split; [exact Hg |]. split; [exact He | exact Hs].
Defined.

(** The two segments and the final of the session, as the scan hands them to the chain. *)
Definition demo_items : list _ChainEvidence :=
  (fun d => bare {| index := {| key := demo_key (demo_digest d); ref_sha256 := demo_digest d; ref_size := 9; listing_error := None |};
                    index_document := []; document := d |}) <$> [demo_first; demo_second; demo_final].
Lemma demo_items_validated : Forall validated demo_items.
Proof. unfold demo_items. repeat constructor; (apply bare_validated; [vm_compute; reflexivity | intros _; vm_compute; reflexivity]). Qed.
Lemma chain_exact_witness : exists parts receipts, _verify_chain demo_reader demo_items [] = Ok (concat parts, receipts)
  /\ Forall2 (accepts demo_items) (sessions_of demo_items) parts /\ length (concat parts) = 3 /\ receipts = [].
Proof.
  destruct (chain_exact demo_reader demo_items [] demo_items_validated) as (parts & ks & receipts & Hrun & Hparts & _).
  exists parts, receipts. cbn [app] in Hrun. split; [exact Hrun |]. split; [exact Hparts |].
  assert (match _verify_chain demo_reader demo_items [] with Ok (a, r) => length a = 3 /\ r = [] | Raise _ => False end) as Hn by (vm_compute; auto).
  rewrite Hrun in Hn. exact Hn.
Defined.

(** Three pages of one index each. *)
Lemma pages_cover_bucket_witness : exists pages, follow demo_reader demo_limit 4 None = Ok pages
  /\ concat (records <$> pages) ≡ₚ concat demo_out.*1 /\ length (concat demo_out.*1) = 3.
Proof.
  destruct (pages_cover_bucket demo_reader _ _ _ _ _ _ _ _ demo_limit 1 demo_refs demo_scan demo_chain.1 demo_chain.2 demo_out demo_init_Ok)
    as (pages & Hf & _ & Hr & _); [vm_compute; lia | vm_compute; reflexivity | vm_compute; reflexivity | vm_compute; reflexivity | split; vm_compute; reflexivity
       | vm_compute; reflexivity | vm_compute; reflexivity |].
  exists pages. split; [exact Hf |]. split; [exact Hr | vm_compute; reflexivity].
Defined.

Lemma cursor_roundtrip_witness : exists text, encode (at_key demo_reader (Some (demo_key digest_a))) = Ok text
  /\ decode text "profile-personal" "private-r2" = Ok (at_key demo_reader (Some (demo_key digest_a)))
  /\ decode text "profile-personal" "elsewhere" = Raise (EReplay "cursor-invalid").
Proof.
  destruct (cursor_roundtrip demo_reader _ _ _ _ _ _ _ _ (Some (demo_key digest_a)) demo_init_Ok) as (text & He & _ & Hd); [vm_compute; lia | |].
  - intros k [= <-]. vm_compute. reflexivity.
  - exists text. split; [exact He |]. rewrite !Hd. split; reflexivity.
Defined.


(** An accepted segment without references to assets, alone in its session: refused. *)
Lemma absent_asset_refs_refused_witness : accepted demo_bare /\ exists i, i ∈ scan_evidence demo_bare_scan /\ ~ sound (scan_evidence demo_bare_scan) (session_of i).
Proof.
  split; [vm_compute; reflexivity |].
  assert (match scan_evidence demo_bare_scan with
    | i :: _ => is_kind "session-segment" (chain_document i) && negb (has_key "asset_refs" (chain_document i)) | [] => false end = true) as Hi by (vm_compute; reflexivity).
  revert Hi. generalize (scan_evidence demo_bare_scan). intros [|i rest]; [done |]. intros [Hk Ha]%andb_true_iff. exists i. split; [left |].
  apply (absent_asset_refs_refused demo_bare_reader (i :: rest) i); [left | exact Hk |]. apply dict_get_None. apply negb_true_iff in Ha. by apply bool_decide_eq_false in Ha.
Defined.
