(* ===== verification/OutboxData.v ===== *)
(** * Outbox records ([src/josh_room/pcc_outbox.py], data and validators)

    The queue states, the persisted records with their [to_dict] and [from_dict],
    and the boundary validators.  [checkpoint] and [cursor] are the dictionaries
    the checkpoint validators return, as records; public metadata is a finite map. *)

From S2P Require Import Prelude PyStr PyObj Base64.
From Stdlib Require Import Ascii SpecFloat.

(** ** Patterns and bounds *)
(** [^[A-Za-z0-9][A-Za-z0-9._~-]{0,127}$] *)
Definition _IDENTIFIER : re := RCat (RCls is_alnum) (upto 127 (RCls (fun c => is_alnum c || one_of "._~-" c))).
(** [^[0-9a-f]{64}$] *)
Definition _DIGEST : re := exactly 64 (RCls is_hex).
Definition OBJECT_PREFIX : string := "objects/sha256/".
Definition EVIDENCE_PREFIX : string := "evidence/objects/sha256/".
(** [^objects/sha256/([0-9a-f]{64})$] and its evidence variant *)
Definition _OBJECT_KEY : re := RCat (lit OBJECT_PREFIX) _DIGEST.
Definition _EVIDENCE_OBJECT_KEY : re := RCat (lit EVIDENCE_PREFIX) _DIGEST.
Definition _MIME : re :=
  let tok := RCat (RCls is_alnum) (RStar (RCls (fun c => is_alnum c || one_of ".+-" c))) in
  RCat tok (RCat (chr "/") tok).
Definition _MAX_METADATA_BYTES : Z := 16 * 1024.
Definition _MAX_CIPHERTEXT_BYTES : Z := 8 * 1024 * 1024 * 1024.
Definition _MAX_EVENT_IDS : nat := 64.

(** ** Queue states *)
Inductive QueueState : Type :=
| QUEUED | CLAIMED | SOURCE_SNAPSHOTTED | PREPARED_ENCRYPTED | OBJECT_UPLOADED | INDEX_PUBLISHED
| TRIGGER_EXPANDED | COMMITTED | RETRYABLE_FAILURE | QUARANTINED | POLICY_DENIED | CAPTURE_GAP.

#[export] Instance QueueState_eq_dec : EqDecision QueueState.
Proof. solve_decision. Defined.

Definition state_value (s : QueueState) : string :=
  match s with
  | QUEUED => "queued" | CLAIMED => "claimed" | SOURCE_SNAPSHOTTED => "source-snapshotted"
  | PREPARED_ENCRYPTED => "prepared-encrypted" | OBJECT_UPLOADED => "object-uploaded"
  | INDEX_PUBLISHED => "index-published" | TRIGGER_EXPANDED => "trigger-expanded"
  | COMMITTED => "committed" | RETRYABLE_FAILURE => "retryable-failure"
  | QUARANTINED => "quarantined" | POLICY_DENIED => "policy-denied" | CAPTURE_GAP => "capture-gap"
  end.
Definition all_states : list QueueState :=
  [QUEUED; CLAIMED; SOURCE_SNAPSHOTTED; PREPARED_ENCRYPTED; OBJECT_UPLOADED; INDEX_PUBLISHED;
   TRIGGER_EXPANDED; COMMITTED; RETRYABLE_FAILURE; QUARANTINED; POLICY_DENIED; CAPTURE_GAP].
(** [QueueState(value)]: the member with that value, or [ValueError]. *)
Definition QueueState_of (v : pyobj) : option QueueState :=
  match v with
  | PStr s => find (fun st => String.eqb s (state_value st)) all_states
  | _ => None
  end.

(** ** Scalar validators *)
Definition _finite_number (value : pyobj) : bool := finite_number value.

Definition _identifier (value : pyobj) : result string :=
  match value with
  | PStr s => if fullmatch _IDENTIFIER s then Ok s else Raise (EValue "identifier is invalid")
  | _ => Raise (EValue "identifier is invalid")
  end.
(** [isinstance(v, str) and pattern.fullmatch(v)] *)
Definition str_matches (r : re) (v : pyobj) : bool :=
  match v with PStr s => fullmatch r s | _ => false end.

(** ** Checkpoints *)
Record checkpoint := {
  cp_source : string;
  cp_representation : string;
  cp_start : Z;
  cp_end : Z;
  cp_prefix_sha256 : string;
}.
#[export] Instance checkpoint_eq_dec : EqDecision checkpoint.
Proof. solve_decision. Defined.

Definition CHECKPOINT_FIELDS : list string := ["source"; "representation"; "start"; "end"; "prefix_sha256"].

Definition checkpoint_body (c : checkpoint) : dict :=
  [("source", PStr (cp_source c)); ("representation", PStr (cp_representation c));
   ("start", PInt (cp_start c)); ("end", PInt (cp_end c)); ("prefix_sha256", PStr (cp_prefix_sha256 c))].
Definition checkpoint_dict (c : checkpoint) : pyobj := PDict (checkpoint_body c).

(** The field checks of [_validate_checkpoint], on a dictionary that has them. *)
Definition checkpoint_fields (d : dict) : result checkpoint :=
  source ← get_item "source" d ≫= _identifier;
  representation ← get_item "representation" d ≫= _identifier;
  start ← get_item "start" d;
  end_ ← get_item "end" d;
  match as_int start, as_int end_ with
  | Some s, Some e =>
      raise_if ((s <? 0) || (e <? s))%Z (EValue "checkpoint boundary is invalid") ;;
      prefix ← get_item "prefix_sha256" d;
      match prefix with
      | PStr p =>
          raise_if (negb (fullmatch _DIGEST p)) (EValue "checkpoint digest is invalid") ;;
          Ok {| cp_source := source; cp_representation := representation;
                cp_start := s; cp_end := e; cp_prefix_sha256 := p |}
      | _ => Raise (EValue "checkpoint digest is invalid")
      end
  | _, _ => Raise (EValue "checkpoint boundary is invalid")
  end.

Definition _validate_checkpoint (value : pyobj) : result checkpoint :=
  match value with
  | PDict d =>
      raise_if (negb (keys_are CHECKPOINT_FIELDS d)) (EValue "checkpoint is invalid") ;;
      checkpoint_fields d
  | _ => Raise (EValue "checkpoint is invalid")
  end.

(** The source adapter's cursor that an expanded checkpoint may carry. *)
Record cursor := {
  cur_next_record_index : Z;
  cur_next_byte_offset : Z;
  cur_observed_size : Z;
  cur_chain_head_sha256 : option string;
}.
Record expanded_checkpoint := { xc_base : checkpoint; xc_cursor : option cursor }.
#[export] Instance cursor_eq_dec : EqDecision cursor.
Proof. solve_decision. Defined.
#[export] Instance expanded_checkpoint_eq_dec : EqDecision expanded_checkpoint.
Proof. solve_decision. Defined.

Definition CURSOR_FIELDS : list string :=
  ["next_record_index"; "next_byte_offset"; "observed_size"; "chain_head_sha256"].

Definition expanded_checkpoint_dict (x : expanded_checkpoint) : pyobj :=
  PDict (checkpoint_body (xc_base x) ++
    match xc_cursor x with
    | None => []
    | Some c =>
        [("next_record_index", PInt (cur_next_record_index c));
         ("next_byte_offset", PInt (cur_next_byte_offset c));
         ("observed_size", PInt (cur_observed_size c));
         ("chain_head_sha256", opt_str (cur_chain_head_sha256 c))]
    end).

Definition _validate_expanded_checkpoint (value : pyobj) : result expanded_checkpoint :=
  match value with
  | PDict d =>
      if keys_are CHECKPOINT_FIELDS d then
        base ← _validate_checkpoint (PDict d); Ok {| xc_base := base; xc_cursor := None |}
      else
        raise_if (negb (keys_are (CHECKPOINT_FIELDS ++ CURSOR_FIELDS) d))
          (EValue "expanded checkpoint fields are invalid") ;;
        base ← checkpoint_fields d;
        index ← get_item "next_record_index" d;
        offset ← get_item "next_byte_offset" d;
        observed ← get_item "observed_size" d;
        match as_int index, as_int offset, as_int observed with
        | Some i, Some o, Some n =>
            raise_if ((i <? 0) || (o <? 0) || (n <? 0))%Z (EValue "expanded checkpoint cursor is invalid") ;;
            raise_if (negb (o =? cp_end base)%Z || (cp_end base <? cp_start base)%Z)
              (EValue "expanded checkpoint boundary is invalid") ;;
            raise_if (n <? o)%Z (EValue "expanded checkpoint size is invalid") ;;
            chain ← get_item "chain_head_sha256" d;
            raise_if (negb (is_none chain) && negb (str_matches _DIGEST chain))
              (EValue "expanded checkpoint chain is invalid") ;;
            Ok {| xc_base := base;
                  xc_cursor := Some {| cur_next_record_index := i; cur_next_byte_offset := o;
                                       cur_observed_size := n; cur_chain_head_sha256 := as_str chain |} |}
        | _, _, _ => Raise (EValue "expanded checkpoint cursor is invalid")
        end
  | _ => Raise (EType "expanded checkpoint is invalid")
  end.

(** ** Public metadata *)
Definition METADATA_FIELDS : list string :=
  ["workspace_id"; "object_kind"; "destination_class"; "destination_binding_id";
   "source_surface"; "source_adapter"; "source_adapter_version"; "trigger";
   "index_event_id"; "content_type"; "content_sha256"; "content_size"; "evidence_kind"; "evidence_event_id";
   "policy_decision"; "capture_status"; "sensitivity"; "recipient_set_fingerprint";
   "ciphertext_sha256"; "ciphertext_size"; "object_key"; "index_id"].
Definition IDENTIFIER_FIELDS : list string :=
  ["workspace_id"; "object_kind"; "destination_binding_id"; "source_surface"; "source_adapter";
   "source_adapter_version"; "evidence_kind"; "evidence_event_id"; "index_event_id"; "trigger"].

(** [item not in {...}]: an unhashable item raises [TypeError]. *)
Definition member_or_raise (set : list string) (msg : string) (item : pyobj) : result unit :=
  raise_if (negb (hashable item)) (EType "unhashable type") ;;
  raise_if (negb (is_str_in set item)) (EValue msg).

(** One iteration of the loop of [_validate_metadata]: whether [result[key] = item]. *)
Definition metadata_entry (key : string) (item : pyobj) : result bool :=
  let check (b : bool) (msg : string) := raise_if (negb b) (EValue msg) ;; Ok true in
  if bool_decide (key ∈ IDENTIFIER_FIELDS) then _identifier item ;; Ok true
  else if bool_decide (key = "destination_class") then
    member_or_raise ["local-only"; "private-r2"] "public metadata destination is invalid" item ;; Ok true
  else if bool_decide (key = "recipient_set_fingerprint") then
    check (str_matches _DIGEST item) "public metadata recipient fingerprint is invalid"
  else if bool_decide (key = "content_type") then
    check (match item with PStr s => (py_len s <=? 128)%nat && fullmatch _MIME s | _ => false end)
      "public metadata content type is invalid"
  else if bool_decide (key ∈ ["content_sha256"; "ciphertext_sha256"]) then
    check (str_matches _DIGEST item) "public metadata digest is invalid"
  else if bool_decide (key ∈ ["content_size"; "ciphertext_size"]) then
    check (match item with PInt z => (0 <=? z) && (z <=? _MAX_CIPHERTEXT_BYTES) | _ => false end)%Z
      "public metadata size is invalid"
  else if bool_decide (key = "object_key") then
    check (str_matches _OBJECT_KEY item) "public metadata object key is invalid"
  else if bool_decide (key = "policy_decision") then
    member_or_raise ["allow"; "deny"; "local-only"; "quarantine"]
      "public metadata policy decision is invalid" item ;; Ok true
  else if bool_decide (key = "capture_status") then
    member_or_raise ["partial"; "complete"; "recovered"; "quarantined"]
      "public metadata capture status is invalid" item ;; Ok true
  else if bool_decide (key = "sensitivity") then
    member_or_raise ["normal"; "sensitive"; "unknown"] "public metadata sensitivity is invalid" item ;; Ok true
  else Ok false.

Abbreviation metadata := (gmap string pyobj).

Definition metadata_dict (m : metadata) : pyobj := PDict (map_to_list m).

Section records.
Context `{PyRuntime}.

(** The keys the loop keeps; ["index_id"] is allowed but matched by no branch,
    so it is dropped. *)
Fixpoint metadata_entries (d : dict) : result dict :=
  match d with
  | [] => Ok []
  | (key, item) :: d =>
      keep ← metadata_entry key item;
      rest ← metadata_entries d;
      Ok (if keep : bool then (key, item) :: rest else rest)
  end.

Definition _validate_metadata (value : pyobj) : result metadata :=
  match value with
  | PDict d =>
      raise_if (negb (keys_within METADATA_FIELDS d)) (EValue "public metadata contains an unsupported field") ;;
      entries ← metadata_entries d;
      let result : metadata := list_to_map entries in
      raise_if (_MAX_METADATA_BYTES <? Z.of_nat (py_len (dumps true (metadata_dict result))))%Z
        (EValue "public metadata exceeds bound") ;;
      Ok result
  | _ => Raise (EType "public metadata is invalid")
  end.
End records.

(** [_checkpoint_key]: the identity under which triggers coalesce. *)
Definition _checkpoint_key (session_id : string) (c : checkpoint) : string * checkpoint := (session_id, c).

(** ** Receipts and diagnostics *)
Record CaptureGap := { gap_reason_code : string; gap_pending_preserved : bool; gap_retryable : bool }.
Definition CaptureGap_to_dict (g : CaptureGap) : pyobj :=
  PDict [("reason_code", PStr (gap_reason_code g)); ("pending_preserved", PBool (gap_pending_preserved g));
         ("retryable", PBool (gap_retryable g))].

Record QueueReceipt := {
  rc_event_id : string;
  rc_state : QueueState;
  rc_coalesced : bool;
  rc_sequence : option Z;
  rc_is_final : bool;
  rc_diagnostic : option CaptureGap;
}.
Definition QueueReceipt_to_dict (r : QueueReceipt) : pyobj :=
  PDict ([("event_id", PStr (rc_event_id r)); ("state", PStr (state_value (rc_state r)));
          ("coalesced", PBool (rc_coalesced r)); ("is_final", PBool (rc_is_final r))]
         ++ match rc_sequence r with Some n => [("sequence", PInt n)] | None => [] end
         ++ match rc_diagnostic r with Some g => [("diagnostic", CaptureGap_to_dict g)] | None => [] end).

(** ** Queue records *)
Record QueueRecord := {
  event_id : string;
  session_id : string;
  qr_checkpoint : checkpoint;
  qr_metadata : metadata;
  state : QueueState;
  sequence : Z;
  event_ids : list string;
  is_final : bool;
  final_event_id : option string;
  owner : option string;
  lease_until : option flt;
  lease_seconds : flt;
  resume_state : QueueState;
  failure_code : option string;
  object_key : option string;
  ciphertext_sha256 : option string;
  ciphertext_size : option Z;
  index_id : option string;
  expanded_event_ids : list string;
  qr_expanded_checkpoint : option expanded_checkpoint;
}.

Definition opt_float (o : option flt) : pyobj := match o with Some f => PFloat f | None => PNone end.

Definition QueueRecord_to_dict (r : QueueRecord) : pyobj :=
  PDict [("event_id", PStr (event_id r));
         ("session_id", PStr (session_id r));
         ("checkpoint", checkpoint_dict (qr_checkpoint r));
         ("metadata", metadata_dict (qr_metadata r));
         ("state", PStr (state_value (state r)));
         ("sequence", PInt (sequence r));
         ("event_ids", PList (PStr <$> event_ids r));
         ("is_final", PBool (is_final r));
         ("final_event_id", opt_str (final_event_id r));
         ("owner", opt_str (owner r));
         ("lease_until", opt_float (lease_until r));
         ("lease_seconds", PFloat (lease_seconds r));
         ("resume_state", PStr (state_value (resume_state r)));
         ("failure_code", opt_str (failure_code r));
         ("object_key", opt_str (object_key r));
         ("ciphertext_sha256", opt_str (ciphertext_sha256 r));
         ("ciphertext_size", opt_int (ciphertext_size r));
         ("index_id", opt_str (index_id r));
         ("expanded_event_ids", PList (PStr <$> expanded_event_ids r));
         ("expanded_checkpoint", from_option expanded_checkpoint_dict PNone (qr_expanded_checkpoint r))].

Definition RECORD_REQUIRED : list string :=
  ["event_id"; "session_id"; "checkpoint"; "metadata"; "state"; "sequence"; "event_ids"; "is_final";
   "final_event_id"; "owner"; "lease_until"; "lease_seconds"; "resume_state"; "failure_code";
   "object_key"; "ciphertext_sha256"; "ciphertext_size"; "index_id"].
Definition RECORD_OPTIONAL : list string := ["expanded_event_ids"; "expanded_checkpoint"].

(** State sets of [from_dict] and of the lease checks. *)
Definition progress_states : list QueueState :=
  [SOURCE_SNAPSHOTTED; PREPARED_ENCRYPTED; OBJECT_UPLOADED; INDEX_PUBLISHED].
Definition owned_states : list QueueState := CLAIMED :: progress_states.
Definition unowned_states : list QueueState :=
  [QUEUED; RETRYABLE_FAILURE; CAPTURE_GAP; QUARANTINED; POLICY_DENIED; COMMITTED; TRIGGER_EXPANDED].
Definition published_states : list QueueState := [OBJECT_UPLOADED; INDEX_PUBLISHED; COMMITTED].
Definition encrypted_states : list QueueState := PREPARED_ENCRYPTED :: published_states.

(** [tuple(value)]: strings give their characters and dicts their keys. *)
Definition py_tuple (v : pyobj) : result (list pyobj) :=
  match v with
  | PList l => Ok l
  | PStr s => Ok ((fun c => PStr (of_chars [c])) <$> chars s)
  | PDict d => Ok (PStr <$> d.*1)
  | _ => Raise (EType "object is not iterable")
  end.
(** A list of identifier strings. *)
Definition identifier_list (l : list pyobj) : option (list string) :=
  mapM (fun v => match v with PStr s => if fullmatch _IDENTIFIER s then Some s else None | _ => None end) l.

(** [if value is not None: check(value)] *)
Definition optional_id (v : pyobj) : result (option string) :=
  match v with PNone => Ok None | _ => s ← _identifier v; Ok (Some s) end.

Definition read_event_ids (v : pyobj) : result (list string) :=
  match v with
  | PList l =>
      match identifier_list l with
      | Some ids =>
          raise_if ((length ids <? 1)%nat || (_MAX_EVENT_IDS <? length ids)%nat || negb (bool_decide (NoDup ids)))
            (EValue "record event ids") ;;
          Ok ids
      | None => Raise (EValue "record event ids")
      end
  | _ => Raise (EValue "record event ids")
  end.

Definition read_lease (v : pyobj) : result (option flt) :=
  match v with
  | PNone => Ok None
  | _ => raise_if (negb (_finite_number v) || num_ltb v 0) (EValue "record lease") ;; Ok (Some (to_float v))
  end.

Definition lease_duration_ok (v : pyobj) : bool := _finite_number v && num_gtb v 0 && num_leb v 86400.

(** [if digest is not None and not _DIGEST.fullmatch(digest)]: a value that is no
    string makes [fullmatch] raise [TypeError]. *)
Definition read_digest (v : pyobj) : result (option string) :=
  match v with
  | PNone => Ok None
  | PStr s => raise_if (negb (fullmatch _DIGEST s)) (EValue "record ciphertext digest") ;; Ok (Some s)
  | _ => Raise (EType "expected string or bytes-like object")
  end.

Definition read_size (v : pyobj) : result (option Z) :=
  match v with
  | PNone => Ok None
  | PInt z => raise_if (negb ((0 <=? z) && (z <=? _MAX_CIPHERTEXT_BYTES)))%Z (EValue "record ciphertext size") ;; Ok (Some z)
  | _ => Raise (EValue "record ciphertext size")
  end.

Definition object_key_ok (s : string) : bool := fullmatch _OBJECT_KEY s || fullmatch _EVIDENCE_OBJECT_KEY s.
Definition read_object_key (v : pyobj) : result (option string) :=
  match v with
  | PNone => Ok None
  | PStr s => raise_if (negb (object_key_ok s)) (EValue "record object key") ;; Ok (Some s)
  | _ => Raise (EValue "record object key")
  end.

Definition opt_none {A} (o : option A) : bool := match o with Some _ => false | None => true end.
Definition state_in (s : QueueState) (l : list QueueState) : bool := bool_decide (s ∈ l).
Definition state_is (s t : QueueState) : bool := bool_decide (s = t).

(** The cross-field checks of [from_dict], in source order. *)
Definition record_checks (r : QueueRecord) : result unit :=
  let st := state r in
  let rs := resume_state r in
  raise_if (negb (bool_decide (event_id r ∈ event_ids r))) (EValue "record primary event") ;;
  raise_if (is_final r && opt_none (final_event_id r)) (EValue "record final event") ;;
  raise_if (match final_event_id r with
            | Some f => negb (is_final r) || negb (bool_decide (f ∈ event_ids r))
            | None => false
            end) (EValue "record final event") ;;
  raise_if (state_is st QUEUED && negb (state_is rs QUEUED)) (EValue "queued record progress") ;;
  raise_if (state_is st CLAIMED && negb (state_in rs (QUEUED :: progress_states))) (EValue "claimed record progress") ;;
  raise_if (state_in st progress_states && negb (state_is rs st)) (EValue "progress record stage") ;;
  raise_if (state_in st [RETRYABLE_FAILURE; CAPTURE_GAP] && negb (state_in rs (QUEUED :: progress_states)))
    (EValue "failure record progress") ;;
  raise_if (state_is st COMMITTED && (negb (state_is rs INDEX_PUBLISHED) || opt_none (index_id r)))
    (EValue "committed record index") ;;
  raise_if (state_is st INDEX_PUBLISHED && opt_none (index_id r)) (EValue "indexed record index") ;;
  raise_if (state_in st published_states && opt_none (object_key r)) (EValue "published record object") ;;
  raise_if (state_in st encrypted_states && (opt_none (ciphertext_sha256 r) || opt_none (ciphertext_size r)))
    (EValue "prepared record ciphertext") ;;
  raise_if (opt_none (owner r) && negb (opt_none (lease_until r))) (EValue "unowned record lease") ;;
  raise_if (negb (opt_none (owner r)) && opt_none (lease_until r)) (EValue "owned record lease") ;;
  raise_if (state_in st unowned_states && negb (opt_none (owner r))) (EValue "unowned state owner") ;;
  raise_if (state_is st CLAIMED && opt_none (owner r)) (EValue "claimed record owner").

Section record_io.
Context `{PyRuntime}.

Definition QueueRecord_from_dict (body : pyobj) : result QueueRecord :=
  match body with
  | PDict d =>
      raise_if (negb (has_keys RECORD_REQUIRED d) || negb (keys_within (RECORD_REQUIRED ++ RECORD_OPTIONAL) d))
        (EValue "record fields") ;;
      event_id ← get_item "event_id" d ≫= _identifier;
      session_id ← get_item "session_id" d ≫= _identifier;
      cp ← get_item "checkpoint" d ≫= _validate_checkpoint;
      md ← get_item "metadata" d ≫= _validate_metadata;
      raw_state ← get_item "state" d;
      raw_resume ← get_item "resume_state" d;
      match QueueState_of raw_state, QueueState_of raw_resume with
      | Some st, Some rs =>
          raw_sequence ← get_item "sequence" d;
          match as_int raw_sequence with
          | Some seq =>
              raise_if (seq <? 1)%Z (EValue "record sequence") ;;
              ids ← get_item "event_ids" d ≫= read_event_ids;
              raw_final ← get_item "is_final" d;
              match as_bool raw_final with
              | Some final =>
                  raw_fid ← get_item "final_event_id" d;
                  raise_if (negb (is_none raw_fid) && negb (str_matches _IDENTIFIER raw_fid))
                    (EValue "record final event") ;;
                  own ← get_item "owner" d ≫= optional_id;
                  lease ← get_item "lease_until" d ≫= read_lease;
                  raw_seconds ← get_item "lease_seconds" d;
                  raise_if (negb (lease_duration_ok raw_seconds)) (EValue "record lease duration") ;;
                  failure ← get_item "failure_code" d ≫= optional_id;
                  okey ← get_item "object_key" d ≫= read_object_key;
                  digest ← get_item "ciphertext_sha256" d ≫= read_digest;
                  size ← get_item "ciphertext_size" d ≫= read_size;
                  index ← get_item "index_id" d ≫= optional_id;
                  let record := {|
                    event_id := event_id; session_id := session_id; qr_checkpoint := cp;
                    qr_metadata := md; state := st; sequence := seq; event_ids := ids;
                    is_final := final; final_event_id := as_str raw_fid; owner := own;
                    lease_until := lease; lease_seconds := to_float raw_seconds;
                    resume_state := rs; failure_code := failure; object_key := okey;
                    ciphertext_sha256 := digest; ciphertext_size := size; index_id := index;
                    expanded_event_ids := []; qr_expanded_checkpoint := None |} in
                  record_checks record ;;
                  expanded ← py_tuple (default (PList []) (dict_get "expanded_event_ids" d));
                  match identifier_list expanded with
                  | Some xs =>
                      raise_if (_MAX_EVENT_IDS <? length xs)%nat (EValue "record expanded event ids") ;;
                      xc ← match get_or_none "expanded_checkpoint" d with
                           | PNone => Ok None
                           | v => x ← _validate_expanded_checkpoint v; Ok (Some x)
                           end;
                      Ok {|
                        event_id := event_id; session_id := session_id; qr_checkpoint := cp;
                        qr_metadata := md; state := st; sequence := seq; event_ids := ids;
                        is_final := final; final_event_id := as_str raw_fid; owner := own;
                        lease_until := lease; lease_seconds := to_float raw_seconds;
                        resume_state := rs; failure_code := failure; object_key := okey;
                        ciphertext_sha256 := digest; ciphertext_size := size; index_id := index;
                        expanded_event_ids := xs; qr_expanded_checkpoint := xc |}
                  | None => Raise (EValue "record expanded event ids")
                  end
              | None => Raise (EValue "record final")
              end
          | None => Raise (EValue "record sequence")
          end
      | _, _ => Raise (EValue "record state")
      end
  | _ => Raise (EType "record shape")
  end.
End record_io.

(** Copies of a record with some fields replaced
    ([QueueRecord( **{ **record.__dict__, ... })] in the source). *)
Definition with_state (st : QueueState) (r : QueueRecord) : QueueRecord :=
  {| event_id := event_id r; session_id := session_id r; qr_checkpoint := qr_checkpoint r;
     qr_metadata := qr_metadata r; state := st; sequence := sequence r; event_ids := event_ids r;
     is_final := is_final r; final_event_id := final_event_id r; owner := owner r;
     lease_until := lease_until r; lease_seconds := lease_seconds r; resume_state := resume_state r;
     failure_code := failure_code r; object_key := object_key r;
     ciphertext_sha256 := ciphertext_sha256 r; ciphertext_size := ciphertext_size r;
     index_id := index_id r; expanded_event_ids := expanded_event_ids r;
     qr_expanded_checkpoint := qr_expanded_checkpoint r |}.
Definition with_owner (o : option string) (lease : option flt) (r : QueueRecord) : QueueRecord :=
  {| event_id := event_id r; session_id := session_id r; qr_checkpoint := qr_checkpoint r;
     qr_metadata := qr_metadata r; state := state r; sequence := sequence r;
     event_ids := event_ids r; is_final := is_final r; final_event_id := final_event_id r;
     owner := o; lease_until := lease; lease_seconds := lease_seconds r;
     resume_state := resume_state r; failure_code := failure_code r; object_key := object_key r;
     ciphertext_sha256 := ciphertext_sha256 r; ciphertext_size := ciphertext_size r;
     index_id := index_id r; expanded_event_ids := expanded_event_ids r;
     qr_expanded_checkpoint := qr_expanded_checkpoint r |}.
Definition with_lease_seconds (s : flt) (r : QueueRecord) : QueueRecord :=
  {| event_id := event_id r; session_id := session_id r; qr_checkpoint := qr_checkpoint r;
     qr_metadata := qr_metadata r; state := state r; sequence := sequence r;
     event_ids := event_ids r; is_final := is_final r; final_event_id := final_event_id r;
     owner := owner r; lease_until := lease_until r; lease_seconds := s;
     resume_state := resume_state r; failure_code := failure_code r; object_key := object_key r;
     ciphertext_sha256 := ciphertext_sha256 r; ciphertext_size := ciphertext_size r;
     index_id := index_id r; expanded_event_ids := expanded_event_ids r;
     qr_expanded_checkpoint := qr_expanded_checkpoint r |}.
Definition with_resume (st : QueueState) (r : QueueRecord) : QueueRecord :=
  {| event_id := event_id r; session_id := session_id r; qr_checkpoint := qr_checkpoint r;
     qr_metadata := qr_metadata r; state := state r; sequence := sequence r;
     event_ids := event_ids r; is_final := is_final r; final_event_id := final_event_id r;
     owner := owner r; lease_until := lease_until r; lease_seconds := lease_seconds r;
     resume_state := st; failure_code := failure_code r; object_key := object_key r;
     ciphertext_sha256 := ciphertext_sha256 r; ciphertext_size := ciphertext_size r;
     index_id := index_id r; expanded_event_ids := expanded_event_ids r;
     qr_expanded_checkpoint := qr_expanded_checkpoint r |}.
Definition with_failure (code : option string) (r : QueueRecord) : QueueRecord :=
  {| event_id := event_id r; session_id := session_id r; qr_checkpoint := qr_checkpoint r;
     qr_metadata := qr_metadata r; state := state r; sequence := sequence r;
     event_ids := event_ids r; is_final := is_final r; final_event_id := final_event_id r;
     owner := owner r; lease_until := lease_until r; lease_seconds := lease_seconds r;
     resume_state := resume_state r; failure_code := code; object_key := object_key r;
     ciphertext_sha256 := ciphertext_sha256 r; ciphertext_size := ciphertext_size r;
     index_id := index_id r; expanded_event_ids := expanded_event_ids r;
     qr_expanded_checkpoint := qr_expanded_checkpoint r |}.
Definition with_events (ids : list string) (final : bool) (fid : option string) (r : QueueRecord) : QueueRecord :=
  {| event_id := event_id r; session_id := session_id r; qr_checkpoint := qr_checkpoint r;
     qr_metadata := qr_metadata r; state := state r; sequence := sequence r; event_ids := ids;
     is_final := final; final_event_id := fid; owner := owner r; lease_until := lease_until r;
     lease_seconds := lease_seconds r; resume_state := resume_state r;
     failure_code := failure_code r; object_key := object_key r;
     ciphertext_sha256 := ciphertext_sha256 r; ciphertext_size := ciphertext_size r;
     index_id := index_id r; expanded_event_ids := expanded_event_ids r;
     qr_expanded_checkpoint := qr_expanded_checkpoint r |}.
Definition with_ciphertext (digest : option string) (size : option Z) (r : QueueRecord) : QueueRecord :=
  {| event_id := event_id r; session_id := session_id r; qr_checkpoint := qr_checkpoint r;
     qr_metadata := qr_metadata r; state := state r; sequence := sequence r;
     event_ids := event_ids r; is_final := is_final r; final_event_id := final_event_id r;
     owner := owner r; lease_until := lease_until r; lease_seconds := lease_seconds r;
     resume_state := resume_state r; failure_code := failure_code r; object_key := object_key r;
     ciphertext_sha256 := digest; ciphertext_size := size; index_id := index_id r;
     expanded_event_ids := expanded_event_ids r; qr_expanded_checkpoint := qr_expanded_checkpoint r |}.
Definition with_object_key (key : option string) (r : QueueRecord) : QueueRecord :=
  {| event_id := event_id r; session_id := session_id r; qr_checkpoint := qr_checkpoint r;
     qr_metadata := qr_metadata r; state := state r; sequence := sequence r;
     event_ids := event_ids r; is_final := is_final r; final_event_id := final_event_id r;
     owner := owner r; lease_until := lease_until r; lease_seconds := lease_seconds r;
     resume_state := resume_state r; failure_code := failure_code r; object_key := key;
     ciphertext_sha256 := ciphertext_sha256 r; ciphertext_size := ciphertext_size r;
     index_id := index_id r; expanded_event_ids := expanded_event_ids r;
     qr_expanded_checkpoint := qr_expanded_checkpoint r |}.
Definition with_index_id (id : option string) (r : QueueRecord) : QueueRecord :=
  {| event_id := event_id r; session_id := session_id r; qr_checkpoint := qr_checkpoint r;
     qr_metadata := qr_metadata r; state := state r; sequence := sequence r;
     event_ids := event_ids r; is_final := is_final r; final_event_id := final_event_id r;
     owner := owner r; lease_until := lease_until r; lease_seconds := lease_seconds r;
     resume_state := resume_state r; failure_code := failure_code r; object_key := object_key r;
     ciphertext_sha256 := ciphertext_sha256 r; ciphertext_size := ciphertext_size r; index_id := id;
     expanded_event_ids := expanded_event_ids r; qr_expanded_checkpoint := qr_expanded_checkpoint r |}.
Definition with_metadata (md : metadata) (r : QueueRecord) : QueueRecord :=
  {| event_id := event_id r; session_id := session_id r; qr_checkpoint := qr_checkpoint r;
     qr_metadata := md; state := state r; sequence := sequence r; event_ids := event_ids r;
     is_final := is_final r; final_event_id := final_event_id r; owner := owner r;
     lease_until := lease_until r; lease_seconds := lease_seconds r; resume_state := resume_state r;
     failure_code := failure_code r; object_key := object_key r;
     ciphertext_sha256 := ciphertext_sha256 r; ciphertext_size := ciphertext_size r;
     index_id := index_id r; expanded_event_ids := expanded_event_ids r;
     qr_expanded_checkpoint := qr_expanded_checkpoint r |}.
Definition with_expansion (ids : list string) (cp : option expanded_checkpoint) (r : QueueRecord) : QueueRecord :=
  {| event_id := event_id r; session_id := session_id r; qr_checkpoint := qr_checkpoint r;
     qr_metadata := qr_metadata r; state := state r; sequence := sequence r;
     event_ids := event_ids r; is_final := is_final r; final_event_id := final_event_id r;
     owner := owner r; lease_until := lease_until r; lease_seconds := lease_seconds r;
     resume_state := resume_state r; failure_code := failure_code r; object_key := object_key r;
     ciphertext_sha256 := ciphertext_sha256 r; ciphertext_size := ciphertext_size r;
     index_id := index_id r; expanded_event_ids := ids; qr_expanded_checkpoint := cp |}.

(** Truth of a value in a condition. *)
Definition py_bool (v : pyobj) : bool :=
  match v with
  | PNone => false
  | PBool b => b
  | PInt z => negb (z =? 0)%Z
  | PFloat f => match f with S754_zero _ => false | _ => true end
  | PStr s => negb (String.eqb s "")
  | PList l => match l with [] => false | _ => true end
  | PDict d => match d with [] => false | _ => true end
  end.
(** [value or {}] *)
Definition or_empty (v : pyobj) : pyobj := if py_bool v then v else PDict [].

(** ** Prepared ciphertext records *)
Record PreparedRecord := {
  pr_event_id : string;
  pr_ciphertext : string;
  pr_metadata : metadata;
  pr_ciphertext_sha256 : string;
  pr_ciphertext_size : Z;
}.
Record PreparedFileRecord := {
  pf_event_id : string;
  pf_ciphertext_file : string;
  pf_metadata : metadata;
  pf_ciphertext_sha256 : string;
  pf_ciphertext_size : Z;
}.
(** What the prepared outbox reads: ciphertext inside the record or beside it. *)
Inductive prepared : Type :=
| Inline (r : PreparedRecord)
| Beside (r : PreparedFileRecord).
Definition prepared_event_id (p : prepared) : string :=
  match p with Inline r => pr_event_id r | Beside r => pf_event_id r end.
Definition prepared_metadata (p : prepared) : metadata :=
  match p with Inline r => pr_metadata r | Beside r => pf_metadata r end.
Definition prepared_sha256 (p : prepared) : string :=
  match p with Inline r => pr_ciphertext_sha256 r | Beside r => pf_ciphertext_sha256 r end.
Definition prepared_size (p : prepared) : Z :=
  match p with Inline r => pr_ciphertext_size r | Beside r => pf_ciphertext_size r end.

Definition PREPARED_FIELDS : list string :=
  ["event_id"; "ciphertext_b64"; "ciphertext_sha256"; "ciphertext_size"; "metadata"].
Definition PREPARED_FILE_FIELDS : list string :=
  ["event_id"; "ciphertext_file"; "ciphertext_sha256"; "ciphertext_size"; "metadata"].

Definition PreparedRecord_to_dict (r : PreparedRecord) : pyobj :=
  PDict [("event_id", PStr (pr_event_id r));
         ("ciphertext_b64", PStr (b64encode (pr_ciphertext r)));
         ("ciphertext_sha256", PStr (pr_ciphertext_sha256 r));
         ("ciphertext_size", PInt (pr_ciphertext_size r));
         ("metadata", metadata_dict (pr_metadata r))].
Definition PreparedFileRecord_to_dict (r : PreparedFileRecord) : pyobj :=
  PDict [("event_id", PStr (pf_event_id r));
         ("ciphertext_file", PStr (pf_ciphertext_file r));
         ("ciphertext_sha256", PStr (pf_ciphertext_sha256 r));
         ("ciphertext_size", PInt (pf_ciphertext_size r));
         ("metadata", metadata_dict (pf_metadata r))].

Section prepared_io.
Context `{PyRuntime}.

Definition PreparedRecord_from_dict (body : pyobj) : result PreparedRecord :=
  match body with
  | PDict d =>
      raise_if (negb (keys_are PREPARED_FIELDS d)) (EValue "prepared fields") ;;
      event_id ← get_item "event_id" d ≫= _identifier;
      encoded ← get_item "ciphertext_b64" d;
      match encoded with
      | PStr e =>
          raise_if ((_MAX_CIPHERTEXT_BYTES + 2) / 3 * 4 <? Z.of_nat (py_len e))%Z
            (EValue "prepared ciphertext") ;;
          match b64decode e with
          | Some ciphertext =>
              digest ← get_item "ciphertext_sha256" d;
              size ← get_item "ciphertext_size" d;
              match digest, size with
              | PStr h, PInt n =>
                  raise_if (negb (fullmatch _DIGEST h) || negb (n =? Z.of_nat (py_len ciphertext))%Z
                            || negb (String.eqb (sha256 ciphertext) h)) (EValue "prepared ciphertext metadata") ;;
                  md ← get_item "metadata" d ≫= _validate_metadata;
                  Ok {| pr_event_id := event_id; pr_ciphertext := ciphertext; pr_metadata := md;
                        pr_ciphertext_sha256 := h; pr_ciphertext_size := n |}
              | _, _ => Raise (EValue "prepared ciphertext metadata")
              end
          | None => Raise (EValue "prepared ciphertext")
          end
      | _ => Raise (EValue "prepared ciphertext")
      end
  | _ => Raise (EValue "prepared fields")
  end.

(** The constructor with its [__post_init__]. *)
Definition PreparedFileRecord_init (event_id ciphertext_file : pyobj) (md : metadata)
    (digest size : pyobj) : result PreparedFileRecord :=
  id ← _identifier event_id;
  raise_if (negb (py_eq ciphertext_file (PStr (id +:+ ".age")))) (EValue "prepared ciphertext file") ;;
  raise_if (bool_decide (is_Some (md !! "content_sha256")) || bool_decide (is_Some (md !! "content_size")))
    (EValue "prepared metadata") ;;
  _validate_metadata (metadata_dict md) ;;
  match digest, size with
  | PStr h, PInt n =>
      raise_if (negb (fullmatch _DIGEST h) || negb ((0 <=? n) && (n <=? _MAX_CIPHERTEXT_BYTES)))%Z
        (EValue "prepared ciphertext metadata") ;;
      Ok {| pf_event_id := id; pf_ciphertext_file := id +:+ ".age"; pf_metadata := md;
            pf_ciphertext_sha256 := h; pf_ciphertext_size := n |}
  | _, _ => Raise (EValue "prepared ciphertext metadata")
  end.

Definition PreparedFileRecord_from_dict (body : pyobj) : result PreparedFileRecord :=
  match body with
  | PDict d =>
      raise_if (negb (keys_are PREPARED_FILE_FIELDS d)) (EValue "prepared file fields") ;;
      event_id ← get_item "event_id" d;
      file ← get_item "ciphertext_file" d;
      md ← get_item "metadata" d ≫= _validate_metadata;
      digest ← get_item "ciphertext_sha256" d;
      size ← get_item "ciphertext_size" d;
      PreparedFileRecord_init event_id file md digest size
  | _ => Raise (EValue "prepared file fields")
  end.
End prepared_io.

(** ** Inspections *)
Record Inspection := {
  in_records : list QueueRecord;
  in_diagnostics : list string;
  in_quarantined_count : nat;
  in_partial_count : nat;
  in_orphan_prepared : list string;
}.
Definition Diagnostic_to_dict (code : string) : pyobj := PDict [("code", PStr code)].
Definition Inspection_to_dict (i : Inspection) : pyobj :=
  PDict [("records", PList (QueueRecord_to_dict <$> in_records i));
         ("diagnostics", PList (Diagnostic_to_dict <$> in_diagnostics i));
         ("quarantined_count", PInt (Z.of_nat (in_quarantined_count i)));
         ("partial_count", PInt (Z.of_nat (in_partial_count i)));
         ("orphan_prepared", PList (PStr <$> in_orphan_prepared i))].
