(* ===== verification/OutboxStore.v ===== *)
(** * The outbox's storage ([src/josh_room/pcc_outbox.py], files, locks and publication)

    The outbox keeps its state in files below one root: [queue], [prepared],
    [quarantine] and [receipts].  The world holds those files and how far the
    program has consumed its environment: the clock, the random names, and the
    outcomes of the system calls that can fail.  A computation is a function of
    the world that returns or raises and leaves a world behind; what it changed
    before an exception stays changed, as in the code. *)

From S2P Require Import Prelude PyStr PyObj OutboxData.
From Stdlib Require Import SpecFloat.

(** ** Files *)

(** The bytes of a regular file and what [json.loads] makes of them. *)
Record content := { bytes : string; decoded : option pyobj }.
(** [Regular c private]: [private] says that the mode has no group or other bits. *)
Inductive node : Type :=
| Regular (c : content) (private : bool)
| Symlink
| Folder.

Definition is_regular (n : node) : bool := match n with Regular _ _ => true | _ => false end.
Definition is_folder (n : node) : bool := match n with Folder => true | _ => false end.

Abbreviation fs := (gmap (string * string) node).

Record world := {
  files : fs;                (** by directory and file name *)
  dirs : gmap string bool;   (** [true] a directory, [false] something else *)
  ticks : nat;               (** clock readings taken *)
  uuids : nat;               (** random names drawn *)
  ios : nat;                 (** outcomes of fallible system calls consumed *)
}.

Definition set_files (f : fs -> fs) (w : world) : world :=
  {| files := f (files w); dirs := dirs w; ticks := ticks w; uuids := uuids w; ios := ios w |}.
Definition set_dirs (f : gmap string bool -> gmap string bool) (w : world) : world :=
  {| files := files w; dirs := f (dirs w); ticks := ticks w; uuids := uuids w; ios := ios w |}.
Definition next_tick (w : world) : world :=
  {| files := files w; dirs := dirs w; ticks := S (ticks w); uuids := uuids w; ios := ios w |}.
Definition next_uuid (w : world) : world :=
  {| files := files w; dirs := dirs w; ticks := ticks w; uuids := S (uuids w); ios := ios w |}.
Definition next_io (w : world) : world :=
  {| files := files w; dirs := dirs w; ticks := ticks w; uuids := uuids w; ios := S (ios w) |}.

(** How a fallible system call ends. *)
Inductive io_event : Type :=
| IoOk
| IoFail      (** it raises before any effect *)
| IoWrite     (** a publication fails before the rename *)
| IoSync      (** a publication fails after the rename *)
| IoTimeout.  (** a lock with a deadline is not obtained in time *)

#[export] Instance io_event_eq_dec : EqDecision io_event.
Proof. solve_decision. Defined.

(** The environment: the injected clock, the random names ([uuid.uuid4().hex] and
    [os.urandom(16).hex()]), the outcomes of the system calls, and the order in which a
    directory lists its entries. *)
Class Env := {
  clock : nat -> pyobj;
  uuid_hex : nat -> string;
  urandom_hex : nat -> string;
  urandom_hex_ok : forall n, urandom_hex n ≠ "" /\ str_all is_hex (urandom_hex n) = true;
  outcome : nat -> io_event;
  scan_order : list string -> list string;
  scan_perm : forall l, scan_order l ≡ₚ l;
}.

(** ** Computations *)
Definition M (A : Type) : Type := world -> result A * world.

#[export] Instance M_ret : MRet M := fun A a w => (Ok a, w).
#[export] Instance M_bind : MBind M := fun A B f m w =>
  match m w with
  | (Ok a, w) => f a w
  | (Raise e, w) => (Raise e, w)
  end.
#[export] Instance M_fmap : FMap M := fun A B f m => m ≫= (fun a => mret (f a)).

Definition lift {A} (r : result A) : M A := fun w => (r, w).
Definition raise {A} (e : exn) : M A := lift (Raise e).
Definition get : M world := fun w => (Ok w, w).
Definition modify (f : world -> world) : M unit := fun w => (Ok tt, f w).
(** [try: m except Exception as e: h(e)] where [h] returns [None] for what it re-raises *)
Definition catch {A} (m : M A) (h : exn -> option (M A)) : M A := fun w =>
  match m w with
  | (Raise e, w') => match h e with Some k => k w' | None => (Raise e, w') end
  | r => r
  end.
(** [try: m finally: k], where an [OSError] of [k] is passed over *)
Definition finally {A} (m : M A) (k : M unit) : M A := fun w => let '(r, w') := m w in (r, (k w').2).
Definition when (b : bool) (m : M unit) : M unit := if b then m else mret tt.
Definition guard (b : bool) (e : exn) : M unit := lift (raise_if b e).

Fixpoint for_each_M {A} (f : A -> M unit) (l : list A) : M unit :=
  match l with
  | [] => mret tt
  | x :: l => f x ;; for_each_M f l
  end.
Fixpoint map_M {A B} (f : A -> M B) (l : list A) : M (list B) :=
  match l with
  | [] => mret []
  | x :: l => y ← f x; ys ← map_M f l; mret (y :: ys)
  end.

(** ** Names *)
Definition QUEUE : string := "queue".
Definition PREPARED : string := "prepared".
Definition QUARANTINE : string := "quarantine".
Definition RECEIPTS : string := "receipts".
Definition ROOT : string := "".

Definition json_name (id : string) : string := id +:+ ".json".
Definition age_name (id : string) : string := id +:+ ".age".
(** [path.name.endswith(".json")], [path.suffix] and [path.stem] *)
Definition is_json_name (name : string) : bool := endswith ".json" name.
Definition is_age_name (name : string) : bool := endswith ".age" name.

Definition read_node (dir name : string) : M (option node) := w ← get; mret (files w !! (dir, name)).
(** The names in a directory, in the order the system lists them. *)
Definition names_in (dir : string) (f : fs) : list string :=
  (filter (fun k => k.1 = dir) (map_to_list f).*1).*2.
Definition write_node (dir name : string) (n : node) : M unit := modify (set_files <[(dir, name) := n]>).
Definition remove_node (dir name : string) : M unit := modify (set_files (delete (dir, name))).
(** [path.unlink(missing_ok=True)]: a directory cannot be unlinked. *)
Definition unlink (dir name : string) : M unit :=
  n ← read_node dir name;
  if from_option is_folder false n then raise EOS else remove_node dir name.

Section env.
Context `{Env}.

Definition listdir (dir : string) : M (list string) :=
  w ← get; mret (scan_order (names_in dir (files w))).
Definition is_dir (dir : string) : M bool := w ← get; mret (bool_decide (dirs w !! dir = Some true)).

(** The outcome of the next fallible system call. *)
Definition io : M io_event := fun w => (Ok (outcome (ios w)), next_io w).
Definition uuid4 : M string := fun w => (Ok (uuid_hex (uuids w)), next_uuid w).

(** [_ensure_directory]: whether the directory was created. *)
Definition _ensure_directory (dir : string) : M bool :=
  w ← get;
  match dirs w !! dir with
  | Some true => mret false
  | Some false => raise (EStorage "storage-unavailable" None)
  | None =>
      e ← io;
      match e with
      | IoOk => modify (set_dirs <[dir := true]>) ;; mret true
      | _ => raise (EStorage "storage-unavailable" None)
      end
  end.

(** [_sync_directory]: an [fsync] that may raise [OSError]. *)
Definition _sync_directory : M unit :=
  e ← io; match e with IoOk => mret tt | _ => raise EOS end.

(** [_exclusive_file_lock]: entering the critical section.  A lock without a
    timeout is waited for. *)
Definition _exclusive_file_lock (timeout : option pyobj) : M unit :=
  guard (match timeout with
         | Some t => negb (_finite_number t) || num_ltb t 0
         | None => false
         end) (EValue "lock timeout is invalid") ;;
  e ← io;
  match e, timeout with
  | IoOk, _ => mret tt
  | IoTimeout, Some _ => raise (EStorage "lock-timeout" (Some true))
  | IoTimeout, None => mret tt
  | IoWrite, _ => raise (EStorage "unsupported-lock-platform" None)
  | IoSync, _ => raise EOS
  | IoFail, _ => raise (EStorage "storage-unavailable" None)
  end.
(** [with _exclusive_file_lock(...): body] *)
Definition with_lock {A} (timeout : option pyobj) (body : M A) : M A :=
  _exclusive_file_lock timeout ;; body.

(** [_create_private_temp]: a file that did not exist, opened exclusively, within
    [tries] attempts. *)
Definition temp_name (name hex : string) : string := "." +:+ name +:+ "." +:+ hex.
Definition partial (s : string) : node := Regular {| bytes := s; decoded := None |} true.
Definition urandom : M string := fun w => (Ok (urandom_hex (uuids w)), next_uuid w).
Fixpoint _create_private_temp (tries : nat) (dir name : string) : M string :=
  match tries with
  | O => raise EOS
  | S tries =>
      hex ← urandom;
      old ← read_node dir (temp_name name hex);
      match old with
      | Some _ => _create_private_temp tries dir name
      | None => write_node dir (temp_name name hex) (partial "") ;; mret (temp_name name hex)
      end
  end.

(** What [_DurablePublisher.publish] does to the disk once it has a temporary file: the
    bytes are written, one after the other as far as anybody knows, and synced, the file
    is renamed over the target, which a directory in its place prevents, and the
    directory is synced. *)
Definition publish_calls (e : io_event) (dir name temp : string) (c : content) : list (M unit) :=
  ((fun k => write_node dir temp (partial (str_take k (bytes c)))) <$> seq 1 (py_len (bytes c) - 1))
  ++ [write_node dir temp (Regular c true);
      guard (bool_decide (e = IoWrite)) EOS;
      (n ← read_node dir temp;
       old ← read_node dir name;
       guard (from_option is_folder false old) EOS ;;
       match n with
       | Some n => remove_node dir temp ;; write_node dir name n
       | None => raise ENotFound
       end);
      guard (bool_decide (e = IoSync)) EOS].

(** [path.parent.mkdir(...)] and the temporary file; the outcome drawn is that of the
    calls that follow, too. *)
Definition publish_start (dir name : string) : M (io_event * string) :=
  e ← io;
  w ← get;
  match e, dirs w !! dir with
  | IoFail, _ | IoTimeout, _ | _, Some false => raise EOS
  | _, _ =>
      modify (set_dirs <[dir := true]>) ;;
      temp ← _create_private_temp 16 dir name;
      mret (e, temp)
  end.

(** [_DurablePublisher.publish] *)
Definition publish_bytes (dir name : string) (c : content) : M unit :=
  start ← publish_start dir name;
  finally
    (catch (for_each_M id (publish_calls start.1 dir name start.2 c))
       (fun e => if is_os_error e
                 then Some (old ← read_node dir name;
                            raise (EStorage "publication-failed" (Some (from_option is_regular false old))))
                 else None))
    (unlink dir start.2).

(** The same when the process dies after [n] of those calls: no handler runs and the
    temporary file, if it is there, stays. *)
Definition publish_killed (n : nat) (dir name : string) (c : content) : M unit :=
  start ← publish_start dir name;
  for_each_M id (take n (publish_calls start.1 dir name start.2 c)).

(** [os.replace(source, target)]: the source must exist. *)
Definition replace (dir name dir' name' : string) : M unit :=
  e ← io;
  n ← read_node dir name;
  match e, n with
  | IoOk, Some n =>
      remove_node dir name ;; write_node dir' name' n
  | IoOk, None => raise ENotFound
  | _, _ => raise EOS
  end.
End env.
