(* ===== verification/PreparedOutbox.v ===== *)
(** * The prepared outbox ([PreparedOutbox] of [src/josh_room/pcc_outbox.py])

    Ciphertext that is ready for delivery: [prepared/<event>.json], with the
    ciphertext inside or beside it in [prepared/<event>.age]. *)

From S2P Require Import Prelude PyStr PyObj Base64 OutboxData OutboxStore.
From Stdlib Require Import Ascii SpecFloat.

(** [except (OSError, UnicodeError, json.JSONDecodeError, TypeError, ValueError)] *)
Definition is_data_error (e : exn) : bool := is_os_error e || is_type_or_value_error e.

(** [path.suffix] and [path.stem] *)
Definition py_suffix (name : string) : string :=
  match py_rpartition "."%char name with
  | (Some stem, ext) => if String.eqb stem "" || String.eqb ext "" then "" else "." +:+ ext
  | (None, _) => ""
  end.
Definition py_stem (name : string) : string := removesuffix (py_suffix name) name.

Section prepared_outbox.
Context `{Env, PyRuntime}.

(** The bytes [json.dumps(v, sort_keys=True, separators=(",", ":"))] and what they decode to. *)
Definition json_content (v : pyobj) : content := {| bytes := dumps true v; decoded := Some v |}.
Definition byte_len (c : content) : Z := Z.of_nat (py_len (bytes c)).
Definition publish_json (dir name : string) (v : pyobj) : M unit := publish_bytes dir name (json_content v).

(** A file that must be regular and hold JSON. *)
Definition read_json (dir name : string) : M pyobj :=
  n ← read_node dir name;
  match n with
  | None => raise ENotFound
  | Some (Regular c _) =>
      match decoded c with Some v => mret v | None => raise (EValue "json") end
  | Some _ => raise (EValue "record is not regular")
  end.

Definition exists_node (dir name : string) : M bool :=
  n ← read_node dir name; mret (bool_decide (is_Some n)).

Definition prepared_matches (digest : string) (size : Z) (c : content) : bool :=
  String.eqb (sha256 (bytes c)) digest && (byte_len c =? size)%Z.

(** Decoding a prepared record and checking the ciphertext beside it. *)
Definition load_prepared (ciphertext_id : option string) (body : pyobj) : M prepared :=
  let inline : M prepared := r ← lift (PreparedRecord_from_dict body); mret (Inline r) in
  match body with
  | PDict d =>
      if has_key "ciphertext_file" d then
        r ← lift (PreparedFileRecord_from_dict body);
        n ← read_node PREPARED (age_name (default (pf_event_id r) ciphertext_id));
        match n with
        | Some (Regular c _) =>
            guard (negb (prepared_matches (pf_ciphertext_sha256 r) (pf_ciphertext_size r) c))
              (EValue "prepared ciphertext metadata") ;;
            mret (Beside r)
        | _ => raise (EValue "prepared ciphertext is unavailable")
        end
      else inline
  | _ => inline
  end.

Definition _publish_unlocked (r : PreparedRecord) : M unit :=
  publish_json PREPARED (json_name (pr_event_id r)) (PreparedRecord_to_dict r).

(** A source file handed over by path: regular, private, with its bytes. *)
Definition private_source (src : string * string) : M content :=
  n ← read_node src.1 src.2;
  match n with
  | None => raise ENotFound
  | Some (Regular c true) => mret c
  | Some _ => raise (EValue "prepared source is not private")
  end.
Definition fsync : M unit := _sync_directory.

Definition _publish_file_unlocked (r : PreparedFileRecord) (src : string * string) : M unit :=
  let target := age_name (pf_event_id r) in
  let record_path := json_name (pf_event_id r) in
  catch (
    c ← private_source src;
    guard (negb (prepared_matches (pf_ciphertext_sha256 r) (pf_ciphertext_size r) c))
      (EValue "prepared ciphertext metadata") ;;
    there ← exists_node PREPARED target;
    guard there (EStorage "prepared-record-conflict" None) ;;
    there ← exists_node PREPARED record_path;
    guard there (EStorage "prepared-record-conflict" None) ;;
    replace src.1 src.2 PREPARED target ;;
    fsync ;;
    _sync_directory ;;
    catch (publish_json PREPARED record_path (PreparedFileRecord_to_dict r)) (fun e =>
      if is_storage_error e then
        Some (catch (unlink PREPARED record_path ;; unlink PREPARED target)
                (fun e' => if is_os_error e' then Some (mret tt) else None) ;;
              raise e)
      else None))
    (fun e =>
      if is_storage_error e then None
      else if is_data_error e then
        Some (unlink PREPARED target ;; raise (EStorage "publication-failed" (Some false)))
      else None).

Definition _quarantine_unlocked (name : string) : M unit :=
  _ensure_directory QUARANTINE ;;
  u ← uuid4;
  let base := "prepared-corrupt-" +:+ u in
  let suffix := py_suffix name in
  let target := base +:+ (if bool_decide (suffix ∈ [".json"; ".age"]) then suffix else ".json") in
  catch (
    replace PREPARED name QUARANTINE target ;;
    if String.eqb suffix ".json" then
      there ← exists_node PREPARED (age_name (py_stem name));
      when there (replace PREPARED (age_name (py_stem name)) QUARANTINE (base +:+ ".age"))
    else mret tt)
    (fun e => if is_os_error e then Some (raise (EStorage "prepared-record-unmovable" None)) else None).

(** Creating the directories a publication needs. *)
Definition ensure_prepared_layout : M unit :=
  root_created ← _ensure_directory ROOT;
  directory_created ← _ensure_directory PREPARED;
  when (root_created || directory_created) _sync_directory.

Definition publish (r : PreparedRecord) : M unit :=
  with_lock None (ensure_prepared_layout ;; _publish_unlocked r).

Definition publish_file (r : PreparedFileRecord) (src : string * string) : M unit :=
  with_lock None (ensure_prepared_layout ;; _publish_file_unlocked r src).

Definition regular_at (p : string * string) : M bool :=
  n ← read_node p.1 p.2; mret (from_option is_regular false n).

Definition preserve_capture_gap_ciphertext (event_id : pyobj) (src : string * string) : M (string * string) :=
  lift (_identifier event_id) ;;
  with_lock None (
    _ensure_directory ROOT ;; _ensure_directory PREPARED ;; _ensure_directory QUARANTINE ;;
    catch (
      c ← private_source src;
      guard (_MAX_CIPHERTEXT_BYTES <? byte_len c)%Z (EValue "capture-gap ciphertext is too large") ;;
      let target := "capture-gap-" +:+ sha256 (bytes c) +:+ ".age" in
      old ← read_node QUARANTINE target;
      match old with
      | Some (Regular existing _) =>
          guard (negb (String.eqb (sha256 (bytes existing)) (sha256 (bytes c))))
            (EStorage "capture-gap-conflict" (Some true)) ;;
          unlink src.1 src.2 ;;
          mret (QUARANTINE, target)
      | Some _ => raise (EValue "capture-gap ciphertext conflict")
      | None =>
          replace src.1 src.2 QUARANTINE target ;;
          fsync ;;
          _sync_directory ;;
          mret (QUARANTINE, target)
      end)
      (fun e =>
        if is_storage_error e then None
        else if is_data_error e then
          Some (kept ← regular_at src; raise (EStorage "capture-gap-preserve-failed" (Some kept)))
        else None)).

Definition inspect_record (event_id : pyobj) : M (option prepared) :=
  with_lock None (
    _ensure_directory ROOT ;; _ensure_directory PREPARED ;;
    id ← lift (_identifier event_id);
    let name := json_name id in
    let corrupt {A} : M A := _quarantine_unlocked name ;; raise (EStorage "prepared-record-corrupt" None) in
    body ← catch (v ← read_json PREPARED name; mret (Some v)) (fun e =>
      if bool_decide (e = ENotFound) then Some (mret None)
      else if is_data_error e then Some corrupt else None);
    match body with
    | None => mret None
    | Some body =>
        catch (p ← load_prepared None body; mret (Some p))
          (fun e => if is_type_or_value_error e then Some corrupt else None)
    end).

(** One iteration of [_records_unlocked]. *)
Definition load_record (name : string) : M prepared :=
  catch (body ← read_json PREPARED name; load_prepared None body)
    (fun e => if is_data_error e then Some (raise (EStorage "prepared-record-corrupt" None)) else None).

Definition _records_unlocked : M (gmap string prepared) :=
  there ← is_dir PREPARED;
  if there : bool then
    names ← listdir PREPARED;
    ps ← map_M load_record (filter (fun n => is_json_name n = true) names);
    mret (foldl (fun m p => <[prepared_event_id p := p]> m) ∅ ps)
  else mret ∅.
End prepared_outbox.
