(* ===== verification/PccOutbox.v ===== *)
(** * The trigger queue ([PccOutbox] of [src/josh_room/pcc_outbox.py])

    Records live in [queue/<event>.json].  Every operation reads what it needs,
    decides, and publishes at most one queue record, under the state lock. *)

From S2P Require Import Prelude PyStr PyObj Base64 OutboxData OutboxStore.
From S2P Require Import PreparedOutbox.
From Stdlib Require Import SpecFloat.

(** ** Construction *)
Record config := { max_events : Z; max_bytes : Z; cfg_lease_seconds : flt }.

Definition PccOutbox_init (max_events max_bytes lease_seconds : pyobj) : result config :=
  let positive (v : pyobj) (e : exn) :=
    match v with PInt z => raise_if (z <? 1)%Z e ;; Ok z | _ => Raise e end in
  events ← positive max_events (EValue "outbox event quota is invalid");
  size ← positive max_bytes (EValue "outbox byte quota is invalid");
  raise_if (negb (lease_duration_ok lease_seconds)) (EValue "outbox lease duration is invalid") ;;
  Ok {| max_events := events; max_bytes := size; cfg_lease_seconds := to_float lease_seconds |}.

(** The order of [records.sort(key=lambda item: (item.sequence, item.event_id))]. *)
Definition record_le (a b : QueueRecord) : Prop :=
  (sequence a < sequence b)%Z \/ (sequence a = sequence b /\ String.le (event_id a) (event_id b)).
#[export] Instance record_le_dec : RelDecision record_le.
Proof. intros a b. unfold record_le. apply _. Defined.

Definition DECISIONS : list string := ["allow"; "deny"; "local-only"; "quarantine"].
Definition waiting_states : list QueueState := [QUEUED; RETRYABLE_FAILURE; CAPTURE_GAP].

(** The record [enqueue] and [reconcile_prepared] build, with the constructor's
    defaults for the other fields. *)
Definition new_record (id sid : string) (cp : checkpoint) (md : metadata) (st rs : QueueState)
    (seq : Z) (final : bool) : QueueRecord :=
  {| event_id := id; session_id := sid; qr_checkpoint := cp; qr_metadata := md; state := st;
     sequence := seq; event_ids := [id]; is_final := final;
     final_event_id := if final then Some id else None; owner := None; lease_until := None;
     lease_seconds := f_of_Z 60; resume_state := rs; failure_code := None; object_key := None;
     ciphertext_sha256 := None; ciphertext_size := None; index_id := None;
     expanded_event_ids := []; qr_expanded_checkpoint := None |}.

Definition next_sequence (records : list QueueRecord) : Z := foldr (fun r m => Z.max (sequence r) m) 0%Z records + 1.

Definition same_key (sid : string) (cp : checkpoint) (r : QueueRecord) : bool :=
  bool_decide (_checkpoint_key (session_id r) (qr_checkpoint r) = _checkpoint_key sid cp).

Definition receipt (id : string) (st : QueueState) (coalesced : bool) (seq : option Z) (final : bool)
    (diagnostic : option CaptureGap) : QueueReceipt :=
  {| rc_event_id := id; rc_state := st; rc_coalesced := coalesced; rc_sequence := seq;
     rc_is_final := final; rc_diagnostic := diagnostic |}.
Definition gap (code : string) (preserved : bool) : option CaptureGap :=
  Some {| gap_reason_code := code; gap_pending_preserved := preserved; gap_retryable := true |}.

(** The event ids of a coalesced record: [None] when the bound refuses a marker
    that is not final, otherwise the ids and whether the bound evicted one. *)
Definition coalesced_ids (r : QueueRecord) (id : string) (final : bool) : option (list string * bool) :=
  let ids := event_ids r in
  if bool_decide (id ∈ ids) then Some (ids, false)
  else if (_MAX_EVENT_IDS <=? length ids)%nat then
    if final then Some (event_id r :: take (_MAX_EVENT_IDS - 2) (drop 1 ids) ++ [id], true) else None
  else Some (ids ++ [id], false).

Definition coalesced_record (r : QueueRecord) (ids : list string) (id : string) (final : bool) : QueueRecord :=
  with_events ids (is_final r || final) (if final then Some id else final_event_id r) r.

Definition initial_state (decision : string) : QueueState :=
  if String.eqb decision "deny" then POLICY_DENIED
  else if String.eqb decision "quarantine" then QUARANTINED else QUEUED.

(** [_claimable] *)
Definition _claimable (r : QueueRecord) : bool :=
  state_in (state r) (waiting_states ++ progress_states) && opt_none (owner r).

(** The record a claim publishes. *)
Definition claimed_record (cfg : config) (r : QueueRecord) (o : string) (now : flt) : QueueRecord :=
  let resume := if state_in (state r) [RETRYABLE_FAILURE; CAPTURE_GAP] then resume_state r else state r in
  with_failure None (with_resume resume (with_lease_seconds (cfg_lease_seconds cfg)
    (with_owner (Some o) (Some (fadd now (cfg_lease_seconds cfg))) (with_state CLAIMED r)))).

(** [_next_state_valid] *)
Definition _next_state_valid (r : QueueRecord) (target : QueueState) : bool :=
  match target with
  | SOURCE_SNAPSHOTTED => state_is (resume_state r) QUEUED
  | PREPARED_ENCRYPTED => state_is (resume_state r) SOURCE_SNAPSHOTTED
  | OBJECT_UPLOADED => state_is (resume_state r) PREPARED_ENCRYPTED
  | INDEX_PUBLISHED => state_is (resume_state r) OBJECT_UPLOADED
  | COMMITTED => state_is (resume_state r) INDEX_PUBLISHED && negb (opt_none (index_id r))
  | _ => state_in target [RETRYABLE_FAILURE; QUARANTINED; POLICY_DENIED; CAPTURE_GAP]
  end.

(** The digest group of an object key. *)
Definition object_digest (key : string) : option string :=
  if fullmatch _OBJECT_KEY key then Some (removeprefix OBJECT_PREFIX key)
  else if fullmatch _EVIDENCE_OBJECT_KEY key then Some (removeprefix EVIDENCE_PREFIX key)
  else None.

(** [v not in {None, x}] *)
Definition not_none_or (v x : pyobj) : result bool :=
  raise_if (negb (hashable v)) (EType "unhashable type") ;; Ok (negb (is_none v || py_eq v x)).

(** The checks of [transition] when the record is already in the requested state. *)
Definition transition_again (r : QueueRecord) (st : QueueState) (details : dict) : result QueueRecord :=
  let differs (key : string) (x : pyobj) := not_none_or (get_or_none key details) x in
  (if state_is st OBJECT_UPLOADED then
     b ← differs "object_key" (opt_str (object_key r)); raise_if b EInvalidTransition
   else Ok tt) ;;
  (if state_is st OBJECT_UPLOADED then
     b ← differs "ciphertext_size" (opt_int (ciphertext_size r)); raise_if b EInvalidTransition
   else Ok tt) ;;
  (if state_is st INDEX_PUBLISHED then
     b ← differs "index_id" (opt_str (index_id r)); raise_if b EInvalidTransition
   else Ok tt) ;;
  Ok r.

(** [_identifier(details.get("reason_code", default))] *)
Definition reason_code (details : dict) (default_code : string) : result string :=
  _identifier (default (PStr default_code) (dict_get "reason_code" details)).

(** The detail updates of a progress or commit transition, one per optional detail. *)
Definition object_key_detail (old : QueueRecord) (st : QueueState) (details : dict) (r : QueueRecord) : result QueueRecord :=
  match dict_get "object_key" details with
  | None => Ok r
  | Some (PStr key) =>
      match object_digest key with
      | None => Raise (EValue "object key is invalid")
      | Some digest =>
          raise_if (state_is st OBJECT_UPLOADED && negb (bool_decide (Some digest = ciphertext_sha256 old)))
            EInvalidTransition ;;
          Ok (with_object_key (Some key) (with_ciphertext (Some digest) (ciphertext_size r) r))
      end
  | Some _ => Raise (EValue "object key is invalid")
  end.
Definition ciphertext_size_detail (old : QueueRecord) (st : QueueState) (details : dict) (r : QueueRecord) : result QueueRecord :=
  match dict_get "ciphertext_size" details with
  | None => Ok r
  | Some (PInt n) =>
      raise_if (negb ((0 <=? n) && (n <=? _MAX_CIPHERTEXT_BYTES)))%Z (EValue "ciphertext size is invalid") ;;
      raise_if (state_is st OBJECT_UPLOADED && negb (bool_decide (Some n = ciphertext_size old))) EInvalidTransition ;;
      Ok (with_ciphertext (ciphertext_sha256 r) (Some n) r)
  | Some _ => Raise (EValue "ciphertext size is invalid")
  end.
Definition index_id_detail (details : dict) (r : QueueRecord) : result QueueRecord :=
  match dict_get "index_id" details with
  | None => Ok r
  | Some v => id ← _identifier v; Ok (with_index_id (Some id) r)
  end.

(** The record [transition] publishes once the claim and the target are accepted. *)
Definition transitioned (r : QueueRecord) (st : QueueState) (details : dict) : result QueueRecord :=
  if state_is st RETRYABLE_FAILURE then
    code ← reason_code details "retryable-failure";
    Ok (with_owner None None (with_failure (Some code) (with_state st r)))
  else if state_in st [QUARANTINED; CAPTURE_GAP; POLICY_DENIED] then
    code ← reason_code details (state_value st);
    Ok (with_failure (Some code) (with_owner None None (with_state st r)))
  else
    let next := with_failure None
      (with_resume (if state_is st COMMITTED then resume_state r else st) (with_state st r)) in
    next ← object_key_detail r st details next;
    next ← ciphertext_size_detail r st details next;
    next ← index_id_detail details next;
    Ok (if state_is st COMMITTED then with_owner None None next else next).

Definition prepared_update (r : QueueRecord) (digest : string) (size : Z) : QueueRecord :=
  with_ciphertext (Some digest) (Some size)
    (with_failure None (with_resume PREPARED_ENCRYPTED (with_state PREPARED_ENCRYPTED r))).
Definition quota_gap (r : QueueRecord) : QueueRecord :=
  with_failure (Some "prepared-byte-quota")
    (with_resume SOURCE_SNAPSHOTTED (with_owner None None (with_state CAPTURE_GAP r))).

Section pcc_outbox.
Context `{Env, PyRuntime}.
Variable cfg : config.

Definition _path (id : string) : string := json_name id.

Definition _ensure_layout : M unit :=
  created ← map_M _ensure_directory [ROOT; QUEUE; PREPARED; QUARANTINE; RECEIPTS];
  when (existsb id created) _sync_directory.

Definition _publish_record_unlocked (r : QueueRecord) : M unit :=
  publish_json QUEUE (_path (event_id r)) (QueueRecord_to_dict r).

(** Publishing a record and returning it. *)
Definition publish_and_return (r : QueueRecord) : M QueueRecord := _publish_record_unlocked r ;; mret r.

(** [path.lstat().st_size]; the entry kinds other than regular files are rejected
    before their size is asked for. *)
Definition stat_size (dir name : string) : M Z :=
  n ← read_node dir name;
  match n with
  | Some (Regular c _) => mret (byte_len c)
  | Some _ => raise EOS
  | None => raise ENotFound
  end.

Definition prepared_entry_size (name : string) : M Z :=
  n ← read_node PREPARED name;
  match n with
  | Some (Regular c _) => mret (byte_len c)
  | Some _ => raise (EStorage "prepared-record-corrupt" None)
  | None => raise (EStorage "prepared-record-unavailable" None)
  end.
Definition sum (l : list Z) : Z := foldr Z.add 0%Z l.

Definition _prepared_bytes_unlocked : M Z :=
  there ← is_dir PREPARED;
  if there : bool then
    names ← listdir PREPARED;
    sizes ← map_M prepared_entry_size names;
    mret (sum sizes)
  else mret 0%Z.

(** [sum(self._path(item.event_id).stat().st_size for item in records)] *)
Definition queue_bytes (records : list QueueRecord) : M Z :=
  sizes ← map_M (fun r => stat_size QUEUE (_path (event_id r))) records; mret (sum sizes).

Definition _read_record (name : string) : M QueueRecord :=
  body ← read_json QUEUE name; lift (QueueRecord_from_dict body).

(** All records in the order of their file names; a bad one raises. *)
Definition _records_unlocked : M (list QueueRecord) :=
  there ← is_dir QUEUE;
  if there : bool then
    names ← listdir QUEUE;
    map_M _read_record (merge_sort String.le (filter (fun n => is_json_name n = true) names))
  else mret [].

Definition _quarantine_corrupt_unlocked (name : string) : M unit :=
  _ensure_directory QUARANTINE ;;
  u ← uuid4;
  catch (replace QUEUE name QUARANTINE ("corrupt-" +:+ u +:+ ".json"))
    (fun e => if is_os_error e then Some (raise (EStorage "corrupt-record-unmovable" None)) else None).

(** One entry of the scan: the record, or [None] after moving a corrupt file away. *)
Definition scan_entry (name : string) : M (option QueueRecord) :=
  catch (r ← _read_record name; mret (Some r)) (fun e =>
    if is_data_error e then Some (_quarantine_corrupt_unlocked name ;; mret None) else None).

Definition _safe_records_unlocked : M (list QueueRecord * list string * nat) :=
  there ← is_dir QUEUE;
  if there : bool then
    names ← listdir QUEUE;
    entries ← map_M scan_entry (filter (fun n => is_json_name n = true) names);
    let records := omap id entries in
    let bad := (length entries - length records)%nat in
    mret (merge_sort record_le records, replicate bad "corrupt-record", bad)
  else mret ([], [], 0%nat).

(** *** [enqueue] *)

(** What [enqueue] does with a record it coalesces into. *)
Definition coalesce_into (r : QueueRecord) (id : string) (final : bool) : M QueueReceipt :=
  match coalesced_ids r id final with
  | None =>
      mret (receipt (event_id r) CAPTURE_GAP true (Some (sequence r)) (is_final r) (gap "event-id-quota" true))
  | Some (ids, evicted) =>
      let updated := coalesced_record r ids id final in
      catch (
        _publish_record_unlocked updated ;;
        mret (if evicted then
                receipt (event_id updated) CAPTURE_GAP true (Some (sequence updated)) (is_final updated)
                  (gap "event-id-quota" true)
              else receipt (event_id updated) (state updated) true (Some (sequence updated)) (is_final updated) None))
        (fun e => match e with
         | EStorage _ kept =>
             Some (mret (receipt (event_id r) CAPTURE_GAP true (Some (sequence r)) (is_final r)
               (gap "publication-failed" (default true kept))))
         | _ => None
         end)
  end.

(** A new record for the event, within both quotas. *)
Definition enqueue_new (records : list QueueRecord) (id sid : string) (cp : checkpoint) (md : metadata)
    (st : QueueState) (final : bool) : M QueueReceipt :=
  if (max_events cfg <=? Z.of_nat (length records))%Z then
    mret (receipt id CAPTURE_GAP false None false (gap "queue-full" false))
  else
    current ← queue_bytes records;
    let r := new_record id sid cp md st QUEUED (next_sequence records) final in
    if (max_bytes cfg <? current + byte_len (json_content (QueueRecord_to_dict r)))%Z then
      mret (receipt id CAPTURE_GAP false None false (gap "queue-full" false))
    else
      catch (_publish_record_unlocked r ;; mret (receipt id st false (Some (sequence r)) final None))
        (fun e => match e with
         | EStorage _ kept =>
             Some (mret (receipt id CAPTURE_GAP false None false (gap "publication-failed" (default false kept))))
         | _ => None
         end).

(** The critical section of [_enqueue_authority]. *)
Definition enqueue_locked (id sid : string) (cp : checkpoint) (md : metadata) (st : QueueState)
    (final coalesce : bool) : M QueueReceipt :=
  _ensure_layout ;;
  scan ← _safe_records_unlocked;
  let records := scan.1.1 in
  let existing :=
    if coalesce then find (fun r => state_in (state r) waiting_states && same_key sid cp r) records else None in
  let event_owner := find (fun r => bool_decide (id ∈ event_ids r)) records in
  match event_owner with
  | Some r =>
      if String.eqb (event_id r) id then
        mret (if same_key sid cp r then receipt id (state r) false (Some (sequence r)) (is_final r) None
              else receipt id CAPTURE_GAP false None false (gap "event-id-conflict" true))
      else match existing with
           | Some r => coalesce_into r id final
           | None => enqueue_new records id sid cp md st final
           end
  | None =>
      match existing with
      | Some r => coalesce_into r id final
      | None => enqueue_new records id sid cp md st final
      end
  end.

Definition _enqueue_authority (event_id session_id checkpoint is_final metadata decision : pyobj)
    (lock_timeout : option pyobj) (coalesce : bool) : M QueueReceipt :=
  id ← lift (_identifier event_id);
  sid ← lift (_identifier session_id);
  cp ← lift (_validate_checkpoint checkpoint);
  md ← lift (_validate_metadata (or_empty metadata));
  final ← lift (match is_final with PBool b => Ok b | _ => Raise (EValue "final marker is invalid") end);
  lift (member_or_raise DECISIONS "policy decision is invalid" decision) ;;
  let st := match decision with PStr d => initial_state d | _ => QUEUED end in
  catch (with_lock lock_timeout (enqueue_locked id sid cp md st final coalesce))
    (fun e => match e with
     | EStorage code _ =>
         Some (mret (receipt id CAPTURE_GAP false None false
           (if String.eqb code "lock-timeout" then gap "lock-timeout" true else gap "storage-unavailable" false)))
     | EOS | ENotFound => Some (mret (receipt id CAPTURE_GAP false None false (gap "storage-unavailable" false)))
     | _ => None
     end).

(** [enqueue] and [pcc_enqueue.enqueue_trigger] *)
Definition enqueue_trigger (event_id session_id checkpoint is_final metadata decision : pyobj)
    (lock_timeout : option pyobj) (coalesce : bool) : M QueueReceipt :=
  _enqueue_authority event_id session_id checkpoint is_final metadata decision lock_timeout coalesce.
Definition enqueue (event_id session_id checkpoint is_final metadata decision : pyobj) (coalesce : bool)
    : M QueueReceipt :=
  enqueue_trigger event_id session_id checkpoint is_final metadata decision None coalesce.

(** *** Reading *)
Definition storage_unavailable {A} (m : M A) : M A :=
  catch m (fun e =>
    if is_storage_error e || is_os_error e then Some (raise (EStorage "storage-unavailable" None)) else None).

Definition inspect_record (event_id : pyobj) : M (option QueueRecord) :=
  id ← lift (_identifier event_id);
  storage_unavailable (with_lock None (
    _ensure_layout ;;
    there ← exists_node QUEUE (_path id);
    if there : bool then scan_entry (_path id) else mret None)).

(** A prepared record seen by [inspect]: its event, or [None] after quarantine. *)
Definition check_prepared (name : string) : M (option string) :=
  catch (body ← read_json PREPARED name; p ← load_prepared None body; mret (Some (prepared_event_id p)))
    (fun e => if is_data_error e then Some (_quarantine_unlocked name ;; mret None) else None).
(** A ciphertext file without a prepared record: moved away when it can be. *)
Definition check_ciphertext (name : string) : M unit :=
  catch (
    n ← read_node PREPARED name;
    guard (negb (from_option is_regular false n)) (EValue "prepared ciphertext is not regular") ;;
    _quarantine_unlocked name)
    (fun e => if is_os_error e || is_value_error e || is_storage_error e then Some (mret tt) else None).

Definition is_retained (w : world) (name : string) : bool :=
  from_option is_regular false (files w !! (QUARANTINE, name))
  && (startswith "corrupt-" name || startswith "prepared-" name).

Definition inspect_locked : M Inspection :=
  _ensure_layout ;;
  scan ← _safe_records_unlocked;
  w ← get;
  let partial := length (filter (fun n => startswith "." n = true)
                           (names_in QUEUE (files w) ++ names_in PREPARED (files w))) in
  names ← listdir PREPARED;
  checked ← map_M check_prepared (filter (fun n => is_json_name n = true) names);
  let ids := omap id checked in
  names ← listdir PREPARED;
  let orphans := filter (fun n => is_age_name n = true /\ py_stem n ∉ ids) names in
  for_each_M check_ciphertext orphans ;;
  w ← get;
  names ← listdir QUARANTINE;
  let records := scan.1.1 in
  let bad := (length checked - length ids)%nat in
  mret {| in_records := records;
          in_diagnostics := scan.1.2 ++ replicate bad "prepared-record-corrupt"
            ++ replicate (length orphans) "prepared-ciphertext-orphan"
            ++ (if existsb (is_retained w) names then ["corrupt-record"] else []);
          in_quarantined_count := scan.2 + bad + length orphans;
          in_partial_count := partial;
          in_orphan_prepared := merge_sort String.le
            (elements ((list_to_set ids : gset string) ∖ list_to_set (event_id <$> records))) |}.

Definition inspect_all : M Inspection :=
  catch (with_lock None inspect_locked) (fun e =>
    if is_storage_error e || is_os_error e then
      Some (mret {| in_records := []; in_diagnostics := ["storage-unavailable"]; in_quarantined_count := 0;
                    in_partial_count := 0; in_orphan_prepared := [] |})
    else None).

Definition inspect (event_id : option pyobj) : M Inspection :=
  match event_id with
  | None => inspect_all
  | Some id =>
      r ← inspect_record id;
      match r with
      | None =>
          all ← inspect_all;
          mret {| in_records := []; in_diagnostics := in_diagnostics all;
                  in_quarantined_count := in_quarantined_count all;
                  in_partial_count := in_partial_count all; in_orphan_prepared := in_orphan_prepared all |}
      | Some r =>
          mret {| in_records := [r]; in_diagnostics := []; in_quarantined_count := 0;
                  in_partial_count := 0; in_orphan_prepared := [] |}
      end
  end.

(** *** Leases *)

(** [_now] *)
Definition _now : M flt := fun w =>
  let v := clock (ticks w) in
  (raise_if (negb (_finite_number v) || num_ltb v 0) (EStorage "clock-invalid" None) ;; Ok (to_float v),
   next_tick w).

Definition _must_read_unlocked (id : string) : M QueueRecord :=
  catch (_read_record (_path id)) (fun e =>
    if bool_decide (e = ENotFound) then Some (raise (EOutbox "outbox record not found"))
    else if is_data_error e then Some (raise (EOutbox "outbox record is quarantined"))
    else None).
(** [_must_read_unlocked] on the argument of a public method: [_path] validates it. *)
Definition must_read (event_id : pyobj) : M QueueRecord :=
  id ← lift (_identifier event_id); _must_read_unlocked id.

Definition claim (owner : pyobj) : M (option QueueRecord) :=
  o ← lift (_identifier owner);
  with_lock None (
    _ensure_layout ;;
    scan ← _safe_records_unlocked;
    match find _claimable scan.1.1 with
    | None => mret None
    | Some r => now ← _now; Some <$> publish_and_return (claimed_record cfg r o now)
    end).

(** Whether a record's lease may be taken over at a time. *)
Definition lease_expired (r : QueueRecord) (now : flt) : bool :=
  match lease_until r with Some l => negb (SFltb now l) | None => false end.

Definition claim_specific (event_id own : pyobj) (takeover : pyobj) : M (option QueueRecord) :=
  id ← lift (_identifier event_id);
  o ← lift (_identifier own);
  take ← lift (match takeover with PBool b => Ok b | _ => Raise (EValue "takeover flag is invalid") end);
  with_lock None (
    _ensure_layout ;;
    r ← _must_read_unlocked id;
    if opt_none (owner r) && negb (_claimable r) then mret None
    else
      now ← _now;
      if _claimable r then Some <$> publish_and_return (claimed_record cfg r o now)
      else
        guard (negb take || negb (state_in (state r) owned_states) || opt_none (owner r)
               || negb (lease_expired r now)) ELeaseConflict ;;
        Some <$> publish_and_return (with_owner (Some o) (Some (fadd now (lease_seconds r))) r)).

Definition _require_claim (r : QueueRecord) (o : string) : M unit :=
  match lease_until r with
  | Some l =>
      if state_in (state r) owned_states && bool_decide (owner r = Some o) then
        now ← _now; guard (SFleb l now) ELeaseConflict
      else raise ELeaseConflict
  | None => raise ELeaseConflict
  end.

Definition renew (event_id own : pyobj) : M QueueRecord :=
  o ← lift (_identifier own);
  with_lock None (
    r ← must_read event_id;
    _require_claim r o ;;
    now ← _now;
    publish_and_return (with_owner (owner r) (Some (fadd now (lease_seconds r))) r)).

Definition takeover (event_id own : pyobj) : M QueueRecord :=
  o ← lift (_identifier own);
  with_lock None (
    r ← must_read event_id;
    (if state_in (state r) owned_states && negb (opt_none (owner r)) && negb (opt_none (lease_until r)) then
       now ← _now; guard (negb (lease_expired r now)) ELeaseConflict
     else raise ELeaseConflict) ;;
    now ← _now;
    publish_and_return (with_owner (Some o) (Some (fadd now (lease_seconds r))) r)).

(** *** [transition] and its public names *)
Definition transition_locked (event_id : pyobj) (o : string) (st : QueueState) (details : dict) : M QueueRecord :=
  r ← must_read event_id;
  settled ← lift (
    if state_in st [RETRYABLE_FAILURE; QUARANTINED] && state_is (state r) st then
      code ← reason_code details (state_value st); Ok (bool_decide (failure_code r = Some code))
    else Ok false);
  if (settled : bool) || (state_is (state r) COMMITTED && state_is st COMMITTED) then mret r
  else
    _require_claim r o ;;
    if state_is (state r) st then lift (transition_again r st details)
    else
      guard (negb (_next_state_valid r st)) EInvalidTransition ;;
      next ← lift (transitioned r st details);
      publish_and_return next.

Definition transition (event_id own st : pyobj) (details : dict) : M QueueRecord :=
  o ← lift (_identifier own);
  target ← lift (match QueueState_of st with Some s => Ok s | None => Raise EInvalidTransition end);
  with_lock None (transition_locked event_id o target details).

Definition to_state (event_id own : pyobj) (st : QueueState) (details : dict) : M QueueRecord :=
  transition event_id own (PStr (state_value st)) details.
Definition mark_uploaded (event_id own object_key ciphertext_size : pyobj) : M QueueRecord :=
  to_state event_id own OBJECT_UPLOADED
    (("object_key", object_key) :: if is_none ciphertext_size then [] else [("ciphertext_size", ciphertext_size)]).
Definition publish_index (event_id own index_id : pyobj) : M QueueRecord :=
  to_state event_id own INDEX_PUBLISHED [("index_id", index_id)].
Definition retry (event_id own reason : pyobj) : M QueueRecord :=
  to_state event_id own RETRYABLE_FAILURE [("reason_code", reason)].
Definition quarantine (event_id own reason : pyobj) : M QueueRecord :=
  to_state event_id own QUARANTINED [("reason_code", reason)].
Definition commit (event_id own : pyobj) : M QueueRecord := to_state event_id own COMMITTED [].

(** *** Prepared ciphertext *)

(** The claim check of both preparations: the record to answer when the work is
    already done, or the record to prepare. *)
Definition preparable (id : string) (own : pyobj) : M (QueueRecord * bool) :=
  r ← _must_read_unlocked id;
  o ← lift (_identifier own);
  _require_claim r o ;;
  if state_is (resume_state r) SOURCE_SNAPSHOTTED then mret (r, true)
  else
    guard (negb (state_in (resume_state r) [PREPARED_ENCRYPTED; OBJECT_UPLOADED; INDEX_PUBLISHED]))
      EInvalidTransition ;;
    mret (r, false).

Definition existing_prepared_size (name : string) : M Z :=
  n ← read_node PREPARED name;
  match n with
  | None => mret 0%Z
  | Some (Regular c _) => mret (byte_len c)
  | Some _ => raise (EStorage "prepared-record-corrupt" None)
  end.

(** The sizes both preparations compare with [max_bytes]: the queue with the
    updated record in place of the current one, and the prepared directory. *)
Definition queue_bytes_after (r updated : QueueRecord) : M Z :=
  scan ← _safe_records_unlocked;
  current ← queue_bytes scan.1.1;
  old ← stat_size QUEUE (_path (event_id r));
  mret (current - old + byte_len (json_content (QueueRecord_to_dict updated)))%Z.

Definition prepare_encrypted (event_id own : pyobj) (ciphertext : string) (metadata : pyobj) : M QueueRecord :=
  guard (_MAX_CIPHERTEXT_BYTES <? Z.of_nat (py_len ciphertext))%Z (EValue "ciphertext is invalid") ;;
  id ← lift (_identifier event_id);
  md ← lift (_validate_metadata (or_empty metadata));
  with_lock None (
    p ← preparable id own;
    let r := p.1 in
    if negb p.2 then mret r
    else
      let prepared := {| pr_event_id := id; pr_ciphertext := ciphertext; pr_metadata := md;
                         pr_ciphertext_sha256 := sha256 ciphertext;
                         pr_ciphertext_size := Z.of_nat (py_len ciphertext) |} in
      let updated := prepared_update r (pr_ciphertext_sha256 prepared) (pr_ciphertext_size prepared) in
      queued ← queue_bytes_after r updated;
      total ← _prepared_bytes_unlocked;
      existing ← existing_prepared_size (json_name id);
      if (max_bytes cfg <? queued + total - existing
            + byte_len (json_content (PreparedRecord_to_dict prepared)))%Z
      then publish_and_return (quota_gap r)
      else
        PreparedOutbox._publish_unlocked prepared ;;
        publish_and_return updated).

(** The ciphertext file given by path. *)
Definition ciphertext_file (src : string * string) : M content :=
  n ← read_node src.1 src.2;
  match n with
  | None => raise (EStorage "prepared-record-unavailable" None)
  | Some (Regular c true) =>
      guard (_MAX_CIPHERTEXT_BYTES <? byte_len c)%Z (EValue "ciphertext file is too large") ;; mret c
  | Some (Regular _ false) => raise (EValue "ciphertext file is not private")
  | Some _ => raise (EValue "ciphertext file is invalid")
  end.

Definition prepare_encrypted_file (event_id own : pyobj) (src : string * string) (metadata : pyobj)
    : M QueueRecord :=
  id ← lift (_identifier event_id);
  md ← lift (_validate_metadata (or_empty metadata));
  guard (bool_decide (is_Some (md !! "content_sha256")) || bool_decide (is_Some (md !! "content_size")))
    (EValue "file-backed prepared metadata cannot contain plaintext identity") ;;
  c ← ciphertext_file src;
  prepared ← lift (PreparedFileRecord_init (PStr id) (PStr (age_name id)) md
                     (PStr (sha256 (bytes c))) (PInt (byte_len c)));
  with_lock None (
    p ← preparable id own;
    let r := p.1 in
    if negb p.2 then mret r
    else
      let updated := prepared_update r (pf_ciphertext_sha256 prepared) (pf_ciphertext_size prepared) in
      queued ← queue_bytes_after r updated;
      total ← _prepared_bytes_unlocked;
      if (max_bytes cfg <? queued + total + byte_len c
            + byte_len (json_content (PreparedFileRecord_to_dict prepared)))%Z
      then publish_and_return (quota_gap r)
      else
        PreparedOutbox._publish_file_unlocked prepared src ;;
        publish_and_return updated).

Definition _require_prepared_publication_unlocked (r : QueueRecord) : M unit :=
  ps ← PreparedOutbox._records_unlocked;
  match ps !! event_id r with
  | None => raise (EStorage "prepared-record-unavailable" (Some true))
  | Some p =>
      guard (negb (bool_decide (Some (prepared_sha256 p) = ciphertext_sha256 r))
             || negb (bool_decide (Some (prepared_size p) = ciphertext_size r)))
        (EStorage "prepared-record-conflict" (Some true))
  end.

Definition release (event_id own : pyobj) : M QueueRecord :=
  id ← lift (_identifier event_id);
  o ← lift (_identifier own);
  with_lock None (
    r ← _must_read_unlocked id;
    if opt_none (owner r) then
      guard (negb (state_is (state r) PREPARED_ENCRYPTED) || negb (state_is (resume_state r) PREPARED_ENCRYPTED))
        ELeaseConflict ;;
      _require_prepared_publication_unlocked r ;;
      mret r
    else
      _require_claim r o ;;
      guard (negb (state_in (state r) [CLAIMED; PREPARED_ENCRYPTED])
             || negb (state_is (resume_state r) PREPARED_ENCRYPTED)) EInvalidTransition ;;
      _require_prepared_publication_unlocked r ;;
      publish_and_return (with_owner None None (with_state PREPARED_ENCRYPTED r))).

(** The prepared record [reconcile_prepared] reattaches. *)
Definition read_prepared_for (id : string) : M prepared :=
  let name := json_name id in
  p ← catch (body ← read_json PREPARED name; load_prepared (Some id) body) (fun e =>
        if bool_decide (e = ENotFound) then Some (raise (EOutbox "prepared record not found"))
        else if is_data_error e then
          Some (_quarantine_unlocked name ;; raise (EStorage "prepared-record-corrupt" None))
        else None);
  if String.eqb (prepared_event_id p) id then mret p
  else _quarantine_unlocked name ;; raise (EStorage "prepared-record-corrupt" None).

Definition reattached (r : QueueRecord) (id : string) (p : prepared) (md : metadata) (final : bool) : QueueRecord :=
  with_ciphertext (Some (prepared_sha256 p)) (Some (prepared_size p))
    (with_events (event_ids r) (is_final r || final)
       (match final_event_id r with Some f => Some f | None => if final then Some id else None end)
    (with_metadata md (with_resume PREPARED_ENCRYPTED (with_state PREPARED_ENCRYPTED r)))).

Definition reconcile_existing (r : QueueRecord) (id : string) (p : prepared) (md : metadata) (final : bool)
    : M QueueRecord :=
  stale ← (match owner r with
           | None => mret false
           | Some _ =>
               match lease_until r with
               | Some l => now ← _now; guard (SFltb now l) ELeaseConflict ;; mret true
               | None => mret true
               end
           end);
  let r := if stale : bool then with_owner None None r else r in
  if state_in (resume_state r) [PREPARED_ENCRYPTED; OBJECT_UPLOADED; INDEX_PUBLISHED]
     || state_is (state r) COMMITTED
  then when stale (_publish_record_unlocked r) ;; mret r
  else publish_and_return (reattached r id p md final).

Definition reconcile_new (records : list QueueRecord) (id sid : string) (cp : checkpoint) (p : prepared)
    (md : metadata) (final : bool) : M QueueRecord :=
  guard (max_events cfg <=? Z.of_nat (length records))%Z (EStorage "queue-full" None) ;;
  let r := with_ciphertext (Some (prepared_sha256 p)) (Some (prepared_size p))
             (new_record id sid cp md PREPARED_ENCRYPTED PREPARED_ENCRYPTED (next_sequence records) final) in
  current ← queue_bytes records;
  total ← _prepared_bytes_unlocked;
  guard (max_bytes cfg <? current + byte_len (json_content (QueueRecord_to_dict r)) + total)%Z
    (EStorage "queue-full" None) ;;
  publish_and_return r.

Definition reconcile_prepared (eid session_id checkpoint metadata is_final : pyobj) : M QueueRecord :=
  id ← lift (_identifier eid);
  sid ← lift (_identifier session_id);
  cp ← lift (_validate_checkpoint checkpoint);
  requested ← lift (_validate_metadata (or_empty metadata));
  final ← lift (match is_final with PBool b => Ok b | _ => Raise (EValue "final marker is invalid") end);
  with_lock None (
    _ensure_layout ;;
    p ← read_prepared_for id;
    scan ← _safe_records_unlocked;
    let records := scan.1.1 in
    md ← lift (_validate_metadata (metadata_dict (requested ∪ prepared_metadata p)));
    match find (fun r => String.eqb (event_id r) id) records with
    | Some r => reconcile_existing r id p md final
    | None => reconcile_new records id sid cp p md final
    end).

(** *** Expansion, receipts and operator actions *)

(** The children of [expand]: a non-empty sequence of distinct identifiers, no string. *)
Definition read_children (v : pyobj) : result (list string) :=
  match v with
  | PStr _ => Raise (EValue "expanded event ids are invalid")
  | _ =>
      raise_if (negb (py_bool v)) (EValue "expanded event ids are invalid") ;;
      items ← py_tuple v;
      children ← map_result _identifier items;
      raise_if ((_MAX_EVENT_IDS <? length children)%nat || negb (bool_decide (NoDup children)))
        (EValue "expanded event ids are invalid") ;;
      Ok children
  end.

Definition expanded_record (r : QueueRecord) (children : list string) (cp : expanded_checkpoint) : QueueRecord :=
  with_expansion children (Some cp) (with_failure None (with_owner None None
    (with_resume TRIGGER_EXPANDED (with_state TRIGGER_EXPANDED r)))).

Definition expand (event_id own child_event_ids checkpoint : pyobj) : M QueueRecord :=
  id ← lift (_identifier event_id);
  o ← lift (_identifier own);
  children ← lift (read_children child_event_ids);
  cp ← lift (_validate_expanded_checkpoint checkpoint);
  with_lock None (
    r ← _must_read_unlocked id;
    if state_is (state r) TRIGGER_EXPANDED then
      guard (negb (bool_decide (expanded_event_ids r = children))
             || negb (bool_decide (qr_expanded_checkpoint r = Some cp))) EInvalidTransition ;;
      mret r
    else
      _require_claim r o ;;
      guard (negb (state_in (state r) [CLAIMED; SOURCE_SNAPSHOTTED])) EInvalidTransition ;;
      publish_and_return (expanded_record r children cp)).

Definition prepared_path (event_id : pyobj) : M (string * string) :=
  id ← lift (_identifier event_id);
  p ← PreparedOutbox.inspect_record (PStr id);
  match p with
  | Some (Beside r) =>
      there ← regular_at (PREPARED, pf_ciphertext_file r);
      guard (negb there) (EOutbox "prepared ciphertext unavailable") ;;
      mret (PREPARED, pf_ciphertext_file r)
  | _ => raise (EOutbox "prepared ciphertext unavailable")
  end.

Definition discard_body (id : string) : pyobj :=
  PDict [("event_id", PStr id); ("kind", PStr "operator-discard"); ("discarded", PBool true);
         ("evidence_deleted", PBool false)].
Definition discard_receipt (event_id : pyobj) : M pyobj :=
  id ← lift (_identifier event_id);
  with_lock None (
    _ensure_layout ;;
    let name := id +:+ ".discard.json" in
    n ← read_node RECEIPTS name;
    match n with
    | Some (Regular c _) =>
        match decoded c with
        | Some (PDict d) => mret (PDict d)
        | _ => raise (EStorage "receipt-corrupt" None)
        end
    | _ => publish_json RECEIPTS name (discard_body id) ;; mret (discard_body id)
    end).

Definition quarantine_operator (event_id reason : pyobj) : M QueueRecord :=
  id ← lift (_identifier event_id);
  code ← lift (_identifier reason);
  with_lock None (
    _ensure_layout ;;
    r ← _must_read_unlocked id;
    guard (negb (state_is (state r) POLICY_DENIED)) EInvalidTransition ;;
    publish_and_return (with_failure (Some code) (with_state QUARANTINED r))).
End pcc_outbox.
