(* ===== verification/RecordProps.v ===== *)
(** * Persisted records: well-formedness and round trips

    The validators accept their own results, so a record that was read can be
    written and read again, and the fields of a record that was read satisfy
    [record_wf]. *)

From S2P Require Import Prelude PyStr PyObj Base64 OutboxData.
From Stdlib Require Import SpecFloat.

(** ** Validators are idempotent *)
Lemma _identifier_Ok v s : _identifier v = Ok s <-> v = PStr s /\ fullmatch _IDENTIFIER s = true.
Proof.
  unfold _identifier. split.
  - destruct v; try done. case_match; [intros [= <-] | ]; done.
  - by intros [-> ->].
Qed.

Lemma checkpoint_fields_again d d' c :
  checkpoint_fields d = Ok c ->
  (forall k, k ∈ CHECKPOINT_FIELDS -> get_item k d' = get_item k (checkpoint_body c)) ->
  checkpoint_fields d' = Ok c.
Proof.
  unfold checkpoint_fields. intros H Hd. inv_ok.
  rewrite !Hd by (unfold CHECKPOINT_FIELDS; set_solver).
  repeat match goal with H : _identifier _ = Ok _ |- _ => apply _identifier_Ok in H as [-> H] end.
  simpl. run_eqs. done.
Qed.

Definition checkpoint_ok (c : checkpoint) : Prop := _validate_checkpoint (checkpoint_dict c) = Ok c.

Lemma _validate_checkpoint_ok v c : _validate_checkpoint v = Ok c -> checkpoint_ok c.
Proof.
  unfold checkpoint_ok, _validate_checkpoint. destruct v as [| | | | | |d]; try done. intros H. inv_result.
  unfold checkpoint_dict. change (keys_are CHECKPOINT_FIELDS (checkpoint_body c)) with true.
  simpl. by eapply checkpoint_fields_again.
Qed.

Lemma checkpoint_ok_fields c : checkpoint_ok c -> checkpoint_fields (checkpoint_body c) = Ok c.
Proof. unfold checkpoint_ok, _validate_checkpoint. intros H. simpl in H. by inv_result. Qed.

Definition expanded_checkpoint_ok (x : expanded_checkpoint) : Prop :=
  _validate_expanded_checkpoint (expanded_checkpoint_dict x) = Ok x.

Lemma get_item_app {V} k (d d' : list (string * V)) : k ∈ d.*1 -> get_item k (d ++ d') = get_item k d.
Proof.
  unfold get_item. intros Hk. replace (dict_get k (d ++ d')) with (dict_get k d); [done|]. revert Hk. induction d as [|[k' v] d IH]; csimpl.
  - by intros ?%not_elem_of_nil.
  - intros [->|Hk]%elem_of_cons; [by rewrite bool_decide_true | case_bool_decide; [done | auto]].
Qed.

Lemma _validate_expanded_checkpoint_ok v x : _validate_expanded_checkpoint v = Ok x -> expanded_checkpoint_ok x.
Proof.
  unfold expanded_checkpoint_ok, _validate_expanded_checkpoint. destruct v as [| | | | | |d]; try done.
  destruct (keys_are CHECKPOINT_FIELDS d); intros H; inv_ok; unfold expanded_checkpoint_dict; cbn [xc_base xc_cursor].
  - apply _validate_checkpoint_ok in H0. rewrite app_nil_r.
    change (keys_are CHECKPOINT_FIELDS (checkpoint_body x0)) with true. cbv iota. 
    fold (checkpoint_dict x0). by rewrite H0.
  - match goal with H : checkpoint_fields d = Ok ?b |- _ =>
      assert (forall tl, checkpoint_fields (checkpoint_body b ++ tl) = Ok b) as Hb
    end.
    { intros tl. eapply checkpoint_fields_again; [eassumption|]. intros k Hk. by apply get_item_app. }
    rewrite Hb. bools. simpl. rewrite Z.eqb_eq in *. subst.
    rewrite !(proj2 (Z.ltb_ge _ _)) by lia. rewrite Z.eqb_refl. simpl.
    match goal with H : negb (is_none ?v) && _ = false |- _ => destruct v; try discriminate H; simpl in *; [done |] end.
    by run_eqs.
Qed.

(** ** Public metadata *)
Section metadata.
Context `{PyRuntime}.

Definition metadata_ok (m : metadata) : Prop := _validate_metadata (metadata_dict m) = Ok m.

Lemma metadata_entries_kept d l k v :
  metadata_entries d = Ok l -> (k, v) ∈ l -> (k, v) ∈ d /\ metadata_entry k v = Ok true.
Proof.
  revert l. induction d as [|[k' v'] d IH]; simpl; intros l H0; [injection H0 as <-; by intros ?%not_elem_of_nil |].
  intros Hin. inv_ok.
  assert ((k, v) ∈ x0 -> (k, v) ∈ (k', v') :: d /\ metadata_entry k v = Ok true) as Hx.
  { intros Hin'. destruct (IH _ H2 Hin'). split; [by right | done]. }
  destruct x; [apply elem_of_cons in Hin as [[= -> ->]|Hin]; [split; [by left | done] |] |]; auto.
Qed.

Lemma metadata_entries_all d :
  (forall k v, (k, v) ∈ d -> metadata_entry k v = Ok true) -> metadata_entries d = Ok d.
Proof.
  induction d as [|[k v] d IH]; intros Hd; simpl; [done |].
  rewrite (Hd k v) by left. simpl. rewrite IH by (intros; apply Hd; by right). done.
Qed.

Lemma _validate_metadata_ok v m : _validate_metadata v = Ok m -> metadata_ok m.
Proof.
  unfold metadata_ok, _validate_metadata. destruct v as [| | | | | |d]; try done. intros H0.
  inv_result. unfold metadata_dict at 1.
  match goal with H : metadata_entries d = Ok ?l |- _ => set (m := list_to_map l : metadata) in *; rename H into He end.
  assert (forall k v, (k, v) ∈ map_to_list m -> (k, v) ∈ d /\ metadata_entry k v = Ok true) as Hm.
  { intros k v Hin%elem_of_map_to_list. eapply metadata_entries_kept; [done |].
    by eapply elem_of_list_to_map_2. }
  rewrite metadata_entries_all by apply Hm. rewrite bind_Ok, list_to_map_to_list. cbv zeta.
  match goal with H : (_ <? _)%Z = false |- _ => rewrite H end.
  match goal with H : negb (keys_within _ d) = false |- _ => apply negb_false_iff in H; rename H into Hk end.
  unfold keys_within in *. rewrite (proj2 (forallb_forall _ _)); [done |].
  intros k Hin. apply list_elem_of_In, list_elem_of_fmap in Hin as ([k' v] & -> & Hin). apply Hm in Hin as [Hin _].
  rewrite forallb_forall in Hk. apply Hk, list_elem_of_In, list_elem_of_fmap. by exists (k', v).
Qed.
End metadata.

(** ** Queue records *)
Definition is_identifier (s : string) : bool := fullmatch _IDENTIFIER s.
Definition opt_all {A} (p : A -> bool) (o : option A) : bool := match o with Some a => p a | None => true end.

(** A lease that is finite and not negative. *)
Definition lease_ok (l : flt) : bool := f_is_finite l && negb (SFltb l (f_of_Z 0)).
Definition size_ok (n : Z) : bool := ((0 <=? n) && (n <=? _MAX_CIPHERTEXT_BYTES))%Z.

Section records.
Context `{PyRuntime}.

Record record_wf (r : QueueRecord) : Prop := {
  wf_event_id : is_identifier (event_id r) = true;
  wf_session_id : is_identifier (session_id r) = true;
  wf_checkpoint : checkpoint_ok (qr_checkpoint r);
  wf_metadata : metadata_ok (qr_metadata r);
  wf_sequence : (1 <= sequence r)%Z;
  wf_event_ids : Forall (fun i => is_identifier i = true) (event_ids r);
  wf_event_ids_length : length (event_ids r) <= _MAX_EVENT_IDS;
  wf_event_ids_distinct : NoDup (event_ids r);
  wf_final_event_id : opt_all is_identifier (final_event_id r) = true;
  wf_owner : opt_all is_identifier (owner r) = true;
  wf_lease : opt_all lease_ok (lease_until r) = true;
  wf_lease_seconds : lease_duration_ok (PFloat (lease_seconds r)) = true;
  wf_failure_code : opt_all is_identifier (failure_code r) = true;
  wf_object_key : opt_all object_key_ok (object_key r) = true;
  wf_ciphertext_sha256 : opt_all (fullmatch _DIGEST) (ciphertext_sha256 r) = true;
  wf_ciphertext_size : opt_all size_ok (ciphertext_size r) = true;
  wf_index_id : opt_all is_identifier (index_id r) = true;
  wf_checks : record_checks r = Ok tt;
  wf_expanded_ids : Forall (fun i => is_identifier i = true) (expanded_event_ids r);
  wf_expanded_length : length (expanded_event_ids r) <= _MAX_EVENT_IDS;
  wf_expanded_checkpoint : match qr_expanded_checkpoint r with Some x => expanded_checkpoint_ok x | None => True end;
}.

Lemma identifier_list_Some l ids :
  identifier_list l = Some ids <-> l = PStr <$> ids /\ Forall (fun i => is_identifier i = true) ids.
Proof.
  unfold identifier_list. rewrite mapM_Some. split.
  - induction 1 as [|v i l ids Hv _ [-> IH]]; [by split; [|constructor] |].
    destruct v; try discriminate Hv. case_match eqn:E; [|discriminate Hv]. injection Hv as ->.
    split; [done | by constructor].
  - intros [-> Hf]. induction Hf as [|i ids Hi _ IH]; csimpl; constructor; [|done].
    unfold is_identifier in Hi. by rewrite Hi.
Qed.

Lemma identifier_ok s : is_identifier s = true -> _identifier (PStr s) = Ok s.
Proof. unfold is_identifier. intros Hs. simpl. by rewrite Hs. Qed.

Lemma optional_id_ok o : opt_all is_identifier o = true -> optional_id (opt_str o) = Ok o.
Proof. destruct o; simpl; [|done]. intros Hs. unfold is_identifier in Hs. by rewrite Hs. Qed.

Lemma read_event_ids_ok ids :
  ids ≠ [] -> Forall (fun i => is_identifier i = true) ids -> length ids <= _MAX_EVENT_IDS -> NoDup ids ->
  read_event_ids (PList (PStr <$> ids)) = Ok ids.
Proof.
  intros Hne Hid Hlen Hnd. unfold read_event_ids.
  rewrite (proj2 (identifier_list_Some _ ids)) by done.
  rewrite (bool_decide_true (NoDup ids)) by done. rewrite (proj2 (Nat.ltb_ge _ _)) by (destruct ids; simpl in *; [done|lia]).
  rewrite (proj2 (Nat.ltb_ge _ _)) by done. done.
Qed.

Lemma as_str_opt o : as_str (opt_str o) = o.
Proof. by destruct o. Qed.

Lemma final_event_ok o :
  opt_all is_identifier o = true -> negb (is_none (opt_str o)) && negb (str_matches _IDENTIFIER (opt_str o)) = false.
Proof. destruct o as [s|]; [|done]. intros Hs. unfold is_identifier in Hs. simpl in *. by rewrite Hs. Qed.

Lemma read_lease_ok o : opt_all lease_ok o = true -> read_lease (opt_float o) = Ok o.
Proof.
  destruct o as [f|]; [|done]. cbn [opt_all]. unfold lease_ok. intros [Hf Hn]%andb_true_iff.
  cbn [opt_float read_lease]. unfold _finite_number, finite_number, num_ltb, to_float.
  by rewrite Hf, (proj1 (negb_true_iff _) Hn).
Qed.

Lemma read_object_key_ok o : opt_all object_key_ok o = true -> read_object_key (opt_str o) = Ok o.
Proof. destruct o; simpl; [|done]. by intros ->. Qed.

Lemma read_digest_ok o : opt_all (fullmatch _DIGEST) o = true -> read_digest (opt_str o) = Ok o.
Proof. destruct o; simpl; [|done]. by intros ->. Qed.

Lemma read_size_ok o : opt_all size_ok o = true -> read_size (opt_int o) = Ok o.
Proof. destruct o; simpl; [|done]. unfold size_ok. by intros ->. Qed.

Lemma expanded_opt_ok o :
  match o with Some x => expanded_checkpoint_ok x | None => True end ->
  match from_option expanded_checkpoint_dict PNone o with
  | PNone => Ok None
  | v => x ← _validate_expanded_checkpoint v; Ok (Some x)
  end = Ok o.
Proof. destruct o as [x|]; [|done]. unfold expanded_checkpoint_ok. intros Hx. cbn [from_option].
  unfold expanded_checkpoint_dict at 1. fold (expanded_checkpoint_dict x). by rewrite Hx.
Qed.

Lemma record_checks_primary r : record_checks r = Ok tt -> event_id r ∈ event_ids r.
Proof. unfold record_checks. intros H0. inv_result. by bools. Qed.

(** Writing a well-formed record and reading it back gives the record. *)
Lemma from_dict_to_dict r : record_wf r -> QueueRecord_from_dict (QueueRecord_to_dict r) = Ok r.
Proof.
  intros [].
  assert (event_ids r ≠ []) as Hne.
  { apply record_checks_primary in wf_checks0. by destruct (event_ids r); [apply not_elem_of_nil in wf_checks0|]. }
  assert (QueueState_of (PStr (state_value (state r))) = Some (state r)) as Hst by (by destruct (state r)).
  assert (QueueState_of (PStr (state_value (resume_state r))) = Some (resume_state r)) as Hrs
    by (by destruct (resume_state r)).
  unfold QueueRecord_from_dict, QueueRecord_to_dict.
  match goal with |- context [get_item "event_id" ?l] => set (d := l) end.
  assert (forall k v, dict_get k d = Some v -> get_item k d = Ok v) as Hi by (intros ? ?; apply get_item_Ok).
  change (has_keys RECORD_REQUIRED d) with true. change (keys_within (RECORD_REQUIRED ++ RECORD_OPTIONAL) d) with true.
  rewrite (Hi "event_id" _ eq_refl), (Hi "session_id" _ eq_refl), (Hi "checkpoint" _ eq_refl),
    (Hi "metadata" _ eq_refl), (Hi "state" _ eq_refl), (Hi "resume_state" _ eq_refl), (Hi "sequence" _ eq_refl),
    (Hi "event_ids" _ eq_refl), (Hi "is_final" _ eq_refl), (Hi "final_event_id" _ eq_refl), (Hi "owner" _ eq_refl),
    (Hi "lease_until" _ eq_refl), (Hi "lease_seconds" _ eq_refl), (Hi "failure_code" _ eq_refl),
    (Hi "object_key" _ eq_refl), (Hi "ciphertext_sha256" _ eq_refl), (Hi "ciphertext_size" _ eq_refl),
    (Hi "index_id" _ eq_refl).
  change (dict_get "expanded_event_ids" d) with (Some (PList (PStr <$> expanded_event_ids r))).
  change (get_or_none "expanded_checkpoint" d) with (from_option expanded_checkpoint_dict PNone (qr_expanded_checkpoint r)).
  cbn [negb orb raise_if]. rewrite !bind_Ok. 
  rewrite !identifier_ok, !bind_Ok by done. unfold checkpoint_ok, metadata_ok in *.
  rewrite wf_checkpoint0, bind_Ok, wf_metadata0, !bind_Ok, Hst, Hrs, bind_Ok. cbn [as_int]. rewrite (proj2 (Z.ltb_ge _ _)) by done. cbn [raise_if]. rewrite bind_Ok.
  rewrite read_event_ids_ok, !bind_Ok by done. cbn [as_bool]. rewrite bind_Ok, final_event_ok by done.
  cbn [raise_if]. rewrite bind_Ok, (optional_id_ok (owner r)), bind_Ok, read_lease_ok, !bind_Ok, wf_lease_seconds0 by done.
  cbn [negb raise_if].
  rewrite bind_Ok, (optional_id_ok (failure_code r)), bind_Ok, read_object_key_ok, bind_Ok, read_digest_ok, bind_Ok,
    read_size_ok, bind_Ok, (optional_id_ok (index_id r)), bind_Ok by done.
  rewrite as_str_opt. match goal with |- context [record_checks ?x] =>
    replace (record_checks x) with (record_checks r) by (by destruct r) end.
  rewrite wf_checks0, bind_Ok. change (default (PList []) (Some (PList (PStr <$> expanded_event_ids r)))) with (PList (PStr <$> expanded_event_ids r)); cbn [py_tuple]. rewrite bind_Ok.
  rewrite (proj2 (identifier_list_Some _ (expanded_event_ids r))), (proj2 (Nat.ltb_ge _ _)) by done.
  cbn [raise_if]. rewrite bind_Ok, expanded_opt_ok, bind_Ok by done. by destruct r.
Qed.

(** *** What was read is well-formed *)
Lemma optional_id_inv v o : optional_id v = Ok o -> opt_all is_identifier o = true.
Proof.
  unfold optional_id. intros H0. destruct v; inv_ok; try done.
  match goal with H : _identifier _ = Ok _ |- _ => by apply _identifier_Ok in H as [_ H] end.
Qed.

Lemma nonneg_not_below z : (0 <= z)%Z -> SFltb (f_of_Z z) (f_of_Z 0) = false.
Proof.
  intros Hz. destruct z as [|p|p]; [done | | lia].
  unfold f_of_Z, binary_normalize, binary_round, binary_round_aux.
  repeat case_match; simplify_eq/=; done.
Qed.

Lemma read_lease_inv v o : read_lease v = Ok o -> opt_all lease_ok o = true.
Proof.
  unfold read_lease. intros H0.
  destruct v; inv_ok; try done; bools; simpl; unfold lease_ok.
  - match goal with H : _finite_number _ = true |- _ => change (f_is_finite (f_of_Z z) = true) in H; rewrite H end.
    rewrite nonneg_not_below; [done |]. match goal with H : num_ltb _ _ = false |- _ => simpl in H; by apply Z.ltb_ge end.
  - match goal with H : _finite_number _ = true |- _ => change (f_is_finite f = true) in H; rewrite H end.
    match goal with H : num_ltb _ _ = false |- _ => unfold num_ltb in H; by rewrite H end.
Qed.

Fixpoint all_from (p : Z -> bool) (n : nat) (z : Z) : bool :=
  match n with 0%nat => true | S n => p z && all_from p n (z + 1) end.
Lemma all_from_spec p n z : all_from p n z = true -> forall x, (z <= x < z + Z.of_nat n)%Z -> p x = true.
Proof.
  revert z. induction n as [|n IH]; intros z; simpl; [lia |]. intros [Hz Hn]%andb_true_iff x Hx.
  destruct (Z.eq_dec x z) as [->|]; [done | apply (IH _ Hn); lia].
Qed.

(** The integer durations, checked one by one. *)
Lemma integer_duration z : (0 < z <= 86400)%Z -> lease_duration_ok (PFloat (f_of_Z z)) = true.
Proof.
  intros Hz. apply (all_from_spec (fun z => lease_duration_ok (PFloat (f_of_Z z))) (Z.to_nat 86400) 1); [|lia].
  vm_compute. reflexivity.
Qed.

Lemma lease_duration_inv v : lease_duration_ok v = true -> lease_duration_ok (PFloat (to_float v)) = true.
Proof.
  intros Hv. destruct v; try done. apply integer_duration.
  unfold lease_duration_ok, num_gtb, num_leb in Hv. bools. lia.
Qed.

Lemma read_event_ids_inv v ids :
  read_event_ids v = Ok ids ->
  Forall (fun i => is_identifier i = true) ids /\ length ids <= _MAX_EVENT_IDS /\ NoDup ids.
Proof.
  unfold read_event_ids. intros H0. destruct v; inv_ok. bools.
  match goal with H : identifier_list _ = Some _ |- _ => apply identifier_list_Some in H as [_ H] end.
  split; [done | split; [by apply Nat.ltb_ge | done]].
Qed.

Lemma read_object_key_inv v o : read_object_key v = Ok o -> opt_all object_key_ok o = true.
Proof. unfold read_object_key. intros H0. destruct v; inv_ok; try done. by bools. Qed.
Lemma read_digest_inv v o : read_digest v = Ok o -> opt_all (fullmatch _DIGEST) o = true.
Proof. unfold read_digest. intros H0. destruct v; inv_ok; try done. by bools. Qed.
Lemma read_size_inv v o : read_size v = Ok o -> opt_all size_ok o = true.
Proof. unfold read_size. intros H0. destruct v; inv_ok; try done. by match goal with H : negb _ = false |- _ => apply negb_false_iff in H end. Qed.

Lemma final_event_inv v :
  negb (is_none v) && negb (str_matches _IDENTIFIER v) = false -> opt_all is_identifier (as_str v) = true.
Proof. destruct v; simpl; try done. intros Hs. by apply negb_false_iff in Hs. Qed.

Lemma _identifier_inv v s : _identifier v = Ok s -> is_identifier s = true.
Proof. intros H0. by apply _identifier_Ok in H0 as [_ H0]. Qed.

#[local] Hint Resolve _identifier_inv _validate_checkpoint_ok _validate_metadata_ok _validate_expanded_checkpoint_ok
  optional_id_inv read_lease_inv lease_duration_inv read_object_key_inv read_digest_inv read_size_inv
  final_event_inv : core.

Lemma record_from_dict_wf v r : QueueRecord_from_dict v = Ok r -> record_wf r.
Proof.
  unfold QueueRecord_from_dict. intros H0. inv_ok.
  all: match goal with H : read_event_ids _ = Ok _ |- _ => apply read_event_ids_inv in H as (? & ? & ?) end.
  all: match goal with H : identifier_list _ = Some _ |- _ => apply identifier_list_Some in H as [_ ?] end.
  all: repeat match goal with H : negb (lease_duration_ok _) = false |- _ => apply negb_false_iff in H end.
  all: constructor; simpl; eauto; try by apply Z.ltb_ge. all: try by apply Nat.ltb_ge.
Qed.

(** A record that was read reads back after it is written. *)
Lemma read_write_read v r :
  QueueRecord_from_dict v = Ok r -> QueueRecord_from_dict (QueueRecord_to_dict r) = Ok r.
Proof. intros H0%record_from_dict_wf. by apply from_dict_to_dict. Qed.
End records.

(** ** Prepared records *)
Section prepared.
Context `{PyRuntime}.
Hypothesis sha256_hex : forall s, fullmatch _DIGEST (sha256 s) = true.

(** The record [prepare_encrypted] builds for a ciphertext. *)
Definition sealed (id : string) (ciphertext : string) (md : metadata) : PreparedRecord :=
  {| pr_event_id := id; pr_ciphertext := ciphertext; pr_metadata := md;
     pr_ciphertext_sha256 := sha256 ciphertext; pr_ciphertext_size := Z.of_nat (py_len ciphertext) |}.

Lemma encoded_bound n : (Z.of_nat n <= _MAX_CIPHERTEXT_BYTES)%Z ->
  ((_MAX_CIPHERTEXT_BYTES + 2) / 3 * 4 <? Z.of_nat ((n + 2) / 3 * 4))%Z = false.
Proof.
  intros Hn. apply Z.ltb_ge. rewrite Nat2Z.inj_mul, Nat2Z.inj_div, Nat2Z.inj_add.
  change (Z.of_nat 2) with 2%Z. change (Z.of_nat 3) with 3%Z. change (Z.of_nat 4) with 4%Z.
  apply Z.mul_le_mono_nonneg_r; [lia |]. apply Z.div_le_mono; lia.
Qed.

Lemma PreparedRecord_roundtrip id ciphertext md :
  is_identifier id = true -> metadata_ok md -> (Z.of_nat (py_len ciphertext) <= _MAX_CIPHERTEXT_BYTES)%Z ->
  PreparedRecord_from_dict (PreparedRecord_to_dict (sealed id ciphertext md)) = Ok (sealed id ciphertext md).
Proof.
  intros Hid Hmd Hlen. unfold PreparedRecord_from_dict, PreparedRecord_to_dict.
  match goal with |- context [get_item "event_id" ?l] => set (d := l) end.
  assert (forall k v, dict_get k d = Some v -> get_item k d = Ok v) as Hi by (intros ? ?; apply get_item_Ok).
  change (keys_are PREPARED_FIELDS d) with true.
  rewrite (Hi "event_id" _ eq_refl), (Hi "ciphertext_b64" _ eq_refl), (Hi "ciphertext_sha256" _ eq_refl),
    (Hi "ciphertext_size" _ eq_refl), (Hi "metadata" _ eq_refl).
  cbn [negb raise_if sealed pr_event_id pr_ciphertext pr_metadata pr_ciphertext_sha256 pr_ciphertext_size].
  rewrite !bind_Ok, identifier_ok, !bind_Ok, b64encode_length, encoded_bound, b64decode_encode by done.
  cbn [raise_if]. rewrite !bind_Ok, sha256_hex, Z.eqb_refl, String.eqb_refl. cbn [negb orb raise_if].
  unfold metadata_ok in Hmd. by rewrite bind_Ok, Hmd.
Qed.

Record prepared_file_wf (r : PreparedFileRecord) : Prop := {
  pfw_event_id : is_identifier (pf_event_id r) = true;
  pfw_file : pf_ciphertext_file r = pf_event_id r +:+ ".age";
  pfw_metadata : metadata_ok (pf_metadata r);
  pfw_public : pf_metadata r !! "content_sha256" = None /\ pf_metadata r !! "content_size" = None;
  pfw_digest : fullmatch _DIGEST (pf_ciphertext_sha256 r) = true;
  pfw_size : size_ok (pf_ciphertext_size r) = true;
}.

Lemma PreparedFileRecord_init_inv id file md digest size r :
  metadata_ok md -> PreparedFileRecord_init id file md digest size = Ok r -> prepared_file_wf r.
Proof.
  unfold PreparedFileRecord_init. intros Hmd H0. inv_ok. bools.
  repeat match goal with
  | H : ~ is_Some _ |- _ => apply eq_None_not_Some in H
  | H : negb _ = false |- _ => apply negb_false_iff in H
  end.
  constructor; simpl; eauto using _identifier_inv. unfold size_ok. apply andb_true_iff; split; by apply Z.leb_le.
Qed.

Lemma PreparedFileRecord_init_wf r :
  prepared_file_wf r ->
  PreparedFileRecord_init (PStr (pf_event_id r)) (PStr (pf_ciphertext_file r)) (pf_metadata r)
    (PStr (pf_ciphertext_sha256 r)) (PInt (pf_ciphertext_size r)) = Ok r.
Proof.
  intros [Hid Hf Hmd [Hm1 Hm2] Hd Hs]. unfold PreparedFileRecord_init.
  rewrite identifier_ok, bind_Ok, Hf, Hm1, Hm2 by done. unfold metadata_ok in Hmd. unfold size_ok in Hs.
  cbn [py_eq]. rewrite (bool_decide_true (_ +:+ _ = _)) by done. rewrite !bool_decide_false by (by intros []). cbn [negb orb raise_if].
  rewrite !bind_Ok, Hmd, bind_Ok, Hd, Hs. cbn [negb orb raise_if]. rewrite bind_Ok, <- Hf. by destruct r.
Qed.

Lemma PreparedFileRecord_roundtrip r :
  prepared_file_wf r -> PreparedFileRecord_from_dict (PreparedFileRecord_to_dict r) = Ok r.
Proof.
  intros Hr. unfold PreparedFileRecord_from_dict, PreparedFileRecord_to_dict.
  match goal with |- context [get_item "event_id" ?l] => set (d := l) end.
  assert (forall k v, dict_get k d = Some v -> get_item k d = Ok v) as Hi by (intros ? ?; apply get_item_Ok).
  change (keys_are PREPARED_FILE_FIELDS d) with true.
  rewrite (Hi "event_id" _ eq_refl), (Hi "ciphertext_file" _ eq_refl), (Hi "ciphertext_sha256" _ eq_refl),
    (Hi "ciphertext_size" _ eq_refl), (Hi "metadata" _ eq_refl).
  cbn [negb raise_if]. pose proof (pfw_metadata _ Hr) as Hmd. unfold metadata_ok in Hmd.
  rewrite !bind_Ok, Hmd, !bind_Ok. by apply PreparedFileRecord_init_wf.
Qed.
End prepared.
