(* ===== verification/OutboxLogic.v ===== *)
(** * Reasoning about outbox computations

    [safe I m Q]: from a world that satisfies [I], the computation [m] ends in a
    world that satisfies [I] whether it returns or raises, and what it returns
    satisfies [Q].  The rules follow the computation's structure; the frame
    conditions say which effects an invariant of the queue tolerates. *)

From S2P Require Import Prelude PyStr PyObj OutboxData RecordProps OutboxStore PreparedOutbox.

Definition safe {A} (I : world -> Prop) (m : M A) (Q : A -> Prop) : Prop :=
  forall w, I w -> I (m w).2 /\ (forall a, (m w).1 = Ok a -> Q a).

Section rules.
Context (I : world -> Prop).

Lemma safe_weaken {A} (m : M A) (Q Q' : A -> Prop) : safe I m Q -> (forall a, Q a -> Q' a) -> safe I m Q'.
Proof. intros Hm HQ w Hw. destruct (Hm w Hw) as [HI Ha]. split; [done | eauto]. Qed.

Lemma safe_ret {A} (a : A) (Q : A -> Prop) : Q a -> safe I (mret a) Q.
Proof. intros HQ w Hw. split; [done | by intros ? [= <-]]. Qed.

Lemma safe_bind {A B} (m : M A) (f : A -> M B) Q R :
  safe I m Q -> (forall a, Q a -> safe I (f a) R) -> safe I (m ≫= f) R.
Proof.
  intros Hm Hf w Hw. specialize (Hm w Hw). unfold mbind, M_bind.
  destruct (m w) as [[a|e] w'] eqn:E; simpl in *; destruct Hm as [HI HQ]; [|done].
  by apply Hf; [apply HQ |].
Qed.

Lemma safe_fmap {A B} (f : A -> B) (m : M A) Q : safe I m (fun a => Q (f a)) -> safe I (f <$> m) Q.
Proof. intros Hm. eapply safe_bind; [done |]. intros a Ha. by apply safe_ret. Qed.

Lemma safe_lift {A} (r : result A) (Q : A -> Prop) : (forall a, r = Ok a -> Q a) -> safe I (lift r) Q.
Proof. intros HQ w Hw. by split. Qed.

Lemma safe_raise {A} e (Q : A -> Prop) : safe I (raise e) Q.
Proof. by apply safe_lift. Qed.

Lemma safe_guard b e (Q : unit -> Prop) : (b = false -> Q tt) -> safe I (guard b e) Q.
Proof. intros HQ. apply safe_lift. intros [] Hb. by apply HQ; destruct b. Qed.

Lemma safe_catch {A} (m : M A) h Q :
  safe I m Q -> (forall e k, h e = Some k -> safe I k Q) -> safe I (catch m h) Q.
Proof.
  intros Hm Hh w Hw. specialize (Hm w Hw). unfold catch.
  destruct (m w) as [[a|e] w'] eqn:E; simpl in *; [done |].
  destruct (h e) eqn:Ek; simpl; [|split; [by apply Hm | done]].
  by eapply Hh; [|apply Hm].
Qed.

Lemma safe_when b m Q : safe I m Q -> Q tt -> safe I (when b m) Q.
Proof. intros Hm HQ. destruct b; [done | by apply safe_ret]. Qed.

Lemma safe_map_M {A B} (f : A -> M B) l (Q : B -> Prop) :
  (forall a, a ∈ l -> safe I (f a) Q) -> safe I (map_M f l) (Forall Q).
Proof.
  induction l as [|a l IH]; intros Hf; simpl; [by apply safe_ret; constructor |].
  eapply safe_bind; [apply Hf; by left |]. intros b Hb.
  eapply safe_bind; [apply IH; intros; apply Hf; by right |]. intros bs Hbs.
  apply safe_ret. by constructor.
Qed.

Lemma safe_for_each_M {A} (f : A -> M unit) l (Q : unit -> Prop) :
  (forall a, a ∈ l -> safe I (f a) (fun _ => True)) -> Q tt -> safe I (for_each_M f l) Q.
Proof.
  induction l as [|a l IH]; intros Hf HQ; simpl; [by apply safe_ret |].
  eapply safe_bind; [apply Hf; by left |]. intros _ _. apply IH; [|done]. intros; apply Hf; by right.
Qed.

(** A computation that leaves the world alone. *)
Lemma safe_pure {A} (m : M A) (Q : A -> Prop) :
  (forall w, (m w).2 = w) -> (forall w a, I w -> (m w).1 = Ok a -> Q a) -> safe I m Q.
Proof. intros Hw HQ w Hw'. split; [by rewrite Hw | eauto]. Qed.

Lemma safe_modify f (Q : unit -> Prop) : (forall w, I w -> I (f w)) -> Q tt -> safe I (modify f) Q.
Proof. intros Hf HQ w Hw. split; [by apply Hf | by intros [] _]. Qed.
End rules.

(** ** Invariants of the queue directory *)

(** More directories exist and everything else but the files may have moved on. *)
Definition same_files (w w' : world) : Prop :=
  files w' = files w /\ (forall d, dirs w !! d = Some true -> dirs w' !! d = Some true).

Class FileInvariant (I : world -> Prop) : Prop := {
  inv_same : forall w w', same_files w w' -> I w -> I w';
}.
Class QueueInvariant (I : world -> Prop) : Prop := {
  inv_files :: FileInvariant I;
  inv_write : forall w d n nd, d ≠ QUEUE -> I w -> I (set_files <[(d, n) := nd]> w);
  inv_remove : forall w d n, d ≠ QUEUE -> I w -> I (set_files (delete (d, n)) w);
}.

(** ** The publisher *)
(** A temporary file is never taken for a record. *)
Lemma temp_not_json `{Env} name n : is_json_name (temp_name name (urandom_hex n)) = false.
Proof.
  destruct (urandom_hex_ok n) as [Hne Hhex]. generalize dependent (urandom_hex n). intros hex Hne Hhex.
  apply not_true_iff_false. intros [t Ht]%endswith_split.
  unfold temp_name in Ht. apply (f_equal (fun s => last (chars s))) in Ht. rewrite !chars_app, !app_assoc, last_app in Ht.
  rewrite (last_app (chars t)) in Ht. cbn in Ht.
  destruct (last (chars hex)) as [c|] eqn:Ec.
  - injection Ht as ->. unfold str_all in Hhex. rewrite forallb_forall in Hhex.
    apply last_Some_elem_of, list_elem_of_In, Hhex in Ec. done.
  - apply last_None in Ec. destruct hex; [done | discriminate].
Qed.

Lemma temp_fresh name hex : name ≠ temp_name name hex.
Proof.
  intros E. apply (f_equal (fun s => length (chars s))) in E. unfold temp_name in E.
  rewrite !chars_app, !length_app in E. cbn in E. lia.
Qed.

Lemma set_files_insert k a b w : set_files <[k := a]> (set_files <[k := b]> w) = set_files <[k := a]> w.
Proof. unfold set_files. simpl. by rewrite insert_insert_eq. Qed.
Lemma set_files_delete k a w : files w !! k = None -> set_files (delete k) (set_files <[k := a]> w) = w.
Proof. intros Hk. destruct w. unfold set_files. simpl in *. by rewrite delete_insert_id. Qed.
Lemma set_files_delete_absent k w : files w !! k = None -> set_files (delete k) w = w.
Proof. intros Hk. destruct w. unfold set_files. simpl in *. by rewrite delete_id. Qed.

Lemma for_each_app {A} (f : A -> M unit) l l' w :
  for_each_M f (l ++ l') w = match for_each_M f l w with (Ok _, w') => for_each_M f l' w' | (Raise e, w') => (Raise e, w') end.
Proof.
  revert w. induction l as [|a l IH]; intros w; [done |]. simpl. unfold mbind, M_bind. destruct (f a w) as [[]]; [apply IH | done].
Qed.

Section publisher.
Context `{Env} (d name : string) (c : content).
Let target := (d, name).

(** While a publication runs there is a temporary file more, or it has taken its place. *)
Inductive published (temp : string) (w : world) : world -> Prop :=
| not_yet n : is_folder n = false -> published temp w (set_files <[(d, temp) := n]> w)
| in_place : published temp w (set_files <[target := Regular c true]> w).

Lemma create_private_temp_spec tries w :
  exists w', same_files w w' /\
    (_create_private_temp tries d name w = (Raise EOS, w')
     \/ exists n, let temp := temp_name name (urandom_hex n) in files w' !! (d, temp) = None
          /\ _create_private_temp tries d name w = (Ok temp, set_files <[(d, temp) := partial ""]> w')).
Proof.
  revert w. induction tries as [|tries IH]; intros w; [exists w; split; [done | by left] |].
  simpl. unfold mbind, M_bind, urandom, read_node. simpl.
  destruct (files w !! (d, temp_name name (urandom_hex (uuids w)))) eqn:E.
  - destruct (IH (next_uuid w)) as (w' & Hs & Hr). by exists w'.
  - exists (next_uuid w). split; [done |]. right. by exists (uuids w).
Qed.

Lemma publish_start_spec w :
  exists w', same_files w w' /\
    (publish_start d name w = (Raise EOS, w')
     \/ exists e n, let temp := temp_name name (urandom_hex n) in dirs w' !! d = Some true /\ files w' !! (d, temp) = None
          /\ publish_start d name w = (Ok (e, temp), set_files <[(d, temp) := partial ""]> w')).
Proof.
  unfold publish_start, io, get, modify, mbind, M_bind, mret, M_ret, raise, lift. cbn -[_create_private_temp set_dirs next_io].
  change (dirs (next_io w)) with (dirs w).
  set (w0 := set_dirs <[d := true]> (next_io w)).
  assert (same_files w w0) as Hw0.
  { split; [done |]. simpl. intros d' Hd'. destruct (base.decide (d = d')) as [->|?]; by rewrite ?lookup_insert_eq, ?lookup_insert_ne. }
  assert (dirs w0 !! d = Some true) as Hd by apply lookup_insert_eq.
  destruct (create_private_temp_spec 16 w0) as (w' & [Hf Hd'] & Hr).
  assert (same_files w w') as Hw'. { destruct Hw0 as [Hf0 Hd0]. split; [by rewrite Hf |]. auto. }
  destruct (outcome (ios w)) eqn:Eo, (dirs w !! d) as [[]|]; try (exists (next_io w); split; [done | by left]);
    exists w'; (split; [done |]); cbn iota beta; fold w0; destruct Hr as [->|(n & Hn & ->)]; try (by left); right; eexists _, n; auto.
Qed.

Lemma writes_only_temp temp ks n w :
  is_folder n = false ->
  exists m, is_folder m = false
    /\ for_each_M id ((fun k => write_node d temp (partial (str_take k (bytes c)))) <$> ks) (set_files <[(d, temp) := n]> w)
       = (Ok tt, set_files <[(d, temp) := m]> w).
Proof.
  revert n. induction ks as [|k ks IH]; intros n Hn; [by exists n |]. csimpl. unfold mbind, M_bind, id, write_node, modify.
  rewrite set_files_insert. by apply IH.
Qed.

(** Any number of the publisher's calls. *)
Lemma publish_calls_spec k e temp n w :
  files w !! (d, temp) = None -> name ≠ temp -> is_folder n = false ->
  exists r w', for_each_M id (take k (publish_calls e d name temp c)) (set_files <[(d, temp) := n]> w) = (r, w')
    /\ published temp w w' /\ (forall x, r = Raise x -> is_os_error x = true)
    /\ (length (publish_calls e d name temp c) <= k -> r = Ok tt -> w' = set_files <[target := Regular c true]> w).
Proof.
  intros Hfresh Hne Hn. unfold publish_calls. rewrite take_app, for_each_app, <- fmap_take, length_app.
  destruct (writes_only_temp temp (take k (seq 1 (py_len (bytes c) - 1))) n w Hn) as (m & Hm & ->).
  set (len := length _). clear Hn n.
  assert (forall x, <[(d, temp) := x]> (files w) !! (d, name) = files w !! (d, name)) as Htarget.
  { intros x. apply lookup_insert_ne. congruence. }
  destruct (k - len) as [|[|k']] eqn:Ek; simpl; unfold write_node, modify, guard, lift, raise_if, read_node, remove_node, raise, lift, get, mbind, M_bind, mret, M_ret, id; simpl;
    rewrite ?set_files_insert.
  - eexists _, _. repeat split; [by apply not_yet | done |]. intros Hk. exfalso. lia.
  - eexists _, _. repeat split; [by apply not_yet | done |]. intros Hk. exfalso. lia.
  - destruct (bool_decide (e = IoWrite)).
    + eexists _, _. repeat split; [by apply not_yet | by intros ? [= <-] | done].
    + destruct k' as [|k']; simpl; [eexists _, _; repeat split; [by apply not_yet | done | intros Hk; exfalso; lia] |].
      unfold mbind, M_bind. simpl. rewrite Htarget, lookup_insert_eq.
      destruct (from_option is_folder false (files w !! (d, name))); simpl.
      * eexists _, _. repeat split; [by apply not_yet | by intros ? [= <-] | done].
      * rewrite set_files_delete by done.
        destruct k' as [|k']; simpl; [eexists _, _; repeat split; [by apply in_place | done] |].
        destruct (bool_decide (e = IoSync)); simpl; rewrite ?take_nil; eexists _, _; repeat split;
          try (by apply in_place); try done; by intros ? [= <-].
Qed.

Lemma publish_calls_all e temp n w :
  files w !! (d, temp) = None -> name ≠ temp -> is_folder n = false ->
  exists r w', for_each_M id (publish_calls e d name temp c) (set_files <[(d, temp) := n]> w) = (r, w')
    /\ published temp w w' /\ (forall x, r = Raise x -> is_os_error x = true)
    /\ (r = Ok tt -> w' = set_files <[target := Regular c true]> w).
Proof.
  intros Hf Hne Hn. destruct (publish_calls_spec (length (publish_calls e d name temp c)) e temp n w Hf Hne Hn) as (r & w' & Hr & ? & ? & Hl).
  rewrite firstn_all in Hr. exists r, w'. auto.
Qed.

(** Cleaning up afterwards. *)
Lemma unlink_not_yet temp n w :
  files w !! (d, temp) = None -> is_folder n = false -> (unlink d temp (set_files <[(d, temp) := n]> w)).2 = w.
Proof.
  intros Hf Hn. unfold unlink, read_node, remove_node, modify, mbind, M_bind, get, raise, lift. simpl.
  rewrite lookup_insert_eq. simpl. rewrite Hn. simpl. by apply set_files_delete.
Qed.
Lemma unlink_in_place temp w :
  files w !! (d, temp) = None -> name ≠ temp ->
  (unlink d temp (set_files <[target := Regular c true]> w)).2 = set_files <[target := Regular c true]> w.
Proof.
  intros Hf Hne. unfold unlink, read_node, remove_node, modify, mbind, M_bind, get, raise, lift. simpl.
  assert (<[target := Regular c true]> (files w) !! (d, temp) = None) as E.
  { rewrite lookup_insert_ne; [done | unfold target; congruence]. }
  rewrite E. simpl. by rewrite set_files_delete_absent.
Qed.

(** A publication changes nothing and raises, or the target holds the bytes and nothing
    else has changed. *)
Lemma publish_bytes_spec w :
  exists w', same_files w w' /\
    ((exists x, publish_bytes d name c w = (Raise x, w'))
     \/ dirs w' !! d = Some true /\ exists r, publish_bytes d name c w = (r, set_files <[target := Regular c true]> w')).
Proof.
  destruct (publish_start_spec w) as (w' & Hs & [E|(e & n & Hd & Hfresh & E)]).
  { exists w'. split; [done |]. left. exists EOS. unfold publish_bytes, mbind, M_bind. by rewrite E. }
  exists w'. split; [done |]. set (temp := temp_name name (urandom_hex n)) in *.
  assert (name ≠ temp) as Hne by apply temp_fresh.
  destruct (publish_calls_all e temp (partial "") w' Hfresh Hne eq_refl) as (r & w1 & Hrun & Hp & Hos & Hok).
  assert (exists r', publish_bytes d name c w = (r', (unlink d temp w1).2) /\ (r = Ok tt \/ exists x, r' = Raise x)) as (r' & -> & Hr').
  { unfold publish_bytes, mbind at 1, M_bind at 1. rewrite E. cbn [fst snd]. unfold finally, catch. rewrite Hrun.
    destruct r as [[]|x]; [by eexists; split; [|left] |]. rewrite (Hos x eq_refl).
    unfold read_node, get, mbind, M_bind, raise, lift. simpl. eexists. split; [done | right; by eexists]. }
  destruct Hp as [m Hm|]; [|right; split; [done |]; exists r'; by rewrite unlink_in_place].
  destruct Hr' as [->|[x ->]]; [right; split; [done |]; exists r'; by rewrite (Hok eq_refl), unlink_in_place |].
  left. exists x. by rewrite unlink_not_yet.
Qed.

(** A publication that returns. *)
Lemma publish_bytes_writes w w' :
  publish_bytes d name c w = (Ok tt, w') ->
  dirs w' !! d = Some true /\ files w' !! target = Some (Regular c true)
  /\ (forall k, k ≠ target -> files w' !! k = files w !! k).
Proof.
  destruct (publish_bytes_spec w) as (w1 & [Hf _] & [[x ->]|(Hd & r & ->)]); [done |]. intros [= _ <-]. simpl.
  split; [done |]. rewrite lookup_insert_eq. split; [done |]. intros k Hk. by rewrite lookup_insert_ne, Hf.
Qed.
End publisher.

Ltac solve_same := split; [done | simpl; intros; rewrite ?lookup_insert_ne; try done; naive_solver].

(** ** Hints *)
Create HintDb safe discriminated.

Lemma safe_lift_eq {A} I (r : result A) : safe I (lift r) (fun a => r = Ok a).
Proof. by apply safe_lift. Qed.
Lemma safe_guard_eq I b e : safe I (guard b e) (fun _ => b = false).
Proof. by apply safe_guard. Qed.
Lemma safe_ret_eq {A} I (a : A) : safe I (mret a) (fun x => x = a).
Proof. by apply safe_ret. Qed.
Lemma safe_get_inv I : safe I get I.
Proof. apply safe_pure; [done |]. by intros w a Hw [= <-]. Qed.
Lemma safe_read_node_inv I d n : safe I (read_node d n) (fun r => exists w, I w /\ r = files w !! (d, n)).
Proof. apply safe_pure; [done |]. intros w a Hw [= <-]. eauto. Qed.

#[export] Hint Resolve safe_lift_eq safe_guard_eq safe_ret_eq safe_get_inv safe_read_node_inv : safe.

Section files.
Context `{Env, PyRuntime} (I : world -> Prop) `{!FileInvariant I}.

Lemma safe_get (Q : world -> Prop) : (forall w, I w -> Q w) -> safe I get Q.
Proof. intros HQ. apply safe_pure; [done |]. intros w a Hw [= <-]. auto. Qed.

Lemma safe_read_node d n (Q : option node -> Prop) :
  (forall w, I w -> Q (files w !! (d, n))) -> safe I (read_node d n) Q.
Proof. intros HQ. apply safe_pure; [done |]. intros w a Hw [= <-]. auto. Qed.

Lemma safe_io Q : (forall e, Q e) -> safe I io Q.
Proof. intros HQ w Hw. split; [by apply (inv_same w) | eauto]. Qed.

Lemma safe_uuid4 Q : (forall u, Q u) -> safe I uuid4 Q.
Proof. intros HQ w Hw. split; [by apply (inv_same w) | eauto]. Qed.

Lemma safe_listdir d Q : (forall l, Q l) -> safe I (listdir d) Q.
Proof. intros HQ. by apply safe_pure. Qed.

Lemma safe_is_dir d Q : (forall b, Q b) -> safe I (is_dir d) Q.
Proof. intros HQ. by apply safe_pure. Qed.

Lemma insert_dir_same w d : same_files w (set_dirs <[d := true]> w).
Proof.
  split; [done |]. simpl. intros d' Hd'. destruct (base.decide (d = d')) as [->|Hne].
  - by rewrite lookup_insert_eq.
  - by rewrite lookup_insert_ne.
Qed.

Lemma safe_make_dir d (Q : unit -> Prop) : Q tt -> safe I (modify (set_dirs <[d := true]>)) Q.
Proof. apply safe_modify. intros w. apply inv_same, insert_dir_same. Qed.

#[local] Hint Resolve safe_io safe_uuid4 safe_listdir safe_is_dir safe_make_dir : safe.

Lemma safe_any {A} (m : M A) : safe I m (fun _ => True) -> forall Q : A -> Prop, (forall a, Q a) -> safe I m Q.
Proof. intros Hm Q HQ. eapply safe_weaken; eauto. Qed.

Lemma safe_ensure_directory d : safe I (_ensure_directory d) (fun _ => True).
Proof.
  unfold _ensure_directory. eapply safe_bind; [apply safe_get_inv |]. intros w _.
  destruct (dirs w !! d) as [[]|]; [by apply safe_ret | apply safe_raise |].
  eapply safe_bind; [by apply (safe_io (fun _ => True)) |]. intros [] _; try apply safe_raise.
  eapply safe_bind; [by apply (safe_make_dir _ (fun _ => True)) | intros; by apply safe_ret].
Qed.

Lemma safe_sync_directory : safe I _sync_directory (fun _ => True).
Proof.
  eapply safe_bind; [by apply (safe_io (fun _ => True)) |]. intros [] _; try apply safe_raise. by apply safe_ret.
Qed.

Lemma safe_lock t : safe I (_exclusive_file_lock t) (fun _ => True).
Proof.
  eapply safe_bind; [apply safe_guard_eq |]. intros _ _.
  eapply safe_bind; [by apply (safe_io (fun _ => True)) |].
  intros [] _; destruct t; try apply safe_raise; by apply safe_ret.
Qed.

Lemma safe_with_lock {A} t (m : M A) Q : safe I m Q -> safe I (with_lock t m) Q.
Proof. intros Hm. eapply safe_bind; [apply safe_lock | done]. Qed.
End files.

Section frame.
Context `{Env, PyRuntime} (I : world -> Prop) `{!QueueInvariant I}.

Lemma safe_write_node d n nd (Q : unit -> Prop) : d ≠ QUEUE -> Q tt -> safe I (write_node d n nd) Q.
Proof. intros Hd. apply safe_modify. intros w. by apply inv_write. Qed.

Lemma safe_remove_node d n (Q : unit -> Prop) : d ≠ QUEUE -> Q tt -> safe I (remove_node d n) Q.
Proof. intros Hd. apply safe_modify. intros w. by apply inv_remove. Qed.

#[local] Hint Resolve safe_io safe_uuid4 safe_listdir safe_is_dir safe_make_dir safe_write_node safe_remove_node
  : safe.

(** Publication: the file may be written or not, before an exception or before
    the return, so the write must keep the invariant. *)
Lemma safe_publish_bytes d n c :
  (forall w, I w -> I (set_files <[(d, n) := Regular c true]> w)) ->
  safe I (publish_bytes d n c) (fun _ => True).
Proof.
  intros Hw w HI. split; [|done]. destruct (publish_bytes_spec d n c w) as (w' & Hs & [[x ->]|(_ & r & ->)]).
  - by apply (inv_same w).
  - apply Hw. by apply (inv_same w).
Qed.

Lemma safe_replace d n d' n' : d ≠ QUEUE -> d' ≠ QUEUE -> safe I (replace d n d' n') (fun _ => True).
Proof.
  intros Hd Hd'. eapply safe_bind; [by apply (safe_io I (fun _ => True)) |]. intros e _.
  eapply safe_bind; [apply safe_read_node_inv |]. intros o _.
  destruct e, o; try apply safe_raise.
  eapply safe_bind; [by apply (safe_remove_node _ _ (fun _ => True)) |]. intros _ _.
  by apply safe_write_node.
Qed.

Lemma safe_unlink d n : d ≠ QUEUE -> safe I (unlink d n) (fun _ => True).
Proof.
  intros Hd. eapply safe_bind; [apply safe_read_node_inv |]. intros o _.
  case_match; [apply safe_raise | by apply safe_remove_node].
Qed.

Lemma safe_publish_elsewhere d n v : d ≠ QUEUE -> safe I (publish_json d n v) (fun _ => True).
Proof. intros Hd. apply safe_publish_bytes. intros w. by apply inv_write. Qed.

#[local] Hint Resolve safe_ensure_directory safe_sync_directory safe_replace safe_unlink safe_publish_elsewhere : safe.

Lemma safe_read_json d n : safe I (read_json d n) (fun _ => True).
Proof. apply safe_pure; [|done]. intros w. unfold read_json, mbind, M_bind, read_node. simpl. repeat case_match; by simplify_eq/=. Qed.

Lemma safe_exists_node d n : safe I (exists_node d n) (fun _ => True).
Proof. by apply safe_pure. Qed.

Lemma safe_quarantine_unlocked n : safe I (_quarantine_unlocked n) (fun _ => True).
Proof.
  unfold _quarantine_unlocked. eapply safe_bind; [apply (safe_ensure_directory I) |]. intros _ _.
  eapply safe_bind; [by apply (safe_uuid4 I (fun _ => True)) |]. intros u _. cbv zeta.
  apply safe_catch; [|intros e k Hk; case_match; [injection Hk as <-; apply safe_raise | done]].
  eapply safe_bind; [by apply safe_replace |]. intros _ _.
  case_match; [|by apply safe_ret]. eapply safe_bind; [apply safe_exists_node |]. intros b _.
  apply safe_when; [by apply safe_replace | done].
Qed.

(** What every prepared record that is read satisfies. *)
Definition prepared_ok (p : prepared) : Prop :=
  is_identifier (prepared_event_id p) = true /\ metadata_ok (prepared_metadata p)
  /\ fullmatch _DIGEST (prepared_sha256 p) = true /\ (0 <= prepared_size p)%Z.

Lemma PreparedRecord_from_dict_ok v r : PreparedRecord_from_dict v = Ok r -> prepared_ok (Inline r).
Proof.
  unfold PreparedRecord_from_dict. intros H1. inv_ok. bools.
  repeat match goal with H : negb _ = false |- _ => apply negb_false_iff in H end.
  repeat split; simpl; eauto using _identifier_inv, _validate_metadata_ok.
  rewrite Z.eqb_eq in *. lia.
Qed.

Lemma PreparedFileRecord_from_dict_ok v r : PreparedFileRecord_from_dict v = Ok r -> prepared_ok (Beside r).
Proof.
  unfold PreparedFileRecord_from_dict. intros H1. inv_ok.
  apply PreparedFileRecord_init_inv in H1 as [? ? ? ? ? Hs]; [|by eapply _validate_metadata_ok].
  repeat split; simpl; try done. unfold size_ok in Hs. apply andb_true_iff in Hs as [Hs _]. by apply Z.leb_le.
Qed.

Lemma safe_load_prepared o v : safe I (load_prepared o v) prepared_ok.
Proof.
  unfold load_prepared. cbv zeta.
  assert (safe I (r ← lift (PreparedRecord_from_dict v); mret (Inline r)) prepared_ok) as Hin.
  { eapply safe_bind; [apply safe_lift_eq |]. intros r Hr%PreparedRecord_from_dict_ok. by apply safe_ret. }
  destruct v as [| | | | | |d]; try done. case_match; [|done].
  eapply safe_bind; [apply safe_lift_eq |]. intros r Hr%PreparedFileRecord_from_dict_ok.
  eapply safe_bind; [apply safe_read_node_inv |]. intros n _.
  destruct n as [[c b| |]|]; try apply safe_raise.
  eapply safe_bind; [apply safe_guard_eq |]. intros _ _. by apply safe_ret.
Qed.

Lemma safe_load_record n : safe I (load_record n) prepared_ok.
Proof.
  apply safe_catch; [eapply safe_bind; [apply safe_read_json |]; intros; apply safe_load_prepared |].
  intros e k Hk. case_match; [injection Hk as <-; apply safe_raise | done].
Qed.

Lemma safe_records_prepared : safe I PreparedOutbox._records_unlocked (fun _ => True).
Proof.
  eapply safe_bind; [by apply (safe_is_dir I _ (fun _ => True)) |]. intros [] _; [|by apply safe_ret].
  eapply safe_bind; [by apply (safe_listdir I _ (fun _ => True)) |]. intros l _.
  eapply safe_bind; [apply safe_map_M; intros; apply safe_load_record |]. intros; by apply safe_ret.
Qed.

Lemma safe_publish_unlocked r : safe I (PreparedOutbox._publish_unlocked r) (fun _ => True).
Proof. by apply safe_publish_elsewhere. Qed.

Lemma safe_private_source src : safe I (private_source src) (fun _ => True).
Proof.
  apply safe_pure; [|done]. intros w. unfold private_source, mbind, M_bind, read_node. simpl.
  by destruct (files w !! (src.1, src.2)) as [[c []| |]|].
Qed.

Lemma safe_publish_file_unlocked r src :
  src.1 ≠ QUEUE -> safe I (_publish_file_unlocked r src) (fun _ => True).
Proof.
  intros Hsrc. unfold _publish_file_unlocked. cbv zeta. apply safe_catch.
  - eapply safe_bind; [apply safe_private_source |]. intros c _.
    eapply safe_bind; [apply safe_guard_eq |]. intros _ _.
    do 2 (eapply safe_bind; [apply safe_exists_node |]; intros ? _;
          eapply safe_bind; [apply safe_guard_eq |]; intros _ _).
    eapply safe_bind; [by apply safe_replace |]. intros _ _.
    do 2 (eapply safe_bind; [apply (safe_sync_directory I) |]; intros _ _).
    apply safe_catch; [by apply safe_publish_elsewhere |]. intros e k Hk. case_match; [|done].
    injection Hk as <-. eapply safe_bind; [|intros _ _; apply safe_raise]. apply safe_catch.
    + eapply safe_bind; [by apply safe_unlink |]. intros _ _. by apply safe_unlink.
    + intros e' k' Hk'. case_match; [injection Hk' as <-; by apply safe_ret | done].
  - intros e k Hk. repeat case_match; try done. injection Hk as <-.
    eapply safe_bind; [by apply safe_unlink |]. intros _ _. apply safe_raise.
Qed.

Lemma safe_prepared_layout : safe I ensure_prepared_layout (fun _ => True).
Proof.
  do 2 (eapply safe_bind; [apply (safe_ensure_directory I) |]; intros ? _).
  by apply safe_when; [apply (safe_sync_directory I) |].
Qed.

(** *** The prepared outbox's public operations leave the queue alone *)
Lemma safe_prepared_publish r : safe I (PreparedOutbox.publish r) (fun _ => True).
Proof.
  apply (safe_with_lock I). eapply safe_bind; [apply safe_prepared_layout |]. intros _ _. apply safe_publish_unlocked.
Qed.

Lemma safe_prepared_publish_file r src : src.1 ≠ QUEUE -> safe I (publish_file r src) (fun _ => True).
Proof.
  intros Hsrc. apply (safe_with_lock I). eapply safe_bind; [apply safe_prepared_layout |]. intros _ _.
  by apply safe_publish_file_unlocked.
Qed.

Lemma safe_preserve_gap v src : src.1 ≠ QUEUE -> safe I (preserve_capture_gap_ciphertext v src) (fun _ => True).
Proof.
  intros Hsrc. eapply safe_bind; [apply safe_lift_eq |]. intros id _. apply (safe_with_lock I).
  do 3 (eapply safe_bind; [apply (safe_ensure_directory I) |]; intros ? _). apply safe_catch.
  - eapply safe_bind; [apply safe_private_source |]. intros c _.
    eapply safe_bind; [apply safe_guard_eq |]. intros _ _. cbv zeta.
    eapply safe_bind; [apply safe_read_node_inv |]. intros o _. destruct o as [[c' b| |]|]; try apply safe_raise.
    + eapply safe_bind; [apply safe_guard_eq |]. intros _ _.
      eapply safe_bind; [by apply safe_unlink |]. intros _ _. by apply safe_ret.
    + eapply safe_bind; [by apply safe_replace |]. intros _ _.
      do 2 (eapply safe_bind; [apply (safe_sync_directory I) |]; intros _ _). by apply safe_ret.
  - intros e k Hk. repeat case_match; try done. injection Hk as <-.
    eapply safe_bind; [by apply (safe_pure _ (regular_at src) (fun _ => True)) |]. intros; apply safe_raise.
Qed.

Lemma safe_prepared_inspect v : safe I (PreparedOutbox.inspect_record v) (fun _ => True).
Proof.
  apply (safe_with_lock I). do 2 (eapply safe_bind; [apply (safe_ensure_directory I) |]; intros ? _).
  eapply safe_bind; [apply safe_lift_eq |]. intros id _. cbv zeta.
  assert (forall A, safe I (_quarantine_unlocked (json_name id) ;;
    raise (EStorage "prepared-record-corrupt" None) : M A) (fun _ => True)) as Hbad.
  { intros A. eapply safe_bind; [apply safe_quarantine_unlocked |]. intros; apply safe_raise. }
  eapply (safe_bind _ _ _ (fun _ => True)).
  - apply safe_catch.
    + eapply safe_bind; [apply safe_read_json |]. intros; by apply safe_ret.
    + intros e k Hk. repeat case_match; try done; injection Hk as <-; [by apply safe_ret | apply Hbad].
  - intros [body|] _; [|by apply safe_ret]. apply safe_catch.
    + eapply safe_bind; [apply safe_load_prepared |]. intros; by apply safe_ret.
    + intros e k Hk. case_match; [injection Hk as <-; apply Hbad | done].
Qed.
End frame.
