(* ===== verification/QueueRecords.v ===== *)
(** * Well-formed queue records and the updates the outbox makes

    [good cfg r] is what every record of a queue satisfies that was only written by
    the outbox: it reads back ([record_wf]), its stage has the evidence the stage
    stands for ([stage_ok]), and its first event id is its own.  Each update the
    operations publish keeps it. *)

From S2P Require Import Prelude PyStr PyObj OutboxData RecordProps OutboxStore PreparedOutbox PccOutbox.
From Stdlib Require Import SpecFloat.

(** ** The cross-field checks, split by what they read *)
Definition final_checks (r : QueueRecord) : bool :=
  negb (is_final r && opt_none (final_event_id r))
  && match final_event_id r with
     | Some f => is_final r && bool_decide (f ∈ event_ids r)
     | None => true
     end.
Definition stage_checks (st rs : QueueState) (unowned unleased unindexed unkeyed unsealed : bool) : bool :=
  negb (state_is st QUEUED && negb (state_is rs QUEUED))
  && negb (state_is st CLAIMED && negb (state_in rs (QUEUED :: progress_states)))
  && negb (state_in st progress_states && negb (state_is rs st))
  && negb (state_in st [RETRYABLE_FAILURE; CAPTURE_GAP] && negb (state_in rs (QUEUED :: progress_states)))
  && negb (state_is st COMMITTED && (negb (state_is rs INDEX_PUBLISHED) || unindexed))
  && negb (state_is st INDEX_PUBLISHED && unindexed)
  && negb (state_in st published_states && unkeyed)
  && negb (state_in st encrypted_states && unsealed)
  && negb (unowned && negb unleased)
  && negb (negb unowned && unleased)
  && negb (state_in st unowned_states && negb unowned)
  && negb (state_is st CLAIMED && unowned).
Definition stage_checked (r : QueueRecord) : bool :=
  stage_checks (state r) (resume_state r) (opt_none (owner r)) (opt_none (lease_until r)) (opt_none (index_id r))
    (opt_none (object_key r)) (opt_none (ciphertext_sha256 r) || opt_none (ciphertext_size r)).

Lemma raise_if_Ok b e : raise_if b e = Ok tt <-> b = false.
Proof. by destruct b. Qed.
Lemma seq_Ok b e (m : result unit) : (raise_if b e ;; m) = Ok tt <-> b = false /\ m = Ok tt.
Proof. destruct b; simpl; naive_solver. Qed.

Lemma record_checks_spec r :
  record_checks r = Ok tt <-> event_id r ∈ event_ids r /\ final_checks r = true /\ stage_checked r = true.
Proof.
  unfold record_checks, final_checks, stage_checked, stage_checks. rewrite !seq_Ok, !raise_if_Ok.
  rewrite !andb_true_iff, !negb_true_iff, negb_false_iff, bool_decide_eq_true.
  destruct (final_event_id r) as [f|]; rewrite ?orb_false_iff, ?negb_false_iff, ?andb_true_iff; tauto.
Qed.

(** ** Good records *)
Definition sealed_stages : list QueueState := [PREPARED_ENCRYPTED; OBJECT_UPLOADED; INDEX_PUBLISHED].

Record stage_ok (r : QueueRecord) : Prop := {
  stage_ciphertext : resume_state r ∈ sealed_stages -> is_Some (ciphertext_sha256 r) /\ is_Some (ciphertext_size r);
  stage_object : resume_state r ∈ [OBJECT_UPLOADED; INDEX_PUBLISHED] ->
    exists key, object_key r = Some key /\ object_digest key = ciphertext_sha256 r;
  stage_index : resume_state r = INDEX_PUBLISHED -> is_Some (index_id r);
}.

Definition config_ok (cfg : config) : Prop :=
  (1 <= max_events cfg)%Z /\ (1 <= max_bytes cfg)%Z /\ lease_duration_ok (PFloat (cfg_lease_seconds cfg)) = true.

Lemma PccOutbox_init_ok a b c cfg : PccOutbox_init a b c = Ok cfg -> config_ok cfg.
Proof.
  unfold PccOutbox_init, config_ok. intros H. inv_ok. bools. simpl.
  repeat match goal with H : negb _ = false |- _ => apply negb_false_iff in H end.
  split; [lia | split; [lia | by apply lease_duration_inv]].
Qed.

Section good.
Context `{PyRuntime} (cfg : config).

Record good (r : QueueRecord) : Prop := {
  good_wf : record_wf r;
  good_stage : stage_ok r;
  good_head : exists tl, event_ids r = event_id r :: tl;
  good_seconds : lease_seconds r = f_of_Z 60 \/ lease_seconds r = cfg_lease_seconds cfg;
}.

Lemma good_checks r : good r -> event_id r ∈ event_ids r /\ final_checks r = true /\ stage_checked r = true.
Proof. intros [Hr _ _ _]. apply record_checks_spec, Hr. Qed.
Lemma good_stage_checked r : good r -> stage_checked r = true.
Proof. by intros (_ & _ & ?)%good_checks. Qed.

(** A record in the middle of an update: what the update must re-establish. *)
Lemma good_update r r' :
  good r ->
  event_id r' = event_id r -> session_id r' = session_id r -> qr_checkpoint r' = qr_checkpoint r ->
  sequence r' = sequence r -> event_ids r' = event_ids r -> is_final r' = is_final r ->
  final_event_id r' = final_event_id r -> metadata_ok (qr_metadata r') ->
  opt_all is_identifier (owner r') = true -> opt_all lease_ok (lease_until r') = true ->
  lease_duration_ok (PFloat (lease_seconds r')) = true ->
  (lease_seconds r' = f_of_Z 60 \/ lease_seconds r' = cfg_lease_seconds cfg) ->
  opt_all is_identifier (failure_code r') = true -> opt_all object_key_ok (object_key r') = true ->
  opt_all (fullmatch _DIGEST) (ciphertext_sha256 r') = true -> opt_all size_ok (ciphertext_size r') = true ->
  opt_all is_identifier (index_id r') = true ->
  Forall (fun i => is_identifier i = true) (expanded_event_ids r') ->
  length (expanded_event_ids r') <= _MAX_EVENT_IDS ->
  match qr_expanded_checkpoint r' with Some x => expanded_checkpoint_ok x | None => True end ->
  stage_checked r' = true -> stage_ok r' -> good r'.
Proof.
  intros Hr E1 E2 E3 E4 E5 E6 E7. intros. destruct (good_checks r Hr) as (Hin & Hfin & _).
  destruct Hr as [[] Hs Hh Hsec]. constructor; [constructor; rewrite ?E1, ?E2, ?E3, ?E4, ?E5, ?E7; try done | done | | done].
  - apply record_checks_spec. unfold final_checks in *. by rewrite E1, E5, E6, E7.
  - by rewrite E1, E5.
Qed.
End good.

(** ** Updates *)

(** Deciding a statement about states by trying all of them. *)
Ltac all_states st rs := destruct st, rs; cbn; try done.

Section stages.
Variables (st rs : QueueState) (u l i k s : bool).

Lemma claim_stage :
  state_in st (waiting_states ++ progress_states) = true -> stage_checks st rs u l i k s = true ->
  stage_checks CLAIMED (if state_in st [RETRYABLE_FAILURE; CAPTURE_GAP] then rs else st) false false i k s = true.
Proof. all_states st rs. Qed.

(** A claim resumes where the record was. *)
Lemma claim_resume :
  state_in st (waiting_states ++ progress_states) = true -> stage_checks st rs u l i k s = true ->
  (if state_in st [RETRYABLE_FAILURE; CAPTURE_GAP] then rs else st) = rs.
Proof. all_states st rs. Qed.

Lemma owned_stage :
  state_in st owned_states = true -> stage_checks st rs u l i k s = true -> stage_checks st rs false false i k s = true.
Proof. all_states st rs; destruct u, l, i, k, s; done. Qed.

Lemma failed_stage st' :
  state_in st owned_states = true -> st' ∈ [RETRYABLE_FAILURE; CAPTURE_GAP; QUARANTINED; POLICY_DENIED] ->
  stage_checks st rs u l i k s = true -> stage_checks st' rs true true i k s = true.
Proof.
  intros Hst Hst'. rewrite !elem_of_cons, elem_of_nil in Hst'. revert Hst.
  destruct Hst' as [-> | [-> | [-> | [-> | []]]]]; all_states st rs; destruct u, l, i, k, s; done.
Qed.

Lemma progress_stage st' i' k' s' :
  st' ∈ progress_states -> stage_checks st rs u l i k s = true ->
  state_is st' INDEX_PUBLISHED && i' = false -> state_in st' published_states && k' = false ->
  state_in st' encrypted_states && s' = false -> stage_checks st' st' u l i' k' s' = true.
Proof.
  intros Hst'. assert (stage_checks st rs u l i k s = true -> u && negb l = false /\ negb u && l = false) as Hul.
  { unfold stage_checks. rewrite !andb_true_iff, !negb_true_iff. tauto. }
  intros [H1 H2]%Hul. clear Hul. unfold progress_states in Hst'. rewrite !elem_of_cons, elem_of_nil in Hst'.
  destruct Hst' as [-> | [-> | [-> | [-> | []]]]]; destruct u, l, i', k', s'; try done.
Qed.

Lemma release_stage :
  rs = PREPARED_ENCRYPTED -> s = false -> stage_checks PREPARED_ENCRYPTED rs true true i k s = true.
Proof. by intros -> ->. Qed.
End stages.

Section updates.
Context `{PyRuntime} (cfg : config).
Hypothesis cfg_ok : config_ok cfg.

Lemma cfg_lease_ok : lease_duration_ok (PFloat (cfg_lease_seconds cfg)) = true.
Proof. apply cfg_ok. Qed.

(** What each field of a good record satisfies, for the fields an update keeps. *)
Ltac kept r Hr :=
  let W := fresh "W" in
  pose proof (good_wf cfg r Hr) as W; destruct W;
  eapply (good_update cfg r); simpl; try done; try apply Hr.

Lemma good_claimed r o now :
  good cfg r -> _claimable r = true -> is_identifier o = true ->
  lease_ok (fadd now (cfg_lease_seconds cfg)) = true -> good cfg (claimed_record cfg r o now).
Proof.
  intros Hr [Hst Hown]%andb_true_iff Ho Hl. kept r Hr.
  - apply cfg_lease_ok.
  - by right.
  - exact (claim_stage _ _ _ _ _ _ _ Hst (good_stage_checked cfg r Hr)).
  - pose proof (claim_resume _ _ _ _ _ _ _ Hst (good_stage_checked cfg r Hr)) as Hres.
    destruct (good_stage cfg r Hr) as [S1 S2 S3]. unfold claimed_record. rewrite Hres. by constructor.
Qed.

(** Changing the owner and the lease keeps the stage. *)
Lemma good_leased r o l :
  good cfg r -> state_in (state r) owned_states = true -> is_identifier o = true -> lease_ok l = true ->
  good cfg (with_owner (Some o) (Some l) r).
Proof.
  intros Hr Hst Ho Hl. kept r Hr.
  - exact (owned_stage _ _ _ _ _ _ _ Hst (good_stage_checked cfg r Hr)).
  - destruct (good_stage cfg r Hr). by constructor.
Qed.

Lemma good_failed r st code :
  good cfg r -> state_in (state r) owned_states = true ->
  st ∈ [RETRYABLE_FAILURE; CAPTURE_GAP; QUARANTINED; POLICY_DENIED] -> is_identifier code = true ->
  good cfg (with_failure (Some code) (with_owner None None (with_state st r))).
Proof.
  intros Hr Hst Hst' Hc. kept r Hr.
  - exact (failed_stage _ _ _ _ _ _ _ _ Hst Hst' (good_stage_checked cfg r Hr)).
  - destruct (good_stage cfg r Hr). by constructor.
Qed.

Lemma good_quarantined r code :
  good cfg r -> state r = POLICY_DENIED -> is_identifier code = true ->
  good cfg (with_failure (Some code) (with_state QUARANTINED r)).
Proof.
  intros Hr Hst Hc. kept r Hr.
  - pose proof (good_stage_checked cfg r Hr) as Hc'. unfold stage_checked in *. simpl. rewrite Hst in Hc'. done.
  - destruct (good_stage cfg r Hr). by constructor.
Qed.

Lemma good_quota_gap r :
  good cfg r -> state_in (state r) owned_states = true -> resume_state r = SOURCE_SNAPSHOTTED ->
  good cfg (quota_gap r).
Proof.
  intros Hr Hst Hres.
  replace (quota_gap r) with (with_failure (Some "prepared-byte-quota") (with_owner None None (with_state CAPTURE_GAP r)))
    by (destruct r; simpl in *; by subst).
  apply good_failed; [done | done | set_solver | done].
Qed.

Lemma good_prepared r digest size :
  good cfg r -> fullmatch _DIGEST digest = true -> size_ok size = true -> good cfg (prepared_update r digest size).
Proof.
  intros Hr Hd Hs. kept r Hr.
  - apply (progress_stage _ _ _ _ _ _ _ PREPARED_ENCRYPTED _ _ _ ltac:(set_solver) (good_stage_checked cfg r Hr)); done.
  - constructor; simpl; try done; intros Hin; set_solver.
Qed.

Lemma good_released r :
  good cfg r -> resume_state r = PREPARED_ENCRYPTED ->
  good cfg (with_owner None None (with_state PREPARED_ENCRYPTED r)).
Proof.
  intros Hr Hres. destruct (good_stage cfg r Hr) as [S1 S2 S3].
  destruct S1 as [[d Hd] [n Hn]]; [rewrite Hres; set_solver |]. kept r Hr.
  apply release_stage; simpl; [done | by rewrite Hd, Hn].
Qed.

Lemma good_expanded r children cp :
  good cfg r -> Forall (fun i => is_identifier i = true) children -> length children <= _MAX_EVENT_IDS ->
  expanded_checkpoint_ok cp -> good cfg (expanded_record r children cp).
Proof.
  intros Hr Hc Hl Hcp. kept r Hr.
  constructor; simpl; intros; set_solver.
Qed.

Lemma good_new id sid cp md st seq final :
  is_identifier id = true -> is_identifier sid = true -> checkpoint_ok cp -> metadata_ok md ->
  (1 <= seq)%Z -> st ∈ [QUEUED; POLICY_DENIED; QUARANTINED] -> good cfg (new_record id sid cp md st QUEUED seq final).
Proof.
  intros Hid Hsid Hcp Hmd Hseq Hst. constructor; [constructor; simpl; try done | | by exists [] | by left].
  - by repeat constructor.
  - unfold _MAX_EVENT_IDS. lia.
  - apply NoDup_singleton.
  - by destruct final.
  - apply record_checks_spec. split; [by left |]. split.
    + unfold final_checks. destruct final; simpl; [|done]. by rewrite bool_decide_true by left.
    + rewrite !elem_of_cons, elem_of_nil in Hst. by destruct Hst as [-> | [-> | [-> | []]]].
  - unfold _MAX_EVENT_IDS. lia.
  - constructor; simpl; unfold sealed_stages; rewrite ?elem_of_cons, ?elem_of_nil; naive_solver.
Qed.

(** *** Coalescing *)
Lemma coalesced_ids_spec r id final ids evicted :
  good cfg r -> is_identifier id = true -> coalesced_ids r id final = Some (ids, evicted) ->
  (exists tl, ids = event_id r :: tl) /\ id ∈ ids /\ NoDup ids /\ length ids <= _MAX_EVENT_IDS
  /\ Forall (fun i => is_identifier i = true) ids /\ (final = true \/ event_ids r ⊆ ids).
Proof.
  intros Hr Hid. destruct (good_head cfg r Hr) as [tl Htl], (good_wf cfg r Hr). unfold coalesced_ids.
  rewrite Htl in *. case_bool_decide as Hin; [intros [= <- <-]; repeat (split; [by eauto |]); by right |].
  destruct (_ <=? _)%nat eqn:Hlen; [destruct final; [|by intros [=]] |]; intros [= <- <-].
  - apply NoDup_cons in wf_event_ids_distinct as [Hhd Hnd].
    assert (forall x, x ∈ take (_MAX_EVENT_IDS - 2) tl -> x ∈ tl) as Hsub by (intros x; apply subseteq_take).
    split; [eauto |]. split; [set_solver |]. split; [|split; [|split; [|by left]]].
    + apply NoDup_cons. rewrite elem_of_app, list_elem_of_singleton. split; [set_solver |].
      apply NoDup_app. split; [by eapply sublist_NoDup, sublist_take |]. split; [|apply NoDup_singleton].
      intros x Hx ->%list_elem_of_singleton. set_solver.
    + cbn [length]. rewrite length_app, length_take. cbn [length]. change _MAX_EVENT_IDS with 64. lia.
    + inversion wf_event_ids; subst. constructor; [done |]. apply Forall_app. split; [by apply Forall_take | by constructor].
  - apply Nat.leb_gt in Hlen. change (event_id r :: tl ++ [id]) with ((event_id r :: tl) ++ [id]).
    split; [by exists (tl ++ [id]) |]. split; [set_solver |]. split; [|split; [|split; [|right; set_solver]]].
    + apply NoDup_app. split; [done |]. split; [|apply NoDup_singleton]. intros x Hx ->%list_elem_of_singleton. done.
    + rewrite length_app. simpl in *. lia.
    + apply Forall_app. split; [done | by constructor].
Qed.

Lemma good_coalesced r id final ids evicted :
  good cfg r -> is_identifier id = true -> coalesced_ids r id final = Some (ids, evicted) ->
  good cfg (coalesced_record r ids id final).
Proof.
  intros Hr Hid Hids. destruct (coalesced_ids_spec _ _ _ _ _ Hr Hid Hids) as ([tl Htl] & Hin & Hnd & Hlen & Hall & Hsub).
  destruct (good_checks cfg r Hr) as (Hprim & Hfin & Hstage). destruct Hr as [[] Hst Hh Hsec].
  constructor; [constructor; simpl; try done | by destruct Hst; constructor | by exists tl | done].
  - destruct final; [done | ]. done.
  - apply record_checks_spec. split; [simpl; rewrite Htl; by left |]. split; [|done].
    unfold final_checks in *. simpl. destruct final; simpl.
    + rewrite orb_true_r. simpl. by rewrite bool_decide_true.
    + rewrite orb_false_r. destruct Hsub as [|Hsub]; [done |].
      destruct (final_event_id r); [|done]. rewrite andb_false_r in *. simpl in *.
      destruct (is_final r); [|done]. case_bool_decide; [|done]. simpl. rewrite bool_decide_true; auto.
Qed.

(** *** Transitions *)
Lemma object_digest_ok key digest :
  object_digest key = Some digest -> object_key_ok key = true /\ fullmatch _DIGEST digest = true.
Proof.
  unfold object_digest, object_key_ok. destruct (fullmatch _OBJECT_KEY key) eqn:E1.
  - intros [= <-]. split; [done |]. apply fullmatch_lit_cat in E1 as (t & -> & Ht). by rewrite removeprefix_app.
  - destruct (fullmatch _EVIDENCE_OBJECT_KEY key) eqn:E2; [|done].
    intros [= <-]. split; [done |]. apply fullmatch_lit_cat in E2 as (t & -> & Ht). by rewrite removeprefix_app.
Qed.

(** A transition request that carries the evidence its target stands for. *)
Definition details_complete (st : QueueState) (details : dict) : bool :=
  match st with
  | PREPARED_ENCRYPTED => has_key "object_key" details && has_key "ciphertext_size" details
  | OBJECT_UPLOADED => has_key "object_key" details
  | INDEX_PUBLISHED => has_key "index_id" details
  | _ => true
  end.

(** The part of a record the details can change, and what they leave behind. *)
Definition evidence_ok (r : QueueRecord) : Prop :=
  opt_all object_key_ok (object_key r) = true /\ opt_all (fullmatch _DIGEST) (ciphertext_sha256 r) = true
  /\ opt_all size_ok (ciphertext_size r) = true /\ opt_all is_identifier (index_id r) = true.
Definition keyed (r : QueueRecord) : Prop :=
  exists key, object_key r = Some key /\ object_digest key = ciphertext_sha256 r.
Definition same_core (r r' : QueueRecord) : Prop :=
  with_index_id None (with_object_key None (with_ciphertext None None r))
  = with_index_id None (with_object_key None (with_ciphertext None None r')).

Lemma object_key_detail_ok old st details r r' :
  object_key_detail old st details r = Ok r' -> evidence_ok r ->
  evidence_ok r' /\ same_core r r' /\ index_id r' = index_id r /\ ciphertext_size r' = ciphertext_size r
  /\ (has_key "object_key" details = true \/ keyed r -> keyed r')
  /\ (is_Some (ciphertext_sha256 r) -> is_Some (ciphertext_sha256 r'))
  /\ (has_key "object_key" details = true -> is_Some (ciphertext_sha256 r')).
Proof.
  unfold object_key_detail. rewrite has_key_spec. destruct (dict_get "object_key" details) as [v|].
  - intros H0 (E1 & E2 & E3 & E4). destruct v as [| | | |key| |]; try done. inv_ok.
    match goal with H : object_digest _ = Some _ |- _ => destruct (object_digest_ok _ _ H) end.
    repeat split; simpl; try done; eauto. intros _. by exists key.
  - intros [= <-] HE. split; [done |]. repeat split; try done; try (by intros []); by intros [[]|].
Qed.

Lemma ciphertext_size_detail_ok old st details r r' :
  ciphertext_size_detail old st details r = Ok r' -> evidence_ok r ->
  evidence_ok r' /\ same_core r r' /\ index_id r' = index_id r /\ object_key r' = object_key r
  /\ ciphertext_sha256 r' = ciphertext_sha256 r
  /\ (is_Some (ciphertext_size r) \/ has_key "ciphertext_size" details = true -> is_Some (ciphertext_size r')).
Proof.
  unfold ciphertext_size_detail. rewrite has_key_spec. destruct (dict_get "ciphertext_size" details) as [v|].
  - intros H0 (E1 & E2 & E3 & E4). destruct v; try done. inv_ok. repeat split; simpl; try done; eauto.
    unfold size_ok. by match goal with H : negb _ = false |- _ => apply negb_false_iff in H end.
  - intros [= <-] HE. split; [done |]. repeat split; try done; by intros [|[]].
Qed.

Lemma index_id_detail_ok details r r' :
  index_id_detail details r = Ok r' -> evidence_ok r ->
  evidence_ok r' /\ same_core r r' /\ object_key r' = object_key r
  /\ ciphertext_sha256 r' = ciphertext_sha256 r /\ ciphertext_size r' = ciphertext_size r
  /\ (is_Some (index_id r) \/ has_key "index_id" details = true -> is_Some (index_id r')).
Proof.
  unfold index_id_detail. rewrite has_key_spec. destruct (dict_get "index_id" details) as [v|].
  - intros H0 (E1 & E2 & E3 & E4). inv_ok. repeat split; simpl; try done; eauto. by eapply _identifier_inv.
  - intros [= <-] HE. split; [done |]. repeat split; try done; by intros [|[]].
Qed.

Lemma same_core_fields r r' : same_core r r' ->
  exists key digest size index, r' = with_index_id index (with_object_key key (with_ciphertext digest size r)).
Proof.
  unfold same_core. intros E. destruct r, r'. injection E as ->; subst.
  by eexists _, _, _, _.
Qed.

Lemma commit_stage st rs u l i k s i' k' s' :
  stage_checks st rs u l i k s = true -> rs = INDEX_PUBLISHED -> i' = false -> k' = false -> s' = false ->
  stage_checks COMMITTED rs true true i' k' s' = true.
Proof. by intros _ -> -> -> ->. Qed.

Lemma good_progress r st key digest size index :
  good cfg r -> st ∈ progress_states ->
  let r' := with_index_id index (with_object_key key (with_ciphertext digest size
              (with_failure None (with_resume st (with_state st r))))) in
  evidence_ok r' ->
  (st ∈ sealed_stages -> is_Some digest /\ is_Some size) ->
  (st ∈ [OBJECT_UPLOADED; INDEX_PUBLISHED] -> keyed r') ->
  (st = INDEX_PUBLISHED -> is_Some index) -> good cfg r'.
Proof.
  intros Hr Hst r' (E1 & E2 & E3 & E4) Hseal Hkey Hindex. subst r'. kept r Hr.
  apply (progress_stage _ _ _ _ _ _ _ st _ _ _ Hst (good_stage_checked cfg r Hr)); clear E1 E2 E3 E4.
  - destruct (state_is st INDEX_PUBLISHED) eqn:E; [|done]. by destruct (Hindex (bool_decide_eq_true_1 _ E)) as [? ->].
  - destruct (state_in st published_states) eqn:E; [|done]. apply bool_decide_eq_true_1 in E.
    destruct Hkey as (k & Hk & _); [|simpl in Hk; by rewrite Hk].
    unfold progress_states, published_states in *. set_solver.
  - destruct (state_in st encrypted_states) eqn:E; [|done]. apply bool_decide_eq_true_1 in E.
    destruct Hseal as [[? ->] [? ->]]; [|done].
    unfold progress_states, encrypted_states, published_states, sealed_stages in *. set_solver.
Qed.

Lemma good_committed r key digest size index :
  good cfg r -> resume_state r = INDEX_PUBLISHED ->
  let r' := with_index_id index (with_object_key key (with_ciphertext digest size
              (with_failure None (with_resume (resume_state r) (with_state COMMITTED r))))) in
  evidence_ok r' -> is_Some digest -> is_Some size -> keyed r' -> is_Some index ->
  good cfg (with_owner None None r').
Proof.
  intros Hr Hres r' (E1 & E2 & E3 & E4) [d Hd] [n Hn] Hkey [x Hx]. subst r'. simpl in *. subst digest size index.
  kept r Hr.
  destruct Hkey as (k & Hk & _). simpl in Hk. subst key.
  by apply (commit_stage _ _ _ _ _ _ _ _ _ _ (good_stage_checked cfg r Hr)).
Qed.
End updates.
