(* ===== verification/QueueModel.v ===== *)
(** * The queue as a finite map

    The records that [transition] and [reconcile_prepared] publish are good.  A world whose
    queue files were all written by the outbox is a finite map from file names to records.
    In such a world reading finds the record of the map, the scan returns all records in
    order and moves nothing away, and a publication changes one entry or none. *)

From Stdlib Require Import SpecFloat.
From S2P Require Import Prelude PyStr PyObj OutboxData RecordProps OutboxStore PreparedOutbox PccOutbox OutboxLogic QueueRecords.

Section updates.
Context `{PyRuntime} (cfg : config).
Hypothesis cfg_ok : config_ok cfg.

Lemma reason_code_ok details d code : reason_code details d = Ok code -> is_identifier code = true.
Proof. apply _identifier_inv. Qed.

Lemma good_evidence r : good cfg r -> evidence_ok r.
Proof. intros [[] _ _ _]. by repeat split. Qed.

Lemma next_state_progress r st :
  _next_state_valid r st = true -> st ∈ progress_states ->
  (st ∈ [OBJECT_UPLOADED; INDEX_PUBLISHED] -> resume_state r ∈ sealed_stages)
  /\ (st = INDEX_PUBLISHED -> resume_state r ∈ [OBJECT_UPLOADED; INDEX_PUBLISHED]).
Proof.
  intros Hv Hst. unfold progress_states, sealed_stages in *. rewrite !elem_of_cons, elem_of_nil in Hst.
  destruct Hst as [-> | [-> | [-> | [-> | []]]]]; simpl in Hv; apply bool_decide_eq_true_1 in Hv; rewrite Hv;
    split; set_solver.
Qed.

(** The three details in sequence: the evidence of the result. *)
Lemma details_ok old st details r r1 r2 r3 :
  evidence_ok r ->
  object_key_detail old st details r = Ok r1 -> ciphertext_size_detail old st details r1 = Ok r2 ->
  index_id_detail details r2 = Ok r3 ->
  evidence_ok r3 /\ same_core r r3
  /\ (has_key "object_key" details = true \/ keyed r -> keyed r3)
  /\ (is_Some (ciphertext_sha256 r) \/ has_key "object_key" details = true -> is_Some (ciphertext_sha256 r3))
  /\ (is_Some (ciphertext_size r) \/ has_key "ciphertext_size" details = true -> is_Some (ciphertext_size r3))
  /\ (is_Some (index_id r) \/ has_key "index_id" details = true -> is_Some (index_id r3)).
Proof.
  intros E0 H1 H2 H3.
  destruct (object_key_detail_ok _ _ _ _ _ H1 E0) as (E1 & C1 & I1 & S1 & K1 & D1 & D1').
  destruct (ciphertext_size_detail_ok _ _ _ _ _ H2 E1) as (E2 & C2 & I2 & K2 & D2 & S2).
  destruct (index_id_detail_ok _ _ _ H3 E2) as (E3 & C3 & K3 & D3 & S3 & I3).
  split; [done |]. split; [by unfold same_core in *; rewrite C1, C2 |].
  unfold keyed in *. rewrite K3, D3, S3, K2, D2. rewrite I2, I1 in I3. rewrite S1 in S2.
  repeat split; try done. intros []; auto.
Qed.

Lemma good_transitioned r st details r' :
  good cfg r -> state_in (state r) owned_states = true -> _next_state_valid r st = true ->
  details_complete st details = true -> transitioned r st details = Ok r' -> good cfg r'.
Proof.
  intros Hr Hown Hv Hc Ht. unfold transitioned in Ht.
  destruct (state_is st RETRYABLE_FAILURE) eqn:E1.
  { apply bool_decide_eq_true_1 in E1 as ->. inv_ok.
    replace (with_owner None None _) with (with_failure (Some x) (with_owner None None (with_state RETRYABLE_FAILURE r)))
      by done.
    apply good_failed; [done | done | by left | by eapply reason_code_ok]. }
  destruct (state_in st [QUARANTINED; CAPTURE_GAP; POLICY_DENIED]) eqn:E2.
  { apply bool_decide_eq_true_1 in E2. inv_ok.
    apply good_failed; [done | done | set_solver | by eapply reason_code_ok]. }
  apply bind_Ok_inv in Ht as (r1 & H1 & Ht). apply bind_Ok_inv in Ht as (r2 & H2 & Ht).
  apply bind_Ok_inv in Ht as (r3 & H3 & Ht). injection Ht as <-.
  destruct (details_ok _ _ _ _ _ _ _ (good_evidence r Hr : evidence_ok (with_failure None (with_resume _ (with_state st r)))) H1 H2 H3)
    as (E3 & C3 & K3 & D3 & S3 & I3). clear H1 H2 H3.
  apply same_core_fields in C3 as (key & digest & size & index & ->). simpl in D3, S3, I3.
  destruct (good_stage cfg r Hr) as [G1 G2 G3].
  destruct (state_is st COMMITTED) eqn:E4.
  - apply bool_decide_eq_true_1 in E4 as ->. simpl in Hv. apply andb_true_iff in Hv as [Hv Hi].
    apply bool_decide_eq_true_1 in Hv. destruct G1 as [? ?]; [rewrite Hv; unfold sealed_stages; set_solver |].
    apply good_committed; auto. apply K3. right. apply G2. rewrite Hv. set_solver.
  - assert (st ∈ progress_states) as Hst.
    { unfold progress_states. destruct st; try discriminate; rewrite !elem_of_cons; tauto. }
    destruct (next_state_progress _ _ Hv Hst) as [N1 N2].
    apply good_progress; auto.
    + intros Hin. unfold sealed_stages in Hin. rewrite !elem_of_cons, elem_of_nil in Hin.
      destruct Hin as [-> | [-> | [-> | []]]]; simpl in Hc.
      * apply andb_true_iff in Hc as [? ?]. auto.
      * destruct G1 as [? ?]; [apply N1; set_solver |]. auto.
      * destruct G1 as [? ?]; [apply N1; set_solver |]. auto.
    + intros Hin. apply K3. rewrite !elem_of_cons, elem_of_nil in Hin.
      destruct Hin as [-> | [-> | []]]; [by left |]. right. apply G2. auto.
    + intros ->. auto.
Qed.

(** *** Reattaching a prepared record *)
Definition prepared_fits (p : prepared) : Prop := (prepared_size p <= _MAX_CIPHERTEXT_BYTES)%Z.

Lemma prepared_size_ok p : prepared_ok p -> prepared_fits p -> size_ok (prepared_size p) = true.
Proof. intros (_ & _ & _ & H0) H1. unfold size_ok. apply andb_true_iff; split; by apply Z.leb_le. Qed.

Lemma unowned_lease r : good cfg r -> owner r = None -> lease_until r = None.
Proof.
  intros Hr Ho. pose proof (good_stage_checked cfg r Hr) as Hs. unfold stage_checked, stage_checks in Hs.
  rewrite Ho in Hs. rewrite !andb_true_iff, !negb_true_iff in Hs. destruct Hs as [[[[_ Hs] _] _] _].
  by destruct (lease_until r).
Qed.

(** The stale owner of a record is cleared before it is reattached. *)
Lemma good_reattached r p md final :
  good cfg r -> prepared_ok p -> prepared_fits p -> metadata_ok md ->
  good cfg (reattached (with_owner None None r) (event_id r) p md final).
Proof.
  intros Hr Hp Hfit Hmd.
  destruct (good_checks cfg r Hr) as (Hprim & Hfin & _). destruct Hr as [[] Hst Hh Hsec].
  pose proof Hp as (Hid & _ & Hd & Hn).
  constructor; [constructor; simpl; try done | | done | done].
  - destruct (final_event_id r); [done |]. by destruct final.
  - apply prepared_size_ok; done.
  - apply record_checks_spec. split; [done |]. split; [|done].
    unfold final_checks in *. simpl. destruct (final_event_id r) as [f|]; simpl in *.
    + rewrite andb_false_r in *. simpl in *. apply andb_true_iff in Hfin as [-> ->]. done.
    + rewrite andb_true_r in Hfin. destruct (is_final r); [done |]. destruct final; simpl; [|done].
      by rewrite bool_decide_true.
  - constructor; simpl; [by eauto | |]; set_solver.
Qed.

Lemma good_recovered id sid cp md p seq final :
  is_identifier id = true -> is_identifier sid = true -> checkpoint_ok cp -> metadata_ok md ->
  (1 <= seq)%Z -> prepared_ok p -> prepared_fits p ->
  good cfg (with_ciphertext (Some (prepared_sha256 p)) (Some (prepared_size p))
              (new_record id sid cp md PREPARED_ENCRYPTED PREPARED_ENCRYPTED seq final)).
Proof.
  intros Hid Hsid Hcp Hmd Hseq Hp Hfit.
  pose proof (good_new cfg id sid cp md QUEUED seq final Hid Hsid Hcp Hmd Hseq ltac:(by left)) as Hnew.
  replace (with_ciphertext _ _ _) with
    (reattached (with_owner None None (new_record id sid cp md QUEUED QUEUED seq final)) id p md final)
    by (by destruct final).
  change id with (event_id (new_record id sid cp md QUEUED QUEUED seq final)) at 2.
  by apply good_reattached.
Qed.

Lemma good_detached r :
  good cfg r -> state_in (state r) progress_states = true -> good cfg (with_owner None None r).
Proof.
  intros Hr Hst. pose proof (good_stage_checked cfg r Hr) as Hs. destruct (good_stage cfg r Hr) as [S1 S2 S3].
  destruct (good_wf cfg r Hr). eapply (good_update cfg r); simpl; try done; try apply Hr.
  unfold stage_checked, stage_checks in *. simpl. apply bool_decide_eq_true_1 in Hst.
  rewrite !andb_true_iff in Hs. destruct Hs as [[[[[[[[[[[A1 A2] A3] A4] A5] A6] A7] A8] _] _] _] _].
  rewrite A1, A2, A3, A4, A5, A6, A7, A8. unfold progress_states in Hst.
  rewrite !elem_of_cons, elem_of_nil in Hst. by destruct Hst as [-> | [-> | [-> | [-> | []]]]].
Qed.
End updates.

Abbreviation queue := (gmap string QueueRecord).

(** ** Worlds that hold a queue *)
Section represents.
Context `{PyRuntime}.

Definition stored (r : QueueRecord) : node := Regular (json_content (QueueRecord_to_dict r)) true.

Record represents (q : queue) (w : world) : Prop := {
  rep_files : forall name, is_json_name name = true -> files w !! (QUEUE, name) = stored <$> q !! name;
  rep_names : forall name, is_Some (q !! name) -> is_json_name name = true;
  rep_dir : q ≠ ∅ -> dirs w !! QUEUE = Some true;
}.

Record queue_wf (cfg : config) (q : queue) : Prop := {
  wf_entry : forall name r, q !! name = Some r -> name = json_name (event_id r) /\ good cfg r;
  wf_distinct : forall name name' r r', q !! name = Some r -> q !! name' = Some r' ->
    sequence r = sequence r' -> name = name';
}.

#[export] Instance represents_invariant q : QueueInvariant (represents q).
Proof.
  constructor; [constructor| |].
  - intros w w' [Hf Hd] [R1 R2 R3]. split; [by rewrite Hf | done | auto].
  - intros w d n nd Hd [R1 R2 R3]. split; [|done | done].
    intros name Hn. simpl. rewrite lookup_insert_ne by congruence. auto.
  - intros w d n Hd [R1 R2 R3]. split; [|done | done].
    intros name Hn. simpl. rewrite lookup_delete_ne by congruence. auto.
Qed.

Lemma represents_write q w name r :
  is_json_name name = true -> represents q w -> dirs w !! QUEUE = Some true ->
  represents (<[name := r]> q) (set_files <[(QUEUE, name) := stored r]> w).
Proof.
  intros Hn [R1 R2 R3] Hd. split; [| |done].
  - intros name' Hn'. simpl. destruct (base.decide (name = name')) as [->|Hne].
    + by rewrite !lookup_insert_eq.
    + rewrite !lookup_insert_ne by congruence. auto.
  - intros name' Hs. destruct (base.decide (name = name')) as [->|Hne]; [done |].
    rewrite lookup_insert_ne in Hs by done. auto.
Qed.
End represents.

(** ** Names *)
Lemma chars_inj s t : chars s = chars t -> s = t.
Proof. intros E. by rewrite <- (of_chars_chars s), E, of_chars_chars. Qed.

Lemma json_name_inj a b : json_name a = json_name b -> a = b.
Proof.
  unfold json_name. intros E%(f_equal chars). rewrite !chars_app in E. apply app_inj_2 in E as [E _]; [|done].
  by apply chars_inj.
Qed.


Lemma is_json_name_json id : is_json_name (json_name id) = true.
Proof.
  unfold is_json_name, json_name, endswith. rewrite py_len_app. apply andb_true_iff. split; [apply Nat.leb_le; lia |].
  replace (py_len id + py_len ".json" - py_len ".json") with (py_len id) by lia.
  by rewrite str_drop_app, bool_decide_true.
Qed.

(** ** Computations that may change the queue once

    [ends P m Q R]: from [P], [m] ends in [R] however it ends, and returns [Q]. *)
Definition ends {A} (P : world -> Prop) (m : M A) (Q : A -> Prop) (R : world -> Prop) : Prop :=
  forall w, P w -> R (m w).2 /\ (forall a, (m w).1 = Ok a -> Q a).

Section ends.
Context (P R : world -> Prop).
Hypothesis weaker : forall w, P w -> R w.

Lemma ends_safe {A} (m : M A) Q : safe P m Q -> ends P m Q R.
Proof. intros Hm w Hw. destruct (Hm w Hw). auto. Qed.

Lemma ends_bind {A B} (m : M A) (f : A -> M B) Q Q' :
  safe P m Q -> (forall a, Q a -> ends P (f a) Q' R) -> ends P (m ≫= f) Q' R.
Proof.
  intros Hm Hf w Hw. specialize (Hm w Hw). unfold mbind, M_bind.
  destruct (m w) as [[a|e] w'] eqn:E; simpl in *; destruct Hm as [HI HQ]; [|by split; auto].
  by apply Hf; [apply HQ |].
Qed.

(** The first half changed the queue; the rest leaves it alone. *)
Lemma ends_then {A B} (m : M A) (f : A -> M B) Q Q' :
  ends P m Q R -> (forall a, Q a -> safe R (f a) Q') -> ends P (m ≫= f) Q' R.
Proof.
  intros Hm Hf w Hw. specialize (Hm w Hw). unfold mbind, M_bind.
  destruct (m w) as [[a|e] w'] eqn:E; simpl in *; destruct Hm as [HI HQ]; [|done].
  by apply Hf; [apply HQ |].
Qed.

Lemma ends_catch {A} (m : M A) h Q :
  ends P m Q R -> (forall e k, h e = Some k -> safe R k Q) -> ends P (catch m h) Q R.
Proof.
  intros Hm Hh w Hw. specialize (Hm w Hw). unfold catch.
  destruct (m w) as [[a|e] w'] eqn:E; simpl in *; [done |].
  destruct (h e) eqn:Ek; simpl; [|split; [by apply Hm | done]].
  by eapply Hh; [|apply Hm].
Qed.
End ends.

(** Two halves with a condition of their own in between. *)
Lemma ends_seq {A B} (P N R : world -> Prop) (m : M A) (f : A -> M B) Q Q' :
  (forall w, N w -> R w) -> ends P m Q N -> (forall a, Q a -> ends N (f a) Q' R) -> ends P (m ≫= f) Q' R.
Proof.
  intros Hw Hm Hf w Hpw. specialize (Hm w Hpw). unfold mbind, M_bind.
  destruct (m w) as [[a|e] w'] eqn:E; simpl in *; destruct Hm as [HI HQ]; [|by split; auto].
  by apply Hf; [apply HQ |].
Qed.

(** ** Reading *)
Lemma map_M_pure {A B} (f : A -> M B) (g : A -> B) w l :
  (forall x, x ∈ l -> f x w = (Ok (g x), w)) -> map_M f l w = (Ok (g <$> l), w).
Proof.
  induction l as [|x l IH]; intros Hf; [done |]. csimpl. unfold mbind, M_bind.
  rewrite Hf by left. unfold mbind, M_bind in IH. rewrite IH by (intros; apply Hf; by right). done.
Qed.

Lemma elem_of_names_in d f name : name ∈ names_in d f <-> is_Some (f !! (d, name)).
Proof.
  unfold names_in. rewrite list_elem_of_fmap. split.
  - intros ([d' n] & -> & [Hd Hin]%list_elem_of_filter). simpl in *. subst.
    apply list_elem_of_fmap in Hin as ([k v] & [= <-] & Hin%elem_of_map_to_list). by exists v.
  - intros [v Hv]. exists (d, name). split; [done |]. apply list_elem_of_filter. split; [done |].
    apply list_elem_of_fmap. exists (d, name, v). split; [done |]. by apply elem_of_map_to_list.
Qed.

Lemma NoDup_names_in d f : NoDup (names_in d f).
Proof.
  unfold names_in. apply NoDup_fmap_2_strong.
  - intros [d1 n1] [d2 n2] [? _]%list_elem_of_filter [? _]%list_elem_of_filter. simpl in *. congruence.
  - apply NoDup_filter, NoDup_fst_map_to_list.
Qed.

Section reading.
Context `{Env, PyRuntime} (cfg : config).
Variables (q : queue) (w : world).
Hypotheses (Hrep : represents q w) (Hwf : queue_wf cfg q).

Lemma read_record_at name : is_json_name name = true ->
  _read_record name w = (match q !! name with Some r => Ok r | None => Raise ENotFound end, w).
Proof.
  intros Hn. unfold _read_record, read_json, read_node, mbind, M_bind, get, mret, M_ret. simpl.
  rewrite (rep_files _ _ Hrep) by done. destruct (q !! name) as [r|] eqn:E; [|done].
  destruct (wf_entry _ _ Hwf _ _ E) as [_ Hr]. cbn -[QueueRecord_from_dict].
  unfold lift. by rewrite from_dict_to_dict by apply Hr.
Qed.

Lemma must_read_at id :
  _must_read_unlocked id w =
    (match q !! json_name id with Some r => Ok r | None => Raise (EOutbox "outbox record not found") end, w).
Proof.
  unfold _must_read_unlocked, catch, _path. rewrite read_record_at by apply is_json_name_json.
  by destruct (q !! json_name id).
Qed.

Lemma names_permutation :
  filter (fun n => is_json_name n = true) (scan_order (names_in QUEUE (files w))) ≡ₚ (map_to_list q).*1.
Proof.
  apply NoDup_Permutation.
  - apply NoDup_filter. rewrite scan_perm. apply NoDup_names_in.
  - apply NoDup_fst_map_to_list.
  - intros name. rewrite list_elem_of_filter, scan_perm, elem_of_names_in. split.
    + intros [Hn Hs]. rewrite (rep_files _ _ Hrep) in Hs by done. apply fmap_is_Some in Hs as [r Hr].
      apply list_elem_of_fmap. exists (name, r). split; [done |]. by apply elem_of_map_to_list.
    + intros ([n r] & -> & Hr%elem_of_map_to_list)%list_elem_of_fmap. simpl.
      pose proof (rep_names _ _ Hrep n (ex_intro _ _ Hr)) as Hn. split; [done |].
      rewrite (rep_files _ _ Hrep), Hr by done. by eexists.
Qed.

(** All records, in the order of the scan. *)
Definition scan_result : list QueueRecord :=
  if bool_decide (dirs w !! QUEUE = Some true) then
    merge_sort record_le (omap (fun n => q !! n)
      (filter (fun n => is_json_name n = true) (scan_order (names_in QUEUE (files w)))))
  else [].

Lemma omap_lookup_keys (l : list (string * QueueRecord)) :
  (forall n r, (n, r) ∈ l -> q !! n = Some r) -> omap (fun n => q !! n) l.*1 = l.*2.
Proof.
  induction l as [|[n r] l IH]; intros Hl; csimpl; [done |].
  rewrite (Hl n r) by left. f_equal. apply IH. intros; apply Hl. by right.
Qed.

Lemma scan_result_perm : scan_result ≡ₚ (map_to_list q).*2.
Proof.
  unfold scan_result. case_bool_decide as Hd.
  - rewrite merge_sort_Permutation, names_permutation, omap_lookup_keys; [done |].
    intros n r. by rewrite elem_of_map_to_list.
  - destruct (base.decide (q = ∅)) as [->|Hq]; [by rewrite map_to_list_empty |].
    by destruct Hd; apply (rep_dir _ _ Hrep).
Qed.

(** The scan of a queue finds every record and moves nothing away. *)
Lemma safe_records_at : _safe_records_unlocked w = (Ok (scan_result, [], 0), w).
Proof.
  unfold _safe_records_unlocked, is_dir, listdir, mbind, M_bind, get, mret, M_ret. simpl.
  unfold scan_result. case_bool_decide; [|done].
  rewrite (map_M_pure _ (fun n => q !! n)).
  - unfold scan_result. rewrite length_fmap.
    set (names := filter _ _). assert (omap id ((fun n => q !! n) <$> names) = omap (fun n => q !! n) names) as ->.
    { clear. induction names as [|n l IH]; csimpl; [done |]. change (id (q !! n)) with (q !! n). rewrite IH. by destruct (q !! n). }
    assert (length names = length (omap (fun n => q !! n) names)) as <-.
    { subst names. rewrite names_permutation, omap_lookup_keys by (intros; by apply elem_of_map_to_list).
      by rewrite !length_fmap. }
    by rewrite Nat.sub_diag.
  - intros name [Hn Hin]%list_elem_of_filter. rewrite scan_perm, elem_of_names_in in Hin.
    rewrite (rep_files _ _ Hrep), fmap_is_Some in Hin by done. destruct Hin as [r Hr].
    unfold scan_entry, catch, mbind, M_bind. rewrite read_record_at, Hr by done. done.
Qed.
End reading.
