(* ===== verification/QueueSpec.v ===== *)
(** * The abstract queue

    The specification the outbox implements: a finite map of records whose entries
    change one at a time, each by one of the updates below, made by the owner of a
    live claim or, where no owner is named, by anyone. *)

From S2P Require Import Prelude PyStr PyObj OutboxData RecordProps OutboxStore PreparedOutbox PccOutbox.
From S2P Require Import OutboxLogic QueueRecords QueueModel.
From Stdlib Require Import SpecFloat.

Section spec.
Context `{Env, PyRuntime} (cfg : config).
(** The targets and details that transitions are asked for. *)
Variable permitted : QueueState -> dict -> Prop.

(** A reading of the clock that [_now] accepts. *)
Definition reading (now : flt) : Prop :=
  exists n, _finite_number (clock n) = true /\ num_ltb (clock n) 0 = false /\ now = to_float (clock n).

(** What [_require_claim] establishes. *)
Definition holds_claim (r : QueueRecord) (o : string) (now : flt) : Prop :=
  state_in (state r) owned_states = true /\ owner r = Some o
  /\ exists l, lease_until r = Some l /\ SFleb l now = false.

Definition unclaimed (r : QueueRecord) : Prop :=
  owner r = None \/ exists now, reading now /\ lease_expired r now = true.

Inductive update (r : QueueRecord) : option string -> QueueRecord -> Prop :=
| u_claim o now : _claimable r = true -> reading now -> is_identifier o = true ->
    update r (Some o) (claimed_record cfg r o now)
| u_takeover o now now' : state_in (state r) owned_states = true -> reading now -> lease_expired r now = true ->
    reading now' -> is_identifier o = true ->
    update r (Some o) (with_owner (Some o) (Some (fadd now' (lease_seconds r))) r)
| u_renew o now now' : holds_claim r o now -> reading now -> reading now' ->
    update r (Some o) (with_owner (owner r) (Some (fadd now' (lease_seconds r))) r)
| u_transition o now st details r' : holds_claim r o now -> reading now -> state r ≠ st ->
    _next_state_valid r st = true -> details_complete st details = true -> permitted st details ->
    transitioned r st details = Ok r' -> update r (Some o) r'
| u_prepare o now digest size : holds_claim r o now -> reading now -> resume_state r = SOURCE_SNAPSHOTTED ->
    fullmatch _DIGEST digest = true -> size_ok size = true -> update r (Some o) (prepared_update r digest size)
| u_quota o now : holds_claim r o now -> reading now -> resume_state r = SOURCE_SNAPSHOTTED ->
    update r (Some o) (quota_gap r)
| u_release o now : holds_claim r o now -> reading now -> state_in (state r) [CLAIMED; PREPARED_ENCRYPTED] = true ->
    resume_state r = PREPARED_ENCRYPTED ->
    update r (Some o) (with_owner None None (with_state PREPARED_ENCRYPTED r))
| u_expand o now children cp : holds_claim r o now -> reading now ->
    state_in (state r) [CLAIMED; SOURCE_SNAPSHOTTED] = true ->
    Forall (fun i => is_identifier i = true) children -> length children <= _MAX_EVENT_IDS ->
    expanded_checkpoint_ok cp -> update r (Some o) (expanded_record r children cp)
| u_coalesce id final ids evicted : state_in (state r) waiting_states = true -> is_identifier id = true ->
    coalesced_ids r id final = Some (ids, evicted) -> update r None (coalesced_record r ids id final)
| u_detach : unclaimed r -> state_in (state r) progress_states = true -> update r None (with_owner None None r)
| u_reattach p md final : unclaimed r -> state_in (resume_state r) sealed_stages = false -> state r ≠ COMMITTED ->
    prepared_ok p -> prepared_fits p -> metadata_ok md ->
    update r None (reattached (with_owner None None r) (event_id r) p md final)
| u_quarantine code : state r = POLICY_DENIED -> is_identifier code = true ->
    update r None (with_failure (Some code) (with_state QUARANTINED r)).

Definition record_size (r : QueueRecord) : Z := byte_len (json_content (QueueRecord_to_dict r)).
Definition queue_size (q : queue) : Z := sum (record_size <$> (map_to_list q).*2).
(** The sequence number a new record gets. *)
Definition fresh_sequence (q : queue) (seq : Z) : Prop :=
  (1 <= seq)%Z /\ forall name r, q !! name = Some r -> (sequence r < seq)%Z.

Inductive qstep : option string -> queue -> queue -> Prop :=
| q_update who q name r r' : q !! name = Some r -> update r who r' -> qstep who q (<[name := r']> q)
| q_enqueue q id sid cp md st seq final :
    is_identifier id = true -> is_identifier sid = true -> checkpoint_ok cp -> metadata_ok md ->
    st ∈ [QUEUED; POLICY_DENIED; QUARANTINED] -> fresh_sequence q seq ->
    (is_Some (q !! json_name id) ->
       exists name r, q !! name = Some r /\ name ≠ json_name id /\ id ∈ event_ids r) ->
    (Z.of_nat (size q) < max_events cfg)%Z ->
    (queue_size q + record_size (new_record id sid cp md st QUEUED seq final) <= max_bytes cfg)%Z ->
    qstep None q (<[json_name id := new_record id sid cp md st QUEUED seq final]> q)
| q_recover q id sid cp md p seq final :
    is_identifier id = true -> is_identifier sid = true -> checkpoint_ok cp -> metadata_ok md ->
    prepared_ok p -> prepared_fits p -> fresh_sequence q seq -> q !! json_name id = None ->
    (Z.of_nat (size q) < max_events cfg)%Z ->
    (queue_size q + record_size (with_ciphertext (Some (prepared_sha256 p)) (Some (prepared_size p))
       (new_record id sid cp md PREPARED_ENCRYPTED PREPARED_ENCRYPTED seq final)) <= max_bytes cfg)%Z ->
    qstep None q (<[json_name id := with_ciphertext (Some (prepared_sha256 p)) (Some (prepared_size p))
                     (new_record id sid cp md PREPARED_ENCRYPTED PREPARED_ENCRYPTED seq final)]> q).

(** The lease of every claim made at a reading of the clock is finite. *)
Definition leases_ok : Prop := forall now s, reading now -> s = f_of_Z 60 \/ s = cfg_lease_seconds cfg ->
  lease_ok (fadd now s) = true.

Hypothesis cfg_ok : config_ok cfg.
Hypothesis Hleases : leases_ok.

Lemma transitioned_identity r st details r' :
  transitioned r st details = Ok r' -> event_id r' = event_id r /\ sequence r' = sequence r.
Proof.
  unfold transitioned. intros Ht. repeat case_match; inv_ok; try done.
  all: repeat match goal with
  | H : object_key_detail _ _ _ _ = Ok _ |- _ => unfold object_key_detail in H; destruct (dict_get _ _) as [[]|]; inv_ok
  | H : ciphertext_size_detail _ _ _ _ = Ok _ |- _ => unfold ciphertext_size_detail in H; destruct (dict_get _ _) as [[]|]; inv_ok
  | H : index_id_detail _ _ = Ok _ |- _ => unfold index_id_detail in H; destruct (dict_get _ _) as [[]|]; inv_ok
  end; try (by case_match); by split.
Qed.

(** Updates keep a record's identity and its well-formedness. *)
Lemma update_identity r who r' : update r who r' -> event_id r' = event_id r /\ sequence r' = sequence r.
Proof. destruct 1; try done. by eapply transitioned_identity. Qed.

Lemma update_good r who r' : good cfg r -> update r who r' -> good cfg r'.
Proof.
  intros Hr Hu. destruct Hu; repeat match goal with H : holds_claim _ _ _ |- _ => destruct H as (? & ? & ? & ? & ?) end.
  - apply good_claimed; auto.
  - apply good_leased; auto. apply Hleases; [done | apply Hr].
  - match goal with H : owner r = _ |- _ => rewrite H end. apply good_leased; auto; [|apply Hleases; [done | apply Hr]].
    destruct Hr as [[] _ _ _]. by match goal with H : owner r = _ |- _ => rewrite H in wf_owner end.
  - by eapply good_transitioned.
  - by apply good_prepared.
  - by apply good_quota_gap.
  - by apply good_released.
  - by apply good_expanded.
  - by eapply good_coalesced.
  - by apply good_detached.
  - by apply good_reattached.
  - by apply good_quarantined.
Qed.

Lemma qstep_wf who q q' : queue_wf cfg q -> qstep who q q' -> queue_wf cfg q'.
Proof.
  intros [W1 W2] Hs.
  assert (forall q name r', (forall n r, q !! n = Some r -> n = json_name (event_id r) /\ good cfg r) ->
    (forall n r, q !! n = Some r -> n ≠ name -> sequence r' ≠ sequence r) ->
    (forall n n' r r', q !! n = Some r -> q !! n' = Some r' -> sequence r = sequence r' -> n = n') ->
    name = json_name (event_id r') -> good cfg r' -> queue_wf cfg (<[name := r']> q)) as Hins.
  { clear. intros q name r' W1 Hne W2 Hn Hg. split.
    - intros n r [[<- <-]|[? ?]]%lookup_insert_Some; auto.
    - intros n n' r1 r2 [[<- <-]|[? ?]]%lookup_insert_Some [[<- <-]|[? ?]]%lookup_insert_Some E; try done.
      + by destruct (Hne n' r2).
      + by destruct (Hne n r1).
      + eauto. }
  destruct Hs as [who q name r r' Hq Hu | q id sid cp md st seq final ? ? ? ? ? [Hs1 Hs2]
                 | q id sid cp md p seq final ? ? ? ? ? ? [Hs1 Hs2]].
  - destruct (update_identity _ _ _ Hu) as [Hid Hseq], (W1 _ _ Hq) as [-> Hg].
    apply Hins; [done | | done | by rewrite Hid | by eapply update_good].
    intros n r0 Hn Hne E. apply Hne. eapply W2; [done | done | congruence].
  - apply Hins; [done | | done | done | by apply good_new].
    intros n r Hn _ E. simpl in E. apply Hs2 in Hn. lia.
  - apply Hins; [done | | done | done | by apply good_recovered].
    intros n r Hn _ E. simpl in E. apply Hs2 in Hn. lia.
Qed.
End spec.
