(* ===== verification/QueueRefine.v ===== *)
(** * The outbox implements the abstract queue

    From a world that represents a well-formed queue, every operation ends in a
    world that represents the same queue or one step of it. *)

From S2P Require Import Prelude PyStr PyObj OutboxData RecordProps OutboxStore PreparedOutbox PccOutbox.
From S2P Require Import OutboxLogic QueueRecords QueueModel QueueSpec.
From Stdlib Require Import SpecFloat.

Section refine.
Context `{Env, PyRuntime} (cfg : config).
Variable permitted : QueueState -> dict -> Prop.
Hypothesis cfg_ok : config_ok cfg.
Variable q : queue.
Hypothesis Hwf : queue_wf cfg q.

(** The same queue, or one step of it made by [who]. *)
Definition stepped (who : option string) (w : world) : Prop :=
  represents q w \/ exists q', qstep cfg permitted who q q' /\ represents q' w.
Definition refines {A} (who : option string) (m : M A) : Prop :=
  ends (represents q) m (fun _ => True) (stepped who).

Lemma stepped_same who w : represents q w -> stepped who w.
Proof. by left. Qed.

Lemma refines_safe {A} who (m : M A) : safe (represents q) m (fun _ => True) -> refines who m.
Proof. apply ends_safe, stepped_same. Qed.

Lemma refines_bind {A B} who (m : M A) (f : A -> M B) Q :
  safe (represents q) m Q -> (forall a, Q a -> refines who (f a)) -> refines who (m ≫= f).
Proof. apply ends_bind, stepped_same. Qed.

Lemma refines_raise {A} who e : refines who (raise e : M A).
Proof. apply refines_safe, safe_raise. Qed.
Lemma refines_ret {A} who (a : A) : refines who (mret a).
Proof. by apply refines_safe, safe_ret. Qed.

Lemma refines_lift {A B} who (r : result A) (f : A -> M B) :
  (forall a, r = Ok a -> refines who (f a)) -> refines who (lift r ≫= f).
Proof. apply refines_bind, safe_lift_eq. Qed.
Lemma refines_guard {B} who b e (m : M B) : (b = false -> refines who m) -> refines who (guard b e ;; m).
Proof. intros Hm. eapply refines_bind; [apply safe_guard_eq | auto]. Qed.
Lemma refines_with_lock {A} who t (m : M A) : refines who m -> refines who (with_lock t m).
Proof. intros Hm. eapply refines_bind; [apply safe_lock, _ | done]. Qed.
Lemma refines_layout {B} who (m : M B) : refines who m -> refines who (_ensure_layout ;; m).
Proof.
  intros Hm. eapply refines_bind; [|intros ? _; exact Hm].
  eapply safe_bind; [apply safe_map_M; intros; apply safe_ensure_directory, _ |].
  intros l _. by apply safe_when; [apply safe_sync_directory, _ |].
Qed.
Lemma refines_read {B} who id (f : QueueRecord -> M B) :
  (forall r, q !! json_name id = Some r -> event_id r = id -> good cfg r -> refines who (f r)) ->
  refines who (_must_read_unlocked id ≫= f).
Proof.
  intros Hf w Hw. unfold mbind, M_bind. rewrite (must_read_at cfg q w Hw Hwf).
  destruct (q !! json_name id) as [r|] eqn:E; [|split; [by left | done]].
  destruct (wf_entry _ _ Hwf _ _ E) as [Hid%json_name_inj Hg]. by apply Hf.
Qed.
Lemma refines_must_read {B} who v (f : QueueRecord -> M B) :
  (forall r, q !! json_name (event_id r) = Some r -> good cfg r -> refines who (f r)) ->
  refines who (must_read v ≫= f).
Proof.
  intros Hf w Hw. unfold must_read. unfold mbind, M_bind, lift. destruct (_identifier v) as [id|e]; [|split; [by left | done]].
  apply (refines_read who id f); [|done]. intros r Hr <- Hg. auto.
Qed.

Lemma safe_now : safe (represents q) _now reading.
Proof.
  intros w Hw. unfold _now. split; [change (represents q (next_tick w)); by apply (inv_same w) |]. intros now Hn.
  cbn [fst] in Hn.
  apply bind_Ok_inv in Hn as (u & Hu & [= <-]). apply raise_if_Ok_inv in Hu. bools.
  exists (ticks w). by repeat split.
Qed.

Lemma safe_require_claim r o :
  safe (represents q) (_require_claim r o) (fun _ => exists now, reading now /\ holds_claim r o now).
Proof.
  unfold _require_claim. destruct (lease_until r) as [l|] eqn:El; [|apply safe_raise].
  destruct (state_in (state r) owned_states && bool_decide (owner r = Some o)) eqn:E; [|apply safe_raise].
  bools. eapply safe_bind; [apply safe_now |]. intros now Hnow. apply safe_guard. intros Hl.
  exists now. split; [done |]. split; [done |]. split; [done |]. eauto.
Qed.

Lemma refines_claim {B} who r o (m : M B) :
  (forall now, reading now -> holds_claim r o now -> refines who m) -> refines who (_require_claim r o ;; m).
Proof. intros Hm. eapply refines_bind; [apply safe_require_claim |]. intros _ (now & ? & ?). eauto. Qed.
Lemma refines_now {B} who (f : flt -> M B) :
  (forall now, reading now -> refines who (f now)) -> refines who (_now ≫= f).
Proof. apply refines_bind, safe_now. Qed.

(** *** Publishing *)
Lemma publish_json_ends name r :
  is_json_name name = true ->
  ends (represents q) (publish_json QUEUE name (QueueRecord_to_dict r)) (fun _ => True)
    (fun w => represents q w \/ represents (<[name := r]> q) w).
Proof.
  intros Hn w Hw. split; [|done]. unfold publish_json.
  destruct (publish_bytes_spec QUEUE name (json_content (QueueRecord_to_dict r)) w) as (w' & Hs & [[x ->]|(Hd & y & ->)]).
  - left. by apply (inv_same w).
  - right. apply represents_write; [done | by apply (inv_same w) | done].
Qed.

(** A process that dies while it publishes a record leaves the old queue or the new one. *)
Lemma killed_represents w r n :
  represents q w ->
  let w' := (publish_killed n QUEUE (json_name (event_id r)) (json_content (QueueRecord_to_dict r)) w).2 in
  represents q w' \/ represents (<[json_name (event_id r) := r]> q) w'.
Proof.
  intros Hw. unfold publish_killed, mbind, M_bind.
  destruct (publish_start_spec QUEUE (json_name (event_id r)) w) as (w1 & Hs & [->|(e & k & Hd & Hfresh & ->)]).
  { left. by apply (inv_same w). }
  assert (represents q w1) as Hw1 by by apply (inv_same w). cbn [fst snd].
  destruct (publish_calls_spec QUEUE (json_name (event_id r)) (json_content (QueueRecord_to_dict r)) n e _
    (partial "") w1 Hfresh (temp_fresh _ _) eq_refl) as (x & w2 & -> & Hp & _).
  destruct Hp as [m Hm|]; [left | right; apply represents_write; [apply is_json_name_json | done..]].
  destruct Hw1 as [R1 R2 R3]. split; [|done | done]. intros name Hn. simpl. rewrite lookup_insert_ne; [by apply R1 |].
  intros [= E]. by rewrite <- E, temp_not_json in Hn.
Qed.

Lemma refines_publish who r r' :
  q !! json_name (event_id r) = Some r -> update cfg permitted r who r' -> refines who (_publish_record_unlocked r').
Proof.
  intros Hq Hu w Hw. split; [|done]. destruct (update_identity _ _ _ _ _ Hu) as [Hid _].
  destruct (publish_json_ends (json_name (event_id r')) r' (is_json_name_json _) w Hw) as [[?|?] _]; [by left |].
  right. eexists. split; [|done]. rewrite Hid. by eapply q_update.
Qed.

Lemma refines_publish_and_return who r r' :
  q !! json_name (event_id r) = Some r -> update cfg permitted r who r' -> refines who (publish_and_return r').
Proof.
  intros Hq Hu. eapply (ends_then _ _ _ _ (fun _ => True)); [by eapply refines_publish |].
  intros _ _. by apply safe_ret.
Qed.
Lemma refines_fmap {A B} who (f : A -> B) (m : M A) : refines who m -> refines who (f <$> m).
Proof. intros Hm. eapply (ends_then _ _ _ _ (fun _ => True)); [done |]. intros; by apply safe_ret. Qed.

(** *** The scan *)
Definition all_records (rs : list QueueRecord) : Prop := rs ≡ₚ (map_to_list q).*2.

Lemma all_records_at rs r : all_records rs -> r ∈ rs -> q !! json_name (event_id r) = Some r /\ good cfg r.
Proof.
  unfold all_records. intros Hrs Hin. rewrite Hrs in Hin. apply list_elem_of_fmap in Hin as ([n r'] & -> & Hin%elem_of_map_to_list).
  destruct (wf_entry _ _ Hwf _ _ Hin) as [-> ?]. done.
Qed.

Lemma record_at_all rs name r : all_records rs -> q !! name = Some r -> r ∈ rs.
Proof.
  unfold all_records. intros Hrs Hq. rewrite Hrs. apply list_elem_of_fmap. exists (name, r). split; [done |]. by apply elem_of_map_to_list.
Qed.

Lemma safe_scan : safe (represents q) _safe_records_unlocked (fun s => all_records s.1.1).
Proof.
  intros w Hw. rewrite (safe_records_at cfg q w Hw Hwf). split; [done |]. intros a [= <-].
  by apply (scan_result_perm cfg q w Hw).
Qed.

Lemma refines_scan {B} who (f : _ -> M B) :
  (forall s, all_records s.1.1 -> refines who (f s)) -> refines who (_safe_records_unlocked ≫= f).
Proof. apply refines_bind, safe_scan. Qed.

Lemma sum_permutation l l' : l ≡ₚ l' -> sum l = sum l'.
Proof. unfold sum. induction 1; simpl; lia. Qed.

Lemma safe_queue_bytes rs :
  all_records rs -> safe (represents q) (queue_bytes rs) (fun n => n = queue_size q).
Proof.
  intros Hrs w Hw. unfold queue_bytes, mbind, M_bind. rewrite (map_M_pure _ record_size).
  - split; [done |]. intros n [= <-]. unfold queue_size. apply sum_permutation. unfold all_records in Hrs. by rewrite Hrs.
  - intros r Hr. destruct (all_records_at rs r Hrs Hr) as [Hq _].
    unfold stat_size, read_node, mbind, M_bind, get, mret, M_ret, _path. simpl.
    by rewrite (rep_files _ _ Hw), Hq by apply is_json_name_json.
Qed.

Lemma next_sequence_fresh rs : all_records rs -> fresh_sequence q (next_sequence rs).
Proof.
  intros Hrs. unfold next_sequence. set (m := foldr _ _ _).
  assert (forall l, (0 <= foldr (fun r m => Z.max (sequence r) m) 0 l)%Z
    /\ forall r, r ∈ l -> (sequence r <= foldr (fun r m => Z.max (sequence r) m) 0 l)%Z) as Hm.
  { induction l as [|r l [IH1 IH2]]; simpl; [split; [lia | by intros ? ?%not_elem_of_nil] |].
    split; [lia |]. intros r' [->|Hr]%elem_of_cons; [lia |]. specialize (IH2 r' Hr). lia. }
  destruct (Hm rs) as [H1 H2]. split; [subst m; lia |]. intros name r Hr%(record_at_all rs _ _ Hrs).
  specialize (H2 r Hr). subst m. lia.
Qed.

Lemma all_records_length rs : all_records rs -> length rs = size q.
Proof. unfold all_records. intros ->. by rewrite length_fmap, length_map_to_list. Qed.

Lemma find_record rs p r : all_records rs -> find p rs = Some r ->
  q !! json_name (event_id r) = Some r /\ good cfg r /\ p r = true.
Proof.
  intros Hrs [Hin%list_elem_of_In Hp]%find_some. by destruct (all_records_at rs r Hrs Hin).
Qed.

(** *** The claim operations *)

(** Who an owner argument stands for, when it is an identifier at all. *)
Definition acts (own : pyobj) (who : option string) : Prop := forall o, _identifier own = Ok o -> who = Some o.

Lemma refine_claim own who : acts own who -> refines who (claim cfg own).
Proof.
  intros Hact. apply refines_lift. intros o Ho. pose proof (Hact o Ho) as ->.
  apply refines_with_lock, refines_layout, refines_scan. intros s Hs.
  destruct (find _claimable s.1.1) as [r|] eqn:E; [|apply refines_ret].
  apply (find_record _ _ _ Hs) in E as (Hq & _ & Hc). apply refines_now. intros now Hnow.
  eapply refines_fmap, refines_publish_and_return; [done |]. apply u_claim; [done | done | by eapply _identifier_inv].
Qed.

Lemma expired_unclaimed r now : reading now -> lease_expired r now = true -> unclaimed r.
Proof. right. eauto. Qed.

Lemma refine_claim_specific v own take who : acts own who -> refines who (claim_specific cfg v own take).
Proof.
  intros Hact. apply refines_lift. intros id _. apply refines_lift. intros o Ho. pose proof (Hact o Ho) as ->.
  apply refines_lift. intros t _. apply refines_with_lock, refines_layout, refines_read. intros r Hq <- Hg.
  case_match; [apply refines_ret |]. apply refines_now. intros now Hnow.
  destruct (_claimable r) eqn:Hc.
  - eapply refines_fmap, refines_publish_and_return; [done |]. apply u_claim; [done | done | by eapply _identifier_inv].
  - apply refines_guard. intros Hb. bools. repeat match goal with H : negb _ = false |- _ => apply negb_false_iff in H end.
    eapply refines_fmap, refines_publish_and_return; [done |].
    eapply u_takeover; try done. by eapply _identifier_inv.
Qed.

Lemma refine_renew v own who : acts own who -> refines who (renew v own).
Proof.
  intros Hact. apply refines_lift. intros o Ho. pose proof (Hact o Ho) as ->. apply refines_with_lock, refines_must_read.
  intros r Hq Hg. apply refines_claim. intros now ? ?. apply refines_now. intros now' ?.
  eapply refines_publish_and_return; [done | by eapply u_renew].
Qed.

Lemma refine_takeover v own who : acts own who -> refines who (takeover v own).
Proof.
  intros Hact. apply refines_lift. intros o Ho. pose proof (Hact o Ho) as ->. apply refines_with_lock, refines_must_read.
  intros r Hq Hg. eapply (refines_bind _ _ _ (fun _ => exists now, reading now /\ state_in (state r) owned_states = true
    /\ lease_expired r now = true)).
  - destruct (_ && _) eqn:E; [|apply safe_raise]. bools. eapply safe_bind; [apply safe_now |]. intros now ?.
    apply safe_guard. intros Hl%negb_false_iff. eauto.
  - intros _ (now & ? & ? & ?). apply refines_now. intros now' ?.
    eapply refines_publish_and_return; [done |]. apply (u_takeover _ _ _ _ now now'); try done. by eapply _identifier_inv.
Qed.

(** *** Transitions *)
Lemma refine_transition v own st details who : acts own who ->
  (forall s, QueueState_of st = Some s -> details_complete s details = true /\ permitted s details) ->
  refines who (transition v own st details).
Proof.
  intros Hact Hc. apply refines_lift. intros o Ho. pose proof (Hact o Ho) as ->. apply refines_lift. intros s Hs.
  destruct (Hc s) as [Hcomplete Hpermitted]; [by destruct (QueueState_of st); simplify_eq |].
  apply refines_with_lock, refines_must_read. intros r Hq Hg. apply refines_lift. intros b _.
  destruct (b || _); [apply refines_ret |]. apply refines_claim. intros now ? ?.
  destruct (state_is (state r) s) eqn:Hst.
  - apply refines_safe, safe_lift. done.
  - apply refines_guard. intros Hv%negb_false_iff. apply refines_lift. intros next Hnext.
    eapply refines_publish_and_return; [done |]. eapply u_transition; try done.
    by apply bool_decide_eq_false_1 in Hst.
Qed.

(** *** Preparation *)
Lemma byte_len_nonneg c : (0 <= byte_len c)%Z.
Proof. unfold byte_len. lia. Qed.

Lemma safe_prepared_entry_size n : safe (represents q) (prepared_entry_size n) (fun z => (0 <= z)%Z).
Proof.
  eapply safe_bind; [apply safe_read_node_inv |]. intros [[]|] _; try apply safe_raise.
  apply safe_ret, byte_len_nonneg.
Qed.

Lemma safe_prepared_bytes : safe (represents q) _prepared_bytes_unlocked (fun z => (0 <= z)%Z).
Proof.
  eapply safe_bind; [by apply (safe_is_dir _ _ (fun _ => True)) |]. intros [] _; [|by apply safe_ret].
  eapply safe_bind; [by apply (safe_listdir _ _ (fun _ => True)) |]. intros l _.
  eapply safe_bind; [apply safe_map_M; intros; apply safe_prepared_entry_size |]. intros zs Hzs. apply safe_ret.
  unfold sum. induction Hzs; simpl; lia.
Qed.

Lemma safe_existing_prepared_size n : safe (represents q) (existing_prepared_size n) (fun _ => True).
Proof.
  eapply safe_bind; [apply safe_read_node_inv |]. intros [[]|] _; try apply safe_raise; by apply safe_ret.
Qed.

Lemma safe_queue_bytes_after r r' : safe (represents q) (queue_bytes_after r r') (fun _ => True).
Proof.
  eapply safe_bind; [apply safe_scan |]. intros s Hs.
  eapply safe_bind; [by apply safe_queue_bytes |]. intros n _.
  eapply (safe_bind _ _ _ (fun _ => True)).
  - eapply safe_bind; [apply safe_read_node_inv |]. intros [[]|] _; try apply safe_raise. by apply safe_ret.
  - intros; by apply safe_ret.
Qed.

Lemma refines_preparable {B} id own who (f : QueueRecord * bool -> M B) :
  acts own who ->
  (forall r, refines who (f (r, false))) ->
  (forall r o now, who = Some o -> q !! json_name (event_id r) = Some r -> event_id r = id -> reading now -> holds_claim r o now ->
    resume_state r = SOURCE_SNAPSHOTTED -> refines who (f (r, true))) ->
  refines who (preparable id own ≫= f).
Proof.
  intros Hact Hdone Hf w Hw. unfold preparable, mbind, M_bind. rewrite (must_read_at cfg q w Hw Hwf).
  destruct (q !! json_name id) as [r|] eqn:E; [|split; [by left | done]]. destruct (_identifier own) as [o|e] eqn:Ho; cbn [lift]; [|split; [by left | done]].
  pose proof (Hact o Ho) as ->.
  destruct (wf_entry _ _ Hwf _ _ E) as [Hid%json_name_inj Hg].
  destruct (safe_require_claim r o w Hw) as [HI HQ]. unfold lift.
  destruct (_require_claim r o w) as [[u|e] w'] eqn:Ec; simpl in *; [|split; [by left | done]].
  destruct (HQ u eq_refl) as (now & ? & ?).
  destruct (state_is (resume_state r) SOURCE_SNAPSHOTTED) eqn:Es.
  - apply (Hf r o now); try done; [by rewrite <- Hid | by apply bool_decide_eq_true_1 in Es].
  - unfold guard, lift. destruct (raise_if _ _) as [u'|e]; simpl; [by apply Hdone | split; [by left | done]].
Qed.

Hypothesis sha256_hex : forall s, fullmatch _DIGEST (sha256 s) = true.

Lemma refine_prepare_encrypted v own c md who : acts own who -> refines who (prepare_encrypted cfg v own c md).
Proof.
  intros Hact. apply refines_guard. intros Hlen. apply refines_lift. intros id _. apply refines_lift. intros m _.
  apply refines_with_lock, (refines_preparable _ _ who); [done | intros; apply refines_ret |].
  intros r o now -> Hq <- Hnow Hclaim Hres. cbn [fst snd negb]. cbv zeta.
  eapply refines_bind; [apply safe_queue_bytes_after |]. intros n _.
  eapply refines_bind; [apply safe_prepared_bytes |]. intros t _.
  eapply refines_bind; [apply safe_existing_prepared_size |]. intros x _.
  destruct (max_bytes cfg <? _)%Z.
  - eapply refines_publish_and_return; [done | by eapply u_quota].
  - eapply refines_bind; [apply safe_publish_unlocked, _ |]. intros _ _.
    eapply refines_publish_and_return; [done |]. eapply u_prepare; try done; [apply sha256_hex |].
    simpl. unfold size_ok. apply Z.ltb_ge in Hlen. apply andb_true_iff; split; apply Z.leb_le; lia.
Qed.

Lemma safe_ciphertext_file src : safe (represents q) (ciphertext_file src) (fun _ => True).
Proof.
  eapply safe_bind; [apply safe_read_node_inv |]. intros [[c []| |]|] _; try apply safe_raise.
  eapply safe_bind; [apply safe_guard_eq |]. intros; by apply safe_ret.
Qed.

Lemma refine_prepare_encrypted_file v own src md who : acts own who -> src.1 ≠ QUEUE -> refines who (prepare_encrypted_file cfg v own src md).
Proof.
  intros Ho Hsrc. apply refines_lift. intros id _. apply refines_lift. intros m Hm. apply _validate_metadata_ok in Hm.
  apply refines_guard. intros _. eapply refines_bind; [apply safe_ciphertext_file |]. intros c _.
  apply refines_lift. intros p Hp%PreparedFileRecord_init_inv; [|done].
  apply refines_with_lock, (refines_preparable _ _ who); [done | intros; apply refines_ret |].
  intros r o now -> Hq <- Hnow Hclaim Hres. cbn [fst snd negb]. cbv zeta.
  eapply refines_bind; [apply safe_queue_bytes_after |]. intros n _.
  eapply refines_bind; [apply safe_prepared_bytes |]. intros t _.
  destruct (max_bytes cfg <? _)%Z.
  - eapply refines_publish_and_return; [done | by eapply u_quota].
  - eapply refines_bind; [apply safe_publish_file_unlocked; [apply _ | done] |]. intros _ _.
    eapply refines_publish_and_return; [done |]. eapply u_prepare; try done; apply Hp.
Qed.

Lemma refine_release v own who : acts own who -> refines who (release v own).
Proof.
  intros Hact. apply refines_lift. intros id _. apply refines_lift. intros o Ho. pose proof (Hact o Ho) as ->.
  apply refines_with_lock, refines_read. intros r Hq <- Hg.
  assert (safe (represents q) (_require_prepared_publication_unlocked r) (fun _ => True)) as Hpub.
  { eapply safe_bind; [apply safe_records_prepared |]. intros ps _.
    case_match; [by apply safe_guard | apply safe_raise]. }
  destruct (opt_none (owner r)).
  - apply refines_guard. intros _. eapply refines_bind; [exact Hpub |]. intros; apply refines_ret.
  - apply refines_claim. intros now ? ?. apply refines_guard. intros Hb.
    eapply refines_bind; [exact Hpub |]. intros _ _.
    apply orb_false_iff in Hb as [Hst%negb_false_iff Hres%negb_false_iff%bool_decide_eq_true_1].
    eapply refines_publish_and_return; [done | by eapply u_release].
Qed.

Lemma refine_expand v own kids cp who : acts own who -> refines who (expand v own kids cp).
Proof.
  intros Hact. apply refines_lift. intros id _. apply refines_lift. intros o Ho. pose proof (Hact o Ho) as ->.
  apply refines_lift. intros children Hk. apply refines_lift. intros x Hx. apply _validate_expanded_checkpoint_ok in Hx.
  assert (Forall (fun i => is_identifier i = true) children /\ length children <= _MAX_EVENT_IDS) as [Hid Hlen].
  { unfold read_children in Hk. destruct kids; inv_ok; bools;
      (split; [|by apply Nat.ltb_ge]; match goal with H : map_result _ _ = Ok _ |- _ => apply map_result_Ok in H; revert H end;
       clear; induction 1; constructor; eauto using _identifier_inv). }
  apply refines_with_lock, refines_read. intros r Hq <- Hg. destruct (state_is (state r) TRIGGER_EXPANDED).
  - apply refines_guard. intros _. apply refines_ret.
  - apply refines_claim. intros now ? ?. apply refines_guard. intros Hb%negb_false_iff.
    eapply refines_publish_and_return; [done |]. by eapply u_expand.
Qed.

Lemma refine_quarantine_operator v reason : refines None (quarantine_operator v reason).
Proof.
  apply refines_lift. intros id _. apply refines_lift. intros code Hcode. apply _identifier_inv in Hcode.
  apply refines_with_lock, refines_layout, refines_read. intros r Hq <- Hg.
  apply refines_guard. intros Hb%negb_false_iff%bool_decide_eq_true_1.
  eapply refines_publish_and_return; [done | by apply u_quarantine].
Qed.

(** *** Reading operations *)
Lemma safe_layout : safe (represents q) _ensure_layout (fun _ => True).
Proof.
  eapply safe_bind; [apply safe_map_M; intros; apply safe_ensure_directory, _ |].
  intros l _. by apply safe_when; [apply safe_sync_directory, _ |].
Qed.

Lemma safe_inspect_entry name : is_json_name name = true ->
  safe (represents q) (there ← exists_node QUEUE name; if (there : bool) then scan_entry name else mret None)
    (fun _ => True).
Proof.
  intros Hn w Hw. split; [|done]. unfold exists_node, read_node, mbind, M_bind, get, mret, M_ret. simpl.
  rewrite (rep_files _ _ Hw) by done. destruct (q !! name) as [r|] eqn:E; simpl; [|done].
  unfold scan_entry, catch, mbind, M_bind. by rewrite (read_record_at cfg q w Hw Hwf), E.
Qed.

Lemma safe_storage_unavailable {A} (m : M A) :
  safe (represents q) m (fun _ => True) -> safe (represents q) (storage_unavailable m) (fun _ => True).
Proof.
  intros Hm. apply safe_catch; [done |]. intros e k Hk. case_match; [injection Hk as <-; apply safe_raise | done].
Qed.

Lemma safe_inspect_record v : safe (represents q) (inspect_record v) (fun _ => True).
Proof.
  eapply safe_bind; [apply safe_lift_eq |]. intros id _. apply safe_storage_unavailable, safe_with_lock; [apply _ |].
  eapply safe_bind; [apply safe_layout |]. intros _ _. apply safe_inspect_entry, is_json_name_json.
Qed.

Lemma safe_check_prepared n : safe (represents q) (check_prepared n) (fun _ => True).
Proof.
  apply safe_catch.
  - eapply safe_bind; [apply safe_read_json |]. intros v _. eapply safe_bind; [apply safe_load_prepared |].
    intros; by apply safe_ret.
  - intros e k Hk. case_match; [injection Hk as <- | done].
    eapply safe_bind; [apply safe_quarantine_unlocked, _ |]. intros; by apply safe_ret.
Qed.

Lemma safe_check_ciphertext n : safe (represents q) (check_ciphertext n) (fun _ => True).
Proof.
  apply safe_catch.
  - eapply safe_bind; [apply safe_read_node_inv |]. intros o _. eapply safe_bind; [apply safe_guard_eq |].
    intros _ _. apply safe_quarantine_unlocked, _.
  - intros e k Hk. case_match; [injection Hk as <-; by apply safe_ret | done].
Qed.

Lemma safe_inspect_all : safe (represents q) inspect_all (fun _ => True).
Proof.
  apply safe_catch.
  - apply safe_with_lock; [apply _ |]. eapply safe_bind; [apply safe_layout |]. intros _ _.
    eapply safe_bind; [apply safe_scan |]. intros s _. eapply safe_bind; [apply safe_get_inv |]. intros w _. cbv zeta.
    eapply safe_bind; [by apply (safe_listdir _ _ (fun _ => True)) |]. intros l _.
    eapply safe_bind; [apply safe_map_M; intros; apply safe_check_prepared |]. intros ids _.
    eapply safe_bind; [by apply (safe_listdir _ _ (fun _ => True)) |]. intros l' _. cbv zeta.
    eapply (safe_bind _ _ _ (fun _ => True));
      [apply safe_for_each_M; [intros; apply safe_check_ciphertext | done] |]. intros _ _.
    eapply safe_bind; [apply safe_get_inv |]. intros w' _.
    eapply safe_bind; [by apply (safe_listdir _ _ (fun _ => True)) |]. intros l'' _. by apply safe_ret.
  - intros e k Hk. case_match; [injection Hk as <-; by apply safe_ret | done].
Qed.

Lemma safe_inspect v : safe (represents q) (inspect v) (fun _ => True).
Proof.
  destruct v as [v|]; [|apply safe_inspect_all].
  eapply safe_bind; [apply safe_inspect_record |]. intros [r|] _; [by apply safe_ret |].
  eapply safe_bind; [apply safe_inspect_all |]. intros; by apply safe_ret.
Qed.

Lemma safe_prepared_path v : safe (represents q) (prepared_path v) (fun _ => True).
Proof.
  eapply safe_bind; [apply safe_lift_eq |]. intros id _.
  eapply safe_bind; [apply safe_prepared_inspect, _ |]. intros [[r|r]|] _; try apply safe_raise.
  eapply safe_bind; [by apply (safe_pure _ (regular_at _) (fun _ => True)) |]. intros b _.
  eapply safe_bind; [apply safe_guard_eq |]. intros; by apply safe_ret.
Qed.

Lemma safe_discard_receipt v : safe (represents q) (discard_receipt v) (fun _ => True).
Proof.
  eapply safe_bind; [apply safe_lift_eq |]. intros id _. apply safe_with_lock; [apply _ |].
  eapply safe_bind; [apply safe_layout |]. intros _ _. cbv zeta.
  assert (forall m, safe (represents q) (publish_json RECEIPTS m (discard_body id) ;; mret (discard_body id)) (fun _ => True)) as Hpub.
  { intros m. eapply safe_bind; [apply safe_publish_elsewhere; [apply _ | done] |]. intros; by apply safe_ret. }
  eapply safe_bind; [apply safe_read_node_inv |]. intros o _.
  destruct o as [[c b| |]|]; try apply Hpub. destruct (decoded c) as [[]|]; try apply safe_raise. by apply safe_ret.
Qed.

(** *** [reconcile_prepared] *)

(** A prepared record read for an event. *)
Definition fits_at (id : string) (w : world) : Prop :=
  forall c b v r, files w !! (PREPARED, json_name id) = Some (Regular c b) -> decoded c = Some v ->
    PreparedRecord_from_dict v = Ok r -> prepared_fits (Inline r).
Definition same_fs (f : fs) (w : world) : Prop := represents q w /\ files w = f.
#[local] Instance same_fs_files f : FileInvariant (same_fs f).
Proof.
  constructor. intros w w' Hs [Hw Hf]. split; [by apply (inv_same w) |]. destruct Hs as [-> _]. done.
Qed.

Lemma PreparedFileRecord_fits v r : PreparedFileRecord_from_dict v = Ok r -> prepared_fits (Beside r).
Proof.
  unfold PreparedFileRecord_from_dict. intros Hv. inv_ok.
  match goal with H : PreparedFileRecord_init _ _ _ _ _ = Ok _ |- _ => apply PreparedFileRecord_init_inv in H as [] end.
  - unfold prepared_fits. simpl. unfold size_ok in *. bools. done.
  - by eapply _validate_metadata_ok.
Qed.

Lemma safe_load_fits I o v :
  (forall r, PreparedRecord_from_dict v = Ok r -> prepared_fits (Inline r)) ->
  safe I (load_prepared o v) (fun p => prepared_ok p /\ prepared_fits p).
Proof.
  intros Hfit. unfold load_prepared. cbv zeta.
  assert (safe I (r ← lift (PreparedRecord_from_dict v); mret (Inline r)) (fun p => prepared_ok p /\ prepared_fits p)) as Hin.
  { eapply safe_bind; [apply safe_lift_eq |]. intros r Hr. apply safe_ret. split; [|by apply Hfit].
    exact (PreparedRecord_from_dict_ok _ _ Hr). }
  destruct v as [| | | | | |d]; try done. case_match; [|done].
  eapply safe_bind; [apply safe_lift_eq |]. intros r Hr.
  eapply safe_bind; [apply safe_read_node_inv |]. intros n _.
  destruct n as [[c b| |]|]; try apply safe_raise.
  eapply safe_bind; [apply safe_guard_eq |]. intros _ _. apply safe_ret. split.
  - exact (PreparedFileRecord_from_dict_ok _ _ Hr).
  - exact (PreparedFileRecord_fits _ _ Hr).
Qed.

Lemma read_prepared_ends id f : (forall w, files w = f -> fits_at id w) ->
  ends (same_fs f) (read_prepared_for id)
    (fun p => prepared_event_id p = id /\ prepared_ok p /\ prepared_fits p) (represents q).
Proof.
  intros Hfits. unfold read_prepared_for. cbv zeta.
  assert (forall A, safe (represents q) (_quarantine_unlocked (json_name id) ;;
    raise (EStorage "prepared-record-corrupt" None) : M A) (fun _ => False)) as Hbad.
  { intros A. eapply safe_bind; [apply safe_quarantine_unlocked, _ |]. intros; apply safe_raise. }
  eapply (ends_then _ _ _ _ (fun p => prepared_ok p /\ prepared_fits p)).
  - apply ends_catch.
    + intros w [Hw Hf].
      assert (safe (same_fs f) (read_json PREPARED (json_name id) ≫= load_prepared (Some id))
        (fun p => prepared_ok p /\ prepared_fits p)) as Hload.
      { eapply (safe_bind _ _ _ (fun v => exists c b, f !! (PREPARED, json_name id) = Some (Regular c b) /\ decoded c = Some v)).
        - intros w' [Hw' Hf']. unfold read_json, mbind, M_bind, read_node, get, mret, M_ret. simpl. rewrite Hf'.
          destruct (f !! (PREPARED, json_name id)) as [[c b| |]|]; simpl; try done.
          destruct (decoded c) eqn:Ed; simpl; [|done]. split; [done |]. intros a [= <-]. eauto.
        - intros v (c & b & Hn & Hd). apply safe_load_fits. intros r Hr. eapply Hfits; [exact Hf | | done | done].
          by rewrite Hf. }
      destruct (Hload w (conj Hw Hf)) as [[? _] ?]. done.
    + intros e k Hk. repeat case_match; try done; injection Hk as <-; [apply safe_raise |].
      eapply safe_weaken; [apply Hbad | done].
  - intros p [Hp Hfit]. destruct (String.eqb (prepared_event_id p) id) eqn:E.
    + apply safe_ret. by apply String.eqb_eq in E.
    + eapply safe_weaken; [apply Hbad | done].
Qed.

(** The claims [reconcile_prepared] may not expire: see the header. *)
Definition reconcilable (id : string) : Prop :=
  forall r, q !! json_name id = Some r -> state r = CLAIMED -> state_in (resume_state r) sealed_stages = false.

Lemma owned_states_owner r : good cfg r -> owner r ≠ None -> state_in (state r) owned_states = true.
Proof.
  intros Hr Ho. pose proof (good_stage_checked cfg r Hr) as Hs. unfold stage_checked, stage_checks in Hs.
  rewrite !andb_true_iff, !negb_true_iff in Hs. destruct Hs as [[_ Hs] _].
  destruct (owner r); [|done]. destruct (state r); done.
Qed.

Lemma refine_reconcile_existing r p md final :
  reconcilable (event_id r) -> q !! json_name (event_id r) = Some r -> good cfg r ->
  prepared_ok p -> prepared_fits p -> metadata_ok md ->
  refines None (reconcile_existing r (event_id r) p md final).
Proof.
  intros Hrec Hq Hg Hp Hfit Hmd. unfold reconcile_existing.
  eapply (refines_bind _ _ _ (fun stale : bool => unclaimed r /\ (if stale then owner r ≠ None else owner r = None))).
  - destruct (owner r) as [o|] eqn:Eo; [|by apply safe_ret; split; [left |]].
    destruct (lease_until r) as [l|] eqn:El.
    + eapply safe_bind; [apply safe_now |]. intros now Hnow. eapply safe_bind; [apply safe_guard_eq |]. intros u Hl.
      apply safe_ret. split; [|done]. right. exists now. split; [done |]. unfold lease_expired. by rewrite El, Hl.
    + exfalso. pose proof (good_stage_checked cfg r Hg) as Hs. unfold stage_checked, stage_checks in Hs.
      rewrite Eo, El in Hs. rewrite !andb_true_iff in Hs. destruct Hs as [[[_ Hs] _] _]. done.
  - intros stale [Hun Hstale]. cbv zeta.
    assert ((if stale then with_owner None None r else r) = with_owner None None r) as Hr'.
    { destruct stale; [done |]. pose proof (unowned_lease cfg r Hg Hstale). destruct r; simpl in *; by subst. }
    rewrite Hr'. simpl. destruct (state_in (resume_state r) _ || _) eqn:Edone.
    + destruct stale; [|apply refines_ret]. cbn [when].
      assert (state_in (state r) progress_states = true) as Hst.
      { pose proof (owned_states_owner r Hg Hstale) as Hown.
        pose proof (good_stage_checked cfg r Hg) as Hs.
        destruct (state r) eqn:Es; try done.
        specialize (Hrec r Hq Es). change (state_in (resume_state r) [PREPARED_ENCRYPTED; OBJECT_UPLOADED; INDEX_PUBLISHED])
          with (state_in (resume_state r) sealed_stages) in Edone. by rewrite Hrec in Edone. }
      eapply refines_publish_and_return; [done | by apply u_detach].
    + apply orb_false_iff in Edone as [Hns Hnc]. eapply refines_publish_and_return; [done |].
      apply u_reattach; try done. by apply bool_decide_eq_false_1 in Hnc.
Qed.

(** Publishing a record that is not an update. *)
Lemma refines_publish_new who r :
  qstep cfg permitted who q (<[json_name (event_id r) := r]> q) -> refines who (_publish_record_unlocked r).
Proof.
  intros Hs w Hw. split; [|done].
  destruct (publish_json_ends (json_name (event_id r)) r (is_json_name_json _) w Hw) as [[?|?] _]; [by left |].
  right. eauto.
Qed.

Lemma no_record_at rs id : all_records rs -> find (fun r => String.eqb (event_id r) id) rs = None ->
  q !! json_name id = None.
Proof.
  intros Hrs Hf. destruct (q !! json_name id) as [r|] eqn:E; [|done].
  destruct (wf_entry _ _ Hwf _ _ E) as [Hid%json_name_inj _].
  apply (record_at_all rs _ _ Hrs) in E. apply list_elem_of_In in E.
  apply (find_none _ _ Hf) in E. by rewrite Hid, String.eqb_refl in E.
Qed.

Lemma refine_reconcile_new rs id sid cp p md final :
  all_records rs -> q !! json_name id = None -> is_identifier id = true -> is_identifier sid = true ->
  checkpoint_ok cp -> prepared_ok p -> prepared_fits p -> metadata_ok md ->
  refines None (reconcile_new cfg rs id sid cp p md final).
Proof.
  intros Hrs Hnone Hid Hsid Hcp Hp Hfit Hmd. apply refines_guard. intros Hev. cbv zeta.
  eapply refines_bind; [by apply safe_queue_bytes |]. intros n ->.
  eapply refines_bind; [apply safe_prepared_bytes |]. intros t Ht. apply refines_guard. intros Hb.
  eapply (ends_then _ _ _ _ (fun _ => True)); [|intros; by apply safe_ret].
  apply refines_publish_new. apply Z.leb_gt in Hev.
  apply Z.ltb_ge in Hb.
  apply q_recover; try done; [by apply next_sequence_fresh | by rewrite <- (all_records_length rs) |].
  cbv beta in Ht. unfold record_size. lia.
Qed.

Lemma refine_reconcile id v sv cp md fin w :
  _identifier v = Ok id -> represents q w -> fits_at id w -> reconcilable id ->
  stepped None (reconcile_prepared cfg v sv cp md fin w).2.
Proof.
  intros Hid Hw Hfit Hrec.
  assert (forall w', files w' = files w -> fits_at id w') as Hfits by (intros w' Hf; unfold fits_at in *; by rewrite Hf).
  assert (forall w', same_fs (files w) w' -> stepped None w') as Hweak by (intros w' [? _]; by left).
  unfold reconcile_prepared.
  assert (ends (same_fs (files w)) (reconcile_prepared cfg v sv cp md fin) (fun _ => True) (stepped None)) as Hends;
    [|by apply Hends].
  unfold reconcile_prepared.
  eapply (ends_bind _ _ Hweak _ _ (fun i => i = id)); [apply safe_lift; intros i; rewrite Hid; by intros [= <-] |]. intros ? ->.
  eapply (ends_bind _ _ Hweak); [apply safe_lift_eq |]. intros sid Hsid. apply _identifier_inv in Hsid.
  eapply (ends_bind _ _ Hweak); [apply safe_lift_eq |]. intros c Hc. apply _validate_checkpoint_ok in Hc.
  eapply (ends_bind _ _ Hweak); [apply safe_lift_eq |]. intros m Hm.
  eapply (ends_bind _ _ Hweak); [apply safe_lift_eq |]. intros final _.
  eapply (ends_bind _ _ Hweak); [apply safe_lock, _ |]. intros _ _.
  eapply (ends_bind _ _ Hweak _ _ (fun _ => True)).
  { eapply safe_bind; [apply safe_map_M; intros; apply safe_ensure_directory, _ |].
    intros l _. by apply safe_when; [apply safe_sync_directory, _ |]. }
  intros _ _.
  eapply ends_seq; [apply stepped_same | by apply read_prepared_ends |]. intros p (Hpid & Hp & Hpf).
  apply refines_scan.
  intros s Hs. apply refines_lift. intros md' Hmd. apply _validate_metadata_ok in Hmd.
  destruct (find _ s.1.1) as [r|] eqn:E.
  - apply (find_record _ _ _ Hs) in E as (Hq & Hg & <-%String.eqb_eq). by apply refine_reconcile_existing.
  - apply refine_reconcile_new; try done; [by eapply no_record_at | by eapply _identifier_inv].
Qed.

(** *** [enqueue] *)
Lemma refine_coalesce r id final :
  q !! json_name (event_id r) = Some r -> state_in (state r) waiting_states = true -> is_identifier id = true ->
  refines None (coalesce_into r id final).
Proof.
  intros Hq Hst Hid. unfold coalesce_into. destruct (coalesced_ids r id final) as [[ids ev]|] eqn:E; [|apply refines_ret].
  cbv zeta. apply ends_catch.
  - eapply (ends_then _ _ _ _ (fun _ => True)); [|intros; by apply safe_ret].
    eapply refines_publish; [done | by eapply u_coalesce].
  - intros e k Hk. destruct e; try done. injection Hk as <-. by apply safe_ret.
Qed.

Lemma refine_enqueue_new rs id sid cp md st final :
  all_records rs -> is_identifier id = true -> is_identifier sid = true -> checkpoint_ok cp -> metadata_ok md ->
  st ∈ [QUEUED; POLICY_DENIED; QUARANTINED] ->
  (is_Some (q !! json_name id) -> exists name r, q !! name = Some r /\ name ≠ json_name id /\ id ∈ event_ids r) ->
  refines None (enqueue_new cfg rs id sid cp md st final).
Proof.
  intros Hrs Hid Hsid Hcp Hmd Hst Howner. unfold enqueue_new. destruct (_ <=? _)%Z eqn:Hev; [apply refines_ret |].
  eapply refines_bind; [by apply safe_queue_bytes |]. intros n ->. cbv zeta.
  destruct (max_bytes cfg <? _)%Z eqn:Hb; [apply refines_ret |]. apply ends_catch.
  - eapply (ends_then _ _ _ _ (fun _ => True)); [|intros; by apply safe_ret].
    apply refines_publish_new. apply Z.leb_gt in Hev. apply Z.ltb_ge in Hb.
    apply q_enqueue; try done; [by apply next_sequence_fresh | by rewrite <- (all_records_length rs)].
  - intros e k Hk. destruct e; try done. injection Hk as <-. by apply safe_ret.
Qed.

Lemma find_none_event rs id :
  all_records rs -> find (fun r => bool_decide (id ∈ event_ids r)) rs = None -> q !! json_name id = None.
Proof.
  intros Hrs Hf. destruct (q !! json_name id) as [r|] eqn:E; [|done].
  destruct (wf_entry _ _ Hwf _ _ E) as [Hid%json_name_inj [_ _ [tl Htl] _]].
  apply (record_at_all rs _ _ Hrs), list_elem_of_In, (find_none _ _ Hf) in E.
  apply bool_decide_eq_false_1 in E. rewrite Htl, Hid in E. destruct E. by left.
Qed.

Lemma refine_enqueue_locked id sid cp md st final coalesce :
  is_identifier id = true -> is_identifier sid = true -> checkpoint_ok cp -> metadata_ok md ->
  st ∈ [QUEUED; POLICY_DENIED; QUARANTINED] ->
  refines None (enqueue_locked cfg id sid cp md st final coalesce).
Proof.
  intros Hid Hsid Hcp Hmd Hst. apply refines_layout, refines_scan. intros s Hs. cbv zeta.
  set (existing := if coalesce then _ else None).
  assert ((is_Some (q !! json_name id) -> exists name r, q !! name = Some r /\ name ≠ json_name id /\ id ∈ event_ids r) ->
    refines None (match existing with
                  | Some r => coalesce_into r id final
                  | None => enqueue_new cfg s.1.1 id sid cp md st final
                  end)) as Hgo.
  { intros Howner. subst existing. destruct coalesce; [|by apply refine_enqueue_new].
    destruct (find _ s.1.1) as [r|] eqn:E; [|by apply refine_enqueue_new].
    apply (find_record _ _ _ Hs) in E as (Hq & _ & [Hw _]%andb_true_iff). by apply refine_coalesce. }
  destruct (find (fun r => bool_decide (id ∈ event_ids r)) s.1.1) as [r|] eqn:E.
  - apply (find_record _ _ _ Hs) in E as (Hq & _ & Hin%bool_decide_eq_true_1).
    destruct (String.eqb (event_id r) id) eqn:Ei; [apply refines_ret |]. apply Hgo. intros _.
    exists (json_name (event_id r)), r. split; [done |]. split; [|done].
    intros Hn%json_name_inj. by rewrite Hn, String.eqb_refl in Ei.
  - apply Hgo. intros [r Hr]. by rewrite (find_none_event _ _ Hs E) in Hr.
Qed.

Lemma initial_state_cases d : initial_state d ∈ [QUEUED; POLICY_DENIED; QUARANTINED].
Proof. unfold initial_state. repeat case_match; set_solver. Qed.

Lemma refine_enqueue v sv cp fin md d t coalesce : refines None (_enqueue_authority cfg v sv cp fin md d t coalesce).
Proof.
  apply refines_lift. intros id Hid. apply _identifier_inv in Hid.
  apply refines_lift. intros sid Hsid. apply _identifier_inv in Hsid.
  apply refines_lift. intros c Hc. apply _validate_checkpoint_ok in Hc.
  apply refines_lift. intros m Hm. apply _validate_metadata_ok in Hm.
  apply refines_lift. intros final _. apply refines_lift. intros ? _. cbv zeta.
  apply ends_catch.
  - apply refines_with_lock, refine_enqueue_locked; try done.
    destruct d; try (by left). apply initial_state_cases.
  - intros e k Hk. destruct e; try done; injection Hk as <-; by apply safe_ret.
Qed.
End refine.
