(* ===== verification/OutboxOps.v ===== *)
(** * Runs of the outbox

    The public operations of [PccOutbox] and [PreparedOutbox] as one type, the worlds a run
    can reach, and the lemmas the property theorems apply. *)

From Stdlib Require Import SpecFloat.
From S2P Require Import Prelude PyStr PyObj OutboxData RecordProps OutboxStore PreparedOutbox PccOutbox OutboxLogic QueueRecords QueueModel QueueSpec.
From S2P Require Import QueueRefine.

Inductive op : Type :=
| OpEnqueue (event_id session_id checkpoint is_final metadata decision : pyobj) (timeout : option pyobj) (coalesce : bool)
| OpInspect (event_id : option pyobj)
| OpInspectRecord (event_id : pyobj)
| OpClaim (own : pyobj)
| OpClaimSpecific (event_id own take : pyobj)
| OpRenew (event_id own : pyobj)
| OpTakeover (event_id own : pyobj)
| OpTransition (event_id own st : pyobj) (details : dict)
| OpPrepare (event_id own : pyobj) (ciphertext : string) (metadata : pyobj)
| OpPrepareFile (event_id own : pyobj) (src : string * string) (metadata : pyobj)
| OpRelease (event_id own : pyobj)
| OpReconcile (event_id session_id checkpoint metadata is_final : pyobj)
| OpExpand (event_id own children checkpoint : pyobj)
| OpPreparedPath (event_id : pyobj)
| OpDiscard (event_id : pyobj)
| OpQuarantineOperator (event_id reason : pyobj)
| OpPreparedPublish (r : PreparedRecord)
| OpPreparedPublishFile (r : PreparedFileRecord) (src : string * string)
| OpPreserveGap (event_id : pyobj) (src : string * string)
| OpPreparedInspect (event_id : pyobj).

Definition void {A} (m : M A) : M unit := m ;; mret tt.

Section ops.
Context `{Env, PyRuntime} (cfg : config).

Definition run_op (o : op) : M unit :=
  match o with
  | OpEnqueue v sv cp fin md d t c => void (enqueue_trigger cfg v sv cp fin md d t c)
  | OpInspect v => void (inspect v)
  | OpInspectRecord v => void (inspect_record v)
  | OpClaim own => void (claim cfg own)
  | OpClaimSpecific v own take => void (claim_specific cfg v own take)
  | OpRenew v own => void (renew v own)
  | OpTakeover v own => void (takeover v own)
  | OpTransition v own st details => void (transition v own st details)
  | OpPrepare v own c md => void (prepare_encrypted cfg v own c md)
  | OpPrepareFile v own src md => void (prepare_encrypted_file cfg v own src md)
  | OpRelease v own => void (release v own)
  | OpReconcile v sv cp md fin => void (reconcile_prepared cfg v sv cp md fin)
  | OpExpand v own kids cp => void (expand v own kids cp)
  | OpPreparedPath v => void (prepared_path v)
  | OpDiscard v => void (discard_receipt v)
  | OpQuarantineOperator v reason => void (quarantine_operator v reason)
  | OpPreparedPublish r => void (PreparedOutbox.publish r)
  | OpPreparedPublishFile r src => void (publish_file r src)
  | OpPreserveGap v src => void (preserve_capture_gap_ciphertext v src)
  | OpPreparedInspect v => void (PreparedOutbox.inspect_record v)
  end.

(** The owner an operation acts for. *)
Definition actor (o : op) : option string :=
  let who (own : pyobj) := match _identifier own with Ok s => Some s | Raise _ => None end in
  match o with
  | OpClaim own | OpClaimSpecific _ own _ | OpRenew _ own | OpTakeover _ own | OpTransition _ own _ _
  | OpPrepare _ own _ _ | OpPrepareFile _ own _ _ | OpRelease _ own | OpExpand _ own _ _ => who own
  | _ => None
  end.

(** The calls the properties of the outbox cover.  The code accepts every call; it keeps its
    guarantees for those where
    - a progress transition carries the evidence of its target ([details_complete]),
    - a ciphertext file handed over by path does not lie in the queue directory,
    - [reconcile_prepared] is not asked about a claimed record that was already prepared
      ([reconcilable]: it would expire the claim), nor does it find a prepared record with an
      inline ciphertext above the size limit of the queue ([fits_at]).
    [OutboxTheorems] shows what the others do to the queue. *)
Definition orderly (q : queue) (w : world) (o : op) : Prop :=
  match o with
  | OpTransition _ _ st details =>
      forall s, QueueState_of st = Some s -> details_complete s details = true
  | OpPrepareFile _ _ src _ | OpPreparedPublishFile _ src | OpPreserveGap _ src => src.1 ≠ QUEUE
  | OpReconcile v _ _ _ _ =>
      forall id, _identifier v = Ok id -> fits_at id w /\ reconcilable q id
  | _ => True
  end.

(** The transitions an operation asks for: its own. *)
Definition permits (o : op) (st : QueueState) (details : dict) : Prop :=
  match o with OpTransition _ _ target d => QueueState_of target = Some st /\ d = details | _ => False end.

(** Worlds a run reaches from a world without queue records. *)
Inductive reachable : world -> Prop :=
| reach_init w : (forall name, is_json_name name = true -> files w !! (QUEUE, name) = None) -> reachable w
| reach_step w o : reachable w -> (forall q, represents q w -> orderly q w o) -> reachable (run_op o w).2.

Hypothesis cfg_ok : config_ok cfg.
Hypothesis Hleases : leases_ok cfg.
Hypothesis sha256_hex : forall s, fullmatch _DIGEST (sha256 s) = true.

Lemma void_world {A} (m : M A) w : (void m w).2 = (m w).2.
Proof. unfold void, mbind, M_bind. by destruct (m w) as [[]]. Qed.

Lemma refines_void {A} permitted q who (m : M A) w :
  represents q w -> refines cfg permitted q who m -> stepped cfg permitted q who (void m w).2.
Proof. intros Hw Hm. rewrite void_world. by apply Hm. Qed.

Lemma safe_void {A} permitted q who (m : M A) w Q :
  represents q w -> safe (represents q) m Q -> stepped cfg permitted q who (void m w).2.
Proof. intros Hw Hm. rewrite void_world. left. by apply Hm. Qed.

Lemma acts_actor own : acts own (match _identifier own with Ok s => Some s | Raise _ => None end).
Proof. by intros o ->. Qed.

(** One operation is no step or one step of the abstract queue. *)
Lemma op_refines q w o :
  queue_wf cfg q -> represents q w -> orderly q w o -> stepped cfg (permits o) q (actor o) (run_op o w).2.
Proof.
  intros Hwf Hw Ho. destruct o; cbn [run_op actor orderly] in *.
  - apply refines_void; [done | by apply refine_enqueue].
  - eapply safe_void; [done | by eapply safe_inspect].
  - eapply safe_void; [done | by eapply safe_inspect_record].
  - apply refines_void; [done | apply refine_claim; [done | apply acts_actor]].
  - apply refines_void; [done | apply refine_claim_specific; [done | apply acts_actor]].
  - apply refines_void; [done | apply refine_renew; [done | apply acts_actor]].
  - apply refines_void; [done | apply refine_takeover; [done | apply acts_actor]].
  - apply refines_void; [done | apply refine_transition; [done | apply acts_actor | by intros s Hs; split; [apply Ho |]]].
  - apply refines_void; [done | apply refine_prepare_encrypted; [done | done | apply acts_actor]].
  - apply refines_void; [done | apply refine_prepare_encrypted_file; [done | apply acts_actor | done]].
  - apply refines_void; [done | apply refine_release; [done | apply acts_actor]].
  - rewrite void_world. destruct (_identifier event_id) as [id|e] eqn:Hid.
    + destruct (Ho id eq_refl). by eapply refine_reconcile.
    + unfold reconcile_prepared, mbind, M_bind, lift. rewrite Hid. by left.
  - apply refines_void; [done | apply refine_expand; [done | apply acts_actor]].
  - eapply safe_void; [done | apply safe_prepared_path].
  - eapply safe_void; [done | apply safe_discard_receipt].
  - apply refines_void; [done | by apply refine_quarantine_operator].
  - eapply safe_void; [done | apply safe_prepared_publish, _].
  - eapply safe_void; [done | apply safe_prepared_publish_file; [apply _ | done]].
  - eapply safe_void; [done | apply safe_preserve_gap; [apply _ | done]].
  - eapply safe_void; [done | apply safe_prepared_inspect, _].
Qed.

Lemma stepped_wf permitted q who w :
  queue_wf cfg q -> stepped cfg permitted q who w -> exists q', represents q' w /\ queue_wf cfg q'.
Proof. intros Hwf [Hw|(q' & Hs & Hw)]; [eauto |]. exists q'. split; [done | by eapply qstep_wf]. Qed.

Lemma reachable_queue w : reachable w -> exists q, represents q w /\ queue_wf cfg q.
Proof.
  induction 1 as [w Hinit | w o _ (q & Hw & Hwf) Ho].
  - exists ∅. split; [split; [intros; by rewrite lookup_empty, Hinit | by intros name [? ?] | done] |].
    split; by intros *; rewrite lookup_empty.
  - eapply stepped_wf; [done |]. apply op_refines; auto.
Qed.
End ops.

