(* ===== verification/OutboxDemo.v ===== *)
(** * A concrete outbox

    A clock that stands still, a fixed digest, and the queues the witnesses of the
    outbox theorems run on. *)

From S2P Require Import Prelude PyStr PyObj OutboxData RecordProps OutboxStore PreparedOutbox PccOutbox.
From S2P Require Import OutboxLogic QueueRecords QueueModel QueueSpec QueueRefine OutboxOps.
From Stdlib Require Import SpecFloat.

Definition demo_digest : string := "aaaaaaaaaaaaaaaaaaaaaaaaaaaaaaaaaaaaaaaaaaaaaaaaaaaaaaaaaaaaaaaa".
#[export] Instance demo_runtime : PyRuntime := {| float_repr _ := "1.0"; sha256 _ := demo_digest |}.

(** The environment with a clock and the outcomes of the system calls. *)
Definition environment (clk : nat -> pyobj) (out : nat -> io_event) : Env :=
  {| clock := clk; uuid_hex _ := "u"; urandom_hex _ := "0f";
     urandom_hex_ok _ := conj (fun E : "0f" = "" => ltac:(discriminate E)) eq_refl;
     outcome := out; scan_order l := l; scan_perm l := reflexivity l |}.
#[export] Instance demo_env : Env := environment (fun _ => PInt 1000) (fun _ => IoOk).

Definition demo_config : config := {| max_events := 10; max_bytes := 100000; cfg_lease_seconds := f_of_Z 60 |}.
Definition empty_world : world := {| files := ∅; dirs := ∅; ticks := 0; uuids := 0; ios := 0 |}.

Definition demo_checkpoint (n : Z) : checkpoint :=
  {| cp_source := "codex-1"; cp_representation := "raw"; cp_start := 0; cp_end := n; cp_prefix_sha256 := demo_digest |}.
Definition demo_queued : QueueRecord := new_record "A" "session" (demo_checkpoint 10) ∅ QUEUED QUEUED 1 false.
Definition demo_claimed : QueueRecord := claimed_record demo_config demo_queued "worker" (f_of_Z 1000).
(** The same record once its object and index were published and committed. *)
Definition demo_committed : QueueRecord :=
  with_owner None None (with_index_id (Some "index") (with_object_key (Some (OBJECT_PREFIX +:+ demo_digest))
    (with_ciphertext (Some demo_digest) (Some 5%Z)
      (with_failure None (with_resume INDEX_PUBLISHED (with_state COMMITTED demo_queued)))))).

Definition single (r : QueueRecord) : queue := {[ json_name (event_id r) := r ]}.
Definition world_of (r : QueueRecord) : world :=
  set_files <[(QUEUE, json_name (event_id r)) := stored r]> (set_dirs <[QUEUE := true]> empty_world).

Lemma demo_config_ok : config_ok demo_config.
Proof. repeat split; try lia; by vm_compute. Qed.
Lemma demo_sha256 s : fullmatch _DIGEST (sha256 s) = true.
Proof. by vm_compute. Qed.
Lemma demo_reading now : reading now -> now = f_of_Z 1000.
Proof. by intros (n & _ & _ & ->). Qed.
Lemma demo_leases : leases_ok demo_config.
Proof. intros now s ->%demo_reading [-> | ->]; by vm_compute. Qed.

Lemma empty_represents : represents ∅ empty_world.
Proof. split; [intros; by rewrite !lookup_empty | by intros name [? ?] | done]. Qed.

Lemma single_represents r : represents (single r) (world_of r).
Proof.
  unfold single, world_of. rewrite <- insert_empty. apply represents_write; [apply is_json_name_json | | done].
  eapply inv_same; [apply insert_dir_same | apply empty_represents].
Qed.

Lemma single_wf cfg r : good cfg r -> queue_wf cfg (single r).
Proof.
  intros Hr. unfold single. split.
  - by intros name r' [<- <-]%lookup_singleton_Some.
  - by intros name name' r1 r2 [<- <-]%lookup_singleton_Some [<- <-]%lookup_singleton_Some.
Qed.

Lemma demo_queued_good : good demo_config demo_queued.
Proof. apply good_new; [by vm_compute.. | set_solver]. Qed.
Lemma demo_claimed_good : good demo_config demo_claimed.
Proof. apply good_claimed; [apply demo_config_ok | apply demo_queued_good | by vm_compute..]. Qed.
Lemma demo_committed_good : good demo_config demo_committed.
Proof.
  pose proof demo_queued_good as [[] _ Hh Hs].
  constructor; [constructor; try done; by vm_compute | constructor; intros _ | done | done].
  - by split; eexists.
  - by eexists.
  - by eexists.
Qed.

(** ** A delivery from trigger to commit *)
Definition demo_enqueue (id : string) (n : Z) : op :=
  OpEnqueue (PStr id) (PStr "session") (checkpoint_dict (demo_checkpoint n)) (PBool false) PNone (PStr "allow") None true.
Definition demo_delivery : list op :=
  [demo_enqueue "A" 10;
   OpClaim (PStr "worker");
   OpTransition (PStr "A") (PStr "worker") (PStr "source-snapshotted") [];
   OpPrepare (PStr "A") (PStr "worker") "hello" PNone;
   OpTransition (PStr "A") (PStr "worker") (PStr "object-uploaded") [("object_key", PStr (OBJECT_PREFIX +:+ demo_digest))];
   OpTransition (PStr "A") (PStr "worker") (PStr "index-published") [("index_id", PStr "index")];
   OpTransition (PStr "A") (PStr "worker") (PStr "committed") []].

Definition run_ops `{Env, PyRuntime} (cfg : config) (ops : list op) (w : world) : world :=
  foldl (fun w o => (run_op cfg o w).2) w ops.

Lemma run_ops_reachable `{Env, PyRuntime} cfg ops w :
  reachable cfg w -> (forall o, o ∈ ops -> forall q w, orderly q w o) -> reachable cfg (run_ops cfg ops w).
Proof.
  revert w. induction ops as [|o ops IH]; intros w Hw Ho; [done |]. simpl. apply IH.
  - apply reach_step; [done |]. intros q _. apply Ho. by left.
  - intros o' Ho'. apply Ho. by right.
Qed.

Definition delivered_world : world := run_ops demo_config demo_delivery empty_world.
(** The content of the delivered record's file. *)
Definition delivered_content : content :=
  match files delivered_world !! (QUEUE, json_name "A") with Some (Regular c _) => c | _ => json_content PNone end.
Definition delivered_record : QueueRecord :=
  match decoded delivered_content with
  | Some v => match QueueRecord_from_dict v with Ok r => r | Raise _ => demo_queued end
  | None => demo_queued
  end.

Lemma delivered_reachable : reachable demo_config delivered_world.
Proof.
  apply run_ops_reachable; [apply reach_init; intros; apply lookup_empty |].
  intros o Ho q w. unfold demo_delivery in Ho. rewrite !elem_of_cons, elem_of_nil in Ho.
  destruct Ho as [-> | [-> | [-> | [-> | [-> | [-> | [-> | []]]]]]]]; simpl; try done; intros s E; by injection E as <-.
Qed.
