(* ===== verification/OutboxProps.v ===== *)
(** * What the outbox guarantees

    The properties of the queue, each a consequence of the refinement, and the
    behaviour of the operations on the files they publish. *)

From S2P Require Import Prelude PyStr PyObj Base64 OutboxData RecordProps OutboxStore PreparedOutbox PccOutbox.
From S2P Require Import OutboxLogic QueueRecords QueueModel QueueSpec QueueRefine OutboxOps.
From Stdlib Require Import SpecFloat Sorted.

(** ** The scan order *)
#[export] Instance record_le_trans : Transitive record_le.
Proof.
  intros a b c [H1|[H1 L1]] [H2|[H2 L2]]; unfold record_le; [left; lia | left; lia | left; lia |].
  right. split; [lia | by etransitivity].
Qed.
#[export] Instance record_le_total : Total record_le.
Proof.
  intros a b. unfold record_le. destruct (Z.lt_trichotomy (sequence a) (sequence b)) as [?|[E|?]]; [tauto | | right; left; lia].
  destruct (total String.le (event_id a) (event_id b)); [left | right]; right; split; done.
Qed.

Lemma scan_sorted `{Env} q w : StronglySorted record_le (scan_result q w).
Proof.
  unfold scan_result. case_bool_decide; [|constructor]. apply StronglySorted_merge_sort; apply _.
Qed.

Lemma find_least {A} (R : A -> A -> Prop) p l x y :
  StronglySorted R l -> find p l = Some x -> y ∈ l -> p y = true -> x = y \/ R x y.
Proof.
  induction 1 as [|z l Hl IH Hz]; simpl; [done |]. rewrite elem_of_cons. destruct (p z) eqn:E.
  - intros [= ->] [->|Hy]; [by left |]. right. rewrite Forall_forall in Hz. by apply Hz.
  - intros Hf [->|Hy] Hp; [congruence | auto].
Qed.

Section committed.
Context `{PyRuntime} (cfg : config).
(** A good committed record names its evidence. *)
Lemma committed_evidence r : good cfg r -> state r = COMMITTED ->
  exists key digest size index, object_key r = Some key /\ object_digest key = Some digest
    /\ ciphertext_sha256 r = Some digest /\ ciphertext_size r = Some size /\ index_id r = Some index /\ owner r = None.
Proof.
  intros Hg Hst.
  pose proof (good_stage_checked cfg r Hg) as Hcheck. destruct (good_stage cfg r Hg) as [S1 S2 S3].
  assert (resume_state r = INDEX_PUBLISHED /\ owner r = None) as [Hres Hown].
  { unfold stage_checked, stage_checks in Hcheck. rewrite Hst in Hcheck. destruct (resume_state r), (owner r); try done;
      simpl in Hcheck; rewrite ?andb_false_r in Hcheck; done. }
  destruct S1 as [[digest Hd] [size Hsz]]; [rewrite Hres; unfold sealed_stages; set_solver |].
  destruct S2 as (key & Hkey & Hdig); [rewrite Hres; set_solver |]. destruct S3 as [index Hi]; [done |].
  exists key, digest, size, index. by rewrite Hdig.
Qed.
End committed.

Section queue_facts.
Context `{Env, PyRuntime} (cfg : config).
Variables (q : queue) (w : world).
Hypotheses (Hrep : represents q w) (Hwf : queue_wf cfg q).

Lemma scan_elem r : r ∈ scan_result q w <-> q !! json_name (event_id r) = Some r.
Proof.
  rewrite (scan_result_perm cfg q w Hrep Hwf), list_elem_of_fmap. split.
  - intros ([n r'] & -> & Hin%elem_of_map_to_list). simpl. by destruct (wf_entry _ _ Hwf _ _ Hin) as [-> _].
  - intros Hq. exists (json_name (event_id r), r). split; [done |]. by apply elem_of_map_to_list.
Qed.

(** Only the owner of a live claim, or nobody, changes an owned record. *)
Lemma owned_update permitted r who r' o l :
  good cfg r -> owner r = Some o -> lease_until r = Some l -> (forall now, reading now -> SFltb now l = true) ->
  who ≠ Some o -> ~ update cfg permitted r who r'.
Proof.
  intros Hg Ho Hl Hlive Hwho Hu.
  assert (~ unclaimed r) as Hun.
  { intros [Hn|(now & Hnow & Hexp)]; [congruence |]. unfold lease_expired in Hexp. rewrite Hl, Hlive in Hexp by done. done. }
  assert (state_in (state r) owned_states = true) as Hst by (apply (owned_states_owner cfg r Hg); congruence).
  destruct Hu; repeat match goal with H : holds_claim _ _ _ |- _ => destruct H as (? & ? & ? & ? & ?) end; try congruence.
  - match goal with H : _claimable r = true |- _ => unfold _claimable in H; rewrite Ho, andb_false_r in H; done end.
  - apply Hun. right. eauto.
  - by destruct (state r).
  - match goal with H : state r = POLICY_DENIED |- _ => by rewrite H in Hst end.
Qed.

Lemma committed_update permitted r who r' : good cfg r -> state r = COMMITTED -> ~ update cfg permitted r who r'.
Proof.
  intros Hg Hst Hu. destruct Hu; repeat match goal with H : holds_claim _ _ _ |- _ => destruct H as (? & _) end;
    try congruence; try (match goal with H : _ = true |- _ => rewrite ?Hst in H; done end).
  match goal with H : _claimable r = true |- _ => unfold _claimable in H; rewrite Hst in H; done end.
Qed.
End queue_facts.

(** ** What an operation returns and leaves

    [returns P m R]: from [P], when [m] returns [a] it leaves a world related to it by [R]. *)
Definition returns {A} (P : world -> Prop) (m : M A) (R : A -> world -> Prop) : Prop :=
  forall w a w', P w -> m w = (Ok a, w') -> R a w'.

Section returns.
Context (P : world -> Prop).

Lemma returns_bind {A B} (m : M A) (f : A -> M B) Q R :
  safe P m Q -> (forall a, Q a -> returns P (f a) R) -> returns P (m ≫= f) R.
Proof.
  intros Hm Hf w b w' Hw. specialize (Hm w Hw). unfold mbind, M_bind.
  destruct (m w) as [[a|e] w1]; simpl in *; [|done]. destruct Hm as [HI HQ]. by apply Hf; [apply HQ |].
Qed.

Lemma returns_seq {A B} (m : M A) (f : A -> M B) (N : A -> world -> Prop) R :
  returns P m N -> (forall a, returns (N a) (f a) R) -> returns P (m ≫= f) R.
Proof.
  intros Hm Hf w b w' Hw. unfold mbind, M_bind. destruct (m w) as [[a|e] w1] eqn:E; [|done].
  apply Hf. by eapply Hm.
Qed.

Lemma returns_ret {A} (a : A) (R : A -> world -> Prop) : (forall w, P w -> R a w) -> returns P (mret a) R.
Proof. intros HR w b w' Hw [= <- <-]. auto. Qed.

Lemma returns_raise {A} e (R : A -> world -> Prop) : returns P (raise e) R.
Proof. done. Qed.

Lemma returns_lift {A B} (r : result A) (f : A -> M B) R :
  (forall a, r = Ok a -> returns P (f a) R) -> returns P (lift r ≫= f) R.
Proof. apply returns_bind, safe_lift_eq. Qed.

Lemma returns_catch {A} (m : M A) h R :
  returns P m R -> (forall e k, h e = Some k -> returns (fun _ => True) k R) -> returns P (catch m h) R.
Proof.
  intros Hm Hh w a w' Hw. unfold catch. destruct (m w) as [[b|e] w1] eqn:E; [by intros [= <- <-]; eapply Hm |].
  destruct (h e) eqn:Eh; [|done]. by eapply Hh.
Qed.
End returns.

Section publication.
Context `{Env, PyRuntime}.

(** A publication that returns has written the bytes. *)
Lemma publish_bytes_returns P d n c :
  returns P (publish_bytes d n c) (fun _ w => files w !! (d, n) = Some (Regular c true)).
Proof.
  intros w [] w' _ Hrun. by destruct (publish_bytes_writes d n c w w' Hrun) as (_ & -> & _).
Qed.

Lemma publish_and_return_returns P r :
  returns P (publish_and_return r) (fun r' w => r' = r /\ files w !! (QUEUE, json_name (event_id r)) = Some (stored r)).
Proof. eapply returns_seq; [apply publish_bytes_returns |]. intros a. apply returns_ret. by intros w Hw. Qed.
End publication.

Section operations.
Context `{Env, PyRuntime} (cfg : config).
Hypothesis cfg_ok : config_ok cfg.
Variable q : queue.
Hypothesis Hwf : queue_wf cfg q.

Lemma returns_with_lock {A} t (m : M A) R : returns (represents q) m R -> returns (represents q) (with_lock t m) R.
Proof. intros Hm. eapply returns_bind; [apply safe_lock, _ | done]. Qed.
Lemma returns_layout {A} (m : M A) R : returns (represents q) m R -> returns (represents q) (_ensure_layout ;; m) R.
Proof. intros Hm. eapply returns_bind; [by eapply safe_layout | done]. Qed.

(** The scan, with the order of its records. *)
Lemma safe_scan_sorted :
  safe (represents q) _safe_records_unlocked (fun s => all_records q s.1.1 /\ StronglySorted record_le s.1.1).
Proof.
  intros w Hw. rewrite (safe_records_at cfg q w Hw Hwf). split; [done |]. intros s [= <-]. split.
  - by apply (scan_result_perm cfg q w).
  - apply scan_sorted.
Qed.

Definition first_claimable (r : QueueRecord) : Prop :=
  q !! json_name (event_id r) = Some r /\ _claimable r = true
  /\ forall name r0, q !! name = Some r0 -> _claimable r0 = true -> r = r0 \/ record_le r r0.

Lemma claim_returns own o : _identifier own = Ok o ->
  returns (represents q) (claim cfg own) (fun res w => match res with
    | Some r' => exists r now, first_claimable r /\ reading now /\ r' = claimed_record cfg r o now
        /\ files w !! (QUEUE, json_name (event_id r)) = Some (stored r')
    | None => forall name r0, q !! name = Some r0 -> _claimable r0 = false
    end).
Proof.
  intros Ho. apply returns_lift. rewrite Ho. intros ? [= <-]. apply returns_with_lock, returns_layout.
  eapply returns_bind; [apply safe_scan_sorted |]. intros s [Hs Hsort].
  destruct (find _claimable s.1.1) as [r|] eqn:E.
  - eapply returns_bind; [by apply safe_now |]. intros now Hnow.
    eapply returns_seq; [apply publish_and_return_returns |]. intros r'. apply returns_ret. intros w [-> Hfile].
    exists r, now. split; [|done]. destruct (find_record cfg q Hwf _ _ _ Hs E) as (Hq & _ & Hc).
    split; [done |]. split; [done |]. intros name r0 Hr0 Hc0. eapply find_least; eauto. by eapply record_at_all.
  - apply returns_ret. intros w _ name r0 Hr0. eapply find_none in E; [done |].
    apply list_elem_of_In. by eapply record_at_all.
Qed.

(** The record a receipt reports is in the queue. *)
Definition accepted (id : string) (rc : QueueReceipt) (w : world) : Prop :=
  rc_state rc ≠ CAPTURE_GAP ->
  exists r, files w !! (QUEUE, json_name (rc_event_id rc)) = Some (stored r) /\ id ∈ event_ids r
    /\ rc_sequence rc = Some (sequence r) /\ rc_state rc = state r /\ rc_is_final rc = is_final r.

Lemma accepted_gap P id id' c s f d : returns P (mret (receipt id' CAPTURE_GAP c s f d)) (accepted id).
Proof. apply returns_ret. by intros w _ []. Qed.

Lemma coalesce_accepted r id final :
  q !! json_name (event_id r) = Some r -> is_identifier id = true ->
  returns (represents q) (coalesce_into r id final) (accepted id).
Proof.
  intros Hq Hid. unfold coalesce_into. destruct (coalesced_ids r id final) as [[ids ev]|] eqn:E; [|apply accepted_gap].
  destruct (wf_entry _ _ Hwf _ _ Hq) as [_ Hg].
  destruct (coalesced_ids_spec cfg cfg_ok _ _ _ _ _ Hg Hid E) as (_ & Hin & _). cbv zeta. apply returns_catch.
  - eapply returns_seq; [apply publish_bytes_returns |]. intros u. destruct ev; [apply accepted_gap |].
    apply returns_ret. intros w Hf _. exists (coalesced_record r ids id final). simpl. repeat split; [exact Hf | done].
  - intros e k Hk. destruct e; try done. injection Hk as <-. apply accepted_gap.
Qed.

Lemma enqueue_new_accepted rs id sid cp md st final :
  all_records q rs -> returns (represents q) (enqueue_new cfg rs id sid cp md st final) (accepted id).
Proof.
  intros Hrs. unfold enqueue_new. destruct (_ <=? _)%Z; [apply accepted_gap |].
  eapply returns_bind; [by eapply safe_queue_bytes |]. intros n _. cbv zeta.
  destruct (max_bytes cfg <? _)%Z; [apply accepted_gap |]. apply returns_catch.
  - eapply returns_seq; [apply publish_bytes_returns |]. intros u. apply returns_ret. intros w Hf _.
    exists (new_record id sid cp md st QUEUED (next_sequence rs) final). simpl. repeat split; [exact Hf | by left].
  - intros e k Hk. destruct e; try done. injection Hk as <-. apply accepted_gap.
Qed.

Lemma enqueue_accepted v sv cp fin md d t coalesce id :
  _identifier v = Ok id ->
  returns (represents q) (_enqueue_authority cfg v sv cp fin md d t coalesce) (accepted id).
Proof.
  intros Hid. apply returns_lift. rewrite Hid. intros ? [= <-]. apply _identifier_inv in Hid.
  do 5 (apply returns_lift; intros ? _). cbv zeta. apply returns_catch.
  - apply returns_with_lock, returns_layout. eapply returns_bind; [by eapply safe_scan |]. intros s Hs. cbv zeta.
    set (existing := if coalesce then _ else None).
    assert (forall md st final, returns (represents q) (match existing with
      | Some r => coalesce_into r id final
      | None => enqueue_new cfg s.1.1 id a a0 md st final end) (accepted id)) as Hgo.
    { intros. subst existing. destruct coalesce; [|by apply enqueue_new_accepted].
      destruct (find _ s.1.1) as [r|] eqn:E; [|by apply enqueue_new_accepted].
      apply (find_record cfg q Hwf _ _ _ Hs) in E as (Hq & _). by apply coalesce_accepted. }
    destruct (find (fun r => bool_decide (id ∈ event_ids r)) s.1.1) as [r|] eqn:E; [|apply Hgo].
    destruct (String.eqb (event_id r) id) eqn:Ei; [|apply Hgo].
    apply (find_record cfg q Hwf _ _ _ Hs) in E as (Hq & _ & Hin%bool_decide_eq_true_1).
    apply returns_ret. intros w Hw. apply String.eqb_eq in Ei.
    destruct (same_key _ _ _); [|by intros []]. intros _. exists r. simpl. split; [|done].
    rewrite (rep_files _ _ Hw), <- Ei, Hq by apply is_json_name_json. done.
  - intros e k Hk. destruct e; try done; injection Hk as <-; apply accepted_gap.
Qed.

(** No other record lists the event. *)
Definition sole (id : string) : Prop :=
  forall name r, q !! name = Some r -> id ∈ event_ids r -> name = json_name id.

Lemma find_sole rs r : all_records q rs -> q !! json_name (event_id r) = Some r -> sole (event_id r) ->
  find (fun r0 => bool_decide (event_id r ∈ event_ids r0)) rs = Some r.
Proof.
  intros Hrs Hq Hsole. destruct (find _ rs) as [r'|] eqn:E.
  - apply (find_record cfg q Hwf _ _ _ Hrs) in E as (Hq' & _ & Hin%bool_decide_eq_true_1).
    apply (Hsole _ _ Hq') in Hin. rewrite Hin, Hq in Hq'. congruence.
  - apply (find_none_event cfg q Hwf _ _ Hrs) in E. congruence.
Qed.

(** Enqueueing an event again reports its record and changes nothing. *)
Lemma enqueue_again v sv cp fin md d t coalesce r sid c :
  q !! json_name (event_id r) = Some r -> sole (event_id r) -> _identifier v = Ok (event_id r) ->
  _identifier sv = Ok sid -> _validate_checkpoint cp = Ok c ->
  returns (represents q) (_enqueue_authority cfg v sv cp fin md d t coalesce) (fun rc w =>
    represents q w /\
    (rc_state rc = CAPTURE_GAP
     \/ (same_key sid c r = true
         /\ rc = receipt (event_id r) (state r) false (Some (sequence r)) (is_final r) None))).
Proof.
  intros Hq Hsole Hv Hsv Hcp w rc w' Hw Hrun. split.
  - assert (safe (represents q) (_enqueue_authority cfg v sv cp fin md d t coalesce) (fun _ => True)) as Hsafe.
    { eapply safe_bind; [apply safe_lift_eq |]. intros id Hid. rewrite Hv in Hid. injection Hid as <-.
      do 5 (eapply safe_bind; [apply safe_lift_eq |]; intros ? _). cbv zeta. apply safe_catch.
      - apply safe_with_lock; [apply _ |]. eapply safe_bind; [by eapply safe_layout |]. intros _ _.
        eapply safe_bind; [by eapply safe_scan |]. intros s Hs. cbv zeta. rewrite (find_sole _ _ Hs Hq Hsole).
        rewrite String.eqb_refl. by apply safe_ret.
      - intros e k Hk. destruct e; try done; injection Hk as <-; by apply safe_ret. }
    destruct (Hsafe w Hw) as [HI _]. by rewrite Hrun in HI.
  - revert w rc w' Hw Hrun. change (returns (represents q) (_enqueue_authority cfg v sv cp fin md d t coalesce) (fun rc _ =>
      rc_state rc = CAPTURE_GAP \/ (same_key sid c r = true
         /\ rc = receipt (event_id r) (state r) false (Some (sequence r)) (is_final r) None))).
    apply returns_lift. rewrite Hv. intros ? [= <-]. apply returns_lift. rewrite Hsv. intros ? [= <-].
    apply returns_lift. rewrite Hcp. intros ? [= <-]. do 3 (apply returns_lift; intros ? _). cbv zeta.
    apply returns_catch.
    + apply returns_with_lock, returns_layout. eapply returns_bind; [by eapply safe_scan |]. intros s Hs. cbv zeta.
      rewrite (find_sole _ _ Hs Hq Hsole), String.eqb_refl. apply returns_ret. intros w _.
      destruct (same_key _ _ _); simpl; auto.
    + intros e k Hk. destruct e; try done; injection Hk as <-; apply returns_ret; intros; by left.
Qed.
End operations.

(** ** Preparation *)
Section preparation.
Context `{Env, PyRuntime} (cfg : config).
Variable q : queue.
Hypothesis Hwf : queue_wf cfg q.

(** Publishing elsewhere after [P], remembered through a queue publication. *)
Lemma publish_both P r r' :
  returns P (PreparedOutbox._publish_unlocked r ;; publish_and_return r') (fun x w => x = r'
    /\ files w !! (PREPARED, json_name (pr_event_id r)) = Some (Regular (json_content (PreparedRecord_to_dict r)) true)
    /\ files w !! (QUEUE, json_name (event_id r')) = Some (stored r')).
Proof.
  eapply returns_seq; [apply publish_bytes_returns |]. intros u. unfold publish_and_return.
  eapply (returns_seq _ _ _ (fun _ w =>
    files w !! (PREPARED, json_name (pr_event_id r)) = Some (Regular (json_content (PreparedRecord_to_dict r)) true)
    /\ files w !! (QUEUE, json_name (event_id r')) = Some (stored r'))).
  - intros w a w' Hw Hrun. split; [|by eapply (publish_bytes_returns (fun _ => True))].
    destruct a. apply publish_bytes_writes in Hrun as (_ & _ & ->); [done | discriminate].
  - intros a. apply returns_ret. by intros w [? ?].
Qed.

Lemma prepare_returns v own c md id m :
  _identifier v = Ok id -> _validate_metadata (or_empty md) = Ok m ->
  (forall r, q !! json_name id = Some r -> resume_state r = SOURCE_SNAPSHOTTED) ->
  returns (represents q) (prepare_encrypted cfg v own c md) (fun r' w => state r' = PREPARED_ENCRYPTED ->
    files w !! (PREPARED, json_name id) = Some (Regular (json_content (PreparedRecord_to_dict (sealed id c m))) true)
    /\ files w !! (QUEUE, json_name id) = Some (stored r')
    /\ ciphertext_sha256 r' = Some (sha256 c) /\ ciphertext_size r' = Some (Z.of_nat (py_len c))
    /\ (Z.of_nat (py_len c) <= _MAX_CIPHERTEXT_BYTES)%Z).
Proof.
  intros Hid Hm Hstage. unfold prepare_encrypted. eapply returns_bind; [apply safe_guard_eq |]. intros u Hlen.
  apply returns_lift. rewrite Hid. intros ? [= <-]. apply returns_lift. rewrite Hm. intros ? [= <-].
  apply returns_with_lock.
  eapply (returns_bind _ _ _ (fun p => p.2 = true /\ event_id p.1 = id)).
  - intros w Hw. unfold preparable, mbind, M_bind. rewrite (must_read_at cfg q w Hw Hwf).
    destruct (q !! json_name id) as [r|] eqn:E; [|by split]. destruct (_identifier own) as [o|e]; simpl; [|by split].
    unfold lift. destruct (safe_require_claim q r o w Hw) as [HI _].
    destruct (_require_claim r o w) as [[u'|e] w1]; simpl in *; [|by split].
    rewrite (Hstage r eq_refl). simpl. split; [done |]. intros p [= <-]. split; [done |].
    destruct (wf_entry _ _ Hwf _ _ E) as [En _]. simpl. by apply json_name_inj in En.
  - intros [r b] [Hb Hr]. simpl in Hb, Hr. subst b. cbn [fst snd negb]. cbv zeta.
    eapply returns_bind; [by eapply safe_queue_bytes_after |]. intros n _.
    eapply returns_bind; [by apply safe_prepared_bytes |]. intros t _.
    eapply returns_bind; [by apply safe_existing_prepared_size |]. intros x _.
    destruct (max_bytes cfg <? _)%Z.
    + eapply returns_seq; [apply (publish_bytes_returns (represents q)) |]. intros a.
      apply returns_ret. intros w _ Hst. discriminate Hst.
    + intros w r' w' Hw Hrun Hst. apply (publish_both (represents q) _ _ w r' w' Hw) in Hrun as (-> & Hp & Hq).
      simpl in Hp, Hq. rewrite Hr in Hq. cbv beta in Hlen. apply Z.ltb_ge in Hlen.
      split; [exact Hp |]. split; [exact Hq |]. done.
Qed.
End preparation.

(** ** Bounds *)
Section bounds.
Context `{Env, PyRuntime} (cfg : config).

Lemma queue_size_insert q name r : q !! name = None -> queue_size (<[name := r]> q) = (queue_size q + record_size r)%Z.
Proof.
  intros Hn. unfold queue_size.
  rewrite (sum_permutation _ (record_size r :: (record_size <$> (map_to_list q).*2))).
  - unfold sum. simpl. lia.
  - by rewrite map_to_list_insert.
Qed.

(** A step that adds a record respects both quotas; no step adds two. *)
Lemma qstep_bounds permitted who q q' : qstep cfg permitted who q q' ->
  size q' = size q
  \/ (size q' = S (size q) /\ (Z.of_nat (size q') <= max_events cfg)%Z /\ (queue_size q' <= max_bytes cfg)%Z).
Proof.
  intros Hs. destruct Hs as [who q name r r' Hq _ | q id sid cp md st seq final ? ? ? ? ? ? ? Hev Hb
                            | q id sid cp md p seq final ? ? ? ? ? ? ? Hnone Hev Hb].
  - left. apply map_size_insert_Some. eauto.
  - destruct (q !! json_name id) as [r|] eqn:E; [left; apply map_size_insert_Some; eauto |].
    right. rewrite map_size_insert_None, queue_size_insert by done. split; [done | split; [lia | done]].
  - right. rewrite map_size_insert_None, queue_size_insert by done. split; [done | split; [lia | done]].
Qed.
End bounds.
