(* ===== verification/OutboxTheorems.v ===== *)
(** * The outbox: property theorems

    Each theorem is stated for every environment: any clock whose leases are finite,
    any outcome of every system call that can fail, any listing order. *)

From S2P Require Import Prelude PyStr PyObj Base64 OutboxData RecordProps OutboxStore PreparedOutbox PccOutbox.
From S2P Require Import OutboxLogic QueueRecords QueueModel QueueSpec QueueRefine OutboxOps.
From S2P Require Import OutboxDemo OutboxProps.
From Stdlib Require Import SpecFloat Sorted.

Lemma single_sole r : sole (single r) (event_id r).
Proof. unfold sole, single. by intros name r' [<- <-]%lookup_singleton_Some _. Qed.

(** C1: the outbox implements the abstract queue under orderly calls.  From a world that
    represents a well-formed queue, every [orderly] operation, whatever it returns or raises
    and whatever system call fails, leaves a world that represents the same queue or the
    queue after one specified step made by the operation's actor, for a transition the one
    it was asked for, with the details it was given, and that queue is well-formed again.
    Orderly is every call but three kinds that the code accepts: a progress transition
    without the evidence its target needs; a ciphertext source that lies in the queue
    directory; and a [reconcile_prepared] of a claimed record that was already prepared, or
    with an inline prepared ciphertext above the queue's size limit.  "Where the guarantees
    end" below shows what such calls do to the queue. *)
Theorem outbox_refines_queue `{Env, PyRuntime} cfg q w o :
  config_ok cfg -> leases_ok cfg -> (forall s, fullmatch _DIGEST (sha256 s) = true) ->
  queue_wf cfg q -> represents q w -> orderly q w o ->
  represents q (run_op cfg o w).2
  \/ exists q', qstep cfg (permits o) (actor o) q q' /\ represents q' (run_op cfg o w).2 /\ queue_wf cfg q'.
Proof.
  intros Hc Hl Hs Hwf Hw Ho. destruct (op_refines cfg Hc Hs q w o Hwf Hw Ho) as [Hsame|(q' & Hstep & Hw')].
  - by left.
  - right. exists q'. split; [done |]. split; [done |]. by eapply qstep_wf.
Qed.
Lemma outbox_refines_queue_witness :
  let o := OpClaim (PStr "worker") in
  represents (single demo_queued) (run_op demo_config o (world_of demo_queued)).2
  \/ exists q', qstep demo_config (permits o) (Some "worker") (single demo_queued) q'
       /\ represents q' (run_op demo_config o (world_of demo_queued)).2 /\ queue_wf demo_config q'.
Proof.
  apply (outbox_refines_queue demo_config (single demo_queued) (world_of demo_queued) (OpClaim (PStr "worker"))).
  - apply demo_config_ok.
  - apply demo_leases.
  - apply demo_sha256.
  - apply single_wf, demo_queued_good.
  - apply single_represents.
  - exact I.
Defined.

(** C2: whatever a run of [orderly] operations did, from a world without queue records, and
    wherever it was interrupted by a failed system call, the scan of the queue directory returns every stored record, moves
    none away as corrupt, leaves the world as it was, orders the records by sequence
    number, and no two records share a sequence number. *)
Theorem reachable_scan_total `{Env, PyRuntime} cfg w :
  config_ok cfg -> leases_ok cfg -> (forall s, fullmatch _DIGEST (sha256 s) = true) -> reachable cfg w ->
  exists rs, _safe_records_unlocked w = (Ok (rs, [], 0), w)
    /\ StronglySorted record_le rs
    /\ (forall name n, is_json_name name = true -> files w !! (QUEUE, name) = Some n ->
          exists r, r ∈ rs /\ n = stored r /\ name = json_name (event_id r) /\ good cfg r)
    /\ (forall r r', r ∈ rs -> r' ∈ rs -> sequence r = sequence r' -> r = r').
Proof.
  intros Hc Hl Hs Hr. destruct (reachable_queue cfg Hc Hl Hs w Hr) as (q & Hw & Hwf).
  exists (scan_result q w). split; [by eapply safe_records_at |]. split; [apply scan_sorted |]. split.
  - intros name n Hn Hf. rewrite (rep_files _ _ Hw) in Hf by done. apply fmap_Some in Hf as (r & Hq & ->).
    destruct (wf_entry _ _ Hwf _ _ Hq) as [-> Hg]. exists r. by rewrite (scan_elem cfg q w Hw Hwf).
  - intros r r'. rewrite !(scan_elem cfg q w Hw Hwf). intros Hq Hq' E.
    pose proof (wf_distinct _ _ Hwf _ _ _ _ Hq Hq' E) as En. rewrite En in Hq. congruence.
Qed.
Lemma reachable_scan_total_witness :
  exists rs, _safe_records_unlocked (run_op demo_config (OpClaim (PStr "worker")) empty_world).2
    = (Ok (rs, [], 0), (run_op demo_config (OpClaim (PStr "worker")) empty_world).2).
Proof.
  destruct (reachable_scan_total demo_config (run_op demo_config (OpClaim (PStr "worker")) empty_world).2) as (rs & H & _).
  - apply demo_config_ok.
  - apply demo_leases.
  - apply demo_sha256.
  - apply reach_step; [apply reach_init; intros; apply lookup_empty | intros; exact I].
  - by exists rs.
Defined.

(** C3: a live lease is exclusive under orderly calls.  While the lease of a claimed record
    lies ahead of every reading of the clock, no [orderly] operation acting for another owner or for nobody
    changes the record's file: not a claim, a takeover, a transition, a preparation,
    a release, a reconciliation, nor an enqueue of the event itself, provided no
    other record lists that event.  (A call that hands the queue file itself over as a
    ciphertext source is not orderly and does: [gap_source_removes_record].) *)
Theorem lease_exclusive `{Env, PyRuntime} cfg q w o r holder l :
  config_ok cfg -> leases_ok cfg -> (forall s, fullmatch _DIGEST (sha256 s) = true) ->
  queue_wf cfg q -> represents q w -> orderly q w o ->
  q !! json_name (event_id r) = Some r -> sole q (event_id r) ->
  owner r = Some holder -> lease_until r = Some l -> (forall now, reading now -> SFltb now l = true) ->
  actor o ≠ Some holder ->
  files (run_op cfg o w).2 !! (QUEUE, json_name (event_id r)) = Some (stored r).
Proof.
  intros Hc Hl Hs Hwf Hw Ho Hq Hsole Hown Hlease Hlive Hact.
  assert (forall q', represents q' (run_op cfg o w).2 -> q' !! json_name (event_id r) = Some r ->
    files (run_op cfg o w).2 !! (QUEUE, json_name (event_id r)) = Some (stored r)) as Hdone.
  { intros q' Hw' Hq'. by rewrite (rep_files _ _ Hw'), Hq' by apply is_json_name_json. }
  destruct (op_refines cfg Hc Hs q w o Hwf Hw Ho) as [Hsame|(q' & Hstep & Hw')]; [by eapply Hdone |].
  apply (Hdone q' Hw'). clear Hdone Hw'. destruct (wf_entry _ _ Hwf _ _ Hq) as [_ Hg].
  destruct Hstep as [who q name r0 r' Hr0 Hu | q id sid cp md st seq final ? ? ? ? ? ? Howner
                    | q id sid cp md p seq final ? ? ? ? ? ? ? Hnone].
  - rewrite lookup_insert_ne; [done |]. intros ->. rewrite Hq in Hr0. injection Hr0 as <-.
    by eapply owned_update in Hu.
  - rewrite lookup_insert_ne; [done |]. intros E. destruct Howner as (name & r' & Hr' & Hne & Hin).
    { rewrite E, Hq. by eexists. }
    apply json_name_inj in E as ->. by apply Hne, (Hsole _ _ Hr').
  - rewrite lookup_insert_ne; [done |]. intros E. rewrite E, Hq in Hnone. done.
Qed.
Lemma lease_exclusive_witness :
  files (run_op demo_config (OpTakeover (PStr "A") (PStr "thief")) (world_of demo_claimed)).2
    !! (QUEUE, json_name "A") = Some (stored demo_claimed).
Proof.
  apply (lease_exclusive demo_config (single demo_claimed) (world_of demo_claimed)
    (OpTakeover (PStr "A") (PStr "thief")) demo_claimed "worker" (fadd (f_of_Z 1000) (f_of_Z 60))).
  - apply demo_config_ok.
  - apply demo_leases.
  - apply demo_sha256.
  - apply single_wf, demo_claimed_good.
  - apply single_represents.
  - exact I.
  - apply lookup_singleton_eq.
  - apply single_sole.
  - reflexivity.
  - reflexivity.
  - intros now ->%demo_reading. by vm_compute.
  - by vm_compute.
Defined.

(** C4: a committed record is evidence.  In every world that a run of [orderly] operations
    reaches (each progress transition carries the evidence of its target, in particular an
    object key goes with the upload; see [early_object_key_commits]), a queue file
    that decodes to a committed record carries the object key, whose digest is the
    recorded ciphertext digest, the ciphertext size and the index id, and no owner. *)
Theorem committed_has_evidence `{Env, PyRuntime} cfg w name n v r :
  config_ok cfg -> leases_ok cfg -> (forall s, fullmatch _DIGEST (sha256 s) = true) -> reachable cfg w ->
  is_json_name name = true -> files w !! (QUEUE, name) = Some (Regular n true) -> decoded n = Some v ->
  QueueRecord_from_dict v = Ok r -> state r = COMMITTED ->
  exists key digest size index, object_key r = Some key /\ object_digest key = Some digest
    /\ ciphertext_sha256 r = Some digest /\ ciphertext_size r = Some size /\ index_id r = Some index
    /\ owner r = None.
Proof.
  intros Hc Hl Hs Hreach Hn Hf Hv Hr Hst. destruct (reachable_queue cfg Hc Hl Hs w Hreach) as (q & Hw & Hwf).
  rewrite (rep_files _ _ Hw) in Hf by done. apply fmap_Some in Hf as (r' & Hq & E). injection E as ->.
  simpl in Hv. injection Hv as <-. destruct (wf_entry _ _ Hwf _ _ Hq) as [_ Hg].
  rewrite from_dict_to_dict in Hr by apply Hg. injection Hr as ->.
  by eapply committed_evidence.
Qed.

Lemma committed_has_evidence_witness :
  exists key digest size index, object_key delivered_record = Some key /\ object_digest key = Some digest
    /\ ciphertext_sha256 delivered_record = Some digest /\ ciphertext_size delivered_record = Some size
    /\ index_id delivered_record = Some index /\ owner delivered_record = None.
Proof.
  apply (committed_has_evidence demo_config delivered_world (json_name "A") delivered_content
    (default PNone (decoded delivered_content))).
  - apply demo_config_ok.
  - apply demo_leases.
  - apply demo_sha256.
  - apply delivered_reachable.
  - reflexivity.
  - vm_compute. reflexivity.
  - vm_compute. reflexivity.
  - vm_compute. reflexivity.
  - vm_compute. reflexivity.
Defined.

(** C23: a committed record stays as it is: no [orderly] operation, for any actor, changes
    the file of a committed record whose event no other record lists.  (Handing the file
    itself over as a ciphertext source is not orderly: [gap_source_removes_record].) *)
Theorem committed_unchanged `{Env, PyRuntime} cfg q w o r :
  config_ok cfg -> leases_ok cfg -> (forall s, fullmatch _DIGEST (sha256 s) = true) ->
  queue_wf cfg q -> represents q w -> orderly q w o ->
  q !! json_name (event_id r) = Some r -> sole q (event_id r) -> state r = COMMITTED ->
  files (run_op cfg o w).2 !! (QUEUE, json_name (event_id r)) = Some (stored r).
Proof.
  intros Hc Hl Hs Hwf Hw Ho Hq Hsole Hst.
  destruct (op_refines cfg Hc Hs q w o Hwf Hw Ho) as [Hw'|(q' & Hstep & Hw')];
    rewrite (rep_files _ _ Hw') by apply is_json_name_json; [by rewrite Hq |].
  destruct (wf_entry _ _ Hwf _ _ Hq) as [_ Hg].
  destruct Hstep as [who q name r0 r' Hr0 Hu | q id sid cp md st seq final ? ? ? ? ? ? Howner
                    | q id sid cp md p seq final ? ? ? ? ? ? ? Hnone].
  - rewrite lookup_insert_ne; [by rewrite Hq |]. intros ->. rewrite Hq in Hr0. injection Hr0 as <-.
    by eapply committed_update in Hu.
  - rewrite lookup_insert_ne; [by rewrite Hq |]. intros E. destruct Howner as (name & r' & Hr' & Hne & Hin).
    { rewrite E, Hq. by eexists. }
    apply json_name_inj in E as ->. by apply Hne, (Hsole _ _ Hr').
  - rewrite lookup_insert_ne; [by rewrite Hq |]. intros E. rewrite E, Hq in Hnone. done.
Qed.
Lemma committed_unchanged_witness :
  files (run_op demo_config (OpTransition (PStr "A") (PStr "worker") (PStr "quarantined") []) (world_of demo_committed)).2
    !! (QUEUE, json_name "A") = Some (stored demo_committed).
Proof.
  apply (committed_unchanged demo_config (single demo_committed) (world_of demo_committed)
    (OpTransition (PStr "A") (PStr "worker") (PStr "quarantined") []) demo_committed).
  - apply demo_config_ok.
  - apply demo_leases.
  - apply demo_sha256.
  - apply single_wf, demo_committed_good.
  - apply single_represents.
  - intros s E. by injection E as <-.
  - apply lookup_singleton_eq.
  - apply single_sole.
  - reflexivity.
Defined.

(** C7: [claim] hands out the oldest claimable record.  When it returns a record, that
    is the claimed form of a claimable record of the queue that comes first, in the
    order of sequence numbers, among all claimable ones, and its file holds the
    claimed form; when it returns [None], no record of the queue is claimable. *)
Theorem claim_takes_oldest `{Env, PyRuntime} cfg q w own o res w' :
  config_ok cfg -> queue_wf cfg q -> represents q w -> _identifier own = Ok o ->
  claim cfg own w = (Ok res, w') ->
  match res with
  | Some r' => exists r now, q !! json_name (event_id r) = Some r /\ _claimable r = true
      /\ (forall name r0, q !! name = Some r0 -> _claimable r0 = true -> r = r0 \/ record_le r r0)
      /\ reading now /\ r' = claimed_record cfg r o now
      /\ files w' !! (QUEUE, json_name (event_id r)) = Some (stored r')
  | None => forall name r0, q !! name = Some r0 -> _claimable r0 = false
  end.
Proof.
  intros Hc Hwf Hw Hown Hrun. pose proof (claim_returns cfg q Hwf own o Hown w res w' Hw Hrun) as Hres.
  destruct res as [r'|]; [|done]. destruct Hres as (r & now & (Hq & Hcl & Hmin) & Hnow & -> & Hf). by exists r, now.
Qed.
Lemma claim_takes_oldest_witness :
  exists r now, single demo_queued !! json_name (event_id r) = Some r /\ _claimable r = true
      /\ (forall name r0, single demo_queued !! name = Some r0 -> _claimable r0 = true -> r = r0 \/ record_le r r0)
      /\ reading now /\ demo_claimed = claimed_record demo_config r "worker" now
      /\ files (claim demo_config (PStr "worker") (world_of demo_queued)).2 !! (QUEUE, json_name (event_id r))
         = Some (stored demo_claimed).
Proof.
  apply (claim_takes_oldest demo_config (single demo_queued) (world_of demo_queued) (PStr "worker") "worker"
    (Some demo_claimed)).
  - apply demo_config_ok.
  - apply single_wf, demo_queued_good.
  - apply single_represents.
  - reflexivity.
  - vm_compute. reflexivity.
Defined.

(** C24: an accepted trigger is durable.  When [enqueue] returns a receipt that is not a
    capture gap, the queue file of the record it names holds that record, the record
    lists the event, and its sequence number, state and final marker are the
    receipt's. *)
Theorem enqueue_is_durable `{Env, PyRuntime} cfg q w v sv cp fin md d timeout coalesce id rc w' :
  config_ok cfg -> queue_wf cfg q -> represents q w -> _identifier v = Ok id ->
  enqueue_trigger cfg v sv cp fin md d timeout coalesce w = (Ok rc, w') -> rc_state rc ≠ CAPTURE_GAP ->
  exists r, files w' !! (QUEUE, json_name (rc_event_id rc)) = Some (stored r) /\ id ∈ event_ids r
    /\ rc_sequence rc = Some (sequence r) /\ rc_state rc = state r /\ rc_is_final rc = is_final r.
Proof. intros Hc Hwf Hw Hid Hrun. by eapply (enqueue_accepted cfg Hc q Hwf). Qed.
Lemma enqueue_is_durable_witness :
  exists r, files (run_op demo_config (demo_enqueue "B" 10) (world_of demo_queued)).2 !! (QUEUE, json_name "A") = Some (stored r)
    /\ "B" ∈ event_ids r /\ Some 1%Z = Some (sequence r) /\ QUEUED = state r /\ false = is_final r.
Proof.
  apply (enqueue_is_durable demo_config (single demo_queued) (world_of demo_queued) (PStr "B") (PStr "session")
    (checkpoint_dict (demo_checkpoint 10)) (PBool false) PNone (PStr "allow") None true "B"
    (receipt "A" QUEUED true (Some 1%Z) false None)).
  - apply demo_config_ok.
  - apply single_wf, demo_queued_good.
  - apply single_represents.
  - reflexivity.
  - vm_compute. reflexivity.
  - done.
Defined.

(** Enqueueing is idempotent.  Enqueueing an event that has its own record, and is
    listed by no other, changes no record and returns that record's receipt when the
    checkpoint is the same; otherwise, or when the storage is unavailable, the
    receipt is a capture gap. *)
Theorem enqueue_is_idempotent `{Env, PyRuntime} cfg q w v sv cp fin md d timeout coalesce r sid c rc w' :
  config_ok cfg -> queue_wf cfg q -> represents q w -> q !! json_name (event_id r) = Some r -> sole q (event_id r) ->
  _identifier v = Ok (event_id r) -> _identifier sv = Ok sid -> _validate_checkpoint cp = Ok c ->
  enqueue_trigger cfg v sv cp fin md d timeout coalesce w = (Ok rc, w') ->
  represents q w'
  /\ (rc_state rc = CAPTURE_GAP
      \/ (session_id r = sid /\ qr_checkpoint r = c
          /\ rc = receipt (event_id r) (state r) false (Some (sequence r)) (is_final r) None)).
Proof.
  intros Hc Hwf Hw Hq Hsole Hv Hsv Hcp Hrun.
  destruct (enqueue_again cfg q Hwf v sv cp fin md d timeout coalesce r sid c Hq Hsole Hv Hsv Hcp w rc w' Hw Hrun)
    as [Hrep [Hgap|[Hkey ->]]]; split; auto. right.
  apply bool_decide_eq_true_1 in Hkey. injection Hkey as <- <-. done.
Qed.
Lemma enqueue_is_idempotent_witness :
  let rc := receipt "A" QUEUED false (Some 1%Z) false None in
  represents (single demo_queued) (run_op demo_config (demo_enqueue "A" 10) (world_of demo_queued)).2
  /\ (rc_state rc = CAPTURE_GAP \/ ("session" = "session" /\ demo_checkpoint 10 = demo_checkpoint 10 /\ rc = rc)).
Proof.
  apply (enqueue_is_idempotent demo_config (single demo_queued) (world_of demo_queued) (PStr "A") (PStr "session")
    (checkpoint_dict (demo_checkpoint 10)) (PBool false) PNone (PStr "allow") None true demo_queued "session"
    (demo_checkpoint 10) (receipt "A" QUEUED false (Some 1%Z) false None)).
  - apply demo_config_ok.
  - apply single_wf, demo_queued_good.
  - apply single_represents.
  - apply lookup_singleton_eq.
  - apply single_sole.
  - reflexivity.
  - reflexivity.
  - vm_compute. reflexivity.
  - vm_compute. reflexivity.
Defined.

(** C25: both quotas hold.  An [orderly] operation leaves a world that again represents a
    queue.  It adds at most one record to the queue, and when
    it adds one, the queue then has at most [max_events] records and at most
    [max_bytes] bytes of them. *)
Theorem outbox_quotas `{Env, PyRuntime} cfg q w o :
  config_ok cfg -> leases_ok cfg -> (forall s, fullmatch _DIGEST (sha256 s) = true) ->
  queue_wf cfg q -> represents q w -> orderly q w o ->
  exists q', represents q' (run_op cfg o w).2
    /\ (size q' = size q
        \/ (size q' = S (size q) /\ (Z.of_nat (size q') <= max_events cfg)%Z /\ (queue_size q' <= max_bytes cfg)%Z)).
Proof.
  intros Hc Hl Hs Hwf Hw Ho. destruct (op_refines cfg Hc Hs q w o Hwf Hw Ho) as [Hsame|(q' & Hstep & Hw')].
  - exists q. auto.
  - exists q'. split; [done |]. by eapply qstep_bounds.
Qed.
Lemma outbox_quotas_witness :
  exists q', represents q' (run_op demo_config (demo_enqueue "B" 20) (world_of demo_queued)).2
    /\ (size q' = size (single demo_queued)
        \/ (size q' = S (size (single demo_queued)) /\ (Z.of_nat (size q') <= max_events demo_config)%Z
            /\ (queue_size q' <= max_bytes demo_config)%Z)).
Proof.
  apply outbox_quotas.
  - apply demo_config_ok.
  - apply demo_leases.
  - apply demo_sha256.
  - apply single_wf, demo_queued_good.
  - apply single_represents.
  - exact I.
Defined.

(** C27: publication is atomic under crashes.  If the process dies after any number of the
    calls with which it publishes a queue record, whichever of them fails and any number
    of bytes into the write, the world represents the queue without the publication or
    with it, the next scan returns exactly that queue's records and moves none away, and
    when the publication returned it is the queue with the record. *)
Theorem crash_keeps_queue `{Env, PyRuntime} cfg q w r w' :
  config_ok cfg -> represents q w -> queue_wf cfg q -> queue_wf cfg (<[json_name (event_id r) := r]> q) ->
  w' = (_publish_record_unlocked r w).2
  \/ (exists n, w' = (publish_killed n QUEUE (_path (event_id r)) (json_content (QueueRecord_to_dict r)) w).2) ->
  exists q' rs, (q' = q \/ q' = <[json_name (event_id r) := r]> q) /\ represents q' w'
    /\ _safe_records_unlocked w' = (Ok (rs, [], 0), w')
    /\ (forall r0, r0 ∈ rs <-> q' !! json_name (event_id r0) = Some r0)
    /\ (_publish_record_unlocked r w = (Ok tt, w') -> q' !! json_name (event_id r) = Some r).
Proof.
  intros Hc Hw Hwf Hwf' Hrun.
  assert (exists q', (q' = q \/ q' = <[json_name (event_id r) := r]> q) /\ represents q' w') as (q' & Hq' & Hw').
  { destruct Hrun as [-> | [n ->]].
    - destruct (publish_json_ends q (json_name (event_id r)) r (is_json_name_json _) w Hw) as [[?|?] _]; eauto.
    - destruct (killed_represents q w r n Hw); eauto. }
  assert (queue_wf cfg q') as Hwfq by (destruct Hq' as [-> | ->]; done).
  exists q', (scan_result q' w'). split; [done |]. split; [done |]. split; [by eapply safe_records_at |].
  split; [by intros r0; apply (scan_elem cfg) |]. intros Hok.
  apply publish_bytes_writes in Hok as (_ & Hf & _). rewrite (rep_files _ _ Hw') in Hf by apply is_json_name_json.
  apply fmap_Some in Hf as (r' & Hr' & E). destruct Hq' as [-> | ->]; [|by apply lookup_insert_eq].
  destruct (wf_entry _ _ Hwf _ _ Hr') as [_ [Hg' _]].
  destruct (wf_entry _ _ Hwf' (json_name (event_id r)) r) as [_ [Hg _]]; [apply lookup_insert_eq |].
  assert (Some (QueueRecord_to_dict r) = Some (QueueRecord_to_dict r')) as E'.
  { exact (f_equal (fun n => match n with Regular c _ => decoded c | _ => None end) E). }
  apply Some_inj, (f_equal QueueRecord_from_dict) in E'. rewrite !from_dict_to_dict in E' by done. by injection E' as ->.
Qed.
Lemma crash_keeps_queue_witness :
  let w' := (publish_killed 30 QUEUE (json_name "A") (json_content (QueueRecord_to_dict demo_claimed)) (world_of demo_queued)).2 in
  exists q' rs, (q' = single demo_queued \/ q' = <[json_name "A" := demo_claimed]> (single demo_queued)) /\ represents q' w'
    /\ _safe_records_unlocked w' = (Ok (rs, [], 0), w')
    /\ (forall r0, r0 ∈ rs <-> q' !! json_name (event_id r0) = Some r0)
    /\ (_publish_record_unlocked demo_claimed (world_of demo_queued) = (Ok tt, w') -> q' !! json_name "A" = Some demo_claimed).
Proof.
  apply (crash_keeps_queue demo_config (single demo_queued) (world_of demo_queued) demo_claimed).
  - apply demo_config_ok.
  - apply single_represents.
  - apply single_wf, demo_queued_good.
  - unfold single. rewrite insert_singleton_eq. apply (single_wf _ demo_claimed), demo_claimed_good.
  - right. by exists 30.
Defined.

(** Reading, writing and reading a queue record gives the same record: every value
    [from_dict] accepts is written by [to_dict] in a form [from_dict] accepts again,
    with the same result; integer lease times become the floats they equal. *)
Theorem record_read_write_read `{PyRuntime} v r :
  QueueRecord_from_dict v = Ok r -> QueueRecord_from_dict (QueueRecord_to_dict r) = Ok r.
Proof. intros Hr%record_from_dict_wf. by apply from_dict_to_dict. Qed.
Lemma record_read_write_read_witness :
  QueueRecord_from_dict (QueueRecord_to_dict demo_claimed) = Ok demo_claimed.
Proof. apply (record_read_write_read (QueueRecord_to_dict demo_claimed)). vm_compute. reflexivity. Defined.

(** A prepared record read back is the record written: for every event, ciphertext
    within the size bound and public metadata, the base64 text decodes to the
    ciphertext and the digest and size checks pass. *)
Theorem prepared_record_roundtrip `{PyRuntime} id ciphertext md m :
  (forall s, fullmatch _DIGEST (sha256 s) = true) ->
  _identifier (PStr id) = Ok id -> _validate_metadata md = Ok m ->
  (Z.of_nat (py_len ciphertext) <= _MAX_CIPHERTEXT_BYTES)%Z ->
  PreparedRecord_from_dict (PreparedRecord_to_dict (sealed id ciphertext m)) = Ok (sealed id ciphertext m).
Proof.
  intros Hs Hid Hm Hlen. apply PreparedRecord_roundtrip; [done | by eapply _identifier_inv | | done].
  by eapply _validate_metadata_ok.
Qed.
Lemma prepared_record_roundtrip_witness :
  PreparedRecord_from_dict (PreparedRecord_to_dict (sealed "A" "hello" ∅)) = Ok (sealed "A" "hello" ∅).
Proof.
  apply (prepared_record_roundtrip "A" "hello" (PDict []) ∅).
  - apply demo_sha256.
  - reflexivity.
  - vm_compute. reflexivity.
  - unfold _MAX_CIPHERTEXT_BYTES. simpl. lia.
Defined.

(** ** Where the guarantees end *)

(** The record in the file of an event, and its state. *)
Definition record_at `{PyRuntime} (id : string) (w : world) : option QueueRecord :=
  match files w !! (QUEUE, json_name id) with
  | Some (Regular c _) =>
      match decoded c with
      | Some v => match QueueRecord_from_dict v with Ok r => Some r | Raise _ => None end
      | None => None
      end
  | _ => None
  end.
Definition state_at `{PyRuntime} (id : string) (w : world) : option QueueState := state <$> record_at id w.

Definition demo_shadowed : list op :=
  [demo_enqueue "A" 10; demo_enqueue "B" 10; demo_enqueue "B" 20; OpClaimSpecific (PStr "B") (PStr "worker") (PBool false)].

(** The proviso of lease exclusivity is needed.  When an event was first coalesced
    into another record and then got a record of its own, enqueueing it again while
    its own record is claimed replaces the claimed record by a fresh queued one: the
    claim, still live, is gone. *)
Theorem enqueue_overwrites_claim :
  let w := run_ops demo_config demo_shadowed empty_world in
  state_at "B" w = Some CLAIMED
  /\ state_at "B" (run_op demo_config (demo_enqueue "B" 20) w).2 = Some QUEUED
  /\ (renew (PStr "B") (PStr "worker") (run_op demo_config (demo_enqueue "B" 20) w).2).1 = Raise ELeaseConflict.
Proof. vm_compute. repeat split. Qed.

(** A clock that jumps past the lease after five readings. *)
Definition late_env : Env :=
  environment (fun n => if (n <? 5)%nat then PInt 1000 else PInt 5000) (fun _ => IoOk).
Definition demo_reclaimed : list op :=
  [demo_enqueue "A" 10;
   OpClaim (PStr "worker");
   OpTransition (PStr "A") (PStr "worker") (PStr "source-snapshotted") [];
   OpPrepare (PStr "A") (PStr "worker") "hello" PNone;
   OpRelease (PStr "A") (PStr "worker");
   OpClaim (PStr "uploader")].
Definition demo_reconcile : op :=
  OpReconcile (PStr "A") (PStr "session") (checkpoint_dict (demo_checkpoint 10)) PNone (PBool false).

(** Reconciling an expired claim loses the record.  When the claim of a prepared
    record has expired, [reconcile_prepared] publishes the record as claimed with no
    owner, which [from_dict] rejects: the next scan moves it to quarantine. *)
Theorem reconcile_loses_expired_claim :
  let w := @run_ops late_env _ demo_config demo_reclaimed empty_world in
  let w' := (@run_op late_env _ demo_config demo_reconcile w).2 in
  state_at "A" w = Some CLAIMED
  /\ is_ok (@reconcile_prepared late_env _ demo_config (PStr "A") (PStr "session")
       (checkpoint_dict (demo_checkpoint 10)) PNone (PBool false) w).1 = true
  /\ files w' !! (QUEUE, json_name "A") ≠ None /\ state_at "A" w' = None
  /\ files (@run_op late_env _ demo_config (OpInspect None) w').2 !! (QUEUE, json_name "A") = None.
Proof. vm_compute. repeat split; discriminate. Qed.

(** A progress transition without its evidence loses the record: asked for
    [object-uploaded] without an object key, [transition] succeeds and publishes a
    record that [from_dict] rejects. *)
Theorem transition_without_evidence_unreadable :
  let w := run_ops demo_config (take 4 demo_delivery) empty_world in
  let upload := transition (PStr "A") (PStr "worker") (PStr "object-uploaded") [] in
  state_at "A" w = Some PREPARED_ENCRYPTED /\ is_ok (upload w).1 = true /\ state_at "A" (upload w).2 = None
  /\ files (inspect_record (PStr "A") (upload w).2).2 !! (QUEUE, json_name "A") = None.
Proof. vm_compute. repeat split. Qed.

Definition other_digest : string := "bbbbbbbbbbbbbbbbbbbbbbbbbbbbbbbbbbbbbbbbbbbbbbbbbbbbbbbbbbbbbbbb".
(** A delivery whose first progress transition already names an object. *)
Definition demo_early : list op :=
  [demo_enqueue "A" 10;
   OpClaim (PStr "worker");
   OpTransition (PStr "A") (PStr "worker") (PStr "source-snapshotted") [("object_key", PStr (OBJECT_PREFIX +:+ other_digest))];
   OpPrepare (PStr "A") (PStr "worker") "hello" PNone;
   OpTransition (PStr "A") (PStr "worker") (PStr "object-uploaded") [];
   OpTransition (PStr "A") (PStr "worker") (PStr "index-published") [("index_id", PStr "index")];
   OpTransition (PStr "A") (PStr "worker") (PStr "committed") []].

(** A progress transition without its evidence can commit an object that was never prepared.  An
    object key given before the record has a ciphertext digest is kept and never compared with the
    digest of the ciphertext prepared later: the record is committed with both. *)
Theorem early_object_key_commits :
  exists r, record_at "A" (run_ops demo_config demo_early empty_world) = Some r /\ state r = COMMITTED
    /\ object_key r = Some (OBJECT_PREFIX +:+ other_digest) /\ ciphertext_sha256 r = Some demo_digest.
Proof. eexists. split; [vm_compute; reflexivity |]. repeat split. Qed.

(** A source in the queue directory is consumed like any other.  Preserving the ciphertext of a
    capture gap from the queue file of a record, claimed or committed, acts for nobody and removes
    that file. *)
Theorem gap_source_removes_record :
  forall r, r ∈ [demo_claimed; demo_committed] ->
  let gap := preserve_capture_gap_ciphertext (PStr "gap") (QUEUE, json_name "A") in
  files (world_of r) !! (QUEUE, json_name "A") = Some (stored r)
  /\ is_ok (gap (world_of r)).1 = true /\ files (gap (world_of r)).2 !! (QUEUE, json_name "A") = None.
Proof. intros r Hr. rewrite !elem_of_cons in Hr. destruct Hr as [->|[->|[]%not_elem_of_nil]]; vm_compute; repeat split. Qed.

Definition demo_prepared_file : PreparedFileRecord :=
  {| pf_event_id := "A"; pf_ciphertext_file := "A.age"; pf_metadata := ∅;
     pf_ciphertext_sha256 := demo_digest; pf_ciphertext_size := 5 |}.
(** A published ciphertext file, and another source that others can read. *)
Definition demo_sources : world :=
  set_files (fun f => <[("tmp", "second") := Regular {| bytes := "other"; decoded := None |} false]>
                     (<[("tmp", "first") := Regular {| bytes := "hello"; decoded := None |} true]> f)) empty_world.

(** A refused second publication destroys the first.  Publishing a ciphertext file
    for an event that already has one, from a source that is not private, fails as it
    should, and on its way out deletes the ciphertext published before: the prepared
    record is then corrupt. *)
Theorem refused_publication_deletes_ciphertext :
  let w := (publish_file demo_prepared_file ("tmp", "first") demo_sources).2 in
  let again := publish_file demo_prepared_file ("tmp", "second") w in
  (PreparedOutbox.inspect_record (PStr "A") w).1 = Ok (Some (Beside demo_prepared_file))
  /\ again.1 = Raise (EStorage "publication-failed" (Some false))
  /\ files again.2 !! (PREPARED, age_name "A") = None
  /\ (PreparedOutbox.inspect_record (PStr "A") again.2).1 = Raise (EStorage "prepared-record-corrupt" None).
Proof. vm_compute. repeat split. Qed.

(** C26: preparation is durable before it is recorded.  When [prepare_encrypted] returns
    a record in the prepared stage that it moved there in this call, the prepared
    file holds the ciphertext with its digest and size, that file reads back as the
    record sealed for the event, and the queue file holds the returned record with
    the same digest and size. *)
Theorem prepared_before_recorded `{Env, PyRuntime} cfg q w v own c md id m r' w' :
  config_ok cfg -> (forall s, fullmatch _DIGEST (sha256 s) = true) -> queue_wf cfg q -> represents q w ->
  _identifier v = Ok id -> _validate_metadata (or_empty md) = Ok m ->
  (forall r, q !! json_name id = Some r -> resume_state r = SOURCE_SNAPSHOTTED) ->
  prepare_encrypted cfg v own c md w = (Ok r', w') -> state r' = PREPARED_ENCRYPTED ->
  files w' !! (PREPARED, json_name id) = Some (Regular (json_content (PreparedRecord_to_dict (sealed id c m))) true)
  /\ PreparedRecord_from_dict (PreparedRecord_to_dict (sealed id c m)) = Ok (sealed id c m)
  /\ files w' !! (QUEUE, json_name id) = Some (stored r')
  /\ ciphertext_sha256 r' = Some (sha256 c) /\ ciphertext_size r' = Some (Z.of_nat (py_len c)).
Proof.
  intros Hc Hs Hwf Hw Hid Hm Hstage Hrun Hst.
  destruct (prepare_returns cfg q Hwf v own c md id m Hid Hm Hstage w r' w' Hw Hrun Hst) as (H1 & H2 & H3 & H4 & Hlen).
  split; [done |]. split; [|done]. apply PreparedRecord_roundtrip; [done | by eapply _identifier_inv | by eapply _validate_metadata_ok | done].
Qed.

(** The claimed record once its source was snapshotted. *)
Definition demo_snapshotted : QueueRecord := with_resume SOURCE_SNAPSHOTTED (with_state SOURCE_SNAPSHOTTED demo_claimed).
Definition prepared_demo : result QueueRecord * world :=
  prepare_encrypted demo_config (PStr "A") (PStr "worker") "hello" PNone (world_of demo_snapshotted).
Lemma demo_snapshotted_good : good demo_config demo_snapshotted.
Proof.
  pose proof demo_claimed_good as [[] _ Hh Hs].
  constructor; [constructor; try done; by vm_compute | constructor; intros H | done | done].
  - unfold sealed_stages in H. set_solver.
  - set_solver.
  - done.
Qed.
Lemma prepared_before_recorded_witness :
  exists r', prepared_demo.1 = Ok r'
    /\ files prepared_demo.2 !! (PREPARED, json_name "A")
       = Some (Regular (json_content (PreparedRecord_to_dict (sealed "A" "hello" ∅))) true)
    /\ PreparedRecord_from_dict (PreparedRecord_to_dict (sealed "A" "hello" ∅)) = Ok (sealed "A" "hello" ∅)
    /\ files prepared_demo.2 !! (QUEUE, json_name "A") = Some (stored r')
    /\ ciphertext_sha256 r' = Some (sha256 "hello") /\ ciphertext_size r' = Some (Z.of_nat (py_len "hello")).
Proof.
  eexists. split; [vm_compute; reflexivity |].
  apply (prepared_before_recorded demo_config (single demo_snapshotted) (world_of demo_snapshotted) (PStr "A")
    (PStr "worker") "hello" PNone "A" ∅).
  - apply demo_config_ok.
  - apply demo_sha256.
  - apply single_wf, demo_snapshotted_good.
  - apply single_represents.
  - reflexivity.
  - vm_compute. reflexivity.
  - intros r Hr. unfold single in Hr. apply lookup_singleton_Some in Hr as [_ <-]. reflexivity.
  - vm_compute. reflexivity.
  - reflexivity.
Defined.
