(* ===== verification/EvidenceState.v ===== *)
(** * Evidence in the object store: names, failures, claims and upload state ([src/josh_room/r2.py])

    The keys under which encrypted evidence and its indexes are stored, how the failures of
    the provider are classified, and the two JSON documents of a multipart upload: the claim
    in the bucket and the state in a local file. *)

From stdpp Require Import pretty.
From Stdlib Require Import Ascii.
From S2P Require Import Prelude PyStr PyObj PyDatetime PyJson LogicalJat Catalog CatalogFile Keyset SessionEvidence Replay.

(** ** What is raised

    [ClientError] with the text of its code and its status, a [BotoCoreError], which may be
    a read or connect timeout, a [TimeoutError], the errors of the evidence namespace, and
    any other exception.  [source_preserved] is true of every evidence error. *)
Inductive error_class :=
| EvidenceError | Conflict | Timeout | RateLimited | CredentialFailure | Ambiguous | ReadbackMismatch | Retryable
| AbortFailure | OutboxPrecondition.
#[export] Instance error_class_eq_dec : EqDecision error_class.
Proof. solve_decision. Defined.
Record r2_error := { class : error_class; code : string; published : bool; retries : Z }.
Inductive raised :=
| ClientError (error_code : string) (status : option Z)
| BotoCoreError (timed_out : bool)
| TimeoutError
| R2 (e : r2_error)
| Python (e : exn).
#[export] Instance raised_eq_dec : EqDecision raised.
Proof. intros x y. unfold Decision. repeat decide equality. Defined.

Definition R2EvidenceError (c : string) (p : bool) (n : Z) : raised := R2 {| class := EvidenceError; code := c; published := p; retries := n |}.
Definition R2EvidenceConflict (c : string) (n : Z) : raised := R2 {| class := Conflict; code := c; published := false; retries := n |}.
Definition R2EvidenceTimeout (p : bool) (n : Z) : raised := R2 {| class := Timeout; code := "timeout"; published := p; retries := n |}.
Definition R2EvidenceRateLimited (p : bool) (n : Z) : raised := R2 {| class := RateLimited; code := "rate-limited"; published := p; retries := n |}.
Definition R2EvidenceCredentialFailure (p : bool) (n : Z) : raised :=
  R2 {| class := CredentialFailure; code := "credentials"; published := p; retries := n |}.
Definition R2EvidenceAmbiguous (n : Z) : raised := R2 {| class := Ambiguous; code := "ambiguous-complete"; published := true; retries := n |}.
Definition R2EvidenceReadbackMismatch (p : bool) (n : Z) : raised :=
  R2 {| class := ReadbackMismatch; code := "readback-mismatch"; published := p; retries := n |}.
Definition R2EvidenceRetryable (c : string) (p : bool) (n : Z) : raised := R2 {| class := Retryable; code := c; published := p; retries := n |}.
Definition R2EvidenceAbortFailure (n : Z) : raised := R2 {| class := AbortFailure; code := "multipart-abort-failed"; published := false; retries := n |}.
Definition R2EvidenceOutboxPrecondition : raised := R2 {| class := OutboxPrecondition; code := "outbox-precondition"; published := false; retries := 0 |}.

(** [except ClientError], [except (ClientError, BotoCoreError, TimeoutError)],
    [except (BotoCoreError, TimeoutError)], [except ValueError], [except R2EvidenceError] and
    the error of one of its classes *)
Definition is_client (e : raised) : bool := match e with ClientError _ _ => true | _ => false end.
Definition is_transport (e : raised) : bool := match e with BotoCoreError _ | TimeoutError => true | _ => false end.
Definition is_provider (e : raised) : bool := is_client e || is_transport e.
Definition is_value (e : raised) : bool := match e with Python e => is_value_error e | _ => false end.
Definition is_evidence (e : raised) : bool := match e with R2 _ => true | _ => false end.
Definition of_class (k : error_class) (e : raised) : bool := match e with R2 e => bool_decide (class e = k) | _ => false end.

(** ** Classification *)
Definition status_in (l : list Z) (status : option Z) : option string :=
  match status with Some n => if bool_decide (n ∈ l) then Some (pretty n) else None | None => None end.
Definition _provider_code (error : raised) : string :=
  match error with
  | ClientError c status => default c (status_in [401; 403; 404; 408; 409; 412; 425; 429; 500; 502; 503; 504]%Z status)
  | _ => ""
  end.
Definition _is_precondition (error : raised) : bool :=
  bool_decide (_provider_code error ∈ ["409"; "412"; "PreconditionFailed"; "ConditionalRequestConflict"]).
Definition _not_found (error : raised) : bool := bool_decide (_provider_code error ∈ ["404"; "NoSuchKey"; "NotFound"]).
Definition _is_stale_multipart_error (error : raised) : bool :=
  bool_decide (_provider_code error ∈ ["404"; "NoSuchUpload"; "InvalidUploadId"; "NoSuchUploadId"]).
Definition _is_retryable (error : raised) : bool :=
  match error with
  | TimeoutError => true
  | ClientError _ _ =>
      bool_decide (_provider_code error ∈ ["408"; "425"; "429"; "500"; "502"; "503"; "504"; "SlowDown"; "RequestTimeout"; "InternalError";
                                           "ServiceUnavailable"; "Throttling"])
  | BotoCoreError _ => true
  | _ => false
  end.
Definition _map_evidence_error (error : raised) (n : Z) (p : bool) : raised :=
  let c := match error with
           | ClientError c status => default c (status_in [401; 403; 408; 429; 500; 502; 503; 504]%Z status)
           | _ => ""
           end in
  let timed_out := match error with TimeoutError => true | BotoCoreError b => b | _ => false end in
  if timed_out || bool_decide (c ∈ ["408"; "RequestTimeout"; "504"; "GatewayTimeout"]) then R2EvidenceTimeout p n
  else if bool_decide (c ∈ ["429"; "SlowDown"; "Throttling"; "TooManyRequests"]) then R2EvidenceRateLimited p n
  else if bool_decide (c ∈ ["401"; "403"; "Unauthorized"; "Forbidden"; "ExpiredToken"; "InvalidToken"; "TokenRefreshRequired";
                            "InvalidAccessKeyId"; "SignatureDoesNotMatch"; "AccessDenied"]) then R2EvidenceCredentialFailure p n
  else if _is_retryable error then R2EvidenceRetryable "retry-exhausted" p n
  else R2EvidenceError "publication-unknown" p n.
Definition _duplicate_readback_failure (error : raised) (n : Z) : raised :=
  if _is_retryable error then R2EvidenceRetryable "duplicate-readback-retry" true n
  else if is_value error then R2EvidenceConflict "immutable-conflict" n
  else R2EvidenceReadbackMismatch true n.

(** ** Keys *)
Definition EVIDENCE_CLAIM_PREFIX : string := "evidence/claims/v1/".
Definition _MAX_EVIDENCE_CLAIM_BYTES : Z := 4096.
Definition _MAX_EVIDENCE_STATE_BYTES : Z := 1024 * 1024.
Definition _MAX_EVIDENCE_PARTS : Z := 10000.
Definition _EVIDENCE_OBJECT_KEY : re := RCat (lit EVIDENCE_OBJECT_PREFIX) (exactly 64 (RCls is_hex)).
Definition evidence_index_key (ciphertext_sha256 : string) : result string :=
  raise_if (negb (fullmatch Replay._DIGEST ciphertext_sha256)) (EValue "invalid evidence index digest") ;;
  Ok (EVIDENCE_INDEX_PREFIX +:+ str_take 2 ciphertext_sha256 +:+ "/" +:+ ciphertext_sha256 +:+ ".age").
Definition validate_evidence_object_key (key : string) : result string :=
  raise_if (negb (fullmatch _EVIDENCE_OBJECT_KEY key)) (EValue "invalid evidence object key") ;;
  Ok (removeprefix EVIDENCE_OBJECT_PREFIX key).

(** A part of an upload: its number and its entity tag. *)
Abbreviation part := (Z * string)%type.

Section documents.
Context `{PyRuntime, JsonRuntime}.

(** [b"..."] with a null byte at its end, as text of 8-bit characters *)
Definition nul_terminated (s : string) : string := s +:+ String "000"%char "".
Definition evidence_claim_key (ciphertext_sha256 final_key : string) : result string :=
  raise_if (negb (fullmatch Replay._DIGEST ciphertext_sha256)) (EValue "invalid evidence claim digest") ;;
  (if startswith EVIDENCE_OBJECT_PREFIX final_key then
     d ← validate_evidence_object_key final_key;
     raise_if (negb (bool_decide (d = ciphertext_sha256))) (EValue "invalid evidence claim object")
   else if startswith EVIDENCE_INDEX_PREFIX final_key then
     d ← validate_evidence_index_key final_key;
     raise_if (negb (bool_decide (d = ciphertext_sha256))) (EValue "invalid evidence claim index")
   else Raise (EValue "invalid evidence claim final key")) ;;
  Ok (EVIDENCE_CLAIM_PREFIX +:+ sha256 (nul_terminated "josh-room-pcc-claim-v1" +:+ of_chars (utf8_bytes final_key))).

(** [json.dumps(body, separators=(",", ":"), sort_keys=True).encode()] *)
Definition compact (d : dict) : string := of_chars (utf8_bytes (dumps_sep "" true (PDict d))).

(** ** Claims *)
Definition FENCE : re := exactly 32 (RCls is_hex).
Definition claim_dict (digest : string) (size : Z) (fence : string) : dict :=
  [("version", PInt 1); ("sha256", PStr digest); ("size", PInt size); ("fence", PStr fence)].
Definition claim_text (digest : string) (size : Z) (fence : string) : string := compact (claim_dict digest size fence).
(** What [except (UnicodeDecodeError, json.JSONDecodeError)] makes of another exception. *)
Definition decoding (c : string) (text : string) : pyobj + raised :=
  match loads_bytes text with
  | Ok v => inl v
  | Raise e => inr (if is_json_error e then R2EvidenceConflict c 0 else Python e)
  end.
(** The fence of a claim on this content. *)
Definition read_claim (body digest : string) (size : Z) : string + raised :=
  if (_MAX_EVIDENCE_CLAIM_BYTES <? Z.of_nat (py_len body))%Z then inr (R2EvidenceConflict "claim-bounded" 0)
  else
    match decoding "claim-invalid" body with
    | inl (PDict claim) =>
        match get_or_none "size" claim, get_or_none "fence" claim with
        | PInt n, PStr fence =>
            if keys_are ["version"; "sha256"; "size"; "fence"] claim && py_eq (get_or_none "version" claim) (PInt 1)
               && py_eq (get_or_none "sha256" claim) (PStr digest) && (n =? size)%Z && fullmatch FENCE fence
            then inl fence else inr (R2EvidenceConflict "claim-conflict" 0)
        | _, _ => inr (R2EvidenceConflict "claim-conflict" 0)
        end
    | inl _ => inr (R2EvidenceConflict "claim-conflict" 0)
    | inr e => inr e
    end.

(** ** The state of an upload *)
Inductive upload_stage := Claiming | Claimed | Uploading | Completing.
Definition stage_value (s : upload_stage) : string :=
  match s with Claiming => "claiming" | Claimed => "claimed" | Uploading => "uploading" | Completing => "completing" end.
Definition stage_of (s : string) : option upload_stage :=
  find (fun st => bool_decide (stage_value st = s)) [Claiming; Claimed; Uploading; Completing].
Record EvidenceState := {
  state_key : string;
  state_sha256 : string;
  state_size : Z;
  state_claim_key : string;
  fence : string;
  stage : upload_stage;
  upload_id : option string;
  parts : list part;
}.
Definition part_dict (p : part) : dict := [("ETag", PStr p.2); ("PartNumber", PInt p.1)].
Definition state_dict (s : EvidenceState) : dict :=
  [("version", PInt 1); ("key", PStr (state_key s)); ("sha256", PStr (state_sha256 s)); ("size", PInt (state_size s));
   ("claim_key", PStr (state_claim_key s)); ("fence", PStr (fence s)); ("stage", PStr (stage_value (stage s)));
   ("upload_id", opt_str (upload_id s)); ("parts", PList ((fun p => PDict (part_dict p)) <$> parts s))].
Definition state_text (s : EvidenceState) : string := compact (state_dict s).

Definition read_part (v : pyobj) : option part :=
  match v with
  | PDict d =>
      match get_or_none "PartNumber" d, get_or_none "ETag" d with
      | PInt n, PStr etag =>
          if keys_are ["PartNumber"; "ETag"] d && ((1 <=? n) && (n <=? _MAX_EVIDENCE_PARTS))%Z
             && (negb (bool_decide (etag = "")) && (py_len etag <=? 4096)%nat)
          then Some (n, etag) else None
      | _, _ => None
      end
  | _ => None
  end.
(** The parts of a state, whose numbers differ. *)
Fixpoint read_parts (seen : list Z) (l : list pyobj) : option (list part) :=
  match l with
  | [] => Some []
  | v :: l =>
      p ← read_part v;
      if bool_decide (p.1 ∈ seen) then None else ps ← read_parts (p.1 :: seen) l; Some (p :: ps)
  end.
Definition read_upload_id (v : pyobj) : option (option string) :=
  match v with
  | PNone => Some None
  | PStr s => if (py_len s <=? 2048)%nat then Some (Some s) else None
  | _ => None
  end.
Definition STATE_KEYS : list string := ["version"; "key"; "sha256"; "size"; "claim_key"; "fence"; "stage"; "upload_id"; "parts"].
(** The checks on a state that was read, for the object it is about. *)
Definition check_state (key digest : string) (size : Z) (claim_key : string) (v : pyobj) : option EvidenceState :=
  match v with
  | PDict d =>
      match get_or_none "version" d, get_or_none "key" d, get_or_none "sha256" d, get_or_none "size" d,
            get_or_none "claim_key" d, get_or_none "fence" d, get_or_none "stage" d, get_or_none "parts" d with
      | PInt version, PStr k, PStr sha, PInt n, PStr ck, PStr f, PStr st, PList l =>
          if keys_are STATE_KEYS d && (version =? 1)%Z && bool_decide (k = key) && bool_decide (sha = digest) && (n =? size)%Z
             && bool_decide (ck = claim_key) && fullmatch FENCE f && (Z.of_nat (length l) <=? _MAX_EVIDENCE_PARTS)%Z
          then
            st ← stage_of st;
            u ← read_upload_id (get_or_none "upload_id" d);
            ps ← read_parts [] l;
            Some {| state_key := k; state_sha256 := sha; state_size := n; state_claim_key := ck; fence := f; stage := st;
                    upload_id := u; parts := ps |}
          else None
      | _, _, _, _, _, _, _, _ => None
      end
  | _ => None
  end.
Definition read_state (raw key digest : string) (size : Z) : EvidenceState + raised :=
  if (_MAX_EVIDENCE_STATE_BYTES <? Z.of_nat (py_len raw))%Z then inr (R2EvidenceConflict "multipart-state-bounded" 0)
  else
    match decoding "multipart-state-invalid" raw with
    | inl v =>
        match evidence_claim_key digest key with
        | Ok claim_key =>
            match check_state key digest size claim_key v with
            | Some s => inl s
            | None => inr (R2EvidenceConflict "multipart-state-invalid" 0)
            end
        | Raise e => inr (Python e)
        end
    | inr e => inr e
    end.
End documents.
