(* ===== verification/EvidenceStore.v ===== *)
(** * Evidence in the object store: publication ([src/josh_room/r2.py])

    Encrypted evidence is stored once, under the key of its digest: small objects by one
    conditional request, large ones by a multipart upload that only the holder of a claim
    makes and that a later run can take up again.  Whatever the provider answers, an object
    counts as published only after it was read back.

    The provider, the local files and the outbox are called; what they do is in
    [EvidenceRuns].  Sleeping between attempts, progress reports, latencies and the metadata
    sent along, which nothing reads back, are left out. *)

From stdpp Require Import pretty.
From S2P Require Import Prelude PyStr PyObj PyDatetime PyJson LogicalJat Catalog CatalogFile Keyset SessionEvidence Replay OutboxData Programs EvidenceState.

(** ** Calls *)
(** An entry of a listing: its key and its size, [None] where missing. *)
Record listed := { listed_key : pyobj; listed_size : pyobj }.
Record listing := { contents : list listed; is_truncated : pyobj; next_token : pyobj }.

Inductive call : Type -> Type :=
(* the object store; an object is only put where there is none *)
| PutObject (key body : string) : call unit
| HeadObject (key : string) : call (option Z)
| GetObject (key : string) : call string
| CreateMultipartUpload (key : string) : call string
| UploadPart (key upload_id : string) (number : Z) (body : string) : call string
| CompleteMultipartUpload (key upload_id : string) (parts : list part) : call unit
| AbortMultipartUpload (key upload_id : string) : call unit
| ListObjects (max_keys : Z) (token : option string) : call listing
(* the host: a private copy of a source file, the checks on the directory of upload states
   and on one state, its lock, the states and the random fences *)
| ReadSource (path : string) : call string
| CheckReceiptRoot : call unit
| CheckState (name : string) : call unit
| Lock (name : string) : call unit
| Unlock (name : string) : call unit
| ReadState (name : string) : call (option string)
| WriteState (name text : string) : call unit
| RemoveState (name : string) : call unit
| TokenHex : call string
| RequirePrepareUpload : call unit
(* the outbox *)
| InspectRecord (event_id : string) : call (option QueueRecord)
| InspectPrepared (event_id : string) : call (option prepared)
| MarkUploaded (event_id owner object_key : string) (ciphertext_size : Z) : call QueueRecord
| PublishIndex (event_id owner index_id : string) : call QueueRecord
| CommitRecord (event_id owner : string) : call QueueRecord.
Abbreviation program := (prog call raised raised).

Definition throw_if (b : bool) (e : raised) : program unit := if b then throw e else mret tt.
Definition pure {A} (r : result A) : program A := match r with Ok a => mret a | Raise e => throw (Python e) end.
Definition checked {A} (r : A + raised) : program A := match r with inl a => mret a | inr e => throw e end.
(** A step on local files whose failure is the evidence error with this code. *)
Definition or_unavailable {A} (c : string) (m : program A) : program A := try m (fun _ => throw (R2EvidenceError c false 0)).

(** ** The backend *)
(** What publication reads of [R2Config] or [MinioConfig], and the module of the backend. *)
Record R2Backend := {
  provider_module : string;
  endpoint : string;
  bucket : string;
  dimension_id : option string;
  multipart_threshold : Z;
  multipart_chunk_size : Z;
  r2_max_bytes : Z;
  config_max_attempts : Z;
}.

Record R2EvidenceMetrics := { sent_bytes : Z; sent_parts : Z; metric_retries : Z; duplicate : bool; readback_verified : bool; orphaned : bool }.
Record R2EvidenceReceipt := {
  receipt_key : string;
  receipt_digest : string;
  receipt_bytes : Z;
  metrics : R2EvidenceMetrics;
  recovery : string;
}.

(** The pieces [read(n)] returns until nothing is left; nothing is read when [n] is 0, all
    at once when it is negative. *)
Fixpoint pieces (fuel n : nat) (s : string) : list string :=
  match fuel with
  | O => []
  | S fuel =>
      let chunk := str_take n s in
      if bool_decide (chunk = "") then [] else chunk :: pieces fuel n (str_drop n s)
  end.
Definition chunks (n : Z) (s : string) : list string :=
  pieces (py_len s) (if (n <? 0)%Z then py_len s else Z.to_nat n) s.

(** A read loop that gives up beyond the limit: the length and what was hashed. *)
Fixpoint read_all (limit : Z) (too_much : raised) (total : Z) (observed : string) (cs : list string) : (Z * string) + raised :=
  match cs with
  | [] => inl (total, observed)
  | c :: cs =>
      let total := (total + Z.of_nat (py_len c))%Z in
      if (limit <? total)%Z then inr too_much else read_all limit too_much total (observed +:+ c) cs
  end.

(** [sorted] by part number *)
Definition part_le (p q : part) : Prop := (p.1 <= q.1)%Z.
#[export] Instance part_le_dec : RelDecision part_le.
Proof. intros p q. unfold part_le. apply _. Defined.

(** The variables of [_put_evidence_multipart_locked] that its handlers read. *)
Record locals := { state : EvidenceState; open_upload : option string; committed : bool; preserve_state : bool; tries : Z }.
Abbreviation step := (@local call raised raised locals).

Section backend.
Context `{PyRuntime, JsonRuntime}.
Variable self : R2Backend.

Definition max_attempts : nat := Nat.max 1 (Z.to_nat (config_max_attempts self)).
Definition read_size : Z := Z.min (multipart_chunk_size self) (1024 * 1024).
Definition receipt (key digest : string) (size sent n : Z) (dup : bool) (how : string) : R2EvidenceReceipt :=
  {| receipt_key := key; receipt_digest := digest; receipt_bytes := size;
     metrics := {| sent_bytes := size; sent_parts := sent; metric_retries := n; duplicate := dup; readback_verified := true; orphaned := false |};
     recovery := how |}.

(** ** Reading back *)
Definition mismatch (what : string) : raised := Python (EValue what).
Definition _verify_evidence_remote (key digest : string) (size : option Z) (verify_body : bool) : program Z :=
  head ← try (do_call (HeadObject key)) (fun e => throw (if _not_found e then mismatch "evidence object is unavailable" else e));
  let observed_size := default (-1)%Z head in
  throw_if ((r2_max_bytes self <? observed_size)%Z || match size with Some n => negb (observed_size =? n)%Z | None => false end)
    (mismatch "evidence object size mismatch") ;;
  if negb verify_body then mret observed_size
  else
    body ← do_call (GetObject key);
    '(total, observed) ← checked (read_all (r2_max_bytes self) (mismatch "evidence object exceeds maximum size") 0 "" (chunks read_size body));
    throw_if (negb (total =? observed_size)%Z || negb (bool_decide (sha256 observed = digest))) (mismatch "evidence object digest mismatch") ;;
    mret observed_size.
Definition _evidence_final_exists (key : string) : program bool :=
  try_else (do_call (HeadObject key)) (fun e => if _not_found e then mret false else throw e) (fun _ => mret true).
Definition _verify_evidence_or_absent (key digest : string) (size : Z) : program bool :=
  try_else (_verify_evidence_remote key digest (Some size) true)
    (fun e =>
       if is_value e then
         there ← _evidence_final_exists key;
         if there : bool then throw (R2EvidenceReadbackMismatch true 0) else mret false
       else throw e)
    (fun _ => mret true).

(** Reading an object: its size is asked for first, then the body up to a limit. *)
Definition bad_expected_size (expected_size : option Z) : bool :=
  match expected_size with Some n => (n <? 0)%Z || (r2_max_bytes self <? n)%Z | None => false end.
Definition readback_mismatch_on_value {A} (m : program A) : program A :=
  try m (fun e => throw (if is_value e then R2EvidenceReadbackMismatch true 0 else e)).
(** [content_length] is the header of the answer, which the store sends with the body. *)
Definition read_body (key digest : string) (expected_size : option Z) : program string :=
  whole ← do_call (GetObject key);
  let limit := match expected_size with Some n => Z.min (r2_max_bytes self + 1) (n + 1) | None => (r2_max_bytes self + 1)%Z end in
  let body := if (limit <? 0)%Z then whole else str_take (Z.to_nat limit) whole in
  let content_length := Z.of_nat (py_len whole) in
  throw_if (negb (Z.of_nat (py_len body) =? content_length)%Z || (r2_max_bytes self <? Z.of_nat (py_len body))%Z
            || match expected_size with Some n => negb (Z.of_nat (py_len body) =? n)%Z | None => false end
            || negb (bool_decide (sha256 body = digest))) (R2EvidenceReadbackMismatch true 0) ;;
  mret body.
Definition get_evidence_bytes (key : string) (expected_size : option Z) : program string :=
  digest ← pure (validate_evidence_object_key key);
  readback_mismatch_on_value (_verify_evidence_remote key digest expected_size false) ;;
  throw_if (bad_expected_size expected_size) (R2EvidenceReadbackMismatch true 0) ;;
  read_body key digest expected_size.
Definition get_evidence_index_bytes (key : string) (expected_size : option Z) : program string :=
  digest ← pure (validate_evidence_index_key key);
  throw_if (bad_expected_size expected_size) (R2EvidenceReadbackMismatch true 0) ;;
  readback_mismatch_on_value (_verify_evidence_remote key digest expected_size false) ;;
  read_body key digest expected_size.

(** ** One conditional request *)
(** The last attempt of a request that failed on the way: the object may be there. *)
Definition settle (key digest : string) (size n : Z) (error : raised) : program R2EvidenceReceipt :=
  try_else (_verify_evidence_remote key digest (Some size) true)
    (fun e =>
       if is_value e then
         there ← try (_evidence_final_exists key) (fun e => throw (if is_provider e then _map_evidence_error e n false else e));
         throw (if there : bool then R2EvidenceConflict "immutable-conflict" n else _map_evidence_error error n false)
       else throw (if is_provider e then _map_evidence_error e n false else e))
    (fun _ => mret (receipt key digest size 1 n true "none")).
(** [more] attempts may follow this one. *)
Fixpoint single_attempts (more : nat) (key body : string) (size : Z) (digest : string) (n : Z) : program R2EvidenceReceipt :=
  try_else (do_call (PutObject key body) ;; _verify_evidence_remote key digest (Some size) true)
    (fun error =>
       if is_client error then
         if _is_precondition error then
           try_else (_verify_evidence_remote key digest (Some size) true)
             (fun e => throw (if is_value e || is_provider e then _duplicate_readback_failure e n else e))
             (fun _ => mret (receipt key digest size 1 n true "none"))
         else if negb (_is_retryable error) then throw (_map_evidence_error error n false)
         else
           match more with
           | O => throw (_map_evidence_error error n false)
           | S more => single_attempts more key body size digest (n + 1)
           end
       else if is_value error then throw (R2EvidenceReadbackMismatch true n)
       else if is_transport error then
         match more with
         | O => settle key digest size n error
         | S more => single_attempts more key body size digest (n + 1)
         end
       else throw error)
    (fun _ => mret (receipt key digest size 1 n false "none")).
Definition _put_evidence_single (key body : string) (size : Z) (digest : string) : program R2EvidenceReceipt :=
  single_attempts (max_attempts - 1) key body size digest 0.

(** ** Local upload states *)
Definition _evidence_destination_fingerprint : string :=
  sha256 (compact [("provider", PStr (provider_module self)); ("endpoint", PStr (endpoint self)); ("bucket", PStr (bucket self));
                   ("dimension", opt_str (dimension_id self))]).
(** The names of the state and of the lock in the directory of this host's states. *)
Definition state_id (identity : string) : string :=
  sha256 (nul_terminated "josh-room-pcc-state-v2" +:+ nul_terminated _evidence_destination_fingerprint +:+ of_chars (utf8_bytes identity)).
Definition _evidence_state_path (final_key : string) : string := state_id final_key +:+ ".json".
Definition lock_name (digest : string) : string :=
  "." +:+ sha256 (nul_terminated "josh-room-pcc-lock-v2" +:+ nul_terminated _evidence_destination_fingerprint +:+ of_chars (utf8_bytes digest)) +:+ ".lock".

Definition unavailable {A} : program A -> program A := or_unavailable "multipart-state-unavailable".
Definition _validate_receipt_root : program unit := unavailable (do_call CheckReceiptRoot).
Definition _validate_evidence_state_storage (name : string) : program unit := unavailable (do_call (CheckState name)).
Definition _save_evidence_state (state : EvidenceState) : program unit :=
  _validate_receipt_root ;;
  let name := _evidence_state_path (state_key state) in
  throw_if (_MAX_EVIDENCE_STATE_BYTES <? Z.of_nat (py_len (state_text state)))%Z (R2EvidenceError "multipart-state-bounded" false 0) ;;
  _validate_evidence_state_storage name ;;
  unavailable (do_call (WriteState name (state_text state))).
(** Whether the state could be removed is not looked at. *)
Definition _clear_evidence_state (key : string) : program unit :=
  _validate_receipt_root ;;
  _validate_evidence_state_storage (_evidence_state_path key) ;;
  try (do_call (RemoveState (_evidence_state_path key))) (fun _ => mret tt).
Definition _load_evidence_state (key digest : string) (size : Z) : program EvidenceState :=
  _validate_receipt_root ;;
  let name := _evidence_state_path key in
  _validate_evidence_state_storage name ;;
  raw ← unavailable (do_call (ReadState name));
  if bool_decide (default "" raw = "") then
    claim_key ← pure (evidence_claim_key digest key);
    token ← do_call TokenHex;
    let state := {| state_key := key; state_sha256 := digest; state_size := size; state_claim_key := claim_key; fence := token;
                    stage := Claiming; upload_id := None; parts := [] |} in
    _save_evidence_state state ;; mret state
  else checked (read_state (default "" raw) key digest size).

(** ** Claims *)
Definition _read_evidence_claim (claim_key digest : string) (size : Z) : program (option string) :=
  body ← try_else (do_call (GetObject claim_key)) (fun e => if _not_found e then mret None else throw e) (fun body => mret (Some body));
  match body with
  | None => mret None
  | Some body => fence ← checked (read_claim body digest size); mret (Some fence)
  end.
Definition with_stage (st : upload_stage) (s : EvidenceState) : EvidenceState :=
  {| state_key := state_key s; state_sha256 := state_sha256 s; state_size := state_size s; state_claim_key := state_claim_key s;
     fence := fence s; stage := st; upload_id := upload_id s; parts := parts s |}.
Definition with_upload (u : option string) (ps : list part) (s : EvidenceState) : EvidenceState :=
  {| state_key := state_key s; state_sha256 := state_sha256 s; state_size := state_size s; state_claim_key := state_claim_key s;
     fence := fence s; stage := stage s; upload_id := u; parts := ps |}.
(** A claim that was there, or that a failed request left there, is ours when it has our fence. *)
Definition own_claim (state : EvidenceState) (digest : string) (size : Z) (absent : raised) : program unit :=
  existing ← _read_evidence_claim (state_claim_key state) digest size;
  match existing with
  | None => throw absent
  | Some f => throw_if (negb (bool_decide (f = fence state))) (R2EvidenceConflict "claim-conflict" 0)
  end.
Definition _claim_evidence_multipart (key digest : string) (size : Z) : program EvidenceState :=
  state ← _load_evidence_state key digest size;
  try (do_call (PutObject (state_claim_key state) (claim_text digest size (fence state))))
    (fun error =>
       if is_client error then
         if _is_precondition error then own_claim state digest size (R2EvidenceConflict "claim-conflict" 0) else throw error
       else if is_transport error then own_claim state digest size (_map_evidence_error error 0 false)
       else throw error) ;;
  let state := with_stage Claimed state in
  _save_evidence_state state ;; mret state.

(** ** Multipart uploads *)
Definition set_state (f : EvidenceState -> EvidenceState) (v : locals) : locals :=
  {| state := f (state v); open_upload := open_upload v; committed := committed v; preserve_state := preserve_state v; tries := tries v |}.
Definition set_open (u : option string) (v : locals) : locals :=
  {| state := state v; open_upload := u; committed := committed v; preserve_state := preserve_state v; tries := tries v |}.
Definition set_committed (v : locals) : locals :=
  {| state := state v; open_upload := open_upload v; committed := true; preserve_state := preserve_state v; tries := tries v |}.
Definition set_preserve (v : locals) : locals :=
  {| state := state v; open_upload := open_upload v; committed := committed v; preserve_state := true; tries := tries v |}.
Definition count_try (v : locals) : locals :=
  {| state := state v; open_upload := open_upload v; committed := committed v; preserve_state := preserve_state v; tries := tries v + 1 |}.

Definition save : step unit := s ← read state; lifted (_save_evidence_state s).
Definition fail {A} (e : raised) : step A := raising e.
Definition _reset_evidence_upload (key : string) (n : Z) : step unit :=
  s ← read state;
  match upload_id s with
  | None => mret tt
  | Some u =>
      catching (lifted (do_call (AbortMultipartUpload key u))) (fun _ => save ;; fail (R2EvidenceAbortFailure n)) ;;
      assign (set_state (fun s => with_stage Claimed (with_upload None [] s))) ;; save
  end.

(** The upload is opened; [more] attempts may follow this one. *)
Fixpoint create_attempts (more : nat) (key : string) : step unit :=
  catching
    (u ← lifted (do_call (CreateMultipartUpload key));
     assign (set_open (Some u)) ;;
     (if bool_decide (u = "") then fail (mismatch "multipart upload id is invalid") else mret tt) ;;
     assign (set_state (fun s => with_stage Uploading (with_upload (Some u) [] s))) ;; save)
    (fun error =>
       if is_provider error then
         assign count_try ;;
         n ← read tries;
         if negb (_is_retryable error) then fail (_map_evidence_error error n false)
         else match more with O => fail (_map_evidence_error error n false) | S more => create_attempts more key end
       else fail error).

(** The upload is gone: the next run starts another. *)
Definition expired : step unit :=
  assign (set_state (fun s => with_stage Claimed (with_upload None [] s))) ;; save.
Definition sorted_parts (m : gmap Z string) : list part := merge_sort part_le (map_to_list m).
(** One part; every failure counts for the whole upload, and [more] of them may follow
    before [max_attempts] is reached. *)
Fixpoint part_attempts (more : nat) (key u : string) (number : Z) (chunk : string) (prior_parts : gmap Z string) : step (gmap Z string) :=
  catching
    (etag ← lifted (do_call (UploadPart key u number chunk));
     (if bool_decide (etag = "") then fail (mismatch "multipart part token is invalid") else mret tt) ;;
     let prior_parts := <[number := etag]> prior_parts in
     assign (set_state (fun s => with_stage Uploading (with_upload (upload_id s) (sorted_parts prior_parts) s))) ;; save ;;
     mret prior_parts)
    (fun error =>
       if is_provider error then
         if _is_stale_multipart_error error then
           expired ;; n ← read tries; fail (R2EvidenceRetryable "multipart-expired" false n)
         else
           assign count_try ;;
           n ← read tries;
           if negb (_is_retryable error) then fail (_map_evidence_error error n false)
           else
             match more with
             | O => fail (_map_evidence_error error n false)
             | S more => part_attempts more key u number chunk prior_parts
             end
       else fail error).
(** The failures that may follow when [n] were counted. *)
Definition tries_left (n : Z) : nat := (max_attempts - 1 - Z.to_nat n)%nat.
Fixpoint send_parts (key u : string) (cs : list string) (number observed : Z) (prior_parts : gmap Z string) (sent : list part)
    : step (Z * list part) :=
  match cs with
  | [] => mret (observed, sent)
  | chunk :: cs =>
      let observed := (observed + Z.of_nat (py_len chunk))%Z in
      (if (_MAX_EVIDENCE_PARTS <? number)%Z then fail (R2EvidenceError "multipart-part-limit" false 0) else mret tt) ;;
      prior_parts ← (match prior_parts !! number with
                     | Some _ => mret prior_parts
                     | None => n ← read tries; part_attempts (tries_left n) key u number chunk prior_parts
                     end);
      send_parts key u cs (number + 1) observed prior_parts (sent ++ [(number, default "" (prior_parts !! number))])
  end.

(** The object was found, or not, after the request that completes the upload. *)
Definition settled (key digest : string) (size : Z) : step bool :=
  catching (lifted (_verify_evidence_or_absent key digest size))
    (fun e =>
       if of_class ReadbackMismatch e then assign set_committed ;; lifted (_clear_evidence_state key) ;; fail e else fail e).
Definition finished (key digest : string) (size sent : Z) (how : string) : step R2EvidenceReceipt :=
  assign set_committed ;; lifted (_clear_evidence_state key) ;;
  n ← read tries; mret (receipt key digest size sent n false how).
Definition ambiguous {A} : step A := assign set_preserve ;; n ← read tries; fail (R2EvidenceAmbiguous n).
Fixpoint complete_attempts (more : nat) (key u digest : string) (size : Z) (sent : list part) : step R2EvidenceReceipt :=
  catching_else (lifted (do_call (CompleteMultipartUpload key u sent)))
    (fun error =>
       if negb (is_provider error) then fail error
       else if _is_stale_multipart_error error then
         expired ;; assign (set_open None) ;; n ← read tries; fail (R2EvidenceRetryable "multipart-expired" false n)
       else if negb (_is_retryable error) then n ← read tries; fail (_map_evidence_error error n false)
       else
         assign count_try ;;
         there ← settled key digest size;
         if there : bool then finished key digest size (Z.of_nat (length sent)) "ambiguous-complete-verified"
         else
           match more with
           | O =>
               let limited := match error with ClientError c _ => bool_decide (c ∈ ["429"; "SlowDown"; "Throttling"]) | _ => false end in
               if limited then n ← read tries; fail (_map_evidence_error error n false) else ambiguous
           | S more => complete_attempts more key u digest size sent
           end)
    (fun _ =>
       there ← settled key digest size;
       if there : bool then finished key digest size (Z.of_nat (length sent)) "none" else ambiguous).

Definition run_upload (key content digest : string) (size : Z) : step R2EvidenceReceipt :=
  u ← read open_upload;
  (match u with
   | Some _ => mret tt
   | None => assign (set_state (with_stage Claimed)) ;; save ;; create_attempts (max_attempts - 1) key
   end) ;;
  u ← read open_upload;
  match u with
  | None => n ← read tries; fail (R2EvidenceRetryable "retry-exhausted" false n)
  | Some u =>
      s ← read state;
      '(observed_size, sent) ← send_parts key u (chunks (multipart_chunk_size self) content) 1 0 (list_to_map (parts s)) [];
      n ← read tries;
      (if negb (observed_size =? size)%Z then fail (R2EvidenceReadbackMismatch false n) else mret tt) ;;
      assign (set_state (fun s => with_stage Completing (with_upload (upload_id s) sent s))) ;; save ;;
      complete_attempts (max_attempts - 1) key u digest size sent
  end.
(** An upload that ended in an error is given up, unless its object is there or may be. *)
Definition abandon (key : string) : step unit :=
  u ← read open_upload;
  c ← read committed;
  if bool_decide (u = None) || c then mret tt else n ← read tries; _reset_evidence_upload key n.
Definition upload_handled (key content digest : string) (size : Z) : step R2EvidenceReceipt :=
  catching (run_upload key content digest size)
    (fun error =>
       n ← read tries;
       if of_class Ambiguous error then assign set_preserve ;; fail error
       else if is_evidence error then abandon key ;; fail error
       else if is_value error then abandon key ;; fail (R2EvidenceReadbackMismatch false n)
       else if is_provider error then abandon key ;; fail (_map_evidence_error error n false)
       else fail error).
Definition preserving : step unit := p ← read preserve_state; if p : bool then save else mret tt.
Definition upload_preserved (key content digest : string) (size : Z) : step R2EvidenceReceipt :=
  catching_else (upload_handled key content digest size) (fun e => preserving ;; fail e) (fun r => preserving ;; mret r).

Definition mapped {A} (m : program A) : program A := try m (fun e => throw (if is_provider e then _map_evidence_error e 0 false else e)).
Definition _put_evidence_multipart_locked (key content : string) (size : Z) (digest : string) : program R2EvidenceReceipt :=
  there ← try (there ← _verify_evidence_or_absent key digest size;
               (if there : bool then _clear_evidence_state key else mret tt) ;; mret there)
            (fun e =>
               if of_class ReadbackMismatch e then _clear_evidence_state key ;; throw (R2EvidenceConflict "immutable-conflict" 0)
               else throw (if is_provider e then _map_evidence_error e 0 false else e));
  if there : bool then mret (receipt key digest size 0 0 true "none")
  else
    s ← mapped (_claim_evidence_multipart key digest size);
    scoped {| state := s; open_upload := upload_id s; committed := false; preserve_state := false; tries := 0 |}
      (upload_preserved key content digest size).
Definition _put_evidence_multipart (key content : string) (size : Z) (digest : string) : program R2EvidenceReceipt :=
  _validate_receipt_root ;;
  or_unavailable "multipart-lock-unavailable" (do_call (Lock (lock_name digest))) ;;
  finally (_put_evidence_multipart_locked key content size digest) (do_call (Unlock (lock_name digest))).

(** ** Publication *)
Definition _put_evidence (key content : string) (size : Z) (digest : string) : program R2EvidenceReceipt :=
  throw_if ((size <? 0) || (r2_max_bytes self <? size))%Z (mismatch "evidence object exceeds maximum size") ;;
  (if startswith EVIDENCE_OBJECT_PREFIX key then
     d ← pure (validate_evidence_object_key key); throw_if (negb (bool_decide (d = digest))) (mismatch "invalid evidence object key")
   else
     d ← pure (validate_evidence_index_key key); throw_if (negb (bool_decide (d = digest))) (mismatch "invalid evidence index key")) ;;
  if (size <? multipart_threshold self)%Z then _put_evidence_single key content size digest
  else _put_evidence_multipart key content size digest.
(** A private copy of the file, its length and its digest. *)
Definition _snapshot_evidence_file (path : string) : program (string * Z * string) :=
  content ← or_unavailable "source-unavailable" (do_call (ReadSource path));
  mret (content, Z.of_nat (py_len content), sha256 content).
Definition put_evidence_file (path : string) : program R2EvidenceReceipt :=
  '(content, size, digest) ← _snapshot_evidence_file path;
  key ← pure (evidence_object_key digest);
  _put_evidence key content size digest.
Definition put_evidence_stream (content : string) (size : Z) (ciphertext_sha256 : string) : program R2EvidenceReceipt :=
  throw_if (size <? 0)%Z (mismatch "evidence size is invalid") ;;
  throw_if (negb (fullmatch Replay._DIGEST ciphertext_sha256)) (mismatch "invalid evidence ciphertext digest") ;;
  '(total, observed) ← checked (read_all (r2_max_bytes self) (R2EvidenceReadbackMismatch false 0) 0 "" (chunks read_size content));
  throw_if (negb (total =? size)%Z || negb (bool_decide (sha256 observed = ciphertext_sha256))) (R2EvidenceReadbackMismatch false 0) ;;
  key ← pure (evidence_object_key ciphertext_sha256);
  _put_evidence key observed size ciphertext_sha256.
Definition put_evidence_index_file (path : string) : program R2EvidenceReceipt :=
  '(content, size, digest) ← _snapshot_evidence_file path;
  key ← pure (evidence_index_key digest);
  _put_evidence key content size digest.
Definition put_evidence_index_bytes (ciphertext : string) : program R2EvidenceReceipt :=
  key ← pure (evidence_index_key (sha256 ciphertext));
  _put_evidence key ciphertext (Z.of_nat (py_len ciphertext)) (sha256 ciphertext).
End backend.
