(* ===== verification/EvidencePublish.v ===== *)
(** * Evidence in the object store: discovery and the outbox ([src/josh_room/r2.py])

    Listing the index objects of a bucket, page by page within bounds, and driving one
    record of the outbox from its prepared ciphertext to the committed state: evidence is
    stored, then the record is marked uploaded; the index is stored, then the record is
    marked indexed; only then is it committed. *)

From stdpp Require Import pretty.
From S2P Require Import Prelude PyStr PyObj PyDatetime PyJson LogicalJat Catalog CatalogFile Keyset SessionEvidence Replay OutboxData Programs EvidenceState EvidenceStore.

Definition _MAX_EVIDENCE_INDEX_PAGE : Z := 1000.
Record R2EvidenceIndexRef := { ref_key : string; ref_digest : string; ref_bytes : Z; ref_error : option string }.
Record R2EvidencePublication := { evidence : R2EvidenceReceipt; index : option R2EvidenceReceipt; was_committed : bool }.
Inductive index_source := IndexBytes (ciphertext : string) | IndexPath (path : string).

(** [sorted(result.values(), key=lambda item: item.key)] *)
Definition ref_le (a b : R2EvidenceIndexRef) : Prop := String.le (ref_key a) (ref_key b).
#[export] Instance ref_le_dec : RelDecision ref_le.
Proof. intros a b. unfold ref_le. apply _. Defined.

Section publish.
Context `{PyRuntime, JsonRuntime}.
Variable self : R2Backend.

(** ** Discovery *)
Definition index_ref (key digest : string) (size : pyobj) : R2EvidenceIndexRef :=
  let ref n e := {| ref_key := key; ref_digest := digest; ref_bytes := n; ref_error := e |} in
  match size with
  | PInt n =>
      if (n <? 0)%Z then ref 0%Z (Some "ciphertext-size-invalid")
      else if (r2_max_bytes self <? n)%Z then ref 0%Z (Some "ciphertext-too-large") else ref n None
  | _ => ref 0%Z (Some "ciphertext-size-invalid")
  end.
(** [result.setdefault(key, ref)] *)
Definition add_ref (r : R2EvidenceIndexRef) (found : list R2EvidenceIndexRef) : list R2EvidenceIndexRef :=
  if bool_decide (ref_key r ∈ ref_key <$> found) then found else found ++ [r].
(** The entries of a page, until there are [max_events]. *)
Fixpoint collect (max_events : Z) (items : list listed) (found : list R2EvidenceIndexRef) : list R2EvidenceIndexRef :=
  match items with
  | [] => found
  | item :: items =>
      match listed_key item with
      | PStr key =>
          match validate_evidence_index_key key with
          | Ok digest =>
              let found := add_ref (index_ref key digest (listed_size item)) found in
              if (max_events <=? Z.of_nat (length found))%Z then found else collect max_events items found
          | Raise _ => collect max_events items found
          end
      | _ => collect max_events items found
      end
  end.
(** [pages] more pages may be asked for; [truncated] is what the last one said.  The result
    says whether discovery is incomplete. *)
Fixpoint discover_pages (pages : nat) (max_events page_size : Z) (token : option string) (seen : list string)
    (truncated : bool) (found : list R2EvidenceIndexRef) : program (list R2EvidenceIndexRef * bool) :=
  match pages with
  | O => mret (found, truncated && (Z.of_nat (length found) <? max_events)%Z)
  | S pages =>
      response ← try (do_call (ListObjects (Z.min page_size (max_events - Z.of_nat (length found))) token))
                   (fun e => throw (if is_provider e then _map_evidence_error e 0 false else e));
      let found := collect max_events (contents response) found in
      let truncated := py_bool (is_truncated response) in
      if (max_events <=? Z.of_nat (length found))%Z || negb truncated then mret (found, false)
      else
        match next_token response with
        | PStr t =>
            if bool_decide (t = "") || bool_decide (t ∈ seen) then mret (found, true)
            else discover_pages pages max_events page_size (Some t) (t :: seen) truncated found
        | _ => mret (found, true)
        end
  end.
Definition discover_evidence_indexes (max_events page_size max_pages : Z) : program (list R2EvidenceIndexRef) :=
  throw_if (negb ((0 <? max_events) && (max_events <=? 100001)))%Z (mismatch "evidence discovery bound is invalid") ;;
  throw_if (negb ((0 <? page_size) && (page_size <=? _MAX_EVIDENCE_INDEX_PAGE)))%Z (mismatch "evidence page size is invalid") ;;
  throw_if (negb ((0 <? max_pages) && (max_pages <=? 1000)))%Z (mismatch "evidence page bound is invalid") ;;
  '(found, incomplete) ← discover_pages (Z.to_nat max_pages) max_events page_size None [] false [];
  throw_if incomplete (R2EvidenceError "index-discovery-incomplete" false 0) ;;
  mret (merge_sort ref_le found).

(** ** The outbox *)
Definition refuse {A} : program A := throw R2EvidenceOutboxPrecondition.
(** [try: m except ValueError: raise R2EvidenceOutboxPrecondition()] *)
Definition or_refuse {A} (r : result A) : program A :=
  match r with Ok a => mret a | Raise e => if is_value_error e then refuse else throw (Python e) end.
Definition verified (key digest : string) (size parts : Z) : R2EvidenceReceipt := receipt key digest size parts 0 true "none".

(** The evidence of a record that is committed already, read back. *)
Definition publish_committed (evidence_key digest : string) (size : Z) (queued : QueueRecord) : program R2EvidencePublication :=
  match index_id queued with
  | None => refuse
  | Some id =>
      index_key ← or_refuse (evidence_index_key id);
      index_size ← try (_verify_evidence_remote self evidence_key digest (Some size) true ;; _verify_evidence_remote self index_key id None true)
        (fun e => throw (if is_value e then R2EvidenceReadbackMismatch false 0 else if is_provider e then _map_evidence_error e 0 true else e));
      mret {| evidence := verified evidence_key digest size 0; index := Some (verified index_key id index_size 1); was_committed := true |}
  end.
Definition put_index (source : index_source) : program R2EvidenceReceipt :=
  match source with IndexPath path => put_evidence_index_file self path | IndexBytes ciphertext => put_evidence_index_bytes self ciphertext end.
(** [_file_digest] of a path, the digest of bytes *)
Definition candidate_digest (source : index_source) : program string :=
  match source with
  | IndexPath path => content ← do_call (ReadSource path); mret (sha256 content)
  | IndexBytes ciphertext => mret (sha256 ciphertext)
  end.
(** The index of a record that was indexed before: found again, or stored again. *)
Definition publish_indexed (event_id owner : string) (queued : QueueRecord) (source : option index_source) : program R2EvidenceReceipt :=
  match index_id queued with
  | None => refuse
  | Some id =>
      index_key ← or_refuse (evidence_index_key id);
      try_else (_verify_evidence_remote self index_key id None true)
        (fun e =>
           if is_value e then
             match source with
             | None => throw (R2EvidenceReadbackMismatch false 0)
             | Some source =>
                 d ← candidate_digest source;
                 (if negb (bool_decide (d = id)) then refuse else mret tt) ;;
                 stored ← put_index source;
                 (if negb (bool_decide (receipt_digest stored = id)) then refuse else mret tt) ;;
                 do_call (PublishIndex event_id owner (receipt_digest stored)) ;;
                 mret stored
             end
           else throw (if is_provider e then _map_evidence_error e 0 true else e))
        (fun index_size => mret (verified index_key id index_size 1))
  end.
Definition put_prepared (p : prepared) : program R2EvidenceReceipt :=
  match p with
  | Beside r => put_evidence_file self (pf_ciphertext_file r)
  | Inline r => put_evidence_stream self (pr_ciphertext r) (pr_ciphertext_size r) (pr_ciphertext_sha256 r)
  end.
Definition unindexed (r : R2EvidenceReceipt) : R2EvidenceReceipt :=
  {| receipt_key := receipt_key r; receipt_digest := receipt_digest r; receipt_bytes := receipt_bytes r;
     metrics := {| sent_bytes := sent_bytes (metrics r); sent_parts := sent_parts (metrics r); metric_retries := metric_retries (metrics r);
                   duplicate := duplicate (metrics r); readback_verified := readback_verified (metrics r); orphaned := true |};
     recovery := "uploaded-unindexed" |}.

Definition publish_owned (event_id owner evidence_key : string) (queued : QueueRecord) (index_ciphertext : option index_source)
    : program R2EvidencePublication :=
  (if negb (bool_decide (OutboxData.owner queued = Some owner)) then refuse else mret tt) ;;
  p ← do_call (InspectPrepared event_id);
  match p with
  | None => refuse
  | Some p =>
      stored ← put_prepared p;
      (if negb (bool_decide (receipt_key stored = evidence_key)) then refuse else mret tt) ;;
      let stage := if state_in (OutboxData.state queued) [CLAIMED; RETRYABLE_FAILURE; CAPTURE_GAP] then resume_state queued
                   else OutboxData.state queued in
      (if state_in stage [OBJECT_UPLOADED; INDEX_PUBLISHED] then mret tt
       else do_call (MarkUploaded event_id owner (receipt_key stored) (receipt_bytes stored)) ;; mret tt) ;;
      if state_in stage [INDEX_PUBLISHED] then
        i ← publish_indexed event_id owner queued index_ciphertext;
        do_call (CommitRecord event_id owner) ;;
        mret {| evidence := stored; index := Some i; was_committed := true |}
      else
        match index_ciphertext with
        | None => mret {| evidence := unindexed stored; index := None; was_committed := false |}
        | Some source =>
            i ← put_index source;
            do_call (PublishIndex event_id owner (receipt_digest i)) ;;
            do_call (CommitRecord event_id owner) ;;
            mret {| evidence := stored; index := Some i; was_committed := true |}
        end
  end.
(** [validate_evidence_object_key(queued.object_key) != queued.ciphertext_sha256] *)
Definition object_identity (queued : QueueRecord) : program unit :=
  match object_key queued with
  | None => mret tt
  | Some k =>
      d ← or_refuse (validate_evidence_object_key k);
      if bool_decide (Some d = ciphertext_sha256 queued) then mret tt else refuse
  end.
Definition publish_outbox_evidence (event_id owner : string) (index_ciphertext : option index_source) : program R2EvidencePublication :=
  do_call RequirePrepareUpload ;;
  queued ← try (do_call (InspectRecord event_id)) (fun _ => refuse);
  match queued with
  | None => refuse
  | Some queued =>
      object_identity queued ;;
      match ciphertext_sha256 queued, ciphertext_size queued with
      | Some digest, Some size =>
          evidence_key ← pure (evidence_object_key digest);
          if state_in (OutboxData.state queued) [COMMITTED] then publish_committed evidence_key digest size queued
          else publish_owned event_id owner evidence_key queued index_ciphertext
      | _, _ => refuse
      end
  end.
End publish.
