(* ===== verification/EvidenceStateProps.v ===== *)
(** * Claims, upload states and pieces of a content: lemmas

    What is written of a claim or of an upload state is what is read of it, and the pieces a
    content is read in are that content. *)

From S2P Require Import Prelude PyStr PyObj PyDatetime PyJson LogicalJat LogicalJatProps LogicalJatTheorems JsonProps Catalog CatalogProps CatalogMade CatalogFile.
From S2P Require Import Keyset SessionEvidence Replay OutboxOps OutboxData Programs EvidenceState EvidenceStore.
From Stdlib Require Import Ascii.

(** ** Pieces *)
Lemma str_app_assoc (a b c : string) : a +:+ b +:+ c = (a +:+ b) +:+ c.
Proof. rewrite <- (of_chars_chars (a +:+ b +:+ c)), <- (of_chars_chars ((a +:+ b) +:+ c)), !chars_app. by rewrite app_assoc. Qed.
Lemma str_app_empty (a : string) : a +:+ "" = a.
Proof. rewrite <- (of_chars_chars (a +:+ "")), chars_app. simpl. by rewrite app_nil_r, of_chars_chars. Qed.
Lemma py_join_cons c l : py_join "" (c :: l) = c +:+ py_join "" l.
Proof. destruct l; simpl; [by rewrite str_app_empty | done]. Qed.
Lemma py_len_empty s : py_len s = 0 -> s = "".
Proof. by destruct s. Qed.
Lemma str_take_nonempty n s : 0 < n -> s ≠ "" -> str_take n s ≠ "".
Proof. destruct n, s; simpl; try lia; done. Qed.
Lemma str_take_all n s : py_len s <= n -> str_take n s = s.
Proof.
  revert n. induction s as [|c s IH]; intros [|n] Hn; simpl in *; try done; [unfold py_len in Hn; simpl in Hn; lia |].
  f_equal. apply IH. unfold py_len in *. simpl in Hn. lia.
Qed.
Lemma str_take_whole n s : py_len (str_take n s) = py_len s -> str_take n s = s.
Proof.
  pose proof (str_take_drop n s) as E. intros Hl. pose proof (f_equal py_len E) as Hd. rewrite py_len_app in Hd.
  rewrite (py_len_empty (str_drop n s)), str_app_empty in E by lia. done.
Qed.

Definition total_length (l : list string) : Z := Z.of_nat (py_len (py_join "" l)).

Lemma pieces_join fuel n s : 0 < n -> py_len s <= fuel -> py_join "" (pieces fuel n s) = s.
Proof.
  intros Hn. revert s. induction fuel as [|fuel IH]; intros s Hs; simpl.
  - symmetry. apply py_len_empty. lia.
  - case_bool_decide as E.
    + destruct (decide (s = "")) as [->|Hne]; [done |]. by destruct (str_take_nonempty n s).
    + rewrite py_join_cons, IH; [by rewrite <- str_take_drop |].
      pose proof (f_equal py_len (str_take_drop n s)) as Hl. rewrite py_len_app in Hl.
      assert (py_len (str_take n s) ≠ 0) by (intros ?%py_len_empty; done). lia.
Qed.
(** The pieces are the content when they are as long. *)
Lemma chunks_join n s : total_length (chunks n s) = Z.of_nat (py_len s) -> py_join "" (chunks n s) = s.
Proof.
  unfold chunks, total_length. set (k := if (n <? 0)%Z then _ else _). destruct k as [|k]; [|intros _; apply pieces_join; lia].
  destruct (py_len s) eqn:E; simpl; [by apply py_len_empty in E as -> |]. intros ?. lia.
Qed.
Lemma read_all_inv limit e total observed cs t o : read_all limit e total observed cs = inl (t, o) ->
  t = (total + total_length cs)%Z /\ o = observed +:+ py_join "" cs.
Proof.
  unfold total_length. revert total observed. induction cs as [|c cs IH]; intros total observed.
  - intros [= <- <-]. simpl. rewrite str_app_empty. split; [lia | done].
  - cbn [read_all]. case_match; [done |]. intros [-> ->]%IH. rewrite py_join_cons, py_len_app, <- str_app_assoc. split; [lia | done].
Qed.
Lemma chunks_whole n c : (0 < n)%Z -> py_join "" (chunks n c) = c.
Proof. intros Hn. unfold chunks. rewrite (proj2 (Z.ltb_ge _ _)) by lia. apply pieces_join; lia. Qed.
Lemma read_all_ok limit e total observed cs : (total + total_length cs <= limit)%Z ->
  read_all limit e total observed cs = inl (total + total_length cs, observed +:+ py_join "" cs)%Z.
Proof.
  unfold total_length. revert total observed. induction cs as [|c cs IH]; intros total observed.
  - intros _. simpl. by rewrite str_app_empty, Z.add_0_r.
  - rewrite py_join_cons, py_len_app. intros Hl. cbn [read_all]. rewrite (proj2 (Z.ltb_ge _ _)), IH by lia.
    rewrite <- str_app_assoc. do 2 f_equal. lia.
Qed.
Lemma read_whole limit e n body t o : read_all limit e 0 "" (chunks n body) = inl (t, o) -> t = Z.of_nat (py_len body) -> o = body.
Proof. intros [-> ->]%read_all_inv. simpl. intros Ht. apply chunks_join. lia. Qed.

(** ** Documents *)
Section documents.
Context `{PyRuntime, JsonRuntime}.

Lemma loads_written d : plain json_depth (PDict d) -> loads_bytes (compact d) = Ok (PDict (canon_dict d)).
Proof.
  intros Hp. unfold loads_bytes, compact. rewrite chars_of_chars, utf8_roundtrip, of_chars_chars.
  apply (loads_dumps dict_hook float_constant dict_hook_distinct "" true); [| done]. by intros c ?%not_elem_of_nil.
Qed.

(** *** Claims *)
Lemma claim_plain digest size f : 1 <= json_depth -> (0 <= size < 2 ^ 63)%Z -> plain json_depth (PDict (claim_dict digest size f)).
Proof.
  intros Hd Hs. destruct json_depth as [|n]; [lia |]. cbn [plain]. split; [apply (bool_decide_unpack _); by vm_compute |].
  unfold claim_dict. rewrite !Forall_cons. cbn [snd]. destruct n; cbn; (split; [lia | split; [done | split; [lia | done]]]).
Qed.
(** A claim that is read is the claim that was written. *)
Lemma read_claim_written digest size f digest' size' f' : 1 <= json_depth -> (0 <= size < 2 ^ 63)%Z ->
  read_claim (claim_text digest size f) digest' size' = inl f' -> digest = digest' /\ size = size' /\ f = f'.
Proof.
  intros Hd Hs. unfold read_claim, claim_text, decoding. rewrite loads_written by by apply claim_plain. case_match; [done |].
  assert (NoDup (claim_dict digest size f).*1) as Hnd by (apply (bool_decide_unpack _); by vm_compute).
  rewrite !get_or_none_canon by done.
  change (get_or_none "size" (claim_dict digest size f)) with (PInt size). change (get_or_none "fence" (claim_dict digest size f)) with (PStr f).
  change (get_or_none "sha256" (claim_dict digest size f)) with (PStr digest). cbn [canon].
  case_match; [|done]. bools. intros [= <-]. repeat split; [| by apply Z.eqb_eq].
  match goal with H : py_eq (PStr _) _ = true |- _ => simpl in H; by apply bool_decide_eq_true_1 in H end.
Qed.
Lemma claim_text_fence digest size f digest' size' f' : 1 <= json_depth -> (0 <= size < 2 ^ 63)%Z -> (0 <= size' < 2 ^ 63)%Z ->
  claim_text digest size f = claim_text digest' size' f' -> f = f'.
Proof.
  intros Hd Hs Hs' E. apply (f_equal loads_bytes) in E. unfold claim_text in E.
  rewrite !loads_written in E by by apply claim_plain. by injection E.
Qed.

(** *** Upload states *)
Definition numbers_fit (ps : list part) : Prop := Forall (fun p : part => 1 <= p.1 <= _MAX_EVIDENCE_PARTS)%Z ps.
Definition plain_state (s : EvidenceState) : Prop := (0 <= state_size s < 2 ^ 63)%Z /\ numbers_fit (parts s).
(** What a reader asks of a state. *)
Record valid_state (s : EvidenceState) : Prop := {
  vs_fence : fullmatch FENCE (fence s) = true;
  vs_upload : forall u, upload_id s = Some u -> py_len u <= 2048;
  vs_count : (Z.of_nat (length (parts s)) <= _MAX_EVIDENCE_PARTS)%Z;
  vs_numbers : numbers_fit (parts s);
  vs_distinct : NoDup (parts s).*1;
  vs_tags : Forall (fun p : part => p.2 ≠ "" /\ py_len p.2 <= 4096) (parts s);
}.

Lemma part_plain n p : (1 <= p.1 <= _MAX_EVIDENCE_PARTS)%Z -> plain (S n) (PDict (part_dict p)).
Proof.
  unfold _MAX_EVIDENCE_PARTS. intros Hp. cbn [plain]. split; [apply (bool_decide_unpack _); by vm_compute |].
  unfold part_dict. repeat apply Forall_cons_2; [by destruct n | destruct n; cbn; lia | by apply Forall_nil_2].
Qed.
Lemma state_plain s : 3 <= json_depth -> plain_state s -> plain json_depth (PDict (state_dict s)).
Proof.
  intros Hd [Hs Hp]. destruct json_depth as [|[|[|n]]]; try lia. remember (S (S n)) as m eqn:Em. cbn [plain].
  split; [apply (bool_decide_unpack _); by vm_compute |].
  unfold state_dict. repeat apply Forall_cons_2; cbn [snd]; try (subst m; cbn; done || lia); [by destruct (upload_id s); subst m |].
  subst m. cbn [plain]. apply Forall_fmap. eapply Forall_impl; [exact Hp |]. intros p. unfold compose. apply part_plain.
Qed.

Lemma part_canon p : canon (PDict (part_dict p)) = PDict (part_dict p).
Proof. reflexivity. Qed.
Lemma read_part_written p : read_part (PDict (part_dict p)) =
  if ((1 <=? p.1) && (p.1 <=? _MAX_EVIDENCE_PARTS))%Z && (negb (bool_decide (p.2 = "")) && (py_len p.2 <=? 4096)%nat) then Some p else None.
Proof. destruct p as [n e]. reflexivity. Qed.
Lemma read_parts_inv seen ps ps' : read_parts seen ((fun p => PDict (part_dict p)) <$> ps) = Some ps' -> ps' = ps.
Proof.
  revert seen ps'. induction ps as [|p ps IH]; intros seen ps'; [by intros [= <-] |]. cbn [fmap list_fmap read_parts]. rewrite read_part_written.
  destruct (_ && _); cbn [mbind option_bind]; [|done]. case_bool_decide; [done |].
  intros (l & Hl & [= <-])%bind_Some. by apply IH in Hl as ->.
Qed.
Lemma read_parts_valid seen ps : numbers_fit ps -> NoDup (seen ++ ps.*1) ->
  Forall (fun p : part => p.2 ≠ "" /\ py_len p.2 <= 4096) ps -> read_parts seen ((fun p => PDict (part_dict p)) <$> ps) = Some ps.
Proof.
  revert seen. induction ps as [|p ps IH]; intros seen Hn Hd Ht; [done |]. cbn [fmap list_fmap read_parts]. rewrite read_part_written.
  apply Forall_cons in Hn as [Hn Hns]. apply Forall_cons in Ht as [[Hne Hl] Ht]. csimpl in Hd.
  rewrite (proj2 (Z.leb_le _ _)), (proj2 (Z.leb_le _ _)), bool_decide_false, (proj2 (Nat.leb_le _ _)) by (done || lia). cbn [andb negb mbind option_bind].
  rewrite bool_decide_false.
  - rewrite IH; [done | done | | done]. cbn [app]. by rewrite Permutation_middle.
  - intros Hin. apply NoDup_app in Hd as (_ & Hd & _). apply (Hd _ Hin). left.
Qed.

Definition state_for (key digest : string) (size : Z) (claim_key : string) (s : EvidenceState) : Prop :=
  state_key s = key /\ state_sha256 s = digest /\ state_size s = size /\ state_claim_key s = claim_key.

Lemma check_written key digest size claim_key s : check_state key digest size claim_key (PDict (canon_dict (state_dict s))) =
  if bool_decide (state_key s = key) && bool_decide (state_sha256 s = digest) && (state_size s =? size)%Z
     && bool_decide (state_claim_key s = claim_key) && fullmatch FENCE (fence s) && (Z.of_nat (length (parts s)) <=? _MAX_EVIDENCE_PARTS)%Z
  then
    u ← read_upload_id (opt_str (upload_id s));
    ps ← read_parts [] ((fun p => PDict (part_dict p)) <$> parts s);
    Some {| state_key := state_key s; state_sha256 := state_sha256 s; state_size := state_size s; state_claim_key := state_claim_key s;
            fence := fence s; stage := stage s; upload_id := u; parts := ps |}
  else None.
Proof.
  unfold check_state. rewrite !get_or_none_canon by (apply (bool_decide_unpack _); by vm_compute).
  change (get_or_none "version" (state_dict s)) with (PInt 1). change (get_or_none "key" (state_dict s)) with (PStr (state_key s)).
  change (get_or_none "sha256" (state_dict s)) with (PStr (state_sha256 s)). change (get_or_none "size" (state_dict s)) with (PInt (state_size s)).
  change (get_or_none "claim_key" (state_dict s)) with (PStr (state_claim_key s)). change (get_or_none "fence" (state_dict s)) with (PStr (fence s)).
  change (get_or_none "stage" (state_dict s)) with (PStr (stage_value (stage s))).
  change (get_or_none "upload_id" (state_dict s)) with (opt_str (upload_id s)).
  change (get_or_none "parts" (state_dict s)) with (PList ((fun p => PDict (part_dict p)) <$> parts s)). cbn [canon].
  rewrite keys_are_canon. assert (keys_are STATE_KEYS (state_dict s) = true) as -> by (by destruct (upload_id s)).
  rewrite <- list_fmap_compose, (list_fmap_ext (canon ∘ _) (fun p => PDict (part_dict p)) (parts s)) by (intros; apply part_canon).
  rewrite length_fmap. cbn [andb Z.eqb Pos.eqb]. assert (stage_of (stage_value (stage s)) = Some (stage s)) as -> by (by destruct (stage s)).
  by destruct (upload_id s).
Qed.
(** What is read of a written state is that state. *)
Lemma check_state_inv key digest size claim_key s s' : check_state key digest size claim_key (PDict (canon_dict (state_dict s))) = Some s' ->
  s' = s /\ state_for key digest size claim_key s /\ fullmatch FENCE (fence s) = true.
Proof.
  rewrite check_written. destruct (_ && _) eqn:E; [|done]. bools. intros (u & Hu & (ps & Hps%read_parts_inv & [= <-])%bind_Some)%bind_Some.
  assert (u = upload_id s) as ->.
  { destruct (upload_id s); simpl in Hu; [by case_match; simplify_eq | congruence]. }
  subst ps. split; [by destruct s |]. split; [|done]. unfold state_for. split; [done |]. split; [done |]. split; [by apply Z.eqb_eq | done].
Qed.
Lemma check_state_valid key digest size claim_key s : state_for key digest size claim_key s -> valid_state s ->
  check_state key digest size claim_key (PDict (canon_dict (state_dict s))) = Some s.
Proof.
  intros (Hk & Hd & Hs & Hc) [Hf Hu Hn Hp Hnd Ht]. rewrite check_written, !bool_decide_true, Hf, (proj2 (Z.eqb_eq _ _)), (proj2 (Z.leb_le _ _)) by done.
  cbn [andb]. rewrite read_parts_valid by done.
  assert (read_upload_id (opt_str (upload_id s)) = Some (upload_id s)) as ->.
  { destruct (upload_id s) as [u|]; [|done]. simpl. by rewrite (proj2 (Nat.leb_le _ _)) by (by apply Hu). }
  by destruct s.
Qed.

Lemma read_state_written s key digest size s' : 3 <= json_depth -> plain_state s -> read_state (state_text s) key digest size = inl s' ->
  s' = s /\ state_key s = key /\ state_sha256 s = digest /\ state_size s = size
  /\ evidence_claim_key digest key = Ok (state_claim_key s) /\ fullmatch FENCE (fence s) = true.
Proof.
  intros Hd Hp. unfold read_state, state_text, decoding. rewrite loads_written by by apply state_plain. case_match; [done |].
  destruct (evidence_claim_key digest key) as [ck|] eqn:Eck; [|done].
  destruct (check_state _ _ _ _ _) as [s1|] eqn:E; [|done]. intros [= <-].
  apply check_state_inv in E as (-> & (-> & -> & -> & ->) & Hf). done.
Qed.
End documents.
