(* ===== verification/EvidenceRuns.v ===== *)
(** * Runs of the publishers of evidence

    Several hosts share one bucket; each has a directory of upload states and an outbox.
    Reads return what is stored, a conditional request stores an object where there is none,
    a completed upload replaces whatever is there, and any call may fail: a request that
    failed at the client may have been carried out all the same, or may be later.  Clients
    take turns call by call, stop anywhere, and new ones start at any time; the locks of a
    host are not relied on. *)

From S2P Require Import Prelude PyStr PyObj PyDatetime PyJson LogicalJat Catalog CatalogFile Keyset SessionEvidence Replay OutboxData.
From S2P Require Import OutboxStore PreparedOutbox PccOutbox OutboxLogic QueueRecords QueueModel QueueSpec QueueRefine OutboxOps.
From S2P Require Import Programs EvidenceState EvidenceStore EvidencePublish.

(** ** The state the clients share *)
(** An upload: its key, the host that opened it, which the store does not know, whether it
    is open, and the tag and the body of each part. *)
Record upload := { upload_key : string; upload_host : nat; upload_open : bool; upload_parts : gmap Z (string * string) }.
(** A request that changes the bucket. *)
Inductive request :=
| PutIfAbsent (key body : string)
| OpenUpload (key : string)
| SendPart (key upload_id : string) (number : Z) (body : string)
| Complete (key upload_id : string) (parts : list part)
| GiveUp (key upload_id : string).
Record shared := {
  objects : gmap string string;
  uploads : gmap string upload;
  late : list (nat * request);          (** by host; failed at the client, may still happen *)
  tokens : gmap string nat;             (** the fences drawn, by the host that drew them *)
  states : gmap (nat * string) string;  (** the texts of upload states, by host and name *)
  outboxes : nat -> world;
}.
Definition set_objects (f : gmap string string -> gmap string string) (s : shared) : shared :=
  {| objects := f (objects s); uploads := uploads s; late := late s; tokens := tokens s; states := states s; outboxes := outboxes s |}.
Definition set_uploads (f : gmap string upload -> gmap string upload) (s : shared) : shared :=
  {| objects := objects s; uploads := f (uploads s); late := late s; tokens := tokens s; states := states s; outboxes := outboxes s |}.
Definition set_late (l : list (nat * request)) (s : shared) : shared :=
  {| objects := objects s; uploads := uploads s; late := l; tokens := tokens s; states := states s; outboxes := outboxes s |}.
Definition set_tokens (f : gmap string nat -> gmap string nat) (s : shared) : shared :=
  {| objects := objects s; uploads := uploads s; late := late s; tokens := f (tokens s); states := states s; outboxes := outboxes s |}.
Definition set_states (f : gmap (nat * string) string -> gmap (nat * string) string) (s : shared) : shared :=
  {| objects := objects s; uploads := uploads s; late := late s; tokens := tokens s; states := f (states s); outboxes := outboxes s |}.
Definition set_outbox (h : nat) (w : world) (s : shared) : shared :=
  {| objects := objects s; uploads := uploads s; late := late s; tokens := tokens s; states := states s;
     outboxes := fun h' => if bool_decide (h' = h) then w else outboxes s h' |}.

(** ** Requests *)
Definition closed (u : upload) : upload :=
  {| upload_key := upload_key u; upload_host := upload_host u; upload_open := false; upload_parts := upload_parts u |}.
Definition with_part (n : Z) (tag body : string) (u : upload) : upload :=
  {| upload_key := upload_key u; upload_host := upload_host u; upload_open := upload_open u;
     upload_parts := <[n := (tag, body)]> (upload_parts u) |}.
Definition fresh_upload (h : nat) (key : string) : upload :=
  {| upload_key := key; upload_host := h; upload_open := true; upload_parts := ∅ |}.
Definition is_open (s : shared) (key id : string) (u : upload) : Prop :=
  uploads s !! id = Some u /\ upload_key u = key /\ upload_open u = true.
(** The parts named, in ascending order and with their tags, one after the other. *)
Definition assembled (u : upload) (ps : list part) (body : string) : Prop :=
  exists bodies, Forall2 (fun (p : part) b => upload_parts u !! p.1 = Some (p.2, b)) ps bodies
    /\ StronglySorted (fun p q : part => p.1 < q.1)%Z ps /\ body = py_join "" bodies.

Definition opened (h : nat) (key id : string) (s s' : shared) : Prop :=
  uploads s !! id = None /\ s' = set_uploads <[id := fresh_upload h key]> s.
Definition part_sent (key id : string) (n : Z) (body tag : string) (s s' : shared) : Prop :=
  exists u, is_open s key id u /\ s' = set_uploads <[id := with_part n tag body u]> s.
(** What carrying out a request does. *)
Definition carried_out (h : nat) (r : request) (s s' : shared) : Prop :=
  match r with
  | PutIfAbsent key body => objects s !! key = None /\ s' = set_objects <[key := body]> s
  | OpenUpload key => exists id, opened h key id s s'
  | SendPart key id n body => exists tag, part_sent key id n body tag s s'
  | Complete key id ps => exists u body, is_open s key id u /\ assembled u ps body
      /\ s' = set_objects <[key := body]> (set_uploads <[id := closed u]> s)
  | GiveUp key id => exists u, is_open s key id u /\ s' = set_uploads <[id := closed u]> s
  end.
(** A request that failed at the client. *)
Definition failed (h : nat) (r : request) (s s' : shared) : Prop :=
  s' = s \/ carried_out h r s s' \/ s' = set_late ((h, r) :: late s) s.

Section runs.
Context `{PyRuntime, JsonRuntime}.
(** The clock and the file system of each host, and the quotas of the outboxes. *)
Variable envs : nat -> Env.
Variable cfg : config.
(** The ciphertexts there are. *)
Variable published : string -> Prop.

(** ** Calls *)
Definition outbox_call {A} (m : M A) (h : nat) (s : shared) (o : A + raised) (s' : shared) : Prop :=
  s' = set_outbox h (m (outboxes s h)).2 s
  /\ o = match (m (outboxes s h)).1 with Ok a => inl a | Raise e => inr (Python e) end.
Definition same {A} (s : shared) (o : A) (s' : shared) : Prop := s' = s.

Definition serve (h : nat) (s : shared) (R : Type) (c : call R) : R + raised -> shared -> Prop :=
  match c in call R return R + raised -> shared -> Prop with
  | PutObject key body => fun o s' =>
      match o with inl _ => carried_out h (PutIfAbsent key body) s s' | inr _ => failed h (PutIfAbsent key body) s s' end
  | HeadObject key => fun o s' => s' = s /\
      match o with inl n => exists body, objects s !! key = Some body /\ n = Some (Z.of_nat (py_len body)) | inr _ => True end
  | GetObject key => fun o s' => s' = s /\ match o with inl body => objects s !! key = Some body | inr _ => True end
  | CreateMultipartUpload key => fun o s' =>
      match o with inl id => opened h key id s s' | inr _ => failed h (OpenUpload key) s s' end
  | UploadPart key id n body => fun o s' =>
      match o with inl tag => part_sent key id n body tag s s' | inr _ => failed h (SendPart key id n body) s s' end
  | CompleteMultipartUpload key id ps => fun o s' =>
      match o with inl _ => carried_out h (Complete key id ps) s s' | inr _ => failed h (Complete key id ps) s s' end
  | AbortMultipartUpload key id => fun o s' =>
      match o with inl _ => carried_out h (GiveUp key id) s s' | inr _ => failed h (GiveUp key id) s s' end
  | ListObjects _ _ => same s
  | ReadSource _ => fun o s' => s' = s /\ match o with inl content => published content | inr _ => True end
  | CheckReceiptRoot => same s
  | CheckState _ => same s
  | Lock _ => same s
  | Unlock _ => same s
  | ReadState name => fun o s' => s' = s /\ match o with inl t => t = states s !! (h, name) | inr _ => True end
  | WriteState name text => fun o s' =>
      match o with inl _ => s' = set_states <[(h, name) := text]> s
                 | inr _ => s' = s \/ s' = set_states <[(h, name) := text]> s end
  | RemoveState name => fun _ s' => s' = s \/ s' = set_states (delete (h, name)) s
  | TokenHex => fun o s' =>
      match o with inl t => tokens s !! t = None /\ fullmatch FENCE t = true /\ s' = set_tokens <[t := h]> s | inr _ => s' = s end
  | RequirePrepareUpload => same s
  | InspectRecord id => outbox_call (@PccOutbox.inspect_record (envs h) _ (PStr id)) h s
  | InspectPrepared id => fun o s' => outbox_call (@PreparedOutbox.inspect_record (envs h) _ (PStr id)) h s o s' /\
      match o with inl (Some (Inline r)) => published (pr_ciphertext r) | _ => True end
  | MarkUploaded id own key n => outbox_call (@mark_uploaded (envs h) _ (PStr id) (PStr own) (PStr key) (PInt n)) h s
  | PublishIndex id own i => outbox_call (@publish_index (envs h) _ (PStr id) (PStr own) (PStr i)) h s
  | CommitRecord id own => outbox_call (@commit (envs h) _ (PStr id) (PStr own)) h s
  end.

(** A call that nothing disturbs: a request is refused only where an object is, and only what
    is not there is not found. *)
Definition undisturbed (h : nat) (s : shared) (R : Type) (c : call R) (o : R + raised) (s' : shared) : Prop :=
  serve h s R c o s' /\
  match c in call R return R + raised -> Prop with
  | PutObject key _ => fun o => match o with inl _ => True | inr e => s' = s /\ objects s !! key ≠ None /\ is_client e = true /\ _is_precondition e = true end
  | HeadObject key | GetObject key => fun o => match o with inl _ => True | inr e => objects s !! key = None /\ is_client e = true /\ _not_found e = true end
  | _ => fun o => match o with inl _ => True | inr _ => False end
  end o.

(** ** Clients *)
Inductive task :=
| PutFile (path : string)
| PutStream (content : string) (size : Z) (digest : string)
| PutIndexFile (path : string)
| PutIndexBytes (ciphertext : string)
| Publish (event_id owner : string) (index_ciphertext : option index_source)
| Fetch (key : string) (expected_size : option Z)
| FetchIndex (key : string) (expected_size : option Z)
| Discover (max_events page_size max_pages : Z).
Inductive outcome :=
| Stored (r : R2EvidenceReceipt)
| Publication (p : R2EvidencePublication)
| Fetched (key body : string)
| Found (refs : list R2EvidenceIndexRef).
Definition task_program (self : R2Backend) (t : task) : program outcome :=
  match t with
  | PutFile path => r ← put_evidence_file self path; mret (Stored r)
  | PutStream content size digest => r ← put_evidence_stream self content size digest; mret (Stored r)
  | PutIndexFile path => r ← put_evidence_index_file self path; mret (Stored r)
  | PutIndexBytes ciphertext => r ← put_evidence_index_bytes self ciphertext; mret (Stored r)
  | Publish id own source => p ← publish_outbox_evidence self id own source; mret (Publication p)
  | Fetch key n => body ← get_evidence_bytes self key n; mret (Fetched key body)
  | FetchIndex key n => body ← get_evidence_index_bytes self key n; mret (Fetched key body)
  | Discover events size pages => refs ← discover_evidence_indexes self events size pages; mret (Found refs)
  end.
Definition task_ok (t : task) : Prop :=
  match t with
  | PutStream content _ _ | PutIndexBytes content | Publish _ _ (Some (IndexBytes content)) => published content
  | _ => True
  end.

(** The part size each host is configured with.  The code takes it from its configuration at every
    call and resumes an upload with whatever it is then; the runs considered here leave it as it is. *)
Variable chunk_size : nat -> Z.
Record client := { host : nat; running : program outcome }.
Record system := { installation : shared; clients : list client }.

(** Names the evidence of a bucket uses; everything else may change at will. *)
Definition names (key digest : string) : Prop := evidence_object_key digest = Ok key \/ evidence_index_key digest = Ok key.
Definition reserved (key : string) : Prop := startswith EVIDENCE_CLAIM_PREFIX key = true \/ exists digest, names key digest.
(** An operation of an outbox outside publication that does not say where evidence is.  The code
    takes an object key or an index id from anyone who has the claim. *)
Definition without_evidence (o : op) : Prop :=
  match o with OpTransition _ _ _ d => has_key "object_key" d = false /\ has_key "index_id" d = false | _ => True end.

Inductive system_step : system -> system -> Prop :=
| step_start s cs h self t : task_ok t -> multipart_chunk_size self = chunk_size h -> (0 < chunk_size h)%Z -> (r2_max_bytes self < 2 ^ 63)%Z ->
    system_step {| installation := s; clients := cs |}
      {| installation := s; clients := cs ++ [{| host := h; running := task_program self t |}] |}
| step_call s cs i h R (c : call R) next o s' :
    cs !! i = Some {| host := h; running := Call c next |} -> serve h s R c o s' ->
    system_step {| installation := s; clients := cs |} {| installation := s'; clients := <[i := {| host := h; running := next o |}]> cs |}
| step_late s cs h r l1 l2 s' : late s = l1 ++ (h, r) :: l2 ->
    s' = set_late (l1 ++ l2) s \/ carried_out h r (set_late (l1 ++ l2) s) s' ->
    system_step {| installation := s; clients := cs |} {| installation := s'; clients := cs |}
| step_expire s cs id u : uploads s !! id = Some u ->
    system_step {| installation := s; clients := cs |} {| installation := set_uploads <[id := closed u]> s; clients := cs |}
| step_object s cs key change : ~ reserved key ->
    system_step {| installation := s; clients := cs |} {| installation := set_objects (partial_alter change key) s; clients := cs |}
| step_outbox s cs h o : without_evidence o -> (forall q, represents q (outboxes s h) -> orderly q (outboxes s h) o) ->
    system_step {| installation := s; clients := cs |}
      {| installation := set_outbox h (@run_op (envs h) _ cfg o (outboxes s h)).2 s; clients := cs |}.

(** A bucket without evidence, hosts without upload states and queued records. *)
Definition pristine (y : system) : Prop :=
  let s := installation y in
  (forall key, reserved key -> objects s !! key = None) /\ uploads s = ∅ /\ late s = [] /\ states s = ∅ /\ clients y = []
  /\ forall h name, is_json_name name = true -> files (outboxes s h) !! (QUEUE, name) = None.
End runs.
