(* ===== verification/EvidenceInvariant.v ===== *)
(** * What always holds of a bucket of evidence

    The invariant of the state publishers share ([good]), the ways it may change
    ([evolves]) and the requests and calls that keep it ([proper]).  What an operation of the
    outbox says of a record's evidence comes from the record or from its own arguments;
    with that, every answer to a proper call and every step of others keeps the invariant. *)

From S2P Require Import Prelude PyStr PyObj PyDatetime PyJson LogicalJat Catalog CatalogFile Keyset SessionEvidence Replay OutboxData RecordProps.
From S2P Require Import OutboxStore PreparedOutbox PccOutbox OutboxLogic QueueRecords QueueModel QueueSpec QueueRefine OutboxOps Programs EvidenceState.
From S2P Require Import EvidenceStore EvidencePublish EvidenceStateProps EvidenceRuns.

(** ** Keys *)
Lemma object_key_inv d k : evidence_object_key d = Ok k -> k = EVIDENCE_OBJECT_PREFIX +:+ d /\ fullmatch Replay._DIGEST d = true.
Proof. unfold evidence_object_key. intros H. inv_result. bools. by split. Qed.
Lemma index_key_inv d k : evidence_index_key d = Ok k ->
  k = EVIDENCE_INDEX_PREFIX +:+ (str_take 2 d +:+ "/" +:+ d +:+ ".age") /\ fullmatch Replay._DIGEST d = true.
Proof. unfold evidence_index_key. intros H. inv_result. bools. by split. Qed.

Lemma digest_chars d : fullmatch Replay._DIGEST d = true -> exists a b l, chars d = a :: b :: l.
Proof. intros [Hl _]%fullmatch_lang%lang_exactly_cls. destruct (chars d) as [|a [|b l]]; [done | done |]. eauto. Qed.
Lemma index_key_chars d : fullmatch Replay._DIGEST d = true -> drop 3 (chars (str_take 2 d +:+ "/" +:+ d +:+ ".age")) = chars d ++ chars ".age".
Proof.
  intros (a & b & l & E)%digest_chars. rewrite <- (of_chars_chars d), E. rewrite !chars_app, chars_of_chars. done.
Qed.
Lemma names_inj k d d' : names k d -> names k d' -> d = d'.
Proof.
  intros [[Hk Hd]%object_key_inv|[Hk Hd]%index_key_inv] [[Hk' Hd']%object_key_inv|[Hk' Hd']%index_key_inv]; rewrite Hk in Hk'.
  - by apply (inj _) in Hk'.
  - discriminate Hk'.
  - discriminate Hk'.
  - apply (inj _) in Hk'. apply (f_equal (fun s => drop 3 (chars s))) in Hk'. rewrite !index_key_chars in Hk' by done.
    apply (inj (.++ _)) in Hk'. by rewrite <- (of_chars_chars d), Hk', of_chars_chars.
Qed.
Lemma validated_object_key k d : validate_evidence_object_key k = Ok d -> evidence_object_key d = Ok k.
Proof.
  unfold validate_evidence_object_key. intros Hv. inv_result. bools.
  match goal with Hm : fullmatch _ _ = true |- _ => apply fullmatch_lit_cat in Hm as (t & -> & Ht) end.
  rewrite removeprefix_app. unfold evidence_object_key, Replay._DIGEST. by rewrite Ht.
Qed.
Lemma validated_index_key k d : validate_evidence_index_key k = Ok d -> evidence_index_key d = Ok k.
Proof.
  unfold validate_evidence_index_key. intros Hc. apply bind_Ok_inv in Hc as (? & Hb%raise_if_Ok_inv & Hd).
  apply orb_false_iff in Hb as [Hb Hshard%bool_decide_eq_false_1%dec_stable].
  assert (d = str_take 64 (str_drop 3 (removeprefix EVIDENCE_INDEX_PREFIX k))) as Ed by congruence. clear Hd. rewrite <- Ed in Hshard.
  apply negb_false_iff, fullmatch_lit_cat in Hb as (t & -> & Ht). rewrite removeprefix_app in Ed, Hshard.
  apply fullmatch_lang, lang_cat_inv in Ht as (h & t1 & Ht & [Hh _]%lang_exactly_cls & (sl & t2 & -> & ->%lang_lit & (dg & ext & -> & [Hl Hf]%lang_exactly_cls & ->%lang_lit)%lang_cat_inv)%lang_cat_inv).
  destruct h as [|h1 [|h2 [|]]]; try done. assert (t = of_chars [h1; h2] +:+ "/" +:+ of_chars dg +:+ ".age") as ->.
  { rewrite <- (of_chars_chars t), Ht, <- (of_chars_chars (_ +:+ _)), !chars_app, !chars_of_chars. done. }
  change (str_drop 3 (of_chars [h1; h2] +:+ "/" +:+ of_chars dg +:+ ".age")) with (of_chars dg +:+ ".age") in Ed.
  assert (str_take 64 (of_chars dg +:+ ".age") = of_chars dg) as Et.
  { rewrite <- Hl. clear. induction dg as [|c dg IH]; [done |]. cbn [of_chars length str_take]. change (String.String c ?a +:+ ?b) with (String.String c (a +:+ b)). cbn. by rewrite IH. }
  rewrite Et in Ed. subst d. change (str_take 2 (of_chars [h1; h2] +:+ "/" +:+ of_chars dg +:+ ".age")) with (of_chars [h1; h2]) in Hshard.
  unfold evidence_index_key. rewrite <- Hshard.
  assert (fullmatch Replay._DIGEST (of_chars dg) = true) as -> by (apply fullmatch_lang, lang_exactly_cls; by rewrite chars_of_chars). done.
Qed.
Lemma names_not_claim k d : names k d -> startswith EVIDENCE_CLAIM_PREFIX k = false.
Proof. by intros [[-> _]%object_key_inv|[-> _]%index_key_inv]. Qed.
(** The outbox and the store agree on the digest of an evidence key. *)
Lemma object_key_of_digest k d digest : names k d -> object_digest k = Some digest -> d = digest /\ evidence_object_key digest = Ok k.
Proof.
  intros Hn. unfold object_digest. destruct (fullmatch _OBJECT_KEY k) eqn:E1.
  { apply fullmatch_lit_cat in E1 as (t & Ht & _). destruct Hn as [[-> _]%object_key_inv|[-> _]%index_key_inv]; discriminate Ht. }
  destruct (fullmatch OutboxData._EVIDENCE_OBJECT_KEY k) eqn:E2; [|done]. intros [= <-].
  apply fullmatch_lit_cat in E2 as (t & -> & Ht). destruct Hn as [Hn|[Hk _]%index_key_inv]; [|discriminate Hk].
  pose proof (object_key_inv _ _ Hn) as [E _]. change EVIDENCE_PREFIX with EVIDENCE_OBJECT_PREFIX in *. apply (inj _) in E as ->.
  by rewrite removeprefix_app.
Qed.
Lemma claim_key_reserved `{PyRuntime} d k ck : evidence_claim_key d k = Ok ck -> startswith EVIDENCE_CLAIM_PREFIX ck = true.
Proof. unfold evidence_claim_key. intros Hc. inv_result. apply startswith_app. Qed.

(** ** The invariant *)
Section invariant.
Context `{PyRuntime, JsonRuntime}.
Variable envs : nat -> Env.
Variable cfg : config.
Variable published : string -> Prop.
Variable chunk_size : nat -> Z.

(** How the state may change: evidence, claims, uploads and fences stay. *)
Record evolves (s s' : shared) : Prop := {
  ev_objects : forall key body, reserved key -> objects s !! key = Some body -> objects s' !! key = Some body;
  ev_uploads : forall id u, uploads s !! id = Some u -> exists u', uploads s' !! id = Some u' /\ upload_key u' = upload_key u /\ upload_host u' = upload_host u;
  ev_tokens : tokens s ⊆ tokens s';
}.
#[export] Instance evolves_preorder : PreOrder evolves.
Proof.
  split.
  - intros s. split; eauto.
  - intros s s1 s2 [O1 U1 T1] [O2 U2 T2]. split; [eauto | | by etrans].
    intros id u (u1 & Hu1 & <- & <-)%U1. apply U2 in Hu1 as (u2 & Hu2 & <- & <-). eauto.
Qed.

(** The evidence with this digest, under its object or its index key, is stored. *)
Definition held (s : shared) (key : string) : Prop := (exists digest, names key digest) /\ is_Some (objects s !! key).
Definition index_held (s : shared) (id : string) : Prop := exists key, evidence_index_key id = Ok key /\ is_Some (objects s !! key).
(** The claim on this object has a fence that this host drew. *)
Definition claimed (s : shared) (h : nat) (key : string) : Prop := exists d ck n f,
  names key d /\ evidence_claim_key d key = Ok ck /\ objects s !! ck = Some (claim_text d n f) /\ (0 <= n < 2 ^ 63)%Z /\ tokens s !! f = Some h.
(** The content that belongs under a key. *)
Definition belongs (key c : string) : Prop := published c /\ names key (sha256 c).
Definition own_upload (s : shared) (h : nat) (key id : string) : Prop :=
  exists u, uploads s !! id = Some u /\ upload_key u = key /\ upload_host u = h.

Definition object_ok (s : shared) (key body : string) : Prop :=
  (forall d, names key d -> published body /\ sha256 body = d)
  /\ (startswith EVIDENCE_CLAIM_PREFIX key = true ->
        exists d n f h, body = claim_text d n f /\ (0 <= n < 2 ^ 63)%Z /\ tokens s !! f = Some h).
Definition part_ok (h : nat) (key : string) (n : Z) (body : string) : Prop :=
  exists c, belongs key c /\ (1 <= n)%Z /\ chunks (chunk_size h) c !! Z.to_nat (n - 1) = Some body.
Definition upload_ok (s : shared) (u : upload) : Prop :=
  claimed s (upload_host u) (upload_key u)
  /\ forall n tag body, upload_parts u !! n = Some (tag, body) -> part_ok (upload_host u) (upload_key u) n body.
Definition state_ok (s : shared) (h : nat) (st : EvidenceState) : Prop :=
  plain_state st /\ tokens s !! fence st = Some h /\ forall u, upload_id st = Some u -> own_upload s h (state_key st) u.
Definition text_ok (s : shared) (h : nat) (text : string) : Prop := exists st, text = state_text st /\ state_ok s h st.
(** What is said of a record's evidence is true. *)
Definition backed (s : shared) (r : QueueRecord) : Prop :=
  (forall k, object_key r = Some k -> held s k) /\ (forall i, index_id r = Some i -> index_held s i).
Definition outbox_ok (s : shared) (w : world) : Prop :=
  exists q, represents q w /\ queue_wf cfg q /\ forall name r, q !! name = Some r -> backed s r.

(** The requests that keep the invariant. *)
Definition complete_ok (h : nat) (key : string) (ps : list part) : Prop :=
  exists c, belongs key c /\ ps.*1 = seqZ 1 (Z.of_nat (length ps)) /\ length ps = length (chunks (chunk_size h) c)
    /\ py_join "" (chunks (chunk_size h) c) = c.
Definition proper_request (s : shared) (h : nat) (r : request) : Prop :=
  match r with
  | PutIfAbsent key body => object_ok s key body
  | OpenUpload key => claimed s h key
  | SendPart key id n body => own_upload s h key id /\ part_ok h key n body
  | Complete key id ps => own_upload s h key id /\ complete_ok h key ps
  | GiveUp _ _ => True
  end.
Definition proper (h : nat) (s : shared) (R : Type) (c : call R) : Prop :=
  match c with
  | PutObject key body => proper_request s h (PutIfAbsent key body)
  | CreateMultipartUpload key => proper_request s h (OpenUpload key)
  | UploadPart key id n body => proper_request s h (SendPart key id n body)
  | CompleteMultipartUpload key id ps => proper_request s h (Complete key id ps)
  | WriteState _ text => text_ok s h text
  | MarkUploaded _ _ key _ => held s key
  | PublishIndex _ _ id => index_held s id
  | _ => True
  end.

Record good (s : shared) : Prop := {
  good_objects : forall key body, objects s !! key = Some body -> object_ok s key body;
  good_uploads : forall id u, uploads s !! id = Some u -> upload_ok s u;
  good_states : forall h name text, states s !! (h, name) = Some text -> text_ok s h text;
  good_late : forall h r, (h, r) ∈ late s -> proper_request s h r;
  good_outboxes : forall h, outbox_ok s (outboxes s h);
}.

(** *** What stays true *)
Lemma held_later s s' key : evolves s s' -> held s key -> held s' key.
Proof. intros [O _ _] [[d Hd] [b Hb]]. split; [by exists d |]. exists b. apply O; [by right; exists d | done]. Qed.
Lemma index_held_later s s' i : evolves s s' -> index_held s i -> index_held s' i.
Proof. intros [O _ _] (k & Hk & b & Hb). exists k. split; [done |]. exists b. apply O; [right; exists i; by right | done]. Qed.
Lemma claimed_later s s' h key : evolves s s' -> claimed s h key -> claimed s' h key.
Proof.
  intros [O _ T] (d & ck & n & f & Hk & Hck & Hb & Hn & Hf). exists d, ck, n, f. repeat split; try done; try apply Hn.
  - apply O; [left; by eapply claim_key_reserved | done].
  - by eapply lookup_weaken.
Qed.
Lemma own_upload_later s s' h key id : evolves s s' -> own_upload s h key id -> own_upload s' h key id.
Proof. intros [_ U _] (u & (u' & Hu & Hk & Hh)%U & <- & <-). exists u'. by rewrite Hk, Hh. Qed.
Lemma object_ok_later s s' key body : evolves s s' -> object_ok s key body -> object_ok s' key body.
Proof.
  intros [_ _ T] [Hn Hc]. split; [done |]. intros (d & n & f & h & -> & Hb & Hf)%Hc. exists d, n, f, h. split; [done |]. split; [done |]. by eapply lookup_weaken.
Qed.
Lemma upload_ok_later s s' u : evolves s s' -> upload_ok s u -> upload_ok s' u.
Proof. intros He [Hc Hp]. split; [by eapply claimed_later | done]. Qed.
Lemma state_ok_later s s' h st : evolves s s' -> state_ok s h st -> state_ok s' h st.
Proof.
  intros He (Hp & Ht & Hu). split; [done |]. split; [destruct He; by eapply lookup_weaken |].
  intros u Hst. eapply own_upload_later; [done | by apply Hu].
Qed.
Lemma text_ok_later s s' h text : evolves s s' -> text_ok s h text -> text_ok s' h text.
Proof. intros He (st & -> & Hst). exists st. split; [done |]. by eapply state_ok_later. Qed.
Lemma backed_later s s' r : evolves s s' -> backed s r -> backed s' r.
Proof. intros He [Hk Hi]. split; intros; [eapply held_later | eapply index_held_later]; eauto. Qed.
Lemma outbox_ok_later s s' w : evolves s s' -> outbox_ok s w -> outbox_ok s' w.
Proof. intros He (q & Hq & Hwf & Hb). exists q. split; [done |]. split; [done |]. intros. eapply backed_later; eauto. Qed.
Lemma proper_request_later s s' h r : evolves s s' -> proper_request s h r -> proper_request s' h r.
Proof.
  intros He. destruct r; simpl; [by apply object_ok_later | by apply claimed_later | | | done].
  - intros [Hu Hp]. split; [by eapply own_upload_later | done].
  - intros [Hu Hp]. split; [by eapply own_upload_later | done].
Qed.

(** A change keeps the invariant when what is new in it is right. *)
Lemma good_change s s' : good s -> evolves s s' ->
  (forall key body, objects s' !! key = Some body -> objects s !! key = Some body \/ object_ok s' key body) ->
  (forall id u, uploads s' !! id = Some u -> uploads s !! id = Some u \/ upload_ok s' u) ->
  (forall h name text, states s' !! (h, name) = Some text -> states s !! (h, name) = Some text \/ text_ok s' h text) ->
  (forall h r, (h, r) ∈ late s' -> (h, r) ∈ late s \/ proper_request s' h r) ->
  (forall h, outboxes s' h = outboxes s h \/ outbox_ok s' (outboxes s' h)) -> good s'.
Proof.
  intros [GO GU GS GL GB] He O U S L B. split.
  - intros key body [?|?]%O; [|done]. eapply object_ok_later; eauto.
  - intros id u [?|?]%U; [|done]. eapply upload_ok_later; eauto.
  - intros h name text [?|?]%S; [|done]. eapply text_ok_later; eauto.
  - intros h r [?|?]%L; [|done]. eapply proper_request_later; eauto.
  - intros h. destruct (B h) as [->|?]; [|done]. eapply outbox_ok_later; eauto.
Qed.

(** ** Requests keep the invariant *)
Section requests.
(** No two ciphertexts there are have the same digest. *)
Hypothesis no_collision : forall c c', published c -> published c' -> sha256 c = sha256 c' -> c = c'.

Lemma belongs_unique key c c' : belongs key c -> belongs key c' -> c = c'.
Proof. intros [Hp Hn] [Hp' Hn']. apply no_collision; [done | done |]. by eapply names_inj. Qed.
Lemma own_upload_inv s h key id u : own_upload s h key id -> uploads s !! id = Some u -> upload_key u = key /\ upload_host u = h.
Proof. intros (u' & Hu & <- & <-) Hu'. rewrite Hu in Hu'. by injection Hu' as ->. Qed.

(** A completed upload is the content that belongs there. *)
Lemma assembled_content s u ps body : upload_ok s u -> complete_ok (upload_host u) (upload_key u) ps -> assembled u ps body ->
  belongs (upload_key u) body.
Proof.
  intros [_ Hparts] (c & Hc & Hnum & Hlen & Hjoin) (bodies & Hb & _ & ->).
  enough (bodies = chunks (chunk_size (upload_host u)) c) as -> by (by rewrite Hjoin).
  apply list_eq. intros i. pose proof (Forall2_length _ _ _ Hb) as Hl.
  destruct (bodies !! i) as [b|] eqn:Eb.
  - destruct (Forall2_lookup_r _ _ _ _ _ Hb Eb) as ([n tag] & Ep & Hpart). simpl in Hpart.
    assert (n = 1 + Z.of_nat i)%Z as ->.
    { pose proof (list_lookup_fmap fst ps i) as Hf. rewrite Ep, Hnum, lookup_seqZ_lt in Hf; [by injection Hf |].
      apply lookup_lt_Some in Ep. lia. }
    destruct (Hparts _ _ _ Hpart) as (c' & Hc' & _ & Hi). rewrite (belongs_unique _ _ _ Hc' Hc) in Hi.
    rewrite <- Hi. f_equal. lia.
  - symmetry. apply lookup_ge_None. apply lookup_ge_None in Eb. lia.
Qed.

Lemma evolves_upload s id u u' : uploads s !! id = Some u -> upload_key u' = upload_key u -> upload_host u' = upload_host u ->
  evolves s (set_uploads <[id:=u']> s).
Proof.
  intros Hu Hk Hh. split; simpl; [done | | done]. intros i u1 Hi. destruct (decide (i = id)) as [->|].
  - rewrite lookup_insert_eq. rewrite Hu in Hi. injection Hi as <-. eauto.
  - rewrite lookup_insert_ne by done. eauto.
Qed.
(** Replacing an upload by one with the same key and host, whose parts are right. *)
Lemma replace_upload s id u u' : good s -> uploads s !! id = Some u -> upload_key u' = upload_key u -> upload_host u' = upload_host u ->
  (forall n tag body, upload_parts u' !! n = Some (tag, body) ->
     upload_parts u !! n = Some (tag, body) \/ part_ok (upload_host u) (upload_key u) n body) ->
  good (set_uploads <[id:=u']> s) /\ evolves s (set_uploads <[id:=u']> s).
Proof.
  intros Hg Hu Hk Hh Hparts. pose proof (evolves_upload s id u u' Hu Hk Hh) as He. split; [|done].
  eapply good_change; [done | done | | | | |]; simpl; eauto.
  intros i u1 [[<- <-]|[? ?]]%lookup_insert_Some; [right | by left].
  destruct (good_uploads _ Hg _ _ Hu) as [Hc Hp]. split; rewrite Hk, Hh; [by eapply claimed_later |].
  intros n tag b [?|?]%Hparts; [by eapply Hp | done].
Qed.
Lemma put_good s key body : good s -> object_ok s key body -> objects s !! key = None ->
  good (set_objects <[key:=body]> s) /\ evolves s (set_objects <[key:=body]> s).
Proof.
  intros Hg Hp Hnone. assert (evolves s (set_objects <[key:=body]> s)) as He.
  { split; simpl; [| eauto | done]. intros k b _ Hk. rewrite lookup_insert_ne; congruence. }
  split; [|done]. eapply good_change; [done | done | | | | |]; simpl; eauto.
  intros k b [[<- <-]|[? ?]]%lookup_insert_Some; [right; by eapply object_ok_later | by left].
Qed.
Lemma opened_good h s key id s' : good s -> claimed s h key -> opened h key id s s' -> good s' /\ evolves s s'.
Proof.
  intros Hg Hp [Hnone ->]. assert (evolves s (set_uploads <[id:=fresh_upload h key]> s)) as He.
  { split; simpl; [done | | done]. intros i u Hi. exists u. rewrite lookup_insert_ne by congruence. done. }
  split; [|done]. eapply good_change; [done | done | | | | |]; simpl; eauto.
  intros i u [[<- <-]|[? ?]]%lookup_insert_Some; [right | by left]. split; [by eapply claimed_later | done].
Qed.
(** Storing what belongs under a key changes nothing that was there. *)
Lemma overwrite_good s key body : good s -> belongs key body ->
  good (set_objects <[key:=body]> s) /\ evolves s (set_objects <[key:=body]> s).
Proof.
  intros Hg Hbody. assert (evolves s (set_objects <[key:=body]> s)) as He.
  { split; simpl; [| eauto | done]. intros k b [Hk|[d Hd]] Hb.
    - rewrite lookup_insert_ne; [done |]. intros <-. by rewrite (names_not_claim _ _ (proj2 Hbody)) in Hk.
    - destruct (decide (k = key)) as [->|]; [|by rewrite lookup_insert_ne]. rewrite lookup_insert_eq. f_equal.
      destruct (proj1 (good_objects _ Hg _ _ Hb) d Hd) as [Hpb <-]. eapply belongs_unique; [done | by split]. }
  split; [|done]. eapply good_change; [done | done | | | | |]; simpl; eauto.
  intros k b [[<- <-]|[? ?]]%lookup_insert_Some; [right | by left]. split.
  - intros d Hd. split; [apply Hbody |]. eapply names_inj; [apply Hbody | done].
  - by rewrite (names_not_claim _ _ (proj2 Hbody)).
Qed.

Lemma carried_out_good h r s s' : good s -> proper_request s h r -> carried_out h r s s' -> good s' /\ evolves s s'.
Proof.
  intros Hg Hp. destruct r as [key body|key|key id n body|key id ps|key id]; simpl in *.
  - intros [Hnone ->]. by apply put_good.
  - intros (id & Ho). by eapply opened_good.
  - intros (tag & u & (Hu & Hk & _) & ->). destruct Hp as [Hown Hpart]. destruct (own_upload_inv _ _ _ _ _ Hown Hu) as [<- <-].
    eapply replace_upload; [done | done | done | done |]. simpl.
    intros n' tag' b [[<- [= <- <-]]|[? ?]]%lookup_insert_Some; [by right | by left].
  - intros (u & body & (Hu & Hk & _) & Ha & ->). destruct Hp as [Hown Hps]. destruct (own_upload_inv _ _ _ _ _ Hown Hu) as [<- <-].
    pose proof (assembled_content _ _ _ _ (good_uploads _ Hg _ _ Hu) Hps Ha) as Hbody.
    destruct (replace_upload s id u (closed u)) as [Hg1 He1]; [done | done | done | done | by left |].
    destruct (overwrite_good _ _ _ Hg1 Hbody) as [Hg2 He2]. split; [done |]. by etrans.
  - intros (u & (Hu & _) & ->). eapply (replace_upload s id u (closed u)); [done | done | done | done |]. by left.
Qed.
Lemma part_sent_good s h key id n body tag s' : good s -> own_upload s h key id -> part_ok h key n body -> part_sent key id n body tag s s' ->
  good s' /\ evolves s s'.
Proof. intros Hg Hu Hp Hs. eapply (carried_out_good h (SendPart key id n body)); [done | by split | by exists tag]. Qed.
Lemma set_late_good s l : good s -> (forall h r, (h, r) ∈ l -> (h, r) ∈ late s \/ proper_request s h r) ->
  good (set_late l s) /\ evolves s (set_late l s).
Proof.
  intros Hg Hl. assert (evolves s (set_late l s)) as He by (split; simpl; eauto; done). split; [|done].
  eapply good_change; [done | done | | | | |]; simpl; eauto.
Qed.
Lemma failed_good h r s s' : good s -> proper_request s h r -> failed h r s s' -> good s' /\ evolves s s'.
Proof.
  intros Hg Hp [ -> |[Hr| -> ]]; [done | by eapply carried_out_good |]. apply set_late_good; [done |].
  intros h' r' [[= -> -> ]|?]%elem_of_cons; [by right | by left].
Qed.
End requests.
End invariant.

(** ** Where a record's evidence comes from *)
Definition keys_from (r r' : QueueRecord) (permitted : QueueState -> dict -> Prop) : Prop :=
  (forall k, object_key r' = Some k ->
     object_key r = Some k \/ exists st d, permitted st d /\ dict_get "object_key" d = Some (PStr k))
  /\ forall i, index_id r' = Some i ->
     index_id r = Some i \/ exists st d v, permitted st d /\ dict_get "index_id" d = Some v /\ _identifier v = Ok i.

Lemma keys_kept r r' permitted : object_key r' = object_key r -> index_id r' = index_id r -> keys_from r r' permitted.
Proof. intros Hk Hi. split; [rewrite Hk | rewrite Hi]; eauto. Qed.
Lemma transitioned_keys r st d r' (permitted : QueueState -> dict -> Prop) : permitted st d -> transitioned r st d = Ok r' -> keys_from r r' permitted.
Proof.
  intros Hp. unfold transitioned. case_match; [intros; inv_ok; by apply keys_kept |]. case_match; [intros; inv_ok; by apply keys_kept |].
  intros Ht. apply bind_Ok_inv in Ht as (r1 & H1 & Ht). apply bind_Ok_inv in Ht as (r2 & H2 & Ht). apply bind_Ok_inv in Ht as (r3 & H3 & Ht).
  injection Ht as <-. set (r0 := with_failure None _) in H1.
  assert (object_key r1 = object_key r \/ exists k, object_key r1 = Some k /\ dict_get "object_key" d = Some (PStr k)) as Hk1.
  { unfold object_key_detail in H1. destruct (dict_get "object_key" d) as [[]|]; inv_ok; eauto. }
  assert (index_id r1 = index_id r) as Hi1 by (unfold object_key_detail in H1; destruct (dict_get _ d) as [[]|]; by inv_ok).
  assert (object_key r2 = object_key r1 /\ index_id r2 = index_id r1) as [Hk2 Hi2]
    by (unfold ciphertext_size_detail in H2; destruct (dict_get _ d) as [[]|]; by inv_ok).
  assert (object_key r3 = object_key r2) as Hk3 by (unfold index_id_detail in H3; destruct (dict_get _ d); by inv_ok).
  assert (index_id r3 = index_id r2 \/ exists v i, index_id r3 = Some i /\ dict_get "index_id" d = Some v /\ _identifier v = Ok i) as Hi3
    by (unfold index_id_detail in H3; destruct (dict_get "index_id" d); inv_ok; eauto 10).
  assert (forall a b : QueueRecord, object_key a = object_key b -> index_id a = index_id b -> keys_from r b permitted -> keys_from r a permitted) as Hsame
    by (intros a b E1 E2 [? ?]; split; [by rewrite E1 | by rewrite E2]).
  apply (Hsame _ r3); [by case_match | by case_match |]. split.
  - intros k. rewrite Hk3, Hk2. destruct Hk1 as [->|(k' & -> & Hd)]; [by left |]. intros [= <-]. right. eauto.
  - intros i. destruct Hi3 as [->|(v & i' & -> & Hd & Hv)]; [rewrite Hi2, Hi1; by left |]. intros [= <-]. right. eauto 10.
Qed.
Lemma update_keys `{Env, PyRuntime} cfg permitted r who r' : update cfg permitted r who r' -> keys_from r r' permitted.
Proof. destruct 1; try by apply keys_kept. by eapply transitioned_keys. Qed.

Section keep.
Context `{PyRuntime, JsonRuntime}.
Variable envs : nat -> Env.
Variable cfg : config.
Variable published : string -> Prop.
Variable chunk_size : nat -> Z.
Abbreviation good := (good cfg published chunk_size).
Abbreviation proper := (proper published chunk_size).
Hypothesis cfg_ok : config_ok cfg.
Hypothesis Hleases : forall h, @leases_ok (envs h) cfg.
Hypothesis sha256_hex : forall s, fullmatch OutboxData._DIGEST (sha256 s) = true.
Hypothesis no_collision : forall c c', published c -> published c' -> sha256 c = sha256 c' -> c = c'.

Definition details_held (s : shared) (d : dict) : Prop :=
  (forall k, dict_get "object_key" d = Some (PStr k) -> held s k)
  /\ forall v i, dict_get "index_id" d = Some v -> _identifier v = Ok i -> index_held s i.

Lemma qstep_backed h permitted who q q' s : (forall st d, permitted st d -> details_held s d) -> @qstep (envs h) _ cfg permitted who q q' ->
  (forall name r, q !! name = Some r -> backed s r) -> forall name r, q' !! name = Some r -> backed s r.
Proof.
  intros Hd Hs Hb. assert (forall r, object_key r = None -> index_id r = None -> backed s r) as Hnew by (intros r E1 E2; split; congruence).
  destruct Hs as [who q name r r' Hq Hu | q id sid cp md st seq final | q id sid cp md p seq final];
    intros name' r1 [[<- <-]|[? ?]]%lookup_insert_Some; eauto.
  apply update_keys in Hu as [Hk Hi]. destruct (Hb _ _ Hq) as [Bk Bi]. split.
  - intros k [?|(st & d & Hp & Hg)]%Hk; [by apply Bk | by eapply (proj1 (Hd _ _ Hp))].
  - intros i [?|(st & d & v & Hp & Hg & Hv)]%Hi; [by apply Bi | by eapply (proj2 (Hd _ _ Hp))].
Qed.
Lemma outbox_op_ok h s w o : outbox_ok cfg s w -> (forall q, represents q w -> orderly q w o) ->
  (forall st d, permits o st d -> details_held s d) -> outbox_ok cfg s (@run_op (envs h) _ cfg o w).2.
Proof.
  intros (q & Hq & Hwf & Hb) Ho Hd.
  destruct (@op_refines (envs h) _ cfg cfg_ok sha256_hex q w o Hwf Hq (Ho q Hq)) as [Hsame|(q' & Hstep & Hq')]; [by exists q |].
  exists q'. split; [done |]. split; [eapply (@qstep_wf (envs h)); [done | apply Hleases | done | done] |]. by eapply qstep_backed.
Qed.
Lemma set_outbox_good h s w : good s -> outbox_ok cfg s w -> good (set_outbox h w s) /\ evolves s (set_outbox h w s).
Proof.
  intros Hg Hw. assert (evolves s (set_outbox h w s)) as He by (split; simpl; eauto; done). split; [|done].
  eapply good_change; [done | done | | | | |]; simpl; eauto. intros h'. case_bool_decide; [right | by left]. by eapply outbox_ok_later.
Qed.
Lemma run_op_good h s o : good s -> (forall q, represents q (outboxes s h) -> orderly q (outboxes s h) o) ->
  (forall st d, permits o st d -> details_held s d) ->
  good (set_outbox h (@run_op (envs h) _ cfg o (outboxes s h)).2 s) /\ evolves s (set_outbox h (@run_op (envs h) _ cfg o (outboxes s h)).2 s).
Proof. intros Hg Ho Hd. apply set_outbox_good; [done |]. apply outbox_op_ok; [apply (good_outboxes _ _ _ _ Hg) | done | done]. Qed.

(** ** Answers to proper calls *)
Lemma op_good h s o A (m : @M A) (a : A + raised) s' : good s -> outbox_call m h s a s' -> (m (outboxes s h)).2 = (@run_op (envs h) _ cfg o (outboxes s h)).2 ->
  (forall q, represents q (outboxes s h) -> orderly q (outboxes s h) o) -> (forall st d, permits o st d -> details_held s d) ->
  good s' /\ evolves s s'.
Proof. intros Hg [-> _] -> Ho Hd. by apply run_op_good. Qed.
Lemma transition_good h s id own st d (a : QueueRecord + raised) s' : good s ->
  outbox_call (@to_state (envs h) _ (PStr id) (PStr own) st d) h s a s' -> details_complete st d = true -> details_held s d -> good s' /\ evolves s s'.
Proof.
  intros Hg Hc Hd Hh. eapply (op_good h s (OpTransition (PStr id) (PStr own) (PStr (state_value st)) d)); [done | done | | |].
  - cbn [run_op]. by rewrite void_world.
  - intros q _ st'. cbn [orderly]. assert (QueueState_of (PStr (state_value st)) = Some st) as -> by (by destruct st). by intros [= <-].
  - intros st' d' [_ <-]. done.
Qed.
Lemma set_states_good h s name text : good s -> text_ok s h text ->
  good (set_states <[(h, name):=text]> s) /\ evolves s (set_states <[(h, name):=text]> s).
Proof.
  intros Hg Ht. assert (evolves s (set_states <[(h, name):=text]> s)) as He by (split; simpl; eauto; done). split; [|done].
  eapply good_change; [done | done | | | | |]; simpl; eauto. intros h' name' text'.
  intros [[[= <- <-] <-]|[? ?]]%lookup_insert_Some; [right | by left]. by eapply text_ok_later.
Qed.
Lemma drop_state_good h s name : good s -> good (set_states (delete (h, name)) s) /\ evolves s (set_states (delete (h, name)) s).
Proof.
  intros Hg. assert (evolves s (set_states (delete (h, name)) s)) as He by (split; simpl; eauto; done). split; [|done].
  eapply good_change; [done | done | | | | |]; simpl; eauto. intros h' name' text' [_ ?]%lookup_delete_Some. by left.
Qed.
Lemma draw_good h s t : good s -> tokens s !! t = None -> good (set_tokens <[t:=h]> s) /\ evolves s (set_tokens <[t:=h]> s).
Proof.
  intros Hg Ht. assert (evolves s (set_tokens <[t:=h]> s)) as He by (split; simpl; eauto; by apply insert_subseteq). split; [|done].
  eapply good_change; [done | done | | | | |]; simpl; eauto.
Qed.

Lemma identifier_PStr s i : _identifier (PStr s) = Ok i -> i = s.
Proof. unfold _identifier. intros Hi. by inv_ok. Qed.

Lemma serve_good h s R (c : call R) o s' : good s -> proper h s R c -> serve envs published h s R c o s' -> good s' /\ evolves s s'.
Proof.
  intros Hg Hp. assert (forall r, proper_request published chunk_size s h r -> failed h r s s' -> good s' /\ evolves s s') as Hfail
    by (intros r ? ?; by eapply failed_good).
  destruct c; simpl in *; try (intros [-> _]; done); try (intros ->; done).
  - destruct o; [|by apply Hfail]. by apply (carried_out_good _ _ _ no_collision h (PutIfAbsent _ _)).
  - destruct o; [by eapply opened_good | by apply Hfail].
  - destruct o; [|by apply Hfail]. destruct Hp. by eapply part_sent_good.
  - destruct o; [|by apply Hfail]. by apply (carried_out_good _ _ _ no_collision h (Complete _ _ _)).
  - destruct o; [|by apply (Hfail (GiveUp _ _))]. by apply (carried_out_good _ _ _ no_collision h (GiveUp _ _)).
  - destruct o; [intros ->; by apply set_states_good |]. intros [-> | ->]; [done | by apply set_states_good].
  - intros [-> | ->]; [done | by apply drop_state_good].
  - destruct o; [|by intros ->]. intros (? & _ & ->). by apply draw_good.
  - intros Hc. eapply (op_good h s (OpInspectRecord (PStr event_id))); [done | done | cbn [run_op]; by rewrite void_world | done | done].
  - intros [Hc _]. eapply (op_good h s (OpPreparedInspect (PStr event_id))); [done | done | cbn [run_op]; by rewrite void_world | done | done].
  - intros Hc. eapply transition_good; [done | done | done |]. split; [by intros k [= <-] | done].
  - intros Hc. eapply transition_good; [done | done | done |]. split; [done |]. intros v i [= <-] Hi. by apply identifier_PStr in Hi as ->.
  - intros Hc. by eapply transition_good.
Qed.

(** ** Systems *)
(** The calls of one host's clients, among all the others. *)
Definition bucket_service (h : nat) : service call raised shared :=
  {| answers := serve envs published h; allows := proper h; moves := evolves; holds := good |}.
Definition runs_well (Q : nat -> shared -> outcome -> Prop) (s : shared) (c : client) : Prop :=
  wp (bucket_service (host c)) (Q (host c)) s (running c).
Lemma step_evidence_free s o st d : without_evidence o -> permits o st d -> details_held s d.
Proof.
  destruct o; simpl; try done. intros [Hk Hi] [_ <-]. split.
  - intros k Hd. unfold has_key in Hk. apply bool_decide_eq_false in Hk. by rewrite (proj2 (dict_get_None _ _) Hk) in Hd.
  - intros v i Hd. unfold has_key in Hi. apply bool_decide_eq_false in Hi. by rewrite (proj2 (dict_get_None _ _) Hi) in Hd.
Qed.

(** What others do between the calls of a client keeps the invariant as well. *)
Lemma step_good Q y y' : good (installation y) -> Forall (runs_well Q (installation y)) (clients y) ->
  (forall h self t s, task_ok published t -> multipart_chunk_size self = chunk_size h -> (0 < chunk_size h)%Z -> (r2_max_bytes self < 2 ^ 63)%Z ->
     wp (bucket_service h) (Q h) s (task_program self t)) ->
  system_step envs cfg published chunk_size y y' ->
  good (installation y') /\ evolves (installation y) (installation y') /\ Forall (runs_well Q (installation y')) (clients y').
Proof.
  intros Hg Hc Hstart Hs. assert (forall s s' cs, evolves s s' -> Forall (runs_well Q s) cs -> Forall (runs_well Q s') cs) as Hlater.
  { intros s s' cs He Hcs. eapply Forall_impl; [exact Hcs |]. intros c Hw. eapply wp_later; [exact Hw | done]. }
  destruct Hs as [s cs h self t Ht Hch Hpos Hmax|s cs i h R c next o s' Hi Hserve|s cs h r l1 l2 s' Hl Hs'|s cs id u Hu|s cs key change Hk|s cs h o Ho Hord];
    simpl in *.
  - split; [done |]. split; [done |]. apply Forall_app. split; [done |]. apply Forall_singleton. by apply Hstart.
  - pose proof (Forall_lookup_1 _ _ _ _ Hc Hi) as Hw. destruct (Hw s (reflexivity s) Hg) as [Hp Hn]. simpl in *.
    destruct (serve_good _ _ _ _ _ _ Hg Hp Hserve) as [Hg' He]. split; [done |]. split; [done |].
    apply Forall_insert; [by eapply Hlater |]. by apply Hn.
  - destruct (set_late_good cfg published chunk_size s (l1 ++ l2) Hg) as [Hg1 He1].
    { intros h' r' Hin. left. rewrite Hl. set_solver. }
    assert (good s' /\ evolves s s') as [Hg' He].
    { destruct Hs' as [-> |Hr]; [done |]. destruct (carried_out_good cfg published chunk_size no_collision h r (set_late (l1 ++ l2) s) s') as [? ?];
        [done | | done | split; [done | by etrans]].
      eapply proper_request_later; [done |]. eapply good_late; [done |]. rewrite Hl. set_solver. }
    split; [done |]. split; [done |]. by eapply Hlater.
  - destruct (replace_upload cfg published chunk_size s id u (closed u)) as [Hg' He]; [done | done | done | done | by left |].
    split; [done |]. split; [done |]. by eapply Hlater.
  - assert (evolves s (set_objects (partial_alter change key) s)) as He.
    { split; simpl; [| eauto | done]. intros k b Hr Hb. rewrite lookup_partial_alter_ne; [done |]. by intros ->. }
    split; [|split; [done | by eapply Hlater]]. eapply good_change; [done | done | | | | |]; simpl; eauto.
    intros k b. destruct (decide (k = key)) as [->|]; [|rewrite lookup_partial_alter_ne by done; by left].
    intros _. right. split; [intros d Hd; destruct Hk; right; by exists d | intros Hcl; destruct Hk; by left].
  - destruct (run_op_good h s o Hg Hord) as [Hg' He]; [intros; by eapply step_evidence_free |].
    split; [done |]. split; [done |]. by eapply Hlater.
Qed.
End keep.
