(* ===== verification/EvidenceProps.v ===== *)
(** * Publication: what its programs do, and the systems that arise

    Each program of [EvidenceStore] and [EvidencePublish] makes proper calls only, whatever
    the answers, and what it returns is true of the bucket from then on.  Hence the
    invariant of every system that clients lead to from a bucket without evidence.  Last, what
    storing and reading a small object do for sure when nothing disturbs them. *)

From S2P Require Import Prelude PyStr PyObj PyDatetime PyJson LogicalJat Catalog CatalogFile Keyset SessionEvidence Replay OutboxData RecordProps.
From S2P Require Import OutboxStore PreparedOutbox PccOutbox OutboxLogic QueueRecords QueueModel QueueSpec QueueRefine OutboxOps Programs EvidenceState.
From S2P Require Import EvidenceStore EvidencePublish EvidenceStateProps EvidenceRuns EvidenceInvariant JsonProps OutboxProps.

(** [s] evolves to [s'] through the states in between. *)
Ltac evolve := first [eassumption | etrans; [eassumption | evolve] | reflexivity].

Section programs.
Context `{PyRuntime, JsonRuntime}.
Variable envs : nat -> Env.
Variable cfg : config.
Variable published : string -> Prop.
Variable chunk_size : nat -> Z.
Variable h : nat.
Variable self : R2Backend.
Abbreviation good := (good cfg published chunk_size).
Abbreviation proper := (proper published chunk_size).
Abbreviation belongs := (belongs published).
Abbreviation K := (bucket_service envs cfg published chunk_size h).
Abbreviation W := (wp (E:=raised) K).
Hypothesis deep : 3 <= json_depth.
Hypothesis same_chunks : multipart_chunk_size self = chunk_size h.
Hypothesis positive : (0 < chunk_size h)%Z.
Hypothesis small : (r2_max_bytes self < 2 ^ 63)%Z.
Hypothesis no_collision : forall c c', published c -> published c' -> sha256 c = sha256 c' -> c = c'.

(** ** Steps *)
Lemma W_bind {A B} (Q : shared -> B -> Prop) (R : shared -> A -> Prop) s (m : program A) (f : A -> program B) :
  W R s m -> (forall s' a, evolves s s' -> R s' a -> W Q s' (f a)) -> W Q s (m ≫= f).
Proof. intros Hm Hf. apply wp_bind. eapply wp_mono; [exact Hm | done]. Qed.
Lemma W_try_else {A B} (Q : shared -> B -> Prop) (R : shared -> A -> Prop) s (m : program A) g (f : A -> program B) :
  W R s m -> (forall s' a, evolves s s' -> R s' a -> W Q s' (f a)) -> (forall e s', evolves s s' -> W Q s' (g e)) -> W Q s (try_else m g f).
Proof. intros Hm Hf Hg. apply wp_try_else; [| done]. eapply wp_mono; [exact Hm | done]. Qed.
Lemma W_try {A} (Q : shared -> A -> Prop) s (m : program A) g : W Q s m -> (forall e s', evolves s s' -> W Q s' (g e)) -> W Q s (try m g).
Proof. intros Hm Hg. apply wp_try; [done | done]. Qed.
Lemma W_mono {A} (Q R : shared -> A -> Prop) s (m : program A) : W R s m -> (forall s' a, evolves s s' -> R s' a -> Q s' a) -> W Q s m.
Proof. intros Hm HQ. eapply wp_mono; [exact Hm | done]. Qed.
Lemma W_ret {A} (Q : shared -> A -> Prop) s a : (forall s', evolves s s' -> Q s' a) -> W Q s (mret a).
Proof. exact (wp_ret K Q s a). Qed.
Lemma W_throw {A} (Q : shared -> A -> Prop) s e : W Q s (throw e).
Proof. apply wp_throw. Qed.
Lemma W_if {A} (Q : shared -> A -> Prop) s (b : bool) (m m' : program A) : (b = true -> W Q s m) -> (b = false -> W Q s m') -> W Q s (if b then m else m').
Proof. destruct b; auto. Qed.
Lemma W_throw_if s b e : W (fun _ _ => b = false) s (throw_if b e).
Proof. destruct b; [apply W_throw | by apply W_ret]. Qed.
Lemma W_pure {A} s (r : result A) : W (fun _ a => r = Ok a) s (pure r).
Proof. destruct r; [by apply W_ret | apply W_throw]. Qed.
Lemma W_checked {A} s (r : A + raised) : W (fun _ a => r = inl a) s (checked r).
Proof. destruct r; [by apply W_ret | apply W_throw]. Qed.
(** A call nothing is learned from. *)
Lemma W_quiet {R} s (c : call R) : (forall s', evolves s s' -> proper h s' R c) -> W (fun _ _ => True) s (do_call c).
Proof. intros Hp. apply wp_do_call; [intros s' Hs _; by apply Hp | done]. Qed.
(** A call whose answer says something that stays true. *)
Lemma W_learn {R} (Q : shared -> R -> Prop) s (c : call R) : (forall s', evolves s s' -> proper h s' R c) ->
  (forall s' a s'', evolves s s' -> good s' -> good s'' -> serve envs published h s' R c (inl a) s'' -> forall s3, evolves s'' s3 -> Q s3 a) ->
  W Q s (do_call c).
Proof.
  intros Hp HQ. apply wp_do_call; [intros s' Hs _; by apply Hp |]. intros s' a s'' s3 He Hg Hs _ Hg'' ?. by eapply HQ.
Qed.
Lemma W_or_unavailable {A} (Q : shared -> A -> Prop) s c (m : program A) : W Q s m -> W Q s (or_unavailable c m).
Proof. intros Hm. apply W_try; [done |]. intros. apply W_throw. Qed.
Lemma W_true {A} (Q : shared -> A -> Prop) s m : W Q s m -> W (fun _ _ => True) s m.
Proof. intros Hm. by eapply W_mono. Qed.
Lemma object_stays s s' key body : reserved key -> evolves s s' -> objects s !! key = Some body -> objects s' !! key = Some body.
Proof. intros Hk [O _ _] Hb. by apply O. Qed.

(** ** Reading back *)
(** The object under a key has this digest and this length. *)
Definition stored (s : shared) (key d : string) (n : Z) : Prop :=
  exists body, objects s !! key = Some body /\ sha256 body = d /\ n = Z.of_nat (py_len body).
Lemma stored_later s s' key d n : reserved key -> evolves s s' -> stored s key d n -> stored s' key d n.
Proof. intros Hk He (body & Hb & Hd). exists body. split; [by eapply object_stays | done]. Qed.

Lemma W_head s key : reserved key ->
  W (fun s' n => exists body, objects s' !! key = Some body /\ n = Some (Z.of_nat (py_len body))) s (do_call (HeadObject key)).
Proof.
  intros Hk. apply W_learn; [done |]. intros s' a s'' He Hg Hg'' [-> (body & Hb & ->)] s3 He'. exists body. split; [by eapply object_stays | done].
Qed.
Lemma W_get s key : reserved key -> W (fun s' body => objects s' !! key = Some body) s (do_call (GetObject key)).
Proof. intros Hk. apply W_learn; [done |]. intros s' a s'' He Hg Hg'' [-> Hb] s3 He'. by eapply object_stays. Qed.

Lemma W_verify s key d size : reserved key ->
  W (fun s' n => stored s' key d n /\ forall m, size = Some m -> n = m) s (_verify_evidence_remote self key d size true).
Proof.
  intros Hk. eapply W_bind; [apply W_try; [by apply W_head | intros; apply W_throw] |]. intros s1 n He1 (body & Hb & ->). cbn [default].
  eapply W_bind; [apply W_throw_if |]. intros s2 _ He2 Hsize%orb_false_iff. cbn [negb].
  eapply W_bind; [by apply W_get |]. intros s3 body' He3 Hb'.
  assert (body' = body) as -> by (pose proof (object_stays _ _ _ _ Hk (transitivity He2 He3) Hb); congruence).
  eapply W_bind; [apply W_checked |]. intros s4 [total observed] He4 Hr.
  eapply W_bind; [apply W_throw_if |]. intros s5 _ He5 [Ht Ho]%orb_false_iff. bools. apply Z.eqb_eq in Ht.
  apply W_ret. intros s6 He6. split.
  - exists body. split; [eapply object_stays; [done | | exact Hb']; evolve |].
    apply read_whole in Hr; [|done]. by subst.
  - intros m ->. destruct Hsize as [_ Hm]. bools. by apply Z.eqb_eq in Hm.
Qed.
Lemma W_exists s key : W (fun _ _ => True) s (_evidence_final_exists key).
Proof.
  eapply W_try_else; [by apply W_quiet | intros; by apply W_ret |]. intros. case_match; [by apply W_ret | apply W_throw].
Qed.
Lemma W_verify_or_absent s key d size : reserved key ->
  W (fun s' b => b = true -> stored s' key d size) s (_verify_evidence_or_absent self key d size).
Proof.
  intros Hk. eapply W_try_else; [by apply W_verify | |].
  - intros s' n He [Hs Hn]. rewrite (Hn size) in Hs by done. apply W_ret. intros s'' He' _. by eapply stored_later.
  - intros e s' He. case_match; [|apply W_throw]. eapply W_bind; [apply W_exists |]. intros s'' [] _ _; [apply W_throw | by apply W_ret].
Qed.
Lemma W_read_body s key d n : reserved key -> W (fun s' body => objects s' !! key = Some body /\ sha256 body = d) s (read_body self key d n).
Proof.
  intros Hk. eapply W_bind; [by apply W_get |]. intros s1 whole He1 Hw. cbv zeta.
  set (limit := match n with Some n => _ | None => _ end). remember (if (limit <? 0)%Z then whole else str_take (Z.to_nat limit) whole) as body eqn:Ebody.
  eapply W_bind; [apply W_throw_if |]. intros s2 ? He2 Hc. cbv beta in Hc. bools. apply W_ret. intros s3 He3.
  assert (body = whole) as E.
  { rewrite Ebody in *. destruct (limit <? 0)%Z; [done |]. apply str_take_whole. match goal with H : (_ =? _)%Z = true |- _ => apply Z.eqb_eq in H end. lia. }
  rewrite E in *. split; [|done]. eapply object_stays; [done | | exact Hw]. evolve.
Qed.

(** ** One conditional request *)
(** A receipt for this key and digest is true of the bucket. *)
Definition receipt_for (s : shared) (key d : string) (r : R2EvidenceReceipt) : Prop :=
  receipt_key r = key /\ receipt_digest r = d /\ stored s key d (receipt_bytes r).
Lemma receipt_ok s key d size sent n dup how : stored s key d size -> receipt_for s key d (receipt key d size sent n dup how).
Proof. done. Qed.
Lemma object_ok_content s key content : belongs key content -> object_ok published s key content.
Proof.
  intros [Hp Hn]. split; [|by rewrite (names_not_claim _ _ Hn)]. intros d Hd. split; [done |]. by eapply names_inj.
Qed.
Lemma names_reserved key d : names key d -> reserved key.
Proof. right. by exists d. Qed.

Section single.
Variables key content : string.
Hypothesis Hcontent : belongs key content.
Let d := sha256 content.
Lemma key_reserved : reserved key.
Proof. eapply names_reserved. apply Hcontent. Qed.

(** Reading the object back ends in a receipt. *)
Lemma W_confirmed s size (f : Z -> R2EvidenceReceipt) g :
  (forall s' e, evolves s s' -> W (fun s' r => receipt_for s' key d r) s' (g e)) ->
  (forall n, exists a b c e, f n = receipt key d size a b c e) ->
  W (fun s' r => receipt_for s' key d r) s (try_else (_verify_evidence_remote self key d (Some size) true) g (fun n => mret (f n))).
Proof.
  intros Hg Hf. eapply W_try_else; [by apply W_verify, key_reserved | | intros; by apply Hg].
  intros s' n He [Hs Hn]. rewrite (Hn size) in Hs by done. apply W_ret. intros s'' He'.
  destruct (Hf n) as (a & b & c & e & ->). apply receipt_ok. eapply stored_later; [apply key_reserved | done | done].
Qed.
Lemma W_settle s size n error : W (fun s' r => receipt_for s' key d r) s (settle self key d size n error).
Proof.
  apply W_confirmed; [|by eauto]. intros s' e He. case_match; [|apply W_throw].
  eapply (W_bind _ (fun _ _ => True)); [|intros; case_match; apply W_throw].
  apply W_try; [apply W_exists | intros; apply W_throw].
Qed.
Lemma W_single s more size n : W (fun s' r => receipt_for s' key d r) s (single_attempts self more key content size d n).
Proof.
  revert s n. induction more as [|more IH]; intros s n; cbn [single_attempts].
  all: eapply W_try_else;
    [ eapply W_bind; [apply W_quiet; intros; by apply object_ok_content | intros s0 ? He0 _; by apply W_verify, key_reserved]
    | intros s' m He [Hs Hm]; apply W_ret; intros s'' He'; apply receipt_ok; rewrite (Hm size) in Hs by done;
      eapply stored_later; [apply key_reserved | done | done]
    | intros e s' He ].
  all: apply W_if; intros _;
    [ apply W_if; intros _; [apply W_confirmed; [intros s0 e0 He0; apply W_throw | by eauto] | apply W_if; intros _; [apply W_throw |]]
    | apply W_if; intros _; [apply W_throw |]; apply W_if; intros _; [|apply W_throw] ].
  - apply W_throw.
  - apply W_settle.
  - apply IH.
  - apply IH.
Qed.
End single.

(** ** Claims and upload states *)
Lemma W_save s st : state_ok s h st -> W (fun _ _ => True) s (_save_evidence_state self st).
Proof.
  intros Hst. eapply W_bind; [apply W_or_unavailable; by apply W_quiet |]. intros s1 _ He1 _. cbv zeta.
  eapply W_bind; [apply W_throw_if |]. intros s2 ? He2 _. eapply W_bind; [apply W_or_unavailable; by apply W_quiet |]. intros s3 _ He3 _.
  apply W_or_unavailable, W_quiet. intros s4 He4. exists st. split; [done |]. eapply state_ok_later; [|exact Hst]. evolve.
Qed.
Lemma W_clear s key : W (fun _ _ => True) s (_clear_evidence_state self key).
Proof.
  eapply W_bind; [apply W_or_unavailable; by apply W_quiet |]. intros s1 _ He1 _.
  eapply W_bind; [apply W_or_unavailable; by apply W_quiet |]. intros s2 _ He2 _.
  apply W_try; [by apply W_quiet | intros; by apply W_ret].
Qed.
(** The state of an upload for this object, on this host. *)
Definition state_for_object (s : shared) (key d : string) (size : Z) (st : EvidenceState) : Prop :=
  state_ok s h st /\ state_key st = key /\ state_sha256 st = d /\ state_size st = size /\ evidence_claim_key d key = Ok (state_claim_key st).
Lemma W_load s key d size : (0 <= size < 2 ^ 63)%Z -> W (fun s' st => state_for_object s' key d size st) s (_load_evidence_state self key d size).
Proof.
  intros Hsize. eapply W_bind; [apply W_or_unavailable; by apply W_quiet |]. intros s1 _ He1 _. cbv zeta.
  eapply W_bind; [apply W_or_unavailable; by apply W_quiet |]. intros s2 _ He2 _.
  eapply (W_bind _ (fun s' raw => default "" raw = "" \/ text_ok s' h (default "" raw))).
  { apply W_or_unavailable, W_learn; [done |]. intros s3 raw s4 He3 Hg _ [-> ->] s5 He5.
    destruct (states s3 !! _) as [t|] eqn:E; [right | by left]. eapply text_ok_later; [done |]. by eapply good_states. }
  intros s3 raw He3 Hraw. apply W_if; intros Hb.
  - eapply W_bind; [apply W_pure |]. intros s4 ck He4 Hck. cbv beta in Hck.
    eapply (W_bind _ (fun s' t => tokens s' !! t = Some h)).
    { apply W_learn; [done |]. intros s5 t s6 He5 _ _ (_ & _ & ->) s7 He7. pose proof (ev_tokens _ _ He7) as Hsub. eapply lookup_weaken; [|exact Hsub]. simpl. by rewrite lookup_insert_eq. }
    intros s5 t He5 Ht. cbv beta in Ht. set (st := {| state_key := key |}).
    assert (state_ok s5 h st) as Hst by (split; [by split; [done | apply Forall_nil_2] | by split]).
    eapply W_bind; [by apply W_save |]. intros s6 _ He6 _. apply W_ret. intros s7 He7. split; [|done].
    eapply state_ok_later; [|exact Hst]. evolve.
  - apply bool_decide_eq_false in Hb. destruct Hraw as [?|(st & Hst & Hok)]; [done |]. rewrite Hst.
    eapply W_mono; [apply W_checked |]. intros s4 st' He4 Hr. cbv beta in Hr. destruct Hok as (Hplain & Hok).
    apply read_state_written in Hr as (-> & Hk & Hd & Hn & Hck & _); [|done | done].
    split; [|by rewrite Hk, Hd, Hn]. eapply state_ok_later; [done |]. by split.
Qed.

(** The claim on an object that was read with our fence is ours. *)
Lemma W_own_claim s key d size st absent : (0 <= size < 2 ^ 63)%Z -> names key d -> state_for_object s key d size st ->
  W (fun s' _ => claimed s' h key) s (own_claim st d size absent).
Proof.
  intros Hsize Hk (Hok & <- & Hd & Hn & Hck).
  eapply (W_bind _ (fun s' f => forall f', f = Some f' -> objects s' !! state_claim_key st = Some (claim_text d size f'))).
  - eapply (W_bind _ (fun s' o => forall body, o = Some body -> objects s' !! state_claim_key st = Some body /\ object_ok published s' (state_claim_key st) body)).
    + eapply (W_try_else _ (fun s' body => objects s' !! state_claim_key st = Some body /\ object_ok published s' (state_claim_key st) body)).
      * apply W_learn; [done |]. intros s1 body s2 He1 Hg _ [-> Hb] s3 He3.
        split; [eapply object_stays; [left; by eapply claim_key_reserved | done | done] |]. eapply object_ok_later; [done |]. by eapply good_objects.
      * intros s1 body He1 [Hb Ho]. apply W_ret. intros s2 He2 body' [= <-].
        split; [eapply object_stays; [left; by eapply claim_key_reserved | done | done] | by eapply object_ok_later].
      * intros e s1 He1. apply W_if; intros _; [by apply W_ret | apply W_throw].
    + intros s1 [body|] He1 Hb; [|by apply W_ret]. destruct (Hb body eq_refl) as [Ho [_ Hc]]. clear Hb.
      destruct Hc as (d' & n' & f' & h' & -> & Hn' & Hf'); [by eapply claim_key_reserved |].
      eapply W_bind; [apply W_checked |]. intros s2 f He2 Hr. cbv beta in Hr. apply read_claim_written in Hr as (-> & -> & ->); [|lia | done].
      apply W_ret. intros s3 He3 f' [= <-]. eapply object_stays; [left; by eapply claim_key_reserved | | exact Ho]. evolve.
  - intros s1 [f|] He1 Hf; [|apply W_throw]. specialize (Hf f eq_refl).
    eapply W_mono; [apply W_throw_if |]. intros s2 ? He2 Hb. cbv beta in Hb. bools. subst f.
    exists d, (state_claim_key st), size, (fence st). destruct Hok as (_ & Ht & _).
    split; [done |]. split; [done |]. split; [eapply object_stays; [left; by eapply claim_key_reserved | done | done] |]. split; [done |].
    eapply lookup_weaken; [exact Ht |]. apply (ev_tokens s s2). evolve.
Qed.
Lemma W_claim s key d size : (0 <= size < 2 ^ 63)%Z -> names key d ->
  W (fun s' st => state_ok s' h st /\ state_key st = key /\ claimed s' h key) s (_claim_evidence_multipart self key d size).
Proof.
  intros Hsize Hk. eapply W_bind; [by apply W_load |]. intros s1 st He1 Hst. pose proof Hst as (Hok & Hkey & Hd & Hn & Hck).
  assert (claim_text d size (fence st) = claim_text d size (fence st)) as _ by done.
  assert (forall s', evolves s1 s' -> state_for_object s' key d size st) as Hlater by (intros s' He; split; [by eapply state_ok_later | done]).
  assert (forall s', evolves s1 s' -> object_ok published s' (state_claim_key st) (claim_text d size (fence st))) as Hobj.
  { intros s' He. pose proof (claim_key_reserved _ _ _ Hck) as Hres. split.
    - intros d' Hd'. by rewrite (names_not_claim _ _ Hd') in Hres.
    - intros _. exists d, size, (fence st), h. split; [done |]. split; [done |]. apply (Hlater s' He). }
  eapply (W_bind _ (fun s' _ => claimed s' h key)).
  - apply W_try.
    + apply W_learn; [done |]. intros s2 [] s3 He2 _ _ [_ ->] s4 He4. exists d, (state_claim_key st), size, (fence st).
      split; [done |]. split; [done |]. split; [|split; [done |]].
      * eapply object_stays; [left; by eapply claim_key_reserved | done |]. simpl. by rewrite lookup_insert_eq.
      * assert (tokens s2 !! fence st = Some h) as Ht by apply (Hlater s2 He2).
        eapply lookup_weaken; [exact Ht |]. apply (ev_tokens _ _ He4).
    + intros e s2 He2. apply W_if; intros _; [apply W_if; intros _; [|apply W_throw] | apply W_if; intros _; [|apply W_throw]];
        eapply W_own_claim; eauto.
  - intros s2 ? He2 Hcl. cbv beta in Hcl. cbv zeta.
    assert (state_ok s2 h (with_stage Claimed st)) as Hok2 by (destruct (Hlater s2 He2) as [H2 _]; exact H2).
    eapply W_bind; [by apply W_save |]. intros s3 ? He3 _. apply W_ret. intros s4 He4.
    split; [eapply state_ok_later; [|exact Hok2]; evolve |]. split; [done |]. eapply claimed_later; [|exact Hcl]. evolve.
Qed.

(** ** Multipart uploads *)
Section multipart.
Variables key content : string.
Hypothesis Hcontent : belongs key content.
Let d := sha256 content.

(** What holds of the variables, also when an exception is raised. *)
Definition vars_ok (s : shared) (v : locals) : Prop :=
  state_ok s h (state v) /\ state_key (state v) = key /\ claimed s h key /\ forall u, open_upload v = Some u -> own_upload s h key u.
Abbreviation L := (lwp (E:=raised) K vars_ok).
Lemma vars_later s s' v : vars_ok s v -> evolves s s' -> vars_ok s' v.
Proof.
  intros (Hs & Hk & Hc & Hu) He. split; [by eapply state_ok_later |]. split; [done |]. split; [by eapply claimed_later |].
  intros u Huo. eapply own_upload_later; [done | by apply Hu].
Qed.

Lemma L_bind {A B} (Q : shared -> B -> locals -> Prop) (R : shared -> A -> locals -> Prop) s v (m : step A) (f : A -> step B) :
  L R s v m -> (forall s' a v', evolves s s' -> vars_ok s' v' -> R s' a v' -> L Q s' v' (f a)) -> L Q s v (m ≫= f).
Proof. intros Hm Hf. apply lwp_bind. eapply lwp_mono; [exact Hm | done]. Qed.
Lemma L_catching {A} (Q : shared -> A -> locals -> Prop) s v (m : step A) g :
  L Q s v m -> (forall e s' v', evolves s s' -> vars_ok s' v' -> L Q s' v' (g e)) -> L Q s v (catching m g).
Proof. intros Hm Hg. apply lwp_catching; [done | done]. Qed.
Lemma L_catching_else {A B} (Q : shared -> B -> locals -> Prop) (R : shared -> A -> locals -> Prop) s v (m : step A) g (f : A -> step B) :
  L R s v m -> (forall s' a v', evolves s s' -> vars_ok s' v' -> R s' a v' -> L Q s' v' (f a)) ->
  (forall e s' v', evolves s s' -> vars_ok s' v' -> L Q s' v' (g e)) -> L Q s v (catching_else m g f).
Proof. intros Hm Hf Hg. apply lwp_catching_else; [| done]. eapply lwp_mono; [exact Hm | done]. Qed.
Lemma L_ret {A} (Q : shared -> A -> locals -> Prop) s v a : vars_ok s v -> (forall s', evolves s s' -> Q s' a v) -> L Q s v (mret a).
Proof. exact (lwp_ret K vars_ok vars_later Q s v a). Qed.
Lemma L_fail {A} (Q : shared -> A -> locals -> Prop) s v e : vars_ok s v -> L Q s v (fail e).
Proof. exact (lwp_raising K vars_ok vars_later Q s v e). Qed.
Lemma L_lifted {A} (Q : shared -> A -> locals -> Prop) s v m : vars_ok s v -> W (fun s' a => Q s' a v) s m -> L Q s v (lifted m).
Proof. exact (lwp_lifted K vars_ok vars_later Q s v m). Qed.
Lemma L_read {A} s v (f : locals -> A) : vars_ok s v -> L (fun _ a v' => a = f v /\ v' = v) s v (read f).
Proof. intros Hv. apply lwp_read; [apply vars_later | done | done]. Qed.
Lemma L_assign s v f : vars_ok s (f v) -> L (fun _ _ v' => v' = f v) s v (assign f).
Proof. intros Hv. apply lwp_assign; [apply vars_later | done | done]. Qed.
Lemma L_if {A} (Q : shared -> A -> locals -> Prop) s v (b : bool) (m m' : step A) : (b = true -> L Q s v m) -> (b = false -> L Q s v m') -> L Q s v (if b then m else m').
Proof. destruct b; auto. Qed.

Lemma L_save s v : vars_ok s v -> L (fun _ _ v' => v' = v) s v (save self).
Proof.
  intros Hv. eapply L_bind; [by apply L_read |]. intros s1 st v1 He1 Hv1 [-> ->]. apply L_lifted; [done |].
  eapply W_mono; [apply W_save, Hv1 | done].
Qed.
(** A new state of the upload is saved. *)
Lemma L_update s v f : vars_ok s (set_state f v) -> L (fun _ _ v' => v' = set_state f v) s v (assign (set_state f) ;; save self).
Proof. intros Hv. eapply L_bind; [by apply L_assign |]. intros s1 ? v1 He1 Hv1 ->. by apply L_save. Qed.
Lemma L_fail_read {A} (Q : shared -> A -> locals -> Prop) s v (e : Z -> raised) : vars_ok s v -> L Q s v (n ← read tries; fail (e n)).
Proof. intros Hv. eapply L_bind; [by apply L_read |]. intros s1 n v1 He1 Hv1 _. by apply L_fail. Qed.

Lemma vars_reset s v st : vars_ok s v -> vars_ok s (set_state (fun x => with_stage st (with_upload None [] x)) v).
Proof. intros (((Hn & _) & Ht & _) & Hk & Hc & Hu). split; [|done]. split; [by split; [done | apply Forall_nil_2] |]. by split. Qed.
Lemma vars_stage s v st : vars_ok s v -> vars_ok s (set_state (with_stage st) v).
Proof. done. Qed.
Lemma vars_parts s v st ps : vars_ok s v -> numbers_fit ps -> vars_ok s (set_state (fun x => with_stage st (with_upload (upload_id x) ps x)) v).
Proof. intros (((Hn & _) & Ht & Hi) & Hk & Hc & Hu) Hp. split; [|done]. split; [by split |]. by split. Qed.

Lemma L_reset s v n : vars_ok s v -> L (fun _ _ _ => True) s v (_reset_evidence_upload self key n).
Proof.
  intros Hv. eapply L_bind; [by apply L_read |]. intros s1 st v1 He1 Hv1 [-> ->].
  destruct (upload_id (state v)) as [u|]; [|by apply L_ret].
  eapply (L_bind _ (fun _ _ _ => True)).
  - apply L_catching; [apply L_lifted; [done |]; by apply W_quiet |]. intros e s2 v2 He2 Hv2.
    eapply L_bind; [by apply L_save |]. intros s3 ? v3 He3 Hv3 _. by apply L_fail.
  - intros s2 _ v2 He2 Hv2 _. eapply (L_bind _ (fun _ _ v' => v' = set_state (fun s => with_stage Claimed (with_upload None [] s)) v2)).
    + apply L_assign. by apply vars_reset.
    + intros s3 ? v3 He3 Hv3 ->. eapply lwp_mono; [by apply L_save | done].
Qed.
Lemma L_expired s v : vars_ok s v -> L (fun _ _ _ => True) s v (expired self).
Proof. intros Hv. eapply lwp_mono; [by apply L_update, vars_reset | done]. Qed.

Lemma L_create s v more : vars_ok s v -> L (fun _ _ _ => True) s v (create_attempts self more key).
Proof.
  revert s v. induction more as [|more IH]; intros s v Hv; cbn [create_attempts]; apply L_catching.
  1, 3: eapply (L_bind _ (fun s' u v' => own_upload s' h key u /\ v' = v));
    [ apply L_lifted; [done |]; apply W_learn;
      [ intros s1 He1; eapply claimed_later; [done | apply Hv]
      | intros s1 u s2 He1 _ _ [Hnone ->] s3 He3; split; [|done]; eapply own_upload_later; [done |];
        eexists; simpl; rewrite lookup_insert_eq; done ]
    | intros s1 u v1 He1 Hv1 [Hu ->];
      assert (vars_ok s1 (set_open (Some u) v)) as Hopen by (destruct Hv1 as (? & ? & ? & _); split; [done |]; split; [done |]; split; [done |]; by intros ? [= <-]);
      eapply L_bind; [by apply L_assign |]; intros s2 ? v2 He2 Hv2 ->;
      eapply (L_bind _ (fun _ _ v' => v' = set_open (Some u) v)); [apply L_if; intros _; [by apply L_fail | by apply L_ret] |];
      intros s3 ? v3 He3 Hv3 ->; eapply lwp_mono; [apply L_update | done];
      destruct Hv3 as (((Hn & _) & Ht & _) & Hk & Hc & Ho); split; [|done];
      split; [by split; [done | apply Forall_nil_2] |]; split; [done |]; intros ? [= <-]; simpl in *; rewrite Hk; by apply Ho ].
  all: intros e s1 v1 He1 Hv1; apply L_if; intros _; [|by apply L_fail];
    eapply L_bind; [by apply L_assign |]; intros s2 ? v2 He2 Hv2 ->;
    eapply L_bind; [by apply L_read |]; intros s3 n v3 He3 Hv3 [-> ->]; apply L_if; intros _; [by apply L_fail |].
  - by apply L_fail.
  - by apply IH.
Qed.

(** ** Parts *)
Definition keys_fit (m : gmap Z string) : Prop := forall n, is_Some (m !! n) -> (1 <= n <= _MAX_EVIDENCE_PARTS)%Z.
Lemma sorted_parts_fit m : keys_fit m -> numbers_fit (sorted_parts m).
Proof.
  intros Hm. apply Forall_forall. intros [n e] Hin. unfold sorted_parts in Hin. rewrite merge_sort_Permutation in Hin.
  apply elem_of_map_to_list in Hin. apply Hm. by exists e.
Qed.
Lemma L_part s v more u number chunk prior : vars_ok s v -> own_upload s h key u -> part_ok published chunk_size h key number chunk ->
  (number <= _MAX_EVIDENCE_PARTS)%Z -> keys_fit prior -> L (fun _ m _ => keys_fit m /\ is_Some (m !! number)) s v (part_attempts self more key u number chunk prior).
Proof.
  intros Hv Hu Hp Hn Hprior. revert s v Hv Hu.
  assert (keys_fit (<[number := ""]> prior)) as Hfit0.
  { intros n Hsome. destruct (decide (n = number)) as [->|]; [destruct Hp as (? & _ & ? & _); lia |]. rewrite lookup_insert_ne in Hsome by done. by apply Hprior. }
  assert (forall etag, keys_fit (<[number := etag]> prior)) as Hfit.
  { intros etag n [e He]. apply Hfit0. destruct (decide (n = number)) as [->|]; [rewrite lookup_insert_eq | rewrite lookup_insert_ne in He |- * by done]; by eexists. }
  induction more as [|more IH]; intros s v Hv Hu; cbn [part_attempts]; apply L_catching.
  1, 3: eapply (L_bind _ (fun _ _ v' => v' = v));
    [ apply L_lifted; [done |]; eapply W_mono; [apply W_quiet | done]; intros s1 He1; split; [by eapply own_upload_later | done]
    | intros s1 etag v1 He1 Hv1 ->; eapply (L_bind _ (fun _ _ v' => v' = v)); [apply L_if; intros _; [by apply L_fail | by apply L_ret] |];
      intros s2 ? v2 He2 Hv2 ->; cbv zeta; eapply L_bind; [apply L_assign, vars_parts; [done | by apply sorted_parts_fit] |];
      intros s3 ? v3 He3 Hv3 ->; eapply L_bind; [by apply L_save |]; intros s4 ? v4 He4 Hv4 ->; apply L_ret; [done |];
      intros s5 He5; split; [apply Hfit | rewrite lookup_insert_eq; by eexists] ].
  all: intros e s1 v1 He1 Hv1; apply L_if; intros _; [|by apply L_fail]; apply L_if; intros _;
    [ eapply L_bind; [by apply L_expired |]; intros s2 ? v2 He2 Hv2 _; by apply (L_fail_read _ _ _ (R2EvidenceRetryable "multipart-expired" false)) |];
    eapply L_bind; [by apply L_assign |]; intros s2 ? v2 He2 Hv2 ->;
    eapply L_bind; [by apply L_read |]; intros s3 n v3 He3 Hv3 [-> ->]; apply L_if; intros _; [by apply L_fail |].
  - by apply L_fail.
  - apply IH; [done |]. eapply own_upload_later; [|exact Hu]. evolve.
Qed.

Lemma total_length_cons c cs : total_length (c :: cs) = (Z.of_nat (py_len c) + total_length cs)%Z.
Proof. unfold total_length. rewrite py_join_cons, py_len_app. lia. Qed.
Lemma numbered_snoc (sent : list part) n e : sent.*1 = seqZ 1 (Z.of_nat (length sent)) -> n = (1 + Z.of_nat (length sent))%Z ->
  (sent ++ [(n, e)]).*1 = seqZ 1 (Z.of_nat (length (sent ++ [(n, e)]))).
Proof.
  intros Hs ->. rewrite fmap_app, Hs, length_app. cbn [length fmap list_fmap fst].
  by rewrite Nat.add_1_r, seqZ_S.
Qed.
Lemma L_send s v u cs before number observed prior sent : vars_ok s v -> own_upload s h key u ->
  chunks (chunk_size h) content = before ++ cs -> length sent = length before -> number = (1 + Z.of_nat (length sent))%Z ->
  sent.*1 = seqZ 1 (Z.of_nat (length sent)) -> numbers_fit sent -> keys_fit prior ->
  L (fun _ o _ => o.2.*1 = seqZ 1 (Z.of_nat (length o.2)) /\ length o.2 = length (chunks (chunk_size h) content) /\ numbers_fit o.2
       /\ o.1 = (observed + total_length cs)%Z) s v (send_parts self key u cs number observed prior sent).
Proof.
  revert s v before number observed prior sent. induction cs as [|c cs IH]; intros s v before number observed prior sent Hv Hu Hch Hl Hn Hs Hf Hp; cbn [send_parts].
  - apply L_ret; [done |]. intros s' He. simpl. rewrite Hch, length_app. simpl. split; [done |]. split; [lia |]. split; [done |]. unfold total_length. simpl. lia.
  - cbv zeta. eapply (L_bind _ (fun _ _ v' => v' = v /\ (number <= _MAX_EVIDENCE_PARTS)%Z)).
    { apply L_if; intros Hb; bools; [by apply L_fail | by apply L_ret]. }
    intros s1 ? v1 He1 Hv1 [-> Hmax]. assert (own_upload s1 h key u) as Hu1 by (by eapply own_upload_later).
    eapply (L_bind _ (fun _ m _ => keys_fit m)).
    { destruct (prior !! number) eqn:E; [by apply L_ret |]. eapply L_bind; [by apply L_read |]. intros s2 n v2 He2 Hv2 [-> ->].
      eapply lwp_mono; [apply L_part; try done | by intros ? ? ? ? ? [? _]].
      - eapply own_upload_later; [|exact Hu1]. evolve.
      - exists content. split; [done |]. split; [lia |]. rewrite Hch, lookup_app_r by lia.
        replace (Z.to_nat (number - 1) - length before) with 0 by lia. done. }
    intros s2 m v2 He2 Hv2 Hm. eapply lwp_mono; [eapply (IH _ _ (before ++ [c])) |].
    + done.
    + eapply own_upload_later; [|exact Hu1]. evolve.
    + by rewrite <- app_assoc.
    + rewrite !length_app. simpl. lia.
    + rewrite length_app. simpl. lia.
    + by apply numbered_snoc.
    + apply Forall_app. split; [done |]. apply Forall_singleton. simpl. lia.
    + done.
    + intros s3 o v3 He3 Hv3 (H1 & H2 & H3 & H4). split; [done |]. split; [done |]. split; [done |]. rewrite total_length_cons. lia.
Qed.

(** ** Completion *)
Lemma L_settled s v size : vars_ok s v -> L (fun s' b _ => b = true -> stored s' key d size) s v (settled self key d size).
Proof.
  intros Hv. apply L_catching; [apply L_lifted; [done |]; apply W_verify_or_absent; by eapply key_reserved |].
  intros e s1 v1 He1 Hv1. apply L_if; intros _; [|by apply L_fail].
  eapply (L_bind _ (fun _ _ _ => True)); [eapply lwp_mono; [by apply L_assign | done] |]. intros s2 ? v2 He2 Hv2 _.
  eapply (L_bind _ (fun _ _ _ => True)); [apply L_lifted; [done | apply W_clear] |]. intros s3 ? v3 He3 Hv3 _. by apply L_fail.
Qed.
Lemma L_finished s v size sent how : vars_ok s v -> stored s key d size -> L (fun s' r _ => receipt_for s' key d r) s v (finished self key d size sent how).
Proof.
  intros Hv Hst. eapply (L_bind _ (fun _ _ _ => True)); [eapply lwp_mono; [by apply L_assign | done] |]. intros s1 ? v1 He1 Hv1 _.
  eapply (L_bind _ (fun _ _ _ => True)); [apply L_lifted; [done | apply W_clear] |]. intros s2 ? v2 He2 Hv2 _.
  eapply L_bind; [by apply L_read |]. intros s3 n v3 He3 Hv3 _. apply L_ret; [done |]. intros s4 He4. apply receipt_ok.
  eapply stored_later; [by eapply key_reserved | | exact Hst]. evolve.
Qed.
Lemma L_ambiguous {A} (Q : shared -> A -> locals -> Prop) s v : vars_ok s v -> L Q s v ambiguous.
Proof.
  intros Hv. eapply (L_bind _ (fun _ _ _ => True)); [eapply lwp_mono; [by apply L_assign | done] |]. intros s1 ? v1 He1 Hv1 _.
  by apply (L_fail_read _ _ _ R2EvidenceAmbiguous).
Qed.
Lemma L_complete s v more u size sent : vars_ok s v -> own_upload s h key u -> complete_ok published chunk_size h key sent ->
  L (fun s' r _ => receipt_for s' key d r) s v (complete_attempts self more key u d size sent).
Proof.
  intros Hv Hu Hsent. revert s v Hv Hu.
  assert (forall s v how sent', vars_ok s v -> L (fun s' r _ => receipt_for s' key d r) s v
    (there ← settled self key d size; if there : bool then finished self key d size sent' how else ambiguous)) as Hsettle.
  { intros s v how sent' Hv. eapply L_bind; [by apply L_settled |]. intros s1 b v1 He1 Hv1 Hb.
    apply L_if; intros Hb'; [apply L_finished; auto | by apply L_ambiguous]. }
  induction more as [|more IH]; intros s v Hv Hu; cbn [complete_attempts].
  all: eapply (L_catching_else _ (fun _ _ _ => True));
    [ apply L_lifted; [done |]; apply W_quiet; intros s1 He1; split; [by eapply own_upload_later | done]
    | intros s1 ? v1 He1 Hv1 _; by apply Hsettle
    | intros e s1 v1 He1 Hv1; apply L_if; intros _; [by apply L_fail |]; apply L_if; intros _;
      [ eapply L_bind; [by apply L_expired |]; intros s2 ? v2 He2 Hv2 _;
        eapply L_bind; [apply (L_assign _ _ (set_open None)); destruct Hv2 as (? & ? & ? & _); (split; [done | split; [done | split; [done | intros ? E; discriminate E]]]) |]; intros s3 ? v3 He3 Hv3 ->;
        by apply (L_fail_read _ _ _ (R2EvidenceRetryable "multipart-expired" false)) |];
      apply L_if; intros _; [by apply (L_fail_read _ _ _ (fun n => _map_evidence_error e n false)) |];
      eapply L_bind; [by apply L_assign |]; intros s2 ? v2 He2 Hv2 ->;
      eapply L_bind; [by apply L_settled |]; intros s3 b v3 He3 Hv3 Hb; apply L_if; intros Hb'; [apply L_finished; auto |] ].
  - cbv zeta. apply L_if; intros _; [by apply (L_fail_read _ _ _ (fun n => _map_evidence_error e n false)) | by apply L_ambiguous].
  - apply IH; [done |]. eapply own_upload_later; [|exact Hu]. evolve.
Qed.

(** ** The whole upload *)
Lemma L_upload s v size : vars_ok s v -> size = Z.of_nat (py_len content) ->
  L (fun s' r _ => receipt_for s' key d r) s v (run_upload self key content d size).
Proof.
  intros Hv Hsize. eapply L_bind; [by apply L_read |]. intros s1 u v1 He1 Hv1 [-> ->].
  eapply (L_bind _ (fun _ _ _ => True)).
  { destruct (open_upload v); [by apply L_ret |].
    eapply L_bind; [by apply (L_assign _ _ (set_state (with_stage Claimed))), vars_stage |]. intros s2 ? v2 He2 Hv2 ->.
    eapply L_bind; [by apply L_save |]. intros s3 ? v3 He3 Hv3 ->. by apply L_create. }
  intros s2 ? v2 He2 Hv2 _. eapply L_bind; [by apply L_read |]. intros s3 u v3 He3 Hv3 [-> ->].
  destruct (open_upload v2) as [u|] eqn:Eu; [|by apply (L_fail_read _ _ _ (R2EvidenceRetryable "retry-exhausted" false))].
  assert (own_upload s3 h key u) as Hu by (by apply Hv3).
  eapply L_bind; [by apply L_read |]. intros s4 st v4 He4 Hv4 [-> ->].
  eapply L_bind.
  { eapply (L_send _ _ _ _ []); [done | by eapply own_upload_later | by rewrite same_chunks | done | done | done | by apply Forall_nil_2 |].
    intros n [e He]. destruct Hv4 as (((_ & Hfit) & _) & _). unfold numbers_fit in Hfit. rewrite Forall_forall in Hfit.
    apply (Hfit (n, e)). by apply elem_of_list_to_map_2. }
  intros s5 [observed sent] v5 He5 Hv5 (Hnum & Hlen & Hfit & Hobs). simpl in *.
  eapply L_bind; [by apply L_read |]. intros s6 n v6 He6 Hv6 [-> ->].
  eapply (L_bind _ (fun _ _ v' => v' = v5 /\ observed = size)).
  { apply L_if; intros Hb; bools; [by apply L_fail |]. apply Z.eqb_eq in Hb. by apply L_ret. }
  intros s7 ? v7 He7 Hv7 [-> Hobs'].
  eapply L_bind; [by apply L_assign, vars_parts |]. intros s8 ? v8 He8 Hv8 ->.
  eapply L_bind; [by apply L_save |]. intros s9 ? v9 He9 Hv9 ->. apply L_complete; [done | |].
  - eapply own_upload_later; [|exact Hu]. evolve.
  - exists content. split; [done |]. split; [done |]. split; [done |]. apply chunks_join. rewrite same_chunks in *. lia.
Qed.
Lemma L_abandon s v : vars_ok s v -> L (fun _ _ _ => True) s v (abandon self key).
Proof.
  intros Hv. eapply L_bind; [by apply L_read |]. intros s1 u v1 He1 Hv1 [-> ->]. eapply L_bind; [by apply L_read |]. intros s2 c v2 He2 Hv2 [-> ->].
  apply L_if; intros _; [by apply L_ret |]. eapply L_bind; [by apply L_read |]. intros s3 n v3 He3 Hv3 [-> ->]. by apply L_reset.
Qed.
Lemma L_preserving s v : vars_ok s v -> L (fun _ _ v' => v' = v) s v (preserving self).
Proof.
  intros Hv. eapply L_bind; [by apply L_read |]. intros s1 p v1 He1 Hv1 [-> ->]. apply L_if; intros _; [by apply L_save | by apply L_ret].
Qed.
Lemma L_handled s v size : vars_ok s v -> size = Z.of_nat (py_len content) ->
  L (fun s' r _ => receipt_for s' key d r) s v (upload_handled self key content d size).
Proof.
  intros Hv Hsize. apply L_catching; [by apply L_upload |]. intros e s1 v1 He1 Hv1.
  eapply L_bind; [by apply L_read |]. intros s2 n v2 He2 Hv2 [-> ->].
  assert (forall s v (A : Type) (Q : shared -> A -> locals -> Prop) e', vars_ok s v -> L Q s v (abandon self key ;; fail e')) as Hgive.
  { intros s3 v3 A Q e' Hv3. eapply L_bind; [by apply L_abandon |]. intros s4 ? v4 He4 Hv4 _. by apply L_fail. }
  apply L_if; intros _; [|repeat (apply L_if; intros _; [by apply Hgive |]); by apply L_fail].
  eapply L_bind; [by apply (L_assign _ _ set_preserve) |]. intros s3 ? v3 He3 Hv3 ->. by apply L_fail.
Qed.
Lemma receipt_later s s' r : evolves s s' -> receipt_for s key d r -> receipt_for s' key d r.
Proof. intros He (Hk & Hd & Hs). split; [done |]. split; [done |]. eapply stored_later; [by eapply key_reserved | done | done]. Qed.
Lemma L_preserved s v size : vars_ok s v -> size = Z.of_nat (py_len content) ->
  L (fun s' r _ => receipt_for s' key d r) s v (upload_preserved self key content d size).
Proof.
  intros Hv Hsize. eapply L_catching_else; [by apply L_handled | |].
  - intros s1 r v1 He1 Hv1 Hr. eapply L_bind; [by apply L_preserving |]. intros s2 ? v2 He2 Hv2 ->. apply L_ret; [done |].
    intros s3 He3. eapply receipt_later; [|exact Hr]. evolve.
  - intros e s1 v1 He1 Hv1. eapply L_bind; [by apply L_preserving |]. intros s2 ? v2 He2 Hv2 ->. by apply L_fail.
Qed.
Lemma W_multipart s size : (0 <= size < 2 ^ 63)%Z -> size = Z.of_nat (py_len content) ->
  W (fun s' r => receipt_for s' key d r) s (_put_evidence_multipart self key content size d).
Proof.
  intros Hrange Hsize. eapply W_bind; [apply W_or_unavailable; by apply W_quiet |]. intros s1 ? He1 _.
  eapply W_bind; [apply W_or_unavailable; by apply W_quiet |]. intros s2 ? He2 _.
  apply wp_finally; [| intros s3 He3; by apply W_quiet].
  eapply (W_bind _ (fun s' b => b = true -> stored s' key d size)).
  - apply W_try.
    + eapply W_bind; [apply W_verify_or_absent; by eapply key_reserved |]. intros s3 b He3 Hb. cbv beta in Hb.
      eapply (W_bind _ (fun _ _ => True)); [apply W_if; intros _; [apply W_clear | by apply W_ret] |]. intros s4 ? He4 _.
      apply W_ret. intros s5 He5 Hb'. eapply stored_later; [by eapply key_reserved | | by apply Hb]. evolve.
    + intros e s3 He3. apply W_if; intros _; [|apply W_throw]. eapply W_bind; [apply W_clear |]. intros s4 ? He4 _. apply W_throw.
  - intros s3 b He3 Hb. cbv beta in Hb. apply W_if; intros Hb'.
    + apply W_ret. intros s4 He4. apply receipt_ok. eapply stored_later; [by eapply key_reserved | done | by apply Hb].
    + eapply (W_bind _ (fun s' st => state_ok s' h st /\ state_key st = key /\ claimed s' h key)).
      * apply W_try; [apply W_claim; [done | apply Hcontent] | intros e s4 He4; apply W_throw].
      * intros s4 st He4 (Hok & Hk & Hc). apply (wp_scoped K vars_ok). apply L_preserved; [|done].
        split; [done |]. split; [done |]. split; [done |]. intros u Hu. simpl in Hu. rewrite <- Hk. by apply Hok.
Qed.
End multipart.

(** ** Publication *)
Lemma W_put s key content size : belongs key content -> size = Z.of_nat (py_len content) ->
  W (fun s' r => receipt_for s' key (sha256 content) r) s (_put_evidence self key content size (sha256 content)).
Proof.
  intros Hc Hsize. eapply W_bind; [apply W_throw_if |]. intros s1 ? He1 Hb. cbv beta in Hb. bools.
  eapply (W_bind _ (fun _ _ => True)).
  { apply W_if; intros _; (eapply W_bind; [apply W_pure |]; intros s2 ? He2 _; eapply W_true, W_throw_if). }
  intros s2 ? He2 _. apply W_if; intros _; [by apply W_single | apply W_multipart; [done | lia | done]].
Qed.

(** A receipt is true: the object of its key has its digest and its length. *)
Definition receipt_true (s : shared) (r : R2EvidenceReceipt) : Prop :=
  names (receipt_key r) (receipt_digest r) /\ stored s (receipt_key r) (receipt_digest r) (receipt_bytes r).
Lemma receipt_true_later s s' r : evolves s s' -> receipt_true s r -> receipt_true s' r.
Proof. intros He [Hn Hs]. split; [done |]. eapply stored_later; [by eapply names_reserved | done | done]. Qed.
Lemma receipt_for_true s key d r : names key d -> receipt_for s key d r -> receipt_true s r.
Proof. intros Hn (Hk & Hd & Hs). unfold receipt_true. by rewrite Hk, Hd. Qed.
(** A receipt under the object or the index key of its digest. *)
Definition object_receipt (s : shared) (r : R2EvidenceReceipt) : Prop := receipt_true s r /\ evidence_object_key (receipt_digest r) = Ok (receipt_key r).
Definition index_receipt (s : shared) (r : R2EvidenceReceipt) : Prop := receipt_true s r /\ evidence_index_key (receipt_digest r) = Ok (receipt_key r).

Lemma W_put_object s key content size d : published content -> sha256 content = d -> evidence_object_key d = Ok key -> size = Z.of_nat (py_len content) ->
  W object_receipt s (_put_evidence self key content size d).
Proof.
  intros Hp <- Hk Hsize. eapply W_mono; [apply W_put; [split; [done | by left] | done] |]. intros s' r He (Hrk & Hrd & Hs).
  split; [eapply receipt_for_true; [by left | done] | by rewrite Hrk, Hrd].
Qed.
Lemma W_put_index s key content size : published content -> evidence_index_key (sha256 content) = Ok key -> size = Z.of_nat (py_len content) ->
  W index_receipt s (_put_evidence self key content size (sha256 content)).
Proof.
  intros Hp Hk Hsize. eapply W_mono; [apply W_put; [split; [done | by right] | done] |]. intros s' r He (Hrk & Hrd & Hs).
  split; [eapply receipt_for_true; [by right | done] | by rewrite Hrk, Hrd].
Qed.
Lemma W_snapshot s path : W (fun _ o => published o.1.1 /\ o.1.2 = Z.of_nat (py_len o.1.1) /\ o.2 = sha256 o.1.1) s (_snapshot_evidence_file path).
Proof.
  eapply (W_bind _ (fun _ content => published content)).
  - apply W_or_unavailable, W_learn; [done |]. by intros s' content s'' _ _ _ [_ ?] _ _.
  - intros s' content He Hp. by apply W_ret.
Qed.
Lemma W_put_file s path : W object_receipt s (put_evidence_file self path).
Proof.
  eapply W_bind; [apply W_snapshot |]. intros s1 [[content size] digest] He1 (Hp & Hz & Hd); simpl in Hp, Hz, Hd; subst size digest.
  eapply W_bind; [apply W_pure |]. intros s2 key He2 Hk. by apply W_put_object.
Qed.
Lemma W_put_index_file s path : W index_receipt s (put_evidence_index_file self path).
Proof.
  eapply W_bind; [apply W_snapshot |]. intros s1 [[content size] digest] He1 (Hp & Hz & Hd); simpl in Hp, Hz, Hd; subst size digest.
  eapply W_bind; [apply W_pure |]. intros s2 key He2 Hk. by apply W_put_index.
Qed.
Lemma W_put_index_bytes s ciphertext : published ciphertext -> W index_receipt s (put_evidence_index_bytes self ciphertext).
Proof. intros Hp. eapply W_bind; [apply W_pure |]. intros s1 key He1 Hk. by apply W_put_index. Qed.
Lemma W_put_stream s content size digest : published content -> W object_receipt s (put_evidence_stream self content size digest).
Proof.
  intros Hp. eapply W_bind; [apply W_throw_if |]. intros s1 ? He1 _. eapply W_bind; [apply W_throw_if |]. intros s2 ? He2 _.
  eapply W_bind; [apply W_checked |]. intros s3 [total observed] He3 Hr. cbv beta in Hr. apply read_all_inv in Hr as [Ht Ho].
  unfold total_length in Ht. rewrite chunks_whole in Ht, Ho by (unfold read_size; rewrite same_chunks; lia). change ("" +:+ content) with content in Ho. subst observed.
  eapply W_bind; [apply W_throw_if |]. intros s4 ? He4 Hb. cbv beta in Hb. bools. change ("" +:+ content) with content in *. match goal with H : (_ =? _)%Z = true |- _ => apply Z.eqb_eq in H end.
  eapply W_bind; [apply W_pure |]. intros s5 key He5 Hk. apply W_put_object; [done | done | done | lia].
Qed.

(** ** The outbox *)
Lemma W_or_refuse {A} s (r : result A) : W (fun _ a => r = Ok a) s (or_refuse r).
Proof. destruct r; [by apply W_ret |]. simpl. case_match; apply W_throw. Qed.
Lemma verified_receipt s key d n ps : names key d -> stored s key d n -> receipt_true s (verified key d n ps).
Proof. done. Qed.
Lemma W_publish_indexed s id own queued source : (forall c, source = Some (IndexBytes c) -> published c) ->
  W index_receipt s (publish_indexed self id own queued source).
Proof.
  intros Hsrc. unfold publish_indexed. destruct (index_id queued) as [i|]; [|apply W_throw].
  eapply W_bind; [apply W_or_refuse |]. intros s1 key He1 Hk. cbv beta in Hk.
  eapply W_try_else; [apply W_verify; right; exists i; by right | |].
  - intros s2 n He2 [Hs _]. apply W_ret. intros s3 He3. split; [|done]. apply verified_receipt; [by right |].
    eapply stored_later; [right; exists i; by right | done | done].
  - intros e s2 He2. apply W_if; intros _; [|apply W_throw]. destruct source as [source|]; [|apply W_throw].
    eapply (W_bind _ (fun _ _ => True)).
    { destruct source; [by apply W_ret |]. eapply W_bind; [by apply W_quiet |]. intros s3 ? He3 _. by apply W_ret. }
    intros s3 dg He3 _. eapply (W_bind _ (fun _ _ => True)); [apply W_if; intros _; [apply W_throw | by apply W_ret] |]. intros s4 ? He4 _.
    eapply (W_bind _ index_receipt); [destruct source; [apply W_put_index_bytes; eauto | apply W_put_index_file] |]. intros s5 r He5 Hr.
    eapply (W_bind _ (fun _ _ => True)); [apply W_if; intros _; [apply W_throw | by apply W_ret] |]. intros s6 ? He6 _.
    assert (forall s', evolves s5 s' -> index_receipt s' r) as Hlater by (intros s' He; destruct Hr; split; [by eapply receipt_true_later | done]).
    eapply W_bind; [apply W_quiet |].
    + intros s7 He7. destruct (Hlater s7) as [[Hn (b & Hb & _)] Hi]; [evolve |]. exists (receipt_key r). split; [done | by exists b].
    + intros s7 ? He7 _. apply W_ret. intros s8 He8. apply Hlater. evolve.
Qed.
(** What a publication says. *)
Definition publication_true (s : shared) (p : R2EvidencePublication) : Prop :=
  object_receipt s (evidence p) /\ (forall i, index p = Some i -> index_receipt s i) /\ (was_committed p = true -> index p <> None).
Lemma W_publish_committed s key d size queued : evidence_object_key d = Ok key ->
  W publication_true s (publish_committed self key d size queued).
Proof.
  intros Hk. unfold publish_committed. destruct (index_id queued) as [i|]; [|apply W_throw].
  eapply W_bind; [apply W_or_refuse |]. intros s1 ik He1 Hik. cbv beta in Hik.
  eapply (W_bind _ (fun s' n => stored s' key d size /\ stored s' ik i n)).
  - apply W_try; [|intros e s2 He2; apply W_throw].
    eapply W_bind; [apply W_verify; right; exists d; by left |]. intros s2 n He2 [Hs Hn]. rewrite (Hn size) in Hs by done.
    eapply W_mono; [apply W_verify; right; exists i; by right |]. intros s3 m He3 [Hm _]. split; [|done].
    eapply stored_later; [right; exists d; by left | done | done].
  - intros s2 n He2 [Hs Hn]. apply W_ret. intros s3 He3. split; [|split; [|done]].
    + split; [|done]. apply verified_receipt; [by left |]. eapply stored_later; [right; exists d; by left | done | done].
    + intros r [= <-]. split; [|done]. apply verified_receipt; [by right |]. eapply stored_later; [right; exists i; by right | done | done].
Qed.
Lemma object_receipt_later s s' r : evolves s s' -> object_receipt s r -> object_receipt s' r.
Proof. intros He [Hr Hk]. split; [by eapply receipt_true_later | done]. Qed.
Lemma index_receipt_later s s' r : evolves s s' -> index_receipt s r -> index_receipt s' r.
Proof. intros He [Hr Hk]. split; [by eapply receipt_true_later | done]. Qed.

Lemma W_publish_owned s id own key queued source : (forall c, source = Some (IndexBytes c) -> published c) ->
  W publication_true s (publish_owned self id own key queued source).
Proof.
  intros Hsrc. eapply (W_bind _ (fun _ _ => True)); [apply W_if; intros _; [apply W_throw | by apply W_ret] |]. intros s1 ? He1 _.
  eapply (W_bind _ (fun _ p => forall r, p = Some (Inline r) -> published (pr_ciphertext r))).
  { apply W_learn; [done |]. intros s2 p s3 _ _ _ [_ Hp] s4 _ r ->. exact Hp. }
  intros s2 [p|] He2 Hp; [|apply W_throw].
  eapply (W_bind _ object_receipt); [destruct p; [apply W_put_stream; auto | apply W_put_file] |]. intros s3 r He3 Hr.
  eapply (W_bind _ (fun _ _ => True)); [apply W_if; intros _; [apply W_throw | by apply W_ret] |]. intros s4 ? He4 _. cbv zeta.
  assert (forall s', evolves s3 s' -> object_receipt s' r) as Hlater by (intros s' He; by eapply object_receipt_later).
  eapply (W_bind _ (fun _ _ => True)).
  { apply W_if; intros _; [by apply W_ret |]. eapply W_bind; [apply W_quiet | intros s5 ? He5 _; by apply W_ret].
    intros s5 He5. destruct (Hlater s5) as [[Hn (b & Hb & _)] _]; [evolve |]. split; [by eexists | by exists b]. }
  intros s5 ? He5 _. apply W_if; intros _.
  - eapply W_bind; [by apply W_publish_indexed |]. intros s6 i He6 Hi. eapply W_bind; [by apply W_quiet |]. intros s7 ? He7 _.
    apply W_ret. intros s8 He8. split; [apply Hlater; evolve |]. split; [|done]. intros i' [= <-]. eapply index_receipt_later; [|exact Hi]. evolve.
  - destruct source as [source|]; [|apply W_ret; intros s6 He6; split; [apply (Hlater s6); evolve | done]].
    eapply (W_bind _ index_receipt); [destruct source; [apply W_put_index_bytes; eauto | apply W_put_index_file] |]. intros s6 i He6 Hi.
    assert (forall s', evolves s6 s' -> index_receipt s' i) as Hi' by (intros s' He; by eapply index_receipt_later).
    eapply W_bind; [apply W_quiet |].
    { intros s7 He7. destruct (Hi' s7 He7) as [[Hn (b & Hb & _)] Hk]. exists (receipt_key i). split; [done | by exists b]. }
    intros s7 ? He7 _. eapply W_bind; [by apply W_quiet |]. intros s8 ? He8 _.
    apply W_ret. intros s9 He9. split; [apply Hlater; evolve |]. split; [|done]. intros i' [= <-]. apply Hi'. evolve.
Qed.
Lemma W_publish s id own source : (forall c, source = Some (IndexBytes c) -> published c) ->
  W publication_true s (publish_outbox_evidence self id own source).
Proof.
  intros Hsrc. eapply W_bind; [by apply W_quiet |]. intros s1 ? He1 _.
  eapply (W_bind _ (fun _ _ => True)); [apply W_try; [by apply W_quiet | intros e s2 He2; apply W_throw] |]. intros s2 [queued|] He2 _; [|apply W_throw].
  eapply (W_bind _ (fun _ _ => True)).
  { unfold object_identity. destruct (object_key queued); [|by apply W_ret]. eapply W_bind; [apply W_or_refuse |]. intros s3 ? He3 _.
    apply W_if; intros _; [by apply W_ret | apply W_throw]. }
  intros s3 ? He3 _. destruct (ciphertext_sha256 queued) as [d|]; [|apply W_throw]. destruct (ciphertext_size queued) as [size|]; [|apply W_throw].
  eapply W_bind; [apply W_pure |]. intros s4 key He4 Hk. apply W_if; intros _; [by apply W_publish_committed | by apply W_publish_owned].
Qed.

(** ** Reading and listing *)
Lemma W_get_bytes s key n : W (fun s' body => exists d, names key d /\ objects s' !! key = Some body /\ sha256 body = d) s (get_evidence_bytes self key n).
Proof.
  eapply W_bind; [apply W_pure |]. intros s1 d He1 Hd. cbv beta in Hd. apply validated_object_key in Hd.
  assert (names key d) as Hn by by left.
  eapply (W_bind _ (fun _ _ => True)).
  { apply W_try; [|intros e s2 He2; apply W_throw]. eapply W_bind; [apply W_try; [apply W_head; by eapply names_reserved | intros; apply W_throw] |].
    intros s2 m He2 _. cbv zeta. eapply W_bind; [apply W_throw_if |]. intros s3 ? He3 _. by apply W_ret. }
  intros s2 ? He2 _. eapply W_bind; [apply W_throw_if |]. intros s3 ? He3 _.
  eapply W_mono; [apply W_read_body; by eapply names_reserved |]. intros s4 body He4 Hb. by exists d.
Qed.
Lemma W_get_index_bytes s key n : W (fun s' body => exists d, names key d /\ objects s' !! key = Some body /\ sha256 body = d) s (get_evidence_index_bytes self key n).
Proof.
  eapply W_bind; [apply W_pure |]. intros s1 d He1 Hd. cbv beta in Hd. apply validated_index_key in Hd.
  assert (names key d) as Hn by by right.
  eapply W_bind; [apply W_throw_if |]. intros s2 ? He2 _.
  eapply (W_bind _ (fun _ _ => True)).
  { apply W_try; [|intros e s3 He3; apply W_throw]. eapply W_bind; [apply W_try; [apply W_head; by eapply names_reserved | intros; apply W_throw] |].
    intros s3 m He3 _. cbv zeta. eapply W_bind; [apply W_throw_if |]. intros s4 ? He4 _. by apply W_ret. }
  intros s3 ? He3 _. eapply W_mono; [apply W_read_body; by eapply names_reserved |]. intros s4 body He4 Hb. by exists d.
Qed.
Lemma W_discover_pages s pages events size token seen truncated found : W (fun _ _ => True) s (discover_pages self pages events size token seen truncated found).
Proof.
  revert s token seen truncated found. induction pages as [|pages IH]; intros s token seen truncated found; cbn [discover_pages]; [by apply W_ret |].
  eapply (W_bind _ (fun _ _ => True)); [apply W_try; [by apply W_quiet | intros e s1 He1; apply W_throw] |]. intros s1 r He1 _. cbv zeta.
  apply W_if; intros _; [by apply W_ret |]. destruct (next_token r); try (by apply W_ret). apply W_if; intros _; [by apply W_ret | apply IH].
Qed.
Lemma W_discover s events size pages : W (fun _ _ => True) s (discover_evidence_indexes self events size pages).
Proof.
  eapply W_bind; [apply W_throw_if |]. intros s1 ? He1 _. eapply W_bind; [apply W_throw_if |]. intros s2 ? He2 _. eapply W_bind; [apply W_throw_if |]. intros s3 ? He3 _.
  eapply W_bind; [apply W_discover_pages |]. intros s4 [found incomplete] He4 _. eapply W_bind; [apply W_throw_if |]. intros s5 ? He5 _. by apply W_ret.
Qed.

(** ** Tasks *)
(** What the result of a task says of the bucket. *)
Definition outcome_true (s : shared) (o : outcome) : Prop :=
  match o with
  | Stored r => receipt_true s r
  | Publication p => publication_true s p
  | Fetched key body => exists d, names key d /\ objects s !! key = Some body /\ sha256 body = d
  | Found _ => True
  end.
Lemma W_task s t : task_ok published t -> W outcome_true s (task_program self t).
Proof.
  assert (forall A (Q : shared -> A -> Prop) (f : A -> outcome) (m : program A), W Q s m -> (forall s' a, Q s' a -> outcome_true s' (f a)) ->
    W outcome_true s (a ← m; mret (f a))) as Hmap.
  { intros A Q f m Hm HQ. eapply W_bind; [apply wp_stable; [exact Hm] |]. intros s' a He Hs. apply W_ret. intros s'' He'. by apply HQ, Hs. }
  destruct t as [path|content size d|path|c|id own source|key n|key n|events size pages]; cbn [task_program task_ok]; intros Ht.
  - eapply Hmap; [apply W_put_file | by intros s' r [? _]].
  - eapply Hmap; [by apply W_put_stream | by intros s' r [? _]].
  - eapply Hmap; [apply W_put_index_file | by intros s' r [? _]].
  - eapply Hmap; [by apply W_put_index_bytes | by intros s' r [? _]].
  - eapply Hmap; [apply W_publish; by intros c -> | done].
  - eapply Hmap; [apply W_get_bytes | done].
  - eapply Hmap; [apply W_get_index_bytes | done].
  - eapply Hmap; [apply W_discover | done].
Qed.
End programs.

Section systems.
Context `{PyRuntime, JsonRuntime}.
Variable envs : nat -> Env.
Variable cfg : config.
Variable published : string -> Prop.
Variable chunk_size : nat -> Z.

(** What the theorems assume: the quotas and the leases of the outboxes are configured,
    digests are hexadecimal, no two ciphertexts there are have the same digest, and the
    reader of JSON takes three levels of nesting. *)
Record setting : Prop := {
  set_config : config_ok cfg;
  set_leases : forall h, @leases_ok (envs h) cfg;
  set_hex : forall s, fullmatch OutboxData._DIGEST (sha256 s) = true;
  set_digests : forall c c', published c -> published c' -> sha256 c = sha256 c' -> c = c';
  set_depth : 3 <= json_depth;
}.
Abbreviation steps := (rtc (system_step envs cfg published chunk_size)).
(** The systems that clients lead to from a bucket without evidence. *)
Definition arises (y : system) : Prop := exists y0, pristine y0 /\ steps y0 y.
Definition sound (y : system) : Prop :=
  good cfg published chunk_size (installation y)
  /\ Forall (runs_well envs cfg published chunk_size (fun _ => outcome_true) (installation y)) (clients y).

Lemma pristine_sound y : pristine y -> sound y.
Proof.
  intros (Ho & Hu & Hl & Hs & Hc & Hq). split; [|by rewrite Hc]. split.
  - intros key body Hb. split.
    + intros d Hd. rewrite Ho in Hb by (right; by exists d). done.
    + intros Hp. rewrite Ho in Hb by by left. done.
  - intros id u. by rewrite Hu, lookup_empty.
  - intros h name text. by rewrite Hs, lookup_empty.
  - intros h r. by rewrite Hl, elem_of_nil.
  - intros h. exists ∅. split; [|split; [|by intros name r; rewrite lookup_empty]].
    + split; [intros; by rewrite lookup_empty, Hq | by intros name [? ?] | done].
    + split; by intros *; rewrite lookup_empty.
Qed.

Hypothesis Hset : setting.
Lemma step_sound y y' : sound y -> system_step envs cfg published chunk_size y y' -> sound y' /\ evolves (installation y) (installation y').
Proof.
  destruct Hset. intros [Hg Hc] Hs.
  edestruct (step_good envs cfg published chunk_size) as (Hg' & He & Hc'); [done.. | | exact Hs |]; [|done].
  intros h self t s Ht Hch Hpos Hmax. by apply W_task.
Qed.
Lemma steps_sound y y' : sound y -> steps y y' -> sound y' /\ evolves (installation y) (installation y').
Proof.
  intros Hy Hs. revert Hy. induction Hs as [y|y y1 y2 Hs _ IH]; intros Hy; [done |].
  destruct (step_sound _ _ Hy Hs) as [H1 He1]. destruct (IH H1) as [H2 He2]. split; [done |]. by etrans.
Qed.
Lemma arises_sound y : arises y -> sound y.
Proof. intros (y0 & Hp & Hs). eapply steps_sound; [by apply pristine_sound | done]. Qed.
End systems.
(** ** Publication that nothing disturbs *)
Section undisturbed.
Context `{PyRuntime, JsonRuntime}.
Variable envs : nat -> Env.
Variable published : string -> Prop.
Variable h : nat.
Variable self : R2Backend.
Hypothesis positive : (0 < multipart_chunk_size self)%Z.
Abbreviation T := (sure (E:=raised) (undisturbed envs published h)).

Lemma T_head {A} (Q : shared -> A + raised -> Prop) s key next :
  (forall body, objects s !! key = Some body -> T Q s (next (inl (Some (Z.of_nat (py_len body)))))) ->
  (forall e, objects s !! key = None -> is_client e = true -> _not_found e = true -> T Q s (next (inr e))) -> T Q s (Call (HeadObject key) next).
Proof.
  intros Hs Hn. apply sure_call.
  - destruct (objects s !! key) as [body|] eqn:E; [exists (inl (Some (Z.of_nat (py_len body)))), s | exists (inr (ClientError "404" (Some 404%Z))), s];
      (split; [split; [done | by try exists body] | done]).
  - intros [n|e] s' [[-> Ho] Hu]; [|destruct Hu as (? & ? & ?); by apply Hn]. destruct Ho as (body & Hb & ->). by apply Hs.
Qed.
Lemma T_get {A} (Q : shared -> A + raised -> Prop) s key body next : objects s !! key = Some body ->
  T Q s (next (inl body)) -> T Q s (Call (GetObject key) next).
Proof.
  intros Hb Hn. apply sure_call; [by exists (inl body), s |].
  intros [b|e] s' [[-> Ho] Hu]; [by replace b with body by congruence | destruct Hu; congruence].
Qed.
Lemma T_put {A} (Q : shared -> A + raised -> Prop) s key body next : 
  (objects s !! key = None -> T Q (set_objects <[key := body]> s) (next (inl tt))) ->
  (forall e, objects s !! key ≠ None -> is_client e = true -> _is_precondition e = true -> T Q s (next (inr e))) -> T Q s (Call (PutObject key body) next).
Proof.
  intros Hs Hn. apply sure_call.
  - destruct (objects s !! key) as [b|] eqn:E; [exists (inr (ClientError "PreconditionFailed" (Some 412%Z))), s | exists (inl tt), (set_objects <[key := body]> s)].
    + split; [by left |]. rewrite E. split_and!; by vm_compute.
    + by split.
  - intros [[]|e] s' [Hc Hu]; [destruct Hc as [? ->]; by apply Hs | destruct Hu as (-> & ? & ? & ?); by apply Hn].
Qed.

Lemma T_throw_if (Q : shared -> unit + raised -> Prop) s b e : b = false -> Q s (inl tt) -> T Q s (throw_if b e).
Proof. by intros ->. Qed.
Lemma read_positive : (0 < read_size self)%Z.
Proof. unfold read_size. lia. Qed.
Lemma read_chunks limit e n body : (0 < n)%Z -> (Z.of_nat (py_len body) <= limit)%Z ->
  read_all limit e 0 "" (chunks n body) = inl (Z.of_nat (py_len body), body).
Proof.
  intros Hn Hl. rewrite read_all_ok; unfold total_length; rewrite chunks_whole by done; [done | lia].
Qed.
(** Reading back what is stored. *)
Lemma T_verify (Q : shared -> Z + raised -> Prop) s key body size : objects s !! key = Some body ->
  (Z.of_nat (py_len body) <= r2_max_bytes self)%Z -> (forall n, size = Some n -> n = Z.of_nat (py_len body)) ->
  forall verify_body, Q s (inl (Z.of_nat (py_len body))) -> T Q s (_verify_evidence_remote self key (sha256 body) size verify_body).
Proof.
  intros Hb Hl Hsize verify_body HQ. unfold _verify_evidence_remote, try. apply sure_bind, sure_try_else, T_head; [|congruence].
  intros b Hb'. replace b with body by congruence. apply sure_ret. cbn [default].
  apply sure_bind, T_throw_if.
  { rewrite (proj2 (Z.ltb_ge _ _)) by done. destruct size as [n|]; [|done]. by rewrite (Hsize n), Z.eqb_refl. }
  destruct verify_body; [|exact HQ]. cbn [negb]. apply sure_bind. apply (T_get _ _ _ body); [done |]. apply sure_ret.
  rewrite read_chunks by (done || apply read_positive). apply sure_bind, sure_ret, sure_bind, T_throw_if; [|exact HQ].
  by rewrite Z.eqb_refl, bool_decide_true.
Qed.
Lemma set_same s key body : objects s !! key = Some body -> set_objects <[key := body]> s = s.
Proof. intros Hb. destruct s. unfold set_objects. simpl in *. by rewrite insert_id. Qed.
Lemma T_confirmed (Q : shared -> R2EvidenceReceipt + raised -> Prop) s key body g f : objects s !! key = Some body ->
  (Z.of_nat (py_len body) <= r2_max_bytes self)%Z -> T Q s (f (Z.of_nat (py_len body))) ->
  T Q s (try_else (_verify_evidence_remote self key (sha256 body) (Some (Z.of_nat (py_len body))) true) g f).
Proof. intros Hb Hl Hf. apply sure_try_else. eapply T_verify; [done | done | by intros n [= <-] | done]. Qed.

(** A small object is there after one request, which is refused where it was already. *)
Lemma T_single (Q : shared -> R2EvidenceReceipt + raised -> Prop) s key body : 
  objects s !! key = None \/ objects s !! key = Some body -> (Z.of_nat (py_len body) <= r2_max_bytes self)%Z ->
  Q (set_objects <[key := body]> s)
    (inl (receipt key (sha256 body) (Z.of_nat (py_len body)) 1 0 (bool_decide (objects s !! key ≠ None)) "none")) ->
  T Q s (_put_evidence_single self key body (Z.of_nat (py_len body)) (sha256 body)).
Proof.
  intros Hb Hl HQ. unfold _put_evidence_single. set (more := max_attempts self - 1). 
  assert (T Q s (single_attempts self more key body (Z.of_nat (py_len body)) (sha256 body) 0)) as HT; [|exact HT].
  destruct more; cbn [single_attempts]; apply sure_try_else, sure_bind, T_put.
  1, 3: intros E; rewrite E in HQ; apply sure_ret; eapply T_verify;
    [by cbn; rewrite lookup_insert_eq | done | by intros n [= <-] | exact HQ].
  all: intros e E He Hp; destruct Hb as [Hb|Hb]; [done |]; rewrite Hb in HQ; cbn [sure do_call];
    rewrite He, Hp; apply (T_confirmed _ _ _ body); [done | done |]; by rewrite set_same in HQ.
Qed.

(** *** Digests and keys *)
Hypothesis hex : forall s, fullmatch OutboxData._DIGEST (sha256 s) = true.
Definition object_key_for (body : string) : string := EVIDENCE_OBJECT_PREFIX +:+ sha256 body.
Lemma key_for_digest body : evidence_object_key (sha256 body) = Ok (object_key_for body) /\ validate_evidence_object_key (object_key_for body) = Ok (sha256 body).
Proof.
  unfold evidence_object_key, validate_evidence_object_key, EvidenceState._EVIDENCE_OBJECT_KEY, object_key_for.
  assert (fullmatch Replay._DIGEST (sha256 body) = true) as Hd by apply hex. rewrite Hd. split; [done |].
  rewrite (proj2 (fullmatch_lit_cat _ _ _)), removeprefix_app by (by exists (sha256 body)). done.
Qed.

(** Storing a small object, and reading it. *)
Lemma T_put_stream (Q : shared -> R2EvidenceReceipt + raised -> Prop) s body : 
  (Z.of_nat (py_len body) < multipart_threshold self)%Z -> (Z.of_nat (py_len body) <= r2_max_bytes self)%Z ->
  objects s !! object_key_for body = None \/ objects s !! object_key_for body = Some body ->
  Q (set_objects <[object_key_for body := body]> s)
    (inl (receipt (object_key_for body) (sha256 body) (Z.of_nat (py_len body)) 1 0 (bool_decide (objects s !! object_key_for body ≠ None)) "none")) ->
  T Q s (put_evidence_stream self body (Z.of_nat (py_len body)) (sha256 body)).
Proof.
  intros Hsmall Hl Hb HQ. destruct (key_for_digest body) as [Hk Hv]. unfold put_evidence_stream.
  apply sure_bind, T_throw_if; [apply Z.ltb_ge; lia |].
  apply sure_bind, T_throw_if; [apply negb_false_iff, hex |].
  rewrite read_chunks by (done || apply read_positive). apply sure_bind, sure_ret, sure_bind, T_throw_if.
  { by rewrite Z.eqb_refl, bool_decide_true. }
  rewrite Hk. apply sure_bind, sure_ret. unfold _put_evidence. apply sure_bind, T_throw_if.
  { apply orb_false_iff. split; apply Z.ltb_ge; lia. }
  assert (startswith EVIDENCE_OBJECT_PREFIX (object_key_for body) = true) as -> by apply startswith_app. rewrite Hv. apply sure_bind, sure_bind, sure_ret, T_throw_if; [by rewrite bool_decide_true |].
  rewrite (proj2 (Z.ltb_lt _ _)) by done. by apply T_single.
Qed.
Lemma T_get_bytes (Q : shared -> string + raised -> Prop) s body size : objects s !! object_key_for body = Some body ->
  (Z.of_nat (py_len body) <= r2_max_bytes self)%Z -> (forall n, size = Some n -> n = Z.of_nat (py_len body)) ->
  Q s (inl body) -> T Q s (get_evidence_bytes self (object_key_for body) size).
Proof.
  intros Hb Hl Hsize HQ. destruct (key_for_digest body) as [_ Hv]. unfold get_evidence_bytes. rewrite Hv. apply sure_bind, sure_ret.
  apply sure_bind. unfold readback_mismatch_on_value, try. apply sure_try_else. eapply T_verify; [done | done | done |]. apply sure_ret.
  apply sure_bind, T_throw_if.
  { unfold bad_expected_size. destruct size as [n|]; [|done]. rewrite (Hsize n) by done. apply orb_false_iff. split; apply Z.ltb_ge; lia. }
  unfold read_body. apply sure_bind. apply (T_get _ _ _ body); [done |]. apply sure_ret. cbv zeta.
  set (limit := match size with Some n => _ | None => _ end).
  assert (Z.of_nat (py_len body) < limit)%Z as Hlim.
  { unfold limit. destruct size as [n|]; [rewrite (Hsize n) by done |]; lia. }
  rewrite (proj2 (Z.ltb_ge _ _)), str_take_all by lia. apply sure_bind, T_throw_if; [|exact HQ].
  rewrite Z.eqb_refl, (proj2 (Z.ltb_ge _ _)), bool_decide_true by done. destruct size as [n|]; [|done]. by rewrite (Hsize n), Z.eqb_refl.
Qed.
End undisturbed.
