(* ===== verification/EvidenceDemo.v ===== *)
(** * A concrete bucket of evidence

    The store, the hosts' files and the outboxes as a function that answers every call, a
    scheduler that runs one client with it, and the runs the witnesses use. *)

From stdpp Require Import pretty.
From Stdlib Require Import Ascii SpecFloat.
From S2P Require Import Prelude PyStr PyObj PyDatetime PyJson LogicalJat LogicalJatDemo Catalog CatalogFile Keyset SessionEvidence Replay ReplayDemo OutboxData RecordProps.
From S2P Require Import OutboxStore PreparedOutbox PccOutbox OutboxLogic QueueRecords QueueModel QueueSpec QueueRefine OutboxOps OutboxProps OutboxDemo.
From S2P Require Import Programs EvidenceState EvidenceStore EvidencePublish EvidenceStateProps EvidenceRuns EvidenceInvariant EvidenceProps.

(** ** A service that answers *)
Definition not_there : raised := ClientError "404" (Some 404%Z).
Definition refused : raised := ClientError "PreconditionFailed" (Some 412%Z).
Fixpoint ascending (l : list part) : bool :=
  match l with
  | p :: (q :: _) as l' => (p.1 <? q.1)%Z && ascending l'
  | _ => true
  end.
Definition body_of (u : upload) (p : part) : option string :=
  match upload_parts u !! p.1 with Some (tag, body) => if bool_decide (tag = p.2) then Some body else None | None => None end.
Definition draw (s : shared) : option string :=
  find (fun t => bool_decide (tokens s !! t = None)) ((fun c => of_chars (replicate 31 "0"%char ++ [c])) <$> chars "0123456789abcdef").

Section service.
Context `{PyRuntime}.
Variable envs : nat -> Env.
Variable texts : list string.
Variable source : string -> string.
Let published (c : string) : Prop := c ∈ texts.

Definition outbox_answer {A} (m : M A) (h : nat) (s : shared) : (A + raised) * shared :=
  (match (m (outboxes s h)).1 with Ok a => inl a | Raise e => inr (Python e) end, set_outbox h (m (outboxes s h)).2 s).
(** The upload with this key and identifier, when it is open. *)
Definition find_open (s : shared) (key id : string) : option upload :=
  match uploads s !! id with Some u => if bool_decide (upload_key u = key) && upload_open u then Some u else None | None => None end.

Definition answer (h : nat) (s : shared) (R : Type) (c : call R) : option ((R + raised) * shared) :=
  match c in call R return option ((R + raised) * shared) with
  | PutObject key body => Some (match objects s !! key with None => (inl tt, set_objects <[key := body]> s) | Some _ => (inr refused, s) end)
  | HeadObject key => Some (match objects s !! key with Some body => inl (Some (Z.of_nat (py_len body))) | None => inr not_there end, s)
  | GetObject key => Some (match objects s !! key with Some body => inl body | None => inr not_there end, s)
  | CreateMultipartUpload key =>
      let id := "upload-" +:+ pretty (base.size (uploads s)) in
      Some (match uploads s !! id with None => (inl id, set_uploads <[id := fresh_upload h key]> s) | Some _ => (inr TimeoutError, s) end)
  | UploadPart key id n body =>
      Some (match find_open s key id with
            | Some u => (inl ("tag-" +:+ pretty n), set_uploads <[id := with_part n ("tag-" +:+ pretty n) body u]> s)
            | None => (inr not_there, s)
            end)
  | CompleteMultipartUpload key id ps =>
      Some (match find_open s key id with
            | Some u =>
                match mapM (body_of u) ps with
                | Some bodies =>
                    if ascending ps then (inl tt, set_objects <[key := py_join "" bodies]> (set_uploads <[id := closed u]> s)) else (inr refused, s)
                | None => (inr refused, s)
                end
            | None => (inr not_there, s)
            end)
  | AbortMultipartUpload key id =>
      Some (match find_open s key id with Some u => (inl tt, set_uploads <[id := closed u]> s) | None => (inr not_there, s) end)
  | ListObjects _ _ => Some (inr TimeoutError, s)
  | ReadSource path => Some (if bool_decide (source path ∈ texts) then inl (source path) else inr (Python EOS), s)
  | CheckReceiptRoot | CheckState _ | Lock _ | Unlock _ | RequirePrepareUpload => Some (inl tt, s)
  | ReadState name => Some (inl (states s !! (h, name)), s)
  | WriteState name text => Some (inl tt, set_states <[(h, name) := text]> s)
  | RemoveState name => Some (inl tt, set_states (delete (h, name)) s)
  | TokenHex => Some (match draw s with Some t => (inl t, set_tokens <[t := h]> s) | None => (inr (Python EOS), s) end)
  | InspectRecord id => Some (outbox_answer (@PccOutbox.inspect_record (envs h) _ (PStr id)) h s)
  | InspectPrepared id =>
      let r := outbox_answer (@PreparedOutbox.inspect_record (envs h) _ (PStr id)) h s in
      match r.1 with
      | inl (Some (Inline p)) => if bool_decide (pr_ciphertext p ∈ texts) then Some r else None
      | _ => Some r
      end
  | MarkUploaded id own key n => Some (outbox_answer (@mark_uploaded (envs h) _ (PStr id) (PStr own) (PStr key) (PInt n)) h s)
  | PublishIndex id own i => Some (outbox_answer (@publish_index (envs h) _ (PStr id) (PStr own) (PStr i)) h s)
  | CommitRecord id own => Some (outbox_answer (@commit (envs h) _ (PStr id) (PStr own)) h s)
  end.

Lemma ascending_sorted ps : ascending ps = true -> StronglySorted (fun p q : part => p.1 < q.1)%Z ps.
Proof.
  induction ps as [|p [|q ps] IH]; [constructor | intros _; by repeat constructor |].
  intros [Hpq%Z.ltb_lt Ha]%andb_true_iff. specialize (IH Ha). apply SSorted_cons; [done |].
  apply StronglySorted_inv in IH as [_ Hq]. apply Forall_cons_2; [done |]. eapply Forall_impl; [exact Hq |]. simpl. intros x Hx. lia.
Qed.
Lemma find_open_inv s key id u : find_open s key id = Some u -> is_open s key id u.
Proof. unfold find_open, is_open. destruct (uploads s !! id); [|done]. case_match; [|done]. intros [= ->]. by bools. Qed.
Lemma mapM_bodies u ps bodies : mapM (body_of u) ps = Some bodies -> Forall2 (fun (p : part) b => upload_parts u !! p.1 = Some (p.2, b)) ps bodies.
Proof.
  intros Hm. apply mapM_Some in Hm. eapply Forall2_impl; [exact Hm |]. intros p b. unfold body_of.
  destruct (upload_parts u !! p.1) as [[tag body]|]; [|done]. case_bool_decide; [|done]. by intros [= <-]; subst.
Qed.
Lemma draw_inv s t : draw s = Some t -> tokens s !! t = None /\ fullmatch FENCE t = true.
Proof.
  intros Hd. apply find_some in Hd as [Hin Hn%bool_decide_eq_true]. split; [done |].
  assert (forallb (fullmatch FENCE) ((fun c => of_chars (replicate 31 "0"%char ++ [c])) <$> chars "0123456789abcdef") = true) as Ha by by vm_compute.
  rewrite forallb_forall in Ha. by apply Ha.
Qed.
Lemma answer_serves h s R (c : call R) o s' : answer h s R c = Some (o, s') -> serve envs published h s R c o s'.
Proof.
  destruct c; cbn [answer serve]; try (intros [= <- <-]; first [split; [done | eauto] | done]; fail).
  - destruct (objects s !! key) eqn:E; intros [= <- <-]; [by left | done].
  - destruct (objects s !! key) eqn:E; intros [= <- <-]; (split; [done |]); [by exists s0 | done].
  - destruct (objects s !! key) eqn:E; intros [= <- <-]; by split.
  - cbv zeta. destruct (uploads s !! _) eqn:E; intros [= <- <-]; [by left | by split].
  - destruct (find_open s key upload_id) as [u|] eqn:E; intros [= <- <-]; [|by left]. exists u. split; [by apply find_open_inv | done].
  - destruct (find_open s key upload_id) as [u|] eqn:E; [|intros [= <- <-]; by left].
    destruct (mapM (body_of u) parts) as [bodies|] eqn:Em; [|intros [= <- <-]; by left].
    destruct (ascending parts) eqn:Ea; intros [= <- <-]; [|by left]. exists u, (py_join "" bodies). split; [by apply find_open_inv |]. split; [|done].
    exists bodies. split; [by apply mapM_bodies | split; [by apply ascending_sorted | done]].
  - destruct (find_open s key upload_id) as [u|] eqn:E; intros [= <- <-]; [|by left]. exists u. split; [by apply find_open_inv | done].
  - case_bool_decide; intros [= <- <-]; by split.
  - intros [= <- <-]. by right.
  - destruct (draw s) as [t|] eqn:E; intros [= <- <-]; [|done]. apply draw_inv in E as [? ?]. done.
  - cbv zeta. destruct (outbox_answer _ _ _) as [o1 s1] eqn:E. simpl. unfold outbox_answer in E. injection E as <- <-.
    intros Ho. destruct ((PreparedOutbox.inspect_record (PStr event_id) (outboxes s h)).1) as [[[r|r]|]|e] eqn:Er;
      try (injection Ho as <- <-; split; [split; [done | by rewrite Er] | done]; fail).
    simpl in Ho. case_bool_decide; [|done]. injection Ho as <- <-. split; [split; [done | by rewrite Er] | done].
Qed.

(** ** Clients, one at a time *)
Fixpoint run {A} (fuel : nat) (h : nat) (s : shared) (m : program A) : shared * program A :=
  match fuel, m with
  | S fuel, Call c next => match answer h s _ c with Some (o, s') => run fuel h s' (next o) | None => (s, m) end
  | _, _ => (s, m)
  end.
Lemma run_system `{JsonRuntime} cfg chunk_size fuel h s cs i m : cs !! i = Some {| host := h; running := m |} ->
  rtc (system_step envs cfg published chunk_size) {| installation := s; clients := cs |}
    {| installation := (run fuel h s m).1; clients := <[i := {| host := h; running := (run fuel h s m).2 |}]> cs |}.
Proof.
  revert s m cs. induction fuel as [|fuel IH]; intros s [r|R c next] cs Hi; simpl; try (by rewrite list_insert_id).
  destruct (answer h s R c) as [[o s']|] eqn:E; simpl; [|by rewrite list_insert_id].
  eapply rtc_l; [eapply step_call; [exact Hi | by apply answer_serves] |].
  pose proof (IH s' (next o) (<[i := {| host := h; running := next o |}]> cs)) as Hr. rewrite list_insert_insert_eq in Hr.
  apply Hr. rewrite list_lookup_insert_eq; [done |]. by apply lookup_lt_Some in Hi.
Qed.

(** ** Scripts *)
Inductive command := Operate (h : nat) (o : op) | Begin (h : nat) (t : task) | Turns (n i : nat) | Expire (id : string).
Context `{JsonRuntime}.
Variable cfg : config.
Variable self : R2Backend.

Definition play (y : system) (c : command) : system :=
  let s := installation y in
  match c with
  | Operate h o => {| installation := set_outbox h (@run_op (envs h) _ cfg o (outboxes s h)).2 s; clients := clients y |}
  | Begin h t => {| installation := s; clients := clients y ++ [{| host := h; running := task_program self t |}] |}
  | Turns n i =>
      match clients y !! i with
      | Some {| host := h; running := m |} =>
          let r := run n h s m in {| installation := r.1; clients := <[i := {| host := h; running := r.2 |}]> (clients y) |}
      | None => y
      end
  | Expire id =>
      match uploads s !! id with Some u => {| installation := set_uploads <[id := closed u]> s; clients := clients y |} | None => y end
  end.
Definition command_ok (c : command) : Prop :=
  match c with
  | Operate h o => without_evidence o /\ forall q w, represents q w -> orderly q w o
  | Begin _ t => task_ok published t
  | _ => True
  end.
Lemma play_steps y cs : (0 < multipart_chunk_size self)%Z -> (r2_max_bytes self < 2 ^ 63)%Z -> Forall command_ok cs ->
  rtc (system_step envs cfg published (fun _ => multipart_chunk_size self)) y (foldl play y cs).
Proof.
  intros Hpos Hmax Hcs. revert y. induction Hcs as [|c cs Hc _ IH]; intros y; [done |]. cbn [foldl]. etrans; [|apply IH].
  destruct y as [s l], c as [h o|h t|n i|id]; unfold play; cbn [installation clients].
  - apply rtc_once, step_outbox; [apply Hc |]. intros q. apply Hc.
  - by apply rtc_once, step_start.
  - destruct (l !! i) as [[h m]|] eqn:E; [|done]. by apply run_system.
  - destruct (uploads s !! id) as [u|] eqn:E; [|done]. by apply rtc_once, step_expire.
Qed.
End service.

(** ** The demo: one record, two hosts and an upload that expires *)
#[local] Existing Instance replay_python.
#[local] Existing Instance jat_json.
Definition bucket_envs (_ : nat) : Env := demo_env.
Definition bucket_texts : list string := ["hello"; "the index"].
Definition bucket_source (_ : string) : string := "hello".
Definition bucket_published (c : string) : Prop := c ∈ bucket_texts.
Definition backend (chunk : Z) : R2Backend :=
  {| provider_module := "josh_room.r2"; endpoint := "https://r2.invalid"; bucket := "rooms"; dimension_id := None;
     multipart_threshold := 4; multipart_chunk_size := chunk; r2_max_bytes := 1000; config_max_attempts := 3 |}.
Definition fresh : shared :=
  {| objects := ∅; uploads := ∅; late := []; tokens := ∅; states := ∅; outboxes := fun _ => empty_world |}.
Definition bucket_start : system := {| installation := fresh; clients := [] |}.
Definition publish_task : task := Publish "A" "worker" (Some (IndexBytes "the index")).
Definition evidence_key : string := EVIDENCE_OBJECT_PREFIX +:+ length_digest "hello".
(** A record is prepared and its publication stops after the first part was sent; another
    host finds the claim taken. *)
Definition bucket_script : list command :=
  [Operate 0 (demo_enqueue "A" 10); Operate 0 (OpClaim (PStr "worker"));
   Operate 0 (OpTransition (PStr "A") (PStr "worker") (PStr "source-snapshotted") []);
   Operate 0 (OpPrepare (PStr "A") (PStr "worker") "hello" PNone);
   Begin 0 publish_task; Turns 29 0; Begin 1 (PutFile "hello.age"); Turns 100 1].
(** The upload expires, which the next publication finds out; the one after it commits. *)
Definition bucket_commit : list command :=
  [Expire "upload-0"; Begin 0 publish_task; Turns 100 2; Begin 0 publish_task; Turns 150 3].
(** The other host publishes the same file and reads the object. *)
Definition bucket_reads : list command :=
  [Begin 1 (PutFile "hello.age"); Turns 100 4; Begin 1 (Fetch evidence_key None); Turns 100 5].
Definition bucket_play : system -> list command -> system := foldl (play bucket_envs bucket_texts bucket_source demo_config (backend 2)).
Definition bucket_stopped : system := bucket_play bucket_start bucket_script.
Definition bucket_committed : system := bucket_play bucket_stopped bucket_commit.
Definition bucket_end : system := bucket_play bucket_committed bucket_reads.

Lemma length_digest_hex s : fullmatch OutboxData._DIGEST (sha256 s) = true.
Proof.
  cbn [sha256 replay_python]. unfold length_digest. cbv zeta.
  assert (forall n, is_hex (hex_digit (n mod 16)) = true) as Hx.
  { intros n. pose proof (Nat.mod_upper_bound n 16 ltac:(lia)) as Hn. revert Hn. generalize (n mod 16). intros m Hm.
    do 16 (destruct m as [|m]; [by vm_compute |]). lia. }
  apply fullmatch_lang, lang_exactly_cls. rewrite chars_of_chars. split; [by rewrite length_app, length_replicate |].
  apply Forall_app_2; [by apply Forall_replicate |]. by repeat constructor.
Qed.
Lemma bucket_setting : setting bucket_envs demo_config bucket_published.
Proof.
  split.
  - apply demo_config_ok.
  - intros h. apply demo_leases.
  - apply length_digest_hex.
  - intros c c' Hc Hc'. unfold bucket_published, bucket_texts in *. rewrite !elem_of_cons, elem_of_nil in Hc, Hc'.
    destruct Hc as [-> | [-> | []]], Hc' as [-> | [-> | []]]; [done | intros E; by vm_compute in E | intros E; by vm_compute in E | done].
  - simpl. lia.
Qed.
Lemma bucket_steps y cs : Forall (command_ok bucket_texts) cs ->
  rtc (system_step bucket_envs demo_config bucket_published (fun _ => 2%Z)) y (bucket_play y cs).
Proof. exact (play_steps bucket_envs bucket_texts bucket_source demo_config (backend 2) y cs eq_refl eq_refl). Qed.
Lemma bucket_stopped_arises : arises bucket_envs demo_config bucket_published (fun _ => 2%Z) bucket_stopped.
Proof.
  exists bucket_start. split; [split; [by intros; apply lookup_empty | done] | apply bucket_steps].
  repeat (apply Forall_cons_2); try (by apply Forall_nil_2); try done; try (simpl; split; done).
  - split; [by split |]. intros q w _ s E. by injection E as <-.
  - simpl. unfold bucket_texts. set_solver.
Qed.
Lemma bucket_committed_arises : arises bucket_envs demo_config bucket_published (fun _ => 2%Z) bucket_committed.
Proof.
  destruct bucket_stopped_arises as (y0 & Hp & Hs). exists y0. split; [done |]. etrans; [exact Hs | apply bucket_steps].
  repeat (apply Forall_cons_2); try (by apply Forall_nil_2); try done; simpl; unfold bucket_texts; set_solver.
Qed.
Lemma bucket_end_steps : rtc (system_step bucket_envs demo_config bucket_published (fun _ => 2%Z)) bucket_committed bucket_end.
Proof. apply bucket_steps. repeat (apply Forall_cons_2); try (by apply Forall_nil_2); done. Qed.
Lemma bucket_end_arises : arises bucket_envs demo_config bucket_published (fun _ => 2%Z) bucket_end.
Proof. destruct bucket_committed_arises as (y0 & Hp & Hs). exists y0. split; [done |]. etrans; [exact Hs | apply bucket_end_steps]. Qed.
#[global] Opaque bucket_stopped bucket_committed bucket_end.

(** What client [i] of a system returned or raised. *)
Definition result_of (i : nat) (y : system) : option (outcome + raised) :=
  match clients y !! i with Some {| host := _; running := Done o |} => Some o | _ => None end.
(** The content of the record's file at the end. *)
Definition bucket_content : content :=
  match files (outboxes (installation bucket_end) 0) !! (QUEUE, json_name "A") with Some (Regular c _) => c | _ => json_content PNone end.
Definition record_of (v : option pyobj) : QueueRecord :=
  default demo_queued (v ← v; match QueueRecord_from_dict v with Ok r => Some r | Raise _ => None end).
Definition bucket_record : QueueRecord := record_of (decoded bucket_content).

(** What the client that committed returned, and the uploads by identifier. *)
Definition returned (r : option (outcome + raised)) : outcome := match r with Some (inl o) => o | _ => Found [] end.
Definition bucket_publication : outcome := returned (result_of 3 bucket_end).
Definition upload_of (id : string) : upload := default (fresh_upload 7 "") (uploads (installation bucket_end) !! id).
(** A bucket with a small object. *)
Definition bucket_full : shared := set_objects <[object_key_for "abc" := "abc"]> fresh.
