(* ===== verification/EvidenceTheorems.v ===== *)
(** * Publication of evidence: property theorems

    Whatever calls fail, early, late or never, however clients of any number of hosts take
    turns, and wherever they stop.  The systems considered ([system_step], from [pristine])
    have provisos that the code does not enforce.
    - Each host keeps the size of its multipart parts, from one client to the next: a client
      starts with [multipart_chunk_size] equal to its host's [chunk_size], which is positive,
      and with a largest object below 2^63 bytes.  [changed_part_size_corrupts] shows what an
      upload does that is resumed with another part size.
    - The outbox operations of a host outside publication are [orderly], and none of them is a
      transition that names an object key or an index id ([without_evidence]).
    - Objects whose keys have the form of an evidence, an index or a claim key are written by
      these clients only ([step_object] leaves them alone).
    - What is handed to them as ciphertext is one of the installation's ciphertexts, of which
      no two have the same digest ([task_ok], [setting]). *)

From Stdlib Require Import SpecFloat.
From S2P Require Import Prelude PyStr PyObj PyDatetime PyJson LogicalJat JsonProps Catalog CatalogFile Keyset SessionEvidence Replay LogicalJatDemo ReplayDemo OutboxData RecordProps.
From S2P Require Import OutboxStore PreparedOutbox PccOutbox OutboxLogic QueueRecords QueueModel QueueSpec QueueRefine OutboxOps OutboxProps.
From S2P Require Import Programs EvidenceState EvidenceStore EvidencePublish EvidenceStateProps EvidenceRuns EvidenceInvariant EvidenceProps OutboxDemo EvidenceDemo.

Section theorems.
Context `{PyRuntime, JsonRuntime}.

(** C9: stored evidence is what its key says, for good, as long as each host keeps the size of
    its multipart parts.  In a system that arises under the provisos above, an object under an
    evidence or an index key is a ciphertext of the installation with the digest in the key,
    and whatever clients of any host do from then on, each with the part size of its host, and
    whatever fails, it stays as it is.  (With another part size it can be overwritten:
    [changed_part_size_corrupts].) *)
Theorem evidence_immutable envs cfg published chunk_size y y' key digest body :
  setting envs cfg published -> arises envs cfg published chunk_size y -> rtc (system_step envs cfg published chunk_size) y y' ->
  names key digest -> objects (installation y) !! key = Some body ->
  published body /\ sha256 body = digest /\ objects (installation y') !! key = Some body.
Proof.
  intros Hset Ha Hs Hn Hb. pose proof (arises_sound _ _ _ _ Hset _ Ha) as Hy.
  destruct (steps_sound _ _ _ _ Hset _ _ Hy Hs) as [_ He]. destruct Hy as [Hg _].
  destruct (proj1 (good_objects _ _ _ _ Hg _ _ Hb) _ Hn) as [Hp Hd]. split; [done |]. split; [done |].
  eapply object_stays; [by eapply names_reserved | done | done].
Qed.

(** C6: a receipt is a promise kept, as long as each host keeps the size of its multipart
    parts.  In a system that arises under the provisos above, when publication has returned,
    the object its receipt names is in the bucket with the receipt's digest and length, a
    publication that committed also has such a receipt for its index, and what a reader
    returned is the object under the key it was asked for, with the digest in that key.  (An
    upload resumed with another part size can still replace an object after its receipt was
    given: [changed_part_size_corrupts] shows what it stores.) *)
Theorem results_are_true envs cfg published chunk_size y i h o :
  setting envs cfg published -> arises envs cfg published chunk_size y ->
  clients y !! i = Some {| host := h; running := Done (inl o) |} -> outcome_true (installation y) o.
Proof.
  intros Hset Ha Hi. destruct (arises_sound _ _ _ _ Hset _ Ha) as [_ Hc]. pose proof (Forall_lookup_1 _ _ _ _ Hc Hi) as Hw.
  by apply (Hw (installation y)).
Qed.

(** C5: committed means stored.  In every system that arises under the provisos above (each
    host keeps its part size; outbox operations outside publication are orderly and name
    neither an object nor an index), a record that the outbox of any host holds as committed
    has its evidence in the bucket under the key of its ciphertext digest and its index under
    the key of its index id, each with that digest. *)
Theorem committed_is_stored envs cfg published chunk_size y h name n v r :
  setting envs cfg published -> arises envs cfg published chunk_size y ->
  is_json_name name = true -> files (outboxes (installation y) h) !! (QUEUE, name) = Some (Regular n true) -> decoded n = Some v ->
  QueueRecord_from_dict v = Ok r -> OutboxData.state r = COMMITTED ->
  exists digest index key index_key body index_body,
    ciphertext_sha256 r = Some digest /\ index_id r = Some index /\ object_key r = Some key
    /\ evidence_object_key digest = Ok key /\ objects (installation y) !! key = Some body /\ sha256 body = digest
    /\ evidence_index_key index = Ok index_key /\ objects (installation y) !! index_key = Some index_body /\ sha256 index_body = index.
Proof.
  intros Hset Ha Hn Hf Hv Hr Hst. destruct (arises_sound _ _ _ _ Hset _ Ha) as [Hg _].
  destruct (good_outboxes _ _ _ _ Hg h) as (q & Hw & Hwf & Hb).
  rewrite (rep_files _ _ Hw) in Hf by done. apply fmap_Some in Hf as (r' & Hq & E). injection E as ->.
  simpl in Hv. injection Hv as <-. destruct (wf_entry _ _ Hwf _ _ Hq) as [_ Hgood].
  rewrite from_dict_to_dict in Hr by apply Hgood. injection Hr as ->.
  destruct (committed_evidence cfg r Hgood Hst) as (key & digest & size & index & Hkey & Hdig & Hsha & _ & Hi & _).
  destruct (Hb _ _ Hq) as [Bk Bi]. destruct (Bk _ Hkey) as [[d Hd] [body Hbody]]. destruct (Bi _ Hi) as (ik & Hik & ibody & Hibody).
  destruct (proj1 (good_objects _ _ _ _ Hg _ _ Hbody) _ Hd) as [_ Hd'].
  destruct (proj1 (good_objects _ _ _ _ Hg _ _ Hibody) index (or_intror Hik)) as [_ Hi'].
  pose proof (object_key_of_digest _ _ _ Hd Hdig) as [-> Hok].
  exists digest, index, key, ik, body, ibody. done.
Qed.

(** C10: one host uploads.  All multipart uploads that were ever opened under one key were
    opened by the same host, the one whose fence is in the key's claim. *)
Theorem one_uploader envs cfg published chunk_size y id id' u u' :
  setting envs cfg published -> arises envs cfg published chunk_size y ->
  uploads (installation y) !! id = Some u -> uploads (installation y) !! id' = Some u' -> upload_key u = upload_key u' ->
  upload_host u = upload_host u'
  /\ exists digest claim_key size fence, names (upload_key u) digest /\ evidence_claim_key digest (upload_key u) = Ok claim_key
       /\ objects (installation y) !! claim_key = Some (claim_text digest size fence) /\ tokens (installation y) !! fence = Some (upload_host u).
Proof.
  intros Hset Ha Hu Hu' Hkey. destruct (arises_sound _ _ _ _ Hset _ Ha) as [Hg _].
  destruct (good_uploads _ _ _ _ Hg _ _ Hu) as [(d & ck & n & f & Hd & Hck & Hb & Hn & Hf) _].
  destruct (good_uploads _ _ _ _ Hg _ _ Hu') as [(d' & ck' & n' & f' & Hd' & Hck' & Hb' & Hn' & Hf') _].
  split; [|by exists d, ck, n, f]. rewrite <- Hkey in Hd', Hck'. pose proof (names_inj _ _ _ Hd Hd') as ->.
  rewrite Hck in Hck'. injection Hck' as ->. rewrite Hb in Hb'. pose proof (Some_inj _ _ Hb') as E.
  apply claim_text_fence in E as ->; [congruence | destruct Hset; lia | done | done].
Qed.

(** C36: an upload state survives its file.  A state as publication saves it, within the
    bound on its length, is read back by the same host as the same state. *)
Theorem upload_state_roundtrip key digest size st :
  3 <= json_depth -> valid_state st -> (0 <= size < 2 ^ 63)%Z ->
  state_key st = key -> state_sha256 st = digest -> state_size st = size -> evidence_claim_key digest key = Ok (state_claim_key st) ->
  (Z.of_nat (py_len (state_text st)) <= _MAX_EVIDENCE_STATE_BYTES)%Z ->
  read_state (state_text st) key digest size = inl st.
Proof.
  intros Hd Hv Hs Hk Hsha Hsize Hc Hlen. unfold read_state, decoding. rewrite (proj2 (Z.ltb_ge _ _)) by done.
  unfold state_text. rewrite loads_written by (apply state_plain; [done | split; [lia | apply Hv]]). rewrite Hc. by rewrite check_state_valid.
Qed.

(** C11: what is stored can be read.  When nothing disturbs the calls, storing a ciphertext
    below the multipart threshold that is not in the bucket, or is there already, and then
    reading the object its receipt names ends with the ciphertext itself; the bucket has it
    under the key of its digest and is otherwise as before, and the receipt says whether it
    was there. *)
Theorem small_evidence_roundtrip envs published h self s content :
  (forall c, fullmatch OutboxData._DIGEST (sha256 c) = true) -> (0 < multipart_chunk_size self)%Z ->
  (Z.of_nat (py_len content) < multipart_threshold self)%Z -> (Z.of_nat (py_len content) <= r2_max_bytes self)%Z ->
  objects s !! object_key_for content = None \/ objects s !! object_key_for content = Some content ->
  sure (undisturbed envs published h)
    (fun s' o =>
       o = inl (receipt (object_key_for content) (sha256 content) (Z.of_nat (py_len content)) 1 0
                  (bool_decide (objects s !! object_key_for content ≠ None)) "none", content)
       /\ s' = set_objects <[object_key_for content := content]> s) s
    (r ← put_evidence_stream self content (Z.of_nat (py_len content)) (sha256 content);
     body ← get_evidence_bytes self (receipt_key r) (Some (receipt_bytes r));
     mret (r, body)).
Proof.
  intros Hhex Hchunk Hsmall Hmax Hb. apply sure_bind, T_put_stream; [done.. |]. cbn [receipt receipt_key receipt_bytes].
  apply sure_bind, T_get_bytes; [done | done | by cbn; rewrite lookup_insert_eq | done | by intros n [= <-] |].
  apply sure_ret. done.
Qed.
End theorems.

(** ** Witnesses *)
#[local] Existing Instance replay_python.
#[local] Existing Instance jat_json.
Lemma evidence_immutable_witness :
  names evidence_key (length_digest "hello") /\ objects (installation bucket_committed) !! evidence_key = Some "hello"
  /\ bucket_published "hello" /\ sha256 "hello" = length_digest "hello" /\ objects (installation bucket_end) !! evidence_key = Some "hello".
Proof.
  assert (names evidence_key (length_digest "hello")) as Hn by (left; by vm_compute).
  assert (objects (installation bucket_committed) !! evidence_key = Some "hello") as Hb by by vm_compute.
  split; [exact Hn |]. split; [exact Hb |].
  exact (evidence_immutable _ _ _ _ _ _ _ _ _ bucket_setting bucket_committed_arises bucket_end_steps Hn Hb).
Defined.
Lemma results_are_true_witness :
  clients bucket_end !! 3 = Some {| host := 0; running := Done (inl bucket_publication) |} /\ outcome_true (installation bucket_end) bucket_publication.
Proof.
  assert (clients bucket_end !! 3 = Some {| host := 0; running := Done (inl bucket_publication) |}) as Hi by by vm_compute.
  split; [exact Hi | exact (results_are_true _ _ _ _ _ _ _ _ bucket_setting bucket_end_arises Hi)].
Defined.
Lemma committed_is_stored_witness :
  OutboxData.state bucket_record = COMMITTED
  /\ exists digest index key index_key body index_body,
    ciphertext_sha256 bucket_record = Some digest /\ index_id bucket_record = Some index /\ object_key bucket_record = Some key
    /\ evidence_object_key digest = Ok key /\ objects (installation bucket_end) !! key = Some body /\ sha256 body = digest
    /\ evidence_index_key index = Ok index_key /\ objects (installation bucket_end) !! index_key = Some index_body /\ sha256 index_body = index.
Proof.
  assert (OutboxData.state bucket_record = COMMITTED) as Hst by by vm_compute.
  split; [exact Hst |].
  refine (committed_is_stored _ _ _ _ _ 0 (json_name "A") bucket_content (QueueRecord_to_dict bucket_record) _ bucket_setting bucket_end_arises _ _ _ _ Hst);
    by vm_compute.
Defined.
Lemma one_uploader_witness :
  upload_key (upload_of "upload-0") = upload_key (upload_of "upload-1")
  /\ upload_host (upload_of "upload-0") = upload_host (upload_of "upload-1")
  /\ exists digest claim_key size fence, names (upload_key (upload_of "upload-0")) digest
       /\ evidence_claim_key digest (upload_key (upload_of "upload-0")) = Ok claim_key
       /\ objects (installation bucket_end) !! claim_key = Some (claim_text digest size fence)
       /\ tokens (installation bucket_end) !! fence = Some (upload_host (upload_of "upload-0")).
Proof.
  assert (upload_key (upload_of "upload-0") = upload_key (upload_of "upload-1")) as Hk by by vm_compute.
  assert (uploads (installation bucket_end) !! "upload-0" = Some (upload_of "upload-0")) as H0 by (vm_compute; reflexivity).
  assert (uploads (installation bucket_end) !! "upload-1" = Some (upload_of "upload-1")) as H1 by (vm_compute; reflexivity).
  split; [exact Hk |].
  exact (one_uploader bucket_envs demo_config bucket_published (fun _ => 2%Z) bucket_end _ _ _ _ bucket_setting bucket_end_arises H0 H1 Hk).
Defined.
Definition saved_state : EvidenceState :=
  {| state_key := evidence_key; state_sha256 := length_digest "hello"; state_size := 5;
     state_claim_key := match evidence_claim_key (length_digest "hello") evidence_key with Ok k => k | Raise _ => "" end;
     fence := "0123456789abcdef0123456789abcdef"; stage := Uploading; upload_id := Some "upload-1"; parts := [(1%Z, "tag-1"); (2%Z, "tag-2")] |}.
(** A ciphertext below the threshold that is in the bucket already. *)
Lemma small_evidence_roundtrip_witness :
  objects bucket_full !! object_key_for "abc" = Some "abc"
  /\ sure (E:=raised) (undisturbed bucket_envs bucket_published 0)
    (fun s' o =>
       o = inl (receipt (object_key_for "abc") (sha256 "abc") (Z.of_nat (py_len "abc")) 1 0
                  (bool_decide (objects bucket_full !! object_key_for "abc" ≠ None)) "none", "abc")
       /\ s' = set_objects <[object_key_for "abc" := "abc"]> bucket_full) bucket_full
    (r ← put_evidence_stream (backend 2) "abc" (Z.of_nat (py_len "abc")) (sha256 "abc");
     body ← get_evidence_bytes (backend 2) (receipt_key r) (Some (receipt_bytes r));
     mret (r, body)).
Proof.
  assert (objects bucket_full !! object_key_for "abc" = Some "abc") as Hb by (vm_compute; reflexivity).
  split; [exact Hb |].
  exact (small_evidence_roundtrip bucket_envs bucket_published 0 (backend 2) bucket_full "abc" length_digest_hex eq_refl eq_refl
           ltac:(vm_compute; discriminate) (or_intror Hb)).
Defined.
Lemma upload_state_roundtrip_witness : read_state (state_text saved_state) evidence_key (length_digest "hello") 5 = inl saved_state.
Proof.
  assert (valid_state saved_state) as Hv.
  { split; [by vm_compute | intros u Hu; injection Hu as <-; apply Nat.leb_le; by vm_compute | by vm_compute | | |].
    - apply (bool_decide_unpack _); by vm_compute.
    - apply (bool_decide_unpack _); by vm_compute.
    - apply (bool_decide_unpack _); by vm_compute. }
  apply (upload_state_roundtrip evidence_key (length_digest "hello") 5 saved_state); try exact eq_refl; [simpl; lia | exact Hv | lia | by vm_compute.. ].
Defined.

(** An upload that stopped after its first part is taken up again with another part size:
    the part that was sent is kept whatever its length, the bytes up to where it should have
    ended are lost, and the object that is completed under the key of the content is another
    one.  The mismatch is noticed when the object is read back, which is too late: the key is
    taken, and no later publication of the content succeeds. *)
Theorem changed_part_size_corrupts :
  let stopped := installation bucket_stopped in
  let put chunk s := run bucket_envs bucket_texts bucket_source 100 0 s (task_program (backend chunk) (PutFile "hello.age")) in
  (put 3%Z stopped).2 = Done (inr (R2EvidenceReadbackMismatch true 0))
  /\ objects (put 3%Z stopped).1 !! evidence_key = Some "helo"
  /\ (put 2%Z (put 3%Z stopped).1).2 = Done (inr (R2EvidenceConflict "immutable-conflict" 0))
  /\ (put 2%Z stopped).2 = Done (inl (Stored (receipt evidence_key (length_digest "hello") 5 3 0 false "none"))).
Proof. split; [|split; [|split]]; vm_compute; reflexivity. Qed.
